(* ===== verification/_CoqProject ===== *)
-Q . S2P
Prelude.v
Word.v
State.v
Pmp.v
Csr.v
Cache.v
CacheSet.v
CacheSpec.v
CacheRefine.v
Coherence.v
Mmio.v
Mem.v
GuestMem.v
Ringbuf.v
Ftrace.v
Elf.v
ElfSpec.v
ElfWrite.v
Vmem.v
VmemSpec.v
Decode.v
Ir.v
InstTable.v
IrSpec.v
Exec.v
Isa.v
Image.v
Bpred.v
Pipeline.v
PipeFlow.v
Ring.v
Ooo.v
Renamer.v
OooStages.v
OooRename.v
OooIssue.v
OooStore.v
Regex.v
Expr.v
ExprSpec.v
ExprLex.v
Watchpoint.v
Stdio.v
Mtrace.v
Core.v
Dual.v
ExecLoop.v
Engines.v
ExecSpec.v
ExecDual.v
DualBoot.v
Sdb.v
SdbSpec.v
Main.v
OrderMachine.v
Peterson.v
PetersonLive.v
PetersonTso.v
Kstring.v
Kstdio.v
Kstdlib.v
Am.v
Nes.v
NesCpu.v
NesSafe.v
NesAlu.v
NesStack.v
NesRender.v
NesScroll.v
NesPort.v
NesBoot.v
