(* ===== verification/Prelude.v ===== *)
(** * SUSTemu, a RISC-V simulator: verification library

    SUSTemu (src/src, src/include) interprets RV64IM programs in three ways: a
    functional interpreter, a five-stage in-order pipeline and an out-of-order
    engine with register renaming.  All of them work on one simulated machine:
    registers and CSRs, physical memory behind a two-level cache with one
    private pair of first-level caches per core, and memory-mapped devices.  A
    monitor with an expression evaluator, watchpoints and traces drives the
    run.  This library models that C code in Rocq and proves what makes it
    correct.

    ** Conventions

    Words are [Z] with the wrap-around written out (Word.v); C arrays are lists
    read and written with [arr] and [upd]; structs are records; pointers are
    indices ([option Z]) into the array or heap they point into.  A C function
    is a Rocq function that passes the state it changes; where it can stop it
    returns [Res], whose errors are [Assertion] (an [assert] or [panic] that
    fires) and [Undefined] (behaviour the C standard leaves undefined).
    Uninitialised variables and everything the host supplies are arguments: the
    stack contents of [IR_Inst ir] ([junk], [stack_ir]), the clock, the window
    events, the disassembler's text, the files, the lines that [readline]
    returns.  [malloc] is assumed to succeed.

    ** Files and sources

    - Prelude, Word: outcomes, arrays, tactics and hints; general/utils.h.
    - State, Pmp, Csr: simulator/state.c; cpu/csr.c.
    - Cache, CacheSet, CacheSpec, CacheRefine, Coherence: memory/cache.c and
      prefetch.c.  The caches are proved against the class [BlockStoreLaws] of
      a memory of 64-byte blocks, which Mem.v instantiates with the bus.
    - Mmio, Mem: memory/mmio.c, device/serial.c, timer.c, keyboard.c, gpu.c;
      memory/pmem.c.  [Bus] is memory, devices, CSR file and run state.
    - Vmem, VmemSpec: memory/vmem.c.  [Mach] is the machine: bus, heap of
      caches, cache pointers, registers, counters, call trace.
    - Decode, Ir, InstTable, IrSpec: cpu/decode.c, ir.c, inst_table.inc.
    - Ringbuf, Ftrace, Elf, ElfSpec, ElfWrite: monitor/ringbuf.c, elftl.c.
    - Exec, Isa, Image: reg.c and the instruction step of exec.c; the abstract
      hart; simulator/img.c.
    - Bpred, Pipeline, PipeFlow: bpred.c, bpred2.c; pipeline.c.
    - Ring, Ooo, Renamer, OooStages, OooRename, OooIssue, OooStore: ooo.c.
      [Ooo] is the model, the others its invariants.
    - Regex, Expr, ExprSpec, ExprLex, Watchpoint: monitor/expr.c, watchpoint.c.
    - Stdio, Mtrace, Sdb, SdbSpec: the library conversions the monitor uses;
      monitor/mtrace.c; monitor/sdb.c.
    - Core, Dual, ExecLoop, Engines, ExecSpec, ExecDual, DualBoot: cpu/core.c;
      the loops of cpu/exec.c; the start-up of main.c.
    - Main: main.c and general/log.c.
    - GuestMem, Kstring, Kstdio, Kstdlib: the guest's C library, am/klib/src/string.c,
      stdio.c, stdlib.c, written against the class [GuestMemory] with the laws
      [GuestLaws] (plain memory) and [SerialLaws] (the console); the bus is an
      instance of all three.
    - Am: the guest's drivers, am/am/src/platform/nemu, over the devices of Mmio.
    - OrderMachine, Peterson, PetersonLive, PetersonTso:
      labs/order_lab/Q3/peterson.c.  The machine has two harts with (TSO) or
      without (SC) store buffers and runs a program point at a time under a
      schedule; a program is the function from program points to instructions
      that the C text defines.
    - Nes, NesCpu, NesRender: litenes/src, the NES emulator that runs as a guest:
      memory map, PPU registers, mapper and joystick; the 6502; the renderer,
      the frame and the loader.  Its globals are the record [Nes] and its
      functions computations [nesM].  NesSafe, NesAlu, NesStack, NesScroll,
      NesPort and NesBoot are what is proved of them.

    ** What is proved

    - The whole program: [main_runs_default] follows [main] from the options to
      the exit status on the built-in image; [main_needs_elf] is its behaviour
      without an ELF file, [parse_args_selects] the meaning of the options.
    - Refinement of the instruction set: [exec_simulates] relates [exec(n)] to
      [n] steps of the hart of Isa.v over a flat memory, with cache, decoder,
      trace and device service in between; [sdb_script_simulates] lifts it to
      debugger sessions; [alu_conforms], [decode_implements_table] and
      [exec_inst_invariant] are its parts.
    - Two cores: [dual_cores_simulate] for every schedule and
      [exec_dual_simulates] for the loop of [exec]; [coherence],
      [cache_refines_flat] and [vmem_flat] are the memory system's parts;
      [core_engines_invariant] keeps the engines of all cores well formed.
    - In-order pipeline: [pipeline_flow] follows every instruction through a
      clock; [forwarding_correct] for its operands, exact lengths of stalls.
    - Out-of-order engine: renaming refines an abstract renamer, flushes are
      precise, masks are exact, issue is oldest first, the store buffer is
      invisible to its core, forwarded loads see the older stores.
    - Privilege, PMP, devices, predictors: access control, first match, FIFO
      queues, bounded counters.
    - Monitor: expressions evaluate to the meaning of their syntax tree,
      watchpoint lists partition the pool, ELF symbol tables are well typed and
      survive a round trip, looking never disturbs the program.
    - Guest side: the library's word-wise copies are the byte-wise ones
      ([memmove_correct]), [printf_renders] says what reaches the console,
      [heap_blocks_disjoint] is the allocator's safety, [atoi_int2str] a round
      trip; [key_press_reaches_guest], [picture_reaches_screen] and [guest_clock]
      follow an event from the simulator's device to the guest's driver or back.
    - Shared memory programs: under sequential consistency, or under TSO
      with its fences, Peterson's lock excludes under every interleaving
      ([peterson_mutex]), and under every weakly fair schedule the lab ends with
      the right count and report ([peterson_terminates], proved against the class
      [FairTermination] of measures that a fair scheduler brings down); without
      fences it fails under TSO in every iteration, and any number of updates
      up to one per iteration can be lost ([peterson_unfenced]).
    - LiteNES: no program makes the emulated CPU leave an array or its loop
      ([cpu_run_returns]); its arithmetic is the 6502's ([alu_6502],
      [rmw_6502]); calls and interrupts come back ([subroutine_returns],
      [interrupt_returns]); the background is the scrolled picture
      ([scanline_scrolls]); a cartridge is loaded and started ([rom_boots]); what
      games see of joystick and video memory ([joystick_poll], [vram_port]).
    - Error behaviour: [srai_decoded_as_srli], [print_mtrace_ignores_range],
      [malloc_outside_contract], [guest_clock] and the further departures proved
      beside the model they belong to.

    ** Fuel and bounds

    Loops bounded by an argument or an array are structural.  [exec] for the
    engines and the dual loop takes fuel; [exec_dual_simulates] gives the amount
    that is enough, and the functional mode needs none.  Walks along linked
    lists (watchpoints) carry one more step than the pool has elements and are
    proved to end before it runs out.  [DEPTH_LIMIT] is the code's own limit.
    Printed numbers have at most twenty digits.  Loops over guest strings take a
    [limit]; the theorems hold for strings shorter than it, whatever it is.
    [cpu_run] of LiteNES takes fuel, of which 65536 * (cycles / 3 + 1) rounds are
    enough: instructions without cycles cannot fill the address space.

    ** Not modelled

    The text of the statistics reports (floating point); the LLVM disassembler,
    SDL, readline and regcomp/regexec, which are parameters or, for the regular
    expressions, their leftmost-longest semantics; device/flash.c, which the
    configuration leaves out; the host's [malloc] failing.  Of the
    guest side: am/ for other machines and its trap entry (assembly), int64.c
    (vendored from LLVM); the frame pacing and messages of litenes/src/fce.c and
    its ROM image; the other labs and test/, which are benchmarks and tests that
    run on the simulator. *)

From stdpp Require Export base option list numbers gmap strings.
From Stdlib Require Export ZArith Lia ZifyBool.

#[export] Set Default Goal Selector "!".
#[global] Open Scope Z_scope.

(** ** Outcomes of C code

    A C function either returns or the process stops.  [Assertion] is an
    [assert], [Assert] or [panic] that fired; [Undefined] is an operation the
    C standard leaves undefined (division by zero, an over-wide shift, an
    index outside an array), after which the model says nothing more. *)

Inductive err :=
  | Assertion
  | Undefined.

Inductive Res (A : Type) :=
  | Ok (a : A)
  | Err (e : err).

Arguments Ok {A} a.
Arguments Err {A} e.

#[export] Instance err_eq_dec : EqDecision err.
Proof. solve_decision. Defined.

#[export] Instance Res_ret : MRet Res := fun A a => Ok a.

#[export] Instance Res_bind : MBind Res := fun A B f m =>
  match m with
  | Ok a => f a
  | Err e => Err e
  end.

#[export] Instance Res_fmap : FMap Res := fun A B f m =>
  match m with
  | Ok a => Ok (f a)
  | Err e => Err e
  end.

(** A guard: [ensure e b] stops with [e] unless [b]. *)
Definition ensure (e : err) (b : bool) : Res unit := if b then Ok () else Err e.

Lemma bind_Ok_inv {A B} (f : A -> Res B) (m : Res A) b :
  m ≫= f = Ok b -> exists a, m = Ok a /\ f a = Ok b.
Proof. destruct m; cbn; naive_solver. Qed.

Lemma ensure_Ok e b u : ensure e b = Ok u -> b = true.
Proof. by destruct b. Qed.

(** ** Tactics *)

(** Split every successful bind of a hypothesis into its steps. *)
Ltac inv_res :=
  repeat match goal with
  | H : (_ ≫= _) = Ok _ |- _ => apply bind_Ok_inv in H as (? & ? & ?)
  | H : Ok _ = Ok _ |- _ => injection H as H
  | H : ensure _ _ = Ok _ |- _ => apply ensure_Ok in H
  | H : Err _ = Ok _ |- _ => discriminate H
  | H : mret _ = Ok _ |- _ => injection H as H
  end; simplify_eq/=.

(** The same, with the pairs that the steps return taken apart. *)
Ltac inv_pairs :=
  inv_res; repeat (match goal with x : (_ * _)%type |- _ => destruct x end; inv_res).

(** Turn boolean comparisons of the code into arithmetic facts. *)
Ltac zify_bool :=
  repeat match goal with
  | H : negb _ = true |- _ => apply negb_true_iff in H
  | H : negb _ = false |- _ => apply negb_false_iff in H
  | H : (_ && _)%bool = true |- _ => apply andb_true_iff in H as [? ?]
  | H : (_ && _)%bool = false |- _ => apply andb_false_iff in H
  | H : (_ || _)%bool = true |- _ => apply orb_true_iff in H
  | H : (_ || _)%bool = false |- _ => apply orb_false_iff in H as [? ?]
  | H : (_ <? _) = true |- _ => apply Z.ltb_lt in H
  | H : (_ <? _) = false |- _ => apply Z.ltb_ge in H
  | H : (_ <=? _) = true |- _ => apply Z.leb_le in H
  | H : (_ <=? _) = false |- _ => apply Z.leb_gt in H
  | H : (_ =? _) = true |- _ => apply Z.eqb_eq in H
  | H : (_ =? _) = false |- _ => apply Z.eqb_neq in H
  end.

(** Case analysis on the next conditional of the goal. *)
Ltac case_if :=
  match goal with
  | |- context [if ?b then _ else _] => let E := fresh "E" in destruct b eqn:E
  end.

Ltac case_if_in H :=
  match type of H with
  | context [if ?b then _ else _] => let E := fresh "E" in destruct b eqn:E
  end.

(** Every way a computation can succeed: its tests are decided one by one. *)
Ltac res_cases :=
  inv_pairs; repeat (match goal with H : (if ?b then _ else _) = Ok _ |- _ => destruct b eqn:? end; inv_pairs).

(** One case per element of a literal list. *)
Ltac elem_cases H :=
  repeat (apply elem_of_cons in H as [H | H]; [subst |]); [.. | by apply elem_of_nil in H].

(** The development's hint database: bounds and well-formedness facts. *)
Create HintDb emu discriminated.
#[export] Hint Constants Opaque : emu.
Create Rewrite HintDb emu.

(** ** C arrays as lists

    A fixed-size C array is a list; [arr l i] reads and [upd l i v] writes
    index [i].  Both are total: an index outside the array reads the default
    element and writes nothing.  Wherever the C code could leave the array the
    model tests the index itself, or a theorem shows that it stays inside. *)

Definition arr {A} `{Inhabited A} (l : list A) (i : Z) : A := l !!! Z.to_nat i.

Definition upd {A} (l : list A) (i : Z) (v : A) : list A :=
  if 0 <=? i then <[Z.to_nat i := v]> l else l.

Arguments arr : simpl never.
Arguments upd : simpl never.

(** [in_range l i]: [i] is an index of [l]. *)
Definition in_range {A} (l : list A) (i : Z) : bool :=
  (0 <=? i) && (i <? Z.of_nat (length l)).

Section Arrays.
Context {A : Type} `{Inhabited A}.
Implicit Types (l : list A) (i j : Z) (v : A).

Lemma length_upd l i v : length (upd l i v) = length l.
Proof. unfold upd. case_if; [apply length_insert | done]. Qed.

Lemma arr_upd_eq l i v : 0 <= i < Z.of_nat (length l) -> arr (upd l i v) i = v.
Proof.
  intros Hi. unfold arr, upd. case_if; zify_bool; [| lia].
  apply list_lookup_total_insert_eq. lia.
Qed.

Lemma arr_upd_ne l i j v : 0 <= j -> i <> j -> arr (upd l i v) j = arr l j.
Proof.
  intros Hj Hne. unfold arr, upd. case_if; zify_bool; [| done].
  apply list_lookup_total_insert_ne. lia.
Qed.

Lemma arr_upd l i j v : 0 <= i < Z.of_nat (length l) -> 0 <= j ->
  arr (upd l i v) j = if i =? j then v else arr l j.
Proof.
  intros Hi Hj. destruct (Z.eqb_spec i j) as [<-|Hne].
  - by apply arr_upd_eq.
  - by apply arr_upd_ne.
Qed.

Lemma arr_lookup l i : 0 <= i < Z.of_nat (length l) -> l !! Z.to_nat i = Some (arr l i).
Proof. intros Hi. unfold arr. apply list_lookup_lookup_total_lt. lia. Qed.

Lemma arr_of_lookup l (k : nat) v : l !! k = Some v -> arr l (Z.of_nat k) = v.
Proof. intros Hk. unfold arr. rewrite Nat2Z.id. by apply list_lookup_total_correct. Qed.

Lemma Forall_arr (P : A -> Prop) l i :
  Forall P l -> 0 <= i < Z.of_nat (length l) -> P (arr l i).
Proof. intros HP Hi. eapply Forall_lookup_1; [exact HP | by apply arr_lookup]. Qed.

Lemma Forall_upd (P : A -> Prop) l i v : Forall P l -> P v -> Forall P (upd l i v).
Proof. intros HP Hv. unfold upd. case_if; [by apply Forall_insert | done]. Qed.

Lemma upd_same l i : upd l i (arr l i) = l.
Proof.
  unfold upd, arr. case_if; [| done]. apply list_eq. intros k.
  destruct (decide (k = Z.to_nat i)) as [->|Hne].
  - destruct (decide (Z.to_nat i < length l)%nat) as [Hlt|Hge].
    + rewrite list_lookup_insert_eq by done. by rewrite list_lookup_lookup_total_lt.
    + by rewrite list_insert_ge by lia.
  - by rewrite list_lookup_insert_ne.
Qed.

Lemma upd_upd l i v v' : upd (upd l i v) i v' = upd l i v'.
Proof. unfold upd. case_if; [apply list_insert_insert_eq | done]. Qed.

Lemma list_eq_arr l l' : length l = length l' ->
  (forall i, 0 <= i < Z.of_nat (length l) -> arr l i = arr l' i) -> l = l'.
Proof.
  intros Hlen Heq. apply list_eq_same_length with (n := length l); [done | done |].
  intros k x y Hk Hx Hy. pose proof (Heq (Z.of_nat k) ltac:(lia)) as E.
  by rewrite (arr_of_lookup l k x Hx), (arr_of_lookup l' k y Hy) in E.
Qed.

Lemma arr_replicate (n : nat) i v : 0 <= i < Z.of_nat n -> arr (replicate n v) i = v.
Proof. intros Hi. unfold arr. apply lookup_total_replicate_2. lia. Qed.
End Arrays.

#[export] Hint Rewrite @length_upd : emu.
#[export] Hint Resolve Forall_upd : emu.

(** ** Bounded iteration

    [seqZ_from 0 n] lists the values of [i] in [for (i = 0; i < n; i++)]. *)

Fixpoint seqZ_from (start : Z) (n : nat) : list Z :=
  match n with
  | O => []
  | S n => start :: seqZ_from (start + 1) n
  end.

Lemma length_seqZ_from n start : length (seqZ_from start n) = n.
Proof. revert start. induction n; intros; cbn; [done | by rewrite IHn]. Qed.

Lemma elem_of_seqZ_from n start i :
  i ∈ seqZ_from start n <-> start <= i < start + Z.of_nat n.
Proof.
  revert start. induction n as [|n IH]; intros start; cbn.
  - rewrite elem_of_nil. lia.
  - rewrite elem_of_cons, IH. lia.
Qed.

Lemma lookup_seqZ_from n start k :
  (k < n)%nat -> seqZ_from start n !! k = Some (start + Z.of_nat k).
Proof.
  revert start k. induction n as [|n IH]; intros start k Hk; [lia |].
  destruct k as [|k]; cbn; [f_equal; lia |]. rewrite IH by lia. f_equal. lia.
Qed.

(** [for_each l f s]: thread a fallible body through the elements of [l]. *)
Fixpoint for_each {A S} (l : list A) (f : A -> S -> Res S) (s : S) : Res S :=
  match l with
  | [] => Ok s
  | a :: l => s' ← f a s; for_each l f s'
  end.

Lemma for_each_inv {A S} (P : S -> Prop) (l : list A) (f : A -> S -> Res S) s s' :
  (forall a s s', P s -> f a s = Ok s' -> P s') ->
  P s -> for_each l f s = Ok s' -> P s'.
Proof.
  intros Hf. revert s. induction l as [|a l IH]; intros s Hs H; cbn in H; inv_res; eauto.
Qed.
