(* ===== verification/Word.v ===== *)
(** * Machine words (include/general/utils.h, include/general/common.h)

    [word_t], [vaddr_t] and [paddr_t] are [uint64_t]: a word is a [Z] in
    [0, 2^64), and every C operation on it is written with its wrap-around.
    The file models the bit macros [BITMASK], [BITS], [SEXT], [UEXT], the
    signed reinterpretations [(int64_t)] and [(int32_t)], C shifts (undefined
    when the amount reaches the width) and the little-endian byte view that
    [memcpy] and pointer casts give of a word. *)

From S2P Require Import Prelude.

(** ** Ranges *)

Definition is_word (x : Z) : Prop := 0 <= x < 2 ^ 64.
Definition is_byte (x : Z) : Prop := 0 <= x < 256.

Definition wrap64 (x : Z) : Z := x mod 2 ^ 64.
Definition wrap32 (x : Z) : Z := x mod 2 ^ 32.

Definition add64 (a b : Z) : Z := wrap64 (a + b).
Definition sub64 (a b : Z) : Z := wrap64 (a - b).
Definition mul64 (a b : Z) : Z := wrap64 (a * b).
Definition not64 (a : Z) : Z := 2 ^ 64 - 1 - a.

(** [(int64_t)x] and [(int32_t)(x & 0xffffffff)]. *)
Definition s64 (x : Z) : Z := if x <? 2 ^ 63 then x else x - 2 ^ 64.
Definition s32 (x : Z) : Z :=
  let y := x mod 2 ^ 32 in if y <? 2 ^ 31 then y else y - 2 ^ 32.

Declare Scope word_scope.
Delimit Scope word_scope with word.
Infix "+" := add64 : word_scope.
Infix "-" := sub64 : word_scope.
Infix "*" := mul64 : word_scope.

(** ** utils.h *)

Definition BITMASK (bits : Z) : Z := Z.shiftl 1 bits - 1.
Definition BITS (x hi lo : Z) : Z := Z.land (Z.shiftr x lo) (BITMASK (hi - lo + 1)).

(** [struct { int64_t n : len; } __x = { .n = x }; (uint64_t)__x.n] *)
Definition SEXT (x len : Z) : Z :=
  let n := x mod 2 ^ len in
  wrap64 (if n <? 2 ^ (len - 1) then n else n - 2 ^ len).

Definition UEXT (x len : Z) : Z := x mod 2 ^ len.

(** [a << n] on [uint64_t], [a >> n] on [uint64_t] and on [int64_t], [int32_t]:
    undefined unless [0 <= n < width]. *)
Definition shl64 (a n : Z) : Res Z :=
  if (0 <=? n) && (n <? 64) then Ok (wrap64 (Z.shiftl a n)) else Err Undefined.
Definition shr64 (a n : Z) : Res Z :=
  if (0 <=? n) && (n <? 64) then Ok (Z.shiftr a n) else Err Undefined.
Definition sar64 (a n : Z) : Res Z :=
  if (0 <=? n) && (n <? 64) then Ok (wrap64 (Z.shiftr (s64 a) n)) else Err Undefined.

(** ** Little-endian bytes

    [memcpy(&w, p, n)] into a zeroed word reads [n] bytes as a little-endian
    number; [memcpy(p, &w, n)] writes the [n] low bytes. *)

Fixpoint le_word (bs : list Z) : Z :=
  match bs with
  | [] => 0
  | b :: bs => b + 256 * le_word bs
  end.

Fixpoint le_bytes (n : nat) (v : Z) : list Z :=
  match n with
  | O => []
  | S n => v mod 256 :: le_bytes n (v / 256)
  end.

(** ** Range lemmas *)

Lemma wrap64_word x : is_word (wrap64 x).
Proof. unfold is_word, wrap64. apply Z.mod_pos_bound. lia. Qed.

Lemma wrap64_small x : is_word x -> wrap64 x = x.
Proof. apply Z.mod_small. Qed.

Lemma wrap64_mod_l a b : wrap64 (wrap64 a + b) = wrap64 (a + b).
Proof. unfold wrap64. apply Zplus_mod_idemp_l. Qed.

Lemma add64_word a b : is_word (a + b)%word.
Proof. apply wrap64_word. Qed.
Lemma sub64_word a b : is_word (a - b)%word.
Proof. apply wrap64_word. Qed.
Lemma mul64_word a b : is_word (a * b)%word.
Proof. apply wrap64_word. Qed.

Lemma SEXT_word x len : is_word (SEXT x len).
Proof. apply wrap64_word. Qed.

Lemma is_word_0 : is_word 0.
Proof. unfold is_word. lia. Qed.
Lemma is_word_1 : is_word 1.
Proof. unfold is_word. lia. Qed.

Lemma UEXT_word x len : 0 <= len <= 64 -> is_word (UEXT x len).
Proof.
  intros Hl. unfold is_word, UEXT.
  pose proof (Z.mod_pos_bound x (2 ^ len) ltac:(lia)).
  pose proof (Z.pow_le_mono_r 2 len 64 ltac:(lia) ltac:(lia)). lia.
Qed.

(** A number is below [2^n] exactly when it has no bit at or above [n]. *)
Lemma below_pow2_bits n x : 0 <= n -> 0 <= x ->
  x < 2 ^ n <-> (forall i, n <= i -> Z.testbit x i = false).
Proof.
  intros Hn Hx. split.
  - intros Hlt i Hi. destruct (Z.eq_dec x 0) as [->|]; [apply Z.testbit_0_l |].
    apply Z.bits_above_log2; [done |].
    assert (Z.log2 x < n) by (apply Z.log2_lt_pow2; lia). lia.
  - intros Hb. destruct (Z.eq_dec x 0) as [->|]; [lia |].
    apply Z.log2_lt_pow2; [lia |].
    destruct (Z.lt_ge_cases (Z.log2 x) n) as [|Hge]; [done |].
    pose proof (Z.bit_log2 x ltac:(lia)) as E.
    rewrite (Hb _ Hge) in E. done.
Qed.

Lemma bitop_below (op : Z -> Z -> Z) (f : bool -> bool -> bool) n a b :
  0 <= n -> (forall i, Z.testbit (op a b) i = f (Z.testbit a i) (Z.testbit b i)) ->
  f false false = false -> 0 <= op a b -> 0 <= a < 2 ^ n -> 0 <= b < 2 ^ n ->
  0 <= op a b < 2 ^ n.
Proof.
  intros Hn Hop Hf H0 Ha Hb. split; [done |].
  apply below_pow2_bits; [done | done |]. intros i Hi. rewrite Hop.
  rewrite (proj1 (below_pow2_bits n a Hn ltac:(lia)) ltac:(lia) i Hi).
  by rewrite (proj1 (below_pow2_bits n b Hn ltac:(lia)) ltac:(lia) i Hi).
Qed.

Lemma lor_word a b : is_word a -> is_word b -> is_word (Z.lor a b).
Proof.
  intros Ha Hb. unfold is_word in *. apply (bitop_below _ orb);
    try done; [apply Z.lor_spec | apply Z.lor_nonneg; lia].
Qed.
Lemma lxor_word a b : is_word a -> is_word b -> is_word (Z.lxor a b).
Proof.
  intros Ha Hb. unfold is_word in *. apply (bitop_below _ xorb);
    try done; [apply Z.lxor_spec | apply Z.lxor_nonneg; lia].
Qed.
Lemma land_word a b : is_word a -> is_word b -> is_word (Z.land a b).
Proof.
  intros Ha Hb. unfold is_word in *. apply (bitop_below _ andb);
    try done; [apply Z.land_spec | apply Z.land_nonneg; lia].
Qed.
Lemma not64_word a : is_word a -> is_word (not64 a).
Proof. unfold is_word, not64. lia. Qed.

Lemma shiftr_word a n : is_word a -> 0 <= n -> is_word (Z.shiftr a n).
Proof.
  unfold is_word. intros Ha Hn. rewrite Z.shiftr_div_pow2 by done.
  split; [apply Z.div_pos; lia |].
  apply Z.le_lt_trans with a; [| lia]. apply Z.div_le_upper_bound; nia.
Qed.

Lemma shl64_word a n v : shl64 a n = Ok v -> is_word v.
Proof. unfold shl64. case_if; intros; inv_res. apply wrap64_word. Qed.
Lemma shr64_word a n v : is_word a -> shr64 a n = Ok v -> is_word v.
Proof.
  unfold shr64. intros Ha. case_if; intros; inv_res. zify_bool.
  by apply shiftr_word.
Qed.
Lemma sar64_word a n v : sar64 a n = Ok v -> is_word v.
Proof. unfold sar64. case_if; intros; inv_res. apply wrap64_word. Qed.

#[export] Hint Resolve wrap64_word add64_word sub64_word mul64_word SEXT_word
  is_word_0 is_word_1 lor_word lxor_word land_word not64_word : emu.

(** ** Bit slices as quotients and remainders *)

Lemma BITMASK_ones n : BITMASK n = Z.ones n.
Proof. unfold BITMASK, Z.ones. lia. Qed.

Lemma BITS_div_mod x hi lo : 0 <= lo <= hi + 1 ->
  BITS x hi lo = (x / 2 ^ lo) mod 2 ^ (hi - lo + 1).
Proof.
  intros H. unfold BITS. rewrite BITMASK_ones, Z.land_ones by lia.
  by rewrite Z.shiftr_div_pow2 by lia.
Qed.

Lemma BITS_range x hi lo : 0 <= lo <= hi + 1 -> 0 <= BITS x hi lo < 2 ^ (hi - lo + 1).
Proof. intros H. rewrite BITS_div_mod by done. apply Z.mod_pos_bound. lia. Qed.

Lemma BITS_testbit x hi lo i : 0 <= lo <= hi + 1 -> 0 <= i ->
  Z.testbit (BITS x hi lo) i = (i <=? hi - lo) && Z.testbit x (i + lo).
Proof.
  intros H Hi. unfold BITS. rewrite BITMASK_ones, Z.land_spec, Z.shiftr_spec by done.
  rewrite andb_comm. f_equal.
  destruct (Z.leb_spec i (hi - lo)).
  - apply Z.ones_spec_low. lia.
  - apply Z.ones_spec_high. lia.
Qed.

(** ** Signed views *)

Lemma s64_range x : is_word x -> - 2 ^ 63 <= s64 x < 2 ^ 63.
Proof. unfold is_word, s64. intros. case_if; zify_bool; lia. Qed.

Lemma s64_inj x y : is_word x -> is_word y -> s64 x = s64 y -> x = y.
Proof. unfold is_word, s64. intros ? ?. repeat case_if; intros; zify_bool; lia. Qed.

Lemma wrap64_s64 x : is_word x -> wrap64 (s64 x) = x.
Proof.
  unfold is_word, s64, wrap64. intros. case_if; zify_bool.
  - apply Z.mod_small. lia.
  - replace (x - 2 ^ 64) with (x + (-1) * 2 ^ 64) by lia.
    rewrite Z.mod_add by lia. apply Z.mod_small. lia.
Qed.

Lemma s64_wrap64 x : - 2 ^ 63 <= x < 2 ^ 63 -> s64 (wrap64 x) = x.
Proof.
  intros Hx. unfold s64, wrap64. destruct (Z.lt_ge_cases x 0).
  - replace (x mod 2 ^ 64) with (x + 2 ^ 64).
    + case_if; zify_bool; lia.
    + rewrite <- (Z.mod_small (x + 2 ^ 64) (2 ^ 64)) by lia.
      replace (x + 2 ^ 64) with (x + 1 * 2 ^ 64) by lia. by rewrite Z.mod_add by lia.
  - rewrite Z.mod_small by lia. case_if; zify_bool; lia.
Qed.

Lemma s32_range x : - 2 ^ 31 <= s32 x < 2 ^ 31.
Proof.
  unfold s32. pose proof (Z.mod_pos_bound x (2 ^ 32) ltac:(lia)).
  cbv zeta. case_if; zify_bool; lia.
Qed.

(** The signed number that [SEXT] stores in its bit-field. *)
Definition signed_field (x len : Z) : Z :=
  let n := x mod 2 ^ len in if n <? 2 ^ (len - 1) then n else n - 2 ^ len.

Lemma SEXT_signed x len : SEXT x len = wrap64 (signed_field x len).
Proof. done. Qed.

Lemma signed_field_range x len : 1 <= len ->
  - 2 ^ (len - 1) <= signed_field x len < 2 ^ (len - 1).
Proof.
  intros Hl. unfold signed_field. cbv zeta.
  pose proof (Z.mod_pos_bound x (2 ^ len) ltac:(lia)).
  assert (2 ^ len = 2 * 2 ^ (len - 1)) by (rewrite <- Z.pow_succ_r by lia; f_equal; lia).
  case_if; zify_bool; lia.
Qed.

Lemma signed_field_mod x len : 1 <= len ->
  exists k, signed_field x len = x + k * 2 ^ len.
Proof.
  intros Hl. unfold signed_field. cbv zeta.
  pose proof (Z.div_mod x (2 ^ len) ltac:(lia)). case_if.
  - exists (- (x / 2 ^ len)). lia.
  - exists (- (x / 2 ^ len) - 1). lia.
Qed.

(** A value that already fits the field is stored unchanged. *)
Lemma signed_field_id x len k : 1 <= len ->
  - 2 ^ (len - 1) <= x < 2 ^ (len - 1) -> signed_field (x + k * 2 ^ len) len = x.
Proof.
  intros Hl Hx. unfold signed_field. cbv zeta. rewrite Z.mod_add by lia.
  assert (2 ^ len = 2 * 2 ^ (len - 1)) by (rewrite <- Z.pow_succ_r by lia; f_equal; lia).
  destruct (Z.lt_ge_cases x 0).
  - replace (x mod 2 ^ len) with (x + 2 ^ len).
    + case_if; zify_bool; lia.
    + rewrite <- (Z.mod_small (x + 2 ^ len) (2 ^ len)) by lia.
      replace (x + 2 ^ len) with (x + 1 * 2 ^ len) by lia. by rewrite Z.mod_add by lia.
  - rewrite Z.mod_small by lia. case_if; zify_bool; lia.
Qed.

Lemma s64_SEXT x len : 1 <= len <= 64 -> s64 (SEXT x len) = signed_field x len.
Proof.
  intros Hl. rewrite SEXT_signed. apply s64_wrap64.
  pose proof (signed_field_range x len ltac:(lia)).
  pose proof (Z.pow_le_mono_r 2 (len - 1) 63 ltac:(lia) ltac:(lia)). lia.
Qed.

Lemma s32_signed_field x : s32 x = signed_field x 32.
Proof. done. Qed.

(** ** Little-endian lemmas *)

Lemma length_le_bytes n v : length (le_bytes n v) = n.
Proof. revert v. induction n; intros; cbn; [done | by rewrite IHn]. Qed.

Lemma le_bytes_byte n v : Forall is_byte (le_bytes n v).
Proof.
  revert v. induction n; intros; constructor; [| done].
  apply Z.mod_pos_bound. lia.
Qed.

Lemma pow256_S n : 256 ^ Z.of_nat (S n) = 256 * 256 ^ Z.of_nat n.
Proof. rewrite Nat2Z.inj_succ. by rewrite Z.pow_succ_r by lia. Qed.

Lemma le_word_bytes n v : le_word (le_bytes n v) = v mod 256 ^ Z.of_nat n.
Proof.
  revert v. induction n as [|n IH]; intros v; cbn [le_bytes le_word].
  - by rewrite Z.mod_1_r.
  - rewrite IH, pow256_S. rewrite Z.rem_mul_r by lia. lia.
Qed.

Lemma le_bytes_word bs : Forall is_byte bs -> le_bytes (length bs) (le_word bs) = bs.
Proof.
  induction 1 as [|b bs Hb _ IH]; cbn; [done |]. unfold is_byte in Hb.
  replace (b + 256 * le_word bs) with (b + le_word bs * 256) by lia.
  f_equal.
  - rewrite Z.mod_add by lia. apply Z.mod_small. lia.
  - rewrite Z.div_add, Z.div_small by lia. apply IH.
Qed.

Lemma le_word_range bs : Forall is_byte bs -> 0 <= le_word bs < 256 ^ Z.of_nat (length bs).
Proof.
  induction 1 as [|b bs Hb _ IH]; [cbn; lia |]. cbn [le_word length].
  unfold is_byte in Hb. rewrite pow256_S. nia.
Qed.

Lemma le_word_word bs : Forall is_byte bs -> (length bs <= 8)%nat -> is_word (le_word bs).
Proof.
  intros Hb Hl. pose proof (le_word_range bs Hb).
  assert (256 ^ Z.of_nat (length bs) <= 256 ^ 8) by (apply Z.pow_le_mono_r; lia).
  unfold is_word. lia.
Qed.

Lemma lookup_le_bytes n v (k : nat) : (k < n)%nat ->
  le_bytes n v !! k = Some ((v / 256 ^ Z.of_nat k) mod 256).
Proof.
  revert v k. induction n as [|n IH]; intros v k Hk; [lia |].
  destruct k as [|k]; cbn.
  - by rewrite Z.div_1_r.
  - rewrite IH by lia. rewrite pow256_S, Z.div_div by lia. done.
Qed.

#[export] Hint Resolve le_bytes_byte le_word_word : emu.

(** ** Masks *)

(** [x & ~(2^k - 1)] clears the low [k] bits. *)
Lemma land_not64_pow2 x k : is_word x -> 0 <= k <= 64 ->
  Z.land x (not64 (2 ^ k - 1)) = x / 2 ^ k * 2 ^ k.
Proof.
  intros Hx Hk. unfold is_word in Hx.
  rewrite <- Z.shiftr_div_pow2, <- Z.shiftl_mul_pow2, <- Z.ldiff_ones_r by lia.
  replace (not64 (2 ^ k - 1)) with (Z.shiftl (Z.ones (64 - k)) k).
  2: { unfold not64. rewrite Z.shiftl_mul_pow2, Z.ones_equiv by lia.
       rewrite Z.mul_pred_l, <- Z.pow_add_r by lia.
       replace (64 - k + k) with 64 by lia. lia. }
  apply Z.bits_inj'. intros i Hi.
  rewrite Z.land_spec, Z.ldiff_spec, Z.shiftl_spec by done.
  destruct (Z.lt_ge_cases i k) as [Hlt|Hge].
  - rewrite (Z.testbit_neg_r _ (i - k)), (Z.ones_spec_low k i) by lia.
    by rewrite !andb_false_r.
  - rewrite (Z.ones_spec_high k i) by lia.
    destruct (Z.lt_ge_cases i 64).
    + by rewrite (Z.ones_spec_low (64 - k) (i - k)) by lia.
    + rewrite (proj1 (below_pow2_bits 64 x ltac:(lia) ltac:(lia)) ltac:(lia) i ltac:(lia)).
      done.
Qed.

(** Disjoint bit ranges: [lor] of a multiple of [2^k] and a number below it. *)
Lemma lor_disjoint_add q k r : 0 <= k -> 0 <= r < 2 ^ k ->
  Z.lor (q * 2 ^ k) r = q * 2 ^ k + r.
Proof.
  intros Hk Hr.
  rewrite <- Z.lxor_lor, Z.add_nocarry_lxor; try done.
  all: apply Z.bits_inj'; intros i Hi; rewrite Z.land_spec, Z.bits_0.
  all: rewrite <- Z.shiftl_mul_pow2, Z.shiftl_spec by done.
  all: destruct (Z.lt_ge_cases i k) as [Hlt|Hge].
  all: try (rewrite Z.testbit_neg_r by lia; done).
  all: rewrite (proj1 (below_pow2_bits k r Hk ltac:(lia)) ltac:(lia) i Hge).
  all: apply andb_false_r.
Qed.

Lemma land_ones_mod x k : 0 <= k -> Z.land x (2 ^ k - 1) = x mod 2 ^ k.
Proof. intros Hk. rewrite <- Z.land_ones by done. f_equal. rewrite Z.ones_equiv. lia. Qed.
