(* ===== verification/State.v ===== *)
(** * Simulator run state (src/simulator/state.c, include/simulator/state.h)

    The run state decides when the main loop of [exec] stops, and [is_bad] is
    the exit status of the process. *)

From S2P Require Import Prelude.

Inductive nemu_state :=
  | NEMU_RUNNING
  | NEMU_STOP
  | NEMU_ABORT
  | NEMU_END
  | NEMU_QUIT.

#[export] Instance nemu_state_eq_dec : EqDecision nemu_state.
Proof. solve_decision. Defined.

Record Sim := mkSim {
  state : nemu_state;
  is_bad : bool;
  halt_pc : Z;
}.

Definition set_bad (s : Sim) : Sim := {| s with is_bad := true |}.
Definition set_state (x : nemu_state) (s : Sim) : Sim := {| s with state := x |}.
Definition status (s : Sim) : bool := is_bad s.
Definition set_halt_pc (pc : Z) (s : Sim) : Sim := {| s with halt_pc := pc |}.
Definition get_halt_pc (s : Sim) : Z := halt_pc s.

(** [INV]: report an invalid instruction (the banner is output only). *)
Definition INV (addr : Z) (s : Sim) : Sim := set_state NEMU_ABORT (set_bad s).

(** What a failed privilege or PMP check does to the run state. *)
Definition abort_bad (s : Sim) : Sim := set_state NEMU_ABORT (set_bad s).

(** The statically initialised state: [nemu_state state;] is zero. *)
Definition sim_init : Sim :=
  {| state := NEMU_RUNNING; is_bad := false; halt_pc := 0x80000000 |}.

(** [sim_le s s']: what every component may do to the run state.  A bad exit
    status is never cleared. *)
Definition sim_le (s s' : Sim) : Prop := is_bad s = true -> is_bad s' = true.

#[export] Instance sim_le_preorder : PreOrder sim_le.
Proof. split; repeat intro; unfold sim_le in *; eauto. Qed.

Lemma sim_le_abort_bad s : sim_le s (abort_bad s).
Proof. done. Qed.

#[export] Hint Resolve sim_le_abort_bad : emu.
