(* ===== verification/Pmp.v ===== *)
(** * Physical memory protection (src/cpu/csr.c)

    The eight PMP entries, the counter of switched-on entries that
    [set_pmpcfg] maintains, and [pmp_check].  The counter is an optimisation:
    [pmp_check] returns early when it is zero.  The theorems show that the
    counter is the number of entries that are on, that the early return never
    changes the answer, and what the answer is. *)

From S2P Require Import Prelude Word State.

(** ** Constants (include/cpu/csr.h) *)

Definition PMP_NUMBER_IN_SUSTEMU : nat := 8.
Definition PMP_R : Z := 0x01.
Definition PMP_W : Z := 0x02.
Definition PMP_X : Z := 0x04.
Definition PMP_A : Z := 0x18.
Definition PMP_L : Z := 0x80.
Definition PMP_A_OFF : Z := 0x00.
Definition PMP_A_TOR : Z := 0x08.
Definition PMP_A_NA4 : Z := 0x10.
Definition PMP_A_NAPOT : Z := 0x18.

(** Privilege levels: the [enum { USER, SUPERVISOR, PADDING, MACHINE }]. *)
Definition USER : Z := 0.
Definition SUPERVISOR : Z := 1.
Definition MACHINE : Z := 3.

Record Pmp := mkPmp {
  pmpcfg : list Z;       (** [uint8_t pmpcfg[8]] *)
  pmpaddr : list Z;      (** [word_t pmpaddr[8]] *)
  pmp_on_count : Z;      (** [uint8_t] *)
}.

Definition pmp_init : Pmp :=
  {| pmpcfg := replicate PMP_NUMBER_IN_SUSTEMU 0;
     pmpaddr := replicate PMP_NUMBER_IN_SUSTEMU 0;
     pmp_on_count := 0 |}.

(** ** Configuration *)

Definition cfg_on (cfg : Z) : bool := negb (Z.land cfg PMP_A =? PMP_A_OFF).

(** [is_pmp_on(pmp_id)] indexes [pmpcfg], which has eight entries. *)
Definition is_pmp_on (p : Pmp) (pmp_id : Z) : Res bool :=
  if in_range (pmpcfg p) pmp_id then Ok (cfg_on (arr (pmpcfg p) pmp_id)) else Err Undefined.

Definition set_pmpcfg (id data : Z) (p : Pmp) : Res Pmp :=
  old_on ← is_pmp_on p id;
  let p := {| p with pmpcfg := upd (pmpcfg p) id data |} in
  new_on ← is_pmp_on p id;
  Ok (if old_on && negb new_on
      then {| p with pmp_on_count := (pmp_on_count p - 1) mod 256 |}
      else if negb old_on && new_on
      then {| p with pmp_on_count := (pmp_on_count p + 1) mod 256 |}
      else p).

(** [for(int i=0; i<8; i++) set_pmpcfg(i + base, (data >> (i*8)) & 0xFF)] *)
Definition set_pmpcfg_all (base data : Z) (p : Pmp) : Res Pmp :=
  for_each (seqZ_from 0 8)
    (fun i => set_pmpcfg (i + base) (Z.land (Z.shiftr data (i * 8)) 0xff)) p.

(** [for(int i=0; i<8; i++) val |= ((uint64_t)pmpcfg[i] << (i*8))] *)
Definition read_pmpcfg_all (p : Pmp) : Z :=
  foldl (fun val i => Z.lor val (Z.shiftl (arr (pmpcfg p) i) (i * 8))) 0 (seqZ_from 0 8).

Arguments set_pmpcfg_all : simpl never.
Arguments read_pmpcfg_all : simpl never.

(** ** Address ranges *)

(** [while (mask & 1) { mask >>= 1; size <<= 1; }] on [uint64_t]: every turn
    shifts one bit out of [mask], so 64 turns exhaust it. *)
Fixpoint napot_loop (fuel : nat) (mask size : Z) : Z :=
  match fuel with
  | O => size
  | S fuel =>
      if Z.odd mask then napot_loop fuel (Z.shiftr mask 1) (wrap64 (Z.shiftl size 1)) else size
  end.

Definition napot_fuel : nat := 64.

(** [pmpaddr[i] << 2] *)
Definition pmp_shift (a : Z) : Z := wrap64 (Z.shiftl a 2).

(** [start, end] of entry [i] for a given [a_field]. *)
Definition pmp_range (p : Pmp) (i a_field : Z) : Z * Z :=
  let a := arr (pmpaddr p) i in
  if a_field =? PMP_A_TOR then
    (if i =? 0 then 0 else pmp_shift (arr (pmpaddr p) (i - 1)), pmp_shift a)
  else if a_field =? PMP_A_NA4 then
    (pmp_shift a, (pmp_shift a + 4)%word)
  else if a_field =? PMP_A_NAPOT then
    let size := napot_loop napot_fuel (Z.lor (pmp_shift a) 3) 1 in
    let start := Z.land (pmp_shift a) (not64 (size - 1)%word) in
    (start, (start + size)%word)
  else (0, 0).

(** ** The check *)

Inductive pmp_verdict :=
  | PmpAllow
  | PmpFault
  | PmpNoMatch.

(** The body of the loop over the entries, for entry [i]. *)
Definition pmp_entry (p : Pmp) (priv_level addr : Z) (is_execute is_write : bool) (i : Z)
    : pmp_verdict :=
  let cfg := arr (pmpcfg p) i in
  let a_field := Z.land cfg PMP_A in
  if a_field =? PMP_A_OFF then PmpNoMatch else
  let '(start, end_) := pmp_range p i a_field in
  if (start <=? addr) && (addr <? end_) then
    if (priv_level =? MACHINE) && (Z.land cfg PMP_L =? 0) then PmpAllow else
    let r := negb (Z.land cfg PMP_R =? 0) in
    let w := negb (Z.land cfg PMP_W =? 0) in
    let x := negb (Z.land cfg PMP_X =? 0) in
    if (is_execute && negb x) || (is_write && negb w)
       || (negb is_execute && negb is_write && negb r)
    then PmpFault else PmpAllow
  else PmpNoMatch.

(** The loop with its default: without a match only machine mode may pass. *)
Fixpoint pmp_scan (p : Pmp) (priv_level addr : Z) (is_execute is_write : bool) (idxs : list Z)
    : bool :=
  match idxs with
  | [] => priv_level =? MACHINE
  | i :: idxs =>
      match pmp_entry p priv_level addr is_execute is_write i with
      | PmpAllow => true
      | PmpFault => false
      | PmpNoMatch => pmp_scan p priv_level addr is_execute is_write idxs
      end
  end.

(** The answer of [pmp_check]. *)
Definition pmp_allows (p : Pmp) (priv_level addr : Z) (is_execute is_write : bool) : bool :=
  if (pmp_on_count p =? 0) && (priv_level =? MACHINE) then true
  else pmp_scan p priv_level addr is_execute is_write (seqZ_from 0 PMP_NUMBER_IN_SUSTEMU).

(** [pmp_check]: on a fault the run is marked bad and aborted. *)
Definition pmp_check (p : Pmp) (priv_level addr : Z) (is_execute is_write : bool) (s : Sim)
    : bool * Sim :=
  let ok := pmp_allows p priv_level addr is_execute is_write in
  (ok, if ok then s else abort_bad s).

(** ** Well-formedness: array sizes, element widths, and the counter

    With one core [pmp_on_count] is the number of entries that are on.  The
    cores of the dual configuration have their own arrays but share the
    counter, which then also counts the other core's entries. *)

Fixpoint count_on (cfgs : list Z) : Z :=
  match cfgs with
  | [] => 0
  | c :: cfgs => (if cfg_on c then 1 else 0) + count_on cfgs
  end.

Record pmp_wf (p : Pmp) : Prop := {
  pmp_wf_cfg : length (pmpcfg p) = PMP_NUMBER_IN_SUSTEMU;
  pmp_wf_addr : length (pmpaddr p) = PMP_NUMBER_IN_SUSTEMU;
  pmp_wf_bytes : Forall is_byte (pmpcfg p);
  pmp_wf_words : Forall is_word (pmpaddr p);
  pmp_wf_count : 0 <= pmp_on_count p - count_on (pmpcfg p) <= 8;
}.

Lemma pmp_init_wf : pmp_wf pmp_init.
Proof.
  split; try done; repeat constructor; unfold is_byte; lia.
Qed.

Lemma count_on_bounds cfgs : 0 <= count_on cfgs <= Z.of_nat (length cfgs).
Proof. induction cfgs; cbn [count_on length]; [lia |]. case_if; lia. Qed.

Lemma count_on_insert cfgs k old new : cfgs !! k = Some old ->
  count_on (<[k := new]> cfgs) =
  count_on cfgs - (if cfg_on old then 1 else 0) + (if cfg_on new then 1 else 0).
Proof.
  revert k. induction cfgs as [|c cfgs IH]; intros [|k] Hk; simpl in *; simplify_eq; [lia |].
  rewrite (IH _ Hk). lia.
Qed.

Lemma count_on_zero cfgs : count_on cfgs = 0 -> Forall (fun c => cfg_on c = false) cfgs.
Proof.
  induction cfgs as [|c cfgs IH]; cbn; intros H; constructor.
  - pose proof (count_on_bounds cfgs). destruct (cfg_on c); [lia | done].
  - pose proof (count_on_bounds cfgs). apply IH. destruct (cfg_on c); lia.
Qed.

Lemma set_pmpcfg_wf id data p p' : pmp_wf p -> is_byte data ->
  set_pmpcfg id data p = Ok p' ->
  pmp_wf p' /\ pmpcfg p' = upd (pmpcfg p) id data /\ pmpaddr p' = pmpaddr p.
Proof.
  intros [Hc Ha Hb Hw Hn] Hd H. unfold set_pmpcfg, is_pmp_on in H.
  destruct (in_range (pmpcfg p) id) eqn:Hr; [| done]. cbn in H.
  unfold in_range in *. rewrite length_upd, Hr in H. cbn in H. zify_bool.
  assert (Hid : 0 <= id < Z.of_nat (length (pmpcfg p))) by lia.
  rewrite arr_upd_eq in H by done. inv_res.
  assert (Hcnt : count_on (upd (pmpcfg p) id data) =
    count_on (pmpcfg p) - (if cfg_on (arr (pmpcfg p) id) then 1 else 0)
      + (if cfg_on data then 1 else 0)).
  { unfold upd. case_if; zify_bool; [| lia]. apply count_on_insert. by apply arr_lookup. }
  pose proof (count_on_bounds (upd (pmpcfg p) id data)) as Hbd.
  rewrite length_upd, Hc in Hbd. unfold PMP_NUMBER_IN_SUSTEMU in *.
  assert (Hsmall : forall x, 0 <= x <= 16 -> x mod 256 = x) by (intros; apply Z.mod_small; lia).
  pose proof (count_on_bounds (pmpcfg p)) as Hbd0. rewrite Hc in Hbd0.
  destruct (cfg_on (arr (pmpcfg p) id)), (cfg_on data); cbn;
    (split; [split; cbn; rewrite ?length_upd; auto using Forall_upd |]); try done;
    rewrite ?Hsmall; lia.
Qed.

(** ** Reading the configuration back *)

Lemma set_pmpcfg_in_range id data p : in_range (pmpcfg p) id = true ->
  exists p', set_pmpcfg id data p = Ok p'.
Proof.
  intros Hr. unfold set_pmpcfg, is_pmp_on. rewrite Hr. cbn.
  unfold in_range in *. rewrite length_upd, Hr. cbn. eauto.
Qed.

(** The first [n] writes of the PMPCFG0 loop, in closed form. *)
Lemma set_pmpcfg_loop n start data p : pmp_wf p ->
  0 <= start -> start + Z.of_nat n <= 8 ->
  exists p', for_each (seqZ_from start n)
      (fun i => set_pmpcfg (i + 0) (Z.land (Z.shiftr data (i * 8)) 0xff)) p = Ok p' /\
    pmp_wf p' /\ pmpaddr p' = pmpaddr p /\
    forall i, 0 <= i < 8 -> arr (pmpcfg p') i =
      if (start <=? i) && (i <? start + Z.of_nat n)
      then Z.land (Z.shiftr data (i * 8)) 0xff else arr (pmpcfg p) i.
Proof.
  revert start p. induction n as [|n IH]; intros start p Hwf H0 Hn.
  - exists p. repeat split; try done; try apply Hwf. intros i Hi.
    case_if; zify_bool; [lia | done].
  - pose proof (pmp_wf_cfg _ Hwf) as Hlen. unfold PMP_NUMBER_IN_SUSTEMU in Hlen.
    set (b := Z.land (Z.shiftr data (start * 8)) 0xff).
    assert (Hb : is_byte b).
    { unfold b. change 0xff with (2 ^ 8 - 1). rewrite land_ones_mod by lia.
      apply Z.mod_pos_bound. lia. }
    destruct (set_pmpcfg_in_range (start + 0) b p) as [p1 Hp1].
    { unfold in_range. rewrite Hlen. apply andb_true_iff. split; [apply Z.leb_le | apply Z.ltb_lt]; lia. }
    destruct (set_pmpcfg_wf _ _ _ _ Hwf Hb Hp1) as (Hwf1 & Hcfg & Haddr).
    destruct (IH (start + 1) p1 Hwf1) as (p' & Hl & Hwf' & Ha' & Hr); [lia | lia |].
    exists p'. split; [| split; [done | split; [congruence |]]].
    { cbn [seqZ_from for_each]. fold b. by rewrite Hp1. }
    intros i Hi. rewrite (Hr i Hi), Hcfg, Z.add_0_r.
    rewrite arr_upd by lia. repeat case_if; zify_bool; subst; try lia; try done.
    all: lia.
Qed.

Lemma set_pmpcfg_all_spec data p : pmp_wf p ->
  exists p', set_pmpcfg_all 0 data p = Ok p' /\ pmp_wf p' /\ pmpaddr p' = pmpaddr p /\
    forall i, 0 <= i < 8 -> arr (pmpcfg p') i = (data / 2 ^ (8 * i)) mod 256.
Proof.
  intros Hwf. destruct (set_pmpcfg_loop 8 0 data p Hwf) as (p' & H1 & H2 & H3 & H4); [lia | lia |].
  exists p'. repeat split; try done; try apply H2. intros i Hi. rewrite (H4 i Hi).
  case_if; zify_bool; [| lia]. rewrite Z.shiftr_div_pow2 by lia.
  change 0xff with (2 ^ 8 - 1). rewrite land_ones_mod by lia. by rewrite (Z.mul_comm i 8).
Qed.

(** The bytes of the configuration registers as one word, low entry first. *)
Lemma read_pmpcfg_fold p n start acc :
  Forall is_byte (pmpcfg p) -> length (pmpcfg p) = PMP_NUMBER_IN_SUSTEMU ->
  0 <= start -> start + Z.of_nat n <= 8 -> 0 <= acc < 2 ^ (8 * start) ->
  foldl (fun val i => Z.lor val (Z.shiftl (arr (pmpcfg p) i) (i * 8))) acc (seqZ_from start n)
  = acc + 2 ^ (8 * start) * le_word ((fun i => arr (pmpcfg p) i) <$> seqZ_from start n).
Proof.
  intros Hb Hlen. revert start acc. induction n as [|n IH]; intros start acc H0 Hn Hacc.
  - cbn. lia.
  - cbn [seqZ_from foldl fmap list_fmap le_word].
    assert (Hbi : is_byte (arr (pmpcfg p) start)).
    { apply Forall_arr; [done |]. rewrite Hlen. unfold PMP_NUMBER_IN_SUSTEMU. lia. }
    unfold is_byte in Hbi.
    assert (Hpow : 2 ^ (8 * (start + 1)) = 256 * 2 ^ (8 * start)).
    { replace (8 * (start + 1)) with (8 + 8 * start) by lia. by rewrite Z.pow_add_r by lia. }
    rewrite (Z.mul_comm start 8), Z.shiftl_mul_pow2, Z.lor_comm, lor_disjoint_add by lia.
    rewrite IH by (rewrite ?Hpow; nia). rewrite Hpow. cbn. lia.
Qed.

(** A write of [PMPCFG0] is read back unchanged. *)
Lemma read_set_pmpcfg_all data p p' : pmp_wf p -> is_word data ->
  set_pmpcfg_all 0 data p = Ok p' -> read_pmpcfg_all p' = data.
Proof.
  intros Hwf Hd H. destruct (set_pmpcfg_all_spec data p Hwf) as (p1 & H1 & Hwf1 & _ & Hr).
  rewrite H in H1. injection H1 as <-.
  unfold read_pmpcfg_all. rewrite read_pmpcfg_fold; try lia; try apply Hwf1.
  replace ((fun i => arr (pmpcfg p') i) <$> seqZ_from 0 8) with (le_bytes 8 data).
  - rewrite le_word_bytes. change (256 ^ Z.of_nat 8) with (2 ^ 64).
    rewrite Z.mod_small by done. lia.
  - unfold is_word in Hd. cbn [le_bytes seqZ_from fmap list_fmap].
    rewrite !Hr by lia. change (2 ^ (8 * 0)) with 1. rewrite Z.div_1_r.
    rewrite !Z.div_div by lia. reflexivity.
Qed.

(** ** NAPOT ranges *)

Lemma odd_ones q k : 0 < k -> Z.odd (q * 2 ^ k + (2 ^ k - 1)) = true.
Proof.
  intros Hk. replace k with (Z.succ (k - 1)) by lia. rewrite Z.pow_succ_r by lia.
  replace (q * (2 * 2 ^ (k - 1)) + (2 * 2 ^ (k - 1) - 1))
    with (1 + 2 * (q * 2 ^ (k - 1) + 2 ^ (k - 1) - 1)) by lia.
  by rewrite Z.odd_add_mul_2.
Qed.

(** The loop doubles [size] once per trailing one of [mask]. *)
Lemma napot_loop_ones (t : nat) fuel q size :
  (t <= fuel)%nat -> 0 <= q -> 0 <= size -> size * 2 ^ Z.of_nat t < 2 ^ 64 ->
  napot_loop fuel (q * 2 ^ (Z.of_nat t + 1) + (2 ^ Z.of_nat t - 1)) size
  = size * 2 ^ Z.of_nat t.
Proof.
  revert fuel size. induction t as [|t IH]; intros fuel size Hf Hq H0 Hs.
  - change (2 ^ (Z.of_nat 0 + 1)) with 2. change (2 ^ Z.of_nat 0) with 1.
    rewrite Z.mul_1_r. destruct fuel; [done |]. cbn [napot_loop].
    replace (q * 2 + (1 - 1)) with (0 + 2 * q) by lia. by rewrite Z.odd_add_mul_2.
  - destruct fuel as [|fuel]; [lia |]. cbn [napot_loop].
    rewrite Nat2Z.inj_succ in *. rewrite Z.pow_succ_r in Hs by lia.
    assert (E : q * 2 ^ (Z.succ (Z.of_nat t) + 1) + (2 ^ Z.succ (Z.of_nat t) - 1)
      = 1 + 2 * (q * 2 ^ (Z.of_nat t + 1) + (2 ^ Z.of_nat t - 1))).
    { replace (Z.succ (Z.of_nat t) + 1) with (Z.succ (Z.of_nat t + 1)) by lia.
      rewrite !Z.pow_succ_r by lia. lia. }
    rewrite E, Z.odd_add_mul_2. cbn [Z.odd xorb].
    rewrite Z.shiftr_div_pow2, Z.shiftl_mul_pow2 by lia.
    change (2 ^ 1) with 2.
    replace ((1 + 2 * (q * 2 ^ (Z.of_nat t + 1) + (2 ^ Z.of_nat t - 1))) / 2)
      with (q * 2 ^ (Z.of_nat t + 1) + (2 ^ Z.of_nat t - 1))
      by (symmetry; rewrite (Z.mul_comm 2); rewrite Z.div_add by lia; done).
    assert (1 <= 2 ^ Z.of_nat t) by (apply (Z.pow_le_mono_r 2 0); lia).
    unfold wrap64. rewrite Z.mod_small by nia.
    rewrite IH; [| lia | lia | lia | nia]. rewrite Z.pow_succ_r by lia. lia.
Qed.

(** ** What the check decides *)

Section Check.
Context (p : Pmp) (priv addr : Z) (ex wr : bool).

(** Entry [i] is on and its range holds the address. *)
Definition pmp_matches (i : Z) : Prop :=
  cfg_on (arr (pmpcfg p) i) = true /\
  let '(start, end_) := pmp_range p i (Z.land (arr (pmpcfg p) i) PMP_A) in
  start <= addr < end_.

(** The permission bits of entry [i] let the access pass. *)
Definition pmp_permits (i : Z) : Prop :=
  let cfg := arr (pmpcfg p) i in
  (priv = MACHINE /\ Z.land cfg PMP_L = 0) \/
  ((ex = true -> Z.land cfg PMP_X <> 0) /\ (wr = true -> Z.land cfg PMP_W <> 0) /\
   (ex = false -> wr = false -> Z.land cfg PMP_R <> 0)).

Lemma pmp_entry_spec i :
  match pmp_entry p priv addr ex wr i with
  | PmpNoMatch => ~ pmp_matches i
  | PmpAllow => pmp_matches i /\ pmp_permits i
  | PmpFault => pmp_matches i /\ ~ pmp_permits i
  end.
Proof.
  unfold pmp_entry, pmp_matches, pmp_permits, cfg_on.
  destruct (Z.land (arr (pmpcfg p) i) PMP_A =? PMP_A_OFF) eqn:Hoff; [by intros [? _] |].
  destruct (pmp_range p i _) as [start end_]. cbn [negb].
  destruct ((start <=? addr) && (addr <? end_)) eqn:Hin; [| intros [_ ?]; lia].
  destruct ((priv =? MACHINE) && _) eqn:HM; [split; [| left]; split; lia |].
  case_if.
  - split; [split; lia |]. destruct ex, wr; lia.
  - split; [split; lia |]. right. destruct ex, wr; repeat split; intros; lia.
Qed.

Lemma pmp_scan_spec start n :
  pmp_scan p priv addr ex wr (seqZ_from start n) = true <->
  (exists i, start <= i < start + Z.of_nat n /\ pmp_matches i /\ pmp_permits i /\
    forall j, start <= j < i -> ~ pmp_matches j) \/
  (priv = MACHINE /\ forall j, start <= j < start + Z.of_nat n -> ~ pmp_matches j).
Proof.
  revert start. induction n as [|n IH]; intros start; cbn [seqZ_from pmp_scan].
  - split; [intros; right; split; [lia |]; intros j Hj; lia |].
    intros [(i & ? & _)|[? _]]; lia.
  - pose proof (pmp_entry_spec start) as Hs. destruct (pmp_entry _ _ _ _ _ start).
    + destruct Hs as [Hm Hp]. split; [intros _; left | done].
      exists start. split; [lia |]. split; [done |]. split; [done |]. intros j Hj. lia.
    + destruct Hs as [Hm Hp]. split; [done |]. intros [(i & Hi & Hmi & Hpi & Hf)|[_ Hn]].
      * destruct (Z.eq_dec i start) as [->|]; [contradiction |].
        exfalso. apply (Hf start); [lia | exact Hm].
      * exfalso. apply (Hn start); [lia | exact Hm].
    + rewrite IH. split.
      * intros [(i & Hi & Hmi & Hpi & Hf)|[HM Hn]]; [left; exists i | right].
        -- split; [lia |]. split; [exact Hmi |]. split; [exact Hpi |]. intros j Hj.
           destruct (Z.eq_dec j start) as [->|]; [exact Hs | apply Hf; lia].
        -- split; [exact HM |]. intros j Hj.
           destruct (Z.eq_dec j start) as [->|]; [exact Hs | apply Hn; lia].
      * intros [(i & Hi & Hmi & Hpi & Hf)|[HM Hn]]; [left; exists i | right].
        -- assert (i <> start) by (intros ->; contradiction).
           split; [lia |]. split; [exact Hmi |]. split; [exact Hpi |].
           intros j Hj. apply Hf. lia.
        -- split; [exact HM |]. intros j Hj. apply Hn. lia.
Qed.

Lemma pmp_scan_all_off idxs : (forall i, i ∈ idxs -> cfg_on (arr (pmpcfg p) i) = false) ->
  pmp_scan p priv addr ex wr idxs = (priv =? MACHINE).
Proof.
  induction idxs as [|i idxs IH]; intros Hoff; cbn; [done |].
  pose proof (Hoff i ltac:(left)) as Hi. unfold pmp_entry, cfg_on in *.
  apply negb_false_iff in Hi. rewrite Hi. apply IH. intros j Hj. apply Hoff. by right.
Qed.
End Check.

Lemma pmp_allows_scan p priv addr ex wr : pmp_wf p ->
  pmp_allows p priv addr ex wr =
  pmp_scan p priv addr ex wr (seqZ_from 0 PMP_NUMBER_IN_SUSTEMU).
Proof.
  intros Hwf. unfold pmp_allows. destruct (_ && _) eqn:E; [| done].
  zify_bool. rewrite pmp_scan_all_off; [lia |].
  intros i Hi. apply elem_of_seqZ_from in Hi.
  pose proof (pmp_wf_count _ Hwf) as Hn. pose proof (count_on_bounds (pmpcfg p)).
  assert (Hz : count_on (pmpcfg p) = 0) by lia. apply count_on_zero in Hz.
  apply (Forall_arr _ _ _ Hz). rewrite (pmp_wf_cfg _ Hwf). lia.
Qed.

(** The counter of switched-on entries is only an optimisation: whenever it
    counts at least those of the configuration (the invariant [pmp_wf], which
    every write of a configuration register preserves), the answer of [pmp_check] is the one
    of the plain scan over the eight entries. *)
Theorem pmp_counter_transparent p priv addr ex wr s : pmp_wf p ->
  pmp_check p priv addr ex wr s =
  let ok := pmp_scan p priv addr ex wr (seqZ_from 0 PMP_NUMBER_IN_SUSTEMU) in
  (ok, if ok then s else abort_bad s).
Proof. intros Hwf. unfold pmp_check. by rewrite pmp_allows_scan. Qed.

Lemma pmp_counter_transparent_witness :
  pmp_check pmp_init USER 0x80000000 false true sim_init = (false, abort_bad sim_init).
Proof. rewrite (pmp_counter_transparent pmp_init); [reflexivity | apply pmp_init_wf]. Defined.

(** C37. First match decides: [pmp_check] lets an access pass exactly when the
    lowest-numbered entry that is on and whose range holds the address permits
    it (an unlocked entry always permits machine mode), or when no entry
    matches and the hart is in machine mode; otherwise the run is aborted and
    marked bad, and a passing access leaves the run state untouched. *)
Theorem pmp_check_first_match p priv addr ex wr s : pmp_wf p ->
  let '(ok, s') := pmp_check p priv addr ex wr s in
  (ok = true <->
    (exists i, 0 <= i < 8 /\ pmp_matches p addr i /\ pmp_permits p priv ex wr i /\
      forall j, 0 <= j < i -> ~ pmp_matches p addr j) \/
    (priv = MACHINE /\ forall j, 0 <= j < 8 -> ~ pmp_matches p addr j)) /\
  (ok = true -> s' = s) /\
  (ok = false -> state s' = NEMU_ABORT /\ status s' = true).
Proof.
  intros Hwf. unfold pmp_check.
  rewrite pmp_allows_scan by exact Hwf. split; [| split].
  - exact (pmp_scan_spec p priv addr ex wr 0 8).
  - by intros ->.
  - by intros ->.
Qed.

(** User mode may read, and only read, the 16 KiB from [0x80000000] on. *)
Definition read_only : Pmp :=
  {| pmpcfg := upd (pmpcfg pmp_init) 0 (Z.lor PMP_A_NAPOT PMP_R);
     pmpaddr := upd (pmpaddr pmp_init) 0 (0x80000000 / 4 + 0xfff); pmp_on_count := 1 |}.

Lemma read_only_wf : pmp_wf read_only.
Proof.
  split; [reflexivity | reflexivity | | | vm_compute; split; discriminate];
    repeat (apply Forall_cons; split; [split; vm_compute; congruence |]); apply Forall_nil_2.
Qed.

(** A read that entry 0 permits, a write that it refuses, and machine mode where
    no entry is on. *)
Lemma pmp_check_first_match_witness :
  (exists i, 0 <= i < 8 /\ pmp_matches read_only 0x80000010 i /\ pmp_permits read_only USER false false i /\
     forall j, 0 <= j < i -> ~ pmp_matches read_only 0x80000010 j) /\
  state (pmp_check read_only USER 0x80000010 false true sim_init).2 = NEMU_ABORT /\
  pmp_check pmp_init MACHINE 0x80000000 true false sim_init = (true, sim_init).
Proof.
  pose proof (pmp_check_first_match read_only USER 0x80000010 false false sim_init read_only_wf) as H1.
  pose proof (pmp_check_first_match read_only USER 0x80000010 false true sim_init read_only_wf) as H2.
  pose proof (pmp_check_first_match pmp_init MACHINE 0x80000000 true false sim_init pmp_init_wf) as H3.
  assert (E1 : (pmp_check read_only USER 0x80000010 false false sim_init).1 = true) by (vm_compute; reflexivity).
  assert (E2 : (pmp_check read_only USER 0x80000010 false true sim_init).1 = false) by (vm_compute; reflexivity).
  assert (E3 : (pmp_check pmp_init MACHINE 0x80000000 true false sim_init).1 = true) by (vm_compute; reflexivity).
  destruct (pmp_check read_only USER 0x80000010 false false sim_init) as [ok1 s1].
  destruct (pmp_check read_only USER 0x80000010 false true sim_init) as [ok2 s2].
  destruct (pmp_check pmp_init MACHINE 0x80000000 true false sim_init) as [ok3 s3]. cbn [fst snd] in *. subst.
  split; [| split; [apply H2; reflexivity | f_equal; apply H3; reflexivity]].
  destruct (proj1 (proj1 H1) eq_refl) as [H | [H _]]; [exact H | discriminate H].
Defined.

(** C38. The region of a NAPOT entry.  An address register with [t] trailing ones
    ([q * 2^(t+1) + 2^t - 1]) covers exactly the [2^(t+2)] bytes from
    [q * 2^(t+3)] on: the loop always finishes, and neither bound wraps. *)
Theorem pmp_napot_region p i q (t : nat) :
  arr (pmpaddr p) i = q * 2 ^ (Z.of_nat t + 1) + (2 ^ Z.of_nat t - 1) ->
  0 <= q -> arr (pmpaddr p) i < 2 ^ 62 - 1 ->
  pmp_range p i PMP_A_NAPOT =
  (q * 2 ^ (Z.of_nat t + 3), q * 2 ^ (Z.of_nat t + 3) + 2 ^ (Z.of_nat t + 2)).
Proof.
  intros Ha Hq Hlt. unfold pmp_range. cbn [Z.eqb Pos.eqb PMP_A_NAPOT PMP_A_TOR PMP_A_NA4].
  cbv zeta. set (a := arr (pmpaddr p) i) in *.
  set (k := Z.of_nat t) in *. assert (Hk : 0 <= k) by lia.
  assert (Hpow : forall j, 0 <= j -> 2 ^ (k + j) = 2 ^ k * 2 ^ j)
    by (intros; apply Z.pow_add_r; lia).
  rewrite (Hpow 1), (Hpow 2), (Hpow 3) in * by lia.
  change (2 ^ 1) with 2 in *. change (2 ^ 2) with 4 in *. change (2 ^ 3) with 8 in *.
  assert (H1 : 1 <= 2 ^ k) by (apply (Z.pow_le_mono_r 2 0); lia).
  assert (Hs : pmp_shift a = a * 2 ^ 2).
  { unfold pmp_shift, wrap64. rewrite Z.shiftl_mul_pow2 by lia. apply Z.mod_small. nia. }
  assert (Hsize : napot_loop napot_fuel (Z.lor (pmp_shift a) 3) 1 = 2 ^ (Z.of_nat (t + 2))).
  { rewrite Hs, lor_disjoint_add by lia.
    replace (a * 2 ^ 2 + 3)
      with (q * 2 ^ (Z.of_nat (t + 2) + 1) + (2 ^ Z.of_nat (t + 2) - 1)).
    - rewrite napot_loop_ones; try lia.
      + unfold napot_fuel. apply Nat2Z.inj_le. rewrite Nat2Z.inj_add. fold k.
        assert (k < 62); [| lia]. apply (Z.pow_lt_mono_r_iff 2); lia.
      + rewrite Nat2Z.inj_add. fold k. change (Z.of_nat 2) with 2. rewrite (Hpow 2) by lia.
        change (2 ^ 2) with 4. nia.
    - rewrite Nat2Z.inj_add. fold k. change (Z.of_nat 2) with 2.
      replace (k + 2 + 1) with (k + 3) by lia. rewrite (Hpow 2), (Hpow 3) by lia.
      change (2 ^ 2) with 4. change (2 ^ 3) with 8. lia. }
  rewrite Hsize, Hs, Nat2Z.inj_add. fold k. change (Z.of_nat 2) with 2.
  assert (Hw : is_word (a * 2 ^ 2)) by (unfold is_word; change (2 ^ 2) with 4; nia).
  unfold sub64. rewrite (wrap64_small (2 ^ (k + 2) - 1)).
  2: { rewrite (Hpow 2) by lia. unfold is_word. change (2 ^ 2) with 4. nia. }
  rewrite land_not64_pow2; [| done |].
  2: { assert (k < 62); [| lia]. apply (Z.pow_lt_mono_r_iff 2); lia. }
  rewrite (Hpow 2) by lia. change (2 ^ 2) with 4.
  replace (a * 4 / (2 ^ k * 4)) with (q * 2).
  2: { apply Z.div_unique with (r := 2 ^ k * 4 - 4); lia. }
  f_equal; [lia |]. unfold add64. rewrite wrap64_small; [lia |]. unfold is_word. nia.
Qed.

Lemma pmp_napot_region_witness :
  pmp_range (mkPmp (replicate 8 0) (0x20000003 :: replicate 7 0) 0) 0 PMP_A_NAPOT
  = (0x80000000, 0x80000000 + 16).
Proof.
  rewrite (pmp_napot_region _ 0 0x4000000 2); [reflexivity | reflexivity | lia |].
  vm_compute. reflexivity.
Defined.
