(* ===== verification/Csr.v ===== *)
(** * Control and status registers (src/cpu/csr.c, include/cpu/csr.h)

    The CSR file, the access table with its privilege check, [set_csr],
    [read_csr], trap entry ([raise_intr], [exception_priv_transfer]) and trap
    return ([mret_priv_transfer]).  The counters and cache statistics that
    [read_csr] exposes belong to other components and arrive as a [CsrEnv]. *)

From S2P Require Import Prelude Word State Pmp.

(** ** Register numbers *)

Definition MSTATUS : Z := 0x300.
Definition MISA : Z := 0x301.
Definition MEDELEG : Z := 0x302.
Definition MIDELEG : Z := 0x303.
Definition MIE : Z := 0x304.
Definition MTVEC : Z := 0x305.
Definition MCOUNTERN : Z := 0x306.
Definition MSCRATCH : Z := 0x340.
Definition MEPC : Z := 0x341.
Definition MCAUSE : Z := 0x342.
Definition MTVAL : Z := 0x343.
Definition MIP : Z := 0x344.
Definition MHARTID : Z := 0xf14.
Definition SSTATUS : Z := 0x100.
Definition SIE : Z := 0x104.
Definition STVEC : Z := 0x105.
Definition SSCRATCH : Z := 0x140.
Definition SEPC : Z := 0x141.
Definition SCAUSE : Z := 0x142.
Definition STVAL : Z := 0x143.
Definition SIP : Z := 0x144.
Definition SATP : Z := 0x180.
Definition PMPCFG0 : Z := 0x3a0.
Definition PMPCFG2 : Z := 0x3a2.
Definition PMPCFG4 : Z := 0x3a4.
Definition PMPCFG6 : Z := 0x3a6.
Definition PMPCFG8 : Z := 0x3a8.
Definition PMPCFGA : Z := 0x3aa.
Definition PMPCFGC : Z := 0x3ac.
Definition PMPCFGE : Z := 0x3ae.
Definition PMPADDR0 : Z := 0x3b0.
Definition PMPADDR2 : Z := 0x3b2.
Definition PMPADDR4 : Z := 0x3b4.
Definition PMPADDR6 : Z := 0x3b6.
Definition PMPADDR8 : Z := 0x3b8.
Definition CYCLE : Z := 0xc00.
Definition INSTRET : Z := 0xc02.
Definition L1D_HITS : Z := 0xc03.
Definition L1D_MISSES : Z := 0xc04.
Definition L1I_HITS : Z := 0xc05.
Definition L1I_MISSES : Z := 0xc06.
Definition L2_HITS : Z := 0xc07.
Definition L2_MISSES : Z := 0xc08.

Record CSR := mkCSR {
  mstatus : Z; mepc : Z; mcause : Z; mtvec : Z; mideleg : Z; medeleg : Z;
  mie : Z; mip : Z; mtval : Z; misa : Z; mscratch : Z; sstatus : Z;
  sepc : Z; scause : Z; sie : Z; sip : Z; stval : Z; stvec : Z;
  satp : Z; sscratch : Z;
}.

(** Everything csr.c keeps: the registers, the privilege level, the PMP. *)
Record CsrFile := mkCsrFile {
  csr : CSR;
  priv_level : Z;
  pmp : Pmp;
}.

(** [CSR csr;] is zero-initialised, [priv_level] starts at machine mode. *)
Definition csr_zero : CSR := mkCSR 0 0 0 0 0 0 0 0 0 0 0 0 0 0 0 0 0 0 0 0.
Definition csrfile_init : CsrFile :=
  {| csr := csr_zero; priv_level := 3; pmp := pmp_init |}.

(** ** The access table: id, level, read, write *)

Record csr_row := mkRow { row_id : Z; row_level : Z; row_read : bool; row_write : bool }.

Definition csr_table : list csr_row :=
  [ mkRow MSTATUS MACHINE true true; mkRow MISA MACHINE true false;
    mkRow MEDELEG MACHINE true true; mkRow MIDELEG MACHINE true true;
    mkRow MIE MACHINE true true; mkRow MTVEC MACHINE true true;
    mkRow MCOUNTERN MACHINE true false; mkRow MSCRATCH MACHINE true true;
    mkRow MEPC MACHINE true true; mkRow MCAUSE MACHINE true true;
    mkRow MTVAL MACHINE true true; mkRow MIP MACHINE true true;
    mkRow MHARTID MACHINE true false; mkRow SSTATUS SUPERVISOR true true;
    mkRow SIE SUPERVISOR true true; mkRow STVEC SUPERVISOR true true;
    mkRow SSCRATCH SUPERVISOR true true; mkRow SEPC SUPERVISOR true true;
    mkRow SCAUSE SUPERVISOR true true; mkRow STVAL SUPERVISOR true true;
    mkRow SIP SUPERVISOR true true; mkRow SATP SUPERVISOR true true;
    mkRow PMPCFG0 MACHINE true true; mkRow PMPCFG2 MACHINE true true;
    mkRow PMPCFG4 MACHINE true true; mkRow PMPCFG6 MACHINE true true;
    mkRow PMPCFG8 MACHINE true true; mkRow PMPCFGA MACHINE true true;
    mkRow PMPCFGC MACHINE true true; mkRow PMPCFGE MACHINE true true;
    mkRow PMPADDR0 MACHINE true true; mkRow PMPADDR2 MACHINE true true;
    mkRow PMPADDR4 MACHINE true true; mkRow PMPADDR6 MACHINE true true;
    mkRow PMPADDR8 MACHINE true true;
    mkRow CYCLE USER true false; mkRow INSTRET USER true false;
    mkRow L1D_HITS USER true false; mkRow L1D_MISSES USER true false;
    mkRow L1I_HITS USER true false; mkRow L1I_MISSES USER true false;
    mkRow L2_HITS USER true false; mkRow L2_MISSES USER true false ].

(** The loop of [priv_check]: the first row with this number decides; a number
    outside the table is refused without touching the run state. *)
Fixpoint priv_check_rows (rows : list csr_row) (priv no : Z) (is_write : bool) (s : Sim)
    : bool * Sim :=
  match rows with
  | [] => (false, s)
  | r :: rows =>
      if no =? row_id r then
        if priv <? row_level r then (false, abort_bad s)
        else if negb is_write && negb (row_read r) then (false, abort_bad s)
        else if is_write && negb (row_write r) then (false, abort_bad s)
        else (true, s)
      else priv_check_rows rows priv no is_write s
  end.

Definition priv_check (cf : CsrFile) (no : Z) (is_write : bool) (s : Sim) : bool * Sim :=
  priv_check_rows csr_table (priv_level cf) no is_write s.

(** ** Trap entry and return *)

Definition mret_priv_transfer (cf : CsrFile) : CsrFile :=
  let m := mstatus (csr cf) in
  let priv := Z.shiftr (Z.land m 0x18000) 11 in
  let m := Z.land m (not64 0x18000) in
  let m := Z.lor (Z.shiftr (Z.land m 0x80) 4) (Z.land m (not64 0x80)) in
  let m := Z.lor m 0x80 in
  let c := csr cf in
  {| cf with csr := {| c with mstatus := m |}; priv_level := priv |}.

Definition exception_priv_transfer (cf : CsrFile) : CsrFile :=
  let m := mstatus (csr cf) in
  let m := Z.lor (Z.land m (not64 0x18000)) (wrap64 (Z.shiftl (priv_level cf) 11)) in
  let m := Z.lor (wrap64 (Z.shiftl (Z.land m 0x08) 4)) (Z.land m (not64 0x80)) in
  let m := Z.land m (not64 0x08) in
  let c := csr cf in
  {| cf with csr := {| c with mstatus := m |}; priv_level := MACHINE |}.

(** [raise_intr(NO, epc, args)] returns the trap vector. *)
Definition raise_intr (NO epc args : Z) (cf : CsrFile) : Z * CsrFile :=
  let c := csr cf in
  let c := {| c with mepc := epc; mcause := NO |} in
  (mtvec c, {| cf with csr := c |}).

(** ** Writing a register *)

Definition upd_csr (c : CSR) (cf : CsrFile) : CsrFile := {| cf with csr := c |}.
Definition set_pmpaddr (i data : Z) (p : Pmp) : Pmp :=
  {| p with pmpaddr := upd (pmpaddr p) i data |}.
Definition upd_pmp (p : Pmp) (cf : CsrFile) : CsrFile := {| cf with pmp := p |}.

(** The [switch] of [set_csr]; a number without a case changes nothing. *)
Definition set_csr_switch (no data : Z) (cf : CsrFile) : Res CsrFile :=
  let c := csr cf in
  if no =? MEPC then Ok (upd_csr {| c with mepc := data |} cf)
  else if no =? MCAUSE then Ok (upd_csr {| c with mcause := data |} cf)
  else if no =? MTVEC then Ok (upd_csr {| c with mtvec := data |} cf)
  else if no =? MHARTID then Ok cf
  else if no =? MTVAL then Ok (upd_csr {| c with mtval := data |} cf)
  else if no =? MIP then Ok (upd_csr {| c with mip := data |} cf)
  else if no =? MIE then Ok (upd_csr {| c with mie := data |} cf)
  else if no =? MIDELEG then Ok (upd_csr {| c with mideleg := data |} cf)
  else if no =? MEDELEG then Ok (upd_csr {| c with medeleg := data |} cf)
  else if no =? MSCRATCH then Ok (upd_csr {| c with mscratch := data |} cf)
  else if no =? SSTATUS then Ok (upd_csr {| c with sstatus := data |} cf)
  else if no =? SIE then Ok (upd_csr {| c with sie := data |} cf)
  else if no =? STVEC then Ok (upd_csr {| c with stvec := data |} cf)
  else if no =? SSCRATCH then Ok (upd_csr {| c with sscratch := data |} cf)
  else if no =? STVAL then Ok (upd_csr {| c with stval := data |} cf)
  else if no =? SIP then Ok (upd_csr {| c with sip := data |} cf)
  else if no =? SATP then Ok (upd_csr {| c with satp := data |} cf)
  else if no =? PMPCFG0 then p ← set_pmpcfg_all 0 data (pmp cf); Ok (upd_pmp p cf)
  else if no =? PMPCFG2 then p ← set_pmpcfg_all 8 data (pmp cf); Ok (upd_pmp p cf)
  else if no =? PMPADDR0 then Ok (upd_pmp (set_pmpaddr 0 data (pmp cf)) cf)
  else if no =? PMPADDR2 then Ok (upd_pmp (set_pmpaddr 1 data (pmp cf)) cf)
  else if no =? PMPADDR4 then Ok (upd_pmp (set_pmpaddr 2 data (pmp cf)) cf)
  else if no =? PMPADDR6 then Ok (upd_pmp (set_pmpaddr 3 data (pmp cf)) cf)
  else if no =? PMPADDR8 then Ok (upd_pmp (set_pmpaddr 4 data (pmp cf)) cf)
  else Ok cf.

Definition set_csr (no data : Z) (cf : CsrFile) (s : Sim) : Res (CsrFile * Sim) :=
  let '(ok, s) := priv_check cf no true s in
  if ok then cf ← set_csr_switch no data cf; Ok (cf, s) else Ok (cf, s).

(** ** Reading a register *)

(** Statistics of a cache, [None] for a null [Cache] pointer. *)
Record CsrEnv := mkCsrEnv {
  env_hartid : Z;
  env_cycles : Z;
  env_instret : Z;
  env_l1d : option (Z * Z);
  env_l1i : option (Z * Z);
  env_l2 : option (Z * Z);
}.

(** [c ? (word_t)c->hits : 0] and the same for misses. *)
Definition stat_hits (st : option (Z * Z)) : Z := from_option (fun x => wrap64 x.1) 0 st.
Definition stat_misses (st : option (Z * Z)) : Z := from_option (fun x => wrap64 x.2) 0 st.

(** The [switch] of [read_csr]; a number without a case ends in [Assert(0)]. *)
Definition read_csr_switch (no : Z) (cf : CsrFile) (env : CsrEnv) : Res Z :=
  let c := csr cf in
  if no =? MEPC then Ok (mepc c)
  else if no =? MCAUSE then Ok (mcause c)
  else if no =? MTVEC then Ok (mtvec c)
  else if no =? MSTATUS then Ok (mstatus c)
  else if no =? MHARTID then Ok (wrap64 (env_hartid env))
  else if no =? MTVAL then Ok (mtval c)
  else if no =? MIP then Ok (mip c)
  else if no =? MIE then Ok (mie c)
  else if no =? MIDELEG then Ok (mideleg c)
  else if no =? MEDELEG then Ok (medeleg c)
  else if no =? MISA then Ok 0x8000000000001100
  else if no =? MSCRATCH then Ok (mscratch c)
  else if no =? SSTATUS then Ok (sstatus c)
  else if no =? SIE then Ok (sie c)
  else if no =? STVEC then Ok (stvec c)
  else if no =? SSCRATCH then Ok (sscratch c)
  else if no =? SEPC then Ok (sepc c)
  else if no =? SCAUSE then Ok (scause c)
  else if no =? STVAL then Ok (stval c)
  else if no =? SIP then Ok (sip c)
  else if no =? PMPCFG0 then Ok (read_pmpcfg_all (pmp cf))
  else if no =? PMPADDR0 then Ok (arr (pmpaddr (pmp cf)) 0)
  else if no =? PMPADDR2 then Ok (arr (pmpaddr (pmp cf)) 1)
  else if no =? CYCLE then Ok (env_cycles env)
  else if no =? INSTRET then Ok (env_instret env)
  else if no =? L1D_HITS then Ok (stat_hits (env_l1d env))
  else if no =? L1D_MISSES then Ok (stat_misses (env_l1d env))
  else if no =? L1I_HITS then Ok (stat_hits (env_l1i env))
  else if no =? L1I_MISSES then Ok (stat_misses (env_l1i env))
  else if no =? L2_HITS then Ok (stat_hits (env_l2 env))
  else if no =? L2_MISSES then Ok (stat_misses (env_l2 env))
  else Err Assertion.

Definition read_csr (no : Z) (cf : CsrFile) (env : CsrEnv) (s : Sim) : Res (Z * Sim) :=
  let '(ok, s) := priv_check cf no false s in
  if ok then v ← read_csr_switch no cf env; Ok (v, s) else Ok (0xbadbeef, s).

(** ** Well-formedness

    Every register holds a word, the PMP arrays are well formed, the privilege
    level is one of the four encodings, and the two [mstatus] bits that
    [mret_priv_transfer] reads are clear.  The last conjunct holds from reset
    and is preserved by every operation: [set_csr] has no case for [MSTATUS],
    and [exception_priv_transfer] stores the level two bits further down. *)

Definition csr_fields (c : CSR) : list Z :=
  [ mstatus c; mepc c; mcause c; mtvec c; mideleg c; medeleg c; mie c; mip c; mtval c;
    misa c; mscratch c; sstatus c; sepc c; scause c; sie c; sip c; stval c; stvec c;
    satp c; sscratch c ].

Record csr_wf (cf : CsrFile) : Prop := {
  csr_wf_fields : Forall is_word (csr_fields (csr cf));
  csr_wf_priv : 0 <= priv_level cf <= MACHINE;
  csr_wf_pmp : pmp_wf (pmp cf);
  csr_wf_mpp : Z.land (mstatus (csr cf)) 0x18000 = 0;
}.

Lemma csrfile_init_wf : csr_wf csrfile_init.
Proof.
  split; [| by unfold csrfile_init, MACHINE; cbn | apply pmp_init_wf | done].
  repeat constructor; apply is_word_0.
Qed.

Lemma mstatus_word cf : csr_wf cf -> is_word (mstatus (csr cf)).
Proof. intros [H _ _ _]. by apply Forall_cons in H as [? _]. Qed.

(** Splitting and rebuilding the register conjunct. *)
Ltac csr_fields_solve :=
  match goal with
  | H : Forall is_word (csr_fields _) |- Forall is_word (csr_fields _) =>
      unfold csr_fields in *; cbn in *;
      repeat match goal with
      | H : Forall _ (_ :: _) |- _ => apply Forall_cons_1 in H as [? H]
      end; repeat apply Forall_cons_2; assumption
  end.

Lemma set_pmpaddr_wf i data p : pmp_wf p -> is_word data -> pmp_wf (set_pmpaddr i data p).
Proof.
  intros [? ? ? ? ?] Hd. split; cbn; rewrite ?length_upd; try done. by apply Forall_upd.
Qed.

#[export] Hint Resolve set_pmpaddr_wf : emu.

(** The PMP loop of [PMPCFG2] leaves the array at its first step. *)
Lemma set_pmpcfg_all_8 data p : pmp_wf p -> set_pmpcfg_all 8 data p = Err Undefined.
Proof.
  intros [Hc _ _ _ _].
  assert (E : forall d, set_pmpcfg (0 + 8) d p = Err Undefined).
  { intros d. unfold set_pmpcfg, is_pmp_on, in_range. by rewrite Hc. }
  unfold set_pmpcfg_all. cbn [seqZ_from for_each]. by rewrite E.
Qed.

Lemma set_csr_switch_wf no data cf cf' : csr_wf cf -> is_word data ->
  set_csr_switch no data cf = Ok cf' ->
  csr_wf cf' /\ priv_level cf' = priv_level cf.
Proof.
  intros Hwf Hd. pose proof Hwf as [Hf Hp Hpmp Hm].
  destruct (set_pmpcfg_all_spec data (pmp cf) Hpmp) as (p0 & E0 & Hp0 & _ & _).
  unfold set_csr_switch. cbv zeta. rewrite E0, set_pmpcfg_all_8 by done.
  repeat (case_if; [clear E; intros H; inv_res;
    (split; [split; cbn; auto with emu; csr_fields_solve | done]) |]).
  intros H; inv_res. done.
Qed.

(** ** Access control *)

Lemma priv_check_rows_spec rows priv no (w : bool) s :
  match List.find (fun r => no =? row_id r) rows with
  | None => priv_check_rows rows priv no w s = (false, s)
  | Some r =>
      if (row_level r <=? priv) && (if w then row_write r else row_read r)
      then priv_check_rows rows priv no w s = (true, s)
      else priv_check_rows rows priv no w s = (false, abort_bad s)
  end.
Proof.
  induction rows as [|r rows IH]; cbn; [done |].
  destruct (no =? row_id r) eqn:E; [| exact IH].
  destruct (Z.ltb_spec priv (row_level r)), (Z.leb_spec (row_level r) priv); try lia; cbn; [done |].
  by destruct w, (row_read r), (row_write r).
Qed.

(** The row that governs a register number, and what it grants. *)
Definition csr_row_of (no : Z) : option csr_row := List.find (fun r => no =? row_id r) csr_table.

Definition csr_grants (cf : CsrFile) (no : Z) (w : bool) : bool :=
  match csr_row_of no with
  | None => false
  | Some r => (row_level r <=? priv_level cf) && (if w then row_write r else row_read r)
  end.

Lemma priv_check_granted cf no w s : csr_grants cf no w = true -> priv_check cf no w s = (true, s).
Proof.
  unfold csr_grants, csr_row_of, priv_check.
  pose proof (priv_check_rows_spec csr_table (priv_level cf) no w s) as H.
  destruct (List.find _ csr_table); [| done]. intros E. by rewrite E in H.
Qed.

Lemma priv_check_refused cf no w s : csr_grants cf no w = false ->
  priv_check cf no w s = (false, if csr_row_of no is Some _ then abort_bad s else s).
Proof.
  unfold csr_grants, csr_row_of, priv_check.
  pose proof (priv_check_rows_spec csr_table (priv_level cf) no w s) as H.
  destruct (List.find _ csr_table); [| done]. intros E. by rewrite E in H.
Qed.

(** C36. Access control of the CSR file.  A read or a write takes effect only
    if the table has a row for the number, the hart's level reaches the row's
    level and the row grants the direction; then the run state is untouched.
    Otherwise the file is unchanged, a read yields [0xbadbeef], and the run is
    aborted and marked bad, unless the number has no row at all, in which case
    nothing happens. *)
Theorem csr_access_control no data cf env s :
  (csr_grants cf no true = true ->
     set_csr no data cf s = (cf' ← set_csr_switch no data cf; Ok (cf', s))) /\
  (csr_grants cf no false = true ->
     read_csr no cf env s = (v ← read_csr_switch no cf env; Ok (v, s))) /\
  (csr_grants cf no true = false ->
     set_csr no data cf s = Ok (cf, if csr_row_of no is Some _ then abort_bad s else s)) /\
  (csr_grants cf no false = false ->
     read_csr no cf env s = Ok (0xbadbeef, if csr_row_of no is Some _ then abort_bad s else s)).
Proof.
  unfold set_csr, read_csr. split; [| split; [| split]]; intros H.
  - by rewrite (priv_check_granted _ _ _ _ H).
  - by rewrite (priv_check_granted _ _ _ _ H).
  - by rewrite (priv_check_refused _ _ _ _ H).
  - by rewrite (priv_check_refused _ _ _ _ H).
Qed.

Lemma csr_access_control_witness :
  let user := mkCsrFile csr_zero USER pmp_init in
  let env := mkCsrEnv 0 7 0 None None None in
  set_csr MEPC 0x80000004 user sim_init = Ok (user, abort_bad sim_init) /\
  read_csr CYCLE user env sim_init = Ok (7, sim_init) /\
  set_csr 0x123 5 csrfile_init sim_init = Ok (csrfile_init, sim_init).
Proof.
  cbv zeta. split; [| split].
  - apply (csr_access_control MEPC 0x80000004 _ (mkCsrEnv 0 7 0 None None None)). reflexivity.
  - apply (csr_access_control CYCLE 0). reflexivity.
  - apply (csr_access_control 0x123 5 csrfile_init (mkCsrEnv 0 7 0 None None None)). reflexivity.
Defined.

Lemma set_csr_inv no data cf s cf' s' : set_csr no data cf s = Ok (cf', s') ->
  (csr_grants cf no true = true /\ set_csr_switch no data cf = Ok cf' /\ s' = s) \/
  (csr_grants cf no true = false /\ cf' = cf /\ sim_le s s').
Proof.
  intros H. unfold set_csr in H. destruct (csr_grants cf no true) eqn:G.
  - rewrite (priv_check_granted _ _ _ _ G) in H. inv_res. auto.
  - rewrite (priv_check_refused _ _ _ _ G) in H. inv_res. right. repeat split.
    destruct (csr_row_of no); auto with emu. reflexivity.
Qed.

Lemma set_csr_wf no data cf s cf' s' : csr_wf cf -> is_word data ->
  set_csr no data cf s = Ok (cf', s') -> csr_wf cf' /\ priv_level cf' = priv_level cf.
Proof.
  intros Hwf Hd [(_ & H & _) | (_ & -> & _)]%set_csr_inv; [| done].
  by eapply set_csr_switch_wf.
Qed.

(** [set_csr] stops only at [PMPCFG2], whose loop leaves [pmpcfg]. *)
Lemma set_csr_total no data cf s : csr_wf cf -> no <> PMPCFG2 ->
  exists cf' s', set_csr no data cf s = Ok (cf', s').
Proof.
  intros Hwf Hne. unfold set_csr. destruct (priv_check cf no true s) as [[] s1]; [| eauto].
  destruct (set_pmpcfg_all_spec data (pmp cf) (csr_wf_pmp _ Hwf)) as (p & E & _).
  unfold set_csr_switch. rewrite E. cbv zeta.
  repeat (case_if; [cbn; eauto; zify_bool; done |]). cbn. eauto.
Qed.

(** ** Reading back *)

(** The registers that have a case in both switches. *)
Definition csr_rw : list Z :=
  [ MEPC; MCAUSE; MTVEC; MTVAL; MIP; MIE; MIDELEG; MEDELEG; MSCRATCH; SSTATUS; SIE; STVEC;
    SSCRATCH; STVAL; SIP; PMPCFG0; PMPADDR0; PMPADDR2 ].

Lemma if_eqb_congr {A} (x k : Z) (a a' b b' : A) : (x = k -> a = a') -> b = b' ->
  (if x =? k then a else b) = (if x =? k then a' else b').
Proof. intros Ha Hb. destruct (Z.eqb_spec x k); auto. Qed.

Section ReadBack.
Context (no data : Z) (cf : CsrFile) (env : CsrEnv).
Context (Hwf : csr_wf cf) (Hd : is_word data).

Lemma pmpaddr_index i : 0 <= i < 8 -> 0 <= i < Z.of_nat (length (pmpaddr (pmp cf))).
Proof using Hwf. rewrite (pmp_wf_addr _ (csr_wf_pmp _ Hwf)). done. Qed.

(** The written register reads back the written word. *)
Lemma read_switch_same cf' : no ∈ csr_rw -> set_csr_switch no data cf = Ok cf' ->
  read_csr_switch no cf' env = Ok data.
Proof using Hwf Hd.
  intros Hin H. unfold csr_rw in Hin.
  repeat (apply elem_of_cons in Hin as [Hin | Hin]; [subst no; cbn in H |]);
    try (inv_res; done).
  - inv_res. cbn. f_equal. eapply read_set_pmpcfg_all; [apply Hwf | done | eassumption].
  - inv_res. cbn. f_equal. apply arr_upd_eq. by apply pmpaddr_index.
  - inv_res. cbn. f_equal. apply arr_upd_eq. by apply pmpaddr_index.
  - by apply elem_of_nil in Hin.
Qed.

(** Every other register keeps its value. *)
Lemma read_switch_other cf' no' : no' <> no -> set_csr_switch no data cf = Ok cf' ->
  read_csr_switch no' cf' env = read_csr_switch no' cf env.
Proof using Hwf.
  intros Hne H. unfold set_csr_switch in H. cbv zeta in H.
  rewrite set_pmpcfg_all_8 in H by apply Hwf.
  destruct (set_pmpcfg_all_spec data (pmp cf) (csr_wf_pmp _ Hwf)) as (p & E & _ & Ha & _).
  rewrite E in H. cbn in H.
  repeat match type of H with
  | (if ?x =? ?k then _ else _) = _ =>
      let e := fresh in
      destruct (Z.eqb_spec x k) as [e | e];
      [first [discriminate H | injection H as <-] | clear e]
  end; [.. | injection H as <-; reflexivity].
  all: unfold read_csr_switch; cbn [csr pmp upd_csr upd_pmp
    mstatus mepc mcause mtvec mideleg medeleg mie mip mtval misa mscratch sstatus sepc scause
    sie sip stval stvec satp sscratch set_pmpaddr pmpaddr pmpcfg].
  all: repeat (apply if_eqb_congr; [first [intros _; reflexivity | intros ?; congruence
    | intros _; rewrite ?Ha, ?arr_upd_ne by done; reflexivity] |]); reflexivity.
Qed.
End ReadBack.

(** Read after write.  When the hart may write register [no] and the
    register has a case in both switches, [set_csr] leaves the run state
    untouched, a following [read_csr] of [no] yields exactly the word written
    (for [PMPCFG0] after eight byte-wise [set_pmpcfg] calls), and every other
    register reads as before. *)
Theorem csr_read_after_write no data cf env s :
  csr_wf cf -> is_word data -> no ∈ csr_rw -> csr_grants cf no true = true ->
  exists cf', set_csr no data cf s = Ok (cf', s) /\
    read_csr no cf' env s = Ok (data, s) /\
    forall no', no' <> no -> read_csr no' cf' env s = read_csr no' cf env s.
Proof.
  intros Hwf Hd Hin G.
  destruct (set_csr_total no data cf s Hwf) as (cf' & s' & H).
  { intros ->. revert Hin. change (~ PMPCFG2 ∈ csr_rw). compute_done. }
  pose proof (set_csr_wf _ _ _ _ _ _ Hwf Hd H) as [_ Hpriv].
  apply set_csr_inv in H as HH. destruct HH as [(_ & Hsw & ->) | (Hf & _)]; [| congruence].
  exists cf'. split; [done |].
  assert (Hchk : forall k, priv_check cf' k false s = priv_check cf k false s)
    by (intros k; unfold priv_check; by rewrite Hpriv).
  split.
  - unfold read_csr. rewrite Hchk.
    assert (G' : csr_grants cf no false = true).
    { unfold csr_grants in *. revert G. unfold csr_rw in Hin.
      elem_cases Hin; cbn; by rewrite !andb_true_r. }
    rewrite (priv_check_granted _ _ _ _ G').
    by rewrite (read_switch_same no data cf env Hwf Hd cf' Hin Hsw).
  - intros no' Hne. unfold read_csr. rewrite Hchk.
    by rewrite (read_switch_other no data cf env Hwf cf' no' Hne Hsw).
Qed.

Lemma csr_read_after_write_witness :
  exists cf', set_csr PMPCFG0 0x1f0000000000009f csrfile_init sim_init = Ok (cf', sim_init) /\
    read_csr PMPCFG0 cf' (mkCsrEnv 0 0 0 None None None) sim_init
    = Ok (0x1f0000000000009f, sim_init).
Proof.
  destruct (csr_read_after_write PMPCFG0 0x1f0000000000009f csrfile_init
    (mkCsrEnv 0 0 0 None None None) sim_init) as (cf' & H1 & H2 & _).
  - apply csrfile_init_wf.
  - unfold is_word. lia.
  - by repeat (left || right).
  - reflexivity.
  - exists cf'. split; assumption.
Defined.

(** ** Traps *)

Lemma wrap64_testbit x i : 0 <= i < 64 -> Z.testbit (wrap64 x) i = Z.testbit x i.
Proof. intros Hi. unfold wrap64. apply Z.mod_pow2_bits_low. lia. Qed.

Lemma land_field_0 m : Z.testbit m 15 = false -> Z.testbit m 16 = false -> Z.land m 0x18000 = 0.
Proof.
  intros H15 H16. apply Z.bits_inj'. intros i Hi. rewrite Z.land_spec, Z.bits_0.
  change 0x18000 with (Z.shiftl 3 15).
  destruct (Z.lt_ge_cases i 15); [rewrite Z.shiftl_spec_low by done; apply andb_false_r |].
  destruct (Z.eq_dec i 15) as [->|]; [by rewrite H15 |].
  destruct (Z.eq_dec i 16) as [->|]; [by rewrite H16 |].
  rewrite Z.shiftl_spec by done. rewrite (Z.bits_above_log2 3) by (cbn; lia).
  apply andb_false_r.
Qed.

Lemma land_field_bits m : Z.land m 0x18000 = 0 -> Z.testbit m 15 = false /\ Z.testbit m 16 = false.
Proof.
  intros H. split; [apply (f_equal (fun x => Z.testbit x 15)) in H
                   | apply (f_equal (fun x => Z.testbit x 16)) in H];
    by rewrite Z.land_spec, Z.bits_0, andb_true_r in H.
Qed.

(** Push a test of a concrete bit through the masks of the two transfers. *)
Ltac testbits :=
  repeat (rewrite ?Z.lor_spec, ?Z.land_spec, ?wrap64_testbit by lia;
          rewrite ?Z.shiftl_spec, ?Z.shiftr_spec by lia);
  repeat match goal with
  | |- context [Z.testbit (not64 ?c) ?i] =>
      let b := eval vm_compute in (Z.testbit (not64 c) i) in change (Z.testbit (not64 c) i) with b
  | |- context [Z.testbit (Zpos ?c) ?i] =>
      let b := eval vm_compute in (Z.testbit (Zpos c) i) in change (Z.testbit (Zpos c) i) with b
  end; rewrite ?andb_true_r, ?andb_false_r, ?orb_false_r, ?orb_false_l, ?orb_true_r.

(** A privilege level has bits 0 and 1 only. *)
Lemma priv_bit p j : 0 <= p <= MACHINE -> (j < 0 \/ 2 <= j) -> Z.testbit p j = false.
Proof.
  unfold MACHINE. intros Hp [Hj | Hj].
  - by apply Z.testbit_neg_r.
  - apply (below_pow2_bits 2); lia.
Qed.

Section Traps.
Context (cf : CsrFile) (Hwf : csr_wf cf).

Lemma exception_priv_transfer_wf : csr_wf (exception_priv_transfer cf).
Proof using Hwf.
  pose proof (mstatus_word _ Hwf) as Hm. destruct Hwf as [Hf Hp Hpmp Hmpp].
  split; [| by unfold MACHINE; cbn | done |].
  - unfold exception_priv_transfer, csr_fields in *.
    cbn [csr mstatus mepc mcause mtvec mideleg medeleg mie mip mtval misa mscratch sstatus sepc
      scause sie sip stval stvec satp sscratch].
    apply Forall_cons_1 in Hf as [_ Hf]. apply Forall_cons_2; [| exact Hf].
    assert (forall c, 0 <= c < 2 ^ 64 -> is_word c) by done.
    repeat (apply land_word || apply lor_word || apply wrap64_word || apply not64_word
      || done || (unfold is_word; lia)).
  - unfold exception_priv_transfer. cbn [csr mstatus].
    apply land_field_bits in Hmpp as [H15 H16].
    apply land_field_0; testbits; by rewrite ?H15, ?H16, priv_bit by (done || lia).
Qed.

Lemma mret_priv_transfer_wf : csr_wf (mret_priv_transfer cf).
Proof using Hwf.
  pose proof (mstatus_word _ Hwf) as Hm. destruct Hwf as [Hf Hp Hpmp Hmpp].
  split; [| | done |].
  - unfold mret_priv_transfer, csr_fields in *.
    cbn [csr mstatus mepc mcause mtvec mideleg medeleg mie mip mtval misa mscratch sstatus sepc
      scause sie sip stval stvec satp sscratch].
    apply Forall_cons_1 in Hf as [_ Hf]. apply Forall_cons_2; [| exact Hf].
    repeat (apply land_word || apply lor_word || apply shiftr_word || apply not64_word
      || done || (unfold is_word; lia)).
  - unfold mret_priv_transfer. cbn [priv_level]. by rewrite Hmpp.
  - unfold mret_priv_transfer. cbn [csr mstatus].
    apply land_field_bits in Hmpp as [H15 H16].
    apply land_field_0; testbits; by rewrite ?H15, ?H16.
Qed.

Lemma raise_intr_wf NO epc args : is_word NO -> is_word epc ->
  csr_wf (raise_intr NO epc args cf).2.
Proof using Hwf.
  intros HN He. destruct Hwf as [Hf Hp Hpmp Hm]. split; try done.
  cbn. csr_fields_solve.
Qed.
End Traps.

#[export] Hint Resolve exception_priv_transfer_wf mret_priv_transfer_wf raise_intr_wf : emu.

(** Well-formedness is an invariant of the CSR file: every operation that
    changes it keeps all registers words, the PMP counter sound, the privilege
    level one of the architectural encodings and [mstatus] bits 15-16 clear. *)
Theorem csr_wf_invariant cf no data s NO epc args :
  csr_wf cf -> is_word data -> is_word NO -> is_word epc ->
  (forall cf' s', set_csr no data cf s = Ok (cf', s') -> csr_wf cf') /\
  csr_wf (raise_intr NO epc args cf).2 /\
  csr_wf (exception_priv_transfer cf) /\
  csr_wf (mret_priv_transfer cf).
Proof.
  intros Hwf Hd HN He. split; [| split; [| split]]; auto with emu.
  intros cf' s' H. by destruct (set_csr_wf _ _ _ _ _ _ Hwf Hd H).
Qed.

Lemma csr_wf_invariant_witness :
  csr_wf (mret_priv_transfer csrfile_init) /\ csr_wf (exception_priv_transfer csrfile_init).
Proof.
  destruct (csr_wf_invariant csrfile_init MEPC 4 sim_init 11 0x80000000 0 csrfile_init_wf)
    as (_ & _ & H1 & H2); [unfold is_word; lia .. |].
  split; assumption.
Defined.

(** A trap and its return.  From any well-formed file, an [ecall] at [pc]
    (the sequence [raise_intr(11, pc, _); exception_priv_transfer()]) enters
    machine mode with interrupts off and [mepc = pc]; the following
    [mret_priv_transfer] gives the interrupt-enable bit its value from before
    the trap, but always leaves the hart in user mode, whatever mode trapped:
    the level is stored in bits 11-12 and read from bits 15-16. *)
Theorem trap_return cf pc args : csr_wf cf -> is_word pc ->
  let cf1 := exception_priv_transfer (raise_intr 11 pc args cf).2 in
  let cf2 := mret_priv_transfer cf1 in
  (priv_level cf1 = MACHINE /\ mepc (csr cf1) = pc /\ mcause (csr cf1) = 11 /\
   Z.testbit (mstatus (csr cf1)) 3 = false) /\
  (priv_level cf2 = USER /\ mepc (csr cf2) = pc /\
   Z.testbit (mstatus (csr cf2)) 3 = Z.testbit (mstatus (csr cf)) 3).
Proof.
  intros Hwf Hpc. cbv zeta.
  assert (H1 : csr_wf (exception_priv_transfer (raise_intr 11 pc args cf).2)).
  { apply exception_priv_transfer_wf, raise_intr_wf; [done | unfold is_word; lia | done]. }
  split; (split; [| split]); try done.
  - split; [done |]. unfold exception_priv_transfer. cbn [csr mstatus]. by testbits.
  - unfold mret_priv_transfer at 1. cbn [priv_level]. by rewrite (csr_wf_mpp _ H1).
  - unfold mret_priv_transfer, exception_priv_transfer, raise_intr.
    cbn [csr mstatus priv_level snd]. testbits.
    by replace (3 + 4 - 4) with 3 by lia.
Qed.

Lemma trap_return_witness :
  priv_level (mret_priv_transfer
    (exception_priv_transfer (raise_intr 11 0x80000010 0 csrfile_init).2)) = USER.
Proof.
  apply (trap_return csrfile_init 0x80000010 0 csrfile_init_wf). unfold is_word. lia.
Defined.

(** Where the table and the switches disagree.  In machine mode the table
    grants a write of [MSTATUS], [SEPC] and [SCAUSE], but [set_csr] has no case
    for them and drops the word; it grants a read of [SATP], [MCOUNTERN] and
    [PMPADDR4], but [read_csr] stops at [Assert(0)]; and a write of [PMPCFG2]
    leaves the eight-element [pmpcfg] array. *)
Theorem csr_table_gaps cf data env s : csr_wf cf -> priv_level cf = MACHINE ->
  (forall no, no ∈ [MSTATUS; SEPC; SCAUSE] ->
     csr_grants cf no true = true /\ set_csr no data cf s = Ok (cf, s)) /\
  (forall no, no ∈ [SATP; MCOUNTERN; PMPADDR4; PMPADDR6; PMPADDR8] ->
     csr_grants cf no false = true /\ read_csr no cf env s = Err Assertion) /\
  set_csr PMPCFG2 data cf s = Err Undefined.
Proof.
  intros Hwf Hm.
  assert (Hchk : forall no w, csr_grants cf no w = csr_grants csrfile_init no w)
    by (intros; unfold csr_grants; by rewrite Hm).
  split; [| split].
  - intros no Hin. assert (G : csr_grants cf no true = true).
    { rewrite Hchk. by elem_cases Hin. }
    split; [done |]. unfold set_csr. rewrite (priv_check_granted _ _ _ _ G).
    by elem_cases Hin.
  - intros no Hin. assert (G : csr_grants cf no false = true).
    { rewrite Hchk. by elem_cases Hin. }
    split; [done |]. unfold read_csr. rewrite (priv_check_granted _ _ _ _ G).
    by elem_cases Hin.
  - unfold set_csr. rewrite priv_check_granted by (by rewrite Hchk).
    cbn. by rewrite set_pmpcfg_all_8 by apply Hwf.
Qed.

Lemma csr_table_gaps_witness :
  set_csr PMPCFG2 1 csrfile_init sim_init = Err Undefined.
Proof.
  apply (csr_table_gaps csrfile_init 1 (mkCsrEnv 0 0 0 None None None) sim_init);
    [apply csrfile_init_wf | reflexivity].
Defined.
