(* ===== verification/Cache.v ===== *)
(** * Two-level cache (src/memory/cache.c, include/memory/cache.h,
      src/memory/prefetch.c)

    Set-associative write-back caches: lookup with the MRU fast path and the
    LRU victim ([find_line], [find_line_quiet]), the L2 access path, block
    replacement, prefetching, the read and write entry points and the two
    coherence helpers.  A [CacheLine *] is a way of the set selected by the
    address.  The memory below the L2 is reached only through whole 64-byte
    blocks; it is the parameter [M] with its [BlockStore] operations. *)

From S2P Require Import Prelude Word.

(** ** The memory below *)

Class BlockStore (M : Type) := {
  load_block : Z -> M -> Res (list Z * M);      (** [load_block_from_mem(block_paddr, dest)] *)
  store_block : Z -> list Z -> M -> Res M;      (** [store_block_to_mem(block_paddr, src)] *)
}.

(** ** Data *)

Definition BLOCK_SIZE : Z := 64.
Definition WORD_SIZE : Z := 8.
Definition L1D_S : Z := 6.
Definition PREFETCH_DEGREE : nat := 2.

Record CacheLine := mkLine {
  valid : bool;
  dirty : bool;
  tag : Z;
  last_access : Z;
  data : list Z;          (** [uint8_t data[BLOCK_SIZE]] *)
}.

Record CacheSet := mkSet {
  lines : list CacheLine;
  mru_way : Z;            (** [-1] = none *)
}.

Record Cache := mkCache {
  s : Z;                  (** set-index bits *)
  w : Z;                  (** associativity *)
  off : Z;                (** block-offset bits *)
  sets : list CacheSet;
  timer : Z;
  name : string;
  hits : Z;
  misses : Z;
  evictions : Z;
  writebacks : Z;
}.

Definition line_zero : CacheLine := mkLine false false 0 0 (replicate (Z.to_nat BLOCK_SIZE) 0).

#[export] Instance CacheLine_inhabited : Inhabited CacheLine := populate line_zero.
#[export] Instance CacheSet_inhabited : Inhabited CacheSet := populate (mkSet [] (-1)).

Definition init_cache (s w : Z) (name : string) : Cache :=
  {| s := s; w := w; off := 6;
     sets := replicate (Z.to_nat (Z.shiftl 1 s)) (mkSet (replicate (Z.to_nat w) line_zero) (-1));
     timer := 0; name := name; hits := 0; misses := 0; evictions := 0; writebacks := 0 |}.

(** ** Address fields *)

Definition set_idx (c : Cache) (addr : Z) : Z :=
  Z.land (Z.shiftr addr (off c)) (Z.shiftl 1 (s c) - 1).
Definition tag_of (c : Cache) (addr : Z) : Z := Z.shiftr addr (s c + off c).
Definition set_of (c : Cache) (addr : Z) : CacheSet := arr (sets c) (set_idx c addr).

(** [c->sets[set_idx].lines[way]] and its update. *)
Definition line_at (c : Cache) (addr way : Z) : CacheLine := arr (lines (set_of c addr)) way.

Definition upd_set (c : Cache) (addr : Z) (st : CacheSet) : Cache :=
  {| c with sets := upd (sets c) (set_idx c addr) st |}.
Definition upd_line (c : Cache) (addr way : Z) (l : CacheLine) : Cache :=
  let st := set_of c addr in upd_set c addr {| st with lines := upd (lines st) way l |}.
Definition set_mru (c : Cache) (addr way : Z) : Cache :=
  let st := set_of c addr in upd_set c addr {| st with mru_way := way |}.

(** [(line->tag << (c->s + c->off)) | (((addr >> c->off) & ((1ULL << c->s) - 1)) << c->off)] *)
Definition line_paddr (c : Cache) (addr : Z) (l : CacheLine) : Z :=
  Z.lor (wrap64 (Z.shiftl (tag l) (s c + off c))) (wrap64 (Z.shiftl (set_idx c addr) (off c))).

(** [addr & ~(paddr_t)(BLOCK_SIZE - 1)] and [addr & (BLOCK_SIZE - 1)] *)
Definition block_paddr (addr : Z) : Z := Z.land addr (not64 (BLOCK_SIZE - 1)).
Definition block_offset (addr : Z) : Z := Z.land addr (BLOCK_SIZE - 1).

(** ** Lookup *)

Definition line_matches (l : CacheLine) (t : Z) : bool := valid l && (tag l =? t).

Definition UINT64_MAX : Z := 2 ^ 64 - 1.

(** The loop over the ways: [inl i] is the first hit, [inr lru_idx] the victim. *)
Fixpoint scan_ways (ls : list CacheLine) (t i lru_idx min_time : Z) : Z + Z :=
  match ls with
  | [] => inr lru_idx
  | l :: ls =>
      if line_matches l t then inl i
      else if last_access l <? min_time then scan_ways ls t (i + 1) i (last_access l)
      else scan_ways ls t (i + 1) lru_idx min_time
  end.

(** The MRU test: [mru >= 0 && lines[mru].valid && lines[mru].tag == tag]. *)
Definition mru_hit (st : CacheSet) (t : Z) : bool :=
  (0 <=? mru_way st) && line_matches (arr (lines st) (mru_way st)) t.

(** [line->last_access = c->timer] *)
Definition touch (c : Cache) (addr way : Z) : Cache :=
  let l := line_at c addr way in upd_line c addr way {| l with last_access := timer c |}.

(** [find_line]: the cache, [*is_hit], and the way returned. *)
Definition find_line (c : Cache) (addr : Z) : Cache * bool * Z :=
  let c := {| c with timer := wrap64 (timer c + 1) |} in
  let t := tag_of c addr in
  let st := set_of c addr in
  let mru := mru_way st in
  if mru_hit st t then
    let c := {| c with hits := hits c + 1 |} in
    (touch c addr mru, true, mru)
  else
    match scan_ways (lines st) t 0 0 UINT64_MAX with
    | inl i =>
        let c := {| c with hits := hits c + 1 |} in
        (set_mru (touch c addr i) addr i, true, i)
    | inr lru_idx => ({| c with misses := misses c + 1 |}, false, lru_idx)
    end.

(** [find_line_quiet]: no statistics and no timer. *)
Definition find_line_quiet (c : Cache) (addr : Z) : Cache * bool * Z :=
  let t := tag_of c addr in
  let st := set_of c addr in
  let mru := mru_way st in
  if mru_hit st t then (c, true, mru)
  else
    match scan_ways (lines st) t 0 0 UINT64_MAX with
    | inl i => (set_mru c addr i, true, i)
    | inr lru_idx => (c, false, lru_idx)
    end.

(** ** The L2 path and block replacement *)

Section Hierarchy.
Context {M : Type} `{BlockStore M}.

(** [access_l2(l2, addr, data, is_write)]: [buf] is the 64-byte buffer
    [data], returned with the contents it has afterwards. *)
Definition access_l2 (l2 : Cache) (addr : Z) (buf : list Z) (is_write : bool) (m : M)
    : Res (Cache * list Z * M) :=
  let '(l2, hit, way) := find_line l2 addr in
  let l2_line := line_at l2 addr way in
  if hit then
    if is_write then
      Ok (upd_line l2 addr way {| l2_line with data := buf; dirty := true |}, buf, m)
    else Ok (l2, data l2_line, m)
  else
    '(l2, m) ← (if valid l2_line && dirty l2_line then
                  let l2 := {| l2 with evictions := evictions l2 + 1;
                                       writebacks := writebacks l2 + 1 |} in
                  m ← store_block (line_paddr l2 addr l2_line) (data l2_line) m;
                  Ok (l2, m)
                else Ok (l2, m));
    '(l2_line, buf, m) ← (if is_write then
                  Ok ({| l2_line with data := buf; dirty := true |}, buf, m)
                else
                  '(blk, m) ← load_block (block_paddr addr) m;
                  Ok ({| l2_line with data := blk; dirty := false |}, blk, m));
    Ok (upd_line l2 addr way
          {| l2_line with valid := true; tag := tag_of l2 addr; last_access := timer l2 |},
        buf, m).

(** [fetch_block(l1, l2, addr, l1_victim)], the victim given by its way. *)
Definition fetch_block (l1 l2 : Cache) (addr way : Z) (m : M) : Res (Cache * Cache * M) :=
  let l1_victim := line_at l1 addr way in
  '(l1, l2, m) ← (if valid l1_victim then
                    let l1 := {| l1 with evictions := evictions l1 + 1 |} in
                    if dirty l1_victim then
                      let l1 := {| l1 with writebacks := writebacks l1 + 1 |} in
                      '(l2, _, m) ← access_l2 l2 (line_paddr l1 addr l1_victim)
                                      (data l1_victim) true m;
                      Ok (l1, l2, m)
                    else Ok (l1, l2, m)
                  else Ok (l1, l2, m));
  '(l2, blk, m) ← access_l2 l2 addr (data l1_victim) false m;
  Ok (upd_line l1 addr way
        {| valid := true; dirty := false; tag := tag_of l1 addr;
           last_access := timer l1; data := blk |}, l2, m).

(** prefetch.c: the hint is the placeholder that never prefetches. *)
Definition prefetch_hint (addr : Z) : Z := 0.

Fixpoint prefetch_loop (fuel : nat) (l1 l2 : Cache) (cur : Z) (m : M) : Res (Cache * Cache * M) :=
  match fuel with
  | O => Ok (l1, l2, m)
  | S fuel =>
      let hint := prefetch_hint cur in
      if hint =? 0 then Ok (l1, l2, m) else
      let '(l1, already, v) := find_line_quiet l1 hint in
      '(l1, l2, m) ← (if already then Ok (l1, l2, m) else fetch_block l1 l2 hint v m);
      prefetch_loop fuel l1 l2 hint m
  end.

Definition cache_prefetch (l1 l2 : Cache) (miss_addr : Z) (m : M) : Res (Cache * Cache * M) :=
  prefetch_loop PREFETCH_DEGREE l1 l2 miss_addr m.

(** ** Reads and writes *)

(** [memcpy(&res, line->data + offset, len)]: the copy must stay inside the
    64 bytes of the line and the [WORD_SIZE] bytes of [res]. *)
Definition line_load (l : CacheLine) (offset len : Z) : Res Z :=
  if (0 <=? len) && (len <=? WORD_SIZE) && (offset + len <=? BLOCK_SIZE) then
    Ok (le_word (take (Z.to_nat len) (drop (Z.to_nat offset) (data l))))
  else Err Undefined.

(** [memcpy(line->data + offset, &data, len)] *)
Definition line_store (l : CacheLine) (offset len v : Z) : Res CacheLine :=
  if (0 <=? len) && (len <=? WORD_SIZE) && (offset + len <=? BLOCK_SIZE) then
    let d := data l in
    Ok {| l with data := list_inserts (Z.to_nat offset) (le_bytes (Z.to_nat len) v) d |}
  else Err Undefined.

(** The common prefix of the entry points: find the line, fill it on a miss. *)
Definition find_fill (l1 l2 : Cache) (addr : Z) (m : M) : Res (Cache * Cache * M * Z) :=
  let '(l1, hit, way) := find_line l1 addr in
  '(l1, l2, m) ← (if hit then Ok (l1, l2, m) else
                    '(l1, l2, m) ← fetch_block l1 l2 addr way m;
                    cache_prefetch l1 l2 addr m);
  Ok (l1, l2, m, way).

Definition cache_read (l1 l2 : Cache) (addr len : Z) (m : M) : Res (Z * (Cache * Cache * M)) :=
  '(l1, l2, m, way) ← find_fill l1 l2 addr m;
  res ← line_load (line_at l1 addr way) (block_offset addr) len;
  Ok (res, (l1, l2, m)).

(** [cache_read_level]: level 0 = L1, 1 = L2, 2 = memory. *)
Definition cache_read_level (l1 l2 : Cache) (addr len : Z) (m : M)
    : Res (Z * Z * (Cache * Cache * M)) :=
  let '(l1, l1_hit, way) := find_line l1 addr in
  '(level, l1, l2, m) ← (if l1_hit then Ok (0, l1, l2, m) else
                           let '(l2, l2_hit, _) := find_line_quiet l2 addr in
                           let level := if l2_hit then 1 else 2 in
                           '(l1, l2, m) ← fetch_block l1 l2 addr way m;
                           '(l1, l2, m) ← cache_prefetch l1 l2 addr m;
                           Ok (level, l1, l2, m));
  res ← line_load (line_at l1 addr way) (block_offset addr) len;
  Ok (level, res, (l1, l2, m)).

(** [cache_probe_level] fills nothing, but may move the MRU ways. *)
Definition cache_probe_level (l1 l2 : Cache) (addr : Z) : Z * Cache * Cache :=
  let '(l1, l1_hit, _) := find_line_quiet l1 addr in
  if l1_hit then (0, l1, l2) else
  let '(l2, l2_hit, _) := find_line_quiet l2 addr in
  (if l2_hit then 1 else 2, l1, l2).

Definition cache_fill_and_read (l1 l2 : Cache) (addr len : Z) (m : M)
    : Res (Z * (Cache * Cache * M)) :=
  '(l1, l2, m, way) ← find_fill l1 l2 addr m;
  res ← line_load (line_at l1 addr way) (block_offset addr) len;
  Ok (res, (l1, l2, m)).

Definition cache_write (l1 l2 : Cache) (addr len v : Z) (m : M) : Res (Cache * Cache * M) :=
  '(l1, l2, m, way) ← find_fill l1 l2 addr m;
  line ← line_store (line_at l1 addr way) (block_offset addr) len v;
  Ok (upd_line l1 addr way {| line with dirty := true |}, l2, m).

(** ** Coherence helpers *)

(** The loops of the two helpers: the first way whose line satisfies [f]. *)
Fixpoint first_way (f : CacheLine -> bool) (ls : list CacheLine) (i : Z) : option Z :=
  match ls with
  | [] => None
  | l :: ls => if f l then Some i else first_way f ls (i + 1)
  end.

(** [cache_snoop_invalidate(other_l1d, addr)] writes back through the global
    [L2_cache]; a null [other_l1d] is [None]. *)
Definition cache_snoop_invalidate (other : option Cache) (l2 : Cache) (addr : Z) (m : M)
    : Res (option Cache * Cache * M) :=
  match other with
  | None => Ok (None, l2, m)
  | Some c =>
      match first_way (fun l => line_matches l (tag_of c addr)) (lines (set_of c addr)) 0 with
      | None => Ok (Some c, l2, m)
      | Some i =>
          let line := line_at c addr i in
          '(c, l2, m) ← (if dirty line then
                           '(l2, _, m) ← access_l2 l2 (block_paddr addr) (data line) true m;
                           Ok ({| c with writebacks := writebacks c + 1 |}, l2, m)
                         else Ok (c, l2, m));
          Ok (Some (upd_line c addr i {| line with valid := false; dirty := false |}), l2, m)
      end
  end.

Definition cache_snoop_flush_dirty (src : option Cache) (l2 : Cache) (addr : Z) (m : M)
    : Res (option Cache * Cache * M) :=
  match src with
  | None => Ok (None, l2, m)
  | Some c =>
      match first_way (fun l => line_matches l (tag_of c addr) && dirty l)
              (lines (set_of c addr)) 0 with
      | None => Ok (Some c, l2, m)
      | Some i =>
          let line := line_at c addr i in
          '(l2, _, m) ← access_l2 l2 (block_paddr addr) (data line) true m;
          let c := upd_line c addr i {| line with dirty := false |} in
          Ok (Some {| c with writebacks := writebacks c + 1 |}, l2, m)
      end
  end.
End Hierarchy.

(** [init_cache_system]: L1I, L1D and the unified L2. *)
Definition init_cache_system : Cache * Cache * Cache :=
  (init_cache 6 8 "L1-Instruction", init_cache L1D_S 8 "L1-Data", init_cache 8 16 "L2-Unified").
