(* ===== verification/CacheSet.v ===== *)
(** * Lookup in one cache: what [find_line] and the line updates mean

    A block is named by its number [k = addr / 64].  A well-formed cache is, to
    its clients, a finite map [content] from block numbers to (dirty, bytes);
    the lemmas give the effect of the lookups and of the line updates of
    cache.c on that map.  The file also proves the two local claims of
    [find_line]: the MRU fast path is only an optimisation, and the victim is
    least recently used. *)

From S2P Require Import Prelude Word Cache.

(** ** Sets of lines *)

Definition is_block (d : list Z) : Prop := length d = Z.to_nat BLOCK_SIZE /\ Forall is_byte d.

Record line_wf (l : CacheLine) : Prop := {
  line_wf_data : is_block (data l);
  line_wf_time : is_word (last_access l);
}.

(** No two ways hold the same block. *)
Definition ways_unique (ls : list CacheLine) : Prop :=
  forall i j l l', ls !! i = Some l -> ls !! j = Some l' ->
    valid l = true -> valid l' = true -> tag l = tag l' -> i = j.

(** The line of a set that holds a tag. *)
Definition set_find (ls : list CacheLine) (t : Z) : option CacheLine :=
  List.find (fun l => line_matches l t) ls.

Lemma line_matches_spec l t : line_matches l t = true <-> valid l = true /\ tag l = t.
Proof. unfold line_matches. rewrite andb_true_iff, Z.eqb_eq. done. Qed.

Lemma set_find_Some ls t l : set_find ls t = Some l -> l ∈ ls /\ line_matches l t = true.
Proof. intros H. apply find_some in H as [H1 H2]. by rewrite <- list_elem_of_In in H1. Qed.

Lemma set_find_None ls t l : set_find ls t = None -> l ∈ ls -> line_matches l t = false.
Proof.
  intros H Hin. apply (find_none _ _ H). by rewrite <- list_elem_of_In.
Qed.

Lemma set_find_unique ls t i l : ways_unique ls -> ls !! i = Some l -> line_matches l t = true ->
  set_find ls t = Some l.
Proof.
  intros Hu Hi Hm. destruct (set_find ls t) as [l'|] eqn:E.
  - apply set_find_Some in E as [Hin Hm']. apply list_elem_of_lookup in Hin as [j Hj].
    apply line_matches_spec in Hm as [? ?], Hm' as [? ?].
    assert (i = j) as -> by (eapply Hu; eauto; congruence). congruence.
  - apply set_find_None with (l := l) in E; [congruence |]. by eapply list_elem_of_lookup_2.
Qed.

(** Replacing one way by a line that keeps the set duplicate free. *)
Lemma ways_unique_insert ls i l : ways_unique ls ->
  (forall j l', ls !! j = Some l' -> valid l' = true -> valid l = true -> tag l' = tag l -> j = i) ->
  ways_unique (<[i := l]> ls).
Proof.
  intros Hu Hl a b x y Ha Hb Hx Hy Ht.
  apply list_lookup_insert_Some in Ha as [(-> & -> & _) | (Ha & Ha')];
  apply list_lookup_insert_Some in Hb as [(-> & -> & _) | (Hb & Hb')]; try done.
  - exfalso. apply Hb. symmetry. eapply Hl; eauto.
  - exfalso. apply Ha. symmetry. eapply Hl; eauto.
  - eapply Hu; eauto.
Qed.

Lemma set_find_insert ls i old l t : ways_unique ls -> ways_unique (<[i := l]> ls) ->
  ls !! i = Some old ->
  set_find (<[i := l]> ls) t =
  if line_matches l t then Some l else if line_matches old t then None else set_find ls t.
Proof.
  intros Hu Hu' Hi.
  assert (Hlt : (i < length ls)%nat) by (by apply lookup_lt_Some in Hi).
  destruct (line_matches l t) eqn:Hl.
  { eapply set_find_unique; [done | | done]. by apply list_lookup_insert_eq. }
  destruct (set_find (<[i:=l]> ls) t) as [x|] eqn:E.
  - apply set_find_Some in E as [Hin Hx]. apply list_elem_of_lookup in Hin as [j Hj].
    apply list_lookup_insert_Some in Hj as [(<- & <- & _) | (Hne & Hj)]; [congruence |].
    destruct (line_matches old t) eqn:Ho.
    + exfalso. apply Hne. apply line_matches_spec in Hx as [? ?], Ho as [? ?].
      eapply Hu; eauto; congruence.
    + symmetry. by eapply set_find_unique.
  - destruct (line_matches old t) eqn:Ho; [done |].
    destruct (set_find ls t) as [x|] eqn:E'; [| done].
    apply set_find_Some in E' as [Hin Hx]. apply list_elem_of_lookup in Hin as [j Hj].
    destruct (decide (j = i)) as [->|Hne]; [congruence |].
    exfalso. eapply set_find_None with (l := x) in E; [congruence |].
    apply list_elem_of_lookup_2 with j. by rewrite list_lookup_insert_ne by done.
Qed.

(** ** The scan of the ways *)

Lemma scan_ways_hit ls t i lru mt k : scan_ways ls t i lru mt = inl k ->
  exists n l, ls !! n = Some l /\ k = i + Z.of_nat n /\ line_matches l t = true.
Proof.
  revert i lru mt. induction ls as [|l ls IH]; intros i lru mt H; [done |].
  cbn in H. destruct (line_matches l t) eqn:E.
  - injection H as <-. exists 0%nat, l. split; [done | split; [lia | done]].
  - assert (H' : exists lru mt, scan_ways ls t (i + 1) lru mt = inl k)
      by (destruct (last_access l <? mt); eauto).
    destruct H' as (lru' & mt' & H'). apply IH in H' as (n & l' & ? & -> & ?).
    exists (S n), l'. split; [done | split; [lia | done]].
Qed.

Lemma scan_ways_miss ls t i lru mt k : scan_ways ls t i lru mt = inr k ->
  (forall l, l ∈ ls -> line_matches l t = false) /\
  ((k = lru /\ forall l, l ∈ ls -> mt <= last_access l) \/
   exists n l, ls !! n = Some l /\ k = i + Z.of_nat n /\ last_access l < mt /\
     forall l', l' ∈ ls -> last_access l <= last_access l').
Proof.
  revert i lru mt. induction ls as [|l ls IH]; intros i lru mt H; cbn in H.
  - injection H as <-. split; [intros ? []%elem_of_nil | left]. split; [done | intros ? []%elem_of_nil].
  - destruct (line_matches l t) eqn:E; [done |].
    destruct (Z.ltb_spec (last_access l) mt) as [Hlt|Hge].
    + apply IH in H as [Hm [[-> Hmin] | (n & l' & Hn & -> & Hl' & Hmin)]].
      all: split; [intros x [-> | Hx]%elem_of_cons; auto |]; right.
      * exists 0%nat, l. split; [done | split; [lia | split; [done |]]].
        intros x [-> | Hx]%elem_of_cons; [lia | auto].
      * exists (S n), l'. split; [done | split; [lia | split; [lia |]]].
        intros x [-> | Hx]%elem_of_cons; [lia | auto].
    + apply IH in H as [Hm [[-> Hmin] | (n & l' & Hn & -> & Hl' & Hmin)]].
      all: split; [intros x [-> | Hx]%elem_of_cons; auto |].
      * left. split; [done |]. intros x [-> | Hx]%elem_of_cons; [lia | auto].
      * right. exists (S n), l'. split; [done | split; [lia | split; [done |]]].
        intros x [-> | Hx]%elem_of_cons; [lia | auto].
Qed.

(** ** Well-formed caches *)

Record set_wf (ways : Z) (st : CacheSet) : Prop := {
  set_wf_len : length (lines st) = Z.to_nat ways;
  set_wf_lines : Forall line_wf (lines st);
  set_wf_unique : ways_unique (lines st);
  set_wf_mru : -1 <= mru_way st < ways;
}.

Record cache_wf (c : Cache) : Prop := {
  wf_s : 0 <= s c < 58;
  wf_off : off c = 6;
  wf_w : 0 < w c;
  wf_len : length (sets c) = Z.to_nat (2 ^ s c);
  wf_sets : Forall (set_wf (w c)) (sets c);
}.

(** Number of sets, the block of an address, and where a block lives. *)
Definition nsets (c : Cache) : Z := 2 ^ s c.
Definition blk (addr : Z) : Z := addr / 64.
Definition blk_set (c : Cache) (k : Z) : Z := k mod nsets c.
Definition blk_tag (c : Cache) (k : Z) : Z := k / nsets c.

(** The block that way [l] of the set of [addr] holds. *)
Definition line_blk (c : Cache) (addr : Z) (l : CacheLine) : Z :=
  tag l * nsets c + blk_set c (blk addr).

(** The map a cache implements. *)
Definition content (c : Cache) (k : Z) : option (bool * list Z) :=
  (fun l => (dirty l, data l)) <$> set_find (lines (arr (sets c) (blk_set c k))) (blk_tag c k).

Lemma nsets_pos c : cache_wf c -> 0 < nsets c.
Proof. intros H. unfold nsets. pose proof (wf_s _ H). lia. Qed.

Lemma blk_set_range c k : cache_wf c -> 0 <= blk_set c k < Z.of_nat (length (sets c)).
Proof.
  intros H. pose proof (nsets_pos c H). rewrite (wf_len _ H). unfold blk_set, nsets in *.
  pose proof (Z.mod_pos_bound k (2 ^ s c) ltac:(lia)). lia.
Qed.

Lemma set_idx_blk c addr : cache_wf c -> 0 <= addr -> set_idx c addr = blk_set c (blk addr).
Proof.
  intros H Ha. pose proof (wf_s _ H). unfold set_idx, blk_set, blk, nsets.
  rewrite (wf_off _ H), Z.shiftr_div_pow2, Z.shiftl_1_l, land_ones_mod by lia. done.
Qed.

Lemma tag_of_blk c addr : cache_wf c -> 0 <= addr -> tag_of c addr = blk_tag c (blk addr).
Proof.
  intros H Ha. pose proof (wf_s _ H). unfold tag_of, blk_tag, blk, nsets.
  rewrite (wf_off _ H), Z.shiftr_div_pow2 by lia.
  rewrite Z.add_comm, Z.pow_add_r by lia. by rewrite <- Z.div_div by lia.
Qed.

Lemma set_of_wf c addr : cache_wf c -> 0 <= addr -> set_wf (w c) (set_of c addr).
Proof.
  intros H Ha. unfold set_of. apply Forall_arr; [apply H |].
  rewrite set_idx_blk by done. by apply blk_set_range.
Qed.

(** A block is determined by its set and its tag. *)
Lemma blk_split c k : cache_wf c -> k = blk_tag c k * nsets c + blk_set c k.
Proof.
  intros H. pose proof (nsets_pos c H). unfold blk_tag, blk_set.
  pose proof (Z.div_mod k (nsets c) ltac:(lia)). lia.
Qed.

Lemma blk_tag_line c addr l : cache_wf c -> blk_tag c (line_blk c addr l) = tag l.
Proof.
  intros H. pose proof (nsets_pos c H). unfold blk_tag, line_blk, blk_set.
  rewrite Z.add_comm, Z.div_add, Z.div_small by (lia || apply Z.mod_pos_bound; lia). lia.
Qed.

Lemma blk_set_line c addr l : cache_wf c -> blk_set c (line_blk c addr l) = blk_set c (blk addr).
Proof.
  intros H. pose proof (nsets_pos c H). unfold line_blk, blk_set.
  rewrite Z.add_comm, Z.mod_add by lia. by rewrite Z.mod_mod by lia.
Qed.

(** Matching the tag in the set of [addr] is being that block. *)
Lemma line_matches_blk c addr l k : cache_wf c -> blk_set c k = blk_set c (blk addr) ->
  line_matches l (blk_tag c k) = valid l && (k =? line_blk c addr l).
Proof.
  intros H Hs. unfold line_matches. destruct (valid l); [cbn | done].
  apply Bool.eq_iff_eq_true. rewrite !Z.eqb_eq. split.
  - intros Ht. rewrite (blk_split c k H) at 1. unfold line_blk. rewrite Hs. by rewrite Ht.
  - intros ->. by rewrite blk_tag_line.
Qed.

(** Operations change neither the geometry nor the name. *)
Definition same_geom (c c' : Cache) : Prop := s c' = s c /\ w c' = w c /\ off c' = off c.

#[export] Instance same_geom_preorder : PreOrder same_geom.
Proof. split; [done |]. intros a b c (? & ? & ?) (? & ? & ?). split_and!; congruence. Qed.

Lemma content_geom c c' k : s c' = s c -> sets c' = sets c -> content c' k = content c k.
Proof. intros Hs Hl. unfold content, blk_set, blk_tag, nsets. by rewrite Hs, Hl. Qed.

Lemma cache_wf_geom c c' : same_geom c c' -> sets c' = sets c -> cache_wf c -> cache_wf c'.
Proof. intros (Hs & Hw & Ho) Hl [? ? ? ? ?]. split; congruence. Qed.

(** Well-formedness of a cache that differs in statistics or clock only. *)
Ltac wf_geom :=
  match goal with
  | H : cache_wf ?c |- cache_wf _ => apply (cache_wf_geom c); [done | done | exact H]
  end.

(** ** Updating one line *)

Section UpdLine.
Context (c : Cache) (addr way : Z) (Hwf : cache_wf c) (Ha : 0 <= addr) (Hway : 0 <= way < w c).
Let st := set_of c addr.
Let old := line_at c addr way.

Lemma line_at_lookup : lines st !! Z.to_nat way = Some old.
Proof using Hwf Ha Hway.
  apply arr_lookup. rewrite (set_wf_len _ _ (set_of_wf c addr Hwf Ha)). lia.
Qed.

Lemma line_at_wf : line_wf old.
Proof using Hwf Ha Hway.
  eapply Forall_lookup_1; [| apply line_at_lookup]. by apply set_of_wf.
Qed.

Variable l : CacheLine.
Hypothesis Hl : line_wf l.
Hypothesis Hu : forall j l', lines st !! j = Some l' ->
  valid l' = true -> valid l = true -> tag l' = tag l -> j = Z.to_nat way.

Lemma upd_line_unique : ways_unique (<[Z.to_nat way := l]> (lines st)).
Proof using Hwf Ha Hu. apply ways_unique_insert; [by apply set_of_wf | exact Hu]. Qed.

Lemma upd_line_wf : cache_wf (upd_line c addr way l) /\ same_geom c (upd_line c addr way l).
Proof using Hwf Ha Hway Hl Hu.
  split; [| done]. destruct Hwf as [? ? ? Hlen Hsets]. split; cbn; try done.
  - by rewrite length_upd.
  - apply Forall_upd; [done |]. destruct (set_of_wf c addr Hwf Ha) as [? ? ? ?].
    split; cbn; rewrite ?length_upd; try done.
    + by apply Forall_upd.
    + unfold upd. case_if; [apply upd_line_unique | zify_bool; lia].
Qed.

Lemma content_upd_line k : content (upd_line c addr way l) k =
  if valid l && (k =? line_blk c addr l) then Some (dirty l, data l)
  else if valid old && (k =? line_blk c addr old) then None
  else content c k.
Proof using Hwf Ha Hway Hu.
  unfold content, upd_line, upd_set. cbn [sets].
  change (blk_set {| c with sets := _ |} k) with (blk_set c k).
  change (blk_tag {| c with sets := _ |} k) with (blk_tag c k).
  pose proof (blk_set_range c (blk addr) Hwf). pose proof (blk_set_range c k Hwf).
  rewrite set_idx_blk, arr_upd by (done || lia).
  destruct (Z.eqb_spec (blk_set c (blk addr)) (blk_set c k)) as [Hs|Hs].
  - symmetry in Hs. rewrite <- !(line_matches_blk c addr _ k Hwf Hs). cbn [lines].
    unfold upd. case_if; zify_bool; [| lia].
    rewrite (set_find_insert _ _ old);
      [| by apply set_of_wf | apply upd_line_unique | apply line_at_lookup].
    rewrite Hs, <- set_idx_blk by done. by repeat case_if.
  - assert (Hne : forall x, (k =? line_blk c addr x) = false).
    { intros x. apply Z.eqb_neq. intros ->. by rewrite blk_set_line in Hs. }
    by rewrite !Hne, !andb_false_r.
Qed.
End UpdLine.

(** Changing the payload of a line, or dropping it. *)
Lemma upd_same_tag c addr way l : cache_wf c -> 0 <= addr -> 0 <= way < w c ->
  let old := line_at c addr way in
  line_wf l -> tag l = tag old -> (valid l = true -> valid old = true) ->
  cache_wf (upd_line c addr way l) /\ same_geom c (upd_line c addr way l) /\
  forall k, content (upd_line c addr way l) k =
    if valid old && (k =? line_blk c addr old)
    then (if valid l then Some (dirty l, data l) else None) else content c k.
Proof.
  intros Hwf Ha Hway old Hl Ht Hv.
  assert (Hu : forall j l', lines (set_of c addr) !! j = Some l' ->
    valid l' = true -> valid l = true -> tag l' = tag l -> j = Z.to_nat way).
  { intros j l' Hj Hvl' Hvl Htl. eapply (set_wf_unique _ _ (set_of_wf c addr Hwf Ha));
      [exact Hj | by apply line_at_lookup | done | by apply Hv | unfold old in Ht; congruence]. }
  destruct (upd_line_wf c addr way Hwf Ha Hway l Hl Hu) as [Hw Hg]. split; [done | split; [done |]].
  intros k. rewrite content_upd_line by done. fold old.
  assert (line_blk c addr l = line_blk c addr old) as -> by (unfold line_blk; by rewrite Ht).
  destruct (valid l) eqn:Evl; [rewrite (Hv eq_refl) |]; cbn; by repeat case_if.
Qed.

(** Giving a way to a block the cache does not hold. *)
Lemma upd_new_block c addr way l : cache_wf c -> 0 <= addr -> 0 <= way < w c ->
  let old := line_at c addr way in
  line_wf l -> tag l = tag_of c addr -> valid l = true -> content c (blk addr) = None ->
  cache_wf (upd_line c addr way l) /\ same_geom c (upd_line c addr way l) /\
  forall k, content (upd_line c addr way l) k =
    if k =? blk addr then Some (dirty l, data l)
    else if valid old && (k =? line_blk c addr old) then None else content c k.
Proof.
  intros Hwf Ha Hway old Hl Ht Hv Hnone.
  rewrite tag_of_blk in Ht by done.
  assert (Hu : forall j l', lines (set_of c addr) !! j = Some l' ->
    valid l' = true -> valid l = true -> tag l' = tag l -> j = Z.to_nat way).
  { intros j l' Hj Hvl' _ Htl. exfalso. unfold content in Hnone.
    apply fmap_None in Hnone. rewrite <- set_idx_blk in Hnone by done.
    eapply set_find_None with (l := l') in Hnone; [| by eapply list_elem_of_lookup_2].
    assert (line_matches l' (blk_tag c (blk addr)) = true)
      by (apply line_matches_spec; split; [done | congruence]). congruence. }
  destruct (upd_line_wf c addr way Hwf Ha Hway l Hl Hu) as [Hw Hg]. split; [done | split; [done |]].
  intros k. rewrite content_upd_line by done. rewrite Hv. cbn.
  assert (line_blk c addr l = blk addr) as ->; [| done].
  unfold line_blk. rewrite Ht. symmetry. by apply blk_split.
Qed.

(** ** Lookups *)

(** What the caller of [find_line] learns: [way] is a way of the set, nothing
    was moved, and [hit] tells whether it holds the block. *)
Record lookup_ok (c : Cache) (addr : Z) (c' : Cache) (hit : bool) (way : Z) : Prop := {
  lk_wf : cache_wf c';
  lk_geom : same_geom c c';
  lk_way : 0 <= way < w c';
  lk_content : forall k, content c' k = content c k;
  lk_hit : hit = true -> line_matches (line_at c' addr way) (tag_of c' addr) = true;
  lk_miss : hit = false -> content c (blk addr) = None;
}.

Lemma lookup_hit_content c addr c' way : 0 <= addr -> lookup_ok c addr c' true way ->
  let l := line_at c' addr way in
  content c (blk addr) = Some (dirty l, data l) /\ valid l = true /\ line_blk c' addr l = blk addr.
Proof.
  intros Ha [Hwf _ Hway Hc Hh _]. specialize (Hh eq_refl). rewrite tag_of_blk in Hh by done.
  rewrite <- Hc. unfold content. rewrite <- set_idx_blk by done.
  erewrite set_find_unique; [| by apply set_of_wf | by apply line_at_lookup | done].
  split; [done |]. rewrite (line_matches_blk c' addr) in Hh by done. zify_bool. done.
Qed.

Lemma set_find_of_content c addr l : cache_wf c -> 0 <= addr ->
  set_find (lines (set_of c addr)) (tag_of c addr) = l ->
  content c (blk addr) = (fun l => (dirty l, data l)) <$> l.
Proof.
  intros Hwf Ha <-. unfold content, set_of. rewrite set_idx_blk, tag_of_blk by done. done.
Qed.

Lemma mru_hit_way c addr : cache_wf c -> 0 <= addr -> mru_hit (set_of c addr) (tag_of c addr) = true ->
  0 <= mru_way (set_of c addr) < w c /\
  line_matches (line_at c addr (mru_way (set_of c addr))) (tag_of c addr) = true.
Proof.
  intros Hwf Ha Hm. unfold mru_hit in Hm. zify_bool.
  pose proof (set_wf_mru _ _ (set_of_wf c addr Hwf Ha)). split; [lia | done].
Qed.

Lemma scan_hit_way c addr lru mt i : cache_wf c -> 0 <= addr ->
  scan_ways (lines (set_of c addr)) (tag_of c addr) 0 lru mt = inl i ->
  0 <= i < w c /\ line_matches (line_at c addr i) (tag_of c addr) = true.
Proof.
  intros Hwf Ha H. apply scan_ways_hit in H as (n & l & Hn & -> & Hl).
  pose proof (lookup_lt_Some _ _ _ Hn) as Hlt.
  rewrite (set_wf_len _ _ (set_of_wf c addr Hwf Ha)) in Hlt. split; [lia |].
  unfold line_at. rewrite Z.add_0_l. by rewrite (arr_of_lookup _ _ _ Hn).
Qed.

Lemma scan_miss_way c addr i : cache_wf c -> 0 <= addr ->
  scan_ways (lines (set_of c addr)) (tag_of c addr) 0 0 UINT64_MAX = inr i ->
  0 <= i < w c /\ content c (blk addr) = None /\
  forall l, l ∈ lines (set_of c addr) -> last_access (line_at c addr i) <= last_access l.
Proof.
  intros Hwf Ha H. pose proof (wf_w _ Hwf) as Hpos.
  pose proof (set_of_wf c addr Hwf Ha) as Hst.
  apply scan_ways_miss in H as [Hm Hway].
  assert (Hnone : content c (blk addr) = None).
  { erewrite set_find_of_content by done. apply fmap_None.
    destruct (set_find _ _) as [l|] eqn:E; [| done].
    apply set_find_Some in E as [Hin Hl]. rewrite (Hm _ Hin) in Hl. done. }
  destruct Hway as [[-> Hmin] | (n & l & Hn & -> & Hlt & Hmin)].
  - split; [lia | split; [done |]]. intros l Hin. unfold UINT64_MAX in Hmin.
    assert (Hw : line_wf (line_at c addr 0)) by (apply line_at_wf; (done || lia)).
    pose proof (Hmin _ Hin). pose proof (line_wf_time _ Hw) as Ht. unfold is_word in Ht. lia.
  - pose proof (lookup_lt_Some _ _ _ Hn) as Hle. rewrite (set_wf_len _ _ Hst) in Hle.
    split; [lia | split; [done |]]. intros l' Hin. rewrite Z.add_0_l.
    unfold line_at. rewrite (arr_of_lookup _ _ _ Hn). by apply Hmin.
Qed.

(** Writing the time of a line, or the MRU way, moves no block. *)
Lemma touch_ok c addr way : cache_wf c -> is_word (timer c) -> 0 <= addr -> 0 <= way < w c ->
  cache_wf (touch c addr way) /\ same_geom c (touch c addr way) /\
  forall k, content (touch c addr way) k = content c k.
Proof.
  intros Hwf Ht Ha Hway. unfold touch.
  pose proof (line_at_wf c addr way Hwf Ha Hway) as [? ?].
  destruct (upd_same_tag c addr way
    (let l := line_at c addr way in {| l with last_access := timer c |}) Hwf Ha Hway) as (H1 & H2 & H3);
    [by split | done | done |].
  split; [done | split; [done |]]. intros k. cbv zeta in H3. rewrite H3. cbn.
  case_if; [| done]. zify_bool. rewrite H. subst k.
  unfold content. rewrite blk_set_line, blk_tag_line by done. rewrite <- set_idx_blk by done.
  fold (set_of c addr). erewrite set_find_unique; [done | by apply set_of_wf | by apply line_at_lookup |].
  by apply line_matches_spec.
Qed.

Lemma set_mru_ok c addr way : cache_wf c -> 0 <= addr -> 0 <= way < w c ->
  cache_wf (set_mru c addr way) /\ same_geom c (set_mru c addr way) /\
  forall k, content (set_mru c addr way) k = content c k.
Proof.
  intros Hwf Ha Hway. pose proof (set_of_wf c addr Hwf Ha) as [? ? ? ?].
  unfold set_mru, upd_set. split; [| split; [done |]].
  - destruct Hwf as [? ? ? ? ?]. split; cbn; rewrite ?length_upd; try done.
    apply Forall_upd; [done |]. split; cbn; try done. lia.
  - intros k. unfold content. cbn [sets].
    change (blk_set {| c with sets := _ |} k) with (blk_set c k).
    change (blk_tag {| c with sets := _ |} k) with (blk_tag c k).
    pose proof (blk_set_range c (blk addr) Hwf). pose proof (blk_set_range c k Hwf).
    rewrite set_idx_blk, arr_upd by (done || lia).
    destruct (Z.eqb_spec (blk_set c (blk addr)) (blk_set c k)) as [E|]; [| done].
    rewrite <- E. unfold set_of. by rewrite set_idx_blk.
Qed.

Lemma set_of_upd_set c addr st : cache_wf c -> 0 <= addr -> set_of (upd_set c addr st) addr = st.
Proof.
  intros Hwf Ha. unfold set_of, upd_set. cbn [sets].
  change (set_idx {| c with sets := _ |} addr) with (set_idx c addr).
  apply arr_upd_eq. rewrite set_idx_blk by done. by apply blk_set_range.
Qed.

Lemma line_at_upd_line c addr way l : cache_wf c -> 0 <= addr -> 0 <= way < w c ->
  line_at (upd_line c addr way l) addr way = l.
Proof.
  intros Hwf Ha Hway. unfold line_at, upd_line. rewrite set_of_upd_set by done. cbn [lines].
  apply arr_upd_eq. rewrite (set_wf_len _ _ (set_of_wf c addr Hwf Ha)). lia.
Qed.

Lemma line_at_touch c addr way : cache_wf c -> 0 <= addr -> 0 <= way < w c ->
  line_at (touch c addr way) addr way =
  let l := line_at c addr way in {| l with last_access := timer c |}.
Proof. intros. unfold touch. by rewrite line_at_upd_line. Qed.

Lemma line_at_set_mru c addr way i : cache_wf c -> 0 <= addr ->
  line_at (set_mru c addr i) addr way = line_at c addr way.
Proof. intros. unfold line_at, set_mru. by rewrite set_of_upd_set. Qed.

(** Statistics and the clock leave the map alone. *)
Lemma bump_ok c c' : cache_wf c -> same_geom c c' -> sets c' = sets c ->
  cache_wf c' /\ forall k, content c' k = content c k.
Proof.
  intros Hwf Hg Hs. split; [by eapply cache_wf_geom |].
  intros k. apply content_geom; [apply Hg | done].
Qed.

Lemma find_line_ok c addr : cache_wf c -> 0 <= addr ->
  let '(c', hit, way) := find_line c addr in
  lookup_ok c addr c' hit way /\ is_word (timer c') /\
  hits c' + misses c' = hits c + misses c + 1.
Proof.
  intros Hwf Ha. unfold find_line. cbv zeta. set (c1 := {| c with timer := wrap64 (timer c + 1) |}).
  assert (Hw1 : is_word (timer c1)) by apply wrap64_word.
  destruct (bump_ok c c1 Hwf) as [Hwf1 Hc1]; [done | done |].
  destruct (mru_hit (set_of c1 addr) (tag_of c1 addr)) eqn:Em.
  - destruct (mru_hit_way c1 addr Hwf1 Ha Em) as [Hway Hm]. set (mru := mru_way _) in *.
    set (c2 := {| c1 with hits := hits c1 + 1 |}).
    destruct (bump_ok c1 c2 Hwf1) as [Hwf2 Hc2]; [done | done |].
    destruct (touch_ok c2 addr mru Hwf2 Hw1 Ha Hway) as (Hwf3 & Hg3 & Hc3).
    split; [split | split; [done | cbn; lia]]; try done.
    intros _. by rewrite line_at_touch.
  - destruct (scan_ways _ _ _ _ _) as [i|i] eqn:Es.
    + destruct (scan_hit_way c1 addr _ _ i Hwf1 Ha Es) as [Hway Hm].
      set (c2 := {| c1 with hits := hits c1 + 1 |}).
      destruct (bump_ok c1 c2 Hwf1) as [Hwf2 Hc2]; [done | done |].
      destruct (touch_ok c2 addr i Hwf2 Hw1 Ha Hway) as (Hwf3 & Hg3 & Hc3).
      destruct (set_mru_ok (touch c2 addr i) addr i Hwf3 Ha Hway) as (Hwf4 & Hg4 & Hc4).
      split; [split | split; [done | cbn; lia]]; try done.
      * intros k. by rewrite Hc4, Hc3, Hc2, Hc1.
      * intros _. rewrite line_at_set_mru by done. by rewrite line_at_touch.
    + destruct (scan_miss_way c1 addr i Hwf1 Ha Es) as (Hway & Hnone & _).
      set (c2 := {| c1 with misses := misses c1 + 1 |}).
      destruct (bump_ok c1 c2 Hwf1) as [Hwf2 Hc2]; [done | done |].
      split; [split | split; [done | cbn; lia]]; try done.
Qed.

Lemma find_line_quiet_ok c addr : cache_wf c -> 0 <= addr ->
  let '(c', hit, way) := find_line_quiet c addr in
  lookup_ok c addr c' hit way /\ timer c' = timer c /\ hits c' = hits c /\ misses c' = misses c.
Proof.
  intros Hwf Ha. unfold find_line_quiet. cbv zeta.
  destruct (mru_hit (set_of c addr) (tag_of c addr)) eqn:Em.
  - destruct (mru_hit_way c addr Hwf Ha Em) as [Hway Hm]. by split; [split |].
  - destruct (scan_ways _ _ _ _ _) as [i|i] eqn:Es.
    + destruct (scan_hit_way c addr _ _ i Hwf Ha Es) as [Hway Hm].
      destruct (set_mru_ok c addr i Hwf Ha Hway) as (Hwf4 & Hg4 & Hc4).
      split; [split |]; try done. intros _. by rewrite line_at_set_mru.
    + destruct (scan_miss_way c addr i Hwf Ha Es) as (Hway & Hnone & _). by split; [split |].
Qed.

Lemma init_cache_wf s w nm : 0 <= s < 58 -> 0 < w -> cache_wf (init_cache s w nm).
Proof.
  intros Hs Hw. split; cbn; try done.
  - rewrite length_replicate. by rewrite Z.shiftl_1_l.
  - apply Forall_replicate. split; cbn; [apply length_replicate | | | lia].
    + apply Forall_replicate. repeat split; cbn; try lia.
      apply Forall_replicate. unfold is_byte. lia.
    + intros i j l l' Hi Hj Hv. apply lookup_replicate_1 in Hi as [-> _]. done.
Qed.

Lemma init_cache_content s w nm k : content (init_cache s w nm) k = None.
Proof.
  unfold content. apply fmap_None. destruct (set_find _ _) as [l|] eqn:E; [| done].
  apply set_find_Some in E as [Hin Hm]. unfold arr, init_cache in Hin. cbn [sets] in Hin.
  apply line_matches_spec in Hm as [Hv _].
  destruct (decide (Z.to_nat (blk_set (init_cache s w nm) k) < Z.to_nat (Z.shiftl 1 s))%nat) as [Hlt|Hge].
  - rewrite lookup_total_replicate_2 in Hin by done. cbn in Hin.
    apply elem_of_replicate in Hin as [-> _]. done.
  - rewrite list_lookup_total_alt, lookup_ge_None_2 in Hin by (rewrite length_replicate; by apply Nat.nlt_ge).
    cbn in Hin. by apply elem_of_nil in Hin.
Qed.

(** ** The two promises of [find_line] *)

(** [find_line] without the fast path. *)
Definition find_line_scan (c : Cache) (addr : Z) : Cache * bool * Z :=
  let c := {| c with timer := wrap64 (timer c + 1) |} in
  match scan_ways (lines (set_of c addr)) (tag_of c addr) 0 0 UINT64_MAX with
  | inl i =>
      let c := {| c with hits := hits c + 1 |} in
      (set_mru (touch c addr i) addr i, true, i)
  | inr lru_idx => ({| c with misses := misses c + 1 |}, false, lru_idx)
  end.

Lemma mru_hit_scan c addr lru mt : cache_wf c -> 0 <= addr ->
  mru_hit (set_of c addr) (tag_of c addr) = true ->
  scan_ways (lines (set_of c addr)) (tag_of c addr) 0 lru mt = inl (mru_way (set_of c addr)).
Proof.
  intros Hwf Ha Hm. destruct (mru_hit_way c addr Hwf Ha Hm) as [Hr Hl].
  pose proof (line_at_lookup c addr _ Hwf Ha Hr) as Hlk.
  destruct (scan_ways _ _ _ _ _) as [i|i] eqn:E.
  - f_equal. apply scan_ways_hit in E as (n & l & Hn & -> & Hml).
    apply line_matches_spec in Hml as [? ?], Hl as [? ?].
    assert (n = Z.to_nat (mru_way (set_of c addr))) as ->; [| lia].
    eapply (set_wf_unique _ _ (set_of_wf c addr Hwf Ha)); eauto; congruence.
  - apply scan_ways_miss in E as [Hno _].
    rewrite (Hno (line_at c addr (mru_way (set_of c addr)))) in Hl; [done |].
    by eapply list_elem_of_lookup_2.
Qed.

Lemma set_mru_same c addr i : mru_way (set_of c addr) = i -> set_mru c addr i = c.
Proof.
  intros <-. unfold set_mru, upd_set, set_of. set (k := set_idx c addr).
  replace {| lines := lines (arr (sets c) k); mru_way := mru_way (arr (sets c) k) |}
    with (arr (sets c) k) by (by destruct (arr (sets c) k)).
  rewrite upd_same. by destruct c.
Qed.

(** The MRU fast path of [find_line] is only an optimisation: on every
    well-formed cache, lookup with the fast path returns the same line, the
    same hit flag and leaves exactly the same cache (statistics, clock, MRU way
    and all) as the plain scan of the ways. *)
Theorem find_line_fast_path c addr : cache_wf c -> 0 <= addr ->
  find_line c addr = find_line_scan c addr.
Proof.
  intros Hwf Ha. unfold find_line, find_line_scan. cbv zeta.
  set (c1 := {| c with timer := wrap64 (timer c + 1) |}).
  assert (Hwf1 : cache_wf c1) by (wf_geom).
  destruct (mru_hit _ _) eqn:Em; [| done].
  rewrite (mru_hit_scan c1 addr 0 UINT64_MAX Hwf1 Ha Em).
  set (c2 := {| c1 with hits := hits c1 + 1 |}). set (mru := mru_way _).
  rewrite (set_mru_same (touch c2 addr mru)); [done |].
  unfold touch, upd_line. rewrite set_of_upd_set by (done || wf_geom). done.
Qed.

Lemma find_line_fast_path_witness :
  find_line (init_cache 2 2 "c") 0x80000040 = find_line_scan (init_cache 2 2 "c") 0x80000040.
Proof. apply find_line_fast_path; [apply init_cache_wf; lia | lia]. Defined.

(** Replacement is least-recently-used.  Every lookup advances the clock;
    a hit stamps exactly the line it returns with the new time; a miss stamps
    nothing and returns a way whose stamp is minimal in its set. *)
Theorem find_line_lru c addr : cache_wf c -> 0 <= addr ->
  let '(c', hit, way) := find_line c addr in
  timer c' = wrap64 (timer c + 1) /\ 0 <= way < w c /\
  (hit = true -> last_access (line_at c' addr way) = timer c' /\
     forall i, 0 <= i < w c -> i <> way -> line_at c' addr i = line_at c addr i) /\
  (hit = false -> sets c' = sets c /\
     forall l, l ∈ lines (set_of c addr) -> last_access (line_at c addr way) <= last_access l).
Proof.
  intros Hwf Ha. unfold find_line. cbv zeta. set (c1 := {| c with timer := wrap64 (timer c + 1) |}).
  assert (Hwf1 : cache_wf c1) by (wf_geom).
  assert (Htouch : forall i j, 0 <= i < w c -> 0 <= j < w c -> j <> i ->
    line_at (touch {| c1 with hits := hits c1 + 1 |} addr i) addr j = line_at c addr j).
  { intros i j Hi Hj Hne. unfold line_at, touch, upd_line.
    rewrite set_of_upd_set by (done || wf_geom). cbn [lines].
    by rewrite arr_upd_ne by lia. }
  destruct (mru_hit _ _) eqn:Em.
  - destruct (mru_hit_way c1 addr Hwf1 Ha Em) as [Hway _].
    split; [done | split; [done | split; [| done]]]. intros _. split.
    + by rewrite line_at_touch by (done || wf_geom).
    + intros i Hi Hne. by apply Htouch.
  - destruct (scan_ways _ _ _ _ _) as [i|i] eqn:Es.
    + destruct (scan_hit_way c1 addr _ _ i Hwf1 Ha Es) as [Hway _].
      assert (Hwf2 : cache_wf (touch {| c1 with hits := hits c1 + 1 |} addr i))
        by (apply touch_ok; [wf_geom | apply wrap64_word | done | done]).
      split; [done | split; [done | split; [| done]]]. intros _. split.
      * rewrite line_at_set_mru by done. by rewrite line_at_touch by (done || wf_geom).
      * intros j Hj Hne. rewrite line_at_set_mru by done. by apply Htouch.
    + destruct (scan_miss_way c1 addr i Hwf1 Ha Es) as (Hway & _ & Hmin).
      split; [done | split; [done | split; [done |]]]. intros _. by split.
Qed.

Lemma find_line_lru_witness :
  let '(c', hit, way) := find_line (init_cache 2 2 "c") 0x80000040 in
  timer c' = 1 /\ hit = false /\ way = 0.
Proof.
  pose proof (find_line_lru (init_cache 2 2 "c") 0x80000040
    ltac:(apply init_cache_wf; lia) ltac:(lia)) as H.
  vm_compute in H. vm_compute. destruct H as (H & _). split; [exact H | split; reflexivity].
Defined.
