(* ===== verification/CacheSpec.v ===== *)
(** * The cache hierarchy implements a flat memory

    Specification and refinement of the two-level hierarchy of cache.c over any
    memory that obeys [BlockStoreLaws].  The invariants say that a clean line
    equals the level below it; the abstraction is the map from block numbers to
    the bytes a reader sees.  Every entry point refines a flat byte array. *)

From S2P Require Import Prelude Word Cache CacheSet.

(** ** What the hierarchy needs from the memory below *)

Class BlockStoreLaws (M : Type) `{BlockStore M} := {
  store_inv : M -> Prop;
  ram_blk : Z -> Prop;               (** the blocks that plain memory serves *)
  ram : M -> Z -> list Z;            (** their bytes *)
  only_ram : M -> M -> Prop;         (** nothing but their bytes changed *)
  only_ram_pre : PreOrder only_ram;
  ram_blk_range : forall k, ram_blk k -> 0 <= k < 2 ^ 58;
  ram_is_block : forall m k, store_inv m -> ram_blk k -> is_block (ram m k);
  load_block_ok : forall m k, store_inv m -> ram_blk k -> load_block (64 * k) m = Ok (ram m k, m);
  store_block_ok : forall m k d, store_inv m -> ram_blk k -> is_block d ->
    exists m', store_block (64 * k) d m = Ok m' /\ store_inv m' /\ only_ram m m' /\
      forall k', ram_blk k' -> ram m' k' = if k' =? k then d else ram m k';
}.

#[export] Existing Instance only_ram_pre.

(** ** Addresses *)

Lemma block_paddr_blk addr : is_word addr -> block_paddr addr = 64 * blk addr.
Proof.
  intros Ha. unfold block_paddr, BLOCK_SIZE, blk. change (64 - 1) with (2 ^ 6 - 1).
  rewrite land_not64_pow2 by (done || lia). change (2 ^ 6) with 64. lia.
Qed.

Lemma block_offset_mod addr : block_offset addr = addr mod 64.
Proof.
  unfold block_offset, BLOCK_SIZE. change (64 - 1) with (2 ^ 6 - 1).
  by rewrite land_ones_mod by lia.
Qed.

Lemma line_paddr_blk c addr l : cache_wf c -> 0 <= addr -> 0 <= line_blk c addr l < 2 ^ 58 ->
  line_paddr c addr l = 64 * line_blk c addr l.
Proof.
  intros Hwf Ha Hr. pose proof (wf_s _ Hwf). pose proof (nsets_pos _ Hwf) as Hn.
  unfold line_paddr. rewrite set_idx_blk, (wf_off _ Hwf), !Z.shiftl_mul_pow2 by (done || lia).
  unfold line_blk in *. set (i := blk_set c (blk addr)) in *.
  assert (Hi : 0 <= i < nsets c) by (apply Z.mod_pos_bound; lia).
  unfold nsets in *. set (p := 2 ^ s c) in *.
  rewrite (Z.pow_add_r 2 (s c) 6) by lia. fold p. change (2 ^ 6) with 64 in *.
  assert (Ht : 0 <= tag l) by nia.
  rewrite (wrap64_small (tag l * (p * 64))) by (unfold is_word; nia).
  rewrite (wrap64_small (i * 64)) by (unfold is_word; nia).
  replace (tag l * (p * 64)) with (tag l * 2 ^ (s c + 6)).
  - rewrite lor_disjoint_add.
    + rewrite Z.pow_add_r by lia. fold p. change (2 ^ 6) with 64. lia.
    + lia.
    + rewrite Z.pow_add_r by lia. fold p. change (2 ^ 6) with 64. lia.
  - rewrite Z.pow_add_r by lia. fold p. change (2 ^ 6) with 64. lia.
Qed.

Lemma blk_block_paddr addr : is_word addr -> blk (block_paddr addr) = blk addr.
Proof.
  intros Ha. rewrite block_paddr_blk by done. unfold blk at 1.
  rewrite Z.mul_comm. apply Z.div_mul. lia.
Qed.

Lemma blk_mul k : blk (64 * k) = k.
Proof. unfold blk. rewrite Z.mul_comm. apply Z.div_mul. lia. Qed.

Lemma content_is_block c k x : cache_wf c -> content c k = Some x -> is_block x.2.
Proof.
  intros Hwf H. unfold content in H. apply fmap_Some in H as (l & Hl & ->).
  apply set_find_Some in Hl as [Hin _].
  pose proof (blk_set_range c k Hwf) as Hr.
  pose proof (Forall_arr _ _ _ (wf_sets _ Hwf) Hr) as Hst.
  pose proof (proj1 (Forall_forall _ _) (set_wf_lines _ _ Hst) l Hin) as Hl. apply Hl.
Qed.

(** A valid line is the content of the block it names. *)
Lemma line_content c addr way : cache_wf c -> 0 <= addr -> 0 <= way < w c ->
  valid (line_at c addr way) = true ->
  content c (line_blk c addr (line_at c addr way))
  = Some (dirty (line_at c addr way), data (line_at c addr way)).
Proof.
  intros Hwf Ha Hway Hv. unfold content.
  rewrite blk_set_line, blk_tag_line by done. rewrite <- set_idx_blk by done.
  fold (set_of c addr).
  erewrite set_find_unique; [done | by apply set_of_wf | by apply line_at_lookup |].
  by apply line_matches_spec.
Qed.

(** ** L2 over memory *)

Section L2.
Context {M : Type} `{BlockStoreLaws M}.
Implicit Types (m : M) (l : Cache) (k addr : Z).

(** What a reader of the L2 sees. *)
Definition lower l2 m k : list Z := from_option snd (ram m k) (content l2 k).

Record l2_inv l2 m : Prop := {
  l2_wf : cache_wf l2;
  l2_store : store_inv m;
  l2_ram : forall k x, content l2 k = Some x -> ram_blk k;
  l2_clean : forall k d, content l2 k = Some (false, d) -> d = ram m k;
}.

Lemma lower_is_block l2 m k : l2_inv l2 m -> ram_blk k -> is_block (lower l2 m k).
Proof.
  intros [Hwf Hst _ _] Hk. unfold lower. destruct (content l2 k) eqn:E; cbn.
  - by eapply content_is_block.
  - by apply ram_is_block.
Qed.

(** The result of an L2 access: the invariant, and the view [V] afterwards. *)
Record l2_result l2 m l2' m' (V : Z -> list Z) : Prop := {
  l2r_inv : l2_inv l2' m';
  l2r_geom : same_geom l2 l2';
  l2r_only : only_ram m m';
  l2r_view : forall k, ram_blk k -> lower l2' m' k = V k;
}.

(** Writing the victim of a miss back leaves the view in place: afterwards
    memory agrees with the victim's bytes. *)
Definition l2_evict l2 addr way m : Res (Cache * M) :=
  let l2_line := line_at l2 addr way in
  if valid l2_line && dirty l2_line then
    let l2 := {| l2 with evictions := evictions l2 + 1; writebacks := writebacks l2 + 1 |} in
    m ← store_block (line_paddr l2 addr l2_line) (data l2_line) m; Ok (l2, m)
  else Ok (l2, m).

Lemma l2_evict_ok l2 addr way m : l2_inv l2 m -> 0 <= addr -> 0 <= way < w l2 ->
  let old := line_at l2 addr way in
  exists l2' m', l2_evict l2 addr way m = Ok (l2', m') /\ l2_inv l2' m' /\
    same_geom l2 l2' /\ sets l2' = sets l2 /\ timer l2' = timer l2 /\ only_ram m m' /\
    (forall k, ram_blk k -> lower l2' m' k = lower l2 m k) /\
    (valid old = true -> ram m' (line_blk l2 addr old) = data old).
Proof.
  intros [Hwf Hst Hram Hclean] Ha Hway. cbv zeta. unfold l2_evict.
  set (old := line_at l2 addr way).
  pose proof (line_content l2 addr way Hwf Ha Hway) as Hc. fold old in Hc.
  destruct (valid old) eqn:Hv; cbn [andb].
  2: { exists l2, m. repeat (split; [done |]). done. }
  specialize (Hc eq_refl). pose proof (Hram _ _ Hc) as Hk.
  destruct (dirty old) eqn:Hd.
  - set (l2' := {| l2 with evictions := _; writebacks := _ |}).
    destruct (store_block_ok m (line_blk l2 addr old) (data old) Hst Hk) as (m' & Hs & Hst' & Ho & Hr).
    { by apply (line_wf_data _ (line_at_wf l2 addr way Hwf Ha Hway)). }
    change (line_paddr l2' addr old) with (line_paddr l2 addr old).
    rewrite line_paddr_blk by (try done; by apply ram_blk_range). rewrite Hs. cbn.
    exists l2', m'. split; [done |].
    assert (Hcl : forall k d, content l2 k = Some (false, d) -> d = ram m' k).
    { intros k d Hkd. rewrite Hr by (by eapply Hram).
      destruct (Z.eqb_spec k (line_blk l2 addr old)) as [->|]; [congruence | by apply Hclean]. }
    split; [split; try done; wf_geom |]. split; [done |]. split; [done |]. split; [done |].
    split; [done |]. split.
    + intros k Hkr. unfold lower. change (content l2' k) with (content l2 k).
      destruct (content l2 k) eqn:E; [done |]. cbn. rewrite Hr by done.
      destruct (Z.eqb_spec k (line_blk l2 addr old)) as [->|]; [congruence | done].
    + intros _. rewrite Hr by done. by rewrite Z.eqb_refl.
  - exists l2, m. repeat (split; [done |]). intros _. symmetry. by apply Hclean.
Qed.

Lemma access_l2_unfold l2 addr buf wr m :
  access_l2 l2 addr buf wr m =
  let '(l2, hit, way) := find_line l2 addr in
  let line := line_at l2 addr way in
  if hit then
    if wr then Ok (upd_line l2 addr way {| line with data := buf; dirty := true |}, buf, m)
    else Ok (l2, data line, m)
  else
    '(l2, m) ← l2_evict l2 addr way m;
    '(line, buf, m) ← (if wr then Ok ({| line with data := buf; dirty := true |}, buf, m)
                       else '(d, m) ← load_block (block_paddr addr) m;
                            Ok ({| line with data := d; dirty := false |}, d, m));
    Ok (upd_line l2 addr way
          {| line with valid := true; tag := tag_of l2 addr; last_access := timer l2 |}, buf, m).
Proof. done. Qed.

(** Equal maps carry the invariant and the view. *)
Lemma l2_inv_content l2 l2' m : (forall k, content l2' k = content l2 k) -> cache_wf l2' ->
  l2_inv l2 m -> l2_inv l2' m /\ forall k, lower l2' m k = lower l2 m k.
Proof.
  intros Hc Hwf [? ? Hr Hcl]. split.
  - split; try done; intros k; rewrite Hc; [apply Hr | apply Hcl].
  - intros k. unfold lower. by rewrite Hc.
Qed.

Lemma access_l2_hit l2 addr way buf m : l2_inv l2 m -> is_word addr -> 0 <= way < w l2 ->
  let line := line_at l2 addr way in
  valid line = true -> line_blk l2 addr line = blk addr -> is_block buf ->
  l2_result l2 m (upd_line l2 addr way {| line with data := buf; dirty := true |}) m
    (fun k => if k =? blk addr then buf else lower l2 m k).
Proof.
  intros [Hwf Hst Hram Hclean] [Ha _] Hway line Hv Hb Hbuf.
  pose proof (line_content l2 addr way Hwf Ha Hway Hv) as Hc. fold line in Hc. rewrite Hb in Hc.
  set (line' := {| line with data := buf; dirty := true |}).
  destruct (upd_same_tag l2 addr way line' Hwf Ha Hway) as (Hwf' & Hg & Hc0); [| done | done |].
  { pose proof (line_at_wf l2 addr way Hwf Ha Hway) as [? ?]. by split. }
  assert (Hc' : forall k, content (upd_line l2 addr way line') k
    = if k =? blk addr then Some (true, buf) else content l2 k).
  { intros k. rewrite Hc0. fold line. cbn [line' valid dirty data]. by rewrite Hv, Hb. }
  split; [split | | |]; try done.
  - intros k x. rewrite Hc'. case_if; zify_bool; [intros _; subst; by eapply Hram | apply Hram].
  - intros k d. rewrite Hc'. case_if; [done | apply Hclean].
  - intros k Hk. unfold lower. rewrite Hc'. by case_if.
Qed.

(** Installing block [d] in the way of an evicted victim. *)
Lemma l2_install l2 addr way m line' : l2_inv l2 m -> is_word addr -> 0 <= way < w l2 ->
  let old := line_at l2 addr way in
  content l2 (blk addr) = None -> ram_blk (blk addr) ->
  (valid old = true -> ram m (line_blk l2 addr old) = data old) ->
  line_wf line' -> valid line' = true -> tag line' = tag_of l2 addr ->
  (dirty line' = false -> data line' = ram m (blk addr)) ->
  l2_result l2 m (upd_line l2 addr way line') m
    (fun k => if k =? blk addr then data line' else lower l2 m k).
Proof.
  intros [Hwf Hst Hram Hclean] [Ha _] Hway old Hnone Hk Hold Hl Hv Ht Hd.
  pose proof (line_content l2 addr way Hwf Ha Hway) as Hc. fold old in Hc.
  destruct (upd_new_block l2 addr way line' Hwf Ha Hway Hl Ht Hv Hnone) as (Hwf' & Hg & Hc').
  fold old in Hc'. split; [split | | |]; try done.
  - intros k x. rewrite Hc'. repeat case_if; zify_bool; [by intros; subst | done | apply Hram].
  - intros k d. rewrite Hc'. repeat case_if; zify_bool; [| done | apply Hclean].
    intros Hx. injection Hx as Hx <-. subst k. by apply Hd.
  - intros k Hkr. unfold lower. rewrite Hc'. repeat case_if; zify_bool; [done | | done].
    subst k. rewrite Hc by done. cbn. by apply Hold.
Qed.

Lemma access_l2_ok l2 addr buf wr m : l2_inv l2 m -> is_word addr -> ram_blk (blk addr) ->
  (wr = true -> is_block buf) ->
  exists l2' m',
    access_l2 l2 addr buf wr m = Ok (l2', if wr then buf else lower l2 m (blk addr), m') /\
    l2_result l2 m l2' m' (fun k => if wr && (k =? blk addr) then buf else lower l2 m k).
Proof.
  intros Hinv Ha Hk Hbuf. pose proof Ha as [Ha0 _].
  rewrite access_l2_unfold. pose proof (find_line_ok l2 addr (l2_wf _ _ Hinv) Ha0) as Hf.
  destruct (find_line l2 addr) as [[c hit] way]. destruct Hf as (Hlk & Htm & _).
  destruct (l2_inv_content l2 c m (lk_content _ _ _ _ _ Hlk) (lk_wf _ _ _ _ _ Hlk) Hinv)
    as [Hinv' Hlow].
  pose proof (lk_way _ _ _ _ _ Hlk) as Hway. pose proof (lk_geom _ _ _ _ _ Hlk) as Hgeo.
  destruct hit.
  - destruct (lookup_hit_content l2 addr c way Ha0 Hlk) as (Hc & Hv & Hb). cbv zeta.
    destruct wr.
    + eexists _, _. split; [reflexivity |].
      destruct (access_l2_hit c addr way buf m Hinv' Ha Hway Hv Hb (Hbuf eq_refl)) as [? ? ? Hvw].
      split; try done. intros k Hkr. rewrite Hvw by done. by rewrite Hlow.
    + exists c, m. split; [unfold lower at 1; by rewrite Hc |]. by split.
  - destruct (l2_evict_ok c addr way m Hinv' Ha0 Hway)
      as (c2 & m2 & He & Hinv2 & Hg2 & Hs2 & Ht2 & Ho2 & Hl2 & Hold).
    cbv zeta in *. rewrite He. cbn [mbind Res_bind].
    assert (Hline : line_at c2 addr way = line_at c addr way).
    { unfold line_at, set_of, set_idx. destruct Hg2 as (-> & _ & ->). by rewrite Hs2. }
    assert (Hlb : forall x, line_blk c2 addr x = line_blk c addr x).
    { intros x. unfold line_blk, blk_set, nsets. by destruct Hg2 as (-> & _ & _). }
    assert (Hnone : content c2 (blk addr) = None).
    { rewrite (content_geom c c2) by (apply Hg2 || done).
      rewrite (lk_content _ _ _ _ _ Hlk). by apply (lk_miss _ _ _ _ _ Hlk). }
    assert (Hway2 : 0 <= way < w c2) by (destruct Hg2 as (_ & -> & _); lia).
    assert (Hres : forall d dr, is_block d -> (dr = false -> d = ram m2 (blk addr)) ->
      l2_result l2 m (upd_line c2 addr way
        {| valid := true; dirty := dr; tag := tag_of c2 addr; last_access := timer c2; data := d |})
        m2 (fun k => if k =? blk addr then d else lower l2 m k)).
    { intros d dr Hd Hdr.
      destruct (l2_install c2 addr way m2 {| valid := true; dirty := dr; tag := tag_of c2 addr;
        last_access := timer c2; data := d |} Hinv2 Ha Hway2 Hnone Hk) as [? ? ? Hvw]; try done.
      - intros Hv. rewrite Hline in *. rewrite Hlb. by apply Hold.
      - split; [done |]. cbn. by rewrite Ht2.
      - split; try done; [by transitivity c; [| transitivity c2] |].
        intros k Hkr. rewrite Hvw by done. rewrite Hl2 by done. by rewrite Hlow. }
    destruct wr; cbn [mbind Res_bind andb].
    + eexists _, _. split; [reflexivity |]. apply Hres; [by apply Hbuf | done].
    + rewrite block_paddr_blk by done.
      rewrite load_block_ok by (try done; apply Hinv2). cbn.
      assert (El : lower l2 m (blk addr) = ram m2 (blk addr)).
      { rewrite <- Hlow, <- Hl2 by done. unfold lower. by rewrite Hnone. }
      eexists _, _. split; [by rewrite El |].
      destruct (Hres (ram m2 (blk addr)) false) as [? ? ? Hvw];
        [apply ram_is_block; [apply Hinv2 | done] | done |].
      split; try done. intros k Hkr. rewrite Hvw by done.
      destruct (Z.eqb_spec k (blk addr)) as [->|]; [by rewrite El | done].
Qed.
End L2.

(** ** L1 over L2 *)

Section L1.
Context {M : Type} `{BlockStoreLaws M}.
Implicit Types (m : M) (l : Cache) (k addr : Z).

(** A first-level cache over a view [L] of the level below. *)
Record l1_inv l (L : Z -> list Z) : Prop := {
  l1_wf : cache_wf l;
  l1_ram : forall k x, content l k = Some x -> ram_blk k;
  l1_clean : forall k d, content l k = Some (false, d) -> d = L k;
}.

Definition view l (L : Z -> list Z) k : list Z := from_option snd (L k) (content l k).

(** The hierarchy: an L1 over the L2 over memory. *)
Record hier_inv l1 l2 m : Prop := {
  hi_l1 : l1_inv l1 (lower l2 m);
  hi_l2 : l2_inv l2 m;
}.

Definition hview l1 l2 m : Z -> list Z := view l1 (lower l2 m).

Lemma view_is_block l1 l2 m k : hier_inv l1 l2 m -> ram_blk k -> is_block (hview l1 l2 m k).
Proof.
  intros [[Hwf _ _] Hl2] Hk. unfold hview, view. destruct (content l1 k) eqn:E; cbn.
  - by eapply content_is_block.
  - by apply lower_is_block.
Qed.

(** One operation of the hierarchy on block [k]: the new view is [V], only
    [k] can become valid or (when [wr]) dirty in the L1, and the level below
    changes only where a dirty line of the L1 was written back. *)
Record hier_step (wr : bool) l1 l2 m l1' l2' m' k (V : Z -> list Z) : Prop := {
  hs_inv : hier_inv l1' l2' m';
  hs_geom1 : same_geom l1 l1';
  hs_geom2 : same_geom l2 l2';
  hs_only : only_ram m m';
  hs_view : forall k', ram_blk k' -> hview l1' l2' m' k' = V k';
  hs_valid : forall k', content l1' k' <> None -> k' = k \/ content l1 k' <> None;
  hs_dirty : forall k' d, content l1' k' = Some (true, d) ->
    (wr = true /\ k' = k) \/ content l1 k' = Some (true, d);
  hs_lower : forall k', ram_blk k' ->
    lower l2' m' k' = lower l2 m k' \/ content l1 k' = Some (true, lower l2' m' k');
}.

(** Writing a dirty victim back to the L2 (first half of [fetch_block]). *)
Definition l1_evict l1 l2 addr way m : Res (Cache * Cache * M) :=
  let l1_victim := line_at l1 addr way in
  if valid l1_victim then
    let l1 := {| l1 with evictions := evictions l1 + 1 |} in
    if dirty l1_victim then
      let l1 := {| l1 with writebacks := writebacks l1 + 1 |} in
      '(l2, _, m) ← access_l2 l2 (line_paddr l1 addr l1_victim) (data l1_victim) true m;
      Ok (l1, l2, m)
    else Ok (l1, l2, m)
  else Ok (l1, l2, m).

Lemma l1_evict_ok l1 l2 addr way m : hier_inv l1 l2 m -> 0 <= addr -> 0 <= way < w l1 ->
  let old := line_at l1 addr way in
  let kb := line_blk l1 addr old in
  exists l1' l2' m', l1_evict l1 l2 addr way m = Ok (l1', l2', m') /\
    same_geom l1 l1' /\ sets l1' = sets l1 /\ timer l1' = timer l1 /\
    l2_result l2 m l2' m' (fun k => if valid old && (k =? kb) then data old else lower l2 m k) /\
    (forall k, ram_blk k ->
       lower l2' m' k = lower l2 m k \/ content l1 k = Some (true, lower l2' m' k)).
Proof.
  intros [[Hwf Hram Hclean] Hl2] Ha Hway old kb. unfold l1_evict. fold old.
  pose proof (line_content l1 addr way Hwf Ha Hway) as Hc. fold old kb in Hc.
  destruct (valid old) eqn:Hv.
  2: { exists l1, l2, m. repeat (split; [done |]). by left. }
  specialize (Hc eq_refl). pose proof (Hram _ _ Hc) as Hk.
  pose proof (ram_blk_range _ Hk) as Hkr. cbv zeta.
  destruct (dirty old) eqn:Hd.
  - set (l1' := {| l1 with evictions := _; writebacks := _ |}).
    change (line_paddr _ addr old) with (line_paddr l1 addr old).
    rewrite line_paddr_blk by (done || lia). fold kb.
    destruct (access_l2_ok l2 (64 * kb) (data old) true m Hl2) as (l2' & m' & E & Hr).
    + unfold is_word. lia.
    + by rewrite blk_mul.
    + intros _. by apply (line_wf_data _ (line_at_wf l1 addr way Hwf Ha Hway)).
    + rewrite E. cbn. eexists _, l2', m'. repeat (split; [done |]).
      rewrite blk_mul in Hr. split; [exact Hr |]. intros k Hkk.
      rewrite (l2r_view _ _ _ _ _ Hr k Hkk). cbn.
      destruct (Z.eqb_spec k kb) as [->|]; [by right | by left].
  - eexists _, l2, m. repeat (split; [done |]).
    split; [| by left]. split; try done. intros k Hkk. cbn.
    destruct (Z.eqb_spec k kb) as [->|]; [symmetry; by apply Hclean | done].
Qed.

Lemma fetch_block_unfold l1 l2 addr way m :
  fetch_block l1 l2 addr way m =
  '(l1', l2, m) ← l1_evict l1 l2 addr way m;
  '(l2, d, m) ← access_l2 l2 addr (data (line_at l1 addr way)) false m;
  Ok (upd_line l1' addr way
        {| valid := true; dirty := false; tag := tag_of l1' addr;
           last_access := timer l1'; data := d |}, l2, m).
Proof. done. Qed.

Lemma fetch_block_ok l1 l2 addr way m : hier_inv l1 l2 m -> is_word addr -> ram_blk (blk addr) ->
  is_word (timer l1) -> 0 <= way < w l1 -> content l1 (blk addr) = None ->
  exists l1' l2' m', fetch_block l1 l2 addr way m = Ok (l1', l2', m') /\
    hier_step false l1 l2 m l1' l2' m' (blk addr) (hview l1 l2 m) /\
    line_at l1' addr way = {| valid := true; dirty := false; tag := tag_of l1' addr;
      last_access := timer l1; data := hview l1 l2 m (blk addr) |}.
Proof.
  intros Hinv Ha Hk Ht Hway Hnone. pose proof Ha as [Ha0 _].
  pose proof Hinv as [[Hwf Hram Hclean] Hl2].
  rewrite fetch_block_unfold.
  destruct (l1_evict_ok l1 l2 addr way m Hinv Ha0 Hway)
    as (c1 & l2a & ma & E1 & Hg1 & Hs1 & Ht1 & Hra & Hlow).
  rewrite E1. cbn [mbind Res_bind]. set (old := line_at l1 addr way) in *.
  set (kb := line_blk l1 addr old) in *.
  pose proof (line_content l1 addr way Hwf Ha0 Hway) as Hco. fold old kb in Hco.
  destruct (access_l2_ok l2a addr (data old) false ma (l2r_inv _ _ _ _ _ Hra) Ha Hk)
    as (l2b & mb & E2 & Hrb); [done |].
  rewrite E2. cbn [mbind Res_bind].
  assert (Hne : valid old = true -> blk addr <> kb) by (intros Hv E; rewrite E, (Hco Hv) in Hnone; done).
  assert (Hd : lower l2a ma (blk addr) = hview l1 l2 m (blk addr)).
  { rewrite (l2r_view _ _ _ _ _ Hra) by done. unfold hview, view. rewrite Hnone. cbn.
    destruct (valid old) eqn:Hv; [| done]. cbn.
    destruct (Z.eqb_spec (blk addr) kb); [by destruct Hne | done]. }
  rewrite Hd. set (line' := {| valid := true; dirty := false; tag := tag_of c1 addr;
    last_access := timer c1; data := hview l1 l2 m (blk addr) |}).
  assert (Hwf1 : cache_wf c1) by (by apply (cache_wf_geom l1)).
  assert (Hc1 : forall k, content c1 k = content l1 k)
    by (intros k; apply content_geom; [apply Hg1 | done]).
  assert (Hold1 : line_at c1 addr way = old /\ line_blk c1 addr old = kb).
  { unfold kb, old, line_at, set_of, set_idx, line_blk, blk_set, nsets.
    destruct Hg1 as (-> & _ & ->). by rewrite Hs1. }
  destruct Hold1 as [Ho1 Hb1].
  destruct (upd_new_block c1 addr way line' Hwf1 Ha0) as (Hwf' & Hg' & Hc'); try done.
  { destruct Hg1 as (_ & -> & _). done. }
  { split; cbn; [by apply view_is_block | by rewrite Ht1]. }
  { by rewrite Hc1. }
  rewrite Ho1, Hb1 in Hc'.
  assert (Hlb : forall k, ram_blk k ->
    lower l2b mb k = if valid old && (k =? kb) then data old else lower l2 m k).
  { intros k Hkk. rewrite (l2r_view _ _ _ _ _ Hrb) by done. cbn.
    by rewrite (l2r_view _ _ _ _ _ Hra). }
  exists (upd_line c1 addr way line'), l2b, mb. split; [done | split].
  2: { rewrite line_at_upd_line; [| done | done | by destruct Hg1 as (_ & -> & _)].
       unfold line'. by rewrite Ht1. }
  split.
  - split; [split; [done | |] | apply Hrb].
    + intros k x. rewrite Hc', Hc1. repeat case_if; zify_bool; [by intros; subst | done | apply Hram].
    + intros k d. rewrite Hc', Hc1. cbn. destruct (Z.eqb_spec k (blk addr)) as [->|Hnk].
      * intros Hx. injection Hx as <-. rewrite <- Hd.
        by rewrite (l2r_view _ _ _ _ _ Hrb (blk addr) Hk).
      * destruct (valid old && (k =? kb)) eqn:Ev; [done |]. intros Hx.
        rewrite Hlb by (by eapply Hram). rewrite Ev. by apply Hclean.
  - by transitivity c1.
  - transitivity l2a; [apply Hra | apply Hrb].
  - transitivity ma; [apply Hra | apply Hrb].
  - intros k Hkk. unfold hview at 1, view. rewrite Hc', Hc1. cbn.
    destruct (Z.eqb_spec k (blk addr)) as [->|Hnk]; [done |].
    destruct (valid old && (k =? kb)) eqn:Ev.
    + cbn. rewrite Hlb, Ev by done. zify_bool. subst k.
      unfold hview, view. by rewrite Hco.
    + unfold hview, view. destruct (content l1 k); [done |]. cbn. rewrite Hlb by done. by rewrite Ev.
  - intros k. rewrite Hc', Hc1. repeat case_if; zify_bool; auto.
  - intros k d. rewrite Hc', Hc1. repeat case_if; auto; done.
  - intros k Hkk. rewrite (l2r_view _ _ _ _ _ Hrb) by done. cbn. by apply Hlow.
Qed.

(** A lookup that moves no block can be put in front of a step. *)
Lemma hier_step_lookup wr l1 c l2 m l1' l2' m' k V :
  (forall k, content c k = content l1 k) -> same_geom l1 c ->
  hier_step wr c l2 m l1' l2' m' k V -> hier_step wr l1 l2 m l1' l2' m' k V.
Proof.
  intros Hc Hg [? ? ? ? ? Hv Hd Hl]. split; try done.
  - by transitivity c.
  - intros k'. rewrite <- Hc. apply Hv.
  - intros k' d. rewrite <- Hc. apply Hd.
  - intros k'. rewrite <- Hc. apply Hl.
Qed.

Lemma hier_inv_content l1 c l2 m : (forall k, content c k = content l1 k) -> cache_wf c ->
  hier_inv l1 l2 m -> hier_inv c l2 m /\ forall k, hview c l2 m k = hview l1 l2 m k.
Proof.
  intros Hc Hwf [[? Hr Hcl] ?]. split.
  - split; [split |]; try done; intros k; rewrite Hc; [apply Hr | apply Hcl].
  - intros k. unfold hview, view. by rewrite Hc.
Qed.

(** The hint of prefetch.c is 0: prefetching does nothing. *)
Lemma cache_prefetch_id l1 l2 addr m : cache_prefetch l1 l2 addr m = Ok (l1, l2, m).
Proof. done. Qed.

(** The line [find_fill] hands to the data copy. *)
Record filled l1 l2 m addr l1' way : Prop := {
  fi_way : 0 <= way < w l1';
  fi_valid : valid (line_at l1' addr way) = true;
  fi_blk : line_blk l1' addr (line_at l1' addr way) = blk addr;
  fi_data : data (line_at l1' addr way) = hview l1 l2 m (blk addr);
}.

Lemma find_fill_ok l1 l2 addr m : hier_inv l1 l2 m -> is_word addr -> ram_blk (blk addr) ->
  exists l1' l2' m' way, find_fill l1 l2 addr m = Ok (l1', l2', m', way) /\
    hier_step false l1 l2 m l1' l2' m' (blk addr) (hview l1 l2 m) /\
    filled l1 l2 m addr l1' way /\
    hits l1' + misses l1' = hits l1 + misses l1 + 1.
Proof.
  intros Hinv Ha Hk. pose proof Ha as [Ha0 _]. unfold find_fill.
  pose proof (find_line_ok l1 addr (l1_wf _ _ (hi_l1 _ _ _ Hinv)) Ha0) as Hf.
  destruct (find_line l1 addr) as [[c hit] way]. destruct Hf as (Hlk & Htm & Hst).
  pose proof Hlk as [Hwf Hg Hway Hc _ Hmiss].
  destruct (hier_inv_content l1 c l2 m Hc Hwf Hinv) as [Hinv' Hv'].
  destruct hit.
  - cbn. destruct (lookup_hit_content l1 addr c way Ha0 Hlk) as (Hcon & Hv & Hb).
    exists c, l2, m, way. split; [done | split; [| split; [split |]]]; try done.
    + split; try done; auto.
      * intros k'. rewrite Hc. auto.
      * intros k' d. rewrite Hc. auto.
    + unfold hview, view. by rewrite Hcon.
  - destruct (fetch_block_ok c l2 addr way m Hinv' Ha Hk Htm Hway) as (l1' & l2' & m' & E & Hs & Hl).
    { rewrite Hc. by apply Hmiss. }
    rewrite E. cbn. exists l1', l2', m', way. split; [done |].
    pose proof (hs_geom1 _ _ _ _ _ _ _ _ _ Hs) as Hg'.
    split; [| split; [split |]].
    + destruct (hier_step_lookup _ _ _ _ _ _ _ _ _ _ Hc Hg Hs) as [? ? ? ? Hvw ? ? ?].
      split; try done. intros k' Hk'. rewrite Hvw by done. apply Hv'.
    + destruct Hg' as (_ & -> & _). done.
    + by rewrite Hl.
    + rewrite Hl. unfold line_blk. cbn [tag].
      rewrite tag_of_blk by (done || apply Hs). symmetry. apply blk_split. apply Hs.
    + rewrite Hl. cbn. apply Hv'.
    + unfold fetch_block in E. inv_res.
      destruct x as [[c1 l2a] ma]. inv_res. destruct x as [[l2b d] mb]. inv_res.
      cbn. rewrite <- Hst. destruct (valid _); [destruct (dirty _) |]; inv_res; try done.
      destruct x as [[? ?] ?]. inv_res. done.
Qed.

(** ** Bytes *)

(** The copies of [cache_read] and [cache_write], on the bytes of a block. *)
Definition block_read (d : list Z) (o len : Z) : Z :=
  le_word (take (Z.to_nat len) (drop (Z.to_nat o) d)).
Definition block_write (d : list Z) (o len v : Z) : list Z :=
  list_inserts (Z.to_nat o) (le_bytes (Z.to_nat len) v) d.

Lemma block_write_is_block d o len v : is_block d -> is_block (block_write d o len v).
Proof.
  intros [Hl Hb]. unfold block_write. split; [by rewrite length_inserts |].
  apply Forall_inserts; [done | apply le_bytes_byte].
Qed.

(** The access stays inside one block and fits a word. *)
Definition in_block addr len : Prop := 0 <= len <= 8 /\ addr mod 64 + len <= 64.

Lemma cache_read_ok l1 l2 addr len m : hier_inv l1 l2 m -> is_word addr -> ram_blk (blk addr) ->
  in_block addr len ->
  exists l1' l2' m', cache_read l1 l2 addr len m =
      Ok (block_read (hview l1 l2 m (blk addr)) (addr mod 64) len, (l1', l2', m')) /\
    hier_step false l1 l2 m l1' l2' m' (blk addr) (hview l1 l2 m) /\
    hits l1' + misses l1' = hits l1 + misses l1 + 1.
Proof.
  intros Hinv Ha Hk [Hl0 Hl]. unfold cache_read.
  destruct (find_fill_ok l1 l2 addr m Hinv Ha Hk) as (l1' & l2' & m' & way & E & Hs & Hf & Hst).
  rewrite E. cbn. rewrite block_offset_mod. unfold line_load.
  destruct ((0 <=? len) && (len <=? WORD_SIZE) && (addr mod 64 + len <=? BLOCK_SIZE)) eqn:El;
    [| unfold BLOCK_SIZE, WORD_SIZE in El; zify_bool; lia].
  cbn. rewrite (fi_data _ _ _ _ _ _ Hf). exists l1', l2', m'. done.
Qed.

Lemma cache_write_ok l1 l2 addr len v m : hier_inv l1 l2 m -> is_word addr -> ram_blk (blk addr) ->
  in_block addr len ->
  exists l1' l2' m', cache_write l1 l2 addr len v m = Ok (l1', l2', m') /\
    hier_step true l1 l2 m l1' l2' m' (blk addr)
      (fun k => if k =? blk addr
                then block_write (hview l1 l2 m (blk addr)) (addr mod 64) len v
                else hview l1 l2 m k) /\
    content l1' (blk addr)
      = Some (true, block_write (hview l1 l2 m (blk addr)) (addr mod 64) len v) /\
    hits l1' + misses l1' = hits l1 + misses l1 + 1.
Proof.
  intros Hinv Ha Hk [Hl0 Hl]. pose proof Ha as [Ha0 _]. unfold cache_write.
  destruct (find_fill_ok l1 l2 addr m Hinv Ha Hk) as (c & l2' & m' & way & E & Hs & Hf & Hst).
  rewrite E. cbn [mbind Res_bind]. rewrite block_offset_mod. unfold line_store.
  destruct ((0 <=? len) && (len <=? WORD_SIZE) && (addr mod 64 + len <=? BLOCK_SIZE)) eqn:El;
    [| unfold BLOCK_SIZE, WORD_SIZE in El; zify_bool; lia].
  cbn [mbind Res_bind]. destruct Hf as [Hway Hv Hb Hd].
  set (line := line_at c addr way) in *.
  fold (block_write (data line) (addr mod 64) len v). rewrite Hd.
  set (d' := block_write _ _ _ _).
  set (line' := {| valid := _; dirty := true; tag := _; last_access := _; data := _ |}).
  destruct Hs as [[[Hwf Hram Hclean] Hl2] Hg1 Hg2 Ho Hvw Hval Hdir Hlow].
  destruct (upd_same_tag c addr way line' Hwf Ha0 Hway) as (Hwf' & Hg' & Hc0); [| done | done |].
  { pose proof (line_at_wf c addr way Hwf Ha0 Hway) as [? ?]. split; [| done].
    apply block_write_is_block. by apply view_is_block. }
  assert (Hc' : forall k, content (upd_line c addr way line') k
    = if k =? blk addr then Some (true, d') else content c k).
  { intros k. rewrite Hc0. fold line. cbn [line' valid dirty data]. by rewrite Hv, Hb. }
  exists (upd_line c addr way line'), l2', m'. split; [done | split; [| split]].
  - split; try done.
    + split; [split; [done | |] | done].
      * intros k x. rewrite Hc'. case_if; zify_bool; [by intros; subst | apply Hram].
      * intros k d. rewrite Hc'. case_if; [done | apply Hclean].
    + intros k Hkk. unfold hview at 1, view. rewrite Hc'.
      destruct (k =? blk addr); [done |]. by rewrite <- (Hvw k Hkk).
    + intros k. rewrite Hc'. case_if; zify_bool; auto.
    + intros k d. rewrite Hc'. destruct (Z.eqb_spec k (blk addr)); [by left |].
      intros Hx. destruct (Hdir _ _ Hx) as [[? ?] | ?]; auto.
  - rewrite Hc'. by rewrite Z.eqb_refl.
  - done.
Qed.
End L1.
