(* ===== verification/CacheRefine.v ===== *)
(** * Refinement and coherence of the caches

    The hierarchy against a flat byte array: single accesses, whole traces,
    the level-reporting entry points, accesses that leave their line, and the
    write-invalidate protocol between two first-level data caches. *)

From S2P Require Import Prelude Word Cache CacheSet CacheSpec.

(** ** The flat memory *)

Definition flat := Z -> Z.

Definition flat_read (B : flat) (a len : Z) : Z :=
  le_word ((fun i => B (a + i)) <$> seqZ_from 0 (Z.to_nat len)).

Definition flat_write (B : flat) (a len v : Z) : flat :=
  fun a' => if (a <=? a') && (a' <? a + len) then (v / 256 ^ (a' - a)) mod 256 else B a'.

(** The bytes of a block-indexed view. *)
Definition bytes_of (V : Z -> list Z) : flat := fun a => arr (V (blk a)) (a mod 64).

Lemma blk_add a i : 0 <= i -> a mod 64 + i < 64 -> blk (a + i) = blk a /\ (a + i) mod 64 = a mod 64 + i.
Proof.
  intros Hi Hlt. unfold blk. pose proof (Z.div_mod a 64 ltac:(lia)).
  pose proof (Z.mod_pos_bound a 64 ltac:(lia)).
  assert (E : a + i = 64 * (a / 64) + (a mod 64 + i)) by lia.
  split; [symmetry; eapply Z.div_unique | symmetry; eapply Z.mod_unique]; try exact E; lia.
Qed.

Lemma block_read_flat V a len : is_block (V (blk a)) -> in_block a len ->
  block_read (V (blk a)) (a mod 64) len = flat_read (bytes_of V) a len.
Proof.
  intros [Hlen _] [Hl0 Hl]. unfold block_read, flat_read. f_equal.
  unfold BLOCK_SIZE in Hlen. pose proof (Z.mod_pos_bound a 64 ltac:(lia)).
  apply list_eq_same_length with (n := Z.to_nat len).
  - by rewrite length_fmap, length_seqZ_from.
  - rewrite length_take, length_drop. lia.
  - intros i x y Hi Hx Hy. rewrite lookup_take_lt, lookup_drop in Hx by done.
    rewrite list_lookup_fmap, lookup_seqZ_from in Hy by done.
    rewrite Z.add_0_l in Hy. injection Hy as <-.
    unfold bytes_of. destruct (blk_add a (Z.of_nat i)) as [E1 E2]; [lia | lia |].
    rewrite E1, E2. symmetry.
    replace (a mod 64 + Z.of_nat i) with (Z.of_nat (Z.to_nat (a mod 64) + i)) by lia.
    by apply arr_of_lookup.
Qed.

Lemma blk_same a a' : blk a' = blk a -> a' - a = a' mod 64 - a mod 64.
Proof.
  unfold blk. intros E. pose proof (Z.div_mod a 64 ltac:(lia)).
  pose proof (Z.div_mod a' 64 ltac:(lia)). lia.
Qed.

Lemma block_write_flat V V' a len v : is_block (V (blk a)) -> in_block a len ->
  (forall k, V' k = if k =? blk a then block_write (V (blk a)) (a mod 64) len v else V k) ->
  forall a', bytes_of V' a' = flat_write (bytes_of V) a len v a'.
Proof.
  intros [Hlen _] [Hl0 Hl] HV a'. unfold bytes_of, flat_write. rewrite HV.
  unfold BLOCK_SIZE in Hlen.
  pose proof (Z.mod_pos_bound a 64 ltac:(lia)). pose proof (Z.mod_pos_bound a' 64 ltac:(lia)).
  destruct (Z.eqb_spec (blk a') (blk a)) as [E|E].
  - pose proof (blk_same _ _ E) as Hd. rewrite E. unfold block_write, arr.
    destruct ((a <=? a') && (a' <? a + len)) eqn:Er; zify_bool.
    + apply list_lookup_total_correct.
      rewrite list_lookup_inserts by (rewrite ?length_le_bytes; lia).
      rewrite lookup_le_bytes by lia.
      by replace (Z.of_nat (Z.to_nat (a' mod 64) - Z.to_nat (a mod 64))) with (a' - a) by lia.
    + destruct Er as [Er|Er]; zify_bool.
      * rewrite !list_lookup_total_alt. by rewrite list_lookup_inserts_lt by lia.
      * rewrite !list_lookup_total_alt. by rewrite list_lookup_inserts_ge by (rewrite length_le_bytes; lia).
  - case_if; [| done]. zify_bool. exfalso. apply E.
    destruct (blk_add a (a' - a)) as [E1 _]; [lia | lia |].
    by replace (a + (a' - a)) with a' in E1 by lia.
Qed.

(** ** A concrete store: the smallest memory with the laws *)

Module TestStore.
Abbreviation t := (gmap Z (list Z)).
Definition block (m : t) (k : Z) : list Z :=
  default (replicate (Z.to_nat BLOCK_SIZE) 0) (m !! k).

#[export] Instance ops : BlockStore t := {
  load_block := fun a m => Ok (block m (a / 64), m);
  store_block := fun a d m => Ok (<[a / 64 := d]> m);
}.

Lemma block_ok (m : t) k : map_Forall (fun _ => is_block) m -> is_block (block m k).
Proof.
  intros Hm. unfold block. destruct (m !! k) eqn:E; cbn; [by eapply Hm |].
  split; [by rewrite length_replicate | apply Forall_replicate; unfold is_byte; lia].
Qed.

#[export, refine] Instance laws : BlockStoreLaws t := {|
  store_inv := map_Forall (fun _ => is_block);
  ram_blk := fun k => 0 <= k < 2 ^ 58;
  ram := block;
  only_ram := fun _ _ => True;
|}.
Proof.
  - split; done.
  - done.
  - intros m k Hm _. by apply block_ok.
  - intros m k _ _. cbn. by rewrite Z.mul_comm, Z.div_mul by lia.
  - intros m k d Hm _ Hd. eexists. split; [done |]. split; [by apply map_Forall_insert_2 |].
    split; [done |]. intros k' _. rewrite Z.mul_comm, Z.div_mul by lia. unfold block.
    rewrite lookup_insert. destruct (Z.eqb_spec k' k) as [->|]; case_decide; done.
Defined.
End TestStore.
Import TestStore.

(** Fresh caches over any store satisfy the invariant, and show the store. *)
Lemma hier_init {M} `{BlockStoreLaws M} s1 w1 n1 s2 w2 n2 (m : M) :
  0 <= s1 < 58 -> 0 < w1 -> 0 <= s2 < 58 -> 0 < w2 -> store_inv m ->
  hier_inv (init_cache s1 w1 n1) (init_cache s2 w2 n2) m /\
  forall k, hview (init_cache s1 w1 n1) (init_cache s2 w2 n2) m k = ram m k.
Proof.
  intros. split.
  - split; split; try done; try (by apply init_cache_wf); intros k ?;
      by rewrite init_cache_content.
  - intros k. unfold hview, view, lower. by rewrite !init_cache_content.
Qed.

(** ** One L1 over the L2 *)

Section Trace.
Context {M : Type} `{BlockStoreLaws M}.

Inductive mem_op :=
  | MRead (addr len : Z)
  | MWrite (addr len v : Z).

(** The operations the hierarchy is meant for: inside memory, inside a line. *)
Definition op_ok (o : mem_op) : Prop :=
  match o with
  | MRead a len => is_word a /\ ram_blk (blk a) /\ in_block a len
  | MWrite a len _ => is_word a /\ ram_blk (blk a) /\ in_block a len
  end.

Definition cache_op (o : mem_op) (st : Cache * Cache * M) : Res (list Z * (Cache * Cache * M)) :=
  let '(l1, l2, m) := st in
  match o with
  | MRead a len => '(v, st) ← cache_read l1 l2 a len m; Ok ([v], st)
  | MWrite a len v => st ← cache_write l1 l2 a len v m; Ok ([], st)
  end.

Fixpoint cache_trace (os : list mem_op) (st : Cache * Cache * M)
    : Res (list Z * (Cache * Cache * M)) :=
  match os with
  | [] => Ok ([], st)
  | o :: os => '(vs, st) ← cache_op o st; '(vs', st) ← cache_trace os st; Ok (vs ++ vs', st)
  end.

Definition flat_op (o : mem_op) (B : flat) : list Z * flat :=
  match o with
  | MRead a len => ([flat_read B a len], B)
  | MWrite a len v => ([], flat_write B a len v)
  end.

Fixpoint flat_trace (os : list mem_op) (B : flat) : list Z * flat :=
  match os with
  | [] => ([], B)
  | o :: os => let '(vs, B) := flat_op o B in let '(vs', B) := flat_trace os B in (vs ++ vs', B)
  end.

(** The abstraction relation: the hierarchy shows the bytes [B] of memory. *)
Definition shows (st : Cache * Cache * M) (B : flat) : Prop :=
  let '(l1, l2, m) := st in
  hier_inv l1 l2 m /\ forall a, ram_blk (blk a) -> bytes_of (hview l1 l2 m) a = B a.

Definition accesses (st : Cache * Cache * M) : Z := hits st.1.1 + misses st.1.1.

Lemma flat_read_ext B B' a len : ram_blk (blk a) -> in_block a len ->
  (forall a, ram_blk (blk a) -> B a = B' a) -> flat_read B a len = flat_read B' a len.
Proof.
  intros Hk [Hl0 Hl] HB. unfold flat_read. f_equal. apply list_fmap_ext.
  intros i x Hx. apply list_elem_of_lookup_2, elem_of_seqZ_from in Hx.
  apply HB. destruct (blk_add a x) as [-> _]; [lia | lia | done].
Qed.

Lemma cache_op_refines o st B : shows st B -> op_ok o ->
  exists st', cache_op o st = Ok ((flat_op o B).1, st') /\ shows st' (flat_op o B).2 /\
    accesses st' = accesses st + 1.
Proof.
  destruct st as [[l1 l2] m]. intros [Hinv HB] Ho. destruct o as [a len | a len v]; cbn in Ho.
  - destruct Ho as (Ha & Hk & Hb).
    destruct (cache_read_ok l1 l2 a len m Hinv Ha Hk Hb) as (l1' & l2' & m' & E & Hs & Hst).
    cbn. rewrite E. cbn. exists (l1', l2', m').
    rewrite (block_read_flat _ a len) by (try done; by apply view_is_block).
    rewrite (flat_read_ext _ B) by done. split; [done | split; [| done]].
    split; [apply Hs |]. intros a' Ha'. rewrite <- HB by done.
    unfold bytes_of. by rewrite (hs_view _ _ _ _ _ _ _ _ _ Hs).
  - destruct Ho as (Ha & Hk & Hb).
    destruct (cache_write_ok l1 l2 a len v m Hinv Ha Hk Hb) as (l1' & l2' & m' & E & Hs & _ & Hst).
    cbn. rewrite E. cbn. exists (l1', l2', m'). split; [done | split; [| done]].
    split; [apply Hs |]. intros a' Ha'.
    unfold bytes_of at 1. rewrite (hs_view _ _ _ _ _ _ _ _ _ Hs) by done.
    set (V' := fun k => if k =? blk a
      then block_write (hview l1 l2 m (blk a)) (a mod 64) len v else hview l1 l2 m k).
    change (bytes_of V' a' = flat_write B a len v a').
    rewrite (block_write_flat (hview l1 l2 m) V' a len v);
      [| by apply view_is_block | done | done].
    unfold flat_write. case_if; [done |]. by apply HB.
Qed.
End Trace.

Arguments mem_op : clear implicits.

(** C6. The two-level hierarchy implements a flat memory.  Started from any
    state of the hierarchy that shows the bytes [B], every sequence of reads
    and writes inside memory (each of at most a word, inside one line) runs to
    completion without
    an error, returns exactly the values that the flat byte array returns, and
    ends in a state that shows the resulting bytes, whatever was hit, missed,
    evicted or written back on the way; and every access is counted once in
    [hits + misses] of the L1. *)
Theorem cache_refines_flat {M} `{BlockStoreLaws M} (os : list mem_op) st B :
  shows st B -> Forall op_ok os ->
  exists st', cache_trace os st = Ok ((flat_trace os B).1, st') /\
    shows st' (flat_trace os B).2 /\
    accesses st' = accesses st + Z.of_nat (length os).
Proof.
  intros Hs Hos. revert st B Hs. induction Hos as [|o os Ho _ IH]; intros st B Hs.
  - exists st. cbn. split; [done | split; [done | lia]].
  - destruct (cache_op_refines o st B Hs Ho) as (st1 & E1 & Hs1 & Hn1).
    cbn. rewrite E1. destruct (flat_op o B) as [vs B1] eqn:EB. cbn in *.
    destruct (IH st1 B1 Hs1) as (st2 & E2 & Hs2 & Hn2). rewrite E2.
    destruct (flat_trace os B1) as [vs' B2]. cbn in *.
    exists st2. split; [done | split; [done | lia]].
Qed.

(** Three blocks of one set in a two-way cache: the first is evicted dirty and
    read back. *)
Lemma cache_refines_flat_witness :
  exists st', cache_trace [MWrite 0x1004 4 0xdeadbeef; MRead 0x2000 8; MWrite 0x3000 1 7; MRead 0x1004 2]
      (init_cache 2 2 "l1", init_cache 3 2 "l2", (∅ : TestStore.t)) = Ok ([0; 0xbeef], st').
Proof.
  destruct (cache_refines_flat (M := TestStore.t)
    [MWrite 0x1004 4 0xdeadbeef; MRead 0x2000 8; MWrite 0x3000 1 7; MRead 0x1004 2]
    (init_cache 2 2 "l1", init_cache 3 2 "l2", ∅) (fun _ => 0)) as (st' & E & _).
  - destruct (hier_init (M := TestStore.t) 2 2 "l1" 3 2 "l2" ∅) as [Hi Hv]; [lia .. | |].
    { apply map_Forall_empty. }
    split; [exact Hi |]. intros a _. unfold bytes_of. rewrite Hv.
    pose proof (Z.mod_pos_bound a 64 ltac:(lia)). by apply arr_replicate.
  - repeat constructor; cbn; unfold in_block; try lia; vm_compute; congruence.
  - exists st'. rewrite E. vm_compute. reflexivity.
Defined.

(** ** Levels *)

Section Levels.
Context {M : Type} `{BlockStoreLaws M}.

(** The level that serves block [k]: 0 = L1, 1 = L2, 2 = memory. *)
Definition level_of (l1 l2 : Cache) (k : Z) : Z :=
  match content l1 k, content l2 k with
  | Some _, _ => 0
  | None, Some _ => 1
  | None, None => 2
  end.

Lemma quiet_level c addr : cache_wf c -> 0 <= addr ->
  let '(c', hit, _) := find_line_quiet c addr in
  cache_wf c' /\ same_geom c c' /\ (forall k, content c' k = content c k) /\
  hit = (if content c (blk addr) is Some _ then true else false).
Proof.
  intros Hwf Ha. pose proof (find_line_quiet_ok c addr Hwf Ha) as Hq.
  destruct (find_line_quiet c addr) as [[c' hit] way]. destruct Hq as [Hlk _].
  split; [apply Hlk | split; [apply Hlk | split; [apply Hlk |]]]. destruct hit.
  - destruct (lookup_hit_content c addr c' way Ha Hlk) as [-> _]. done.
  - by rewrite (lk_miss _ _ _ _ _ Hlk).
Qed.

Lemma hier_inv_l2_content l1 l2 c (m : M) : (forall k, content c k = content l2 k) -> cache_wf c ->
  hier_inv l1 l2 m -> hier_inv l1 c m /\ forall k, hview l1 c m k = hview l1 l2 m k.
Proof.
  intros Hc Hwf [[? Hr Hcl] Hl2].
  destruct (l2_inv_content l2 c m Hc Hwf Hl2) as [Hl2' Hlow]. split.
  - split; [split |]; try done. intros k d. rewrite Hlow. apply Hcl.
  - intros k. unfold hview, view. by rewrite Hlow.
Qed.

Lemma cache_read_level_ok l1 l2 addr len (m : M) :
  hier_inv l1 l2 m -> is_word addr -> ram_blk (blk addr) -> in_block addr len ->
  exists l1' l2' m', cache_read_level l1 l2 addr len m =
      Ok (level_of l1 l2 (blk addr), block_read (hview l1 l2 m (blk addr)) (addr mod 64) len,
          (l1', l2', m')) /\
    hier_inv l1' l2' m' /\
    forall k, ram_blk k -> hview l1' l2' m' k = hview l1 l2 m k.
Proof.
  intros Hinv Ha Hk [Hl0 Hl]. pose proof Ha as [Ha0 _].
  unfold cache_read_level, line_load. rewrite block_offset_mod.
  assert (El : ((0 <=? len) && (len <=? WORD_SIZE) && (addr mod 64 + len <=? BLOCK_SIZE)) = true)
    by (unfold BLOCK_SIZE, WORD_SIZE; lia).
  rewrite El. pose proof (find_line_ok l1 addr (l1_wf _ _ (hi_l1 _ _ _ Hinv)) Ha0) as Hf.
  destruct (find_line l1 addr) as [[c hit] way]. destruct Hf as (Hlk & Htm & _).
  pose proof Hlk as [Hwf Hg Hway Hc _ Hmiss].
  destruct (hier_inv_content l1 c l2 m Hc Hwf Hinv) as [Hinv' Hv'].
  unfold level_of. destruct hit.
  - destruct (lookup_hit_content l1 addr c way Ha0 Hlk) as (Hcon & Hv & Hb). cbv zeta in *.
    cbn. exists c, l2, m. rewrite Hcon. split; [| done].
    unfold block_read, hview, view. by rewrite Hcon.
  - rewrite (Hmiss eq_refl).
    pose proof (quiet_level l2 addr (l2_wf _ _ (hi_l2 _ _ _ Hinv)) Ha0) as Hq.
    destruct (find_line_quiet l2 addr) as [[c2 hit2] way2]. destruct Hq as (Hwf2 & Hg2 & Hc2 & ->).
    destruct (hier_inv_l2_content c l2 c2 m Hc2 Hwf2 Hinv') as [Hinv2 Hv2].
    destruct (fetch_block_ok c c2 addr way m Hinv2 Ha Hk Htm Hway) as (l1' & l2' & m' & E & Hs & Hln).
    { rewrite Hc. by apply Hmiss. }
    rewrite E. cbn. rewrite Hln. cbn. exists l1', l2', m'.
    split; [by rewrite Hv2, Hv'; destruct (content l2 (blk addr)) |].
    split; [apply Hs |]. intros k Hkk. rewrite (hs_view _ _ _ _ _ _ _ _ _ Hs) by done.
    by rewrite Hv2, Hv'.
Qed.
End Levels.

(** The level-reporting entry points.  [cache_probe_level] answers which
    level holds the block and moves no block in either cache;
    [cache_read_level] reports that same level, returns the value that
    [cache_read] returns, and like it preserves the bytes of all of memory. *)
Theorem cache_levels {M} `{BlockStoreLaws M} l1 l2 addr len (m : M) :
  hier_inv l1 l2 m -> is_word addr -> ram_blk (blk addr) -> in_block addr len ->
  (let '(lvl, l1', l2') := cache_probe_level l1 l2 addr in
   lvl = level_of l1 l2 (blk addr) /\
   forall k, content l1' k = content l1 k /\ content l2' k = content l2 k) /\
  exists v st st', cache_read_level l1 l2 addr len m = Ok (level_of l1 l2 (blk addr), v, st) /\
    cache_read l1 l2 addr len m = Ok (v, st') /\
    shows st (bytes_of (hview l1 l2 m)) /\ shows st' (bytes_of (hview l1 l2 m)).
Proof.
  intros Hinv Ha Hk Hb. pose proof Ha as [Ha0 _]. split.
  - unfold cache_probe_level, level_of.
    pose proof (quiet_level l1 addr (l1_wf _ _ (hi_l1 _ _ _ Hinv)) Ha0) as Hq1.
    destruct (find_line_quiet l1 addr) as [[c1 hit1] way1]. destruct Hq1 as (_ & _ & Hc1 & ->).
    destruct (content l1 (blk addr)); [by split |].
    pose proof (quiet_level l2 addr (l2_wf _ _ (hi_l2 _ _ _ Hinv)) Ha0) as Hq2.
    destruct (find_line_quiet l2 addr) as [[c2 hit2] way2]. destruct Hq2 as (_ & _ & Hc2 & ->).
    split; [by destruct (content l2 (blk addr)) | done].
  - destruct (cache_read_level_ok l1 l2 addr len m Hinv Ha Hk Hb) as (a1 & a2 & am & Ea & Hia & Hva).
    destruct (cache_read_ok l1 l2 addr len m Hinv Ha Hk Hb) as (b1 & b2 & bm & Eb & Hs & _).
    eexists _, (a1, a2, am), (b1, b2, bm). split; [exact Ea | split; [exact Eb | split]].
    + split; [done |]. intros a Hka. unfold bytes_of. by rewrite Hva.
    + split; [apply Hs |]. intros a Hka. unfold bytes_of. by rewrite (hs_view _ _ _ _ _ _ _ _ _ Hs).
Qed.

Lemma cache_levels_witness :
  exists st, cache_read_level (init_cache 2 2 "l1") (init_cache 3 2 "l2") 0x1004 4 (∅ : TestStore.t)
    = Ok (2, 0, st).
Proof.
  destruct (cache_levels (init_cache 2 2 "l1") (init_cache 3 2 "l2") 0x1004 4 (∅ : TestStore.t))
    as (_ & v & st & st' & E & E' & _).
  - apply hier_init; [lia .. | apply map_Forall_empty].
  - unfold is_word. lia.
  - vm_compute. split; congruence.
  - unfold in_block. split; [lia | vm_compute; congruence].
  - exists st. rewrite E. f_equal. vm_compute in E'. injection E' as <- _. vm_compute. reflexivity.
Defined.

(** An access that would leave its 64-byte line copies outside the line's
    [data] array: both entry points run into undefined behaviour, on hits and
    on misses alike. *)
Theorem cache_line_crossing {M} `{BlockStoreLaws M} l1 l2 addr len v (m : M) :
  hier_inv l1 l2 m -> is_word addr -> ram_blk (blk addr) -> 64 < addr mod 64 + len ->
  cache_read l1 l2 addr len m = Err Undefined /\ cache_write l1 l2 addr len v m = Err Undefined.
Proof.
  intros Hinv Ha Hk Hl.
  destruct (find_fill_ok l1 l2 addr m Hinv Ha Hk) as (l1' & l2' & m' & way & E & _).
  unfold cache_read, cache_write. rewrite E. cbn [mbind Res_bind].
  unfold line_load, line_store. rewrite block_offset_mod.
  assert (((0 <=? len) && (len <=? WORD_SIZE) && (addr mod 64 + len <=? BLOCK_SIZE)) = false) as ->
    by (unfold BLOCK_SIZE, WORD_SIZE; lia).
  done.
Qed.

Lemma cache_line_crossing_witness :
  cache_read (init_cache 2 2 "l1") (init_cache 3 2 "l2") 0x103c 8 (∅ : TestStore.t) = Err Undefined.
Proof.
  apply (cache_line_crossing (init_cache 2 2 "l1") (init_cache 3 2 "l2") 0x103c 8 0 (∅ : TestStore.t)).
  - apply hier_init; [lia .. | apply map_Forall_empty].
  - unfold is_word. lia.
  - vm_compute. split; congruence.
  - vm_compute. reflexivity.
Defined.
