(* ===== verification/Coherence.v ===== *)
(** * Write-invalidate coherence of two first-level data caches

    vmem.c keeps the private data caches of two cores coherent by snooping: a
    read first flushes a dirty copy in the other cache, a write first
    invalidates the other copy.  [snooped_read] and [snooped_write] are those
    sequences; the theorem shows that two cores issuing accesses in any order
    observe one flat memory. *)

From S2P Require Import Prelude Word Cache CacheSet CacheSpec CacheRefine.

(** ** The sequences of vmem.c *)

Section Snooped.
Context {M : Type} `{BlockStore M}.

Definition snooped_read (own : Cache) (other : option Cache) (l2 : Cache) (addr len : Z) (m : M)
    : Res (Z * (Cache * option Cache * Cache * M)) :=
  '(other, l2, m) ← cache_snoop_flush_dirty other l2 addr m;
  '(v, (own, l2, m)) ← cache_read own l2 addr len m;
  Ok (v, (own, other, l2, m)).

Definition snooped_write (own : Cache) (other : option Cache) (l2 : Cache) (addr len v : Z) (m : M)
    : Res (Cache * option Cache * Cache * M) :=
  '(other, l2, m) ← cache_snoop_invalidate other l2 addr m;
  '(own, l2, m) ← cache_write own l2 addr len v m;
  Ok (own, other, l2, m).
End Snooped.

(** ** The snoops *)

Lemma first_way_Some f ls i j : first_way f ls i = Some j ->
  exists n l, ls !! n = Some l /\ j = i + Z.of_nat n /\ f l = true.
Proof.
  revert i. induction ls as [|l ls IH]; intros i Hj; [done |]. cbn in Hj.
  destruct (f l) eqn:E.
  - injection Hj as <-. exists 0%nat, l. split; [done | split; [lia | done]].
  - apply IH in Hj as (n & l' & ? & -> & ?). exists (S n), l'. split; [done | split; [lia | done]].
Qed.

Lemma first_way_None f ls i : first_way f ls i = None -> forall l, l ∈ ls -> f l = false.
Proof.
  revert i. induction ls as [|l ls IH]; intros i Hj x Hx; [by apply elem_of_nil in Hx |].
  cbn in Hj. destruct (f l) eqn:E; [done |].
  apply elem_of_cons in Hx as [-> | Hx]; [done | by eapply IH].
Qed.

(** The line a snoop selects. *)
Lemma first_way_line c addr f i : cache_wf c -> 0 <= addr ->
  first_way f (lines (set_of c addr)) 0 = Some i ->
  0 <= i < w c /\ f (line_at c addr i) = true.
Proof.
  intros Hwf Ha Hf. apply first_way_Some in Hf as (n & l & Hn & -> & Hfl).
  pose proof (lookup_lt_Some _ _ _ Hn) as Hlt.
  rewrite (set_wf_len _ _ (set_of_wf c addr Hwf Ha)) in Hlt.
  split; [lia |]. unfold line_at. rewrite Z.add_0_l. by rewrite (arr_of_lookup _ _ _ Hn).
Qed.

Section Snoop.
Context {M : Type} `{BlockStoreLaws M}.

(** After a snoop on [addr]: the other cache's copy is [x], the level below
    has the bytes that the other cache showed, nothing else moved. *)
Record snoop_result (c l2 : Cache) (m : M) (addr : Z) c' l2' m' (x : option (bool * list Z))
    : Prop := {
  sr_wf : cache_wf c';
  sr_geom : same_geom c c';
  sr_content : forall k, content c' k = if k =? blk addr then x else content c k;
  sr_l2 : l2_result l2 m l2' m'
    (fun k => if k =? blk addr then hview c l2 m (blk addr) else lower l2 m k);
}.

(** Writing a dirty line back gives the level below the bytes it showed. *)
Lemma dirty_writeback_ok c l2 addr i m : hier_inv c l2 m -> is_word addr -> 0 <= i < w c ->
  line_matches (line_at c addr i) (tag_of c addr) = true ->
  exists l2' m', access_l2 l2 (block_paddr addr) (data (line_at c addr i)) true m
      = Ok (l2', data (line_at c addr i), m') /\
    l2_result l2 m l2' m'
      (fun k => if k =? blk addr then hview c l2 m (blk addr) else lower l2 m k).
Proof.
  intros Hinv Ha Hi Hm. pose proof Ha as [Ha0 _].
  pose proof (l1_wf _ _ (hi_l1 _ _ _ Hinv)) as Hwf.
  rewrite tag_of_blk, (line_matches_blk c addr) in Hm by done. zify_bool.
  pose proof (line_content c addr i Hwf Ha0 Hi ltac:(done)) as Hc.
  replace (line_blk _ _ _) with (blk addr) in Hc by done.
  pose proof (l1_ram _ _ (hi_l1 _ _ _ Hinv) _ _ Hc) as Hk.
  destruct (access_l2_ok l2 (block_paddr addr) (data (line_at c addr i)) true m
    (hi_l2 _ _ _ Hinv)) as (l2' & m' & E & Hr).
  - rewrite block_paddr_blk by done. pose proof (ram_blk_range _ Hk). unfold is_word. lia.
  - by rewrite blk_block_paddr.
  - intros _. by apply (line_wf_data _ (line_at_wf c addr i Hwf Ha0 Hi)).
  - exists l2', m'. split; [done |]. rewrite blk_block_paddr in Hr by done.
    unfold hview, view. rewrite Hc. exact Hr.
Qed.

Lemma line_is_content c addr i : cache_wf c -> is_word addr -> 0 <= i < w c ->
  line_matches (line_at c addr i) (tag_of c addr) = true ->
  valid (line_at c addr i) = true /\ line_blk c addr (line_at c addr i) = blk addr /\
  content c (blk addr) = Some (dirty (line_at c addr i), data (line_at c addr i)).
Proof.
  intros Hwf [Ha0 _] Hi Hm.
  rewrite tag_of_blk, (line_matches_blk c addr) in Hm by done. zify_bool.
  pose proof (line_content c addr i Hwf Ha0 Hi ltac:(done)) as Hc.
  replace (line_blk _ _ _) with (blk addr) in * by done. done.
Qed.

(** A snoop that finds nothing to write back leaves the level below alone. *)
Lemma l2_result_same c l2 addr m : hier_inv c l2 m -> lower l2 m (blk addr) = hview c l2 m (blk addr) ->
  l2_result l2 m l2 m (fun k => if k =? blk addr then hview c l2 m (blk addr) else lower l2 m k).
Proof.
  intros Hinv E. split; try done; [apply Hinv |]. intros k Hk.
  destruct (Z.eqb_spec k (blk addr)) as [->|]; done.
Qed.

Lemma snoop_invalidate_ok c l2 addr m : hier_inv c l2 m -> is_word addr ->
  exists c' l2' m', cache_snoop_invalidate (Some c) l2 addr m = Ok (Some c', l2', m') /\
    snoop_result c l2 m addr c' l2' m' None.
Proof.
  intros Hinv Ha. pose proof Ha as [Ha0 _].
  pose proof (l1_wf _ _ (hi_l1 _ _ _ Hinv)) as Hwf. unfold cache_snoop_invalidate.
  destruct (first_way _ _ _) as [i|] eqn:Ef.
  - destruct (first_way_line c addr _ i Hwf Ha0 Ef) as [Hi Hm].
    destruct (line_is_content c addr i Hwf Ha Hi Hm) as (Hv & Hb & Hc).
    destruct (dirty_writeback_ok c l2 addr i m Hinv Ha Hi Hm) as (l2' & m' & Ew & Hr).
    set (line := line_at c addr i) in *.
    pose proof (line_at_wf c addr i Hwf Ha0 Hi) as [Hd Ht]. fold line in Hd, Ht. cbv zeta.
    assert (Hupd : forall cc, sets cc = sets c -> same_geom c cc ->
      cache_wf (upd_line cc addr i {| line with valid := false; dirty := false |}) /\
      same_geom c (upd_line cc addr i {| line with valid := false; dirty := false |}) /\
      forall k, content (upd_line cc addr i {| line with valid := false; dirty := false |}) k
        = if k =? blk addr then None else content c k).
    { intros cc Hs Hg. assert (Hwfc : cache_wf cc) by (by apply (cache_wf_geom c)).
      assert (Hln : line_at cc addr i = line /\ line_blk cc addr line = blk addr).
      { unfold line, line_at, set_of, set_idx, line_blk, blk_set, nsets in *.
        destruct Hg as (-> & _ & ->). by rewrite Hs. }
      destruct Hln as [Hln Hlb].
      destruct (upd_same_tag cc addr i {| line with valid := false; dirty := false |} Hwfc Ha0)
        as (H1 & H2 & H3).
      { destruct Hg as (_ & -> & _). done. } { by split. } { by rewrite Hln. } { done. }
      split; [done | split; [by transitivity cc |]]. intros k. rewrite H3, Hln, Hv, Hlb. cbn.
      case_if; [done |]. apply content_geom; [apply Hg | done]. }
    destruct (dirty line) eqn:Hdl.
    + rewrite Ew. cbn [mbind Res_bind]. eexists _, l2', m'. split; [reflexivity |].
      destruct (Hupd {| c with writebacks := writebacks c + 1 |}) as (H1 & H2 & H3); [done | done |].
      by split.
    + cbn [mbind Res_bind]. eexists _, l2, m. split; [reflexivity |].
      destruct (Hupd c) as (H1 & H2 & H3); [done | done |].
      split; try done. apply l2_result_same; [done |].
      unfold hview, view. rewrite Hc. cbn. symmetry. by apply (l1_clean _ _ (hi_l1 _ _ _ Hinv)).
  - assert (Hnone : content c (blk addr) = None).
    { erewrite set_find_of_content by done. apply fmap_None.
      destruct (set_find _ _) as [l|] eqn:E; [| done].
      apply set_find_Some in E as [Hin Hl]. by rewrite (first_way_None _ _ _ Ef l Hin) in Hl. }
    exists c, l2, m. split; [done |]. split; try done.
    + intros k. destruct (Z.eqb_spec k (blk addr)) as [->|]; done.
    + apply l2_result_same; [done |]. unfold hview, view. by rewrite Hnone.
Qed.

Lemma snoop_flush_ok c l2 addr m : hier_inv c l2 m -> is_word addr ->
  exists c' l2' m', cache_snoop_flush_dirty (Some c) l2 addr m = Ok (Some c', l2', m') /\
    snoop_result c l2 m addr c' l2' m' ((fun x => (false, x.2)) <$> content c (blk addr)).
Proof.
  intros Hinv Ha. pose proof Ha as [Ha0 _].
  pose proof (l1_wf _ _ (hi_l1 _ _ _ Hinv)) as Hwf. unfold cache_snoop_flush_dirty.
  destruct (first_way _ _ _) as [i|] eqn:Ef.
  - destruct (first_way_line c addr _ i Hwf Ha0 Ef) as [Hi Hm]. cbn in Hm.
    apply andb_true_iff in Hm as [Hm Hdl].
    destruct (line_is_content c addr i Hwf Ha Hi Hm) as (Hv & Hb & Hc).
    destruct (dirty_writeback_ok c l2 addr i m Hinv Ha Hi Hm) as (l2' & m' & Ew & Hr).
    set (line := line_at c addr i) in *. rewrite Ew. cbn [mbind Res_bind].
    pose proof (line_at_wf c addr i Hwf Ha0 Hi) as [Hd Ht]. fold line in Hd, Ht.
    destruct (upd_same_tag c addr i {| line with dirty := false |} Hwf Ha0 Hi) as (H1 & H2 & H3);
      [by split | done | done |].
    eexists _, l2', m'. split; [reflexivity |].
    set (c' := upd_line c addr i {| line with dirty := false |}) in *.
    split; [by apply (cache_wf_geom c') | done | | done].
    intros k. rewrite (content_geom c') by done. rewrite H3. fold line. rewrite Hv, Hb, Hc. done.
  - exists c, l2, m. split; [done |].
    assert (Hcl : content c (blk addr) = (fun x => (false, x.2)) <$> content c (blk addr)).
    { erewrite set_find_of_content by done.
      destruct (set_find _ _) as [l|] eqn:E; [| done].
      apply set_find_Some in E as [Hin Hl].
      pose proof (first_way_None _ _ _ Ef l Hin) as Hd. cbn in Hd. rewrite Hl in Hd. cbn in *.
      by rewrite Hd. }
    split; try done.
    + intros k. destruct (Z.eqb_spec k (blk addr)) as [->|]; done.
    + apply l2_result_same; [done |]. unfold hview, view.
      destruct (content c (blk addr)) as [[dr d]|] eqn:E; [| done]. cbn in *.
      injection Hcl as ->. symmetry. by apply (l1_clean _ _ (hi_l1 _ _ _ Hinv)).
Qed.
End Snoop.

(** ** Two coherent caches *)

Section Coherent.
Context {M : Type} `{BlockStoreLaws M}.
Implicit Types (a b l : Cache) (m : M).

(** A dirty copy is the only copy. *)
Definition exclusive a b : Prop :=
  forall k d, content a k = Some (true, d) -> content b k = None.

Record coh_inv a b l2 m : Prop := {
  ci_own : hier_inv a l2 m;
  ci_other : hier_inv b l2 m;
  ci_excl : exclusive a b;
  ci_excl' : exclusive b a;
}.

(** The bytes both cores agree on, seen from the first one. *)
Definition cview a b l2 m (k : Z) : list Z :=
  match content b k with
  | Some (true, d) => d
  | _ => hview a l2 m k
  end.

Lemma coh_inv_sym a b l2 m : coh_inv a b l2 m -> coh_inv b a l2 m.
Proof. intros [? ? ? ?]. by split. Qed.

Lemma cview_sym a b l2 m k : coh_inv a b l2 m -> cview a b l2 m k = cview b a l2 m k.
Proof.
  intros [[Ha _] [Hb _] He He']. unfold cview, hview, view.
  destruct (content a k) as [[[] d]|] eqn:Ea; destruct (content b k) as [[[] d']|] eqn:Eb;
    cbn; try done.
  - by rewrite (He _ _ Ea) in Eb.
  - rewrite (l1_clean _ _ Ha _ _ Ea). by rewrite (l1_clean _ _ Hb _ _ Eb).
  - by rewrite (l1_clean _ _ Ha _ _ Ea).
  - by rewrite (l1_clean _ _ Hb _ _ Eb).
Qed.

Lemma cview_is_block a b l2 m k : coh_inv a b l2 m -> ram_blk k -> is_block (cview a b l2 m k).
Proof.
  intros [Ha Hb _ _] Hk. unfold cview.
  destruct (content b k) as [[[] d]|] eqn:Eb; try by apply view_is_block.
  by apply (content_is_block b k _ (l1_wf _ _ (hi_l1 _ _ _ Hb)) Eb).
Qed.

(** A snoop of the other cache keeps the pair coherent and moves no byte. *)
Lemma snoop_coherent a b l2 m addr b' l2' m' x : coh_inv a b l2 m ->
  snoop_result b l2 m addr b' l2' m' x ->
  (x = None \/ x = (fun y => (false, y.2)) <$> content b (blk addr)) ->
  coh_inv a b' l2' m' /\
  (forall k, ram_blk k -> cview a b' l2' m' k = cview a b l2 m k) /\
  (forall d, content b' (blk addr) <> Some (true, d)).
Proof.
  intros Hc [Hwf Hg Hcon Hr] Hx. pose proof Hc as [[Ha Hl2] [Hb _] He He'].
  assert (Hlow : forall k, ram_blk k -> lower l2' m' k = lower l2 m k \/
    (k = blk addr /\ exists d, content b k = Some (true, d) /\ lower l2' m' k = d)).
  { intros k Hk. rewrite (l2r_view _ _ _ _ _ Hr) by done.
    destruct (Z.eqb_spec k (blk addr)) as [->|]; [| by left].
    unfold hview, view. destruct (content b (blk addr)) as [[[] d]|] eqn:E; cbn;
      [right; eauto | left; by apply (l1_clean _ _ Hb) | by left]. }
  assert (Hnd : forall d, content b' (blk addr) <> Some (true, d)).
  { intros d. rewrite Hcon, Z.eqb_refl. destruct Hx as [-> | ->]; [done |].
    by destruct (content b (blk addr)). }
  assert (Hsub : forall k d, content b' k = Some (true, d) -> content b k = Some (true, d)).
  { intros k d Hk. rewrite Hcon in Hk. destruct (Z.eqb_spec k (blk addr)) as [->|]; [| done].
    destruct (Hnd d). by rewrite Hcon, Z.eqb_refl. }
  split; [split | split].
  - split; [split | apply Hr]; [apply Ha | apply Ha |].
    intros k d Hk. destruct (Hlow k (l1_ram _ _ Ha _ _ Hk)) as [-> | (-> & d' & Hd & _)].
    + by apply (l1_clean _ _ Ha).
    + by rewrite (He' _ _ Hd) in Hk.
  - split; [split | apply Hr]; [done | |].
    + intros k y. rewrite Hcon. destruct (Z.eqb_spec k (blk addr)) as [->|]; [| apply Hb].
      destruct Hx as [-> | ->]; [done |].
      destruct (content b (blk addr)) eqn:E; [| done]. intros _. by eapply (l1_ram _ _ Hb).
    + intros k d. rewrite Hcon. destruct (Z.eqb_spec k (blk addr)) as [->|Hne].
      * destruct Hx as [-> | ->]; [done |].
        destruct (content b (blk addr)) as [[dr d']|] eqn:E; [| done]. cbn.
        intros Hd. injection Hd as <-.
        rewrite (l2r_view _ _ _ _ _ Hr), Z.eqb_refl by (by eapply (l1_ram _ _ Hb)).
        unfold hview, view. by rewrite E.
      * intros Hd. rewrite (l2r_view _ _ _ _ _ Hr) by (by eapply (l1_ram _ _ Hb)).
        destruct (Z.eqb_spec k (blk addr)); [done |]. by apply (l1_clean _ _ Hb).
  - intros k d Hd. rewrite Hcon. destruct (Z.eqb_spec k (blk addr)) as [->|]; [| by eapply He].
    destruct Hx as [-> | ->]; [done |]. by rewrite (He _ _ Hd).
  - intros k d Hd. by apply (He' k d), Hsub.
  - intros k Hk. unfold cview, hview, view. rewrite Hcon, (l2r_view _ _ _ _ _ Hr) by done.
    destruct (Z.eqb_spec k (blk addr)) as [->|]; [| done].
    unfold hview, view. destruct (content b (blk addr)) as [[[] d]|] eqn:E; cbn.
    + rewrite (He' _ _ E). destruct Hx as [-> | ->]; done.
    + rewrite (l1_clean _ _ Hb _ _ E). destruct Hx as [-> | ->]; done.
    + destruct Hx as [-> | ->]; done.
  - done.
Qed.

(** An access of the first core next to a cache that has no dirty copy (or,
    for a write, no copy at all) of the block. *)
Lemma access_coherent wr a b l2 m a' l2' m' k0 V : coh_inv a b l2 m ->
  hier_step wr a l2 m a' l2' m' k0 V ->
  (forall d, content b k0 <> Some (true, d)) -> (wr = true -> content b k0 = None) ->
  coh_inv a' b l2' m' /\
  forall k, ram_blk k -> cview a' b l2' m' k =
    match content b k with Some (true, d) => d | _ => V k end.
Proof.
  intros [_ [Hb _] He He'] Hs Hnd Hnone.
  destruct Hs as [Hinv _ _ _ Hv Hval Hdir Hlow]. split; [split |].
  - done.
  - split; [split | apply Hinv]; [apply Hb | apply Hb |].
    intros k d Hk. destruct (Hlow k (l1_ram _ _ Hb _ _ Hk)) as [-> | Hd].
    + by apply (l1_clean _ _ Hb).
    + by rewrite (He _ _ Hd) in Hk.
  - intros k d Hd. destruct (Hdir _ _ Hd) as [[Hwr ->] | Hd']; [by apply Hnone | by eapply He].
  - intros k d Hd. destruct (content a' k) eqn:E; [| done]. exfalso.
    destruct (Hval k) as [-> | Hne]; [congruence | by eapply Hnd |].
    apply Hne. by eapply He'.
  - intros k Hk. unfold cview. by rewrite Hv.
Qed.

Lemma snooped_read_ok a b l2 m addr len : coh_inv a b l2 m -> is_word addr ->
  ram_blk (blk addr) -> in_block addr len ->
  exists a' b' l2' m', snooped_read a (Some b) l2 addr len m =
      Ok (block_read (cview a b l2 m (blk addr)) (addr mod 64) len, (a', Some b', l2', m')) /\
    coh_inv a' b' l2' m' /\ forall k, ram_blk k -> cview a' b' l2' m' k = cview a b l2 m k.
Proof.
  intros Hc Ha Hk Hl. unfold snooped_read.
  destruct (snoop_flush_ok b l2 addr m (ci_other _ _ _ _ Hc) Ha) as (b' & l2' & m' & E & Hr).
  rewrite E. cbn [mbind Res_bind].
  destruct (snoop_coherent a b l2 m addr b' l2' m' _ Hc Hr) as (Hc' & Hv & Hnd); [by right |].
  destruct (cache_read_ok a l2' addr len m' (ci_own _ _ _ _ Hc') Ha Hk Hl)
    as (a' & l2'' & m'' & E2 & Hs & _).
  rewrite E2. cbn [mbind Res_bind].
  destruct (access_coherent false a b' l2' m' a' l2'' m'' _ _ Hc' Hs Hnd) as [Hc'' Hv'']; [done |].
  exists a', b', l2'', m''. split; [| split; [done |]].
  - do 3 f_equal. rewrite <- Hv by done. unfold cview.
    destruct (content b' (blk addr)) as [[[] d]|] eqn:E3; [by destruct (Hnd d) | done | done].
  - intros k Hkk. rewrite Hv'', <- Hv by done. done.
Qed.

Lemma snooped_write_ok a b l2 m addr len v : coh_inv a b l2 m -> is_word addr ->
  ram_blk (blk addr) -> in_block addr len ->
  exists a' b' l2' m', snooped_write a (Some b) l2 addr len v m = Ok (a', Some b', l2', m') /\
    coh_inv a' b' l2' m' /\ forall k, ram_blk k -> cview a' b' l2' m' k =
      if k =? blk addr then block_write (cview a b l2 m (blk addr)) (addr mod 64) len v
      else cview a b l2 m k.
Proof.
  intros Hc Ha Hk Hl. unfold snooped_write.
  destruct (snoop_invalidate_ok b l2 addr m (ci_other _ _ _ _ Hc) Ha) as (b' & l2' & m' & E & Hr).
  rewrite E. cbn [mbind Res_bind].
  destruct (snoop_coherent a b l2 m addr b' l2' m' _ Hc Hr) as (Hc' & Hv & Hnd); [by left |].
  assert (Hb' : content b' (blk addr) = None)
    by (rewrite (sr_content _ _ _ _ _ _ _ _ Hr); by rewrite Z.eqb_refl).
  destruct (cache_write_ok a l2' addr len v m' (ci_own _ _ _ _ Hc') Ha Hk Hl)
    as (a' & l2'' & m'' & E2 & Hs & _).
  rewrite E2. cbn [mbind Res_bind].
  destruct (access_coherent true a b' l2' m' a' l2'' m'' _ _ Hc' Hs Hnd) as [Hc'' Hv'']; [done |].
  exists a', b', l2'', m''. split; [done | split; [done |]].
  intros k Hkk. rewrite Hv'' by done. rewrite <- (Hv k), <- (Hv (blk addr)) by done. unfold cview.
  destruct (Z.eqb_spec k (blk addr)) as [->|]; [by rewrite Hb' | done].
Qed.
End Coherent.

(** ** Traces of two cores *)

Section DualTrace.
Context {M : Type} `{BlockStoreLaws M}.

Definition dual := (Cache * Cache * Cache * M)%type.

(** One access of core 0 ([false]) or core 1 ([true]). *)
Definition dual_op (hart : bool) (o : mem_op) (st : dual) : Res (list Z * dual) :=
  let '(c0, c1, l2, m) := st in
  let own := if hart then c1 else c0 in
  let other := if hart then c0 else c1 in
  '(vs, (own, other, l2, m)) ←
    (match o with
     | MRead a len => '(v, st) ← snooped_read own (Some other) l2 a len m; Ok ([v], st)
     | MWrite a len v => st ← snooped_write own (Some other) l2 a len v m; Ok ([], st)
     end);
  match other with
  | Some other => Ok (vs, if hart then (other, own, l2, m) else (own, other, l2, m))
  | None => Err Undefined
  end.

Fixpoint dual_trace (os : list (bool * mem_op)) (st : dual) : Res (list Z * dual) :=
  match os with
  | [] => Ok ([], st)
  | (h, o) :: os => '(vs, st) ← dual_op h o st; '(vs', st) ← dual_trace os st; Ok (vs ++ vs', st)
  end.

Definition dual_shows (st : dual) (B : flat) : Prop :=
  let '(c0, c1, l2, m) := st in
  coh_inv c0 c1 l2 m /\ forall a, ram_blk (blk a) -> bytes_of (cview c0 c1 l2 m) a = B a.

Lemma bytes_of_ext (V V' : Z -> list Z) a : (forall k, ram_blk k -> V k = V' k) ->
  ram_blk (blk a) -> bytes_of V a = bytes_of V' a.
Proof. intros E Hk. unfold bytes_of. by rewrite E. Qed.

(** The step from the point of view of the core that acts. *)
Lemma own_op_refines own other l2 (m : M) o B :
  dual_shows (own, other, l2, m) B -> op_ok o ->
  exists vs own' other' l2' m',
    (match o with
     | MRead a len => '(v, st) ← snooped_read own (Some other) l2 a len m; Ok ([v], st)
     | MWrite a len v => st ← snooped_write own (Some other) l2 a len v m; Ok ([], st)
     end) = Ok (vs, (own', Some other', l2', m')) /\
    vs = (flat_op o B).1 /\ dual_shows (own', other', l2', m') (flat_op o B).2.
Proof.
  intros [Hc HB] Ho. destruct o as [a len | a len v]; cbn in Ho; destruct Ho as (Ha & Hk & Hb).
  - destruct (snooped_read_ok own other l2 m a len Hc Ha Hk Hb) as (a' & b' & l2' & m' & E & Hc' & Hv).
    rewrite E. cbn. eexists _, a', b', l2', m'. split; [reflexivity | split].
    + rewrite (block_read_flat (cview own other l2 m)) by (try done; by apply cview_is_block).
      f_equal. by apply flat_read_ext.
    + split; [done |]. intros x Hx. rewrite <- HB by done. by apply bytes_of_ext.
  - destruct (snooped_write_ok own other l2 m a len v Hc Ha Hk Hb)
      as (a' & b' & l2' & m' & E & Hc' & Hv).
    rewrite E. cbn. eexists _, a', b', l2', m'. split; [reflexivity | split; [done |]].
    split; [done |]. intros x Hx. rewrite (bytes_of_ext _ _ x Hv Hx).
    set (V' := fun k => if k =? blk a then _ (cview own other l2 m (blk a)) _ _ v else _ k).
    rewrite (block_write_flat (cview own other l2 m) V' a len v);
      [| by apply cview_is_block | done | done].
    unfold flat_write. case_if; [done |]. by apply HB.
Qed.

Lemma dual_shows_sym c0 c1 l2 (m : M) B :
  dual_shows (c0, c1, l2, m) B -> dual_shows (c1, c0, l2, m) B.
Proof.
  intros [Hc HB]. split; [by apply coh_inv_sym |]. intros a Ha. rewrite <- HB by done.
  apply bytes_of_ext; [| done]. intros k _. symmetry. by apply cview_sym.
Qed.

Lemma dual_op_refines h o st B : dual_shows st B -> op_ok o ->
  exists st', dual_op h o st = Ok ((flat_op o B).1, st') /\ dual_shows st' (flat_op o B).2.
Proof.
  destruct st as [[[c0 c1] l2] m]. intros Hs Ho. unfold dual_op. destruct h.
  - destruct (own_op_refines c1 c0 l2 m o B) as (vs & a & b & l2' & m' & E & -> & Hs');
      [by apply dual_shows_sym | done |].
    rewrite E. cbn. eexists. split; [done |]. by apply dual_shows_sym.
  - destruct (own_op_refines c0 c1 l2 m o B) as (vs & a & b & l2' & m' & E & -> & Hs'); [done | done |].
    rewrite E. cbn. eexists. by split.
Qed.
End DualTrace.

(** C7. Write-invalidate coherence.  Two cores with private L1 data caches
    over a shared L2, issuing reads and writes in any interleaving through the
    snooping sequences of vmem.c, observe one flat memory: every read returns
    the most recent write to each byte in the interleaving, by whichever core;
    no access fails; and a dirty line is always the only copy of its block. *)
Theorem coherence {M} `{BlockStoreLaws M} (os : list (bool * mem_op)) st B :
  dual_shows st B -> Forall (fun ho => op_ok ho.2) os ->
  exists st', dual_trace os st = Ok ((flat_trace os.*2 B).1, st') /\
    dual_shows st' (flat_trace os.*2 B).2.
Proof.
  intros Hs Hos. revert st B Hs. induction Hos as [|[h o] os Ho _ IH]; intros st B Hs.
  - exists st. by split.
  - destruct (dual_op_refines h o st B Hs Ho) as (st1 & E1 & Hs1).
    cbn. rewrite E1. destruct (flat_op o B) as [vs B1] eqn:EB. cbn in *.
    destruct (IH st1 B1 Hs1) as (st2 & E2 & Hs2). rewrite E2.
    destruct (flat_trace os.*2 B1) as [vs' B2]. cbn in *. exists st2. by split.
Qed.

Import TestStore.

(** Core 0 writes, core 1 reads it, overwrites half, core 0 reads the mix. *)
Lemma coherence_witness :
  exists st', dual_trace
      [(false, MWrite 0x1000 8 0x1122334455667788); (true, MRead 0x1004 4);
       (true, MWrite 0x1000 2 0xabcd); (false, MRead 0x1000 8)]
      (init_cache 2 2 "a", init_cache 2 2 "b", init_cache 3 2 "l2", (∅ : TestStore.t))
    = Ok ([0x11223344; 0x112233445566abcd], st').
Proof.
  destruct (coherence (M := TestStore.t)
      [(false, MWrite 0x1000 8 0x1122334455667788); (true, MRead 0x1004 4);
       (true, MWrite 0x1000 2 0xabcd); (false, MRead 0x1000 8)]
      (init_cache 2 2 "a", init_cache 2 2 "b", init_cache 3 2 "l2", ∅) (fun _ => 0))
    as (st' & E & _).
  - destruct (hier_init (M := TestStore.t) 2 2 "a" 3 2 "l2" ∅) as [Hi Hv]; [lia .. | |].
    { apply map_Forall_empty. }
    destruct (hier_init (M := TestStore.t) 2 2 "b" 3 2 "l2" ∅) as [Hi' _]; [lia .. | |].
    { apply map_Forall_empty. }
    split; [split; [exact Hi | exact Hi' | |]; intros k d; by rewrite init_cache_content |].
    intros a _. unfold bytes_of, cview. rewrite init_cache_content, Hv.
    pose proof (Z.mod_pos_bound a 64 ltac:(lia)). by apply arr_replicate.
  - repeat constructor; cbn; unfold in_block; try lia; vm_compute; congruence.
  - exists st'. rewrite E. vm_compute. reflexivity.
Defined.
