(* ===== verification/Mmio.v ===== *)
(** * Memory-mapped devices (src/memory/mmio.c, src/device/, include/memory/mmio.h)

    Byte memories with the host accesses of pmem.c, the device space and its
    registration, dispatch of an access to a device and its callback, and the
    devices of the build configuration: serial port, clock, VGA and keyboard.
    What the host supplies arrives through the state: [timeofday] is the answer
    of the n-th [gettimeofday], [sdl_poll] the events of the n-th poll. *)

From S2P Require Import Prelude Word State.

(** ** Byte memories *)

Abbreviation bytemap := (gmap Z Z).

Definition mem_get (m : bytemap) (a : Z) : Z := default 0 (m !! a).

Definition mem_bytes (m : bytemap) (a : Z) (n : nat) : list Z := mem_get m <$> seqZ_from a n.

Fixpoint mem_put (m : bytemap) (a : Z) (bs : list Z) : bytemap :=
  match bs with
  | [] => m
  | b :: bs => mem_put (<[a := b]> m) (a + 1) bs
  end.

(** [host_read] and [host_write]: a width other than 1, 2, 4, 8 reads 0 and
    writes nothing. *)
Definition host_width (len : Z) : bool := (len =? 1) || (len =? 2) || (len =? 4) || (len =? 8).

Definition host_read (m : bytemap) (a len : Z) : Z :=
  if host_width len then le_word (mem_bytes m a (Z.to_nat len)) else 0.

Definition host_write (m : bytemap) (a len v : Z) : bytemap :=
  if host_width len then mem_put m a (le_bytes (Z.to_nat len) v) else m.

Definition mem_wf (m : bytemap) : Prop := map_Forall (fun _ b => is_byte b) m.

Lemma mem_get_byte m a : mem_wf m -> is_byte (mem_get m a).
Proof.
  intros Hm. unfold mem_get. destruct (m !! a) eqn:E; cbn; [by eapply Hm | unfold is_byte; lia].
Qed.

Lemma mem_put_wf m a bs : mem_wf m -> Forall is_byte bs -> mem_wf (mem_put m a bs).
Proof.
  intros Hm Hb. revert m a Hm. induction Hb as [|b bs Hb _ IH]; intros m a Hm; cbn; [done |].
  apply IH. by apply map_Forall_insert_2.
Qed.

Lemma mem_get_put m a bs a' : mem_get (mem_put m a bs) a' =
  if (a <=? a') && (a' <? a + Z.of_nat (length bs)) then arr bs (a' - a) else mem_get m a'.
Proof.
  revert m a. induction bs as [|b bs IH]; intros m a; cbn [mem_put length].
  - case_if; [| done]. zify_bool. lia.
  - rewrite IH. unfold mem_get. destruct (Z.eq_dec a a') as [<-|Hne].
    + rewrite lookup_insert_eq. unfold arr.
      replace (Z.to_nat (a - a)) with 0%nat by lia. cbn.
      repeat case_if; zify_bool; try lia; done.
    + rewrite lookup_insert_ne by done. repeat case_if; zify_bool; try lia; try done.
      unfold arr. by replace (Z.to_nat (a' - a)) with (S (Z.to_nat (a' - (a + 1)))) by lia.
Qed.

Lemma length_mem_bytes m a n : length (mem_bytes m a n) = n.
Proof. unfold mem_bytes. by rewrite length_fmap, length_seqZ_from. Qed.

Lemma mem_bytes_byte m a n : mem_wf m -> Forall is_byte (mem_bytes m a n).
Proof.
  intros Hm. apply Forall_fmap, Forall_forall. intros x _. by apply mem_get_byte.
Qed.

Lemma arr_mem_bytes m a n i : 0 <= i < Z.of_nat n -> arr (mem_bytes m a n) i = mem_get m (a + i).
Proof.
  intros Hi. unfold arr, mem_bytes. apply list_lookup_total_correct.
  rewrite list_lookup_fmap, lookup_seqZ_from by lia. cbn. do 2 f_equal. lia.
Qed.

Lemma host_read_word m a len : mem_wf m -> is_word (host_read m a len).
Proof.
  intros Hm. unfold host_read, host_width. case_if; [| apply is_word_0].
  apply le_word_word; [by apply mem_bytes_byte |]. rewrite length_mem_bytes. zify_bool.
  intuition (subst; lia).
Qed.

Lemma host_write_wf m a len v : mem_wf m -> mem_wf (host_write m a len v).
Proof.
  intros Hm. unfold host_write. case_if; [| done]. apply mem_put_wf; [done | apply le_bytes_byte].
Qed.

#[export] Hint Resolve host_read_word host_write_wf : emu.

(** ** Device space *)

Definition NR_MAP : Z := 16.
Definition IO_SPACE_MAX : Z := 16 * 1024 * 1024.
Definition PAGE_SIZE : Z := 4096.
Definition PAGE_MASK : Z := 0x0fff.

(** The callbacks the devices register. *)
Inductive io_callback :=
  | serial_io_handler
  | rtc_io_handler
  | i8042_data_io_handler
  | flash_io_handler.

Record IOMap := mkIOMap {
  map_name : string;
  low : Z;
  high : Z;
  space : Z;                          (** offset of the space in [io_space] *)
  callback : option io_callback;
}.

#[export] Instance IOMap_inhabited : Inhabited IOMap := populate (mkIOMap "" 0 0 0 None).

Inductive sdl_event :=
  | SDL_QUIT
  | SDL_KEY (scancode : Z) (is_keydown : bool)
  | SDL_OTHER.

Definition KEY_QUEUE_LEN : Z := 1024.
Definition KEYDOWN_MASK : Z := 0x8000.
Definition KEY_NONE : Z := 0.

Record IO := mkIO {
  maps : list IOMap;                  (** [nr_map] is its length *)
  p_space : Z;
  io_space : bytemap;
  serial_base : Z;
  rtc_port_base : Z;
  vgactl_port_base : Z;
  fb_vmem : Z;                        (** gpu.c's [vmem] *)
  g_fb_base : option Z;
  i8042_data_port_base : Z;
  serial_out : list Z;                (** bytes [putc] has written, last first *)
  boot_time : Z * Z;
  timeofday : Z -> Z * Z;
  time_calls : Z;
  sdl_poll : Z -> list sdl_event;
  poll_calls : Z;
  screen_updates : Z;                 (** calls of [update_screen] *)
  key_queue : list Z;
  key_f : Z;
  key_r : Z;
  keymap : list Z;
}.

Definition new_space (size : Z) (io : IO) : Z * IO :=
  let p := p_space io in
  let size := Z.land (size + PAGE_SIZE - 1) (Z.lnot PAGE_MASK) in
  (p, {| io with p_space := p_space io + size |}).

(** [init_map]: [malloc] leaves the 16 MB indeterminate; [junk] is what they hold. *)
Definition init_map (junk : bytemap) (io : IO) : IO :=
  {| io with io_space := junk; p_space := 0 |}.

Definition add_mmio_map (nm : string) (addr sp len : Z) (cb : option io_callback) (io : IO) : Res IO :=
  _ ← ensure Assertion (Z.of_nat (length (maps io)) <? NR_MAP);
  Ok {| io with maps := maps io ++ [mkIOMap nm addr (wrap64 (addr + len - 1)) sp cb] |}.

(** ** Dispatch *)

Definition map_inside (mp : IOMap) (addr : Z) : bool := (low mp <=? addr) && (addr <=? high mp).

Fixpoint find_mapid_from (i : Z) (mps : list IOMap) (addr : Z) : Z :=
  match mps with
  | [] => -1
  | mp :: mps => if map_inside mp addr then i else find_mapid_from (i + 1) mps addr
  end.

Definition find_mapid_by_addr (mps : list IOMap) (addr : Z) : Z := find_mapid_from 0 mps addr.

Definition fetch_mmio_map (io : IO) (addr : Z) : option IOMap :=
  let mapid := find_mapid_by_addr (maps io) addr in
  if negb (mapid =? -1) then Some (arr (maps io) mapid) else None.

(** A host access of [len] bytes at offset [p] of a buffer of [size] bytes: only
    the four widths touch memory, and they must stay inside. *)
Definition host_ok (size p len : Z) : bool :=
  negb (host_width len) || ((0 <=? p) && (p + len <=? size)).

Definition io_get (io : IO) (p len : Z) : Res Z :=
  if host_ok IO_SPACE_MAX p len then Ok (host_read (io_space io) p len) else Err Undefined.
Definition io_put (io : IO) (p len v : Z) : Res IO :=
  if host_ok IO_SPACE_MAX p len
  then Ok {| io with io_space := host_write (io_space io) p len v |}
  else Err Undefined.

(** ** Clock *)

(** [gettimeofday(&now, NULL)] followed by the difference to [boot_time]. *)
Definition get_time (io : IO) : Z * IO :=
  let now := timeofday io (time_calls io) in
  let seconds := now.1 - (boot_time io).1 in
  let useconds := now.2 - (boot_time io).2 in
  (wrap64 (seconds * 1000000 + useconds + 500), {| io with time_calls := time_calls io + 1 |}).

(** ** Keyboard *)

Definition key_enqueue (am_scancode : Z) (io : IO) : Res IO :=
  let io := {| io with key_queue := upd (key_queue io) (key_r io) am_scancode;
                       key_r := Z.rem (key_r io + 1) KEY_QUEUE_LEN |} in
  _ ← ensure Assertion (negb (key_r io =? key_f io));
  Ok io.

Definition key_dequeue (io : IO) : Z * IO :=
  if negb (key_f io =? key_r io) then
    (arr (key_queue io) (key_f io), {| io with key_f := Z.rem (key_f io + 1) KEY_QUEUE_LEN |})
  else (KEY_NONE, io).

(** [send_key(scancode, is_keydown)]; the scancode is a [uint8_t]. *)
Definition send_key (s : Sim) (scancode : Z) (is_keydown : bool) (io : IO) : Res IO :=
  let k := arr (keymap io) (scancode mod 256) in
  if bool_decide (state s = NEMU_RUNNING) && negb (k =? KEY_NONE) then
    key_enqueue (Z.lor k (if is_keydown then KEYDOWN_MASK else 0)) io
  else Ok io.

(** The key names of [_KEYS], in order; [_KEY_x] is the position plus one. *)
Definition KEYS : list string :=
  [ "ESCAPE"; "F1"; "F2"; "F3"; "F4"; "F5"; "F6"; "F7"; "F8"; "F9"; "F10"; "F11"; "F12";
    "GRAVE"; "1"; "2"; "3"; "4"; "5"; "6"; "7"; "8"; "9"; "0"; "MINUS"; "EQUALS"; "BACKSPACE";
    "TAB"; "Q"; "W"; "E"; "R"; "T"; "Y"; "U"; "I"; "O"; "P"; "LEFTBRACKET"; "RIGHTBRACKET";
    "BACKSLASH"; "CAPSLOCK"; "A"; "S"; "D"; "F"; "G"; "H"; "J"; "K"; "L"; "SEMICOLON";
    "APOSTROPHE"; "RETURN"; "LSHIFT"; "Z"; "X"; "C"; "V"; "B"; "N"; "M"; "COMMA"; "PERIOD";
    "SLASH"; "RSHIFT"; "LCTRL"; "APPLICATION"; "LALT"; "SPACE"; "RALT"; "RCTRL"; "UP"; "DOWN";
    "LEFT"; "RIGHT"; "INSERT"; "DELETE"; "HOME"; "END"; "PAGEUP"; "PAGEDOWN" ]%string.

(** [keymap[SDL_SCANCODE_k] = _KEY_k] for every key; [scancode_of] is SDL's. *)
Definition init_keymap (scancode_of : string -> Z) (km : list Z) : list Z :=
  foldl (fun km '(i, k) => upd km (scancode_of k) (Z.of_nat i + 1)) km (imap pair KEYS).

(** ** Callbacks *)

(** [serial_io_handler]: a write to the data register appends its byte to the
    output. *)
Definition serial_io (offset : Z) (is_write : bool) (io : IO) : Res IO :=
  if offset =? 0 then
    if is_write then
      b ← io_get io (serial_base io) 1;
      Ok {| io with serial_out := b :: serial_out io |}
    else Ok io
  else Ok io.

(** [rtc_io_handler]: both words are latched on every access. *)
Definition rtc_io (io : IO) : Res IO :=
  let '(time_now, io) := get_time io in
  io ← io_put io (rtc_port_base io) 4 time_now;
  io_put io (rtc_port_base io + 4) 4 (Z.shiftr time_now 32).

(** [i8042_data_io_handler] *)
Definition i8042_data_io (offset : Z) (is_write : bool) (io : IO) : Res IO :=
  _ ← ensure Assertion (negb is_write);
  _ ← ensure Assertion (offset =? 0);
  let '(key, io) := key_dequeue io in
  io_put io (i8042_data_port_base io) 4 key.

(** A call through an [io_callback_t]; [offset] is a [uint32_t]. *)
Definition run_callback (cb : io_callback) (offset : Z) (len : Z) (is_write : bool) (io : IO)
    : Res IO :=
  match cb with
  | serial_io_handler => serial_io offset is_write io
  | rtc_io_handler => rtc_io io
  | i8042_data_io_handler => i8042_data_io offset is_write io
  | flash_io_handler => Ok io
  end.

Definition invoke_callback (c : option io_callback) (offset len : Z) (is_write : bool) (io : IO)
    : Res IO :=
  match c with
  | Some cb => run_callback cb (wrap32 offset) len is_write io
  | None => Ok io
  end.

Definition map_read (addr len : Z) (mp : IOMap) (io : IO) : Res (Z * IO) :=
  let offset := wrap64 (addr - low mp) in
  io ← invoke_callback (callback mp) offset len false io;
  ret ← io_get io (space mp + offset) len;
  Ok (ret, io).

Definition map_write (addr len v : Z) (mp : IOMap) (io : IO) : Res IO :=
  let offset := wrap64 (addr - low mp) in
  io ← io_put io (space mp + offset) len v;
  invoke_callback (callback mp) offset len true io.

Definition mmio_read (addr len : Z) (io : IO) : Res (Z * IO) :=
  match fetch_mmio_map io addr with
  | None => Err Assertion
  | Some mp => map_read addr len mp io
  end.

Definition mmio_write (addr len v : Z) (io : IO) : Res IO :=
  match fetch_mmio_map io addr with
  | None => Err Assertion
  | Some mp => map_write addr len v mp io
  end.

(** ** VGA *)

Definition CONFIG_FB_ADDR : Z := 0xa1000000.
Definition CONFIG_VGA_CTL_MMIO : Z := 0xa0000100.
Definition SCREEN_W : Z := 400.
Definition SCREEN_H : Z := 300.
Definition FB_SIZE : Z := SCREEN_W * SCREEN_H * 4.

Definition screen_size : Z := SCREEN_W * SCREEN_H * 4.

(** [memset(p, 0, n)]: an absent byte is zero. *)
Definition mem_zero (m : bytemap) (a n : Z) : bytemap :=
  filter (fun kv => ~ (a <= kv.1 < a + n)) m.

(** [if (vgactl_port_base[1] == 1) { update_screen(); vgactl_port_base[1] = 0; }] *)
Definition vga_update_screen (io : IO) : Res IO :=
  sync ← io_get io (vgactl_port_base io + 4) 4;
  if sync =? 1 then
    io_put {| io with screen_updates := screen_updates io + 1 |} (vgactl_port_base io + 4) 4 0
  else Ok io.

(** ** Initialisation *)

Definition CONFIG_SERIAL_MMIO : Z := 0xa00003f8.
Definition CONFIG_TIMER_MMIO : Z := 0xa0000048.
Definition CONFIG_I8042_DATA_MMIO : Z := 0xa0000060.

Definition init_serial (io : IO) : Res IO :=
  let '(p, io) := new_space 8 io in
  add_mmio_map "serial" CONFIG_SERIAL_MMIO p 8 (Some serial_io_handler) {| io with serial_base := p |}.

Definition init_timer (io : IO) : Res IO :=
  let io := {| io with boot_time := timeofday io (time_calls io); time_calls := time_calls io + 1 |} in
  let '(p, io) := new_space 8 io in
  add_mmio_map "rtc" CONFIG_TIMER_MMIO p 8 (Some rtc_io_handler) {| io with rtc_port_base := p |}.

Definition init_vga (io : IO) : Res IO :=
  let '(p, io) := new_space 8 io in
  io ← io_put {| io with vgactl_port_base := p |} p 4 (Z.lor (Z.shiftl SCREEN_W 16) SCREEN_H);
  let '(v, io) := new_space screen_size io in
  let io := {| io with fb_vmem := v; g_fb_base := Some v |} in
  io ← add_mmio_map "vgactl" CONFIG_VGA_CTL_MMIO (vgactl_port_base io) 8 None io;
  io ← add_mmio_map "vmem" CONFIG_FB_ADDR v screen_size None io;
  Ok {| io with io_space := mem_zero (io_space io) v screen_size |}.

Definition init_i8042 (scancode_of : string -> Z) (io : IO) : Res IO :=
  let '(p, io) := new_space 4 io in
  io ← io_put {| io with i8042_data_port_base := p |} p 4 KEY_NONE;
  io ← add_mmio_map "keyboard" CONFIG_I8042_DATA_MMIO p 4 (Some i8042_data_io_handler) io;
  Ok {| io with keymap := init_keymap scancode_of (keymap io) |}.

(** The devices of generated/autoconf.h in the order of [main]. *)
Definition init_devices (junk : bytemap) (scancode_of : string -> Z) (io : IO) : Res IO :=
  io ← init_serial (init_map junk io);
  io ← init_timer io;
  io ← init_vga io;
  init_i8042 scancode_of io.

(** Static storage before [main]: all zero, no map registered. *)
Definition io_static (timeofday : Z -> Z * Z) (sdl_poll : Z -> list sdl_event) : IO :=
  {| maps := []; p_space := 0; io_space := ∅; serial_base := 0; rtc_port_base := 0;
     vgactl_port_base := 0; fb_vmem := 0; g_fb_base := None; i8042_data_port_base := 0;
     serial_out := []; boot_time := (0, 0); timeofday := timeofday; time_calls := 0;
     sdl_poll := sdl_poll; poll_calls := 0; screen_updates := 0;
     key_queue := replicate (Z.to_nat KEY_QUEUE_LEN) 0; key_f := 0; key_r := 0;
     keymap := replicate 256 0 |}.

(** ** The keyboard queue is a FIFO

    The ring buffer of [key_queue], [key_f], [key_r] against an abstract queue:
    one slot always stays free, so it holds at most 1023 keys. *)

Record queue_wf (io : IO) : Prop := {
  qw_len : length (key_queue io) = Z.to_nat KEY_QUEUE_LEN;
  qw_f : 0 <= key_f io < KEY_QUEUE_LEN;
  qw_r : 0 <= key_r io < KEY_QUEUE_LEN;
}.

Definition queue_len (io : IO) : Z := (key_r io - key_f io) mod KEY_QUEUE_LEN.

Definition queue_of (io : IO) : list Z :=
  (fun i => arr (key_queue io) ((key_f io + i) mod KEY_QUEUE_LEN))
    <$> seqZ_from 0 (Z.to_nat (queue_len io)).

Lemma queue_len_range io : 0 <= queue_len io < KEY_QUEUE_LEN.
Proof. apply Z.mod_pos_bound. unfold KEY_QUEUE_LEN. lia. Qed.

Lemma length_queue_of io : Z.of_nat (length (queue_of io)) = queue_len io.
Proof.
  unfold queue_of. rewrite length_fmap, length_seqZ_from. pose proof (queue_len_range io). lia.
Qed.

Lemma seqZ_from_app n p start :
  seqZ_from start (n + p) = seqZ_from start n ++ seqZ_from (start + Z.of_nat n) p.
Proof.
  revert start. induction n as [|n IH]; intros start; cbn [seqZ_from Nat.add app].
  - f_equal. lia.
  - f_equal. rewrite IH. do 2 f_equal. lia.
Qed.

Lemma mod_1024 a b : 0 <= b < KEY_QUEUE_LEN -> (exists q, a = b + q * KEY_QUEUE_LEN) ->
  a mod KEY_QUEUE_LEN = b.
Proof.
  unfold KEY_QUEUE_LEN. intros Hb [q ->]. rewrite Z.mod_add by lia. by apply Z.mod_small.
Qed.

Lemma mod_1024_inv a : exists q, a = a mod KEY_QUEUE_LEN + q * KEY_QUEUE_LEN.
Proof.
  unfold KEY_QUEUE_LEN. exists (a / 1024). pose proof (Z.div_mod a 1024 ltac:(lia)). lia.
Qed.

(** One more step around the ring. *)
Lemma ring_succ i : 0 <= i < KEY_QUEUE_LEN ->
  Z.rem (i + 1) KEY_QUEUE_LEN = (i + 1) mod KEY_QUEUE_LEN.
Proof. intros Hi. unfold KEY_QUEUE_LEN in *. apply Z.rem_mod_nonneg; lia. Qed.

Lemma queue_index io i : queue_wf io -> 0 <= i < KEY_QUEUE_LEN ->
  (key_f io + i) mod KEY_QUEUE_LEN = key_r io <-> i = queue_len io.
Proof.
  intros [_ Hf Hr] Hi. unfold queue_len. split; intros E.
  - symmetry. apply mod_1024; [done |]. destruct (mod_1024_inv (key_f io + i)) as [q Hq].
    rewrite E in Hq. exists (- q). lia.
  - apply mod_1024; [done |]. destruct (mod_1024_inv (key_r io - key_f io)) as [q Hq].
    rewrite <- E in Hq. exists (- q). lia.
Qed.

Lemma queue_full io : queue_wf io ->
  (key_r io + 1) mod KEY_QUEUE_LEN = key_f io <-> queue_len io = KEY_QUEUE_LEN - 1.
Proof.
  intros [_ Hf Hr]. unfold queue_len. split; intros E.
  - apply mod_1024; [unfold KEY_QUEUE_LEN; lia |].
    destruct (mod_1024_inv (key_r io + 1)) as [q Hq]. rewrite E in Hq. exists (q - 1).
    unfold KEY_QUEUE_LEN in *. lia.
  - apply mod_1024; [done |]. destruct (mod_1024_inv (key_r io - key_f io)) as [q Hq].
    rewrite E in Hq. exists (q + 1). unfold KEY_QUEUE_LEN in *. lia.
Qed.

Lemma enqueue_len io : queue_wf io -> queue_len io < KEY_QUEUE_LEN - 1 ->
  ((key_r io + 1) mod KEY_QUEUE_LEN - key_f io) mod KEY_QUEUE_LEN = queue_len io + 1.
Proof.
  intros Hq Hlt. pose proof (queue_len_range io). apply mod_1024; [lia |].
  unfold queue_len. destruct (mod_1024_inv (key_r io + 1)) as [q Hq1].
  destruct (mod_1024_inv (key_r io - key_f io)) as [q' Hq2]. exists (q' - q). lia.
Qed.

Lemma dequeue_len io : queue_wf io -> 0 < queue_len io ->
  (key_r io - (key_f io + 1) mod KEY_QUEUE_LEN) mod KEY_QUEUE_LEN = queue_len io - 1.
Proof.
  intros Hq Hlt. pose proof (queue_len_range io). apply mod_1024; [lia |].
  unfold queue_len. destruct (mod_1024_inv (key_f io + 1)) as [q Hq1].
  destruct (mod_1024_inv (key_r io - key_f io)) as [q' Hq2]. exists (q' + q). lia.
Qed.

Lemma key_enqueue_spec k io : queue_wf io ->
  if queue_len io =? KEY_QUEUE_LEN - 1 then key_enqueue k io = Err Assertion
  else exists io', key_enqueue k io = Ok io' /\ queue_wf io' /\ queue_of io' = queue_of io ++ [k].
Proof.
  intros Hq. pose proof Hq as [Hl Hf Hr]. unfold key_enqueue. cbn [key_r key_f].
  rewrite ring_succ by done. pose proof (queue_full io Hq) as Hfull.
  pose proof (queue_len_range io) as Hrange.
  destruct (Z.eqb_spec (queue_len io) (KEY_QUEUE_LEN - 1)) as [E|E].
  - rewrite (proj2 Hfull E). by rewrite Z.eqb_refl.
  - destruct (Z.eqb_spec ((key_r io + 1) mod KEY_QUEUE_LEN) (key_f io)) as [E'|E']; [tauto |].
    cbn. eexists. split; [reflexivity |].
    set (io' := {| io with key_queue := _; key_r := _ |}).
    assert (Hq' : queue_wf io').
    { split; cbn; [by rewrite length_upd | done | apply Z.mod_pos_bound; unfold KEY_QUEUE_LEN; lia]. }
    split; [done |].
    assert (Hn : queue_len io' = queue_len io + 1) by (unfold queue_len at 1; cbn; apply enqueue_len; [done | lia]).
    unfold queue_of at 1. rewrite Hn. replace (Z.to_nat (queue_len io + 1)) with (Z.to_nat (queue_len io) + 1)%nat by lia.
    rewrite seqZ_from_app, fmap_app. f_equal.
    + unfold queue_of. apply list_fmap_ext. intros i x Hx.
      apply list_elem_of_lookup_2, elem_of_seqZ_from in Hx. cbn [key_queue key_f].
      apply arr_upd_ne; [apply Z.mod_pos_bound; unfold KEY_QUEUE_LEN; lia |].
      intros Heq. symmetry in Heq. apply queue_index in Heq; [lia | done | lia].
    + unfold io'. cbn [seqZ_from fmap list_fmap key_queue key_f]. f_equal.
      replace (0 + Z.of_nat (Z.to_nat (queue_len io))) with (queue_len io) by lia.
      rewrite (proj2 (queue_index io (queue_len io) Hq Hrange) eq_refl).
      apply arr_upd_eq. rewrite Hl. unfold KEY_QUEUE_LEN in *. lia.
Qed.

Lemma key_dequeue_spec io : queue_wf io ->
  match queue_of io with
  | [] => key_dequeue io = (KEY_NONE, io)
  | k :: q => exists io', key_dequeue io = (k, io') /\ queue_wf io' /\ queue_of io' = q
  end.
Proof.
  intros Hq. pose proof Hq as [Hl Hf Hr]. pose proof (queue_len_range io) as Hrange.
  pose proof (queue_index io 0 Hq ltac:(unfold KEY_QUEUE_LEN; lia)) as H0.
  rewrite Z.add_0_r, Z.mod_small in H0 by done. unfold key_dequeue.
  destruct (Z.eqb_spec (key_f io) (key_r io)) as [E|E].
  - apply H0 in E. unfold queue_of. by rewrite <- E.
  - assert (Hpos : 0 < queue_len io) by (destruct (Z.eq_dec (queue_len io) 0); [exfalso; apply E, H0; lia | lia]).
    unfold queue_of at 1.
    replace (Z.to_nat (queue_len io)) with (1 + Z.to_nat (queue_len io - 1))%nat by lia.
    cbn [Nat.add seqZ_from fmap list_fmap negb].
    rewrite Z.add_0_r, (Z.mod_small (key_f io)) by done. eexists. split; [reflexivity |].
    rewrite ring_succ by done. set (io' := {| io with key_f := _ |}).
    split.
    { split; cbn; [done | apply Z.mod_pos_bound; unfold KEY_QUEUE_LEN; lia | done]. }
    assert (Hn : queue_len io' = queue_len io - 1) by (unfold queue_len at 1; cbn; by apply dequeue_len).
    unfold queue_of. rewrite Hn. apply list_eq_same_length with (n := Z.to_nat (queue_len io - 1));
      [by rewrite length_fmap, length_seqZ_from .. |].
    intros i x y Hi Hx Hy. rewrite list_lookup_fmap, lookup_seqZ_from in Hx, Hy by done.
    cbn in Hx, Hy. simplify_eq. f_equal. rewrite Z.add_mod_idemp_l by (unfold KEY_QUEUE_LEN; lia).
    f_equal. lia.
Qed.

(** The keyboard's ring buffer is a FIFO of capacity 1023.  [key_enqueue]
    appends the key, or stops the process when 1023 keys are waiting;
    [key_dequeue] removes the oldest key, or returns [_KEY_NONE] and changes
    nothing when none is waiting. *)
Theorem key_queue_fifo k io : queue_wf io ->
  (Z.of_nat (length (queue_of io)) = 1023 -> key_enqueue k io = Err Assertion) /\
  (Z.of_nat (length (queue_of io)) < 1023 ->
     exists io', key_enqueue k io = Ok io' /\ queue_wf io' /\ queue_of io' = queue_of io ++ [k]) /\
  match queue_of io with
  | [] => key_dequeue io = (KEY_NONE, io)
  | x :: q => exists io', key_dequeue io = (x, io') /\ queue_wf io' /\ queue_of io' = q
  end.
Proof.
  intros Hq. pose proof (key_enqueue_spec k io Hq) as He. rewrite length_queue_of.
  unfold KEY_QUEUE_LEN in *. split; [| split].
  - intros E. rewrite E in He. exact He.
  - intros Hlt. destruct (Z.eqb_spec (queue_len io) (1024 - 1)); [lia | exact He].
  - by apply key_dequeue_spec.
Qed.

Lemma key_queue_fifo_witness :
  exists io', key_enqueue 5 (io_static (fun _ => (0, 0)) (fun _ => [])) = Ok io' /\ queue_of io' = [5].
Proof.
  destruct (key_queue_fifo 5 (io_static (fun _ => (0, 0)) (fun _ => []))) as (_ & H & _).
  - split; cbn; unfold KEY_QUEUE_LEN; try done; lia.
  - destruct H as (io' & H1 & _ & H2); [vm_compute; reflexivity |]. exists io'. split; assumption.
Defined.

(** ** The configured devices *)

Lemma mem_bytes_put m a bs : mem_bytes (mem_put m a bs) a (length bs) = bs.
Proof.
  apply list_eq_arr; [apply length_mem_bytes |]. rewrite length_mem_bytes. intros i Hi.
  rewrite arr_mem_bytes, mem_get_put by done. case_if; zify_bool; [| lia]. f_equal. lia.
Qed.

Lemma host_read_write m a len v : host_width len = true ->
  host_read (host_write m a len v) a len = v mod 256 ^ len.
Proof.
  intros Hw. unfold host_read, host_write. rewrite Hw.
  assert (0 <= len) by (unfold host_width in Hw; zify_bool; intuition lia).
  pose proof (mem_bytes_put m a (le_bytes (Z.to_nat len) v)) as E.
  rewrite length_le_bytes in E. rewrite E, le_word_bytes. by rewrite Z2Nat.id.
Qed.

(** What [main] registers, with the spaces [new_space] hands out. *)
Definition boot_maps : list IOMap :=
  [ mkIOMap "serial" 0xa00003f8 0xa00003ff 0 (Some serial_io_handler);
    mkIOMap "rtc" 0xa0000048 0xa000004f 4096 (Some rtc_io_handler);
    mkIOMap "vgactl" 0xa0000100 0xa0000107 8192 None;
    mkIOMap "vmem" 0xa1000000 0xa10752ff 12288 None;
    mkIOMap "keyboard" 0xa0000060 0xa0000063 495616 (Some i8042_data_io_handler) ].

Record io_wf (io : IO) : Prop := {
  iw_mem : mem_wf (io_space io);
  iw_maps : maps io = boot_maps;
  iw_fb : g_fb_base io = Some 12288;
  iw_serial : serial_base io = 0;
  iw_rtc : rtc_port_base io = 4096;
  iw_vgactl : vgactl_port_base io = 8192;
  iw_i8042 : i8042_data_port_base io = 495616;
  iw_queue : queue_wf io;
}.

Lemma mem_zero_wf m a n : mem_wf m -> mem_wf (mem_zero m a n).
Proof. intros Hm k b Hk. apply map_lookup_filter_Some in Hk as [Hk _]. by eapply Hm. Qed.

Lemma init_devices_ok junk scancode_of tod poll : mem_wf junk ->
  exists io, init_devices junk scancode_of (io_static tod poll) = Ok io /\ io_wf io.
Proof.
  intros Hj. destruct (init_devices junk scancode_of (io_static tod poll)) as [io|e] eqn:E;
    cbv -[host_write mem_zero init_keymap replicate] in E; [| discriminate E].
  injection E as <-. eexists. split; [reflexivity |].
  split; cbn [io_space maps g_fb_base serial_base rtc_port_base vgactl_port_base
    i8042_data_port_base]; try reflexivity.
  - apply host_write_wf, mem_zero_wf, host_write_wf, Hj.
  - split; cbn [key_queue key_f key_r]; unfold KEY_QUEUE_LEN; [reflexivity | lia | lia].
Qed.

Lemma init_devices_poll junk scancode_of tod poll io :
  init_devices junk scancode_of (io_static tod poll) = Ok io -> sdl_poll io = poll.
Proof.
  intros E. cbv -[host_write mem_zero init_keymap replicate] in E. by injection E as <-.
Qed.

(** Writing a device byte or running a device keeps the configuration. *)
Lemma io_put_wf io p len v io' : io_wf io -> io_put io p len v = Ok io' -> io_wf io'.
Proof.
  intros [? ? ? ? ? ? ? [? ? ?]] E. unfold io_put in E. case_if_in E; inv_res.
  split; cbn; try done. by apply host_write_wf.
Qed.

Lemma get_time_wf io : io_wf io -> io_wf (get_time io).2.
Proof. intros [? ? ? ? ? ? ? [? ? ?]]. by split. Qed.

Lemma key_dequeue_wf io : io_wf io -> io_wf (key_dequeue io).2.
Proof.
  intros Hw. pose proof (key_dequeue_spec io (iw_queue _ Hw)) as Hd.
  destruct (queue_of io) as [|k q]; [by rewrite Hd |].
  destruct Hd as (io' & Hd & Hq & _). destruct Hw as [? ? ? ? ? ? ? _].
  unfold key_dequeue in *. destruct (negb _); cbn in *; simplify_eq; by split.
Qed.

Lemma run_callback_wf cb o len wr io io' : io_wf io -> run_callback cb o len wr io = Ok io' -> io_wf io'.
Proof.
  intros Hw E. destruct cb; cbn in E; unfold serial_io, rtc_io, i8042_data_io in E; cbn in E.
  - case_if_in E; [destruct wr |]; inv_res; try done. destruct Hw as [? ? ? ? ? ? ? [? ? ?]]. by split.
  - inv_res. eapply io_put_wf; [| eassumption]. eapply io_put_wf; [| eassumption].
    by apply (get_time_wf io).
  - inv_res. pose proof (key_dequeue_wf io Hw) as Hd. destruct (key_dequeue io) as [k io1].
    by eapply io_put_wf.
  - by inv_res.
Qed.

Lemma invoke_callback_wf c o len wr io io' :
  io_wf io -> invoke_callback c o len wr io = Ok io' -> io_wf io'.
Proof.
  intros Hw E. destruct c; cbn in E; [by eapply run_callback_wf | by inv_res].
Qed.

Lemma mmio_read_wf addr len io v io' : io_wf io -> mmio_read addr len io = Ok (v, io') ->
  io_wf io' /\ is_word v.
Proof.
  intros Hw E. unfold mmio_read in E. destruct (fetch_mmio_map io addr); [| done].
  unfold map_read in E. inv_res. assert (Hw' : io_wf io') by (by eapply invoke_callback_wf).
  split; [done |]. unfold io_get in *. destruct (host_ok _ _ _); inv_res. apply host_read_word, Hw'.
Qed.

Lemma mmio_write_wf addr len v io io' : io_wf io -> mmio_write addr len v io = Ok io' -> io_wf io'.
Proof.
  intros Hw E. unfold mmio_write in E. destruct (fetch_mmio_map io addr); [| done].
  unfold map_write in E. inv_res. eapply invoke_callback_wf; [| eassumption]. by eapply io_put_wf.
Qed.

Lemma find_mapid_boot addr mp i : boot_maps !! i = Some mp -> map_inside mp addr = true ->
  find_mapid_by_addr boot_maps addr = Z.of_nat i.
Proof.
  intros Hi Hin. unfold map_inside in Hin. zify_bool.
  destruct i as [|[|[|[|[|i]]]]]; cbn in Hi; simplify_eq; cbn in *;
    unfold find_mapid_by_addr, boot_maps, find_mapid_from, map_inside; cbn [low high];
    repeat (case_if; zify_bool; try lia).
Qed.

(** Every address of a registered range is dispatched to its own device. *)
Lemma fetch_mmio_boot io addr mp i : io_wf io -> boot_maps !! i = Some mp ->
  map_inside mp addr = true -> fetch_mmio_map io addr = Some mp.
Proof.
  intros Hw Hi Hin. unfold fetch_mmio_map. rewrite (iw_maps _ Hw).
  rewrite (find_mapid_boot addr mp i Hi Hin).
  destruct (Z.eqb_spec (Z.of_nat i) (-1)); [lia |]. cbn. by rewrite (arr_of_lookup _ _ _ Hi).
Qed.

(** A read sees only the bytes it covers. *)
Lemma host_read_ext m m' a len : (forall x, a <= x < a + len -> mem_get m x = mem_get m' x) ->
  host_read m a len = host_read m' a len.
Proof.
  intros E. unfold host_read. case_if; [| done]. f_equal. apply list_fmap_ext. intros i x Hx.
  apply E. apply list_elem_of_lookup_2, elem_of_seqZ_from in Hx. unfold host_width in *. lia.
Qed.

(** Reading back what has just been put into a port. *)
Lemma io_get_written io m p len v : host_width len = true -> host_ok IO_SPACE_MAX p len = true ->
  io_space io = host_write m p len v -> io_get io p len = Ok (v mod 256 ^ len).
Proof. intros Hw Hok E. unfold io_get. by rewrite Hok, E, host_read_write. Qed.

Lemma io_put_ok io p len v : host_ok IO_SPACE_MAX p len = true ->
  io_put io p len v = Ok {| io with io_space := host_write (io_space io) p len v |}.
Proof. intros E. unfold io_put. by rewrite E. Qed.

Section Devices.
Context (io : IO) (Hw : io_wf io).

Lemma serial_write_eq b : mmio_write CONFIG_SERIAL_MMIO 1 b io =
  Ok {| io with io_space := host_write (io_space io) 0 1 b; serial_out := b mod 256 :: serial_out io |}.
Proof using Hw.
  unfold mmio_write. rewrite (fetch_mmio_boot io CONFIG_SERIAL_MMIO _ 0 Hw eq_refl eq_refl).
  unfold map_write. cbn [space callback low]. change (wrap64 _) with 0.
  rewrite io_put_ok by done. cbn [mbind Res_bind invoke_callback]. change (wrap32 0) with 0.
  cbn [run_callback serial_io Z.eqb serial_base]. rewrite (iw_serial _ Hw).
  erewrite io_get_written; [| reflexivity | reflexivity | reflexivity]. reflexivity.
Qed.

Lemma serial_write_ok b : exists io', mmio_write CONFIG_SERIAL_MMIO 1 b io = Ok io' /\
  serial_out io' = b mod 256 :: serial_out io.
Proof using Hw. eexists. split; [apply serial_write_eq | done]. Qed.

Lemma keyboard_read_ok : exists io',
  mmio_read CONFIG_I8042_DATA_MMIO 4 io = Ok (default KEY_NONE (head (queue_of io)) mod 2 ^ 32, io') /\
  queue_of io' = tail (queue_of io).
Proof using Hw.
  unfold mmio_read. rewrite (fetch_mmio_boot io CONFIG_I8042_DATA_MMIO _ 4 Hw eq_refl eq_refl).
  unfold map_read. cbn [space callback low]. change (wrap64 _) with 0.
  cbn [invoke_callback]. change (wrap32 0) with 0. cbn [run_callback]. unfold i8042_data_io. cbn [negb Z.eqb ensure mbind Res_bind].
  pose proof (key_dequeue_spec io (iw_queue _ Hw)) as Hd. pose proof (key_dequeue_wf io Hw) as Hw'.
  set (k := default KEY_NONE (head (queue_of io))).
  assert (E : exists io1, key_dequeue io = (k, io1) /\ queue_of io1 = tail (queue_of io)).
  { unfold k. destruct (queue_of io) eqn:Eq; [by exists io |].
    destruct Hd as (io1 & -> & _ & <-). by exists io1. }
  destruct E as (io1 & E & Hq). rewrite E in *. cbn [snd] in Hw'. rewrite (iw_i8042 _ Hw').
  rewrite io_put_ok by done. cbn [mbind Res_bind].
  erewrite io_get_written; [| reflexivity | reflexivity | reflexivity].
  eexists. split; [reflexivity | exact Hq].
Qed.

(** The clock has been read once more, and only its two words have changed. *)
Definition clock_next (io' : IO) : Prop :=
  timeofday io' = timeofday io /\ boot_time io' = boot_time io /\ time_calls io' = time_calls io + 1 /\
  forall p, p < 4096 \/ 4104 <= p -> mem_get (io_space io') p = mem_get (io_space io) p.

Lemma rtc_words_apart m v v' p : p < 4096 \/ 4104 <= p ->
  mem_get (host_write (host_write m 4096 4 v) (4096 + 4) 4 v') p = mem_get m p.
Proof using.
  intros Hp. unfold host_write. change (host_width 4) with true. cbv iota.
  rewrite !mem_get_put, !length_le_bytes. by repeat (case_if; zify_bool; try lia).
Qed.

Lemma timer_read_ok :
  (exists io', mmio_read CONFIG_TIMER_MMIO 4 io = Ok ((get_time io).1 mod 2 ^ 32, io') /\ clock_next io') /\
  (exists io', mmio_read (CONFIG_TIMER_MMIO + 4) 4 io = Ok ((get_time io).1 / 2 ^ 32, io') /\ clock_next io').
Proof using Hw.
  set (t := (get_time io).1). assert (Ht : is_word t) by apply wrap64_word.
  unfold mmio_read.
  rewrite (fetch_mmio_boot io CONFIG_TIMER_MMIO _ 1 Hw eq_refl eq_refl),
    (fetch_mmio_boot io (CONFIG_TIMER_MMIO + 4) _ 1 Hw eq_refl eq_refl).
  unfold map_read. cbn [space callback low invoke_callback run_callback]. unfold rtc_io.
  change (get_time io) with (t, (get_time io).2). cbv beta iota.
  set (io1 := (get_time io).2). change (rtc_port_base io1) with (rtc_port_base io).
  rewrite (iw_rtc _ Hw).
  rewrite io_put_ok by done. cbn [mbind Res_bind]. cbn [rtc_port_base].
  change (rtc_port_base io1) with (rtc_port_base io). rewrite (iw_rtc _ Hw).
  rewrite io_put_ok by done. cbn [mbind Res_bind].
  split; (eexists; split).
  - unfold io_get. cbn [io_space]. change (wrap64 _) with 0.
    change (host_ok IO_SPACE_MAX (4096 + 0) 4) with true. cbv iota.
    cbn [mbind Res_bind]. do 2 f_equal.
    change (t mod 2 ^ 32) with (t mod 256 ^ 4).
    rewrite <- (host_read_write (io_space io1) 4096 4 t) by done.
    set (m1 := host_write (io_space io1) 4096 4 t).
    unfold host_read at 1. cbn [host_width]. unfold host_write at 1.
    change (host_width 4) with true. cbv iota.
    unfold host_read. change (host_width 4) with true. cbv iota. f_equal.
    apply list_eq_arr; rewrite !length_mem_bytes; [done |]. intros i Hi.
    rewrite !arr_mem_bytes, mem_get_put by done. rewrite length_le_bytes.
    case_if; [| done]. zify_bool. lia.
  - split; [done |]. split; [done |]. split; [done |]. intros p Hp. cbn [io_space]. by apply rtc_words_apart.
  - unfold io_get. cbn [io_space]. change (wrap64 _) with 4.
    change (host_ok IO_SPACE_MAX (4096 + 4) 4) with true. cbv iota.
    cbn [mbind Res_bind]. rewrite host_read_write by done.
    rewrite Z.shiftr_div_pow2 by lia. do 2 f_equal. apply Z.mod_small.
    unfold is_word in Ht. split; [apply Z.div_pos; lia | apply Z.div_lt_upper_bound; lia].
  - split; [done |]. split; [done |]. split; [done |]. intros p Hp. cbn [io_space]. by apply rtc_words_apart.
Qed.

Lemma unmapped_read addr len : Forall (fun mp => map_inside mp addr = false) boot_maps ->
  mmio_read addr len io = Err Assertion.
Proof using Hw.
  intros Hf. unfold mmio_read, fetch_mmio_map. rewrite (iw_maps _ Hw).
  unfold find_mapid_by_addr.
  assert (E : forall i, find_mapid_from i boot_maps addr = -1).
  { induction Hf as [|mp mps Hm _ IH]; intros i; cbn; [done |]. by rewrite Hm. }
  by rewrite E.
Qed.
End Devices.

(** Device semantics.  With the devices registered by [main]: a byte
    stored to the serial port is appended to the output; a load of the keyboard
    port returns (as 32 bits) and removes the oldest queued key, [_KEY_NONE] if
    there is none; loads of the two clock words return the low and the high
    half of [get_time]; an address of no device stops the process. *)
Theorem mmio_devices io b addr : io_wf io ->
  (exists io', mmio_write CONFIG_SERIAL_MMIO 1 b io = Ok io' /\
     serial_out io' = b mod 256 :: serial_out io) /\
  (exists io', mmio_read CONFIG_I8042_DATA_MMIO 4 io
       = Ok (default KEY_NONE (head (queue_of io)) mod 2 ^ 32, io') /\
     queue_of io' = tail (queue_of io)) /\
  (exists io', mmio_read CONFIG_TIMER_MMIO 4 io = Ok ((get_time io).1 mod 2 ^ 32, io')) /\
  (exists io', mmio_read (CONFIG_TIMER_MMIO + 4) 4 io = Ok ((get_time io).1 / 2 ^ 32, io')) /\
  (Forall (fun mp => map_inside mp addr = false) boot_maps -> mmio_read addr 4 io = Err Assertion).
Proof.
  intros Hw. destruct (timer_read_ok io Hw) as [H1 H2].
  split; [by apply serial_write_ok | split; [by apply keyboard_read_ok |]].
  split; [destruct H1 as (? & ? & _); eauto | split; [destruct H2 as (? & ? & _); eauto |]].
  by apply unmapped_read.
Qed.

Lemma mmio_devices_witness :
  exists io io', init_devices ∅ (fun _ => 0) (io_static (fun _ => (0, 0)) (fun _ => [])) = Ok io /\
    mmio_write CONFIG_SERIAL_MMIO 1 0x141 io = Ok io' /\ serial_out io' = [0x41].
Proof.
  destruct (init_devices_ok ∅ (fun _ => 0) (fun _ => (0, 0)) (fun _ => [])) as (io & E & Hw).
  { apply map_Forall_empty. }
  destruct (mmio_devices io 0x141 0 Hw) as ((io' & H1 & H2) & _).
  exists io, io'. split; [exact E | split; [exact H1 |]]. rewrite H2.
  cbv -[host_write mem_zero init_keymap] in E. injection E as <-. reflexivity.
Defined.
