(* ===== verification/Mem.v ===== *)
(** * Physical memory (src/memory/pmem.c, include/memory/pmem.h) and the block
      transfers of src/memory/cache.c

    [Bus] is everything a physical access can touch: the run state and the CSR
    file (through the PMP check), the 128 MB of [pmem], and the devices.
    [load_block_from_mem] and [store_block_to_mem] make it a block store for
    the caches, and the file discharges the laws the caches rely on. *)

From S2P Require Import Prelude Word State Pmp Csr Cache CacheSet CacheSpec Mmio.

Definition MBASE : Z := 0x80000000.
Definition MSIZE : Z := 0x8000000.
Definition RESET_VECTOR : Z := 0x80000000.

Record Bus := mkBus {
  sim : Sim;
  csrf : CsrFile;
  pmem : bytemap;         (** [uint8_t pmem[MSIZE]], by index *)
  io : IO;
}.

(** [guest_to_host] as an index into [pmem], and its inverse. *)
Definition guest_to_host (paddr : Z) : Z := paddr - MBASE.
Definition host_to_guest (haddr : Z) : Z := haddr + MBASE.

(** [pmp_check(addr, is_execute, is_write)] on the current CSR file. *)
Definition bus_pmp_check (addr : Z) (is_execute is_write : bool) (b : Bus) : bool * Bus :=
  let '(ok, s) := pmp_check (pmp (csrf b)) (priv_level (csrf b)) addr is_execute is_write (sim b) in
  (ok, {| b with sim := s |}).

(** The masked address and the three regions of [paddr_read]. *)
Definition low32 (addr : Z) : Z := Z.land addr 0xffffffff.
Definition in_pmem (addr : Z) : bool := (MBASE <=? addr) && (addr <? MBASE + MSIZE).
Definition in_fb (addr : Z) : bool :=
  (CONFIG_FB_ADDR <=? addr) && (addr <? CONFIG_FB_ADDR + FB_SIZE).

(** The verdict of the PMP check is ignored: the access is performed anyway. *)
Definition paddr_read (addr len : Z) (b : Bus) : Res (Z * Bus) :=
  let '(_, b) := bus_pmp_check addr false false b in
  let addr := low32 addr in
  if in_pmem addr then
    let p := guest_to_host addr in
    if host_ok MSIZE p len then Ok (host_read (pmem b) p len, b) else Err Undefined
  else
    match g_fb_base (io b) with
    | Some fb =>
        if in_fb addr then v ← io_get (io b) (fb + (addr - CONFIG_FB_ADDR)) len; Ok (v, b)
        else '(v, d) ← mmio_read addr len (io b); Ok (v, {| b with io := d |})
    | None => '(v, d) ← mmio_read addr len (io b); Ok (v, {| b with io := d |})
    end.

Definition paddr_write (addr len v : Z) (b : Bus) : Res Bus :=
  let '(_, b) := bus_pmp_check addr false true b in
  let addr := low32 addr in
  if in_pmem addr then
    let p := guest_to_host addr in
    if host_ok MSIZE p len then Ok {| b with pmem := host_write (pmem b) p len v |} else Err Undefined
  else
    match g_fb_base (io b) with
    | Some fb =>
        if in_fb addr
        then d ← io_put (io b) (fb + (addr - CONFIG_FB_ADDR)) len v; Ok {| b with io := d |}
        else d ← mmio_write addr len v (io b); Ok {| b with io := d |}
    | None => d ← mmio_write addr len v (io b); Ok {| b with io := d |}
    end.

(** ** Block transfers of the L2 *)

(** The fast-path test of both transfers. *)
Definition block_in_pmem (pa : Z) : bool := (MBASE <=? pa) && (pa + BLOCK_SIZE <=? MBASE + MSIZE).

(** The fallback loops move eight words through [paddr_read]/[paddr_write]. *)
Definition load_words (block_paddr : Z) (b : Bus) : Res (list Z * Bus) :=
  for_each (seqZ_from 0 8)
    (fun i '(dest, b) =>
       '(val, b) ← paddr_read (block_paddr + i * WORD_SIZE)%word WORD_SIZE b;
       Ok (dest ++ le_bytes (Z.to_nat WORD_SIZE) val, b)) ([], b).

Definition store_words (block_paddr : Z) (src : list Z) (b : Bus) : Res Bus :=
  for_each (seqZ_from 0 8)
    (fun i b =>
       let val := le_word (take (Z.to_nat WORD_SIZE) (drop (Z.to_nat (i * WORD_SIZE)) src)) in
       paddr_write (block_paddr + i * WORD_SIZE)%word WORD_SIZE val b) b.

Definition load_block_from_mem (block_paddr : Z) (b : Bus) : Res (list Z * Bus) :=
  let pa := low32 block_paddr in
  if block_in_pmem pa
  then Ok (mem_bytes (pmem b) (guest_to_host pa) (Z.to_nat BLOCK_SIZE), b)
  else load_words block_paddr b.

Definition store_block_to_mem (block_paddr : Z) (src : list Z) (b : Bus) : Res Bus :=
  let pa := low32 block_paddr in
  if block_in_pmem pa
  then Ok {| b with pmem := mem_put (pmem b) (guest_to_host pa) src |}
  else store_words block_paddr src b.

#[export] Instance Bus_store : BlockStore Bus := {
  load_block := load_block_from_mem;
  store_block := store_block_to_mem;
}.

(** ** The laws of the block store *)

(** The blocks of [pmem]. *)
Definition pmem_blk (k : Z) : Prop := MBASE / 64 <= k < (MBASE + MSIZE) / 64.

Definition bus_block (b : Bus) (k : Z) : list Z :=
  mem_bytes (pmem b) (guest_to_host (64 * k)) (Z.to_nat BLOCK_SIZE).

Definition same_but_pmem (b b' : Bus) : Prop :=
  sim b' = sim b /\ csrf b' = csrf b /\ io b' = io b.

Lemma low32_small a : 0 <= a < 2 ^ 32 -> low32 a = a.
Proof.
  intros Ha. unfold low32. change 0xffffffff with (2 ^ 32 - 1).
  rewrite land_ones_mod by lia. by apply Z.mod_small.
Qed.

Lemma pmem_blk_bounds k : pmem_blk k <-> 33554432 <= k < 35651584.
Proof.
  unfold pmem_blk, MBASE, MSIZE. change (2147483648 / 64) with 33554432.
  by change ((2147483648 + 134217728) / 64) with 35651584.
Qed.

Lemma pmem_blk_addr k : pmem_blk k -> low32 (64 * k) = 64 * k /\ block_in_pmem (64 * k) = true.
Proof.
  intros Hk. rewrite pmem_blk_bounds in Hk.
  split; [apply low32_small; lia |]. unfold block_in_pmem, MBASE, MSIZE, BLOCK_SIZE. lia.
Qed.

Lemma bus_block_ok b k : mem_wf (pmem b) -> is_block (bus_block b k).
Proof. intros Hm. split; [apply length_mem_bytes | by apply mem_bytes_byte]. Qed.

Lemma bus_block_put b k d k' : is_block d -> pmem_blk k -> pmem_blk k' ->
  bus_block {| b with pmem := mem_put (pmem b) (guest_to_host (64 * k)) d |} k'
  = if k' =? k then d else bus_block b k'.
Proof.
  intros [Hl _] Hk Hk'. unfold bus_block. cbn [pmem]. unfold BLOCK_SIZE in *.
  apply list_eq_arr.
  - rewrite length_mem_bytes. destruct (k' =? k); [done | by rewrite length_mem_bytes].
  - rewrite length_mem_bytes. intros i Hi. rewrite arr_mem_bytes, mem_get_put, Hl by done.
    unfold guest_to_host. destruct (Z.eqb_spec k' k) as [->|Hne].
    + case_if; zify_bool; [f_equal; lia | lia].
    + rewrite arr_mem_bytes by done. case_if; zify_bool; [lia | done].
Qed.

#[export, refine] Instance Bus_laws : BlockStoreLaws Bus := {|
  store_inv := fun b => mem_wf (pmem b);
  ram_blk := pmem_blk;
  ram := bus_block;
  only_ram := same_but_pmem;
|}.
Proof.
  - split; [done |]. intros a b c (? & ? & ?) (? & ? & ?). repeat split; congruence.
  - intros k Hk. rewrite pmem_blk_bounds in Hk. lia.
  - intros b k Hm _. by apply bus_block_ok.
  - intros b k Hm Hk. destruct (pmem_blk_addr k Hk) as [E1 E2]. cbn.
    unfold load_block_from_mem. by rewrite E1, E2.
  - intros b k d Hm Hk Hd. destruct (pmem_blk_addr k Hk) as [E1 E2]. cbn.
    unfold store_block_to_mem. rewrite E1, E2. eexists. split; [reflexivity |].
    split; [cbn; apply mem_put_wf; [done | apply Hd] |]. split; [done |].
    intros k' Hk'. by apply bus_block_put.
Defined.

(** ** Well-formedness of the bus *)

Record bus_wf (b : Bus) : Prop := {
  bw_pmem : mem_wf (pmem b);
  bw_io : io_wf (io b);
  bw_csr : csr_wf (csrf b);
}.

(** What an access may do to the rest: the CSR file is untouched and a bad
    status is never cleared. *)
Definition bus_le (b b' : Bus) : Prop := csrf b' = csrf b /\ sim_le (sim b) (sim b').

#[export] Instance bus_le_preorder : PreOrder bus_le.
Proof.
  split; [done |]. intros a b c [? ?] [? ?]. split; [congruence | by etransitivity].
Qed.

Lemma bus_pmp_check_wf addr ex wr b : bus_wf b ->
  let b' := (bus_pmp_check addr ex wr b).2 in
  bus_wf b' /\ bus_le b b' /\ pmem b' = pmem b /\ io b' = io b.
Proof.
  intros [? ? ?]. unfold bus_pmp_check, pmp_check. cbv zeta.
  destruct (pmp_allows _ _ _ _ _); cbn; (split; [by split | split; [by split | done]]).
Qed.

Lemma host_read_pmem_word b p len : bus_wf b -> is_word (host_read (pmem b) p len).
Proof. intros [? ? ?]. by apply host_read_word. Qed.

Lemma paddr_read_wf addr len b v b' : bus_wf b -> paddr_read addr len b = Ok (v, b') ->
  bus_wf b' /\ bus_le b b' /\ pmem b' = pmem b /\ is_word v.
Proof.
  intros Hb E. unfold paddr_read in E.
  pose proof (bus_pmp_check_wf addr false false b Hb) as (Hb1 & Hle & Hp1 & _).
  destruct (bus_pmp_check addr false false b) as [ok b1]. cbn in *.
  destruct (in_pmem (low32 addr)).
  { case_if_in E; inv_res. split; [done | split; [done | split; [done |]]].
    by apply host_read_pmem_word. }
  assert (Hmm : forall d, mmio_read (low32 addr) len (io b1) = Ok (v, d) ->
    bus_wf {| b1 with io := d |} /\ is_word v).
  { intros d Hd. apply mmio_read_wf in Hd as [Hd ?]; [| apply Hb1].
    destruct Hb1. by split. }
  destruct (g_fb_base (io b1)); [case_if_in E |]; inv_res.
  - split; [done | split; [done | split; [done |]]]. unfold io_get in *.
    destruct (host_ok _ _ _); inv_res. apply host_read_word, Hb1.
  - destruct x as [v' d]. inv_res. destruct (Hmm _ H). done.
  - destruct x as [v' d]. inv_res. destruct (Hmm _ H). done.
Qed.

Lemma paddr_write_wf addr len v b b' : bus_wf b -> paddr_write addr len v b = Ok b' ->
  bus_wf b' /\ bus_le b b'.
Proof.
  intros Hb E. unfold paddr_write in E.
  pose proof (bus_pmp_check_wf addr false true b Hb) as (Hb1 & Hle & Hp1 & _).
  destruct (bus_pmp_check addr false true b) as [ok b1]. cbn in *. pose proof Hb1 as [Hm Hi Hc].
  destruct (in_pmem (low32 addr)).
  { case_if_in E; inv_res. split; [| done]. split; cbn; try done. by apply host_write_wf. }
  destruct (g_fb_base (io b1)); [case_if_in E |]; inv_res; (split; [| done]); split; cbn; try done.
  - by eapply io_put_wf.
  - by eapply mmio_write_wf.
  - by eapply mmio_write_wf.
Qed.

(** ** Properties of the physical access path *)

(** The framebuffer fast path is only an optimisation.  With the devices
    of [main] registered, an access whose (masked) address lies in the
    framebuffer has exactly the result and the effect of dispatching it through
    [mmio_read] / [mmio_write], for every width, errors included. *)
Theorem fb_fast_path addr len v b : bus_wf b -> in_fb (low32 addr) = true ->
  paddr_read addr len b =
    (let b1 := (bus_pmp_check addr false false b).2 in
     '(x, d) ← mmio_read (low32 addr) len (io b1); Ok (x, {| b1 with io := d |})) /\
  paddr_write addr len v b =
    (let b1 := (bus_pmp_check addr false true b).2 in
     d ← mmio_write (low32 addr) len v (io b1); Ok {| b1 with io := d |}).
Proof.
  intros Hb Hfb. set (a := low32 addr) in *.
  assert (Hr : 0xa1000000 <= a <= 0xa10752ff).
  { unfold in_fb, CONFIG_FB_ADDR, FB_SIZE, SCREEN_W, SCREEN_H in Hfb. zify_bool. lia. }
  assert (Hp : in_pmem a = false) by (unfold in_pmem, MBASE, MSIZE; lia).
  assert (Hin : map_inside (mkIOMap "vmem" 0xa1000000 0xa10752ff 12288 None) a = true)
    by (unfold map_inside; cbn [low high]; lia).
  assert (Hoff : wrap64 (a - 0xa1000000) = a - CONFIG_FB_ADDR)
    by (apply wrap64_small; unfold is_word, CONFIG_FB_ADDR; lia).
  unfold paddr_read, paddr_write. split.
  - destruct (bus_pmp_check_wf addr false false b Hb) as (Hb1 & _).
    destruct (bus_pmp_check addr false false b) as [ok b1]. cbn [snd] in *. cbv zeta. fold a.
    rewrite Hp, (iw_fb _ (bw_io _ Hb1)), Hfb. unfold mmio_read.
    rewrite (fetch_mmio_boot _ a _ 3 (bw_io _ Hb1) eq_refl Hin).
    unfold map_read. cbn [low callback invoke_callback mbind Res_bind space]. rewrite Hoff.
    destruct (io_get _ _ _); [| done]. cbn. by destruct b1.
  - destruct (bus_pmp_check_wf addr false true b Hb) as (Hb1 & _).
    destruct (bus_pmp_check addr false true b) as [ok b1]. cbn [snd] in *. cbv zeta. fold a.
    rewrite Hp, (iw_fb _ (bw_io _ Hb1)), Hfb. unfold mmio_write.
    rewrite (fetch_mmio_boot _ a _ 3 (bw_io _ Hb1) eq_refl Hin).
    unfold map_write. cbn [low callback invoke_callback mbind Res_bind space]. rewrite Hoff.
    destruct (io_put _ _ _ _); done.
Qed.

Definition boot_bus (d : IO) : Bus := mkBus sim_init csrfile_init ∅ d.

Lemma boot_bus_ok scancode_of tod poll : exists d,
  init_devices ∅ scancode_of (io_static tod poll) = Ok d /\ bus_wf (boot_bus d).
Proof.
  destruct (init_devices_ok ∅ scancode_of tod poll) as (d & E & Hd); [apply map_Forall_empty |].
  exists d. split; [done |]. split; cbn; [apply map_Forall_empty | done | apply csrfile_init_wf].
Qed.

Lemma fb_fast_path_witness :
  exists d, init_devices ∅ (fun _ => 0) (io_static (fun _ => (0, 0)) (fun _ => [])) = Ok d /\
    paddr_write 0xa1000004 4 0xff00ff (boot_bus d) =
    (d' ← mmio_write 0xa1000004 4 0xff00ff d; Ok (boot_bus d')).
Proof.
  destruct (boot_bus_ok (fun _ => 0) (fun _ => (0, 0)) (fun _ => [])) as (d & E & Hb).
  exists d. split; [exact E |].
  apply (fb_fast_path 0xa1000004 4 0xff00ff (boot_bus d) Hb). reflexivity.
Defined.

(** Memory holds what was stored, and the PMP is advisory.  A store of 1,
    2, 4 or 8 bytes inside [pmem] always succeeds, whatever the PMP says, and a
    load of the same width returns the stored value (truncated to the width);
    a denied store still changes memory and only marks the run aborted and
    bad. *)
Theorem pmem_store_load addr len v b : bus_wf b -> host_width len = true ->
  in_pmem (low32 addr) = true -> low32 addr + len <= MBASE + MSIZE ->
  exists b' b'', paddr_write addr len v b = Ok b' /\ paddr_read addr len b' = Ok (v mod 256 ^ len, b'') /\
    pmem b' = host_write (pmem b) (guest_to_host (low32 addr)) len v /\
    (pmp_allows (pmp (csrf b)) (priv_level (csrf b)) addr false true = false ->
       state (sim b') = NEMU_ABORT /\ status (sim b') = true) /\
    (pmp_allows (pmp (csrf b)) (priv_level (csrf b)) addr false true = true -> sim b' = sim b).
Proof.
  intros Hb Hw Hp Hl. set (a := low32 addr) in *.
  assert (Hok : host_ok MSIZE (guest_to_host a) len = true).
  { unfold host_ok, guest_to_host, in_pmem in *. rewrite Hw. zify_bool. lia. }
  unfold paddr_write, paddr_read. fold a.
  destruct (bus_pmp_check_wf addr false true b Hb) as (Hb1 & _ & Hpm & _).
  destruct (bus_pmp_check addr false true b) as [ok b1] eqn:E1. cbn [snd] in *.
  rewrite Hp, Hok. set (b2 := {| b1 with pmem := _ |}).
  destruct (bus_pmp_check addr false false b2) as [ok' b3] eqn:E2.
  assert (Hpm3 : pmem b3 = pmem b2) by (unfold bus_pmp_check in E2; destruct (pmp_check _ _ _ _ _ _); by inv_res; simplify_eq).
  exists b2, b3. split; [done |]. split.
  { rewrite E2, Hpm3. cbn [pmem b2]. by rewrite host_read_write. }
  split; [cbn; by rewrite Hpm |].
  unfold bus_pmp_check, pmp_check in E1. injection E1 as _ <-. cbn.
  split; intros ->; done.
Qed.

Lemma pmem_store_load_witness :
  exists d b' b'', init_devices ∅ (fun _ => 0) (io_static (fun _ => (0, 0)) (fun _ => [])) = Ok d /\
    paddr_write 0x80001000 2 0x12345 (boot_bus d) = Ok b' /\
    paddr_read 0x80001000 2 b' = Ok (0x2345, b'').
Proof.
  destruct (boot_bus_ok (fun _ => 0) (fun _ => (0, 0)) (fun _ => [])) as (d & E & Hb).
  destruct (pmem_store_load 0x80001000 2 0x12345 (boot_bus d) Hb) as (b' & b'' & H1 & H2 & _).
  - reflexivity.
  - reflexivity.
  - vm_compute. congruence.
  - exists d, b', b''. split; [exact E | split; [exact H1 | exact H2]].
Defined.
