(* ===== verification/GuestMem.v ===== *)
(** * Memory as guest programs see it

    The C library and the device drivers of the guest (am/) read and write
    memory through pointers.  [GuestMemory] is the interface they are written
    against, [GuestLaws] what they rely on: some addresses ([plain]) behave as
    bytes of memory, and an access to them changes nothing else.  The file
    makes the simulator's bus an instance: the plain addresses are those of
    [pmem] and of the frame buffer, so that the guest's theorems are about the
    machine the other files model. *)

From S2P Require Import Prelude Word State Pmp Csr Mmio Mem.

(** [ld a len] and [st a len v]: an access of [len] bytes at address [a]. *)
Class GuestMemory (M : Type) := {
  ld : Z -> Z -> M -> Res (Z * M);
  st : Z -> Z -> Z -> M -> Res M;
}.

(** The range of [len] bytes at [a], and its bytes in a memory seen as a function. *)
Definition within (a len x : Z) : bool := (a <=? x) && (x <? a + len).
Definition view_bytes (f : Z -> Z) (a : Z) (n : nat) : list Z := f <$> seqZ_from a n.

Class GuestLaws (M : Type) `{GuestMemory M} := {
  g_inv : M -> Prop;
  plain : Z -> Prop;
  byte_at : M -> Z -> Z;
  (** what accesses to plain memory never change *)
  g_le : relation M;
  g_le_pre :: PreOrder g_le;
  byte_at_byte m a : g_inv m -> plain a -> is_byte (byte_at m a);
  ld_plain m a len : g_inv m -> host_width len = true -> (forall x, within a len x = true -> plain x) ->
    exists m', ld a len m = Ok (le_word (view_bytes (byte_at m) a (Z.to_nat len)), m') /\
      g_inv m' /\ g_le m m' /\ forall x, plain x -> byte_at m' x = byte_at m x;
  st_plain m a len v : g_inv m -> host_width len = true -> (forall x, within a len x = true -> plain x) ->
    exists m', st a len v m = Ok m' /\ g_inv m' /\ g_le m m' /\
      forall x, plain x -> byte_at m' x =
        if within a len x then arr (le_bytes (Z.to_nat len) v) (x - a) else byte_at m x;
}.

(** A range of plain addresses. *)
Definition plain_range {M} `{GuestLaws M} (a len : Z) : Prop := forall x, within a len x = true -> plain x.

(** An eight-byte access through an [uint64_t *]: undefined unless aligned. *)
Definition ld_word {M} `{GuestMemory M} (p : Z) (m : M) : Res (Z * M) :=
  _ ← ensure Undefined (Z.land p 7 =? 0); ld p 8 m.
Definition st_word {M} `{GuestMemory M} (p v : Z) (m : M) : Res M :=
  _ ← ensure Undefined (Z.land p 7 =? 0); st p 8 v m.

(** ** Reasoning with views

    [runs m r f]: the computation [r], started in [m], succeeds, changes
    nothing but plain memory, and leaves there the bytes [f]. *)

Definition settles {M} `{GuestLaws M} (m m' : M) (f : Z -> Z) : Prop :=
  g_inv m' /\ g_le m m' /\ forall x, plain x -> byte_at m' x = f x.

Definition runs {M} `{GuestLaws M} (m : M) (r : Res M) (f : Z -> Z) : Prop :=
  exists m', r = Ok m' /\ settles m m' f.

(** The bytes after a store of the list [bs] at [a]. *)
Definition put_view (f : Z -> Z) (a : Z) (bs : list Z) (x : Z) : Z :=
  if within a (Z.of_nat (length bs)) x then arr bs (x - a) else f x.

Lemma within_true a len x : within a len x = true <-> a <= x < a + len.
Proof. unfold within. rewrite andb_true_iff, Z.leb_le, Z.ltb_lt. lia. Qed.

Lemma within_false a len x : within a len x = false <-> ~ (a <= x < a + len).
Proof. rewrite <- not_true_iff_false. by rewrite within_true. Qed.

Lemma within_spec a len x : reflect (a <= x < a + len) (within a len x).
Proof. apply iff_reflect. symmetry. apply within_true. Qed.

Lemma view_bytes_ext f g a n : (forall x, a <= x < a + Z.of_nat n -> f x = g x) ->
  view_bytes f a n = view_bytes g a n.
Proof.
  intros E. unfold view_bytes. apply list_fmap_ext. intros i x Hx.
  apply E. by apply list_elem_of_lookup_2, elem_of_seqZ_from in Hx.
Qed.

Lemma length_view_bytes f a n : length (view_bytes f a n) = n.
Proof. unfold view_bytes. by rewrite length_fmap, length_seqZ_from. Qed.

Lemma arr_view_bytes f a n i : 0 <= i < Z.of_nat n -> arr (view_bytes f a n) i = f (a + i).
Proof.
  intros Hi. unfold arr, view_bytes. apply list_lookup_total_correct.
  rewrite list_lookup_fmap, lookup_seqZ_from by lia. cbn. do 2 f_equal. lia.
Qed.

Section Views.
Context {M : Type} `{GuestLaws M}.
Implicit Types (m : M) (f : Z -> Z).

Lemma plain_range_sub a len a' len' : plain_range a len -> a <= a' -> a' + len' <= a + len ->
  plain_range a' len'.
Proof. intros Hp H1 H2 x Hx. apply Hp. rewrite within_true in *. lia. Qed.

Lemma plain_range_in a len x : plain_range a len -> a <= x < a + len -> plain x.
Proof. intros Hp Hx. apply Hp. by rewrite within_true. Qed.

Lemma settles_refl m : g_inv m -> settles m m (byte_at m).
Proof. intros Hm. by split. Qed.

Lemma settles_trans m m1 m2 f f' : settles m m1 f -> settles m1 m2 f' -> settles m m2 f'.
Proof. intros (_ & H1 & _) (H2 & H3 & H4). split; [done |]. split; [by etransitivity | done]. Qed.

Lemma settles_ext m m' f f' : settles m m' f -> (forall x, plain x -> f x = f' x) -> settles m m' f'.
Proof. intros (H1 & H2 & H3) E. split; [done |]. split; [done |]. intros x Hx. by rewrite H3, E. Qed.

Lemma runs_ret m m' f : settles m m' f -> runs m (Ok m') f.
Proof. intros Hs. by exists m'. Qed.

Lemma runs_ext m r f f' : runs m r f -> (forall x, plain x -> f x = f' x) -> runs m r f'.
Proof. intros (m' & E & Hs) Hf. exists m'. split; [done | by eapply settles_ext]. Qed.

Lemma runs_trans m m1 r f f' : settles m m1 f -> runs m1 r f' -> runs m r f'.
Proof. intros Hs (m' & E & Hs'). exists m'. split; [done | by eapply settles_trans]. Qed.

(** Reading one byte. *)
Lemma ld_byte m a : g_inv m -> plain a ->
  exists m', ld a 1 m = Ok (byte_at m a, m') /\ settles m m' (byte_at m).
Proof.
  intros Hm Ha. destruct (ld_plain m a 1) as (m' & E & H1 & H2 & H3); [done | done | |].
  { intros x Hx. apply within_true in Hx. by replace x with a by lia. }
  exists m'. split; [| done]. rewrite E. do 2 f_equal.
  change (le_word [byte_at m a] = byte_at m a). cbn [le_word]. lia.
Qed.

(** Reading a byte of a memory whose bytes are known. *)
Lemma ld_byte_view m0 m f a : settles m0 m f -> plain a ->
  exists m', ld a 1 m = Ok (f a, m') /\ settles m0 m' f.
Proof.
  intros Hs Ha. pose proof Hs as (Hm & _ & Hf).
  destruct (ld_byte m a Hm Ha) as (m' & E & Hs'). exists m'. rewrite E, Hf by done.
  split; [done |]. eapply settles_ext; [by eapply settles_trans |]. done.
Qed.

Lemma st_byte_view m0 m f a v : settles m0 m f -> plain a ->
  exists m', st a 1 v m = Ok m' /\ settles m0 m' (put_view f a [v mod 256]).
Proof.
  intros Hs Ha. pose proof Hs as (Hm & _ & Hf).
  destruct (st_plain m a 1 v) as (m' & E & H1 & H2 & H3); [done | done | |].
  { intros x Hx. apply within_true in Hx. by replace x with a by lia. }
  exists m'. split; [done |]. eapply settles_trans; [done |]. split; [done |]. split; [done |].
  intros x Hx. rewrite H3 by done. unfold put_view. cbn [length].
  change (Z.of_nat 1) with 1. destruct (within_spec a 1 x) as [Hr|Hr]; [done | by apply Hf].
Qed.

Lemma ld_word_view m0 m f p : settles m0 m f -> Z.land p 7 = 0 -> plain_range p 8 ->
  exists m', ld_word p m = Ok (le_word (view_bytes f p 8), m') /\ settles m0 m' f.
Proof.
  intros Hs Hal Hp. pose proof Hs as (Hm & _ & Hf).
  destruct (ld_plain m p 8 Hm eq_refl Hp) as (m' & E & H1 & H2 & H3).
  exists m'. unfold ld_word. rewrite Hal. cbn [Z.eqb ensure mbind Res_bind]. rewrite E. split.
  - do 3 f_equal. apply view_bytes_ext. intros x Hx. apply Hf, Hp. rewrite within_true. lia.
  - eapply settles_trans; [done |]. split; [done |]. split; [done |].
    intros x Hx. rewrite H3 by done. by apply Hf.
Qed.

Lemma st_word_view m0 m f p v : settles m0 m f -> Z.land p 7 = 0 -> plain_range p 8 ->
  exists m', st_word p v m = Ok m' /\ settles m0 m' (put_view f p (le_bytes 8 v)).
Proof.
  intros Hs Hal Hp. pose proof Hs as (Hm & _ & Hf).
  destruct (st_plain m p 8 v Hm eq_refl Hp) as (m' & E & H1 & H2 & H3).
  exists m'. unfold st_word. rewrite Hal. cbn [Z.eqb ensure mbind Res_bind]. rewrite E. split; [done |].
  eapply settles_trans; [done |]. split; [done |]. split; [done |].
  intros x Hx. rewrite H3 by done. unfold put_view. rewrite length_le_bytes.
  change (Z.to_nat 8) with 8%nat. change (Z.of_nat 8) with 8.
  destruct (within_spec p 8 x) as [Hr|Hr]; [done | by apply Hf].
Qed.

Lemma view_byte m0 m f a : settles m0 m f -> plain a -> is_byte (f a).
Proof. intros (Hm & _ & Hf) Ha. rewrite <- Hf by done. by apply byte_at_byte. Qed.

(** A word read is a word of eight bytes. *)
Lemma view_bytes_byte m0 m f a n : settles m0 m f -> plain_range a (Z.of_nat n) ->
  Forall is_byte (view_bytes f a n).
Proof.
  intros Hs Hp. apply Forall_fmap, Forall_forall. intros x Hx. apply elem_of_seqZ_from in Hx.
  cbn. eapply view_byte; [done |]. by eapply plain_range_in.
Qed.
End Views.

#[export] Hint Resolve plain_range_in : emu.

(** Plain addresses and ranges from the ranges at hand. *)
Ltac in_plain :=
  match goal with
  | Hr : plain_range ?a ?l |- plain_range _ _ => solve [apply (plain_range_sub a l); [exact Hr | lia | lia]]
  | Hr : plain_range ?a ?l |- plain ?x => solve [apply (plain_range_in a l x Hr); lia]
  end.

(** ** The bus as guest memory

    Loads and stores are [paddr_read] and [paddr_write].  The plain addresses
    are [pmem] and the frame buffer; accesses there touch neither the CSR file
    nor any device: of the I/O space only the frame buffer's bytes change. *)

#[export] Instance Bus_guest : GuestMemory Bus := { ld := paddr_read; st := paddr_write }.

Definition fb_space : Z := 12288.

Definition bus_plain (a : Z) : Prop := in_pmem a = true \/ in_fb a = true.

Definition bus_byte (b : Bus) (a : Z) : Z :=
  if in_pmem a then mem_get (pmem b) (guest_to_host a)
  else mem_get (io_space (io b)) (fb_space + (a - CONFIG_FB_ADDR)).

(** The I/O space outside the frame buffer, and everything else of the devices. *)
Definition io_but_fb (d d' : IO) : Prop :=
  d' = {| d with io_space := io_space d' |} /\
  forall p, ~ (fb_space <= p < fb_space + FB_SIZE) -> mem_get (io_space d') p = mem_get (io_space d) p.

Definition bus_plain_le (b b' : Bus) : Prop := csrf b' = csrf b /\ io_but_fb (io b) (io b').

#[export] Instance io_but_fb_pre : PreOrder io_but_fb.
Proof.
  split.
  - intros d. split; [by destruct d | done].
  - intros a b c [H1 H2] [H3 H4]. split.
    + rewrite H3, H1. by destruct a.
    + intros p Hp. by rewrite H4, H2.
Qed.

#[export] Instance bus_plain_le_pre : PreOrder bus_plain_le.
Proof.
  split; [by split |]. intros a b c [H1 H2] [H3 H4].
  split; [congruence | by etransitivity].
Qed.

Lemma host_read_bytes m a len : host_width len = true ->
  host_read m a len = le_word (mem_bytes m a (Z.to_nat len)).
Proof. intros Hw. unfold host_read. by rewrite Hw. Qed.

Lemma host_width_range len : host_width len = true -> 1 <= len <= 8.
Proof. unfold host_width. lia. Qed.

Lemma mem_get_host_write m a len v x : host_width len = true ->
  mem_get (host_write m a len v) x =
  if within a len x then arr (le_bytes (Z.to_nat len) v) (x - a) else mem_get m x.
Proof.
  intros Hw. pose proof (host_width_range _ Hw). unfold host_write. rewrite Hw, mem_get_put, length_le_bytes.
  unfold within. by rewrite Z2Nat.id by lia.
Qed.

(** A range of plain addresses lies in one of the two regions. *)
Lemma bus_plain_range a len : host_width len = true -> (forall x, within a len x = true -> bus_plain x) ->
  low32 a = a /\
  ((in_pmem a = true /\ MBASE <= a /\ a + len <= MBASE + MSIZE) \/
   (in_pmem a = false /\ in_fb a = true /\ CONFIG_FB_ADDR <= a /\ a + len <= CONFIG_FB_ADDR + FB_SIZE)).
Proof.
  intros Hw Hp. apply host_width_range in Hw.
  pose proof (Hp a ltac:(apply within_true; lia)) as H1.
  pose proof (Hp (a + len - 1) ltac:(apply within_true; lia)) as H2.
  unfold bus_plain, in_pmem, in_fb, MBASE, MSIZE, CONFIG_FB_ADDR, FB_SIZE, SCREEN_W, SCREEN_H in *.
  split; [apply low32_small; lia |]. lia.
Qed.

Lemma bus_byte_pmem b x : in_pmem x = true -> bus_byte b x = mem_get (pmem b) (guest_to_host x).
Proof. intros E. unfold bus_byte. by rewrite E. Qed.

Lemma bus_byte_fb b x : in_pmem x = false ->
  bus_byte b x = mem_get (io_space (io b)) (fb_space + (x - CONFIG_FB_ADDR)).
Proof. intros E. unfold bus_byte. by rewrite E. Qed.

Lemma in_fb_not_pmem x : in_fb x = true -> in_pmem x = false.
Proof. unfold in_fb, in_pmem, CONFIG_FB_ADDR, MBASE, MSIZE. lia. Qed.

Lemma host_ok_inside size p len : 0 <= p -> p + len <= size -> host_ok size p len = true.
Proof. intros. unfold host_ok. lia. Qed.

Lemma bus_ld_plain b a len : bus_wf b -> host_width len = true ->
  (forall x, within a len x = true -> bus_plain x) ->
  exists b', paddr_read a len b = Ok (le_word (view_bytes (bus_byte b) a (Z.to_nat len)), b') /\
    bus_wf b' /\ bus_plain_le b b' /\ forall x, bus_plain x -> bus_byte b' x = bus_byte b x.
Proof.
  intros Hb Hw Hp. pose proof (host_width_range _ Hw) as Hlen.
  destruct (bus_plain_range a len Hw Hp) as [Hlow Hreg]. unfold paddr_read. rewrite Hlow.
  destruct (bus_pmp_check_wf a false false b Hb) as (Hb1 & [Hc _] & Hpm & Hio).
  destruct (bus_pmp_check a false false b) as [ok b1]. cbn [snd] in *.
  assert (Hrest : bus_wf b1 /\ bus_plain_le b b1 /\ forall x, bus_plain x -> bus_byte b1 x = bus_byte b x).
  { split; [done |]. split; [split; [done | by rewrite Hio] |].
    intros x _. unfold bus_byte. by rewrite Hpm, Hio. }
  destruct Hreg as [(E & H1 & H2)|(E & Ef & H1 & H2)]; rewrite E.
  - rewrite host_ok_inside by (unfold guest_to_host, MBASE, MSIZE in *; lia).
    exists b1. split; [| done]. do 2 f_equal. rewrite host_read_bytes by done. f_equal.
    apply list_eq_arr; rewrite length_mem_bytes; [by rewrite length_view_bytes |]. intros i Hi.
    rewrite arr_mem_bytes, arr_view_bytes by done. rewrite bus_byte_pmem.
    + rewrite Hpm. f_equal. unfold guest_to_host. lia.
    + unfold in_pmem. lia.
  - rewrite (iw_fb _ (bw_io _ Hb1)), Ef. unfold io_get.
    rewrite host_ok_inside by (unfold FB_SIZE, CONFIG_FB_ADDR, SCREEN_W, SCREEN_H, IO_SPACE_MAX in *; lia).
    exists b1. split; [| done]. cbn [mbind Res_bind]. do 2 f_equal. rewrite host_read_bytes by done. f_equal.
    apply list_eq_arr; rewrite length_mem_bytes; [by rewrite length_view_bytes |]. intros i Hi.
    rewrite arr_mem_bytes, arr_view_bytes by done. rewrite bus_byte_fb.
    + rewrite Hio. f_equal. unfold fb_space. lia.
    + apply in_fb_not_pmem. unfold in_fb in *. lia.
Qed.

Lemma bus_st_plain b a len v : bus_wf b -> host_width len = true ->
  (forall x, within a len x = true -> bus_plain x) ->
  exists b', paddr_write a len v b = Ok b' /\ bus_wf b' /\ bus_plain_le b b' /\
    forall x, bus_plain x -> bus_byte b' x =
      if within a len x then arr (le_bytes (Z.to_nat len) v) (x - a) else bus_byte b x.
Proof.
  intros Hb Hw Hp. pose proof (host_width_range _ Hw) as Hlen.
  destruct (bus_plain_range a len Hw Hp) as [Hlow Hreg].
  destruct (paddr_write a len v b) as [b'|e] eqn:E0.
  2: { exfalso. revert E0. unfold paddr_write. rewrite Hlow.
    destruct (bus_pmp_check_wf a false true b Hb) as (Hb1 & _).
    destruct (bus_pmp_check a false true b) as [ok b1]. cbn [snd] in *.
    destruct Hreg as [(E & H1 & H2)|(E & Ef & H1 & H2)]; rewrite E.
    - by rewrite host_ok_inside by (unfold guest_to_host, MBASE, MSIZE in *; lia).
    - rewrite (iw_fb _ (bw_io _ Hb1)), Ef. unfold io_put.
      by rewrite host_ok_inside by (unfold FB_SIZE, CONFIG_FB_ADDR, SCREEN_W, SCREEN_H, IO_SPACE_MAX in *; lia). }
  exists b'. split; [done |]. destruct (paddr_write_wf _ _ _ _ _ Hb E0) as [Hwf [Hc _]].
  split; [done |]. revert E0. unfold paddr_write. rewrite Hlow.
  destruct (bus_pmp_check_wf a false true b Hb) as (Hb1 & _ & Hpm & Hio).
  destruct (bus_pmp_check a false true b) as [ok b1]. cbn [snd] in *.
  destruct Hreg as [(E & H1 & H2)|(E & Ef & H1 & H2)]; rewrite E.
  - case_if; [| done]. intros E1. injection E1 as <-. split; [split; [done | cbn; by rewrite Hio] |].
    intros x Hx. unfold bus_byte. cbn [pmem io]. rewrite Hpm, Hio.
    destruct (in_pmem x) eqn:Ex.
    + rewrite mem_get_host_write by done. unfold within, guest_to_host.
      replace (x - MBASE - (a - MBASE)) with (x - a) by lia.
      by repeat case_if; zify_bool; try lia.
    + destruct (within_spec a len x); [exfalso; unfold in_pmem in *; lia | done].
  - rewrite (iw_fb _ (bw_io _ Hb1)), Ef. unfold io_put. case_if; [| done]. cbn [mbind Res_bind].
    intros E2. injection E2 as <-. rewrite Hio. split; [split; [done |] |].
    + split; [done |]. cbn [io io_space]. intros p Hpx. rewrite mem_get_host_write by done.
      destruct (within_spec (12288 + (a - CONFIG_FB_ADDR)) len p); [| done].
      exfalso. unfold fb_space in *. lia.
    + intros x Hx. unfold bus_byte. cbn [pmem io io_space]. rewrite Hpm.
      destruct (in_pmem x) eqn:Ex.
      * destruct (within_spec a len x); [exfalso; unfold in_pmem, in_fb, MBASE, MSIZE, CONFIG_FB_ADDR in *; lia | done].
      * rewrite mem_get_host_write by done. unfold within, fb_space.
        replace (12288 + (x - CONFIG_FB_ADDR) - (12288 + (a - CONFIG_FB_ADDR))) with (x - a) by lia.
        by repeat case_if; zify_bool; try lia.
Qed.

Lemma bus_byte_byte b a : bus_wf b -> bus_plain a -> is_byte (bus_byte b a).
Proof. intros Hb _. unfold bus_byte. case_if; apply mem_get_byte; apply Hb. Qed.

#[export] Instance Bus_guest_laws : GuestLaws Bus := {|
  g_inv := bus_wf;
  plain := bus_plain;
  byte_at := bus_byte;
  g_le := bus_plain_le;
  byte_at_byte := bus_byte_byte;
  ld_plain := bus_ld_plain;
  st_plain := bus_st_plain;
|}.

Lemma bus_plain_pmem a len : MBASE <= a -> a + len <= MBASE + MSIZE -> plain_range (M := Bus) a len.
Proof. intros H1 H2 x Hx. apply within_true in Hx. left. unfold in_pmem. lia. Qed.

Lemma bus_plain_fb a len : CONFIG_FB_ADDR <= a -> a + len <= CONFIG_FB_ADDR + FB_SIZE ->
  plain_range (M := Bus) a len.
Proof. intros H1 H2 x Hx. apply within_true in Hx. right. unfold in_fb. lia. Qed.

(** ** Device registers

    An access outside [pmem] and the frame buffer goes to the devices and leaves
    [pmem] and the CSR file alone. *)

Definition device_addr (a : Z) : bool := (low32 a =? a) && negb (in_pmem a) && negb (in_fb a).

Definition bus_device_step (b b' : Bus) (d : IO) : Prop :=
  bus_wf b' /\ io b' = d /\ pmem b' = pmem b /\ csrf b' = csrf b.

Lemma device_addr_true a : device_addr a = true -> low32 a = a /\ in_pmem a = false /\ in_fb a = false.
Proof. unfold device_addr. intros E. zify_bool. done. Qed.

Lemma bus_device_read b a len v d : bus_wf b -> device_addr a = true -> mmio_read a len (io b) = Ok (v, d) ->
  exists b', paddr_read a len b = Ok (v, b') /\ bus_device_step b b' d.
Proof.
  intros Hb (Hl & Hp & Hf)%device_addr_true Hd. unfold paddr_read. rewrite Hl, Hp.
  destruct (bus_pmp_check_wf a false false b Hb) as (Hb1 & [Hc _] & Hp1 & Hio1).
  destruct (bus_pmp_check a false false b) as [ok b1]. cbn [snd] in *.
  rewrite (iw_fb _ (bw_io _ Hb1)), Hf, Hio1, Hd. cbn [mbind Res_bind]. eexists. split; [done |].
  split; [| done]. apply mmio_read_wf in Hd as [Hd _]; [| apply Hb]. destruct Hb1. by split.
Qed.

Lemma bus_device_write b a len v d : bus_wf b -> device_addr a = true -> mmio_write a len v (io b) = Ok d ->
  exists b', paddr_write a len v b = Ok b' /\ bus_device_step b b' d.
Proof.
  intros Hb (Hl & Hp & Hf)%device_addr_true Hd. unfold paddr_write. rewrite Hl, Hp.
  destruct (bus_pmp_check_wf a false true b Hb) as (Hb1 & [Hc _] & Hp1 & Hio1).
  destruct (bus_pmp_check a false true b) as [ok b1]. cbn [snd] in *.
  rewrite (iw_fb _ (bw_io _ Hb1)), Hf, Hio1, Hd. cbn [mbind Res_bind]. eexists. split; [done |].
  split; [| done]. apply mmio_write_wf in Hd; [| apply Hb]. destruct Hb1. by split.
Qed.
