(* ===== verification/Ringbuf.v ===== *)
(** * The instruction trace (src/monitor/ringbuf.c and the trace of exec.c, ooo.c)

    The line that is written for an executed instruction, and the ring buffer
    that keeps the last fifteen of them.  The disassembler is a library; its
    text is a parameter. *)

From S2P Require Import Prelude Word.
From Stdlib Require Import Ascii.

(** ** The ring buffer of ringbuf.c *)

Definition RINGBUFSIZE : Z := 15.

Record ringbuf := mkRingbuf {
  buf : list (list ascii);  (** [char buf[RINGBUFSIZE][128]] *)
  pointer : Z;
}.

Definition ringbuf_static : ringbuf := mkRingbuf (replicate (Z.to_nat RINGBUFSIZE) []) 0.

Definition add_ringbuf_inst (inst : list ascii) (rb : ringbuf) : Res ringbuf :=
  _ ← ensure Undefined (Z.of_nat (length inst) <? 128);
  Ok (mkRingbuf (upd (buf rb) (pointer rb) inst) ((pointer rb + 1) mod RINGBUFSIZE)).

(** The lines in the order they were added, oldest first. *)
Definition ring_lines (rb : ringbuf) : list (list ascii) :=
  (fun i => arr (buf rb) ((pointer rb + i) mod RINGBUFSIZE)) <$> seqZ_from 0 (Z.to_nat RINGBUFSIZE).

(** ** The line of one instruction

    [sprintf("%016lx:    ", pc)], the four bytes from the most significant one
    with [%02x ], three blanks and the disassembly. *)

Definition hex_char (d : Z) : ascii :=
  ascii_of_N (Z.to_N (if d <? 10 then 48 + d else 87 + d)).

Fixpoint hex (n : nat) (v : Z) : list ascii :=
  match n with
  | O => []
  | S n => hex n (v / 16) ++ [hex_char (v mod 16)]
  end.

Definition trace_line (pc raw : Z) (disassembly : list ascii) : list ascii :=
  hex 16 pc ++ String.list_ascii_of_string ":    " ++
  hex 2 (BITS raw 31 24) ++ [" "%char] ++ hex 2 (BITS raw 23 16) ++ [" "%char] ++
  hex 2 (BITS raw 15 8) ++ [" "%char] ++ hex 2 (BITS raw 7 0) ++ [" "%char] ++
  String.list_ascii_of_string "   " ++ disassembly.

Lemma length_hex n v : length (hex n v) = n.
Proof. revert v. induction n as [|n IH]; intros v; cbn [hex]; [done |]. rewrite length_app, IH. cbn. lia. Qed.

(** The disassembly starts at column 36, the offset the code writes it to. *)
Lemma length_trace_line pc raw d : length (trace_line pc raw d) = (36 + length d)%nat.
Proof. unfold trace_line. rewrite !length_app, !length_hex. cbn [length String.list_ascii_of_string]. lia. Qed.

(** ** The ring buffer keeps the last fifteen lines *)

Lemma ringbuf_last inst rb rb' : length (buf rb) = Z.to_nat RINGBUFSIZE -> 0 <= pointer rb < RINGBUFSIZE ->
  add_ringbuf_inst inst rb = Ok rb' ->
  length (buf rb') = Z.to_nat RINGBUFSIZE /\ 0 <= pointer rb' < RINGBUFSIZE /\
  ring_lines rb' = tail (ring_lines rb) ++ [inst].
Proof.
  intros Hl Hp E. unfold add_ringbuf_inst in E. inv_res. destruct rb as [l p]. cbn [buf pointer] in *.
  split_and!; [by rewrite length_upd | apply Z.mod_pos_bound; done.. |].
  do 15 (destruct l as [|? l]; [done |]). destruct l; [| done].
  assert (Hin : p ∈ seqZ_from 0 15) by (apply elem_of_seqZ_from; unfold RINGBUFSIZE in *; lia).
  unfold ring_lines. cbn [buf pointer]. clear -Hin. cbn [seqZ_from Z.add Pos.add Pos.succ] in Hin.
  elem_cases Hin; reflexivity.
Qed.

(** A disassembly of at most 91 characters fits the 128 bytes of a line. *)
Lemma trace_line_fits pc raw d rb : (length d <= 91)%nat ->
  exists rb', add_ringbuf_inst (trace_line pc raw d) rb = Ok rb'.
Proof.
  intros Hd. unfold add_ringbuf_inst. rewrite length_trace_line.
  rewrite (proj2 (Z.ltb_lt _ 128)) by lia. by eexists.
Qed.
