(* ===== verification/Ftrace.v ===== *)
(** * Function tracing (src/monitor/elftl.c)

    The symbol table as [init_elf] leaves it, symbol lookup in both directions,
    and the call/return trace that [jal] and [jalr] extend. *)

From S2P Require Import Prelude Word Ringbuf.
From Stdlib Require Import Ascii.

(** A symbol table entry of <elf.h>. *)
Record Elf64_Sym := mkSym {
  st_name : Z;            (** where its name starts in [strtab] *)
  st_info : Z;
  st_other : Z;
  st_shndx : Z;
  st_value : Z;
  st_size : Z;
}.

Record ftrace_element := mkFtraceElement {
  func_name : option Z;   (** [&strtab[i]], or null *)
  ft_addr : Z;
  is_call : bool;
  ft_depth : Z;
}.

(** The tables are allocated by [init_elf]; [trace] is the list from [head],
    and [tail_null] says whether [tail] is null. *)
Record Ftrace := mkFtrace {
  g_ftrace_en : bool;
  strtab : option (list Z);
  symtab : option (list Elf64_Sym);
  nr_symtab_entry : Z;
  depth : Z;
  trace : list ftrace_element;
  tail_null : bool;
}.

Definition ftrace_init : Ftrace := mkFtrace false None None 0 0 [] true.

(** ** Symbols *)

(** The entries the loops look at. *)
Definition entries (ft : Ftrace) : list Elf64_Sym :=
  take (Z.to_nat (nr_symtab_entry ft)) (default [] (symtab ft)).

(** [strcmp(buf, name) == 0] for a [name] without zero bytes: it reads [buf] up
    to the first difference, which must come before the end of the array. *)
Fixpoint strcmp_eq (buf name : list Z) : Res bool :=
  match buf, name with
  | [], _ => Err Undefined
  | c :: _, [] => Ok (c =? 0)
  | c :: buf, d :: name => if c =? d then strcmp_eq buf name else Ok false
  end.

(** [&strtab[i]] *)
Definition str_at (ft : Ftrace) (i : Z) : list Z := drop (Z.to_nat i) (default [] (strtab ft)).

(** [findSym] returns [-1] as a [uint64_t] when there is no such symbol. *)
Fixpoint findSym_from (ft : Ftrace) (syms : list Elf64_Sym) (nm : list Z) : Res Z :=
  match syms with
  | [] => Ok (2 ^ 64 - 1)
  | s :: syms =>
      hit ← strcmp_eq (str_at ft (st_name s)) nm;
      if hit : bool then Ok (st_value s) else findSym_from ft syms nm
  end.
Definition findSym (ft : Ftrace) (nm : list Z) : Res Z := findSym_from ft (entries ft) nm.

Definition sym_covers (addr : Z) (s : Elf64_Sym) : bool :=
  (st_value s <=? addr) && (addr <? (st_value s + st_size s)%word).

Definition findFunc (ft : Ftrace) (addr : Z) : option Z :=
  st_name <$> List.find (sym_covers addr) (entries ft).

(** ** The trace *)

Definition INT_MAX : Z := 2 ^ 31 - 1.
Definition INT_MIN : Z := - 2 ^ 31.

Definition put_depth (d : Z) (ft : Ftrace) : Ftrace := {| ft with depth := d |}.
Definition put_trace (tr : list ftrace_element) (ft : Ftrace) : Ftrace := {| ft with trace := tr; tail_null := false |}.

(** [depth++] and [depth--] of an [int] overflow. *)
Definition add_ftrace (addr : Z) (call : bool) (ft : Ftrace) : Res Ftrace :=
  if negb (g_ftrace_en ft) then Ok ft else
  let nm := findFunc ft addr in
  let d' := if call then depth ft + 1 else depth ft - 1 in
  _ ← ensure Undefined ((INT_MIN <=? d') && (d' <=? INT_MAX));
  let e := mkFtraceElement nm addr call (if call then depth ft else d') in
  let ft := put_depth d' ft in
  match trace ft, tail_null ft with
  | [], true => Ok (put_trace [e] ft)
  | [], false => Err Undefined        (** [tail] dangles after [delete_ftrace] *)
  | tr, _ => Ok (put_trace (tr ++ [e]) ft)
  end.

(** Frees the list and leaves [tail] pointing at the last freed element. *)
Definition delete_ftrace (ft : Ftrace) : Ftrace := {| ft with trace := [] |}.

(** [%s] of a string in [strtab]; printing a null pointer is undefined. *)
Fixpoint c_string (buf : list Z) : Res (list ascii) :=
  match buf with
  | [] => Err Undefined
  | c :: buf => if c =? 0 then Ok [] else s ← c_string buf; Ok (ascii_of_N (Z.to_N c) :: s)
  end.

Definition print_element (ft : Ftrace) (e : ftrace_element) : Res (list ascii) :=
  nm ← match func_name e with Some i => c_string (str_at ft i) | None => Err Undefined end;
  Ok (concat (replicate (Z.to_nat (ft_depth e)) (String.list_ascii_of_string "   ")) ++
      String.list_ascii_of_string (if is_call e then "call " else "ret ") ++ nm ++
      String.list_ascii_of_string " [" ++ hex 16 (ft_addr e) ++ ["]"%char]).

(** The lines that are printed. *)
Fixpoint print_ftrace_from (ft : Ftrace) (tr : list ftrace_element) : Res (list (list ascii)) :=
  match tr with
  | [] => Ok []
  | e :: tr => l ← print_element ft e; ls ← print_ftrace_from ft tr; Ok (l :: ls)
  end.
Definition print_ftrace (ft : Ftrace) : Res (list (list ascii)) := print_ftrace_from ft (trace ft).

Arguments put_depth : simpl never.
Arguments put_trace : simpl never.

(** With tracing off, as the simulator starts, [add_ftrace] does nothing. *)
Lemma add_ftrace_off addr call ft : g_ftrace_en ft = false -> add_ftrace addr call ft = Ok ft.
Proof. intros E. unfold add_ftrace. by rewrite E. Qed.

(** The depth of an element is the number of open calls before it. *)
Fixpoint open_calls (d0 : Z) (tr : list ftrace_element) : Z :=
  match tr with
  | [] => d0
  | e :: tr => open_calls (if is_call e then d0 + 1 else d0 - 1) tr
  end.

Fixpoint depths_ok (d0 : Z) (tr : list ftrace_element) : Prop :=
  match tr with
  | [] => True
  | e :: tr => ft_depth e = (if is_call e then d0 else d0 - 1) /\
      depths_ok (if is_call e then d0 + 1 else d0 - 1) tr
  end.

Lemma open_calls_app d0 tr e : open_calls d0 (tr ++ [e]) =
  if is_call e then open_calls d0 tr + 1 else open_calls d0 tr - 1.
Proof. revert d0. induction tr as [|x tr IH]; intros d0; cbn; [done | apply IH]. Qed.

Lemma depths_ok_app d0 tr e : depths_ok d0 tr ->
  ft_depth e = (if is_call e then open_calls d0 tr else open_calls d0 tr - 1) ->
  depths_ok d0 (tr ++ [e]).
Proof.
  revert d0. induction tr as [|x tr IH]; intros d0 Hd He; cbn in *; [done |].
  destruct Hd as [? ?]. split; [done |]. by apply IH.
Qed.

(** The call trace is well nested.  Starting from an empty trace, every
    call and return is appended in order with the name of the function that
    covers its address, calls at the current depth and returns one less: the
    recorded depths are those of the call stack. *)
Theorem add_ftrace_nesting addr call ft ft' :
  g_ftrace_en ft = true -> depths_ok 0 (trace ft) -> depth ft = open_calls 0 (trace ft) ->
  add_ftrace addr call ft = Ok ft' ->
  (exists e, trace ft' = trace ft ++ [e] /\ is_call e = call /\ ft_addr e = addr /\
     func_name e = findFunc ft addr) /\
  depths_ok 0 (trace ft') /\ depth ft' = open_calls 0 (trace ft').
Proof.
  intros Hen Hd Hdepth E. unfold add_ftrace in E. rewrite Hen in E. cbn [negb] in E.
  apply bind_Ok_inv in E as (u & _ & E).
  set (e := mkFtraceElement (findFunc ft addr) addr call (if call then depth ft else depth ft - 1)).
  assert (Ht : trace ft' = trace ft ++ [e] /\ depth ft' = if call then depth ft + 1 else depth ft - 1).
  { change (trace (put_depth _ ft)) with (trace ft) in E. change (tail_null (put_depth _ ft)) with (tail_null ft) in E.
    destruct call; cbn in E; destruct (trace ft) eqn:Et, (tail_null ft); inv_res; done. }
  destruct Ht as [Ht Hd']. rewrite Ht. split; [by exists e | split].
  - apply depths_ok_app; [done |]. cbn. by rewrite Hdepth.
  - rewrite open_calls_app, Hd', Hdepth. done.
Qed.

Lemma add_ftrace_nesting_witness :
  let ft := mkFtrace true (Some [0]) (Some [mkSym 0 0x12 0 1 0x80000000 0x40]) 1 0 [] true in
  exists ft', add_ftrace 0x80000010 true ft = Ok ft' /\ depth ft' = 1.
Proof.
  cbv zeta. eexists. split; [reflexivity |].
  eapply (add_ftrace_nesting 0x80000010 true (mkFtrace true (Some [0]) (Some [mkSym 0 0x12 0 1 0x80000000 0x40]) 1 0 [] true));
    [reflexivity | exact I | reflexivity | reflexivity].
Defined.
