(* ===== verification/Elf.v ===== *)
(** * Reading the symbol table (src/monitor/elftl.c, [init_elf])

    The ELF file is a list of bytes with a file position.  The structures of
    <elf.h> are read field by field in little-endian order, as on the hosts the
    simulator runs on.  [malloc] is assumed to succeed. *)

From S2P Require Import Prelude Word Ringbuf Ftrace.

(** ** Structures as bytes *)

(** The fields of the given widths. *)
Fixpoint fields (ws : list nat) (bs : list Z) : list Z :=
  match ws with
  | [] => []
  | w :: ws => le_word (take w bs) :: fields ws (drop w bs)
  end.

Definition ehdr_layout : list nat := [2; 2; 4; 8; 8; 8; 4; 2; 2; 2; 2; 2; 2]%nat.
Definition shdr_layout : list nat := [4; 4; 8; 8; 8; 8; 4; 4; 8; 8]%nat.
Definition sym_layout : list nat := [4; 1; 1; 2; 8; 8]%nat.

Definition EHDR_SIZE : Z := 64.
Definition SHDR_SIZE : Z := 64.
Definition SYM_SIZE : Z := 24.

Record Elf64_Ehdr := mkEhdr {
  e_ident : list Z;
  e_type : Z; e_machine : Z; e_version : Z; e_entry : Z; e_phoff : Z; e_shoff : Z; e_flags : Z;
  e_ehsize : Z; e_phentsize : Z; e_phnum : Z; e_shentsize : Z; e_shnum : Z; e_shstrndx : Z;
}.

Record Elf64_Shdr := mkShdr {
  sh_name : Z; sh_type : Z; sh_flags : Z; sh_addr : Z; sh_offset : Z; sh_size : Z;
  sh_link : Z; sh_info : Z; sh_addralign : Z; sh_entsize : Z;
}.

(** The buffer of the header as an [Elf64_Ehdr]. *)
Definition ehdr_of (bs : list Z) : Elf64_Ehdr :=
  let f := arr (fields ehdr_layout (drop 16 bs)) in
  mkEhdr (take 16 bs) (f 0) (f 1) (f 2) (f 3) (f 4) (f 5) (f 6) (f 7) (f 8) (f 9) (f 10) (f 11) (f 12).

Definition shdr_of (bs : list Z) : Elf64_Shdr :=
  let f := arr (fields shdr_layout bs) in
  mkShdr (f 0) (f 1) (f 2) (f 3) (f 4) (f 5) (f 6) (f 7) (f 8) (f 9).

Definition sym_of (bs : list Z) : Elf64_Sym :=
  let f := arr (fields sym_layout bs) in mkSym (f 0) (f 1) (f 2) (f 3) (f 4) (f 5).

(** A buffer read as an array of symbols: its whole entries. *)
Fixpoint syms_of (n : nat) (bs : list Z) : list Elf64_Sym :=
  match n with
  | O => []
  | S n => sym_of (take (Z.to_nat SYM_SIZE) bs) :: syms_of n (drop (Z.to_nat SYM_SIZE) bs)
  end.

(** ** Files *)

Record FILE := mkFile {
  contents : list Z;
  fpos : Z;
}.

(** [fseek(fp, off, SEEK_SET)]: the offset is a [long]; a negative one is
    refused and the position stays. *)
Definition fseek (off : Z) (fp : FILE) : FILE :=
  if off <? 2 ^ 63 then mkFile (contents fp) off else fp.

(** [ret = fread(buf, size, 1, fp); assert(ret == 1)]: the bytes read.  Zero
    bytes, or fewer than [size], make [ret] 0. *)
Definition fread_one (size : Z) (fp : FILE) : Res (list Z * FILE) :=
  let bs := take (Z.to_nat size) (drop (Z.to_nat (fpos fp)) (contents fp)) in
  _ ← ensure Assertion ((0 <? size) && (fpos fp + size <=? Z.of_nat (length (contents fp))));
  Ok (bs, mkFile (contents fp) (fpos fp + size)).

(** ** init_elf *)

Definition ET_EXEC : Z := 2.
Definition EV_CURRENT : Z := 1.
Definition SHT_SYMTAB : Z := 2.
Definition SHT_STRTAB : Z := 3.

Definition bytes_of_string (s : string) : list Z :=
  (fun c => Z.of_N (Ascii.N_of_ascii c)) <$> String.list_ascii_of_string s.

(** The assertions on the header, in their order. *)
Definition check_ehdr (elf : Elf64_Ehdr) : Res unit :=
  let id := arr (e_ident elf) in
  _ ← ensure Assertion (bool_decide (take 4 (e_ident elf) = [0x7f; 0x45; 0x4c; 0x46]));
  _ ← ensure Assertion (id 4 =? 2);
  _ ← ensure Assertion (id 5 =? 1);
  _ ← ensure Assertion (id 6 =? EV_CURRENT);
  _ ← ensure Assertion ((id 7 =? 0) || (id 7 =? 3));
  _ ← ensure Assertion (id 8 =? 0);
  _ ← ensure Assertion (e_type elf =? ET_EXEC);
  ensure Assertion (e_version elf =? EV_CURRENT).

(** [sh[i]]: the buffer has [e_shentsize * e_shnum] bytes and is indexed with
    the size of the structure. *)
Definition shdr_at (sh : list Z) (i : Z) : Res Elf64_Shdr :=
  _ ← ensure Undefined ((i + 1) * SHDR_SIZE <=? Z.of_nat (length sh));
  Ok (shdr_of (take (Z.to_nat SHDR_SIZE) (drop (Z.to_nat (i * SHDR_SIZE)) sh))).

(** [malloc], [fseek], [fread] and the assertion. *)
Definition read_section (s : Elf64_Shdr) (fp : FILE) : Res (list Z * FILE) :=
  fread_one (sh_size s) (fseek (sh_offset s) fp).

(** [s.sh_type == t && strcmp(shstrtab + s.sh_name, name) == 0] *)
Definition section_is (shstrtab : list Z) (t : Z) (name : string) (s : Elf64_Shdr) : Res bool :=
  if sh_type s =? t then strcmp_eq (drop (Z.to_nat (sh_name s)) shstrtab) (bytes_of_string name) else Ok false.

Definition put_symtab (bs : list Z) (size : Z) (ft : Ftrace) : Ftrace :=
  {| ft with symtab := Some (syms_of (Z.to_nat (size / SYM_SIZE)) bs); nr_symtab_entry := s32 (size / SYM_SIZE) |}.
Definition put_strtab (bs : list Z) (ft : Ftrace) : Ftrace := {| ft with strtab := Some bs |}.

(** The body of the loop over the section headers. *)
Definition section_step (shstrtab : list Z) (s : Elf64_Shdr) (st : Ftrace * FILE) : Res (Ftrace * FILE) :=
  let '(ft, fp) := st in
  is_sym ← section_is shstrtab SHT_SYMTAB ".symtab" s;
  if is_sym : bool then
    '(bs, fp) ← read_section s fp; Ok (put_symtab bs (sh_size s) ft, fp)
  else
    is_str ← section_is shstrtab SHT_STRTAB ".strtab" s;
    if is_str : bool then '(bs, fp) ← read_section s fp; Ok (put_strtab bs ft, fp)
    else Ok (ft, fp).

(** The table, the names and the loop; [e_shentsize * e_shnum] is an [int]. *)
Definition read_tables (elf : Elf64_Ehdr) (fp : FILE) (ft : Ftrace) : Res Ftrace :=
  let size := e_shentsize elf * e_shnum elf in
  _ ← ensure Undefined (size <=? INT_MAX);
  '(sh, fp) ← fread_one size (fseek (e_shoff elf) fp);
  names ← shdr_at sh (e_shstrndx elf);
  '(shstrtab, fp) ← read_section names fp;
  '(ft, _) ← for_each (seqZ_from 0 (Z.to_nat (e_shnum elf)))
    (fun i st => s ← shdr_at sh i; section_step shstrtab s st) (ft, fp);
  _ ← ensure Assertion (match strtab ft, symtab ft with Some _, Some _ => true | _, _ => false end);
  Ok ft.

(** [elf_file] is null, a file that cannot be opened, or its contents. *)
Definition init_elf (elf_file : option (option (list Z))) (ft : Ftrace) : Res Ftrace :=
  match elf_file with
  | None | Some None => Err Assertion
  | Some (Some file) =>
      '(buf, fp) ← fread_one EHDR_SIZE (mkFile file 0);
      let elf := ehdr_of buf in
      _ ← check_ehdr elf;
      read_tables elf fp ft
  end.

Arguments put_symtab : simpl never.
Arguments put_strtab : simpl never.
