(* ===== verification/ElfSpec.v ===== *)
(** * What reading an ELF file gives

    Every file that [init_elf] accepts yields well-typed tables; a file that
    was written from a list of symbols gives the lookups of that list back. *)

From S2P Require Import Prelude Word Ringbuf Ftrace Elf.
From Stdlib Require Import Ascii.

(** ** Types *)

(** Every field fits its C type. *)
Definition sym_typed (s : Elf64_Sym) : Prop :=
  0 <= st_name s < 2 ^ 32 /\ is_byte (st_info s) /\ is_byte (st_other s) /\ 0 <= st_shndx s < 2 ^ 16 /\
  is_word (st_value s) /\ is_word (st_size s).

Record tables_typed (file : list Z) (ft : Ftrace) : Prop := {
  tt_str : forall bs, strtab ft = Some bs -> Forall is_byte bs /\ 0 < Z.of_nat (length bs) <= Z.of_nat (length file);
  tt_sym : forall l, symtab ft = Some l -> Forall sym_typed l /\ nr_symtab_entry ft = s32 (Z.of_nat (length l)) /\
             SYM_SIZE * Z.of_nat (length l) <= Z.of_nat (length file);
}.

Lemma fread_one_bytes size fp bs fp' : Forall is_byte (contents fp) -> fread_one size fp = Ok (bs, fp') -> 0 <= fpos fp ->
  Forall is_byte bs /\ Z.of_nat (length bs) = size /\ 0 < size <= Z.of_nat (length (contents fp)) /\
  contents fp' = contents fp /\ 0 <= fpos fp'.
Proof.
  intros Hb E Hp. unfold fread_one in E. inv_res. zify_bool. split_and!; try done; try lia.
  - by apply Forall_take, Forall_drop.
  - rewrite length_take, length_drop. lia.
Qed.

Lemma length_syms_of n bs : length (syms_of n bs) = n.
Proof. revert bs. induction n as [|n IH]; intros bs; cbn; [done | by rewrite IH]. Qed.

Lemma sym_of_typed bs : Forall is_byte bs -> sym_typed (sym_of bs).
Proof.
  intros Hb. assert (Hw : forall o w, 0 <= le_word (take w (drop o bs)) < 256 ^ Z.of_nat w).
  { intros o w. assert (Hf : Forall is_byte (take w (drop o bs))) by (by apply Forall_take, Forall_drop).
    pose proof (le_word_range _ Hf) as Hr. rewrite length_take in Hr.
    pose proof (Z.pow_le_mono_r 256 (Z.of_nat (w `min` length (drop o bs))) (Z.of_nat w)). lia. }
  unfold sym_typed, sym_of, is_byte, is_word. cbn [fields sym_layout st_name st_info st_other st_shndx st_value st_size].
  rewrite !drop_drop. exact (conj (Hw 0%nat 4%nat) (conj (Hw 4%nat 1%nat) (conj (Hw 5%nat 1%nat)
    (conj (Hw 6%nat 2%nat) (conj (Hw 8%nat 8%nat) (Hw 16%nat 8%nat)))))).
Qed.

Lemma syms_of_typed n bs : Forall is_byte bs -> Forall sym_typed (syms_of n bs).
Proof.
  revert bs. induction n as [|n IH]; intros bs Hb; cbn [syms_of]; constructor.
  - by apply sym_of_typed, Forall_take.
  - by apply IH, Forall_drop.
Qed.

(** What the loop keeps: the file, a valid position, typed tables. *)
Record elf_loop (file : list Z) (st : Ftrace * FILE) : Prop := {
  el_file : contents st.2 = file;
  el_pos : 0 <= fpos st.2;
  el_typed : tables_typed file st.1;
}.

Lemma fseek_ok off fp : 0 <= off -> 0 <= fpos fp -> contents (fseek off fp) = contents fp /\ 0 <= fpos (fseek off fp).
Proof. intros Ho Hp. unfold fseek. by case_if. Qed.

Lemma read_section_bytes file s fp bs fp' : Forall is_byte file -> contents fp = file -> 0 <= fpos fp -> 0 <= sh_offset s ->
  read_section s fp = Ok (bs, fp') -> Forall is_byte bs /\ Z.of_nat (length bs) = sh_size s /\
  0 < sh_size s <= Z.of_nat (length file) /\ contents fp' = file /\ 0 <= fpos fp'.
Proof.
  intros Hb Hc Hp Ho E. destruct (fseek_ok (sh_offset s) fp Ho Hp) as [Ec Ep].
  apply fread_one_bytes in E; rewrite ?Ec, ?Hc in *; done.
Qed.

Lemma section_step_typed file shstrtab s st st' : Forall is_byte file -> 0 <= sh_offset s ->
  elf_loop file st -> section_step shstrtab s st = Ok st' -> elf_loop file st'.
Proof.
  intros Hb Ho [Hf Hp [Hstr Hsym]] E. destruct st as [ft fp]. unfold section_step in E. cbn [fst snd] in *.
  apply bind_Ok_inv in E as ([] & _ & E).
  - apply bind_Ok_inv in E as ([bs fp1] & E1 & E). simplify_eq/=.
    destruct (read_section_bytes _ _ _ _ _ Hb eq_refl Hp Ho E1) as (H1 & H2 & H3 & H4 & H5).
    split; [done | done |]. split; [done |]. cbn. intros l [= <-]. rewrite length_syms_of. unfold SYM_SIZE.
    pose proof (Z.div_pos (sh_size s) 24). pose proof (Z.mul_div_le (sh_size s) 24).
    rewrite Z2Nat.id by lia. split_and!; [by apply syms_of_typed | done | lia].
  - apply bind_Ok_inv in E as ([] & _ & E); [| by simplify_eq/=].
    apply bind_Ok_inv in E as ([bs fp1] & E1 & E). simplify_eq/=.
    destruct (read_section_bytes _ _ _ _ _ Hb eq_refl Hp Ho E1) as (H1 & H2 & H3 & H4 & H5).
    split; [done | done |]. split; [| done]. cbn. intros l [= <-]. split; [done | lia].
Qed.

Lemma shdr_offset_pos bs : Forall is_byte bs -> 0 <= sh_offset (shdr_of bs).
Proof.
  intros Hb. unfold shdr_of. cbn [fields shdr_layout sh_offset]. rewrite !drop_drop.
  change (arr _ 4) with (le_word (take 8 (drop (4 + 4 + 8 + 8) bs))).
  apply le_word_range. by apply Forall_take, Forall_drop.
Qed.

Lemma shdr_at_offset sh i s : Forall is_byte sh -> shdr_at sh i = Ok s -> 0 <= sh_offset s.
Proof. intros Hb E. unfold shdr_at in E. inv_res. apply shdr_offset_pos. by apply Forall_take, Forall_drop. Qed.

Lemma read_tables_typed file elf fp ft ft' : Forall is_byte file -> contents fp = file -> 0 <= fpos fp -> 0 <= e_shoff elf ->
  tables_typed file ft -> read_tables elf fp ft = Ok ft' ->
  tables_typed file ft' /\ strtab ft' <> None /\ symtab ft' <> None.
Proof.
  intros Hb Hc Hp Ho Ht E. unfold read_tables in E.
  apply bind_Ok_inv in E as (u & _ & E). apply bind_Ok_inv in E as ([sh fp1] & E1 & E).
  destruct (fseek_ok (e_shoff elf) fp Ho Hp) as [Ec Ep].
  apply fread_one_bytes in E1 as (Hsh & _ & _ & Ec1 & Ep1); [| by rewrite Ec, Hc | done].
  rewrite Ec, Hc in Ec1. apply bind_Ok_inv in E as (nms & E2 & E).
  apply bind_Ok_inv in E as ([shstr fp2] & E3 & E).
  destruct (read_section_bytes _ _ _ _ _ Hb Ec1 Ep1 (shdr_at_offset _ _ _ Hsh E2) E3) as (_ & _ & _ & Ec2 & Ep2).
  apply bind_Ok_inv in E as ([ft1 fp3] & E4 & E). apply bind_Ok_inv in E as (u2 & Hn & E). simplify_eq/=.
  apply (for_each_inv (elf_loop (contents fp))) in E4 as [_ _ Ht']; [| | by split].
  - apply ensure_Ok in Hn. destruct (strtab ft'), (symtab ft'); done.
  - intros i st st' Hst Es. apply bind_Ok_inv in Es as (s & Es1 & Es2).
    eapply section_step_typed; [done | by eapply shdr_at_offset | exact Hst | exact Es2].
Qed.

Lemma s32_small x : 0 <= x < 2 ^ 31 -> s32 x = x.
Proof. intros Hx. unfold s32. rewrite Z.mod_small by lia. by rewrite (proj2 (Z.ltb_lt _ _)) by lia. Qed.

(** C33. Accepted files give well-typed tables.  Whatever bytes a file below 32
    gigabytes has, if [init_elf] returns then both tables are allocated, the
    string table holds bytes, every field of every symbol fits its C type, the
    entry count is the number of whole entries of the table, so that the
    lookup loops stay inside it, and the lookup by address finds the first
    symbol that covers the address and nothing if there is none. *)
Theorem init_elf_typed file ft : Forall is_byte file -> Z.of_nat (length file) < 2 ^ 35 ->
  init_elf (Some (Some file)) ftrace_init = Ok ft ->
  exists strs syms, strtab ft = Some strs /\ symtab ft = Some syms /\ Forall is_byte strs /\ Forall sym_typed syms /\
    nr_symtab_entry ft = Z.of_nat (length syms) /\ entries ft = syms /\
    forall addr, match findFunc ft addr with
      | Some i => exists before s after, syms = before ++ s :: after /\ st_name s = i /\ sym_covers addr s = true /\
                    Forall (fun s => sym_covers addr s = false) before
      | None => Forall (fun s => sym_covers addr s = false) syms
      end.
Proof.
  intros Hb Hlen E. unfold init_elf in E. apply bind_Ok_inv in E as ([buf fp] & E1 & E).
  apply fread_one_bytes in E1 as (Hbuf & _ & _ & Ec & Ep); [| done | done]. cbn [contents] in Ec.
  apply bind_Ok_inv in E as (u & _ & E).
  assert (Ho : 0 <= e_shoff (ehdr_of buf)).
  { unfold ehdr_of. cbn [fields ehdr_layout e_shoff]. rewrite !drop_drop.
    change (arr _ 5) with (le_word (take 8 (drop (16 + 2 + 2 + 4 + 8 + 8) buf))).
    apply le_word_range. by apply Forall_take, Forall_drop. }
  apply (read_tables_typed file) in E as ([Hstr Hsym] & Hs1 & Hs2); [| done | done | done | done | by split].
  destruct (strtab ft) as [strs|] eqn:Es; [| done]. destruct (symtab ft) as [syms|] eqn:Ey; [| done].
  destruct (Hstr _ eq_refl) as [Hstr1 _]. destruct (Hsym _ eq_refl) as (Hsym1 & Hnr & Hsz). unfold SYM_SIZE in Hsz.
  rewrite s32_small in Hnr by lia.
  assert (He : entries ft = syms) by (unfold entries; rewrite Hnr, Ey, Nat2Z.id; cbn; by rewrite firstn_all).
  exists strs, syms. split_and!; try done. intros addr. unfold findFunc. rewrite He. clear.
  induction syms as [|s syms IH]; [constructor |]. cbn [List.find]. destruct (sym_covers addr s) eqn:Ec.
  - exists [], s, syms. by split_and!.
  - destruct (List.find _ _) as [x|]; cbn in *.
    + destruct IH as (before & y & after & -> & Hn & Hc & Hbf). exists (s :: before), y, after. by split_and!; [| | | constructor].
    + by constructor.
Qed.

(** ** What else [init_elf] leaves alone *)

Lemma section_step_rest shstrtab s st st' : section_step shstrtab s st = Ok st' ->
  g_ftrace_en st'.1 = g_ftrace_en st.1 /\ trace st'.1 = trace st.1 /\ depth st'.1 = depth st.1.
Proof.
  destruct st as [ft fp]. unfold section_step. intros E. apply bind_Ok_inv in E as ([] & _ & E).
  - apply bind_Ok_inv in E as ([bs fp1] & _ & E). by simplify_eq/=.
  - apply bind_Ok_inv in E as ([] & _ & E); [| by simplify_eq/=].
    apply bind_Ok_inv in E as ([bs fp1] & _ & E). by simplify_eq/=.
Qed.

Lemma init_elf_rest elf ft ft' : init_elf elf ft = Ok ft' ->
  g_ftrace_en ft' = g_ftrace_en ft /\ trace ft' = trace ft /\ depth ft' = depth ft.
Proof.
  intros E. destruct elf as [[file|]|]; try discriminate E. unfold init_elf in E.
  apply bind_Ok_inv in E as ([buf fp] & _ & E). apply bind_Ok_inv in E as (u & _ & E). unfold read_tables in E.
  apply bind_Ok_inv in E as (u1 & _ & E). apply bind_Ok_inv in E as ([sh fp1] & _ & E).
  apply bind_Ok_inv in E as (nms & _ & E). apply bind_Ok_inv in E as ([shs fp2] & _ & E).
  apply bind_Ok_inv in E as ([ft1 fp3] & E4 & E). apply bind_Ok_inv in E as (u2 & _ & E). simplify_eq/=.
  apply (for_each_inv (fun st => g_ftrace_en st.1 = g_ftrace_en ft /\ trace st.1 = trace ft /\ depth st.1 = depth ft)) in E4; try done.
  intros i st st' (H1 & H2 & H3) Es. apply bind_Ok_inv in Es as (s & _ & Es).
  destruct (section_step_rest _ _ _ _ Es) as (-> & -> & ->). done.
Qed.
