(* ===== verification/ElfWrite.v ===== *)
(** * A symbol table written to an ELF file and read back

    [elf_write] lays a list of symbols out as a minimal ELF executable;
    [init_elf] followed by the lookups of elftl.c answers from that list. *)

From S2P Require Import Prelude Word Ringbuf Ftrace Elf ElfSpec.
From Stdlib Require Import Ascii.

(** ** Writing structures *)

Fixpoint join (ws : list nat) (vs : list Z) : list Z :=
  match ws, vs with
  | w :: ws, v :: vs => le_bytes w v ++ join ws vs
  | _, _ => []
  end.

Definition fits (w : nat) (v : Z) : Prop := 0 <= v < 256 ^ Z.of_nat w.

Lemma fields_join ws vs rest : Forall2 fits ws vs -> fields ws (join ws vs ++ rest) = vs.
Proof.
  induction 1 as [|w v ws vs Hv _ IH]; [done |]. cbn [fields join]. rewrite <-app_assoc.
  rewrite take_app_length', drop_app_length' by (by rewrite length_le_bytes). rewrite IH, le_word_bytes.
  by rewrite Z.mod_small by done.
Qed.

Lemma length_join ws vs : length ws = length vs -> length (join ws vs) = sum_list ws.
Proof.
  revert vs. induction ws as [|w ws IH]; intros [|v vs] E; cbn in *; try done.
  rewrite length_app, length_le_bytes, IH by lia. done.
Qed.

Definition sym_bytes (s : Elf64_Sym) : list Z :=
  join sym_layout [st_name s; st_info s; st_other s; st_shndx s; st_value s; st_size s].

Definition shdr_bytes (s : Elf64_Shdr) : list Z :=
  join shdr_layout [sh_name s; sh_type s; sh_flags s; sh_addr s; sh_offset s; sh_size s;
                    sh_link s; sh_info s; sh_addralign s; sh_entsize s].

Definition shdr_fits (s : Elf64_Shdr) : Prop :=
  Forall2 fits shdr_layout [sh_name s; sh_type s; sh_flags s; sh_addr s; sh_offset s; sh_size s;
                    sh_link s; sh_info s; sh_addralign s; sh_entsize s].

Lemma length_sym_bytes s : length (sym_bytes s) = 24%nat.
Proof. by apply length_join. Qed.
Lemma length_shdr_bytes s : length (shdr_bytes s) = 64%nat.
Proof. by apply length_join. Qed.

Lemma sym_of_bytes s rest : sym_typed s -> sym_of (take 24 (sym_bytes s ++ rest)) = s.
Proof.
  intros (? & ? & ? & ? & ? & ?). rewrite take_app_length' by (by rewrite length_sym_bytes). unfold sym_of, sym_bytes.
  rewrite <-(app_nil_r (join _ _)), fields_join; [by destruct s |].
  repeat (apply Forall2_cons; split; [assumption |]). by apply Forall2_nil.
Qed.

Lemma syms_of_bytes l rest : Forall sym_typed l -> syms_of (length l) (flat_map sym_bytes l ++ rest) = l.
Proof.
  induction 1 as [|s l Hs _ IH]; [done |]. cbn [flat_map length syms_of]. rewrite <-app_assoc.
  change (Z.to_nat SYM_SIZE) with 24%nat. rewrite sym_of_bytes by done.
  rewrite drop_app_length' by (by rewrite length_sym_bytes). by rewrite IH.
Qed.

Lemma shdr_of_bytes s rest : shdr_fits s -> shdr_of (take 64 (shdr_bytes s ++ rest)) = s.
Proof.
  intros Hs. rewrite take_app_length' by (by rewrite length_shdr_bytes). unfold shdr_of, shdr_bytes.
  rewrite <-(app_nil_r (join _ _)), fields_join by done. by destruct s.
Qed.

Lemma length_flat_map_const {A} (f : A -> list Z) n l : (forall x, length (f x) = n) ->
  length (flat_map f l) = (n * length l)%nat.
Proof. intros Hf. induction l as [|x l IH]; cbn; [lia |]. rewrite length_app, Hf, IH. lia. Qed.

Lemma shdr_at_bytes l k s : Forall shdr_fits l -> l !! k = Some s ->
  shdr_at (flat_map shdr_bytes l) (Z.of_nat k) = Ok s.
Proof.
  intros Hl Hk. unfold shdr_at. rewrite (length_flat_map_const _ 64) by apply length_shdr_bytes.
  pose proof (lookup_lt_Some _ _ _ Hk). unfold SHDR_SIZE.
  replace ((Z.of_nat k + 1) * 64 <=? Z.of_nat (64 * length l)) with true by lia. cbn [ensure mbind Res_bind].
  f_equal. destruct (take_drop_middle l k s Hk). assert (Hs : shdr_fits s) by (by eapply Forall_lookup_1).
  rewrite flat_map_app. rewrite drop_app_length'; [cbn [flat_map]; by apply shdr_of_bytes |].
  rewrite (length_flat_map_const _ 64) by apply length_shdr_bytes. rewrite length_take. lia.
Qed.

(** Reading the middle of a file. *)
Lemma fread_mid a b c pos : pos = Z.of_nat (length a) -> b <> [] ->
  fread_one (Z.of_nat (length b)) (mkFile (a ++ b ++ c) pos) = Ok (b, mkFile (a ++ b ++ c) (pos + Z.of_nat (length b))).
Proof.
  intros -> Hb. unfold fread_one. cbn [fpos contents]. rewrite !length_app.
  assert (0 < length b)%nat by (destruct b; [done | cbn; lia]).
  replace ((0 <? Z.of_nat (length b)) && (Z.of_nat (length a) + Z.of_nat (length b) <=? Z.of_nat (length a + (length b + length c)))) with true by lia.
  cbn [ensure mbind Res_bind]. do 2 f_equal. rewrite !Nat2Z.id, drop_app_length, take_app_length. done.
Qed.

(** ** The file *)

Record symbol := mkSymbol {
  sy_name : list Z;
  sy_value : Z;
  sy_size : Z;
}.

(** A global function with its name at [off]. *)
Definition entry_of (off : Z) (s : symbol) : Elf64_Sym := mkSym off 0x12 0 1 (sy_value s) (sy_size s).

(** The names, each with its zero byte, and the entries that point to them. *)
Definition strings (l : list symbol) : list Z := flat_map (fun s => sy_name s ++ [0]) l.

Fixpoint place (off : Z) (l : list symbol) : list Elf64_Sym :=
  match l with
  | [] => []
  | s :: l => entry_of off s :: place (off + Z.of_nat (length (sy_name s)) + 1) l
  end.

Definition section_names : list Z := bytes_of_string "" ++ [0] ++ bytes_of_string ".symtab" ++ [0] ++
  bytes_of_string ".strtab" ++ [0] ++ bytes_of_string ".shstrtab" ++ [0].

Definition section (name type off size : Z) : Elf64_Shdr := mkShdr name type 0 0 off size 0 0 1 0.

(** Section headers for a string table of [n] and a symbol table of [k] bytes. *)
Definition sections (n k : Z) : list Elf64_Shdr :=
  [section 0 0 0 0; section 1 SHT_SYMTAB (91 + n) k; section 9 SHT_STRTAB 91 n; section 17 SHT_STRTAB 64 27].

Definition ident : list Z := [0x7f; 0x45; 0x4c; 0x46; 2; 1; 1; 0; 0; 0; 0; 0; 0; 0; 0; 0].

Definition ehdr_bytes (shoff : Z) : list Z :=
  ident ++ join ehdr_layout [ET_EXEC; 0xf3; EV_CURRENT; 0x80000000; 0; shoff; 0; 64; 0; 0; 64; 4; 3].

Definition elf_write (l : list symbol) : list Z :=
  let strs := strings l in
  let tab := flat_map sym_bytes (place 0 l) in
  let n := Z.of_nat (length strs) in
  let k := Z.of_nat (length tab) in
  ehdr_bytes (91 + n + k) ++ section_names ++ strs ++ tab ++ flat_map shdr_bytes (sections n k).

(** A non-empty list of symbols whose names have no zero byte. *)
Record symbols_ok (l : list symbol) : Prop := {
  so_some : l <> [];
  so_names : Forall (fun s => Forall (fun c => 0 < c < 256) (sy_name s)) l;
  so_values : Forall (fun s => is_word (sy_value s) /\ is_word (sy_size s)) l;
  so_len : Z.of_nat (length (strings l)) < 2 ^ 31 /\ Z.of_nat (length l) < 2 ^ 31;
}.

Lemma length_place off l : length (place off l) = length l.
Proof. revert off. induction l as [|s l IH]; intros off; cbn; [done | by rewrite IH]. Qed.

Lemma place_typed off l : 0 <= off -> off + Z.of_nat (length (strings l)) < 2 ^ 32 ->
  Forall (fun s => is_word (sy_value s) /\ is_word (sy_size s)) l -> Forall sym_typed (place off l).
Proof.
  intros Ho Hl Hv. revert off Ho Hl. induction Hv as [|s l [? ?] _ IH]; intros off Ho Hl; constructor.
  - unfold strings in Hl. cbn [flat_map] in Hl. rewrite !length_app in Hl. unfold sym_typed. cbn [entry_of st_name st_info st_other st_shndx st_value st_size]. unfold is_byte, is_word in *. lia.
  - apply IH; unfold strings in *; cbn [flat_map] in Hl; rewrite !length_app in Hl; cbn [length] in Hl; lia.
Qed.

Lemma strings_some l : l <> [] -> strings l <> [].
Proof. destruct l as [|[[] ? ?] ?]; by cbn. Qed.

Lemma sections_fit n k : 0 <= n < 2 ^ 31 -> 0 <= k < 2 ^ 62 -> Forall shdr_fits (sections n k).
Proof.
  intros Hn Hk. unfold sections. repeat (apply Forall_cons; split); [.. | by apply Forall_nil];
    unfold shdr_fits; repeat (apply Forall2_cons; split; [unfold fits, section, SHT_SYMTAB, SHT_STRTAB; cbn; lia |]); by apply Forall2_nil.
Qed.

(** ** Reading it back *)

Lemma ehdr_of_bytes shoff : 0 <= shoff < 2 ^ 63 ->
  ehdr_of (ehdr_bytes shoff) = mkEhdr ident ET_EXEC 0xf3 EV_CURRENT 0x80000000 0 shoff 0 64 0 0 64 4 3.
Proof.
  intros Hs. unfold ehdr_of, ehdr_bytes. change 16%nat with (length ident). rewrite take_app_length, drop_app_length.
  rewrite <-(app_nil_r (join _ _)), fields_join; [done |].
  repeat (apply Forall2_cons; split; [unfold fits, ET_EXEC, EV_CURRENT; cbn; lia |]). by apply Forall2_nil.
Qed.

Lemma length_ehdr_bytes shoff : length (ehdr_bytes shoff) = 64%nat.
Proof. unfold ehdr_bytes. rewrite length_app, length_join; done. Qed.

(** Reading a section of a file that is split at it. *)
Lemma read_section_mid name type off size pos a b c : off = Z.of_nat (length a) -> off < 2 ^ 63 ->
  size = Z.of_nat (length b) -> b <> [] ->
  read_section (section name type off size) (mkFile (a ++ b ++ c) pos) = Ok (b, mkFile (a ++ b ++ c) (off + size)).
Proof.
  intros Ho Hb -> Hne. unfold read_section, fseek. cbn [section sh_offset sh_size contents].
  rewrite (proj2 (Z.ltb_lt _ _)) by lia. by apply fread_mid.
Qed.

(** The loop body on each of the sections. *)
Lemma step_symtab off size ft fp : section_step section_names (section 1 SHT_SYMTAB off size) (ft, fp) =
  ('(bs, fp) ← read_section (section 1 SHT_SYMTAB off size) fp; Ok (put_symtab bs size ft, fp)).
Proof. reflexivity. Qed.

Lemma step_strtab off size ft fp : section_step section_names (section 9 SHT_STRTAB off size) (ft, fp) =
  ('(bs, fp) ← read_section (section 9 SHT_STRTAB off size) fp; Ok (put_strtab bs ft, fp)).
Proof. reflexivity. Qed.

Lemma step_other name type off size ft fp : name = 0 /\ type = 0 \/ name = 17 /\ type = SHT_STRTAB ->
  section_step section_names (section name type off size) (ft, fp) = Ok (ft, fp).
Proof. by intros [[-> ->] | [-> ->]]. Qed.

Definition loaded (l : list symbol) : Ftrace :=
  put_strtab (strings l) (put_symtab (flat_map sym_bytes (place 0 l)) (Z.of_nat (length (flat_map sym_bytes (place 0 l)))) ftrace_init).

Lemma init_elf_write l : symbols_ok l -> init_elf (Some (Some (elf_write l))) ftrace_init = Ok (loaded l).
Proof.
  intros [Hne _ _ [Hs Hl]]. unfold loaded, elf_write. set (strs := strings l) in *. set (tab := flat_map sym_bytes (place 0 l)).
  assert (Ht : length tab = (24 * length l)%nat).
  { unfold tab. by rewrite (length_flat_map_const _ 24), length_place by apply length_sym_bytes. }
  assert (Hs0 : strs <> []) by (by apply strings_some).
  assert (Ht0 : tab <> []) by (destruct tab; [destruct l; done | done]).
  set (n := Z.of_nat (length strs)) in *. set (k := Z.of_nat (length tab)).
  set (shdrs := flat_map shdr_bytes (sections n k)). set (eh := ehdr_bytes (91 + n + k)).
  assert (Hk : 0 <= k < 2 ^ 62) by (unfold k; lia). assert (Hn : 0 <= n < 2 ^ 31) by (unfold n; lia).
  assert (Hsh : length shdrs = 256%nat) by (unfold shdrs; rewrite (length_flat_map_const _ 64); [done | apply length_shdr_bytes]).
  assert (Heh : length eh = 64%nat) by apply length_ehdr_bytes.
  assert (Hlook : forall i s, 0 <= i -> sections n k !! Z.to_nat i = Some s -> shdr_at shdrs i = Ok s).
  { intros i s Hi Hx. rewrite <-(Z2Nat.id i Hi). apply shdr_at_bytes; [by apply sections_fit | done]. }
  set (file := eh ++ section_names ++ strs ++ tab ++ shdrs).
  assert (F1 : file = (eh ++ section_names ++ strs) ++ tab ++ shdrs) by (unfold file; by rewrite <-!app_assoc).
  assert (F2 : file = (eh ++ section_names) ++ strs ++ tab ++ shdrs) by (unfold file; by rewrite <-!app_assoc).
  assert (F3 : file = (eh ++ section_names ++ strs ++ tab) ++ shdrs ++ []) by (unfold file; by rewrite <-!app_assoc, app_nil_r).
  unfold init_elf.
  assert (E0 : fread_one EHDR_SIZE (mkFile file 0) = Ok (eh, mkFile file 64)).
  { pose proof (fread_mid [] eh (section_names ++ strs ++ tab ++ shdrs) 0 eq_refl) as E. rewrite Heh in E. apply E. by destruct eh. }
  rewrite E0. cbn [mbind Res_bind]. unfold eh at 1. rewrite ehdr_of_bytes by lia.
  change (check_ehdr _) with (@Ok unit ()). cbn [mbind Res_bind]. unfold read_tables.
  cbn [e_shentsize e_shnum e_shoff e_shstrndx]. change (64 * 4 <=? INT_MAX) with true. cbn [ensure mbind Res_bind].
  assert (E1 : fread_one 256 (fseek (91 + n + k) (mkFile file 64)) = Ok (shdrs, mkFile file (91 + n + k + 256))).
  { unfold fseek. cbn [contents]. rewrite (proj2 (Z.ltb_lt _ _)) by lia.
    pose proof (fread_mid (eh ++ section_names ++ strs ++ tab) shdrs [] (91 + n + k)) as E.
    rewrite <-F3, Hsh in E. apply E; [rewrite !length_app, Heh; change (length section_names) with 27%nat; lia | by destruct shdrs]. }
  change (64 * 4) with 256. rewrite E1. cbn [mbind Res_bind]. rewrite (Hlook 3 _ ltac:(lia) eq_refl). cbn [mbind Res_bind].
  assert (R1 : forall p, read_section (section 17 SHT_STRTAB 64 27) (mkFile file p) = Ok (section_names, mkFile file 91)).
  { intros p. apply read_section_mid; [by rewrite Heh | lia | done | done]. }
  assert (R2 : forall p, read_section (section 1 SHT_SYMTAB (91 + n) k) (mkFile file p) = Ok (tab, mkFile file (91 + n + k))).
  { intros p. rewrite F1. apply read_section_mid; [rewrite !length_app, Heh; change (length section_names) with 27%nat; lia | lia | done | done]. }
  assert (R3 : forall p, read_section (section 9 SHT_STRTAB 91 n) (mkFile file p) = Ok (strs, mkFile file (91 + n))).
  { intros p. rewrite F2. apply read_section_mid; [rewrite !length_app, Heh; change (length section_names) with 27%nat; lia | lia | done | done]. }
  rewrite R1. cbn [mbind Res_bind]. change (Z.to_nat 4) with 4%nat. cbn [seqZ_from for_each].
  rewrite (Hlook 0 _ ltac:(lia) eq_refl), (Hlook (0 + 1) _ ltac:(lia) eq_refl),
    (Hlook (0 + 1 + 1) _ ltac:(lia) eq_refl), (Hlook (0 + 1 + 1 + 1) _ ltac:(lia) eq_refl).
  cbn [mbind Res_bind]. rewrite step_other by auto. cbn [mbind Res_bind].
  rewrite step_symtab, R2. cbn [mbind Res_bind]. rewrite step_strtab, R3. cbn [mbind Res_bind].
  rewrite step_other by auto. reflexivity.
Qed.

(** ** Lookups *)

(** The value of the first symbol with that name, or [-1]. *)
Definition value_of (l : list symbol) (nm : list Z) : Z :=
  default (2 ^ 64 - 1) (sy_value <$> List.find (fun s => bool_decide (sy_name s = nm)) l).

(** The first symbol that covers the address. *)
Definition covering (l : list symbol) (addr : Z) : option symbol :=
  List.find (fun s => (sy_value s <=? addr) && (addr <? (sy_value s + sy_size s)%word)) l.

Definition chars (nm : list Z) : list ascii := (fun c => ascii_of_N (Z.to_N c)) <$> nm.

Lemma strcmp_name nm nm' rest : Forall (fun c => 0 < c < 256) nm -> Forall (fun c => 0 < c < 256) nm' ->
  strcmp_eq (nm ++ [0] ++ rest) nm' = Ok (bool_decide (nm = nm')).
Proof.
  intros Hn. revert nm'. induction Hn as [|c nm Hc _ IH]; intros nm' Hn'; destruct Hn' as [|d nm' Hd Hn']; cbn [app strcmp_eq].
  - done.
  - rewrite (proj2 (Z.eqb_neq _ _)) by lia. done.
  - rewrite (proj2 (Z.eqb_neq _ _)) by lia. done.
  - destruct (Z.eqb_spec c d) as [->|Hne].
    + rewrite IH by done. f_equal. apply bool_decide_ext. naive_solver.
    + rewrite bool_decide_false; [done | congruence].
Qed.

Lemma c_string_name nm rest : Forall (fun c => 0 < c < 256) nm -> c_string (nm ++ [0] ++ rest) = Ok (chars nm).
Proof.
  induction 1 as [|c nm Hc _ IH]; [done |]. cbn [app c_string]. rewrite (proj2 (Z.eqb_neq _ _)) by lia.
  change (c_string (nm ++ 0 :: rest)) with (c_string (nm ++ [0] ++ rest)). by rewrite IH.
Qed.

Lemma str_at_first ft pre s l : strtab ft = Some (pre ++ strings (s :: l)) ->
  str_at ft (Z.of_nat (length pre)) = sy_name s ++ [0] ++ strings l.
Proof.
  intros E. unfold str_at. rewrite E. change (default [] (Some ?x)) with x. rewrite Nat2Z.id, drop_app_length.
  unfold strings. cbn [flat_map]. by rewrite <-app_assoc.
Qed.

Lemma place_next pre s l : (pre ++ sy_name s ++ [0]) ++ strings l = pre ++ strings (s :: l) /\
  Z.of_nat (length (pre ++ sy_name s ++ [0])) = Z.of_nat (length pre) + Z.of_nat (length (sy_name s)) + 1.
Proof. unfold strings. cbn [flat_map]. rewrite <-!app_assoc, !length_app. cbn [length]. split; [done | lia]. Qed.

Lemma findSym_place ft l nm : Forall (fun s => Forall (fun c => 0 < c < 256) (sy_name s)) l -> Forall (fun c => 0 < c < 256) nm ->
  forall pre, strtab ft = Some (pre ++ strings l) ->
  findSym_from ft (place (Z.of_nat (length pre)) l) nm = Ok (value_of l nm).
Proof.
  intros Hl Hnm. induction Hl as [|s l Hs _ IH]; intros pre E; [done |]. cbn [place findSym_from entry_of st_name st_value].
  rewrite (str_at_first _ _ _ _ E), strcmp_name by done. cbn [mbind Res_bind]. unfold value_of. cbn [List.find].
  destruct (place_next pre s l) as [P1 P2]. case_bool_decide; [done |]. rewrite <-P2. apply IH. by rewrite P1.
Qed.

Lemma findFunc_place ft l addr : Forall (fun s => Forall (fun c => 0 < c < 256) (sy_name s)) l ->
  forall pre, strtab ft = Some (pre ++ strings l) ->
  match covering l addr with
  | Some s => exists e, List.find (sym_covers addr) (place (Z.of_nat (length pre)) l) = Some e /\
                c_string (str_at ft (st_name e)) = Ok (chars (sy_name s))
  | None => List.find (sym_covers addr) (place (Z.of_nat (length pre)) l) = None
  end.
Proof.
  induction 1 as [|s l Hs _ IH]; intros pre E; [done |]. unfold covering. cbn [place List.find].
  change (sym_covers addr (entry_of (Z.of_nat (length pre)) s)) with ((sy_value s <=? addr) && (addr <? (sy_value s + sy_size s)%word)).
  destruct (place_next pre s l) as [P1 P2]. destruct (_ && _).
  - eexists. split; [done |]. cbn [entry_of st_name]. by rewrite (str_at_first _ _ _ _ E), c_string_name.
  - rewrite <-P2. apply IH. by rewrite P1.
Qed.

Lemma loaded_entries l : symbols_ok l -> entries (loaded l) = place 0 l.
Proof.
  intros [_ _ Hv [Hs Hl]]. unfold entries, loaded, put_strtab, put_symtab. cbn [symtab nr_symtab_entry]. change (default [] (Some ?x)) with x.
  rewrite (length_flat_map_const _ 24), length_place by apply length_sym_bytes. unfold SYM_SIZE.
  replace (Z.of_nat (24 * length l) / 24) with (Z.of_nat (length l)) by (rewrite Nat2Z.inj_mul, Z.mul_comm, Z.div_mul; lia).
  rewrite s32_small, !Nat2Z.id by lia. rewrite <-(length_place 0 l) at 2.
  rewrite <-(app_nil_r (flat_map _ _)), syms_of_bytes by (apply place_typed; [lia | lia | done]).
  by rewrite <-(length_place 0 l), firstn_all.
Qed.

(** C32. A symbol table survives the ELF file.  For every non-empty list of
    symbols, [init_elf] accepts the executable written from it and leaves the
    trace off and empty; afterwards [findSym] answers every name with the value
    of the first symbol of that name, or with all ones when there is none, and
    [findFunc] answers every address with a pointer to the name of the first
    symbol that covers it, or with null when none does. *)
Theorem init_elf_roundtrip l : symbols_ok l -> exists ft,
  init_elf (Some (Some (elf_write l))) ftrace_init = Ok ft /\ g_ftrace_en ft = false /\ trace ft = [] /\
  (forall nm, Forall (fun c => 0 < c < 256) nm -> findSym ft nm = Ok (value_of l nm)) /\
  (forall addr, match covering l addr with
     | Some s => exists i, findFunc ft addr = Some i /\ c_string (str_at ft i) = Ok (chars (sy_name s))
     | None => findFunc ft addr = None
     end).
Proof.
  intros Hl. exists (loaded l). split; [by apply init_elf_write |]. split; [done | split; [done |]].
  pose proof (loaded_entries l Hl) as He. pose proof (so_names _ Hl) as Hn. split.
  - intros nm Hnm. unfold findSym. rewrite He. by apply (findSym_place (loaded l) l nm Hn Hnm []).
  - intros addr. pose proof (findFunc_place (loaded l) l addr Hn [] eq_refl) as Hf. unfold findFunc. rewrite He.
    change (Z.of_nat (length [])) with 0 in Hf. destruct (covering l addr); [| by rewrite Hf]. destruct Hf as (e & -> & Hc). by exists (st_name e).
Qed.

(** ** Instances *)

Definition sample_symbols : list symbol :=
  [mkSymbol (bytes_of_string "_start") 0x80000000 0x20; mkSymbol (bytes_of_string "main") 0x80000020 0x100].

Lemma sample_symbols_ok : symbols_ok sample_symbols.
Proof.
  split; [done | | |]; [.. | vm_compute; split; reflexivity].
  - repeat constructor.
  - repeat constructor; cbn; lia.
Qed.

Lemma init_elf_roundtrip_witness : exists ft,
  init_elf (Some (Some (elf_write sample_symbols))) ftrace_init = Ok ft /\
  findSym ft (bytes_of_string "main") = Ok 0x80000020.
Proof.
  destruct (init_elf_roundtrip sample_symbols sample_symbols_ok) as (ft & E & _ & _ & Hs & _).
  exists ft. split; [exact E |]. rewrite Hs; [reflexivity | repeat constructor].
Defined.

Lemma init_elf_typed_witness : exists ft strs, init_elf (Some (Some (elf_write sample_symbols))) ftrace_init = Ok ft /\
  strtab ft = Some strs /\ nr_symtab_entry ft = 2.
Proof.
  destruct (init_elf_typed (elf_write sample_symbols) (loaded sample_symbols)) as (strs & syms & H1 & H2 & _ & _ & H3 & _).
  - apply (bool_decide_unpack _). vm_compute. exact I.
  - vm_compute. reflexivity.
  - apply init_elf_write, sample_symbols_ok.
  - exists (loaded sample_symbols), strs. split; [apply init_elf_write, sample_symbols_ok | split; [exact H1 | reflexivity]].
Defined.
