(* ===== verification/Vmem.v ===== *)
(** * The memory interface of the cores (src/memory/vmem.c) and the machine state

    [Mach] is the state that the globals of the simulator form: the bus, the
    allocated caches with the pointers into them, the core array's data caches,
    the performance counters and the architectural registers.  The functions of
    vmem.c route an access through the caches or to the bus, with the snoops of
    the dual-core configuration. *)

From S2P Require Import Prelude Word State Pmp Csr Cache CacheSet CacheSpec CacheRefine Coherence Mmio Mem Ftrace.

(** ** State *)

Record CPU_state := mkCPU {
  gpr : list Z;           (** [word_t gpr[32]] *)
  pc : Z;
}.

(** A [Cache *] is an index into the list of allocated caches, or null. *)
Definition ptr := option Z.

Record Mach := mkMach {
  bus : Bus;
  heap : list Cache;
  L1I_cache : ptr;
  L1D_cache : ptr;
  L2_cache : ptr;
  cores_l1d : list ptr;   (** [cores[i].l1d] *)
  g_num_cores : Z;
  g_current_hartid : Z;
  g_sim_cycles : Z;
  g_sim_instret : Z;
  cpu : CPU_state;
  ftrace : Ftrace;
}.

#[export] Instance Cache_inhabited : Inhabited Cache := populate (init_cache 0 1 "").

(** Following a pointer; a null pointer is an error. *)
Definition deref (p : ptr) (m : Mach) : Res Cache :=
  match p with
  | Some i => if in_range (heap m) i then Ok (arr (heap m) i) else Err Undefined
  | None => Err Undefined
  end.

Definition put_cache (p : ptr) (c : Cache) (m : Mach) : Mach :=
  match p with
  | Some i => {| m with heap := upd (heap m) i c |}
  | None => m
  end.

Definition put_bus (b : Bus) (m : Mach) : Mach := {| m with bus := b |}.

(** [addr >= 0x80000000 && addr < 0x88000000] *)
Definition cached (addr : Z) : bool := (0x80000000 <=? addr) && (addr <? 0x88000000).

(** ** Running a cache function on two cache objects *)

Definition on_caches {A} (p1 p2 : ptr) (f : Cache -> Cache -> Bus -> Res (A * (Cache * Cache * Bus)))
    (m : Mach) : Res (A * Mach) :=
  l1 ← deref p1 m;
  l2 ← deref p2 m;
  '(a, (l1, l2, b)) ← f l1 l2 (bus m);
  Ok (a, put_bus b (put_cache p2 l2 (put_cache p1 l1 m))).

(** A snoop of [cores[1 - g_current_hartid].l1d], when there are two cores. *)
Definition snoop_other (f : option Cache -> Cache -> Bus -> Res (option Cache * Cache * Bus))
    (m : Mach) : Res Mach :=
  if 1 <? g_num_cores m then
    let other := arr (cores_l1d m) (1 - g_current_hartid m) in
    l2 ← deref (L2_cache m) m;
    c ← (match other with Some _ => c ← deref other m; Ok (Some c) | None => Ok None end);
    '(c, l2, b) ← f c l2 (bus m);
    let m := match c with Some c => put_cache other c m | None => m end in
    Ok (put_bus b (put_cache (L2_cache m) l2 m))
  else Ok m.

Definition snoop_flush (addr : Z) : Mach -> Res Mach :=
  snoop_other (fun c l2 b => cache_snoop_flush_dirty c l2 addr b).
Definition snoop_invalidate (addr : Z) : Mach -> Res Mach :=
  snoop_other (fun c l2 b => cache_snoop_invalidate c l2 addr b).

Definition bus_read (addr len : Z) (m : Mach) : Res (Z * Mach) :=
  '(v, b) ← paddr_read addr len (bus m); Ok (v, put_bus b m).
Definition bus_write (addr len v : Z) (m : Mach) : Res Mach :=
  b ← paddr_write addr len v (bus m); Ok (put_bus b m).

(** ** vmem.c *)

Definition vaddr_ifetch (addr len : Z) (m : Mach) : Res (Z * Mach) :=
  if cached addr then
    on_caches (L1I_cache m) (L2_cache m) (fun l1 l2 b => cache_read l1 l2 addr len b) m
  else bus_read addr len m.

Definition vaddr_read (addr len : Z) (m : Mach) : Res (Z * Mach) :=
  if cached addr then
    m ← snoop_flush addr m;
    on_caches (L1D_cache m) (L2_cache m) (fun l1 l2 b => cache_read l1 l2 addr len b) m
  else bus_read addr len m.

(** Returns the level and the value. *)
Definition vaddr_read_level (addr len : Z) (m : Mach) : Res (Z * Z * Mach) :=
  if cached addr then
    m ← snoop_flush addr m;
    on_caches (L1D_cache m) (L2_cache m) (fun l1 l2 b => cache_read_level l1 l2 addr len b) m
  else
    '(v, m) ← bus_read addr len m; Ok (0, v, m).

Definition vaddr_probe_level (addr : Z) (m : Mach) : Res (Z * Mach) :=
  if cached addr then
    on_caches (L1D_cache m) (L2_cache m)
      (fun l1 l2 b => let '(lvl, l1, l2) := cache_probe_level l1 l2 addr in Ok (lvl, (l1, l2, b))) m
  else Ok (0, m).

Definition vaddr_fill_and_read (addr len : Z) (m : Mach) : Res (Z * Mach) :=
  if cached addr then
    m ← snoop_flush addr m;
    on_caches (L1D_cache m) (L2_cache m) (fun l1 l2 b => cache_fill_and_read l1 l2 addr len b) m
  else bus_read addr len m.

Definition vaddr_write (addr len v : Z) (m : Mach) : Res Mach :=
  if cached addr then
    m ← snoop_invalidate addr m;
    '(_, m) ← on_caches (L1D_cache m) (L2_cache m)
      (fun l1 l2 b => st ← cache_write l1 l2 addr len v b; Ok ((), st)) m;
    Ok m
  else bus_write addr len v m.
