(* ===== verification/VmemSpec.v ===== *)
(** * The memory interface implements a flat memory

    Refinement of vmem.c over the machine state, for one core and for two:
    loads and stores of the cached range act on one flat byte array; an
    instruction fetch reads the same array for every block that has not been
    stored to, and may read old bytes of the others. *)

From S2P Require Import Prelude Word State Pmp Csr Cache CacheSet CacheSpec CacheRefine Coherence Mmio Mem Ftrace Vmem.

(** ** A cache that is never written: the instruction cache *)

Section ReadOnly.
Context {M : Type} `{BlockStoreLaws M}.

Record ro_inv (c : Cache) : Prop := {
  ro_wf : cache_wf c;
  ro_ram : forall k x, content c k = Some x -> ram_blk k;
  ro_clean : forall k d, content c k <> Some (true, d);
}.

Lemma ro_fetch c l2 addr way (m : M) : ro_inv c -> l2_inv l2 m -> is_word addr ->
  ram_blk (blk addr) -> is_word (timer c) -> 0 <= way < w c -> content c (blk addr) = None ->
  exists c' l2' m', fetch_block c l2 addr way m = Ok (c', l2', m') /\
    ro_inv c' /\ l2_result l2 m l2' m' (lower l2 m) /\ same_geom c c' /\ 0 <= way < w c' /\
    data (line_at c' addr way) = lower l2 m (blk addr) /\
    (forall k, content c' k = None \/ content c' k = content c k \/
               (k = blk addr /\ content c' k = Some (false, lower l2 m k))).
Proof.
  intros [Hwf Hram Hcl] Hl2 Ha Hk Ht Hway Hnone. pose proof Ha as [Ha0 _].
  rewrite fetch_block_unfold. set (old := line_at c addr way).
  pose proof (line_content c addr way Hwf Ha0 Hway) as Hco. fold old in Hco.
  assert (E1 : exists c1, l1_evict c l2 addr way m = Ok (c1, l2, m) /\ same_geom c c1 /\
    sets c1 = sets c /\ timer c1 = timer c).
  { unfold l1_evict. fold old. destruct (valid old) eqn:Hv; [| by exists c].
    destruct (dirty old) eqn:Hd; [by destruct (Hcl _ _ (Hco eq_refl)) |]. by eexists. }
  destruct E1 as (c1 & E1 & Hg1 & Hs1 & Ht1). rewrite E1. cbn [mbind Res_bind].
  destruct (access_l2_ok l2 addr (data old) false m Hl2 Ha Hk) as (l2' & m' & E2 & Hr); [done |].
  rewrite E2. cbn [mbind Res_bind].
  set (line' := {| valid := true; dirty := false; tag := tag_of c1 addr;
    last_access := timer c1; data := lower l2 m (blk addr) |}).
  assert (Hwf1 : cache_wf c1) by (by apply (cache_wf_geom c)).
  assert (Hc1 : forall k, content c1 k = content c k)
    by (intros k; apply content_geom; [apply Hg1 | done]).
  assert (Hway1 : 0 <= way < w c1) by (destruct Hg1 as (_ & -> & _); done).
  destruct (upd_new_block c1 addr way line' Hwf1 Ha0 Hway1) as (Hwf' & Hg' & Hc'); try done.
  { split; cbn; [by apply lower_is_block | by rewrite Ht1]. }
  { by rewrite Hc1. }
  exists (upd_line c1 addr way line'), l2', m'. split; [done |].
  assert (Hall : forall k, content (upd_line c1 addr way line') k = None \/
    content (upd_line c1 addr way line') k = content c k \/
    (k = blk addr /\ content (upd_line c1 addr way line') k = Some (false, lower l2 m k))).
  { intros k. rewrite Hc', Hc1. destruct (Z.eqb_spec k (blk addr)) as [->|]; [by right; right |].
    case_if; auto. }
  split; [split; [done | |] | split; [done | split; [by transitivity c1 | split; [done | split; [| done]]]]].
  - intros k x Hx. destruct (Hall k) as [E | [E | [-> E]]]; [congruence | | done].
    rewrite E in Hx. by eapply Hram.
  - intros k d Hx. destruct (Hall k) as [E | [E | [-> E]]]; [congruence | | congruence].
    rewrite E in Hx. by eapply Hcl.
  - by rewrite line_at_upd_line.
Qed.

(** The bytes a fetch sees. *)
Definition ro_view (c l2 : Cache) (m : M) (k : Z) : list Z := view c (lower l2 m) k.

Lemma ro_read c l2 addr len (m : M) : ro_inv c -> l2_inv l2 m -> is_word addr ->
  ram_blk (blk addr) -> in_block addr len ->
  exists c' l2' m', cache_read c l2 addr len m =
      Ok (block_read (ro_view c l2 m (blk addr)) (addr mod 64) len, (c', l2', m')) /\
    ro_inv c' /\ l2_result l2 m l2' m' (lower l2 m) /\
    (forall k, content c' k = None \/ content c' k = content c k \/
               (k = blk addr /\ content c' k = Some (false, lower l2 m k))).
Proof.
  intros Hro Hl2 Ha Hk [Hl0 Hl]. pose proof Ha as [Ha0 _]. pose proof Hro as [Hwf Hram Hcl].
  unfold cache_read, find_fill, line_load. rewrite block_offset_mod.
  assert (El : ((0 <=? len) && (len <=? WORD_SIZE) && (addr mod 64 + len <=? BLOCK_SIZE)) = true)
    by (unfold BLOCK_SIZE, WORD_SIZE; lia).
  rewrite El. pose proof (find_line_ok c addr Hwf Ha0) as Hf.
  destruct (find_line c addr) as [[c1 hit] way]. destruct Hf as (Hlk & Htm & _).
  pose proof Hlk as [Hwf1 Hg Hway Hc _ Hmiss].
  assert (Hro1 : ro_inv c1)
    by (split; [done | intros k x; rewrite Hc; apply Hram | intros k d; rewrite Hc; apply Hcl]).
  unfold ro_view, view. destruct hit.
  - destruct (lookup_hit_content c addr c1 way Ha0 Hlk) as (Hcon & _). rewrite Hcon. cbn.
    exists c1, l2, m. split; [done |]. split; [done |]. split; [by split |].
    intros k. rewrite Hc. auto.
  - rewrite (Hmiss eq_refl).
    destruct (ro_fetch c1 l2 addr way m Hro1 Hl2 Ha Hk Htm Hway) as
      (c' & l2' & m' & E & Hro' & Hr & _ & _ & Hd & Hall).
    { rewrite Hc. by apply Hmiss. }
    rewrite E. cbn. rewrite Hd. exists c', l2', m'. split; [done |]. split; [done |].
    split; [done |]. intros k. rewrite <- Hc. apply Hall.
Qed.
End ReadOnly.

(** ** The machine's caches *)

Definition cache_of (p : ptr) (m : Mach) : Cache := arr (heap m) (default 0 p).
Definition icache (m : Mach) : Cache := cache_of (L1I_cache m) m.
Definition own (m : Mach) : Cache := cache_of (L1D_cache m) m.
Definition l2c (m : Mach) : Cache := cache_of (L2_cache m) m.
Definition other_ptr (m : Mach) : ptr := arr (cores_l1d m) (1 - g_current_hartid m).
Definition other (m : Mach) : option Cache :=
  if 1 <? g_num_cores m then Some (cache_of (other_ptr m) m) else None.

Definition ptr_ok (p : ptr) (m : Mach) : Prop := exists i, p = Some i /\ in_range (heap m) i = true.

(** Distinct live objects behind the pointers. *)
Record ptrs_ok (m : Mach) : Prop := {
  po_i : ptr_ok (L1I_cache m) m;
  po_d : ptr_ok (L1D_cache m) m;
  po_2 : ptr_ok (L2_cache m) m;
  po_i2 : L1I_cache m <> L2_cache m;
  po_d2 : L1D_cache m <> L2_cache m;
  po_id : L1I_cache m <> L1D_cache m;
  po_dual : 1 < g_num_cores m ->
    ptr_ok (other_ptr m) m /\ other_ptr m <> L1I_cache m /\ other_ptr m <> L1D_cache m /\
    other_ptr m <> L2_cache m;
}.

Record mem_inv (m : Mach) : Prop := {
  mi_ptrs : ptrs_ok m;
  mi_bus : bus_wf (bus m);
  mi_data : match other m with
            | None => hier_inv (own m) (l2c m) (bus m)
            | Some o => coh_inv (own m) o (l2c m) (bus m)
            end;
  mi_icache : ro_inv (M := Bus) (icache m);
}.

(** The memory that loads and stores act on, by block and by byte. *)
Definition dview (m : Mach) (k : Z) : list Z :=
  match other m with
  | None => hview (own m) (l2c m) (bus m) k
  | Some o => cview (own m) o (l2c m) (bus m) k
  end.
Definition mem_byte (m : Mach) : flat := bytes_of (dview m).

(** Blocks whose instruction bytes agree with memory. *)
Definition fresh (m : Mach) (k : Z) : Prop :=
  (forall x, content (icache m) k = Some x -> x.2 = dview m k) /\
  lower (l2c m) (bus m) k = dview m k.

(** What an access leaves alone. *)
Record mach_frame (m m' : Mach) : Prop := {
  mf_cpu : cpu m' = cpu m;
  mf_ftrace : ftrace m' = ftrace m;
  mf_cycles : g_sim_cycles m' = g_sim_cycles m;
  mf_instret : g_sim_instret m' = g_sim_instret m;
  mf_hart : g_current_hartid m' = g_current_hartid m;
  mf_num : g_num_cores m' = g_num_cores m;
  mf_l1d : cores_l1d m' = cores_l1d m;
  mf_pi : L1I_cache m' = L1I_cache m;
  mf_pd : L1D_cache m' = L1D_cache m;
  mf_p2 : L2_cache m' = L2_cache m;
  mf_len : length (heap m') = length (heap m);
  mf_csrf : csrf (bus m') = csrf (bus m);
  mf_sim : sim_le (sim (bus m)) (sim (bus m'));
}.

#[export] Instance mach_frame_preorder : PreOrder mach_frame.
Proof.
  split; [done |]. intros a b c [? ? ? ? ? ? ? ? ? ? ? ? ?] [? ? ? ? ? ? ? ? ? ? ? ? ?].
  split; try congruence. by etransitivity.
Qed.

Lemma deref_ok p m : ptr_ok p m -> deref p m = Ok (cache_of p m).
Proof. intros (i & -> & Hi). unfold deref, cache_of. cbn. by rewrite Hi. Qed.

Lemma cache_of_put_eq p c m : ptr_ok p m -> cache_of p (put_cache p c m) = c.
Proof.
  intros (i & -> & Hi). unfold cache_of, put_cache. cbn. unfold in_range in Hi. zify_bool.
  by apply arr_upd_eq.
Qed.

Lemma cache_of_put_ne p q c m : ptr_ok p m -> ptr_ok q m -> p <> q ->
  cache_of p (put_cache q c m) = cache_of p m.
Proof.
  intros (i & -> & Hi) (j & -> & Hj) Hne. unfold cache_of, put_cache. cbn.
  unfold in_range in *. zify_bool. apply arr_upd_ne; [lia | congruence].
Qed.

Lemma ptr_ok_len p m m' : length (heap m') = length (heap m) -> ptr_ok p m -> ptr_ok p m'.
Proof. intros E (i & -> & Hi). exists i. unfold in_range in *. by rewrite E. Qed.

Lemma ptrs_ok_frame m m' : mach_frame m m' -> ptrs_ok m -> ptrs_ok m'.
Proof.
  intros [? ? ? ? Hh Hn Hl Hi Hd H2 Hlen ? ?] [? ? ? ? ? ? Hdual].
  split; rewrite ?Hi, ?Hd, ?H2; try done; try (by eapply ptr_ok_len).
  unfold other_ptr in *. rewrite Hn, Hl, Hh. intros Hgt.
  destruct (Hdual Hgt) as (? & ? & ? & ?). split; [by eapply ptr_ok_len | done].
Qed.

Lemma bus_put_cache p c m : bus (put_cache p c m) = bus m.
Proof. by destruct p. Qed.

(** ** Writing results back into the machine *)

(** The state with the given caches and bus, everything else as in [m]. *)
Record installed (m m' : Mach) (ic ow l2 : Cache) (ot : option Cache) (b : Bus) : Prop := {
  in_i : icache m' = ic;
  in_d : own m' = ow;
  in_2 : l2c m' = l2;
  in_o : other m' = ot;
  in_b : bus m' = b;
  in_frame : mach_frame m m';
}.

Section Install.
Context (m : Mach) (Hp : ptrs_ok m).

Lemma other_put p c : ptr_ok p m -> (1 < g_num_cores m -> other_ptr m <> p) ->
  other (put_cache p c m) = other m.
Proof using Hp.
  intros Hok Hne. unfold other.
  replace (g_num_cores (put_cache p c m)) with (g_num_cores m) by (by destruct p).
  replace (other_ptr (put_cache p c m)) with (other_ptr m) by (by destruct p).
  destruct (Z.ltb_spec 1 (g_num_cores m)) as [Hd|]; [| done].
  f_equal. apply cache_of_put_ne; [| done | by apply Hne].
  by apply (po_dual _ Hp).
Qed.

Lemma put_frame p c : ptr_ok p m -> mach_frame m (put_cache p c m).
Proof using Hp. intros (i & -> & Hi). split; try done. cbn. apply length_upd. Qed.

Lemma bus_frame b : csrf b = csrf (bus m) -> sim_le (sim (bus m)) (sim b) ->
  mach_frame m (put_bus b m).
Proof using Hp. intros. by split. Qed.
End Install.

Lemma install_l1 m p c l2 b : ptrs_ok m -> ptr_ok p m -> p <> L2_cache m ->
  (1 < g_num_cores m -> other_ptr m <> p) ->
  csrf b = csrf (bus m) -> sim_le (sim (bus m)) (sim b) ->
  let m' := put_bus b (put_cache (L2_cache m) l2 (put_cache p c m)) in
  l2c m' = l2 /\ other m' = other m /\ bus m' = b /\ mach_frame m m' /\
  cache_of p m' = c /\
  (forall q, ptr_ok q m -> q <> p -> q <> L2_cache m -> cache_of q m' = cache_of q m).
Proof.
  intros Hp Hok Hne Ho Hc Hs. cbv zeta.
  pose proof (put_frame m Hp p c Hok) as Hf1. set (m1 := put_cache p c m) in *.
  pose proof (ptrs_ok_frame m m1 Hf1 Hp) as Hp1.
  assert (E2 : L2_cache m1 = L2_cache m) by apply Hf1.
  assert (Eo : other_ptr m1 = other_ptr m) by (by unfold m1; destruct p).
  pose proof (po_2 _ Hp1) as Hok2. rewrite E2 in Hok2.
  pose proof (put_frame m1 Hp1 (L2_cache m) l2 Hok2) as Hf2.
  set (m2 := put_cache (L2_cache m) l2 m1) in *.
  assert (E2' : L2_cache m2 = L2_cache m) by (by rewrite (mf_p2 _ _ Hf2)).
  assert (Hokm : forall q, ptr_ok q m -> ptr_ok q m1)
    by (intros q; apply ptr_ok_len, Hf1).
  split; [| split; [| split; [done | split; [| split]]]].
  - unfold l2c. change (cache_of (L2_cache (put_bus b m2)) (put_bus b m2)) with (cache_of (L2_cache m2) m2).
    rewrite E2'. by apply cache_of_put_eq.
  - change (other (put_bus b m2)) with (other m2). unfold m2.
    rewrite (other_put m1 Hp1 (L2_cache m) l2 Hok2).
    + by apply other_put.
    + rewrite Eo. unfold m1. replace (g_num_cores (put_cache p c m)) with (g_num_cores m)
        by (by destruct p). intros Hd. by apply (po_dual _ Hp Hd).
  - transitivity m1; [done |]. transitivity m2; [done |]. apply bus_frame.
    + by apply (ptrs_ok_frame m1).
    + by rewrite (mf_csrf _ _ Hf2), (mf_csrf _ _ Hf1).
    + unfold m2, m1. by rewrite !bus_put_cache.
  - change (cache_of p (put_bus b m2)) with (cache_of p m2). unfold m2.
    rewrite cache_of_put_ne by auto. by apply cache_of_put_eq.
  - intros q Hq Hqp Hq2. change (cache_of q (put_bus b m2)) with (cache_of q m2). unfold m2.
    rewrite cache_of_put_ne by auto. by apply cache_of_put_ne.
Qed.

Lemma install_own m c l2 b : ptrs_ok m -> csrf b = csrf (bus m) -> sim_le (sim (bus m)) (sim b) ->
  installed m (put_bus b (put_cache (L2_cache m) l2 (put_cache (L1D_cache m) c m)))
    (icache m) c l2 (other m) b.
Proof.
  intros Hp Hc Hs. pose proof Hp as [Hi Hd H2 Hi2 Hd2 Hid Hdual].
  destruct (install_l1 m (L1D_cache m) c l2 b Hp Hd Hd2) as (E1 & E2 & E3 & E4 & E5 & E6); try done.
  { intros Hgt. by apply Hdual. }
  split; try done.
  - unfold icache. rewrite (mf_pi _ _ E4). by apply E6.
  - unfold own. by rewrite (mf_pd _ _ E4).
Qed.

Lemma install_icache m c l2 b : ptrs_ok m -> csrf b = csrf (bus m) -> sim_le (sim (bus m)) (sim b) ->
  installed m (put_bus b (put_cache (L2_cache m) l2 (put_cache (L1I_cache m) c m)))
    c (own m) l2 (other m) b.
Proof.
  intros Hp Hc Hs. pose proof Hp as [Hi Hd H2 Hi2 Hd2 Hid Hdual].
  destruct (install_l1 m (L1I_cache m) c l2 b Hp Hi Hi2) as (E1 & E2 & E3 & E4 & E5 & E6); try done.
  { intros Hgt. by apply Hdual. }
  split; try done.
  - unfold icache. by rewrite (mf_pi _ _ E4).
  - unfold own. rewrite (mf_pd _ _ E4). apply E6; [done | congruence | done].
Qed.

(** [snoop_other] writes the other cache first. *)
Lemma install_other m c l2 b : ptrs_ok m -> 1 < g_num_cores m ->
  csrf b = csrf (bus m) -> sim_le (sim (bus m)) (sim b) ->
  installed m (put_bus b (put_cache (L2_cache m) l2 (put_cache (other_ptr m) c m)))
    (icache m) (own m) l2 (Some c) b.
Proof.
  intros Hp Hgt Hc Hs. pose proof Hp as [Hi Hd H2 Hi2 Hd2 Hid Hdual].
  destruct (Hdual Hgt) as (Hok & Hni & Hnd & Hn2).
  set (p := other_ptr m) in *.
  pose proof (put_frame m Hp p c Hok) as Hf1. set (m1 := put_cache p c m) in *.
  pose proof (ptrs_ok_frame m m1 Hf1 Hp) as Hp1.
  assert (Hokm : forall q, ptr_ok q m -> ptr_ok q m1) by (intros q; apply ptr_ok_len, Hf1).
  pose proof (put_frame m1 Hp1 (L2_cache m) l2 (Hokm _ H2)) as Hf2.
  set (m2 := put_cache (L2_cache m) l2 m1) in *.
  assert (Hfr : mach_frame m (put_bus b m2)).
  { transitivity m1; [done |]. transitivity m2; [done |]. apply bus_frame.
    - by apply (ptrs_ok_frame m1).
    - by rewrite (mf_csrf _ _ Hf2), (mf_csrf _ _ Hf1).
    - unfold m2, m1. by rewrite !bus_put_cache. }
  assert (Hq : forall q, ptr_ok q m -> q <> p -> q <> L2_cache m ->
    cache_of q (put_bus b m2) = cache_of q m).
  { intros q Hq Hqp Hq2. change (cache_of q (put_bus b m2)) with (cache_of q m2). unfold m2.
    rewrite cache_of_put_ne by auto. by apply cache_of_put_ne. }
  split; try done.
  - unfold icache. rewrite (mf_pi _ _ Hfr). by apply Hq.
  - unfold own. rewrite (mf_pd _ _ Hfr). by apply Hq.
  - unfold l2c. rewrite (mf_p2 _ _ Hfr).
    change (cache_of (L2_cache m) (put_bus b m2)) with (cache_of (L2_cache m) m2).
    apply cache_of_put_eq. auto.
  - unfold other. rewrite (mf_num _ _ Hfr). destruct (Z.ltb_spec 1 (g_num_cores m)); [| lia].
    f_equal. unfold other_ptr. rewrite (mf_l1d _ _ Hfr), (mf_hart _ _ Hfr). fold (other_ptr m). fold p.
    change (cache_of p (put_bus b m2)) with (cache_of p m2). unfold m2.
    rewrite cache_of_put_ne by auto. by apply cache_of_put_eq.
Qed.

(** ** Accesses *)

Lemma cached_ram addr : cached addr = true -> is_word addr /\ ram_blk (M := Bus) (blk addr).
Proof.
  unfold cached. intros Hc. zify_bool. split; [unfold is_word; lia |].
  cbn [ram_blk Bus_laws]. rewrite pmem_blk_bounds. unfold blk.
  split; [apply Z.div_le_lower_bound; lia | apply Z.div_lt_upper_bound; lia].
Qed.

Lemma ram_cached a : ram_blk (M := Bus) (blk a) -> cached a = true.
Proof.
  cbn [ram_blk Bus_laws]. rewrite pmem_blk_bounds. unfold blk, cached. intros Hk.
  pose proof (Z.div_mod a 64 ltac:(lia)). pose proof (Z.mod_pos_bound a 64 ltac:(lia)). lia.
Qed.

Lemma bus_wf_only b b' : bus_wf b -> only_ram b b' -> store_inv b' ->
  bus_wf b' /\ csrf b' = csrf b /\ sim_le (sim b) (sim b').
Proof.
  intros [? ? ?] (Hs & Hc & Hi) Hm. cbn in Hm.
  split; [split; [done | by rewrite Hi | by rewrite Hc] | split; [done | by rewrite Hs]].
Qed.

(** An access that takes memory to [B]; fetches of blocks outside [touched]
    keep agreeing with memory. *)
Record access_ok (m m' : Mach) (B : flat) (touched : Z -> Prop) : Prop := {
  ao_inv : mem_inv m';
  ao_frame : mach_frame m m';
  ao_only : only_ram (bus m) (bus m');
  ao_mem : forall a, cached a = true -> mem_byte m' a = B a;
  ao_fresh : forall k, ram_blk (M := Bus) k -> ~ touched k -> fresh m k -> fresh m' k;
}.

Lemma access_ok_trans m m1 m2 B T : access_ok m m1 (mem_byte m) (fun _ => False) ->
  access_ok m1 m2 B T -> access_ok m m2 B T.
Proof.
  intros [? ? ? Hm Hf] [? ? ? Hm' Hf']. split; try done.
  - by transitivity m1.
  - by transitivity (bus m1).
  - intros k Hk Ht Hfr. apply Hf'; [done | done |]. apply Hf; [done | intros [] | done].
Qed.

(** The shared part of the step lemmas: a new own and other cache, a new L2
    and bus, whose data view is [V]. *)
Lemma step_access m m' ow l2 ot b (V : Z -> list Z) B T : mem_inv m ->
  installed m m' (icache m) ow l2 ot b ->
  (match ot with None => hier_inv ow l2 b | Some o => coh_inv ow o l2 b end) ->
  only_ram (bus m) b -> store_inv b ->
  (forall k, ram_blk (M := Bus) k ->
     match ot with None => hview ow l2 b k | Some o => cview ow o l2 b k end = V k) ->
  (forall a, cached a = true -> bytes_of V a = B a) ->
  (forall k, ram_blk (M := Bus) k -> ~ T k -> V k = dview m k /\
     (lower l2 b k = lower (l2c m) (bus m) k \/ lower l2 b k = dview m k)) ->
  access_ok m m' B T.
Proof.
  intros [Hp Hb Hd Hi] [Ei Eo E2 Et Eb Hf] Hinv Honly Hst HV HB Hkeep.
  destruct (bus_wf_only (bus m) b Hb Honly Hst) as (Hb' & _).
  assert (Hview : forall k, ram_blk (M := Bus) k -> dview m' k = V k).
  { intros k Hk. unfold dview. rewrite Et, Eo, E2, Eb. by apply HV. }
  split; try done.
  - split; [by eapply ptrs_ok_frame | by rewrite Eb | by rewrite Et, Eo, E2, Eb | by rewrite Ei].
  - by rewrite Eb.
  - intros a Ha. rewrite <- HB by done. unfold mem_byte, bytes_of.
    rewrite Hview; [done |]. by apply cached_ram.
  - intros k Hk Ht [Hf1 Hf2]. destruct (Hkeep k Hk Ht) as [Hv Hl]. unfold fresh.
    rewrite Ei, E2, Eb, Hview, Hv by done. split; [done |].
    destruct Hl as [-> | ->]; done.
Qed.

(** A dirty line of either data cache is what memory shows. *)
Lemma dirty_is_dview m k d : mem_inv m ->
  content (own m) k = Some (true, d) \/
  (exists o, other m = Some o /\ content o k = Some (true, d)) -> dview m k = d.
Proof.
  intros [_ _ Hd _] Hx. unfold dview. destruct (other m) as [o|].
  - destruct Hx as [Hx | (o' & E & Hx)].
    + unfold cview. rewrite (ci_excl _ _ _ _ Hd _ _ Hx). unfold hview, view. by rewrite Hx.
    + injection E as <-. unfold cview. by rewrite Hx.
  - destruct Hx as [Hx | (o' & E & Hx)]; [| done]. unfold hview, view. by rewrite Hx.
Qed.

Lemma snoop_lower c l2 (b : Bus) addr c' l2' b' x k : hier_inv c l2 b ->
  snoop_result c l2 b addr c' l2' b' x -> ram_blk k ->
  lower l2' b' k = lower l2 b k \/ content c k = Some (true, lower l2' b' k).
Proof.
  intros [Hc _] [_ _ _ Hr] Hk. rewrite (l2r_view _ _ _ _ _ Hr) by done.
  destruct (Z.eqb_spec k (blk addr)) as [->|]; [| by left].
  unfold hview, view. destruct (content c (blk addr)) as [[[] d]|] eqn:E; cbn;
    [by right | left; by apply (l1_clean _ _ Hc) | by left].
Qed.

(** Either snoop on the machine. *)
Lemma snoop_mach m addr f : mem_inv m -> is_word addr ->
  (forall c l2 b, hier_inv c l2 b -> exists c' l2' b' x,
     f (Some c) l2 b = Ok (Some c', l2', b') /\ snoop_result c l2 b addr c' l2' b' x /\
     (x = None \/ x = (fun y => (false, y.2)) <$> content c (blk addr))) ->
  exists m', snoop_other f m = Ok m' /\ access_ok m m' (mem_byte m) (fun _ => False) /\
    (forall o, other m' = Some o -> exists c l2' b' x, snoop_result c (l2c m) (bus m) addr o l2' b' x /\
       other m = Some c /\ f (Some c) (l2c m) (bus m) = Ok (Some o, l2', b') /\
       forall d, content o (blk addr) <> Some (true, d)).
Proof.
  intros Hm Ha Hf. pose proof Hm as [Hp Hb Hd Hi]. unfold snoop_other.
  destruct (Z.ltb_spec 1 (g_num_cores m)) as [Hgt|Hle].
  2: { exists m. split; [done | split].
       - split; try done; by intros.
       - intros o. unfold other. destruct (Z.ltb_spec 1 (g_num_cores m)); [lia | done]. }
  fold (other_ptr m). destruct (po_dual _ Hp Hgt) as (Hok & _).
  assert (Eo : other m = Some (cache_of (other_ptr m) m))
    by (unfold other; destruct (Z.ltb_spec 1 (g_num_cores m)); [done | lia]).
  set (c := cache_of (other_ptr m) m) in *. rewrite Eo in Hd.
  rewrite (deref_ok _ _ (po_2 _ Hp)). cbn [mbind Res_bind]. fold (l2c m).
  destruct (Hf c (l2c m) (bus m) (ci_other _ _ _ _ Hd)) as (c' & l2' & b' & x & E & Hr & Hx).
  assert (Eopt : (match other_ptr m with Some _ => y ← deref (other_ptr m) m; Ok (Some y) | None => Ok None end)
    = Ok (Some c)).
  { destruct (other_ptr m) eqn:Ep; [by rewrite deref_ok | by destruct Hok as (? & ? & _)]. }
  rewrite Eopt. cbn [mbind Res_bind]. rewrite E. cbn [mbind Res_bind].
  destruct (snoop_coherent (own m) c (l2c m) (bus m) addr c' l2' b' x Hd Hr Hx) as (Hd' & Hv & Hnd).
  destruct (bus_wf_only (bus m) b' Hb (l2r_only _ _ _ _ _ (sr_l2 _ _ _ _ _ _ _ _ Hr))
    (l2_store _ _ (l2r_inv _ _ _ _ _ (sr_l2 _ _ _ _ _ _ _ _ Hr)))) as (_ & Hcs & Hsm).
  replace (L2_cache (put_cache (other_ptr m) c' m)) with (L2_cache m) by (by destruct (other_ptr m)).
  pose proof (install_other m c' l2' b' Hp Hgt Hcs Hsm) as Hin.
  eexists. split; [reflexivity | split].
  - eapply (step_access m _ (own m) l2' (Some c') b' (cview (own m) c (l2c m) (bus m))); try done.
    + apply Hr.
    + apply Hr.
    + intros a Hca. unfold mem_byte, bytes_of, dview. by rewrite Eo.
    + intros k Hk _. assert (Ev : cview (own m) c (l2c m) (bus m) k = dview m k)
        by (unfold dview; by rewrite Eo).
      split; [done |]. destruct (snoop_lower _ _ _ _ _ _ _ _ _ (ci_other _ _ _ _ Hd) Hr Hk) as [-> | Hx'];
        [by left | right].
      symmetry. apply dirty_is_dview; [done |]. right. eauto.
  - intros o Ho. rewrite (in_o _ _ _ _ _ _ _ Hin) in Ho. injection Ho as <-.
    exists c, l2', b', x. done.
Qed.

(** The hierarchy below the core's own data cache. *)
Lemma own_hier m : mem_inv m -> hier_inv (own m) (l2c m) (bus m).
Proof. intros [_ _ Hd _]. destruct (other m); [apply Hd | done]. Qed.

(** What memory shows when the own cache shows [V]. *)
Definition with_other (m : Mach) (V : Z -> list Z) (k : Z) : list Z :=
  match other m with
  | Some o => match content o k with Some (true, d) => d | _ => V k end
  | None => V k
  end.

Lemma dview_with_other m k : dview m k = with_other m (hview (own m) (l2c m) (bus m)) k.
Proof. unfold dview, with_other, cview. by destruct (other m). Qed.

Lemma own_step m wr a' l2' b' k0 V B : mem_inv m ->
  hier_step wr (own m) (l2c m) (bus m) a' l2' b' k0 V ->
  (forall o d, other m = Some o -> content o k0 <> Some (true, d)) ->
  (wr = true -> forall o, other m = Some o -> content o k0 = None) ->
  (forall a, cached a = true -> bytes_of (with_other m V) a = B a) ->
  (forall k, ram_blk (M := Bus) k -> ~ (wr = true /\ k = k0) -> V k = hview (own m) (l2c m) (bus m) k) ->
  access_ok m (put_bus b' (put_cache (L2_cache m) l2' (put_cache (L1D_cache m) a' m))) B
    (fun k => wr = true /\ k = k0).
Proof.
  intros Hm Hs Hnd Hnone HB HV. pose proof Hm as [Hp Hb Hd Hi].
  pose proof (hs_inv _ _ _ _ _ _ _ _ _ Hs) as Hinv'.
  destruct (bus_wf_only (bus m) b' Hb (hs_only _ _ _ _ _ _ _ _ _ Hs)
    (l2_store _ _ (hi_l2 _ _ _ Hinv'))) as (_ & Hcs & Hsm).
  eapply (step_access m _ a' l2' (other m) b' (with_other m V)); try done.
  - by apply install_own.
  - destruct (other m) as [o|] eqn:Eo; [| done].
    apply (access_coherent wr (own m) o (l2c m) (bus m) a' l2' b' k0 V Hd Hs); auto.
  - apply Hs.
  - apply (l2_store _ _ (hi_l2 _ _ _ Hinv')).
  - intros k Hk. unfold with_other. destruct (other m) as [o|] eqn:Eo; [| by apply Hs].
    apply (access_coherent wr (own m) o (l2c m) (bus m) a' l2' b' k0 V Hd Hs); auto.
  - intros k Hk Ht. rewrite dview_with_other. split.
    + unfold with_other. rewrite HV by done. done.
    + destruct (hs_lower _ _ _ _ _ _ _ _ _ Hs k Hk) as [-> | Hx]; [by left | right].
      rewrite <- dview_with_other. symmetry. apply dirty_is_dview; [done | by left].
Qed.

Lemma bytes_of_dview m a : bytes_of (with_other m (hview (own m) (l2c m) (bus m))) a = mem_byte m a.
Proof. unfold mem_byte, bytes_of. by rewrite dview_with_other. Qed.

(** Where the other cache has no dirty copy, the own cache shows memory. *)
Lemma own_shows m k : (forall o d, other m = Some o -> content o k <> Some (true, d)) ->
  hview (own m) (l2c m) (bus m) k = dview m k.
Proof.
  intros Hnd. rewrite dview_with_other. unfold with_other. destruct (other m) as [o|]; [| done].
  destruct (content o k) as [[[] d]|] eqn:E; [by destruct (Hnd o d) | done | done].
Qed.

Lemma dview_is_block m k : mem_inv m -> ram_blk (M := Bus) k -> is_block (dview m k).
Proof.
  intros [_ _ Hd _] Hk. unfold dview.
  destruct (other m); [by apply cview_is_block | by apply view_is_block].
Qed.

Lemma access_ok_weaken m m' B (T T' : Z -> Prop) : (forall k, T k -> T' k) ->
  access_ok m m' B T -> access_ok m m' B T'.
Proof. intros HT [? ? ? ? Hf]. split; try done. intros k Hk Ht. apply Hf; auto. Qed.

Lemma own_read m addr len : mem_inv m -> cached addr = true -> in_block addr len ->
  (forall o d, other m = Some o -> content o (blk addr) <> Some (true, d)) ->
  exists m', on_caches (L1D_cache m) (L2_cache m) (fun l1 l2 b => cache_read l1 l2 addr len b) m
      = Ok (flat_read (mem_byte m) addr len, m') /\
    access_ok m m' (mem_byte m) (fun _ => False).
Proof.
  intros Hm Hc Hl Hnd. destruct (cached_ram addr Hc) as [Ha Hk]. pose proof (own_hier m Hm) as Hh.
  unfold on_caches. rewrite !deref_ok by apply Hm. cbn [mbind Res_bind]. fold (own m) (l2c m).
  destruct (cache_read_ok (own m) (l2c m) addr len (bus m) Hh Ha Hk Hl) as (a' & l2' & b' & E & Hs & _).
  rewrite E. cbn [mbind Res_bind]. eexists. split.
  - rewrite own_shows by done. rewrite (block_read_flat (dview m)) by (try done; by apply dview_is_block).
    reflexivity.
  - eapply access_ok_weaken; [| eapply own_step; try done].
    by intros k [? _].
Qed.

Lemma own_write m addr len v : mem_inv m -> cached addr = true -> in_block addr len ->
  (forall o, other m = Some o -> content o (blk addr) = None) ->
  exists m', on_caches (L1D_cache m) (L2_cache m)
      (fun l1 l2 b => st ← cache_write l1 l2 addr len v b; Ok ((), st)) m = Ok ((), m') /\
    access_ok m m' (flat_write (mem_byte m) addr len v) (fun k => k = blk addr).
Proof.
  intros Hm Hc Hl Hno. destruct (cached_ram addr Hc) as [Ha Hk]. pose proof (own_hier m Hm) as Hh.
  assert (Hnd : forall o d, other m = Some o -> content o (blk addr) <> Some (true, d))
    by (intros o d Ho; by rewrite (Hno o Ho)).
  unfold on_caches. rewrite !deref_ok by apply Hm. cbn [mbind Res_bind]. fold (own m) (l2c m).
  destruct (cache_write_ok (own m) (l2c m) addr len v (bus m) Hh Ha Hk Hl)
    as (a' & l2' & b' & E & Hs & _).
  rewrite E. cbn [mbind Res_bind]. eexists. split; [reflexivity |].
  eapply access_ok_weaken; [| eapply own_step; try done].
  - by intros k [_ ?].
  - intros a Hca. apply (block_write_flat (dview m)); [by apply dview_is_block | done |].
    intros k. rewrite <- own_shows by done. unfold with_other.
    destruct (Z.eqb_spec k (blk addr)) as [->|]; [| by rewrite dview_with_other].
    destruct (other m) as [o|] eqn:Eo; [by rewrite (Hno o eq_refl) | done].
  - intros k Hkk Ht. cbn. destruct (Z.eqb_spec k (blk addr)) as [->|]; [by destruct Ht | done].
Qed.

(** ** The functions of vmem.c on the cached range *)

Lemma snoop_flush_mach m addr : mem_inv m -> is_word addr ->
  exists m', snoop_flush addr m = Ok m' /\ access_ok m m' (mem_byte m) (fun _ => False) /\
    (forall o d, other m' = Some o -> content o (blk addr) <> Some (true, d)).
Proof.
  intros Hm Ha.
  destruct (snoop_mach m addr (fun c l2 b => cache_snoop_flush_dirty c l2 addr b) Hm Ha)
    as (m' & E & Hok & Ho).
  { intros c l2 b Hi. destruct (snoop_flush_ok c l2 addr b Hi Ha) as (c' & l2' & b' & E & Hr).
    eexists c', l2', b', _. split; [done | split; [done | by right]]. }
  exists m'. split; [done | split; [done |]]. intros o d Hoo.
  destruct (Ho o Hoo) as (? & ? & ? & ? & _ & _ & _ & Hnd). apply Hnd.
Qed.

Lemma snoop_invalidate_mach m addr : mem_inv m -> is_word addr ->
  exists m', snoop_invalidate addr m = Ok m' /\ access_ok m m' (mem_byte m) (fun _ => False) /\
    (forall o, other m' = Some o -> content o (blk addr) = None).
Proof.
  intros Hm Ha.
  destruct (snoop_mach m addr (fun c l2 b => cache_snoop_invalidate c l2 addr b) Hm Ha)
    as (m' & E & Hok & Ho).
  { intros c l2 b Hi. destruct (snoop_invalidate_ok c l2 addr b Hi Ha) as (c' & l2' & b' & E & Hr).
    eexists c', l2', b', _. split; [done | split; [done | by left]]. }
  exists m'. split; [done | split; [done |]]. intros o Hoo.
  destruct (Ho o Hoo) as (c & l2' & b' & x & _ & Hoc & Ef & _).
  pose proof (mi_data _ Hm) as Hd. rewrite Hoc in Hd.
  destruct (snoop_invalidate_ok c (l2c m) addr (bus m) (ci_other _ _ _ _ Hd) Ha)
    as (c' & l2'' & b'' & E' & Hr).
  cbv beta in Ef. rewrite E' in Ef. injection Ef as <- _ _.
  rewrite (sr_content _ _ _ _ _ _ _ _ Hr). by rewrite Z.eqb_refl.
Qed.

Lemma vaddr_read_ok m addr len : mem_inv m -> cached addr = true -> in_block addr len ->
  exists m', vaddr_read addr len m = Ok (flat_read (mem_byte m) addr len, m') /\
    access_ok m m' (mem_byte m) (fun _ => False).
Proof.
  intros Hm Hc Hl. destruct (cached_ram addr Hc) as [Ha Hk]. unfold vaddr_read. rewrite Hc.
  destruct (snoop_flush_mach m addr Hm Ha) as (m1 & E1 & H1 & Hnd). rewrite E1. cbn [mbind Res_bind].
  destruct (own_read m1 addr len (ao_inv _ _ _ _ H1) Hc Hl Hnd) as (m2 & E2 & H2). rewrite E2.
  assert (HB : forall a, ram_blk (M := Bus) (blk a) -> mem_byte m1 a = mem_byte m a)
    by (intros a Hka; apply (ao_mem _ _ _ _ H1); by apply ram_cached).
  exists m2. split.
  - do 2 f_equal. by apply (flat_read_ext (M := Bus)).
  - eapply access_ok_trans; [done |]. destruct H2 as [? ? ? Hmm ?]. split; try done.
    intros a Hca. rewrite Hmm by done. by apply (ao_mem _ _ _ _ H1).
Qed.

Lemma vaddr_write_ok m addr len v : mem_inv m -> cached addr = true -> in_block addr len ->
  exists m', vaddr_write addr len v m = Ok m' /\
    access_ok m m' (flat_write (mem_byte m) addr len v) (fun k => k = blk addr).
Proof.
  intros Hm Hc Hl. destruct (cached_ram addr Hc) as [Ha Hk]. unfold vaddr_write. rewrite Hc.
  destruct (snoop_invalidate_mach m addr Hm Ha) as (m1 & E1 & H1 & Hno). rewrite E1. cbn [mbind Res_bind].
  destruct (own_write m1 addr len v (ao_inv _ _ _ _ H1) Hc Hl Hno) as (m2 & E2 & H2). rewrite E2.
  exists m2. split; [done |]. eapply access_ok_trans; [done |].
  destruct H2 as [? ? ? Hmm ?]. split; try done.
  intros a Hca. rewrite Hmm by done. unfold flat_write. case_if; [done |]. by apply (ao_mem _ _ _ _ H1).
Qed.

(** The bytes that a fetch sees. *)
Definition iview (m : Mach) : Z -> list Z := ro_view (icache m) (l2c m) (bus m).

Lemma fresh_iview m k : fresh m k -> iview m k = dview m k.
Proof.
  intros [H1 H2]. unfold iview, ro_view, view. destruct (content (icache m) k) eqn:E; cbn; [| done].
  by apply H1.
Qed.

Lemma iview_is_block m k : mem_inv m -> ram_blk (M := Bus) k -> is_block (iview m k).
Proof.
  intros Hm Hk. unfold iview, ro_view, view. pose proof (own_hier m Hm) as [_ Hl2].
  destruct (content (icache m) k) eqn:E; cbn.
  - by apply (content_is_block (icache m) k _ (ro_wf _ (mi_icache _ Hm)) E).
  - by apply lower_is_block.
Qed.

Lemma vaddr_ifetch_ok m addr len : mem_inv m -> cached addr = true -> in_block addr len ->
  exists m', vaddr_ifetch addr len m = Ok (flat_read (bytes_of (iview m)) addr len, m') /\
    access_ok m m' (mem_byte m) (fun _ => False).
Proof.
  intros Hm Hc Hl. destruct (cached_ram addr Hc) as [Ha Hk]. pose proof (own_hier m Hm) as [Ho1 Ho2].
  pose proof Hm as [Hp Hb Hd Hi].
  unfold vaddr_ifetch, on_caches. rewrite Hc, !deref_ok by apply Hm.
  cbn [mbind Res_bind]. fold (icache m) (l2c m).
  destruct (ro_read (icache m) (l2c m) addr len (bus m) Hi Ho2 Ha Hk Hl)
    as (c' & l2' & b' & E & Hi' & Hr & Hall).
  rewrite E. cbn [mbind Res_bind]. destruct Hr as [Hl2' Hg Hon Hv].
  destruct (bus_wf_only (bus m) b' Hb Hon (l2_store _ _ Hl2')) as (Hb' & Hcs & Hsm).
  pose proof (install_icache m c' l2' b' Hp Hcs Hsm) as [Ei Eo E2 Et Eb Hf].
  set (m' := put_bus b' _) in *.
  assert (Hl1 : forall c, l1_inv (M := Bus) c (lower (l2c m) (bus m)) -> l1_inv (M := Bus) c (lower l2' b')).
  { intros c [? Hr' Hcl']. split; try done. intros k d Hkd. rewrite Hv by (by eapply Hr').
    by apply Hcl'. }
  assert (Hvw : forall c k, ram_blk (M := Bus) k ->
    hview c l2' b' k = hview c (l2c m) (bus m) k)
    by (intros c k Hkk; unfold hview, view; by rewrite Hv).
  assert (Hdv : forall k, ram_blk (M := Bus) k -> dview m' k = dview m k).
  { intros k Hkk. unfold dview, cview. rewrite Et, Eo, E2, Eb.
    destruct (other m); [| by apply Hvw]. by rewrite Hvw. }
  exists m'. split.
  { do 2 f_equal. apply (block_read_flat (iview m)); [by apply iview_is_block | done]. }
  split; try done.
  - split; [by eapply ptrs_ok_frame | by rewrite Eb | | by rewrite Ei].
    rewrite Et, Eo, E2, Eb. destruct (other m).
    + destruct Hd as [[? _] [? _] ? ?]. split; try done; split; auto.
    + destruct Hd as [? _]. split; auto.
  - intros a Hca. unfold mem_byte, bytes_of. rewrite Hdv; [done |]. by apply cached_ram.
  - intros k Hkk _ [H1 H2]. unfold fresh. rewrite Hdv, Ei, E2, Eb, Hv by done. split; [| done].
    intros x Hx. destruct (Hall k) as [E' | [E' | [-> E']]]; rewrite E' in Hx; simplify_eq; auto.
Qed.

(** ** The uncached range *)

Lemma ram_pmem b b' : pmem b' = pmem b -> forall k, ram (M := Bus) b' k = ram b k.
Proof. intros E k. cbn. unfold bus_block. by rewrite E. Qed.

(** Two machines that the memory interface cannot tell apart: the same caches
    and the same physical memory. *)
Record same_mem (m m' : Mach) : Prop := {
  sm_heap : heap m' = heap m;
  sm_pi : L1I_cache m' = L1I_cache m;
  sm_pd : L1D_cache m' = L1D_cache m;
  sm_p2 : L2_cache m' = L2_cache m;
  sm_l1d : cores_l1d m' = cores_l1d m;
  sm_num : g_num_cores m' = g_num_cores m;
  sm_hart : g_current_hartid m' = g_current_hartid m;
  sm_pmem : pmem (bus m') = pmem (bus m);
}.

#[export] Instance same_mem_preorder : PreOrder same_mem.
Proof.
  split; [done |]. intros a b c [? ? ? ? ? ? ? ?] [? ? ? ? ? ? ? ?]. split; congruence.
Qed.

Lemma same_mem_caches m m' : same_mem m m' ->
  icache m' = icache m /\ own m' = own m /\ l2c m' = l2c m /\ other m' = other m /\
  other_ptr m' = other_ptr m.
Proof.
  intros [Eh Ei Ed E2 El En Er _].
  unfold icache, own, l2c, other, other_ptr, cache_of. by rewrite Eh, Ei, Ed, E2, El, En, Er.
Qed.

Lemma same_mem_view m m' : same_mem m m' ->
  (forall k, dview m' k = dview m k) /\ (forall k, fresh m k -> fresh m' k).
Proof.
  intros Hs. destruct (same_mem_caches m m' Hs) as (Ei & Eo & E2 & Et & _).
  pose proof (ram_pmem _ _ (sm_pmem _ _ Hs)) as Hram.
  assert (Hlow : forall c k, lower c (bus m') k = lower c (bus m) k)
    by (intros c k; unfold lower; by rewrite Hram).
  assert (Hdv : forall k, dview m' k = dview m k).
  { intros k. unfold dview, cview, hview, view. rewrite Et, Eo, E2. destruct (other m); by rewrite Hlow. }
  split; [done |]. intros k [H1 H2]. unfold fresh. by rewrite Ei, Hdv, E2, Hlow.
Qed.

(** The hierarchy over a bus with the same physical memory. *)
Lemma lower_pmem b b' c k : pmem b' = pmem b -> lower c b' k = lower c b k.
Proof. intros E. unfold lower. by rewrite (ram_pmem _ _ E). Qed.

Lemma hier_pmem b b' c l : pmem b' = pmem b -> bus_wf b' -> hier_inv c l b -> hier_inv c l b'.
Proof.
  intros E Hb [[? ? Hcl] [? _ ? Hcl2]]. split; split; try done; [| apply Hb |].
  - intros k x Hx. rewrite (lower_pmem b) by done. by apply Hcl.
  - intros k x Hx. rewrite (ram_pmem _ _ E). by apply Hcl2.
Qed.

Lemma same_mem_inv m m' : same_mem m m' -> bus_wf (bus m') -> mem_inv m -> mem_inv m'.
Proof.
  intros Hs Hb' [Hp Hb Hd Hi]. destruct (same_mem_caches m m' Hs) as (Ei & Eo & E2 & Et & Etp).
  pose proof (sm_pmem _ _ Hs) as Epm.
  assert (Hh : forall c l, hier_inv c l (bus m) -> hier_inv c l (bus m')) by (intros c l; by apply hier_pmem).
  split; [| done | | by rewrite Ei].
  - destruct Hs as [Eh Epi Epd Ep2 _ En _ _]. destruct Hp as [? ? ? ? ? ? Hdual].
    assert (Hlen : length (heap m') = length (heap m)) by (by rewrite Eh).
    split; rewrite ?Epi, ?Epd, ?Ep2; try done; try (by eapply ptr_ok_len).
    rewrite En, Etp. intros Hgt. destruct (Hdual Hgt) as (? & ? & ? & ?).
    split; [by eapply ptr_ok_len | done].
  - rewrite Et, Eo, E2. destruct (other m); [| by apply Hh]. destruct Hd as [? ? ? ?]. split; auto.
Qed.

Lemma same_mem_bus b m : pmem b = pmem (bus m) -> same_mem m (put_bus b m).
Proof. intros E. by split. Qed.

Lemma mem_inv_bus m b : mem_inv m -> bus_wf b -> pmem b = pmem (bus m) ->
  csrf b = csrf (bus m) -> sim_le (sim (bus m)) (sim b) ->
  let m' := put_bus b m in
  mem_inv m' /\ mach_frame m m' /\ (forall k, dview m' k = dview m k) /\
  (forall k, fresh m k -> fresh m' k).
Proof.
  intros Hm Hb' Ep Ec Es m'. pose proof (same_mem_bus b m Ep) as Hs.
  destruct (same_mem_view _ _ Hs). split; [by eapply same_mem_inv | split; [by split | done]].
Qed.

Lemma bus_read_ok m addr len v m' : mem_inv m -> bus_read addr len m = Ok (v, m') ->
  mem_inv m' /\ mach_frame m m' /\ is_word v /\ (forall k, dview m' k = dview m k) /\
  (forall k, fresh m k -> fresh m' k).
Proof.
  intros Hm E. unfold bus_read in E. inv_res. destruct x as [x b]. inv_res.
  destruct (paddr_read_wf _ _ _ _ _ (mi_bus _ Hm) H) as (Hb & [Hc Hs] & Hp & Hv).
  destruct (mem_inv_bus m b Hm Hb Hp Hc Hs) as (? & ? & ? & ?). done.
Qed.

(** A store outside the cached range and not aliased to memory by the 32-bit
    mask leaves memory alone. *)
Lemma bus_write_ok m addr len v m' : mem_inv m -> in_pmem (low32 addr) = false ->
  bus_write addr len v m = Ok m' ->
  mem_inv m' /\ mach_frame m m' /\ (forall k, dview m' k = dview m k) /\
  (forall k, fresh m k -> fresh m' k).
Proof.
  intros Hm Hn E. unfold bus_write in E. inv_res.
  destruct (paddr_write_wf _ _ _ _ _ (mi_bus _ Hm) H) as (Hb & [Hc Hs]).
  assert (Hp : pmem x = pmem (bus m)).
  { unfold paddr_write in H.
    pose proof (bus_pmp_check_wf addr false true (bus m) (mi_bus _ Hm)) as (_ & _ & Hp & _).
    destruct (bus_pmp_check addr false true (bus m)) as [ok b1]. cbn in *. rewrite Hn in H.
    destruct (g_fb_base (io b1)); [case_if_in H |]; inv_res; done. }
  by destruct (mem_inv_bus m x Hm Hb Hp Hc Hs) as (? & ? & ? & ?).
Qed.

(** ** A machine after start-up *)

(** The caches of [init_cache_system] before any access, over a given bus. *)
Definition boot_on (b : Bus) : Mach :=
  let '(i, dc, l2) := init_cache_system in
  {| bus := b; heap := [i; dc; l2];
     L1I_cache := Some 0; L1D_cache := Some 1; L2_cache := Some 2;
     cores_l1d := [None; None]; g_num_cores := 1; g_current_hartid := 0;
     g_sim_cycles := 0; g_sim_instret := 0; cpu := mkCPU (replicate 32 0) 0x80000000;
     ftrace := ftrace_init |}.

Definition boot_mach (d : IO) : Mach := boot_on (boot_bus d).

Lemma boot_on_inv b : bus_wf b -> mem_inv (boot_on b) /\
  (forall k, dview (boot_on b) k = bus_block b k) /\ (forall k, fresh (boot_on b) k).
Proof.
  intros Hb.
  destruct (hier_init (M := Bus) L1D_S 8 "L1-Data" 8 16 "L2-Unified" b)
    as [Hh Hv]; [unfold L1D_S; lia | lia | lia | lia | apply Hb |].
  assert (Hic : forall k, content (icache (boot_on b)) k = None)
    by (intros k; apply (init_cache_content 6 8 "L1-Instruction")).
  split; [split | split].
  - split; try done; try (by eexists); by intros.
  - done.
  - exact Hh.
  - split; [apply (init_cache_wf 6 8 "L1-Instruction"); lia | |]; intros k x; by rewrite Hic.
  - exact Hv.
  - intros k. split; [intros x; by rewrite Hic |]. unfold dview, other. cbn [g_num_cores boot_on].
    transitivity (bus_block b k); [| symmetry; apply Hv].
    assert (E : content (l2c (boot_on b)) k = None) by apply (init_cache_content 8 16 "L2-Unified").
    unfold lower. by rewrite E.
Qed.

Lemma boot_mach_inv d : bus_wf (boot_bus d) -> mem_inv (boot_mach d) /\
  (forall k, dview (boot_mach d) k = bus_block (boot_bus d) k) /\
  (forall k, fresh (boot_mach d) k).
Proof. apply boot_on_inv. Qed.

(** ** Properties *)

(** Loads and stores act on one flat memory.  On the cached range, for one
    core or two, [vaddr_read] returns exactly the bytes of memory and changes
    none; [vaddr_write] stores exactly its bytes and changes no other; neither
    can fail, the state invariant is kept, and registers, counters and the rest
    of the machine are untouched. *)
Theorem vmem_flat m addr len v : mem_inv m -> cached addr = true -> in_block addr len ->
  (exists m', vaddr_read addr len m = Ok (flat_read (mem_byte m) addr len, m') /\
     mem_inv m' /\ mach_frame m m' /\
     forall a, cached a = true -> mem_byte m' a = mem_byte m a) /\
  (exists m', vaddr_write addr len v m = Ok m' /\ mem_inv m' /\ mach_frame m m' /\
     forall a, cached a = true -> mem_byte m' a = flat_write (mem_byte m) addr len v a).
Proof.
  intros Hm Hc Hl. split.
  - destruct (vaddr_read_ok m addr len Hm Hc Hl) as (m' & E & [? ? ? ? ?]). by exists m'.
  - destruct (vaddr_write_ok m addr len v Hm Hc Hl) as (m' & E & [? ? ? ? ?]). by exists m'.
Qed.

Lemma vmem_flat_witness : exists d m',
  init_devices ∅ (fun _ => 0) (io_static (fun _ => (0, 0)) (fun _ => [])) = Ok d /\
  vaddr_write 0x80000100 4 0xcafe (boot_mach d) = Ok m' /\ mem_byte m' 0x80000100 = 0xfe.
Proof.
  destruct (boot_bus_ok (fun _ => 0) (fun _ => (0, 0)) (fun _ => [])) as (d & E & Hb).
  destruct (boot_mach_inv d Hb) as (Hm & _).
  destruct (vmem_flat (boot_mach d) 0x80000100 4 0xcafe Hm) as [_ (m' & E' & _ & _ & Hb')].
  - reflexivity.
  - split; [lia | vm_compute; congruence].
  - exists d, m'. split; [exact E | split; [exact E' |]]. rewrite Hb' by reflexivity. reflexivity.
Defined.

(** Instruction fetch.  A fetch on the cached range always succeeds, changes
    no byte of memory and keeps every fresh block fresh; and from a fresh block
    it returns the bytes of memory.  Loads keep fresh blocks fresh, and a store
    keeps fresh every block but its own: code that has not been stored to is
    always fetched as it is in memory. *)
Theorem ifetch_fresh m addr len : mem_inv m -> cached addr = true -> in_block addr len ->
  (exists v m', vaddr_ifetch addr len m = Ok (v, m') /\ mem_inv m' /\
     (fresh m (blk addr) -> v = flat_read (mem_byte m) addr len) /\
     (forall a, cached a = true -> mem_byte m' a = mem_byte m a) /\
     (forall k, ram_blk (M := Bus) k -> fresh m k -> fresh m' k)) /\
  (forall v m' k, vaddr_read addr len m = Ok (v, m') -> ram_blk (M := Bus) k -> fresh m k -> fresh m' k) /\
  (forall v m' k, vaddr_write addr len v m = Ok m' -> ram_blk (M := Bus) k -> k <> blk addr ->
     fresh m k -> fresh m' k).
Proof.
  intros Hm Hc Hl. split; [| split].
  - destruct (vaddr_ifetch_ok m addr len Hm Hc Hl) as (m' & E & [? ? ? Hmem Hf]).
    eexists _, m'. split; [exact E |]. split; [done |]. split; [| split; [done |]].
    + intros Hfr. destruct (cached_ram addr Hc) as [_ Hk].
      rewrite <- (block_read_flat (iview m)), <- (block_read_flat (dview m));
        [| by apply dview_is_block | done | by apply iview_is_block | done].
      by rewrite fresh_iview.
    + intros k Hk. apply Hf; [done | intros []].
  - intros v m' k E Hk. destruct (vaddr_read_ok m addr len Hm Hc Hl) as (m1 & E1 & [? ? ? ? Hf]).
    rewrite E1 in E. injection E as <- <-. apply Hf; [done | intros []].
  - intros v m' k E Hk Hne. destruct (vaddr_write_ok m addr len v Hm Hc Hl) as (m1 & E1 & [? ? ? ? Hf]).
    rewrite E1 in E. injection E as <-. by apply Hf.
Qed.

Lemma ifetch_fresh_witness : exists d m',
  init_devices ∅ (fun _ => 0) (io_static (fun _ => (0, 0)) (fun _ => [])) = Ok d /\
  vaddr_ifetch 0x80000000 4 (boot_mach d) = Ok (0, m').
Proof.
  destruct (boot_bus_ok (fun _ => 0) (fun _ => (0, 0)) (fun _ => [])) as (d & E & Hb).
  destruct (boot_mach_inv d Hb) as (Hm & _ & Hf).
  destruct (ifetch_fresh (boot_mach d) 0x80000000 4 Hm) as [(v & m' & E' & _ & Hv & _) _].
  - reflexivity.
  - split; [lia | vm_compute; congruence].
  - exists d, m'. split; [exact E |]. rewrite E', Hv by apply Hf. reflexivity.
Defined.
