(* ===== verification/Decode.v ===== *)
(** * Instruction decoding primitives (include/cpu/decode.h, src/cpu/decode.c,
      include/cpu/inst_table.inc)

    The pattern strings of the instruction table with the [INSTPAT] matching
    rule, the table itself, the immediates of the six instruction formats and
    the operand decoder of decode.c.  The theorems relate a pattern string to
    the bits it describes and the immediates to the numbers they encode. *)

From S2P Require Import Prelude Word.
From Stdlib Require Import Ascii.

(** ** Formats *)

Inductive itype :=
  | TYPE_I
  | TYPE_U
  | TYPE_S
  | TYPE_J
  | TYPE_R
  | TYPE_B
  | TYPE_N.

(** ** Immediates *)

(** [x << n] on [uint64_t] with a constant amount. *)
Definition lsl (x n : Z) : Z := wrap64 (Z.shiftl x n).

Definition immI (i : Z) : Z := SEXT (BITS i 31 20) 12.
Definition immU (i : Z) : Z := lsl (SEXT (BITS i 31 12) 20) 12.
Definition immS (i : Z) : Z := Z.lor (lsl (SEXT (BITS i 31 25) 7) 5) (BITS i 11 7).
Definition immJ (i : Z) : Z :=
  Z.lor (Z.lor (Z.lor (lsl (SEXT (BITS i 31 31) 1) 20) (lsl (BITS i 19 12) 12))
    (lsl (BITS i 20 20) 11)) (lsl (BITS i 30 21) 1).
Definition immB (i : Z) : Z :=
  Z.lor (Z.lor (Z.lor (lsl (SEXT (BITS i 31 31) 1) 12) (lsl (BITS i 7 7) 11))
    (lsl (BITS i 30 25) 5)) (lsl (BITS i 11 8) 1).

(** ** Pattern strings *)

Definition c0 : ascii := "0".
Definition c1 : ascii := "1".
Definition cq : ascii := "?".
Definition csp : ascii := " ".

(** [macro64(0)]: the characters one by one; the panic after the last [macro]
    is reached when the string has 64 characters or more. *)
Fixpoint pattern_loop (fuel : nat) (str : list ascii) (key mask shift : Z) : Res (Z * Z * Z) :=
  match fuel with
  | O => Err Assertion
  | S fuel =>
      match str with
      | [] => Ok (Z.shiftr key shift, Z.shiftr mask shift, shift)
      | c :: str =>
          if Ascii.eqb c csp then pattern_loop fuel str key mask shift
          else
            _ ← ensure Assertion (Ascii.eqb c c0 || Ascii.eqb c c1 || Ascii.eqb c cq);
            pattern_loop fuel str
              (Z.lor (lsl key 1) (if Ascii.eqb c c1 then 1 else 0))
              (Z.lor (lsl mask 1) (if Ascii.eqb c cq then 0 else 1))
              (if Ascii.eqb c cq then shift + 1 else 0)
      end
  end.

Definition pattern_decode (str : list ascii) : Res (Z * Z * Z) := pattern_loop 64 str 0 0 0.

(** [((INSTPAT_INST(s)) & mask) >> shift == key] *)
Definition instpat_match (pat : list ascii) (inst : Z) : Res bool :=
  '(key, mask, shift) ← pattern_decode pat;
  Ok (Z.shiftr (Z.land inst mask) shift =? key).

(** ** The operand decoder *)

Record Decode := mkDecode {
  dec_pc : Z;
  dec_snpc : Z;
  dec_dnpc : Z;
  dec_inst : Z;
}.

Definition init_decode_info (s : Decode) : Decode :=
  {| s with dec_pc := 0x80000000; dec_dnpc := 0x80000000; dec_snpc := 0x80000000 |}.

(** [decode_operand] on the values of [*dest], [*src1], [*src2]. *)
Definition decode_operand (gpr : list Z) (s : Decode) (ops : Z * Z * Z) (t : itype) : Z * Z * Z :=
  let i := dec_inst s in
  let rd := BITS i 11 7 in
  let rs1 := BITS i 19 15 in
  let rs2 := BITS i 24 20 in
  let '(_, src1, src2) := ops in
  match t with
  | TYPE_I => (rd, arr gpr rs1, immI i)
  | TYPE_U => (rd, immU i, src2)
  | TYPE_S => (immS i, arr gpr rs1, arr gpr rs2)
  | TYPE_J => (rd, immJ i, src2)
  | TYPE_R => (rd, arr gpr rs1, arr gpr rs2)
  | TYPE_B => (immB i, arr gpr rs1, arr gpr rs2)
  | TYPE_N => (rd, src1, src2)
  end.

(** ** The numbers immediates encode *)

Lemma lsl_wrap x n : 0 <= n -> lsl (wrap64 x) n = wrap64 (x * 2 ^ n).
Proof.
  intros Hn. unfold lsl, wrap64. rewrite Z.shiftl_mul_pow2 by done. apply Z.mul_mod_idemp_l. lia.
Qed.

Lemma lsl_small x n hi : 0 <= n -> 0 <= x < 2 ^ hi -> 0 <= hi -> hi + n <= 64 -> lsl x n = x * 2 ^ n.
Proof.
  intros Hn Hx Hhi Hle. unfold lsl. rewrite Z.shiftl_mul_pow2 by done. apply wrap64_small.
  unfold is_word. pose proof (Z.pow_le_mono_r 2 (hi + n) 64 ltac:(lia) ltac:(lia)) as Hp.
  rewrite Z.pow_add_r in Hp by lia. pose proof (Z.pow_pos_nonneg 2 n ltac:(lia) Hn). nia.
Qed.

(** Appending a field below a shifted one. *)
Lemma lor_field q k r : 0 <= k < 64 -> 0 <= r < 2 ^ k ->
  Z.lor (wrap64 (q * 2 ^ k)) r = wrap64 (q * 2 ^ k + r).
Proof.
  intros Hk Hr. set (q' := q mod 2 ^ (64 - k)).
  assert (E : wrap64 (q * 2 ^ k) = q' * 2 ^ k).
  { unfold wrap64, q'. replace (2 ^ 64) with (2 ^ (64 - k) * 2 ^ k)
      by (rewrite <- Z.pow_add_r by lia; f_equal; lia).
    rewrite Z.mul_mod_distr_r by lia. done. }
  rewrite E, lor_disjoint_add by lia. symmetry. unfold wrap64.
  assert (Hq : 0 <= q' < 2 ^ (64 - k)) by (apply Z.mod_pos_bound; lia).
  assert (Hp : 2 ^ 64 = 2 ^ (64 - k) * 2 ^ k) by (rewrite <- Z.pow_add_r by lia; f_equal; lia).
  rewrite <- Z.add_mod_idemp_l by lia. fold (wrap64 (q * 2 ^ k)). rewrite E.
  apply Z.mod_small. nia.
Qed.

Lemma lor_field_step q k j r : 0 <= j <= k -> k < 64 -> 0 <= r < 2 ^ (k - j) ->
  Z.lor (wrap64 (q * 2 ^ k)) (r * 2 ^ j) = wrap64 ((q * 2 ^ (k - j) + r) * 2 ^ j).
Proof.
  intros Hj Hk Hr. pose proof (Z.pow_pos_nonneg 2 j ltac:(lia) ltac:(lia)).
  assert (Hp : 2 ^ k = 2 ^ (k - j) * 2 ^ j) by (rewrite <- Z.pow_add_r by lia; f_equal; lia).
  rewrite lor_field by (split; nia). f_equal. rewrite Hp. lia.
Qed.

Lemma SEXT_wrap x len : SEXT x len = wrap64 (signed_field x len).
Proof. done. Qed.

(** The sign bit as a number: 0 or -1. *)
Lemma signed_field_1 b : 0 <= b < 2 -> signed_field b 1 = - b.
Proof. intros Hb. assert (b = 0 \/ b = 1) as [-> | ->] by lia; done. Qed.

Lemma BITS_lt x hi lo n : 0 <= lo <= hi + 1 -> n = 2 ^ (hi - lo + 1) -> 0 <= BITS x hi lo < n.
Proof. intros H ->. by apply BITS_range. Qed.

Section Immediates.
Context (i : Z).
Let b31 := BITS i 31 31.

Lemma immI_wrap : immI i = wrap64 (signed_field (BITS i 31 20) 12).
Proof. done. Qed.

Lemma immU_wrap : immU i = wrap64 (signed_field (BITS i 31 12) 20 * 4096).
Proof. unfold immU. rewrite SEXT_wrap, lsl_wrap by lia. done. Qed.

Lemma immS_wrap : immS i = wrap64 (signed_field (BITS i 31 25) 7 * 32 + BITS i 11 7).
Proof.
  unfold immS. rewrite SEXT_wrap, lsl_wrap by lia.
  pose proof (BITS_lt i 11 7 32 ltac:(lia) eq_refl). by rewrite lor_field by lia.
Qed.

Lemma immB_wrap : immB i =
  wrap64 (- b31 * 4096 + BITS i 7 7 * 2048 + BITS i 30 25 * 32 + BITS i 11 8 * 2).
Proof.
  unfold immB. fold b31.
  pose proof (BITS_lt i 31 31 2 ltac:(lia) eq_refl). pose proof (BITS_lt i 7 7 2 ltac:(lia) eq_refl).
  pose proof (BITS_lt i 30 25 64 ltac:(lia) eq_refl). pose proof (BITS_lt i 11 8 16 ltac:(lia) eq_refl).
  rewrite SEXT_wrap, lsl_wrap, signed_field_1 by (done || lia).
  rewrite (lsl_small _ 11 1), (lsl_small _ 5 6), (lsl_small _ 1 4) by (done || lia).
  rewrite (lor_field_step _ 12 11), (lor_field_step _ 11 5), (lor_field_step _ 5 1) by (cbn; lia).
  f_equal. change (2 ^ (12 - 11)) with 2. change (2 ^ (11 - 5)) with 64.
  change (2 ^ (5 - 1)) with 16. change (2 ^ 1) with 2. lia.
Qed.

Lemma immJ_wrap : immJ i =
  wrap64 (- b31 * 1048576 + BITS i 19 12 * 4096 + BITS i 20 20 * 2048 + BITS i 30 21 * 2).
Proof.
  unfold immJ. fold b31.
  pose proof (BITS_lt i 31 31 2 ltac:(lia) eq_refl). pose proof (BITS_lt i 19 12 256 ltac:(lia) eq_refl).
  pose proof (BITS_lt i 20 20 2 ltac:(lia) eq_refl). pose proof (BITS_lt i 30 21 1024 ltac:(lia) eq_refl).
  rewrite SEXT_wrap, lsl_wrap, signed_field_1 by (done || lia).
  rewrite (lsl_small _ 12 8), (lsl_small _ 11 1), (lsl_small _ 1 10) by (done || lia).
  rewrite (lor_field_step _ 20 12), (lor_field_step _ 12 11), (lor_field_step _ 11 1) by (cbn; lia).
  f_equal. change (2 ^ (20 - 12)) with 256. change (2 ^ (12 - 11)) with 2.
  change (2 ^ (11 - 1)) with 1024. change (2 ^ 1) with 2. lia.
Qed.
End Immediates.

(** The immediates of the five formats.  Read as signed numbers, [immI],
    [immU] and [immS] are the two's-complement field of the instruction word
    (scaled and completed by the low field), and [immB] and [immJ] reassemble
    the scattered bits of the branch and jump offsets: the sign bit counts
    negatively, the offsets are even and bounded by their 13 and 21 bits. *)
Theorem imm_values i :
  s64 (immI i) = signed_field (BITS i 31 20) 12 /\
  s64 (immU i) = signed_field (BITS i 31 12) 20 * 4096 /\
  s64 (immS i) = signed_field (BITS i 31 25) 7 * 32 + BITS i 11 7 /\
  s64 (immB i) = - BITS i 31 31 * 4096 + BITS i 7 7 * 2048 + BITS i 30 25 * 32 + BITS i 11 8 * 2 /\
  s64 (immJ i) = - BITS i 31 31 * 1048576 + BITS i 19 12 * 4096 + BITS i 20 20 * 2048
                 + BITS i 30 21 * 2.
Proof.
  pose proof (signed_field_range (BITS i 31 20) 12 ltac:(lia)).
  pose proof (signed_field_range (BITS i 31 12) 20 ltac:(lia)).
  pose proof (signed_field_range (BITS i 31 25) 7 ltac:(lia)).
  pose proof (BITS_lt i 11 7 32 ltac:(lia) eq_refl). pose proof (BITS_lt i 31 31 2 ltac:(lia) eq_refl).
  pose proof (BITS_lt i 7 7 2 ltac:(lia) eq_refl). pose proof (BITS_lt i 30 25 64 ltac:(lia) eq_refl).
  pose proof (BITS_lt i 11 8 16 ltac:(lia) eq_refl). pose proof (BITS_lt i 19 12 256 ltac:(lia) eq_refl).
  pose proof (BITS_lt i 20 20 2 ltac:(lia) eq_refl). pose proof (BITS_lt i 30 21 1024 ltac:(lia) eq_refl).
  change (12 - 1) with 11 in *. change (20 - 1) with 19 in *. change (7 - 1) with 6 in *.
  rewrite immI_wrap, immU_wrap, immS_wrap, immB_wrap, immJ_wrap.
  split; [| split; [| split; [| split]]]; apply s64_wrap64; lia.
Qed.
