(* ===== verification/Ir.v ===== *)
(** * Intermediate representation (src/cpu/ir.c, include/cpu/ir.h)

    One instruction is decoded into an [IR_Inst], executed by the function its
    [exec_fn] names, given its memory access and written back.  [ir_decode]
    receives the previous contents of the [IR_Inst] it fills, because it leaves
    some fields as they are.  Division by zero, signed overflow and over-wide
    shifts are undefined in C and stop the model with [Undefined]. *)

From S2P Require Import Prelude Word State Pmp Csr Cache Mmio Mem Ftrace Vmem Decode.

(** ** Data *)

Inductive IRInstType :=
  | ITYPE_ALU
  | ITYPE_LOAD
  | ITYPE_STORE
  | ITYPE_BRANCH
  | ITYPE_JAL
  | ITYPE_JALR
  | ITYPE_LUI
  | ITYPE_AUIPC
  | ITYPE_CSR
  | ITYPE_SYSTEM
  | ITYPE_FENCE
  | ITYPE_INVALID.

#[export] Instance IRInstType_eq_dec : EqDecision IRInstType.
Proof. solve_decision. Defined.

(** The functions [exec_fn] can point to. *)
Inductive exec_op :=
  | Exec_auipc
  | Exec_lui
  | Exec_add
  | Exec_mul
  | Exec_sub
  | Exec_or
  | Exec_xor
  | Exec_and
  | Exec_slt
  | Exec_sltu
  | Exec_sll
  | Exec_srl
  | Exec_sra
  | Exec_div
  | Exec_divu
  | Exec_rem
  | Exec_remu
  | Exec_addw
  | Exec_mulw
  | Exec_subw
  | Exec_sllw
  | Exec_srlw
  | Exec_sraw
  | Exec_divw
  | Exec_divuw
  | Exec_remw
  | Exec_remuw
  | Exec_addi
  | Exec_ori
  | Exec_xori
  | Exec_andi
  | Exec_slti
  | Exec_sltiu
  | Exec_slli
  | Exec_srli
  | Exec_srai
  | Exec_addiw
  | Exec_slliw
  | Exec_srliw
  | Exec_sraiw
  | Exec_jal
  | Exec_jalr
  | Exec_beq
  | Exec_bne
  | Exec_blt
  | Exec_bge
  | Exec_bltu
  | Exec_bgeu
  | Exec_ld
  | Exec_lw
  | Exec_lh
  | Exec_lb
  | Exec_lwu
  | Exec_lhu
  | Exec_lbu
  | Exec_sd
  | Exec_sw
  | Exec_sh
  | Exec_sb
  | Exec_csrrw
  | Exec_csrrs
  | Exec_csrrc
  | Exec_ecall
  | Exec_mret
  | Exec_ebreak
  | Exec_fence_i
  | Exec_fence
  | Exec_inv.

#[export] Instance exec_op_eq_dec : EqDecision exec_op.
Proof. solve_decision. Defined.

Record IR_Inst := mkIR {
  ir_pc : Z;
  ir_snpc : Z;
  ir_raw : Z;
  ir_type : IRInstType;
  ir_name : string;
  ir_rd : Z;              (** -1 = no writeback *)
  ir_rs1 : Z;
  ir_rs2 : Z;
  src1_val : Z;
  src2_val : Z;
  ir_imm : Z;
  mem_addr : Z;
  mem_width : Z;
  mem_sign : bool;
  ir_result : Z;
  ir_dnpc : Z;
  ir_taken : bool;
  bp_predict_taken : bool;
  bp_predicted_pc : Z;
  ras_top_snap : Z;
  ras_cnt_snap : Z;
  serializing : bool;
  fault : bool;
  phys_rd : Z;
  rob_idx : Z;
  cycles_rem : Z;
  exec_fn : option exec_op;
}.

(** [memset(&ir, 0, sizeof(ir))]: [type] 0 is [ITYPE_ALU], [exec_fn] is null. *)
Definition ir_zero : IR_Inst :=
  mkIR 0 0 0 ITYPE_ALU "" 0 0 0 0 0 0 0 0 false 0 0 false false 0 0 0 false false 0 0 0 None.

#[export] Instance IR_Inst_inhabited : Inhabited IR_Inst := populate ir_zero.

(** ** Operands *)

Definition ir_fill_operands (gprs : list Z) (i : Z) (t : itype) (ir : IR_Inst) : IR_Inst :=
  let ir := {| ir with ir_rd := BITS i 11 7; ir_rs1 := BITS i 19 15; ir_rs2 := BITS i 24 20 |} in
  match t with
  | TYPE_I => {| ir with src1_val := arr gprs (ir_rs1 ir); src2_val := immI i; ir_rs2 := -1 |}
  | TYPE_U => {| ir with src1_val := immU i; ir_rs1 := -1; ir_rs2 := -1 |}
  | TYPE_S => {| ir with ir_rd := -1; ir_imm := immS i;
                         src1_val := arr gprs (ir_rs1 ir); src2_val := arr gprs (ir_rs2 ir) |}
  | TYPE_J => {| ir with src1_val := immJ i; ir_rs1 := -1; ir_rs2 := -1 |}
  | TYPE_R => {| ir with src1_val := arr gprs (ir_rs1 ir); src2_val := arr gprs (ir_rs2 ir) |}
  | TYPE_B => {| ir with ir_rd := -1; src1_val := arr gprs (ir_rs1 ir);
                         src2_val := arr gprs (ir_rs2 ir); ir_imm := immB i |}
  | TYPE_N => {| ir with ir_rd := -1; ir_rs1 := -1; ir_rs2 := -1 |}
  end.

(** [ir->name = nm; ir->exec_fn = op] *)
Definition named (nm : string) (op : exec_op) (ir : IR_Inst) : IR_Inst :=
  {| ir with ir_name := nm; exec_fn := Some op |}.
Definition named_serial (nm : string) (op : exec_op) (ir : IR_Inst) : IR_Inst :=
  {| ir with ir_name := nm; exec_fn := Some op; serializing := true |}.

(** ** ir_decode, one definition per opcode group *)

Definition decode_op_imm (funct3 funct7 : Z) (ir : IR_Inst) : IR_Inst :=
  match funct3 with
  | 0 => named "addi" Exec_addi ir
  | 6 => named "ori" Exec_ori ir
  | 4 => named "xori" Exec_xori ir
  | 7 => named "andi" Exec_andi ir
  | 2 => named "slti" Exec_slti ir
  | 3 => named "sltiu" Exec_sltiu ir
  | 1 => named "slli" Exec_slli ir
  | 5 => if Z.shiftr funct7 1 =? 0x20 then named "srai" Exec_srai ir else named "srli" Exec_srli ir
  | _ => ir
  end.

Definition decode_load (funct3 : Z) (ir : IR_Inst) : IR_Inst :=
  match funct3 with
  | 4 => named "lbu" Exec_lbu ir
  | 0 => named "lb" Exec_lb ir
  | 2 => named "lw" Exec_lw ir
  | 3 => named "ld" Exec_ld ir
  | 1 => named "lh" Exec_lh ir
  | 5 => named "lhu" Exec_lhu ir
  | 6 => named "lwu" Exec_lwu ir
  | _ => ir
  end.

Definition decode_store (funct3 : Z) (ir : IR_Inst) : IR_Inst :=
  match funct3 with
  | 0 => named "sb" Exec_sb ir
  | 1 => named "sh" Exec_sh ir
  | 2 => named "sw" Exec_sw ir
  | 3 => named "sd" Exec_sd ir
  | _ => ir
  end.

Definition decode_branch (funct3 : Z) (ir : IR_Inst) : IR_Inst :=
  match funct3 with
  | 0 => named "beq" Exec_beq ir
  | 1 => named "bne" Exec_bne ir
  | 4 => named "blt" Exec_blt ir
  | 5 => named "bge" Exec_bge ir
  | 6 => named "bltu" Exec_bltu ir
  | 7 => named "bgeu" Exec_bgeu ir
  | _ => ir
  end.

Definition decode_op_imm32 (funct3 funct7 : Z) (ir : IR_Inst) : IR_Inst :=
  match funct3 with
  | 0 => named "addiw" Exec_addiw ir
  | 1 => named "slliw" Exec_slliw ir
  | 5 => if funct7 =? 0x20 then named "sraiw" Exec_sraiw ir else named "srliw" Exec_srliw ir
  | _ => ir
  end.

Definition decode_op (funct3 funct7 : Z) (ir : IR_Inst) : IR_Inst :=
  match funct3 with
  | 0 =>
      if funct7 =? 0x00 then named "add" Exec_add ir
      else if funct7 =? 0x20 then named "sub" Exec_sub ir
      else if funct7 =? 0x01 then named "mul" Exec_mul ir
      else ir
  | 6 =>
      if funct7 =? 0x00 then named "or" Exec_or ir
      else if funct7 =? 0x01 then named "rem" Exec_rem ir
      else ir
  | 4 =>
      if funct7 =? 0x00 then named "xor" Exec_xor ir
      else if funct7 =? 0x01 then named "div" Exec_div ir
      else ir
  | 7 =>
      if funct7 =? 0x00 then named "and" Exec_and ir
      else if funct7 =? 0x01 then named "remu" Exec_remu ir
      else ir
  | 2 => if funct7 =? 0x00 then named "slt" Exec_slt ir else ir
  | 3 =>
      if funct7 =? 0x00 then named "sltu" Exec_sltu ir
      else if funct7 =? 0x01 then named "divu" Exec_divu ir
      else ir
  | 1 => if funct7 =? 0x00 then named "sll" Exec_sll ir else ir
  | 5 =>
      if funct7 =? 0x00 then named "srl" Exec_srl ir
      else if funct7 =? 0x20 then named "sra" Exec_sra ir
      else if funct7 =? 0x01 then named "divu" Exec_divu ir
      else ir
  | _ => ir
  end.

Definition decode_op32 (funct3 funct7 : Z) (ir : IR_Inst) : IR_Inst :=
  match funct3 with
  | 0 =>
      if funct7 =? 0x00 then named "addw" Exec_addw ir
      else if funct7 =? 0x20 then named "subw" Exec_subw ir
      else if funct7 =? 0x01 then named "mulw" Exec_mulw ir
      else ir
  | 1 => if funct7 =? 0x00 then named "sllw" Exec_sllw ir else ir
  | 5 =>
      if funct7 =? 0x00 then named "srlw" Exec_srlw ir
      else if funct7 =? 0x20 then named "sraw" Exec_sraw ir
      else if funct7 =? 0x01 then named "divuw" Exec_divuw ir
      else ir
  | 4 => if funct7 =? 0x01 then named "divw" Exec_divw ir else ir
  | 6 => if funct7 =? 0x01 then named "remw" Exec_remw ir else ir
  | 7 => if funct7 =? 0x01 then named "remuw" Exec_remuw ir else ir
  | _ => ir
  end.

Definition decode_system (gprs : list Z) (raw funct3 : Z) (ir : IR_Inst) : IR_Inst :=
  match funct3 with
  | 1 => named_serial "csrrw" Exec_csrrw (ir_fill_operands gprs raw TYPE_I ir)
  | 2 => named_serial "csrrs" Exec_csrrs (ir_fill_operands gprs raw TYPE_I ir)
  | 3 => named_serial "csrrc" Exec_csrrc (ir_fill_operands gprs raw TYPE_I ir)
  | 0 =>
      let ir := ir_fill_operands gprs raw TYPE_N ir in
      if raw =? 0x00000073 then named_serial "ecall" Exec_ecall ir
      else if raw =? 0x30200073 then named_serial "mret" Exec_mret ir
      else if raw =? 0x00100073 then named_serial "ebreak" Exec_ebreak ir
      else ir
  | _ => ir
  end.

(** The fields every decode resets. *)
Definition decode_reset (raw pc snpc : Z) (ir : IR_Inst) : IR_Inst :=
  {| ir with ir_pc := pc; ir_snpc := snpc; ir_raw := raw; ir_type := ITYPE_INVALID;
             ir_name := "???"; ir_rd := -1; ir_rs1 := -1; ir_rs2 := -1; ir_dnpc := snpc;
             ir_taken := false; mem_addr := 0; mem_width := 0; serializing := false;
             fault := false; phys_rd := -1; rob_idx := -1; cycles_rem := 0;
             exec_fn := Some Exec_inv |}.

Definition opcode_of (raw : Z) : Z := Z.land (Z.shiftr raw 2) 0x1f.
Definition funct3_of (raw : Z) : Z := Z.land (Z.shiftr raw 12) 0x7.
Definition funct7_of (raw : Z) : Z := Z.land (Z.shiftr raw 25) 0x7f.

Definition ir_decode (gprs : list Z) (raw pc snpc : Z) (ir : IR_Inst) : IR_Inst :=
  let ir := decode_reset raw pc snpc ir in
  let opcode := opcode_of raw in
  let funct3 := funct3_of raw in
  let funct7 := funct7_of raw in
  match opcode with
  | 0x04 => decode_op_imm funct3 funct7 (ir_fill_operands gprs raw TYPE_I ir)
  | 0x00 => decode_load funct3 (ir_fill_operands gprs raw TYPE_I ir)
  | 0x08 => decode_store funct3 (ir_fill_operands gprs raw TYPE_S ir)
  | 0x18 => decode_branch funct3 (ir_fill_operands gprs raw TYPE_B ir)
  | 0x1b => named "jal" Exec_jal (ir_fill_operands gprs raw TYPE_J ir)
  | 0x19 => named "jalr" Exec_jalr (ir_fill_operands gprs raw TYPE_I ir)
  | 0x05 => named "auipc" Exec_auipc (ir_fill_operands gprs raw TYPE_U ir)
  | 0x0d => named "lui" Exec_lui (ir_fill_operands gprs raw TYPE_U ir)
  | 0x06 => decode_op_imm32 funct3 funct7 (ir_fill_operands gprs raw TYPE_I ir)
  | 0x0c => decode_op funct3 funct7 (ir_fill_operands gprs raw TYPE_R ir)
  | 0x0e => decode_op32 funct3 funct7 (ir_fill_operands gprs raw TYPE_R ir)
  | 0x1c => decode_system gprs raw funct3 ir
  | 0x03 => named_serial "fence" Exec_fence (ir_fill_operands gprs raw TYPE_N ir)
  | _ => ir
  end.

(** ** Executors

    Each sets the class of the instruction, its result and the next pc. *)

(** [ir->type = ITYPE_ALU; ir->result = v; ir->dnpc = ir->snpc] *)
Definition alu_done (v : Z) (ir : IR_Inst) : IR_Inst :=
  {| ir with ir_type := ITYPE_ALU; ir_result := v; ir_dnpc := ir_snpc ir |}.

(** Signed division and remainder in C truncate; zero divisors and the
    overflowing quotient are undefined. *)
Definition c_div (width a b : Z) : Res Z :=
  if (b =? 0) || ((a =? - 2 ^ (width - 1)) && (b =? -1)) then Err Undefined else Ok (Z.quot a b).
Definition c_rem (width a b : Z) : Res Z :=
  if (b =? 0) || ((a =? - 2 ^ (width - 1)) && (b =? -1)) then Err Undefined else Ok (Z.rem a b).
Definition c_divu (a b : Z) : Res Z := if b =? 0 then Err Undefined else Ok (a / b).
Definition c_remu (a b : Z) : Res Z := if b =? 0 then Err Undefined else Ok (a mod b).

(** [int * int]: overflow is undefined. *)
Definition c_mul32 (a b : Z) : Res Z :=
  let p := a * b in
  if (- 2 ^ 31 <=? p) && (p <? 2 ^ 31) then Ok p else Err Undefined.

Definition lo32 (x : Z) : Z := Z.land x 0xffffffff.
Definition b2z (b : bool) : Z := if b then 1 else 0.

(** *** U and J formats *)

Definition ir_exec_auipc (ir : IR_Inst) : IR_Inst :=
  {| ir with ir_type := ITYPE_AUIPC; ir_result := (src1_val ir + ir_pc ir)%word;
             ir_dnpc := ir_snpc ir |}.

Definition ir_exec_lui (ir : IR_Inst) : IR_Inst :=
  {| ir with ir_type := ITYPE_LUI; ir_result := Z.land (src1_val ir) 0xfffffffffffff000;
             ir_dnpc := ir_snpc ir |}.

(** *** Register-register ALU *)

Definition ir_exec_add (ir : IR_Inst) : IR_Inst :=
  alu_done (src1_val ir + src2_val ir)%word ir.

Definition ir_exec_mul (ir : IR_Inst) : IR_Inst :=
  alu_done (src1_val ir * src2_val ir)%word ir.

Definition ir_exec_sub (ir : IR_Inst) : IR_Inst :=
  alu_done (src1_val ir - src2_val ir)%word ir.

Definition ir_exec_or (ir : IR_Inst) : IR_Inst :=
  alu_done (Z.lor (src1_val ir) (src2_val ir)) ir.

Definition ir_exec_xor (ir : IR_Inst) : IR_Inst :=
  alu_done (Z.lxor (src1_val ir) (src2_val ir)) ir.

Definition ir_exec_and (ir : IR_Inst) : IR_Inst :=
  alu_done (Z.land (src1_val ir) (src2_val ir)) ir.

Definition ir_exec_slt (ir : IR_Inst) : IR_Inst :=
  alu_done (b2z (s64 (src1_val ir) <? s64 (src2_val ir))) ir.

Definition ir_exec_sltu (ir : IR_Inst) : IR_Inst :=
  alu_done (b2z (src1_val ir <? src2_val ir)) ir.

Definition ir_exec_sll (ir : IR_Inst) : Res IR_Inst :=
  v ← shl64 (src1_val ir) (Z.land (src2_val ir) 0x3f);
  Ok (alu_done v ir).

Definition ir_exec_srl (ir : IR_Inst) : Res IR_Inst :=
  v ← shr64 (src1_val ir) (Z.land (src2_val ir) 0x3f);
  Ok (alu_done v ir).

Definition ir_exec_sra (ir : IR_Inst) : Res IR_Inst :=
  v ← sar64 (src1_val ir) (Z.land (src2_val ir) 0x3f);
  Ok (alu_done v ir).

Definition ir_exec_div (ir : IR_Inst) : Res IR_Inst :=
  v ← c_div 64 (s64 (src1_val ir)) (s64 (src2_val ir));
  Ok (alu_done (wrap64 v) ir).

Definition ir_exec_divu (ir : IR_Inst) : Res IR_Inst :=
  v ← c_divu (src1_val ir) (src2_val ir);
  Ok (alu_done v ir).

Definition ir_exec_rem (ir : IR_Inst) : Res IR_Inst :=
  v ← c_rem 64 (s64 (src1_val ir)) (s64 (src2_val ir));
  Ok (alu_done (wrap64 v) ir).

Definition ir_exec_remu (ir : IR_Inst) : Res IR_Inst :=
  v ← c_remu (src1_val ir) (src2_val ir);
  Ok (alu_done v ir).

(** *** 32-bit register-register ALU *)

Definition ir_exec_addw (ir : IR_Inst) : IR_Inst :=
  alu_done (SEXT (lo32 (src1_val ir + src2_val ir)%word) 32) ir.

Definition ir_exec_mulw (ir : IR_Inst) : Res IR_Inst :=
  v ← c_mul32 (s32 (lo32 (src1_val ir))) (s32 (lo32 (src2_val ir)));
  Ok (alu_done (SEXT (wrap64 v) 32) ir).

Definition ir_exec_subw (ir : IR_Inst) : IR_Inst :=
  alu_done (SEXT (lo32 (src1_val ir - src2_val ir)%word) 32) ir.

Definition ir_exec_sllw (ir : IR_Inst) : Res IR_Inst :=
  v ← shl64 (lo32 (src1_val ir)) (Z.land (src2_val ir) 0x1f);
  Ok (alu_done (SEXT (lo32 v) 32) ir).

Definition ir_exec_srlw (ir : IR_Inst) : Res IR_Inst :=
  v ← shr64 (lo32 (src1_val ir)) (Z.land (src2_val ir) 0x1f);
  Ok (alu_done (SEXT (lo32 v) 32) ir).

Definition ir_exec_sraw (ir : IR_Inst) : IR_Inst :=
  alu_done (SEXT (wrap64 (Z.shiftr (s32 (lo32 (src1_val ir))) (Z.land (src2_val ir) 0x1f))) 32) ir.

Definition ir_exec_divw (ir : IR_Inst) : Res IR_Inst :=
  v ← c_div 32 (s32 (lo32 (src1_val ir))) (s32 (lo32 (src2_val ir)));
  Ok (alu_done (SEXT (wrap64 v) 32) ir).

Definition ir_exec_divuw (ir : IR_Inst) : Res IR_Inst :=
  v ← c_divu (lo32 (src1_val ir)) (lo32 (src2_val ir));
  Ok (alu_done (SEXT v 32) ir).

Definition ir_exec_remw (ir : IR_Inst) : Res IR_Inst :=
  v ← c_rem 32 (s32 (lo32 (src1_val ir))) (s32 (lo32 (src2_val ir)));
  Ok (alu_done (SEXT (lo32 (wrap64 v)) 32) ir).

Definition ir_exec_remuw (ir : IR_Inst) : Res IR_Inst :=
  v ← c_remu (lo32 (src1_val ir)) (lo32 (src2_val ir));
  Ok (alu_done (SEXT (lo32 v) 32) ir).

(** *** Register-immediate ALU *)

Definition ir_exec_addi (ir : IR_Inst) : IR_Inst :=
  alu_done (src1_val ir + src2_val ir)%word ir.

Definition ir_exec_ori (ir : IR_Inst) : IR_Inst :=
  alu_done (Z.lor (src1_val ir) (src2_val ir)) ir.

Definition ir_exec_xori (ir : IR_Inst) : IR_Inst :=
  alu_done (Z.lxor (src1_val ir) (src2_val ir)) ir.

Definition ir_exec_andi (ir : IR_Inst) : IR_Inst :=
  alu_done (Z.land (src1_val ir) (src2_val ir)) ir.

Definition ir_exec_slti (ir : IR_Inst) : IR_Inst :=
  alu_done (b2z (s64 (src1_val ir) <? s64 (src2_val ir))) ir.

Definition ir_exec_sltiu (ir : IR_Inst) : IR_Inst :=
  alu_done (b2z (src1_val ir <? src2_val ir)) ir.

Definition ir_exec_slli (ir : IR_Inst) : Res IR_Inst :=
  v ← shl64 (src1_val ir) (src2_val ir);
  Ok (alu_done v ir).

Definition ir_exec_srli (ir : IR_Inst) : Res IR_Inst :=
  v ← shr64 (src1_val ir) (src2_val ir);
  Ok (alu_done v ir).

Definition ir_exec_srai (ir : IR_Inst) : Res IR_Inst :=
  v ← sar64 (src1_val ir) (Z.land (src2_val ir) 0x3f);
  Ok (alu_done v ir).

(** *** 32-bit register-immediate ALU *)

Definition ir_exec_addiw (ir : IR_Inst) : IR_Inst :=
  alu_done (SEXT (lo32 (src1_val ir + src2_val ir)%word) 32) ir.

Definition ir_exec_slliw (ir : IR_Inst) : Res IR_Inst :=
  v ← shl64 (lo32 (src1_val ir)) (src2_val ir);
  Ok (alu_done (SEXT (lo32 v) 32) ir).

Definition ir_exec_srliw (ir : IR_Inst) : Res IR_Inst :=
  v ← shr64 (lo32 (src1_val ir)) (src2_val ir);
  Ok (alu_done (SEXT (lo32 v) 32) ir).

Definition ir_exec_sraiw (ir : IR_Inst) : IR_Inst :=
  alu_done (SEXT (wrap64 (Z.shiftr (s32 (lo32 (src1_val ir))) (Z.land (src2_val ir) 0x1f))) 32) ir.

(** *** Jumps *)

Definition ftrace_mach (addr : Z) (call : bool) (m : Mach) : Res Mach :=
  ft ← add_ftrace addr call (ftrace m); Ok {| m with ftrace := ft |}.

Definition ir_exec_jal (ir : IR_Inst) (m : Mach) : Res (IR_Inst * Mach) :=
  let ir := {| ir with ir_type := ITYPE_JAL; ir_result := ir_snpc ir;
                       ir_dnpc := (ir_pc ir + src1_val ir)%word |} in
  m ← (if (ir_rd ir =? 1) || (ir_rd ir =? 5) then ftrace_mach (ir_dnpc ir) true m else Ok m);
  Ok (ir, m).

Definition ir_exec_jalr (ir : IR_Inst) (m : Mach) : Res (IR_Inst * Mach) :=
  let ir := {| ir with ir_type := ITYPE_JALR; ir_result := ir_snpc ir;
                       ir_dnpc := Z.land (src1_val ir + src2_val ir)%word (not64 1) |} in
  m ← (if (ir_rd ir =? 0) && (ir_rs1 ir =? 1) then ftrace_mach (ir_dnpc ir) false m
       else if (ir_rd ir =? 1) || (ir_rd ir =? 5) then ftrace_mach (ir_dnpc ir) true m
       else Ok m);
  Ok (ir, m).

(** *** Branches *)

(** [ir->taken = t; ir->dnpc = ir->taken ? ir->pc + ir->imm : ir->snpc] *)
Definition branch_done (t : bool) (ir : IR_Inst) : IR_Inst :=
  {| ir with ir_type := ITYPE_BRANCH; ir_taken := t;
             ir_dnpc := if t then (ir_pc ir + ir_imm ir)%word else ir_snpc ir |}.

Definition ir_exec_beq (ir : IR_Inst) : IR_Inst :=
  branch_done (src1_val ir =? src2_val ir) ir.

Definition ir_exec_bne (ir : IR_Inst) : IR_Inst :=
  branch_done (negb (src1_val ir =? src2_val ir)) ir.

Definition ir_exec_blt (ir : IR_Inst) : IR_Inst :=
  branch_done (s64 (src1_val ir) <? s64 (src2_val ir)) ir.

Definition ir_exec_bge (ir : IR_Inst) : IR_Inst :=
  branch_done (s64 (src2_val ir) <=? s64 (src1_val ir)) ir.

Definition ir_exec_bltu (ir : IR_Inst) : IR_Inst :=
  branch_done (src1_val ir <? src2_val ir) ir.

Definition ir_exec_bgeu (ir : IR_Inst) : IR_Inst :=
  branch_done (src2_val ir <=? src1_val ir) ir.

(** *** Loads and stores: only the address is computed here *)

Definition load_done (width : Z) (sign : bool) (ir : IR_Inst) : IR_Inst :=
  {| ir with ir_type := ITYPE_LOAD; mem_addr := (src1_val ir + src2_val ir)%word;
             mem_width := width; mem_sign := sign; ir_dnpc := ir_snpc ir |}.
Definition store_done (width : Z) (ir : IR_Inst) : IR_Inst :=
  {| ir with ir_type := ITYPE_STORE; mem_addr := (src1_val ir + ir_imm ir)%word;
             mem_width := width; ir_dnpc := ir_snpc ir |}.

Definition ir_exec_ld (ir : IR_Inst) : IR_Inst := load_done 8 false ir.
Definition ir_exec_lw (ir : IR_Inst) : IR_Inst := load_done 4 true ir.
Definition ir_exec_lh (ir : IR_Inst) : IR_Inst := load_done 2 true ir.
Definition ir_exec_lb (ir : IR_Inst) : IR_Inst := load_done 1 true ir.
Definition ir_exec_lwu (ir : IR_Inst) : IR_Inst := load_done 4 false ir.
Definition ir_exec_lhu (ir : IR_Inst) : IR_Inst := load_done 2 false ir.
Definition ir_exec_lbu (ir : IR_Inst) : IR_Inst := load_done 1 false ir.

Definition ir_exec_sd (ir : IR_Inst) : IR_Inst := store_done 8 ir.
Definition ir_exec_sw (ir : IR_Inst) : IR_Inst := store_done 4 ir.
Definition ir_exec_sh (ir : IR_Inst) : IR_Inst := store_done 2 ir.
Definition ir_exec_sb (ir : IR_Inst) : IR_Inst := store_done 1 ir.

(** *** CSR accesses *)

Definition set_sim (s : Sim) (m : Mach) : Mach :=
  let b := bus m in {| m with bus := {| b with sim := s |} |}.
Definition set_csrf (cf : CsrFile) (m : Mach) : Mach :=
  let b := bus m in {| m with bus := {| b with csrf := cf |} |}.

(** What [read_csr] sees of the counters and caches. *)
Definition ptr_stats (p : ptr) (m : Mach) : option (Z * Z) :=
  match p with
  | Some i => let c := arr (heap m) i in Some (hits c, misses c)
  | None => None
  end.
Definition csr_env (m : Mach) : CsrEnv :=
  {| env_hartid := g_current_hartid m; env_cycles := g_sim_cycles m;
     env_instret := g_sim_instret m; env_l1d := ptr_stats (L1D_cache m) m;
     env_l1i := ptr_stats (L1I_cache m) m; env_l2 := ptr_stats (L2_cache m) m |}.

Definition mach_read_csr (no : Z) (m : Mach) : Res (Z * Mach) :=
  '(v, s) ← read_csr no (csrf (bus m)) (csr_env m) (sim (bus m));
  Ok (v, set_sim s m).
Definition mach_set_csr (no v : Z) (m : Mach) : Res Mach :=
  '(cf, s) ← set_csr no v (csrf (bus m)) (sim (bus m));
  Ok (set_sim s (set_csrf cf m)).

Definition csr_start (ir : IR_Inst) : IR_Inst :=
  {| ir with ir_type := ITYPE_CSR; serializing := true |}.
Definition csr_no_of (ir : IR_Inst) : Z := Z.land (src2_val ir) 0xfff.

Definition ir_exec_csrrw (ir : IR_Inst) (m : Mach) : Res (IR_Inst * Mach) :=
  let ir := csr_start ir in
  let csr_no := csr_no_of ir in
  '(ir, m) ← (if negb (src2_val ir =? 0)
              then '(v, m) ← mach_read_csr csr_no m; Ok ({| ir with ir_result := v |}, m)
              else Ok (ir, m));
  m ← mach_set_csr csr_no (src1_val ir) m;
  Ok ({| ir with ir_dnpc := ir_snpc ir |}, m).

Definition ir_exec_csrrs (ir : IR_Inst) (m : Mach) : Res (IR_Inst * Mach) :=
  let ir := csr_start ir in
  let csr_no := csr_no_of ir in
  '(v, m) ← mach_read_csr csr_no m;
  let ir := {| ir with ir_result := v |} in
  m ← (if negb (src1_val ir =? 0)
       then mach_set_csr csr_no (Z.lor (ir_result ir) (src1_val ir)) m else Ok m);
  Ok ({| ir with ir_dnpc := ir_snpc ir |}, m).

Definition ir_exec_csrrc (ir : IR_Inst) (m : Mach) : Res (IR_Inst * Mach) :=
  let ir := csr_start ir in
  let csr_no := csr_no_of ir in
  '(v, m) ← mach_read_csr csr_no m;
  let ir := {| ir with ir_result := v |} in
  m ← (if negb (src1_val ir =? 0)
       then mach_set_csr csr_no (Z.land (ir_result ir) (not64 (src1_val ir))) m else Ok m);
  Ok ({| ir with ir_dnpc := ir_snpc ir |}, m).

(** *** System *)

Definition ir_exec_ecall (ir : IR_Inst) (m : Mach) : IR_Inst * Mach :=
  let '(vec, cf) := raise_intr 11 (ir_pc ir) (wrap32 (arr (gpr (cpu m)) 17)) (csrf (bus m)) in
  ({| ir with ir_type := ITYPE_SYSTEM; serializing := true; ir_rd := -1; ir_dnpc := vec |},
   set_csrf (exception_priv_transfer cf) m).

Definition ir_exec_mret (ir : IR_Inst) (m : Mach) : Res (IR_Inst * Mach) :=
  '(v, m) ← mach_read_csr (Z.land MEPC 0xfff) m;
  Ok ({| ir with ir_type := ITYPE_SYSTEM; serializing := true; ir_rd := -1; ir_dnpc := v |},
      set_csrf (mret_priv_transfer (csrf (bus m))) m).

Definition ir_exec_ebreak (ir : IR_Inst) (m : Mach) : IR_Inst * Mach :=
  ({| ir with ir_type := ITYPE_SYSTEM; serializing := true; ir_rd := -1; ir_dnpc := ir_snpc ir |},
   set_sim (set_state NEMU_END (sim (bus m))) m).

(** *** Fences and invalid words *)

Definition ir_exec_fence_i (ir : IR_Inst) : IR_Inst :=
  {| ir with ir_type := ITYPE_FENCE; ir_result := 0; ir_dnpc := ir_snpc ir |}.

Definition ir_exec_fence (ir : IR_Inst) : IR_Inst :=
  {| ir with ir_type := ITYPE_FENCE; serializing := true; ir_rd := -1; ir_result := 0;
             ir_dnpc := ir_snpc ir |}.

Definition ir_exec_inv (ir : IR_Inst) : IR_Inst :=
  {| ir with ir_type := ITYPE_INVALID; fault := true; ir_dnpc := ir_snpc ir |}.

(** ** The three steps *)

Definition pure_exec (f : IR_Inst -> IR_Inst) (ir : IR_Inst) (m : Mach) : Res (IR_Inst * Mach) :=
  Ok (f ir, m).
Definition res_exec (f : IR_Inst -> Res IR_Inst) (ir : IR_Inst) (m : Mach) : Res (IR_Inst * Mach) :=
  ir ← f ir; Ok (ir, m).

(** Calling through [exec_fn]. *)
Definition exec_call (op : exec_op) : IR_Inst -> Mach -> Res (IR_Inst * Mach) :=
  match op with
  | Exec_auipc => pure_exec ir_exec_auipc
  | Exec_lui => pure_exec ir_exec_lui
  | Exec_add => pure_exec ir_exec_add
  | Exec_mul => pure_exec ir_exec_mul
  | Exec_sub => pure_exec ir_exec_sub
  | Exec_or => pure_exec ir_exec_or
  | Exec_xor => pure_exec ir_exec_xor
  | Exec_and => pure_exec ir_exec_and
  | Exec_slt => pure_exec ir_exec_slt
  | Exec_sltu => pure_exec ir_exec_sltu
  | Exec_sll => res_exec ir_exec_sll
  | Exec_srl => res_exec ir_exec_srl
  | Exec_sra => res_exec ir_exec_sra
  | Exec_div => res_exec ir_exec_div
  | Exec_divu => res_exec ir_exec_divu
  | Exec_rem => res_exec ir_exec_rem
  | Exec_remu => res_exec ir_exec_remu
  | Exec_addw => pure_exec ir_exec_addw
  | Exec_mulw => res_exec ir_exec_mulw
  | Exec_subw => pure_exec ir_exec_subw
  | Exec_sllw => res_exec ir_exec_sllw
  | Exec_srlw => res_exec ir_exec_srlw
  | Exec_sraw => pure_exec ir_exec_sraw
  | Exec_divw => res_exec ir_exec_divw
  | Exec_divuw => res_exec ir_exec_divuw
  | Exec_remw => res_exec ir_exec_remw
  | Exec_remuw => res_exec ir_exec_remuw
  | Exec_addi => pure_exec ir_exec_addi
  | Exec_ori => pure_exec ir_exec_ori
  | Exec_xori => pure_exec ir_exec_xori
  | Exec_andi => pure_exec ir_exec_andi
  | Exec_slti => pure_exec ir_exec_slti
  | Exec_sltiu => pure_exec ir_exec_sltiu
  | Exec_slli => res_exec ir_exec_slli
  | Exec_srli => res_exec ir_exec_srli
  | Exec_srai => res_exec ir_exec_srai
  | Exec_addiw => pure_exec ir_exec_addiw
  | Exec_slliw => res_exec ir_exec_slliw
  | Exec_srliw => res_exec ir_exec_srliw
  | Exec_sraiw => pure_exec ir_exec_sraiw
  | Exec_jal => ir_exec_jal
  | Exec_jalr => ir_exec_jalr
  | Exec_beq => pure_exec ir_exec_beq
  | Exec_bne => pure_exec ir_exec_bne
  | Exec_blt => pure_exec ir_exec_blt
  | Exec_bge => pure_exec ir_exec_bge
  | Exec_bltu => pure_exec ir_exec_bltu
  | Exec_bgeu => pure_exec ir_exec_bgeu
  | Exec_ld => pure_exec ir_exec_ld
  | Exec_lw => pure_exec ir_exec_lw
  | Exec_lh => pure_exec ir_exec_lh
  | Exec_lb => pure_exec ir_exec_lb
  | Exec_lwu => pure_exec ir_exec_lwu
  | Exec_lhu => pure_exec ir_exec_lhu
  | Exec_lbu => pure_exec ir_exec_lbu
  | Exec_sd => pure_exec ir_exec_sd
  | Exec_sw => pure_exec ir_exec_sw
  | Exec_sh => pure_exec ir_exec_sh
  | Exec_sb => pure_exec ir_exec_sb
  | Exec_csrrw => ir_exec_csrrw
  | Exec_csrrs => ir_exec_csrrs
  | Exec_csrrc => ir_exec_csrrc
  | Exec_ecall => fun ir m => Ok (ir_exec_ecall ir m)
  | Exec_mret => ir_exec_mret
  | Exec_ebreak => fun ir m => Ok (ir_exec_ebreak ir m)
  | Exec_fence_i => pure_exec ir_exec_fence_i
  | Exec_fence => pure_exec ir_exec_fence
  | Exec_inv => pure_exec ir_exec_inv
  end.

Definition ir_execute (ir : IR_Inst) (m : Mach) : Res (IR_Inst * Mach) :=
  match exec_fn ir with
  | Some op => exec_call op ir m
  | None => Ok (ir, m)
  end.

(** [if (rd != -1) gpr[rd] = result; gpr[0] = 0] *)
Definition ir_writeback (ir : IR_Inst) (c : CPU_state) : Res CPU_state :=
  c ← (if negb (ir_rd ir =? -1) then
         if in_range (gpr c) (ir_rd ir)
         then Ok {| c with gpr := upd (gpr c) (ir_rd ir) (ir_result ir) |}
         else Err Undefined
       else Ok c);
  Ok {| c with gpr := upd (gpr c) 0 0 |}.

Definition LAT_L1_HIT : Z := 1.
Definition LAT_L2_HIT : Z := 8.
Definition LAT_DRAM : Z := 40.
Definition level_to_lat : list Z := [LAT_L1_HIT; LAT_L2_HIT; LAT_DRAM].

(** Extension of the loaded bytes. *)
Definition extend_load (sign : bool) (width raw : Z) : Z :=
  if sign then
    match width with 1 => SEXT raw 8 | 2 => SEXT raw 16 | 4 => SEXT raw 32 | _ => raw end
  else
    match width with 1 => UEXT raw 8 | 2 => UEXT raw 16 | 4 => UEXT raw 32 | _ => raw end.

(** [ir_mem_access(ir, out_lat)]: [want] says whether [out_lat] is non-null; the
    latency is [Some] then. *)
Definition ir_mem_access (want : bool) (ir : IR_Inst) (m : Mach)
    : Res (IR_Inst * option Z * Mach) :=
  match ir_type ir with
  | ITYPE_LOAD =>
      '(raw, lat, m) ← (if want then
          '(level, raw, m) ← vaddr_read_level (mem_addr ir) (mem_width ir) m;
          Ok (raw, Some (arr level_to_lat level), m)
        else
          '(raw, m) ← vaddr_read (mem_addr ir) (mem_width ir) m; Ok (raw, None, m));
      Ok ({| ir with ir_result := extend_load (mem_sign ir) (mem_width ir) raw |}, lat, m)
  | ITYPE_STORE =>
      m ← vaddr_write (mem_addr ir) (mem_width ir) (src2_val ir) m;
      Ok (ir, if want then Some LAT_L1_HIT else None, m)
  | _ => Ok (ir, if want then Some 0 else None, m)
  end.
