(* ===== verification/InstTable.v ===== *)
(** * The instruction table and the direct decoder (include/cpu/inst_table.inc)

    The table of pattern strings, what a pattern string means, and the
    agreement of the opcode dispatch of [ir_decode] with the table: on every
    word that a row of the table describes, the dispatch selects the executor
    and the operand format of that row. *)

From S2P Require Import Prelude Word State Mmio Mem Vmem VmemSpec Decode Ir.
From Stdlib Require Import Ascii.

(** ** The table *)

Record inst_row := mkInst {
  row_pat : string;
  row_op : exec_op;
  row_type : itype;
}.

Definition inst_table : list inst_row :=
  [
    mkInst "??????? ????? ????? ??? ????? 00101 11" Exec_auipc TYPE_U;
    mkInst "??????? ????? ????? ??? ????? 01101 11" Exec_lui TYPE_U;
    mkInst "0000000 ????? ????? 000 ????? 01100 11" Exec_add TYPE_R;
    mkInst "0000001 ????? ????? 000 ????? 01100 11" Exec_mul TYPE_R;
    mkInst "0100000 ????? ????? 000 ????? 01100 11" Exec_sub TYPE_R;
    mkInst "0000000 ????? ????? 110 ????? 01100 11" Exec_or TYPE_R;
    mkInst "0000000 ????? ????? 100 ????? 01100 11" Exec_xor TYPE_R;
    mkInst "0000000 ????? ????? 111 ????? 01100 11" Exec_and TYPE_R;
    mkInst "0000000 ????? ????? 010 ????? 01100 11" Exec_slt TYPE_R;
    mkInst "0000000 ????? ????? 011 ????? 01100 11" Exec_sltu TYPE_R;
    mkInst "0000000 ????? ????? 001 ????? 01100 11" Exec_sll TYPE_R;
    mkInst "0000000 ????? ????? 101 ????? 01100 11" Exec_srl TYPE_R;
    mkInst "0100000 ????? ????? 101 ????? 01100 11" Exec_sra TYPE_R;
    mkInst "0000001 ????? ????? 100 ????? 01100 11" Exec_div TYPE_R;
    mkInst "0000001 ????? ????? 101 ????? 01100 11" Exec_divu TYPE_R;
    mkInst "0000001 ????? ????? 110 ????? 01100 11" Exec_rem TYPE_R;
    mkInst "0000001 ????? ????? 111 ????? 01100 11" Exec_remu TYPE_R;
    mkInst "0000000 ????? ????? 000 ????? 01110 11" Exec_addw TYPE_R;
    mkInst "0000001 ????? ????? 000 ????? 01110 11" Exec_mulw TYPE_R;
    mkInst "0100000 ????? ????? 000 ????? 01110 11" Exec_subw TYPE_R;
    mkInst "0000000 ????? ????? 001 ????? 01110 11" Exec_sllw TYPE_R;
    mkInst "0000000 ????? ????? 101 ????? 01110 11" Exec_srlw TYPE_R;
    mkInst "0100000 ????? ????? 101 ????? 01110 11" Exec_sraw TYPE_R;
    mkInst "0000001 ????? ????? 100 ????? 01110 11" Exec_divw TYPE_R;
    mkInst "0000001 ????? ????? 101 ????? 01110 11" Exec_divuw TYPE_R;
    mkInst "0000001 ????? ????? 110 ????? 01110 11" Exec_remw TYPE_R;
    mkInst "0000001 ????? ????? 111 ????? 01110 11" Exec_remuw TYPE_R;
    mkInst "??????? ????? ????? 000 ????? 00100 11" Exec_addi TYPE_I;
    mkInst "??????? ????? ????? 110 ????? 00100 11" Exec_ori TYPE_I;
    mkInst "??????? ????? ????? 100 ????? 00100 11" Exec_xori TYPE_I;
    mkInst "??????? ????? ????? 111 ????? 00100 11" Exec_andi TYPE_I;
    mkInst "??????? ????? ????? 010 ????? 00100 11" Exec_slti TYPE_I;
    mkInst "??????? ????? ????? 011 ????? 00100 11" Exec_sltiu TYPE_I;
    mkInst "000000? ????? ????? 001 ????? 00100 11" Exec_slli TYPE_I;
    mkInst "000000? ????? ????? 101 ????? 00100 11" Exec_srli TYPE_I;
    mkInst "010000? ????? ????? 101 ????? 00100 11" Exec_srai TYPE_I;
    mkInst "??????? ????? ????? 000 ????? 00110 11" Exec_addiw TYPE_I;
    mkInst "0000000 ????? ????? 001 ????? 00110 11" Exec_slliw TYPE_I;
    mkInst "0000000 ????? ????? 101 ????? 00110 11" Exec_srliw TYPE_I;
    mkInst "0100000 ????? ????? 101 ????? 00110 11" Exec_sraiw TYPE_I;
    mkInst "??????? ????? ????? ??? ????? 11011 11" Exec_jal TYPE_J;
    mkInst "??????? ????? ????? 000 ????? 11001 11" Exec_jalr TYPE_I;
    mkInst "??????? ????? ????? 000 ????? 11000 11" Exec_beq TYPE_B;
    mkInst "??????? ????? ????? 001 ????? 11000 11" Exec_bne TYPE_B;
    mkInst "??????? ????? ????? 100 ????? 11000 11" Exec_blt TYPE_B;
    mkInst "??????? ????? ????? 101 ????? 11000 11" Exec_bge TYPE_B;
    mkInst "??????? ????? ????? 110 ????? 11000 11" Exec_bltu TYPE_B;
    mkInst "??????? ????? ????? 111 ????? 11000 11" Exec_bgeu TYPE_B;
    mkInst "??????? ????? ????? 011 ????? 00000 11" Exec_ld TYPE_I;
    mkInst "??????? ????? ????? 010 ????? 00000 11" Exec_lw TYPE_I;
    mkInst "??????? ????? ????? 001 ????? 00000 11" Exec_lh TYPE_I;
    mkInst "??????? ????? ????? 000 ????? 00000 11" Exec_lb TYPE_I;
    mkInst "??????? ????? ????? 110 ????? 00000 11" Exec_lwu TYPE_I;
    mkInst "??????? ????? ????? 101 ????? 00000 11" Exec_lhu TYPE_I;
    mkInst "??????? ????? ????? 100 ????? 00000 11" Exec_lbu TYPE_I;
    mkInst "??????? ????? ????? 011 ????? 01000 11" Exec_sd TYPE_S;
    mkInst "??????? ????? ????? 010 ????? 01000 11" Exec_sw TYPE_S;
    mkInst "??????? ????? ????? 001 ????? 01000 11" Exec_sh TYPE_S;
    mkInst "??????? ????? ????? 000 ????? 01000 11" Exec_sb TYPE_S;
    mkInst "??????? ????? ????? 001 ????? 11100 11" Exec_csrrw TYPE_I;
    mkInst "??????? ????? ????? 010 ????? 11100 11" Exec_csrrs TYPE_I;
    mkInst "??????? ????? ????? 011 ????? 11100 11" Exec_csrrc TYPE_I;
    mkInst "0000000 00000 00000 000 00000 11100 11" Exec_ecall TYPE_I;
    mkInst "0011000 00010 00000 000 00000 11100 11" Exec_mret TYPE_R;
    mkInst "0000000 00001 00000 000 00000 11100 11" Exec_ebreak TYPE_N;
    mkInst "??????? ????? 00000 000 00000 00011 11" Exec_fence TYPE_N;
    mkInst "0000000 00000 00000 001 00000 00011 11" Exec_fence_i TYPE_I;
    mkInst "??????? ????? ????? ??? ????? ????? ??" Exec_inv TYPE_N ].

Definition row_chars (r : inst_row) : list ascii := String.list_ascii_of_string (row_pat r).

(** One [INSTPAT]: does the row match the instruction word? *)
Definition row_match (r : inst_row) (inst : Z) : Res bool := instpat_match (row_chars r) inst.

(** [INSTPAT_START ... INSTPAT_END]: the first matching row. *)
Fixpoint instpat_scan (rows : list inst_row) (inst : Z) : Res (option inst_row) :=
  match rows with
  | [] => Ok None
  | r :: rows =>
      match row_match r inst with
      | Ok true => Ok (Some r)
      | Ok false => instpat_scan rows inst
      | Err e => Err e
      end
  end.

(** ** What a pattern string means *)

(** The significant characters, lowest bit first. *)
Definition pat_bits (str : list ascii) : list ascii :=
  rev (List.filter (fun c : ascii => negb (Ascii.eqb c csp)) str).

(** A character describes a bit. *)
Definition char_agrees (c : ascii) (b : bool) : Prop :=
  (c = c0 -> b = false) /\ (c = c1 -> b = true).

Definition pat_agrees (str : list ascii) (inst : Z) : Prop :=
  forall j c, pat_bits str !! j = Some c -> char_agrees c (Z.testbit inst (Z.of_nat j)).

Definition pat_ok (str : list ascii) : bool :=
  Nat.leb (length str) 63 &&
  forallb (fun c : ascii => Ascii.eqb c csp || Ascii.eqb c c0 || Ascii.eqb c c1 || Ascii.eqb c cq) str.

(** The pattern does not end in a question mark. *)
Definition pat_anchored (str : list ascii) : bool :=
  match pat_bits str with [] => true | c :: _ => negb (Ascii.eqb c cq) end.

(** A number from one boolean per character, lowest bit first. *)
Fixpoint num_of (f : ascii -> bool) (bs : list ascii) : Z :=
  match bs with
  | [] => 0
  | c :: bs => (if f c then 1 else 0) + 2 * num_of f bs
  end.

Definition is_one (c : ascii) : bool := Ascii.eqb c c1.
Definition is_fixed (c : ascii) : bool := negb (Ascii.eqb c cq).

(** The number of question marks at the low end. *)
Fixpoint low_marks (bs : list ascii) : Z :=
  match bs with
  | [] => 0
  | c :: bs => if Ascii.eqb c cq then low_marks bs + 1 else 0
  end.

Lemma num_of_range f bs : 0 <= num_of f bs < 2 ^ Z.of_nat (length bs).
Proof.
  induction bs as [|c bs IH]; cbn [num_of length]; [lia |].
  rewrite Nat2Z.inj_succ, Z.pow_succ_r by lia. destruct (f c); lia.
Qed.

Lemma testbit_num_of f bs (j : nat) :
  Z.testbit (num_of f bs) (Z.of_nat j) = from_option f false (bs !! j).
Proof.
  revert j. induction bs as [|c bs IH]; intros j; cbn [num_of]; [apply Z.testbit_0_l |].
  destruct j as [|j].
  - cbn. rewrite Z.add_comm. destruct (f c);
      [by rewrite Z.testbit_odd_0 | rewrite Z.add_0_r; by rewrite Z.testbit_even_0].
  - rewrite Nat2Z.inj_succ, Z.add_comm. cbn [lookup list_lookup].
    destruct (f c); [rewrite Z.testbit_odd_succ by lia | rewrite Z.add_0_r, Z.testbit_even_succ by lia];
      apply IH.
Qed.

(** One more character on the low end. *)
Lemma push_bit f bs c : (length bs <= 62)%nat ->
  Z.lor (lsl (num_of f bs) 1) (if f c then 1 else 0) = num_of f (c :: bs).
Proof.
  intros Hl. cbn [num_of]. pose proof (num_of_range f bs) as Hr.
  rewrite (lsl_small _ 1 (Z.of_nat (length bs))) by lia.
  rewrite lor_disjoint_add by (destruct (f c); lia). lia.
Qed.

Lemma pat_bits_cons c str : pat_bits (c :: str) =
  pat_bits str ++ (if Ascii.eqb c csp then [] else [c]).
Proof. unfold pat_bits. cbn. destruct (Ascii.eqb c csp); cbn; [by rewrite app_nil_r | done]. Qed.

Lemma pattern_loop_spec fuel str bs :
  (length str < fuel)%nat -> (length bs + length str <= 63)%nat ->
  forallb (fun c : ascii => Ascii.eqb c csp || Ascii.eqb c c0 || Ascii.eqb c c1 || Ascii.eqb c cq) str = true ->
  let bs' := pat_bits str ++ bs in
  pattern_loop fuel str (num_of is_one bs) (num_of is_fixed bs) (low_marks bs)
  = Ok (Z.shiftr (num_of is_one bs') (low_marks bs'), Z.shiftr (num_of is_fixed bs') (low_marks bs'),
        low_marks bs').
Proof.
  revert fuel bs. induction str as [|c str IH]; intros fuel bs Hf Hl Hok; cbv zeta.
  - destruct fuel; [cbn in Hf; lia |]. done.
  - destruct fuel as [|fuel]; [cbn in Hf; lia |]. cbn [length] in *.
    cbn [forallb] in Hok. apply andb_true_iff in Hok as [Hc Hok].
    cbn [pattern_loop]. rewrite pat_bits_cons. destruct (Ascii.eqb c csp) eqn:Esp.
    + rewrite app_nil_r. apply IH; [lia | lia | done].
    + cbn [orb] in Hc. rewrite Hc. cbn [ensure mbind Res_bind].
      rewrite <- app_assoc. cbn [app].
      fold (is_one c). rewrite push_bit by lia.
      replace (if Ascii.eqb c cq then 0 else 1) with (if is_fixed c then 1 else 0)
        by (unfold is_fixed; by destruct (Ascii.eqb c cq)).
      rewrite push_bit by lia.
      change (if Ascii.eqb c cq then low_marks bs + 1 else 0) with (low_marks (c :: bs)).
      apply (IH fuel (c :: bs)); cbn [length]; [lia | lia | done].
Qed.

Lemma pattern_decode_ok str : pat_ok str = true ->
  let bs := pat_bits str in
  pattern_decode str = Ok (Z.shiftr (num_of is_one bs) (low_marks bs),
    Z.shiftr (num_of is_fixed bs) (low_marks bs), low_marks bs).
Proof.
  unfold pat_ok. intros Hok. apply andb_true_iff in Hok as [Hl Hok]. apply Nat.leb_le in Hl.
  pose proof (pattern_loop_spec 64 str [] ltac:(lia) ltac:(cbn; lia) Hok) as E.
  cbv zeta in *. by rewrite app_nil_r in E.
Qed.

Lemma masked_eq_iff bs inst : Forall (fun c => c = c0 \/ c = c1 \/ c = cq) bs ->
  Z.land inst (num_of is_fixed bs) = num_of is_one bs <->
  forall j c, bs !! j = Some c -> char_agrees c (Z.testbit inst (Z.of_nat j)).
Proof.
  intros Hcs. split.
  - intros E j c Hj. apply (f_equal (fun x => Z.testbit x (Z.of_nat j))) in E.
    rewrite Z.land_spec, !testbit_num_of, Hj in E. cbn in E.
    split; intros ->; cbn in E; destruct (Z.testbit inst (Z.of_nat j)); done.
  - intros Ha. apply Z.bits_inj'. intros i Hi. rewrite <- (Z2Nat.id i Hi).
    rewrite Z.land_spec, !testbit_num_of. destruct (bs !! Z.to_nat i) as [c|] eqn:E;
      [| cbn; apply andb_false_r].
    cbn. destruct (Ha _ _ E) as [H0 H1]. eapply Forall_lookup_1 in Hcs; [| exact E].
    destruct Hcs as [-> | [-> | ->]].
    + by rewrite (H0 eq_refl).
    + by rewrite (H1 eq_refl).
    + cbn. apply andb_false_r.
Qed.

Lemma pat_bits_chars str : pat_ok str = true ->
  Forall (fun c => c = c0 \/ c = c1 \/ c = cq) (pat_bits str).
Proof.
  unfold pat_ok. intros Hok. apply andb_true_iff in Hok as [_ Hok].
  unfold pat_bits. apply Forall_rev. induction str as [|c str IH]; cbn in *; [constructor |].
  apply andb_true_iff in Hok as [Hc Hok]. destruct (Ascii.eqb c csp); cbn in *; [by apply IH |].
  constructor; [| by apply IH]. apply orb_true_iff in Hc as [Hc | Hc%Ascii.eqb_eq]; [| auto].
  apply orb_true_iff in Hc as [Hc%Ascii.eqb_eq | Hc%Ascii.eqb_eq]; auto.
Qed.

(** What [INSTPAT] matches.  For a pattern of legal characters, shorter
    than 64, whose lowest character is not a question mark (every row of the
    table but the catch-all), the key and mask comparison succeeds exactly on
    the words that agree with the string: a bit under [0] is clear, under [1]
    set, under [?] arbitrary; blanks do not count. *)
Theorem instpat_match_spec str inst : pat_ok str = true -> pat_anchored str = true ->
  exists b, instpat_match str inst = Ok b /\ (b = true <-> pat_agrees str inst).
Proof.
  intros Hok Ha. unfold instpat_match. rewrite pattern_decode_ok by done. cbn [mbind Res_bind].
  assert (El : low_marks (pat_bits str) = 0).
  { unfold pat_anchored in Ha. destruct (pat_bits str) as [|c bs]; [done |]. cbn.
    apply negb_true_iff in Ha. by rewrite Ha. }
  rewrite El, !Z.shiftr_0_r. eexists. split; [reflexivity |].
  rewrite Z.eqb_eq. apply masked_eq_iff. by apply pat_bits_chars.
Qed.

Lemma instpat_match_spec_witness :
  pat_agrees (String.list_ascii_of_string "??????? ????? ????? 000 ????? 00100 11") 0x00150513.
Proof.
  destruct (instpat_match_spec (String.list_ascii_of_string "??????? ????? ????? 000 ????? 00100 11")
    0x00150513 eq_refl eq_refl) as (b & E & H).
  apply H. vm_compute in E. injection E as <-. reflexivity.
Defined.

(** ** The dispatch of [ir_decode] against the table *)

(** The executor and format [ir_decode] uses for a row: [fence.i] is decoded
    as [fence], and the system rows and fences take no operands. *)
Definition direct_op (r : inst_row) : exec_op :=
  match row_op r with Exec_fence_i => Exec_fence | op => op end.

Definition direct_type (r : inst_row) : itype :=
  match row_op r with
  | Exec_ecall | Exec_mret | Exec_ebreak | Exec_fence | Exec_fence_i => TYPE_N
  | _ => row_type r
  end.

(** The operand fields of an instruction. *)
Definition operands (ir : IR_Inst) : Z * Z * Z * Z * Z * Z :=
  (ir_rd ir, ir_rs1 ir, ir_rs2 ir, src1_val ir, src2_val ir, ir_imm ir).

(** A field that a pattern fixes has the value of the pattern's key. *)
Lemma field_of_mask raw mask key lo m v :
  Z.land raw mask = key -> Z.land (Z.shiftr mask lo) m = m -> Z.land (Z.shiftr key lo) m = v ->
  Z.land (Z.shiftr raw lo) m = v.
Proof.
  intros <- Hm <-. rewrite Z.shiftr_land, <- Z.land_assoc, Hm. done.
Qed.

Definition row_mask (r : inst_row) : Z := num_of is_fixed (pat_bits (row_chars r)).
Definition row_key (r : inst_row) : Z := num_of is_one (pat_bits (row_chars r)).

Lemma table_ok : forallb (fun r => pat_ok (row_chars r)) inst_table = true.
Proof. reflexivity. Qed.

Lemma row_masked r raw : r ∈ inst_table -> pat_agrees (row_chars r) raw ->
  Z.land raw (row_mask r) = row_key r.
Proof.
  intros Hr Ha. apply masked_eq_iff; [| exact Ha]. apply pat_bits_chars.
  pose proof table_ok as Ht. rewrite forallb_forall in Ht. apply Ht. by apply list_elem_of_In.
Qed.

(** What a row fixes of the fields the dispatch looks at. *)
Definition covers (mask lo m : Z) : bool := Z.land (Z.shiftr mask lo) m =? m.
Definition field (key lo m : Z) : Z := Z.land (Z.shiftr key lo) m.

Definition row_fields (r : inst_row) (raw : Z) : Prop :=
  let mask := row_mask r in let key := row_key r in
  (covers mask 2 0x1f = true -> opcode_of raw = field key 2 0x1f) /\
  (covers mask 12 7 = true -> funct3_of raw = field key 12 7) /\
  (covers mask 25 0x7f = true -> funct7_of raw = field key 25 0x7f) /\
  (covers mask 26 0x3f = true -> Z.shiftr (funct7_of raw) 1 = field key 26 0x3f) /\
  (covers mask 0 0xffffffff = true -> raw = key).

Lemma row_fields_ok r raw : r ∈ inst_table -> 0 <= raw < 2 ^ 32 ->
  pat_agrees (row_chars r) raw -> row_fields r raw.
Proof.
  intros Hr Hraw Ha. pose proof (row_masked r raw Hr Ha) as E. unfold row_fields, covers. cbv zeta.
  split; [| split; [| split; [| split]]]; intros Hc%Z.eqb_eq.
  1-3: by apply (field_of_mask _ _ _ _ _ _ E).
  - unfold funct7_of. rewrite Z.shiftr_land, Z.shiftr_shiftr by done.
    by apply (field_of_mask _ _ _ _ _ _ E).
  - rewrite Z.shiftr_0_r in Hc. rewrite <- E. apply Z.bits_inj'. intros i Hi. rewrite Z.land_spec.
    destruct (Z.lt_ge_cases i 32) as [Hlt|Hge].
    + apply (f_equal (fun x => Z.testbit x i)) in Hc. rewrite Z.land_spec in Hc.
      change 0xffffffff with (Z.ones 32) in Hc. rewrite Z.ones_spec_low in Hc by lia.
      rewrite andb_true_r in Hc. by rewrite Hc, andb_true_r.
    + by rewrite (proj1 (below_pow2_bits 32 raw ltac:(lia) ltac:(lia)) ltac:(lia) i Hge).
Qed.

(** Rewrite with the fields a row fixes, then evaluate the dispatch. *)
Ltac use_field H :=
  try (specialize (H eq_refl);
       match type of H with _ = ?f => let v := eval vm_compute in f in change f with v in H end;
       try rewrite H).

Ltac row_case :=
  match goal with
  | H : row_fields _ _ |- _ =>
      let Ho := fresh "Ho" in let H3 := fresh "H3" in let H7 := fresh "H7" in
      let H6 := fresh "H6" in let Hw := fresh "Hw" in
      destruct H as (Ho & H3 & H7 & H6 & Hw);
      use_field Ho; use_field H3;
      cbn [decode_op_imm decode_load decode_store decode_branch decode_op_imm32 decode_op
           decode_op32 decode_system];
      use_field H7; use_field H6;
      try (specialize (Hw eq_refl); match type of Hw with _ = ?f =>
             let v := eval vm_compute in f in change f with v in Hw end; rewrite Hw);
      cbn [Z.eqb Pos.eqb]
  end.

(** The dispatch on a word that a row describes. *)
Lemma dispatch_row r raw gprs pc snpc ir :
  r ∈ inst_table -> row_op r <> Exec_inv -> row_op r <> Exec_srai ->
  0 <= raw < 2 ^ 32 -> pat_agrees (row_chars r) raw ->
  let d := ir_decode gprs raw pc snpc ir in
  exec_fn d = Some (direct_op r) /\
  operands d = operands (ir_fill_operands gprs raw (direct_type r) (decode_reset raw pc snpc ir)) /\
  serializing d = bool_decide (row_op r ∈ [Exec_csrrw; Exec_csrrs; Exec_csrrc; Exec_ecall; Exec_mret;
                                           Exec_ebreak; Exec_fence; Exec_fence_i]) /\
  ir_pc d = pc /\ ir_snpc d = snpc /\ ir_dnpc d = snpc /\ fault d = false.
Proof.
  intros Hr Hinv Hsrai Hraw Ha. pose proof (row_fields_ok r raw Hr Hraw Ha) as Hf. clear Ha.
  unfold inst_table in Hr. cbv zeta. unfold ir_decode.
  elem_cases Hr; try done; row_case; repeat split.
Qed.


(** The row of [srai]. *)
Definition srai_row : inst_row := mkInst "010000? ????? ????? 101 ????? 00100 11" Exec_srai TYPE_I.


(** The shift amount [srai] carries in its immediate is above 1024. *)
Lemma srai_imm raw : row_fields srai_row raw -> 1024 <= immI raw < 1088.
Proof.
  intros (_ & _ & _ & H6 & _). specialize (H6 eq_refl).
  change (field _ 26 0x3f) with 16 in H6. unfold funct7_of in H6.
  rewrite Z.shiftr_land, Z.shiftr_shiftr in H6 by lia. change (Z.shiftr 0x7f 1) with (Z.ones 6) in H6.
  rewrite Z.land_ones, Z.shiftr_div_pow2 in H6 by lia.
  assert (Hb : 1024 <= BITS raw 31 20 < 1088).
  { rewrite BITS_div_mod by lia. change (25 + 1) with 26 in H6.
    change (2 ^ 26) with (2 ^ 20 * 64) in H6. rewrite <- Z.div_div in H6 by lia.
    set (q := raw / 2 ^ 20) in *. change (2 ^ (31 - 20 + 1)) with (64 * 64). 
    rewrite Z.rem_mul_r by lia. change (2 ^ 6) with 64 in H6. rewrite H6.
    pose proof (Z.mod_pos_bound q 64 ltac:(lia)). lia. }
  rewrite immI_wrap. rewrite <- (Z.add_0_r (BITS raw 31 20)). change 0 with (0 * 2 ^ 12).
  rewrite signed_field_id by (cbn; lia). rewrite wrap64_small; [done | unfold is_word; lia].
Qed.

(** C39. [srai] is decoded as [srli].  The dispatch compares [funct7 >> 1] with
    [0x20], but the six high bits of [srai] are [0x10]: a word that agrees
    with the table's [srai] row is given the executor of [srli], whose shift
    amount is then the whole immediate, at least 1024, so that executing it is
    an over-wide shift on every machine state. *)
Theorem srai_decoded_as_srli raw gprs pc snpc ir m :
  0 <= raw < 2 ^ 32 -> pat_agrees (row_chars srai_row) raw ->
  let d := ir_decode gprs raw pc snpc ir in
  exec_fn d = Some Exec_srli /\ ir_name d = "srli"%string /\ ir_execute d m = Err Undefined.
Proof.
  intros Hraw Ha.
  assert (Hr : srai_row ∈ inst_table).
  { unfold inst_table, srai_row. do 35 apply list_elem_of_further. apply list_elem_of_here. }
  pose proof (row_fields_ok _ raw Hr Hraw Ha) as Hf. pose proof (srai_imm raw Hf) as Hi.
  assert (E : ir_decode gprs raw pc snpc ir = named "srli" Exec_srli
                (ir_fill_operands gprs raw TYPE_I (decode_reset raw pc snpc ir))).
  { clear Ha Hi Hr. unfold ir_decode. row_case. done. }
  cbv zeta. rewrite E. split; [done | split; [done |]].
  unfold ir_execute. cbn [named exec_fn exec_call]. unfold res_exec, ir_exec_srli.
  unfold shr64. cbn [named src2_val ir_fill_operands].
  destruct ((0 <=? immI raw) && (immI raw <? 64)) eqn:Eb; [zify_bool; lia | done].
Qed.

(** [srai a0, a0, 1] *)
Lemma srai_decoded_as_srli_witness :
  let d := ir_decode (replicate 32 8) 0x40155513 0x80000000 0x80000004 ir_zero in
  exec_fn d = Some Exec_srli /\ src1_val d = 8.
Proof.
  destruct (srai_decoded_as_srli 0x40155513 (replicate 32 8) 0x80000000 0x80000004 ir_zero
    (boot_mach (io_static (fun _ => (0, 0)) (fun _ => []))))
    as (E & _ & _).
  - lia.
  - unfold pat_agrees; rewrite <- masked_eq_iff; [reflexivity | by apply pat_bits_chars].
  - split; [exact E | reflexivity].
Defined.

(** Encodings outside the table that [ir_decode] accepts.  Each word
    matches only the catch-all row of the table, and yet the dispatch gives it
    the executor of another instruction: [slli] and [srli] with non-zero high
    bits, [jalr] with a non-zero [funct3], [mulhu] executed as [divu], a
    compressed-quadrant word (its two low bits are ignored) executed as
    [addi], and [fence.i] with operands executed as [fence]. *)
Theorem decode_accepts_more :
  Forall (fun '(raw, op) =>
    instpat_scan inst_table raw = Ok (Some (mkInst "??????? ????? ????? ??? ????? ????? ??" Exec_inv TYPE_N)) /\
    exec_fn (ir_decode [] raw 0 4 ir_zero) = Some op)
  [ (0xfe151513, Exec_slli); (0xfe155513, Exec_srli); (0x00057567, Exec_jalr);
    (0x02b53533, Exec_divu); (0x00150510, Exec_addi); (0x0001100f, Exec_fence) ].
Proof. repeat constructor. Qed.
