(* ===== verification/IrSpec.v ===== *)
(** * Instruction semantics (src/cpu/ir.c)

    What the executors of [ir.c] compute, stated against an arithmetic
    reference of the integer instructions: quotients, remainders and powers of
    two on numbers, with no bit operation on machine words.  The reference is
    total; [alu_defined] is the exact set of operands on which the C code is
    defined. *)

From S2P Require Import Prelude Word State Pmp Csr Cache CacheSet CacheSpec CacheRefine Coherence Mmio Mem Ftrace Vmem VmemSpec Decode Ir.

(** ** The arithmetic reference *)

(** The low 32 bits as a signed number, stored in 64 bits. *)
Definition sext32 (x : Z) : Z := wrap64 (signed_field x 32).
Definition lowhalf (x : Z) : Z := x mod 2 ^ 32.

Definition rv_alu (op : exec_op) (a b : Z) : Z :=
  match op with
  | Exec_add | Exec_addi => (a + b) mod 2 ^ 64
  | Exec_sub => (a - b) mod 2 ^ 64
  | Exec_mul => (a * b) mod 2 ^ 64
  | Exec_or | Exec_ori => Z.lor a b
  | Exec_xor | Exec_xori => Z.lxor a b
  | Exec_and | Exec_andi => Z.land a b
  | Exec_slt | Exec_slti => if s64 a <? s64 b then 1 else 0
  | Exec_sltu | Exec_sltiu => if a <? b then 1 else 0
  | Exec_sll => (a * 2 ^ (b mod 64)) mod 2 ^ 64
  | Exec_srl => a / 2 ^ (b mod 64)
  | Exec_sra | Exec_srai => (s64 a / 2 ^ (b mod 64)) mod 2 ^ 64
  | Exec_slli => (a * 2 ^ b) mod 2 ^ 64
  | Exec_srli => a / 2 ^ b
  | Exec_div => (Z.quot (s64 a) (s64 b)) mod 2 ^ 64
  | Exec_divu => a / b
  | Exec_rem => (Z.rem (s64 a) (s64 b)) mod 2 ^ 64
  | Exec_remu => a mod b
  | Exec_addw | Exec_addiw => sext32 (a + b)
  | Exec_subw => sext32 (a - b)
  | Exec_mulw => sext32 (a * b)
  | Exec_sllw => sext32 (a * 2 ^ (b mod 32))
  | Exec_srlw => sext32 (lowhalf a / 2 ^ (b mod 32))
  | Exec_sraw | Exec_sraiw => wrap64 (s32 a / 2 ^ (b mod 32))
  | Exec_slliw => sext32 (a * 2 ^ b)
  | Exec_srliw => sext32 (lowhalf a / 2 ^ b)
  | Exec_divw => sext32 (Z.quot (s32 a) (s32 b))
  | Exec_remw => sext32 (Z.rem (s32 a) (s32 b))
  | Exec_divuw => sext32 (lowhalf a / lowhalf b)
  | Exec_remuw => sext32 (lowhalf a mod lowhalf b)
  | _ => 0
  end.

(** A signed division that C leaves undefined. *)
Definition div_overflow (width a b : Z) : bool :=
  (b =? 0) || ((a =? - 2 ^ (width - 1)) && (b =? -1)).

Definition alu_defined (op : exec_op) (a b : Z) : bool :=
  match op with
  | Exec_div | Exec_rem => negb (div_overflow 64 (s64 a) (s64 b))
  | Exec_divu | Exec_remu => negb (b =? 0)
  | Exec_divw | Exec_remw => negb (div_overflow 32 (s32 a) (s32 b))
  | Exec_divuw | Exec_remuw => negb (lowhalf b =? 0)
  | Exec_mulw => (- 2 ^ 31 <=? s32 a * s32 b) && (s32 a * s32 b <? 2 ^ 31)
  | Exec_slli | Exec_srli | Exec_slliw | Exec_srliw => b <? 64
  | _ => true
  end.

Definition is_alu (op : exec_op) : bool :=
  match op with
  | Exec_add | Exec_sub | Exec_mul | Exec_or | Exec_xor | Exec_and | Exec_slt | Exec_sltu
  | Exec_sll | Exec_srl | Exec_sra | Exec_div | Exec_divu | Exec_rem | Exec_remu
  | Exec_addw | Exec_mulw | Exec_subw | Exec_sllw | Exec_srlw | Exec_sraw | Exec_divw
  | Exec_divuw | Exec_remw | Exec_remuw | Exec_addi | Exec_ori | Exec_xori | Exec_andi
  | Exec_slti | Exec_sltiu | Exec_slli | Exec_srli | Exec_srai | Exec_addiw | Exec_slliw
  | Exec_srliw | Exec_sraiw => true
  | _ => false
  end.

(** ** Words of 32 bits *)

Lemma lo32_mod x : lo32 x = x mod 2 ^ 32.
Proof. unfold lo32. change 0xffffffff with (2 ^ 32 - 1). by apply land_ones_mod. Qed.

Lemma signed_field_cong x y len : x mod 2 ^ len = y mod 2 ^ len ->
  signed_field x len = signed_field y len.
Proof. intros E. unfold signed_field. by rewrite E. Qed.

Lemma mod_mod_pow x a b : 0 <= a <= b -> (x mod 2 ^ b) mod 2 ^ a = x mod 2 ^ a.
Proof.
  intros H. replace (2 ^ b) with (2 ^ a * 2 ^ (b - a)) by (rewrite <- Z.pow_add_r by lia; f_equal; lia).
  rewrite Z.rem_mul_r by lia. rewrite Z.mul_comm, Z.mod_add by lia. apply Z.mod_mod. lia.
Qed.

Lemma SEXT32 x : SEXT x 32 = sext32 x.
Proof. done. Qed.
Lemma sext32_lo32 x : sext32 (lo32 x) = sext32 x.
Proof. unfold sext32. f_equal. apply signed_field_cong. rewrite lo32_mod. by apply mod_mod_pow. Qed.
Lemma sext32_wrap64 x : sext32 (wrap64 x) = sext32 x.
Proof. unfold sext32. f_equal. apply signed_field_cong. by apply mod_mod_pow. Qed.
Lemma s32_lo32 x : s32 (lo32 x) = s32 x.
Proof. rewrite !s32_signed_field. apply signed_field_cong. rewrite lo32_mod. by apply mod_mod_pow. Qed.

(** A number that fits 32 bits is its own sign extension. *)
Lemma sext32_small x : - 2 ^ 31 <= x < 2 ^ 31 -> sext32 x = wrap64 x.
Proof.
  intros Hx. unfold sext32. f_equal. rewrite <- (signed_field_id x 32 0) at 2 by lia. f_equal. lia.
Qed.

Lemma s32_cong x : exists k, s32 x = x + k * 2 ^ 32.
Proof. rewrite s32_signed_field. by apply signed_field_mod. Qed.

(** The low half of a product depends only on the low halves. *)
Lemma sext32_mul a b : sext32 (s32 a * s32 b) = sext32 (a * b).
Proof.
  destruct (s32_cong a) as [i ->], (s32_cong b) as [j ->]. unfold sext32. f_equal.
  apply signed_field_cong.
  replace ((a + i * 2 ^ 32) * (b + j * 2 ^ 32))
    with (a * b + (a * j + i * b + i * j * 2 ^ 32) * 2 ^ 32) by lia.
  by rewrite Z.mod_add.
Qed.

Lemma sext32_mul_low a n : sext32 (lo32 a * n) = sext32 (a * n).
Proof.
  unfold sext32. f_equal. apply signed_field_cong. rewrite lo32_mod.
  by rewrite Z.mul_mod_idemp_l.
Qed.

Lemma land_63 x : Z.land x 0x3f = x mod 64.
Proof. change 0x3f with (2 ^ 6 - 1). by rewrite land_ones_mod. Qed.
Lemma land_31 x : Z.land x 0x1f = x mod 32.
Proof. change 0x1f with (2 ^ 5 - 1). by rewrite land_ones_mod. Qed.

(** ** C shifts in range *)

Lemma shl64_ok a n : 0 <= n < 64 -> shl64 a n = Ok ((a * 2 ^ n) mod 2 ^ 64).
Proof.
  intros Hn. unfold shl64. case_if; zify_bool; [| lia]. by rewrite Z.shiftl_mul_pow2 by lia.
Qed.
Lemma shr64_ok a n : 0 <= n < 64 -> shr64 a n = Ok (a / 2 ^ n).
Proof.
  intros Hn. unfold shr64. case_if; zify_bool; [| lia]. by rewrite Z.shiftr_div_pow2 by lia.
Qed.
Lemma sar64_ok a n : 0 <= n < 64 -> sar64 a n = Ok ((s64 a / 2 ^ n) mod 2 ^ 64).
Proof.
  intros Hn. unfold sar64. case_if; zify_bool; [| lia]. by rewrite Z.shiftr_div_pow2 by lia.
Qed.
Lemma shl64_bad a n : 64 <= n -> shl64 a n = Err Undefined.
Proof. intros Hn. unfold shl64. case_if; zify_bool; [lia | done]. Qed.
Lemma shr64_bad a n : 64 <= n -> shr64 a n = Err Undefined.
Proof. intros Hn. unfold shr64. case_if; zify_bool; [lia | done]. Qed.

Lemma mod_64_lt x : 0 <= x mod 64 < 64.
Proof. apply Z.mod_pos_bound. lia. Qed.
Lemma mod_32_lt x : 0 <= x mod 32 < 32.
Proof. apply Z.mod_pos_bound. lia. Qed.

(** An arithmetic shift of 32 bits stays within 32 bits. *)
Lemma sra32_small a n : 0 <= n -> sext32 (s32 a / 2 ^ n) = wrap64 (s32 a / 2 ^ n).
Proof.
  intros Hn. apply sext32_small. pose proof (s32_range a).
  assert (1 <= 2 ^ n) by (pose proof (Z.pow_pos_nonneg 2 n); lia).
  split; [apply Z.div_le_lower_bound; nia | apply Z.div_lt_upper_bound; nia].
Qed.

(** ** The executors compute the reference *)

(** The result of an ALU instruction: [alu_value op a b] is what its executor
    stores, or the C operation it could not perform. *)
Definition alu_value (op : exec_op) (a b : Z) : Res Z :=
  if alu_defined op a b then Ok (rv_alu op a b) else Err Undefined.

Lemma c_div_ok w a b : c_div w a b = if div_overflow w a b then Err Undefined else Ok (Z.quot a b).
Proof. done. Qed.
Lemma c_rem_ok w a b : c_rem w a b = if div_overflow w a b then Err Undefined else Ok (Z.rem a b).
Proof. done. Qed.

(** One lemma per executor that can fail or works on halves. *)
Section Executors.
Context (ir : IR_Inst).
Let a := src1_val ir.
Let b := src2_val ir.
Hypothesis Hb : is_word b.

Definition alu_result (op : exec_op) : Res IR_Inst :=
  v ← alu_value op (src1_val ir) (src2_val ir); Ok (alu_done v ir).

Lemma exec_shifts :
  ir_exec_sll ir = alu_result Exec_sll /\ ir_exec_srl ir = alu_result Exec_srl /\
  ir_exec_sra ir = alu_result Exec_sra /\ ir_exec_srai ir = alu_result Exec_srai.
Proof.
  unfold ir_exec_sll, ir_exec_srl, ir_exec_sra, ir_exec_srai. rewrite !land_63.
  pose proof (mod_64_lt (src2_val ir)).
  rewrite shl64_ok, shr64_ok, sar64_ok by done. done.
Qed.

Lemma exec_shifts_imm :
  ir_exec_slli ir = alu_result Exec_slli /\ ir_exec_srli ir = alu_result Exec_srli /\
  ir_exec_slliw ir = alu_result Exec_slliw /\ ir_exec_srliw ir = alu_result Exec_srliw.
Proof.
  unfold ir_exec_slli, ir_exec_srli, ir_exec_slliw, ir_exec_srliw, alu_result, alu_value.
  cbn [alu_defined rv_alu]. unfold is_word in Hb. fold b. fold a.
  destruct (Z.ltb_spec b 64).
  - rewrite !shl64_ok, !shr64_ok by lia. cbn [mbind Res_bind]. rewrite !SEXT32, !sext32_lo32.
    fold (wrap64 (lo32 a * 2 ^ b)). rewrite sext32_wrap64, sext32_mul_low, lo32_mod. done.
  - by rewrite !shl64_bad, !shr64_bad.
Qed.

Lemma exec_shifts_w :
  ir_exec_sllw ir = alu_result Exec_sllw /\ ir_exec_srlw ir = alu_result Exec_srlw /\
  Ok (ir_exec_sraw ir) = alu_result Exec_sraw /\ Ok (ir_exec_sraiw ir) = alu_result Exec_sraiw.
Proof.
  unfold ir_exec_sllw, ir_exec_srlw, ir_exec_sraw, ir_exec_sraiw. rewrite !land_31. fold b. fold a.
  pose proof (mod_32_lt b). rewrite shl64_ok, shr64_ok by lia. cbn [mbind Res_bind].
  rewrite !SEXT32, !sext32_lo32, !sext32_wrap64, s32_lo32, Z.shiftr_div_pow2, sra32_small by lia.
  fold (wrap64 (lo32 a * 2 ^ (b mod 32))). by rewrite sext32_wrap64, sext32_mul_low, lo32_mod.
Qed.

Lemma exec_divisions :
  ir_exec_div ir = alu_result Exec_div /\ ir_exec_rem ir = alu_result Exec_rem /\
  ir_exec_divu ir = alu_result Exec_divu /\ ir_exec_remu ir = alu_result Exec_remu.
Proof.
  unfold ir_exec_div, ir_exec_rem, ir_exec_divu, ir_exec_remu, alu_result, alu_value, c_divu, c_remu.
  rewrite c_div_ok, c_rem_ok. cbn [alu_defined rv_alu]. fold a b.
  destruct (div_overflow 64 (s64 a) (s64 b)), (b =? 0); done.
Qed.

Lemma exec_divisions_w :
  ir_exec_divw ir = alu_result Exec_divw /\ ir_exec_remw ir = alu_result Exec_remw /\
  ir_exec_divuw ir = alu_result Exec_divuw /\ ir_exec_remuw ir = alu_result Exec_remuw.
Proof.
  unfold ir_exec_divw, ir_exec_remw, ir_exec_divuw, ir_exec_remuw, alu_result, alu_value, c_divu, c_remu.
  rewrite c_div_ok, c_rem_ok, !s32_lo32, !lo32_mod. cbn [alu_defined rv_alu]. fold a b.
  fold (lowhalf a) (lowhalf b).
  destruct (div_overflow 32 (s32 a) (s32 b)), (lowhalf b =? 0); cbn [mbind Res_bind negb];
    rewrite ?SEXT32, ?sext32_lo32, ?sext32_wrap64; done.
Qed.

Lemma exec_arith_w :
  Ok (ir_exec_addw ir) = alu_result Exec_addw /\ Ok (ir_exec_subw ir) = alu_result Exec_subw /\
  Ok (ir_exec_addiw ir) = alu_result Exec_addiw /\ ir_exec_mulw ir = alu_result Exec_mulw.
Proof.
  unfold ir_exec_addw, ir_exec_subw, ir_exec_addiw, ir_exec_mulw, alu_result, alu_value, c_mul32.
  cbn [alu_defined rv_alu]. rewrite !SEXT32, !sext32_lo32, !s32_lo32. unfold add64, sub64.
  rewrite !sext32_wrap64. fold a b. split; [done | split; [done | split; [done |]]].
  case_if; cbn [mbind Res_bind]; [| done]. by rewrite SEXT32, sext32_wrap64, sext32_mul.
Qed.
End Executors.

Lemma exec_alu op ir m : is_alu op = true -> is_word (src2_val ir) ->
  exec_call op ir m =
    if alu_defined op (src1_val ir) (src2_val ir)
    then Ok (alu_done (rv_alu op (src1_val ir) (src2_val ir)) ir, m)
    else Err Undefined.
Proof.
  intros Hop Hb.
  transitivity (d ← alu_result ir op; Ok (d, m)).
  - destruct (exec_shifts ir) as (? & ? & ? & ?).
    destruct (exec_shifts_imm ir Hb) as (? & ? & ? & ?).
    destruct (exec_shifts_w ir) as (? & ? & Hsraw & Hsraiw).
    destruct (exec_divisions ir) as (? & ? & ? & ?).
    destruct (exec_divisions_w ir) as (? & ? & ? & ?).
    destruct (exec_arith_w ir) as (Haddw & Hsubw & Haddiw & ?).
    destruct op; try done; cbn [exec_call]; unfold res_exec, pure_exec; congruence || idtac.
    all: rewrite <- ?Hsraw, <- ?Hsraiw, <- ?Haddw, <- ?Hsubw, <- ?Haddiw; done.
  - unfold alu_result, alu_value. by case_if.
Qed.

(** C11. The arithmetic instructions.  Every integer register and immediate
    instruction, called through [exec_fn] on 64-bit operands, stores exactly
    the number of the arithmetic reference, classifies itself as [ITYPE_ALU],
    falls through to [snpc] and touches nothing of the machine; and it is
    undefined in C exactly outside [alu_defined]: a zero divisor, the
    overflowing signed quotient, an [int] product out of range in [mulw], an
    immediate shift amount of 64 or more. *)
Theorem alu_conforms op ir m : is_alu op = true -> is_word (src2_val ir) ->
  exec_call op ir m =
    if alu_defined op (src1_val ir) (src2_val ir)
    then Ok (alu_done (rv_alu op (src1_val ir) (src2_val ir)) ir, m)
    else Err Undefined.
Proof. apply exec_alu. Qed.

Lemma alu_conforms_witness :
  let ir := {| ir_zero with src1_val := 2 ^ 64 - 7; src2_val := 2 |} in
  exists d, (forall m, exec_call Exec_div ir m = Ok (d, m)) /\ ir_result d = 2 ^ 64 - 3.
Proof.
  cbv zeta. eexists. split.
  - intros m. rewrite (alu_conforms Exec_div _ m) by (done || (unfold is_word; cbn; lia)). reflexivity.
  - reflexivity.
Defined.

(** ** Every field stays a machine word *)

Record ir_ok (ir : IR_Inst) : Prop := {
  io_words : Forall is_word [ir_pc ir; ir_snpc ir; src1_val ir; src2_val ir; ir_imm ir;
                             ir_result ir; ir_dnpc ir; mem_addr ir];
  io_rd : -1 <= ir_rd ir < 32;
}.

(** The register file: 32 words, the first of them zero. *)
Record gprs_ok (g : list Z) : Prop := {
  go_len : length g = 32%nat;
  go_words : Forall is_word g;
  go_zero : arr g 0 = 0;
}.

Lemma gprs_ok_word g i : gprs_ok g -> is_word (arr g i).
Proof.
  intros [Hl Hw _]. unfold arr. destruct (g !! Z.to_nat i) as [v|] eqn:E.
  - rewrite (list_lookup_total_correct _ _ _ E). by eapply Forall_lookup_1.
  - rewrite list_lookup_total_alt, E. apply is_word_1.
Qed.

Lemma BITS_rd i : 0 <= BITS i 11 7 < 32.
Proof. by apply BITS_lt. Qed.

Lemma lsl_word x n : is_word (lsl x n).
Proof. apply wrap64_word. Qed.
Lemma BITS_word x hi lo : 0 <= lo <= hi + 1 -> hi - lo < 64 -> is_word (BITS x hi lo).
Proof.
  intros H1 H2. pose proof (BITS_range x hi lo H1).
  pose proof (Z.pow_le_mono_r 2 (hi - lo + 1) 64 ltac:(lia) ltac:(lia)). unfold is_word. lia.
Qed.

Lemma imm_words i : is_word (immI i) /\ is_word (immU i) /\ is_word (immS i) /\ is_word (immB i) /\
  is_word (immJ i).
Proof.
  unfold immI, immU, immS, immB, immJ.
  repeat split; repeat apply lor_word;
    first [apply SEXT_word | apply lsl_word | apply BITS_word; lia].
Qed.

(** Split [ir_ok] into its words and back. *)
Ltac words H :=
  let Hw := fresh "Hw" in let Hrd := fresh "Hrd" in
  destruct H as [Hw Hrd]; rewrite !Forall_cons in Hw; destruct Hw as (? & ? & ? & ? & ? & ? & ? & ? & _).
Ltac mk_words :=
  split; cbn; [rewrite !Forall_cons; repeat match goal with |- _ /\ _ => split end;
               try done; auto with emu | try lia].

Lemma named_ok nm op ir : ir_ok ir -> ir_ok (named nm op ir).
Proof. by intros [? ?]. Qed.
Lemma named_serial_ok nm op ir : ir_ok ir -> ir_ok (named_serial nm op ir).
Proof. by intros [? ?]. Qed.

Lemma fill_ok g raw t ir : gprs_ok g -> ir_ok ir -> ir_ok (ir_fill_operands g raw t ir).
Proof.
  intros Hg Hir. words Hir. pose proof (BITS_rd raw).
  destruct (imm_words raw) as (? & ? & ? & ? & ?).
  pose proof (fun i => gprs_ok_word g i Hg) as Hgw.
  destruct t; mk_words.
Qed.

Lemma decode_reset_ok raw pc snpc ir : is_word pc -> is_word snpc -> ir_ok ir ->
  ir_ok (decode_reset raw pc snpc ir).
Proof. intros Hp Hs Hir. words Hir. mk_words. Qed.

#[local] Hint Resolve named_ok named_serial_ok fill_ok decode_reset_ok : emu.

(** Case analysis on a field of the instruction word, up to the constants the
    dispatch compares it with. *)
Lemma decode_ok g raw pc snpc ir : gprs_ok g -> is_word pc -> is_word snpc -> ir_ok ir ->
  ir_ok (ir_decode g raw pc snpc ir).
Proof.
  intros Hg Hp Hs Hir. unfold ir_decode. cbv zeta.
  unfold decode_op_imm, decode_load, decode_store, decode_branch, decode_op_imm32, decode_op,
    decode_op32, decode_system. cbv zeta.
  generalize (opcode_of raw), (funct3_of raw), (funct7_of raw). intros o f3 f7.
  repeat (match goal with |- context [match ?x with _ => _ end] => destruct x end);
    eauto 6 with emu.
Qed.

(** The pcs of a decoded instruction. *)
Lemma decode_pcs g raw pc snpc ir :
  let d := ir_decode g raw pc snpc ir in ir_pc d = pc /\ ir_snpc d = snpc /\ ir_raw d = raw.
Proof.
  unfold ir_decode. cbv zeta.
  unfold decode_op_imm, decode_load, decode_store, decode_branch, decode_op_imm32, decode_op,
    decode_op32, decode_system. cbv zeta.
  generalize (opcode_of raw), (funct3_of raw), (funct7_of raw). intros o f3 f7.
  repeat (match goal with |- context [match ?x with _ => _ end] => destruct x end); done.
Qed.

(** ** Results are words *)

Lemma rv_alu_word op a b : is_alu op = true -> is_word a -> is_word b ->
  alu_defined op a b = true -> is_word (rv_alu op a b).
Proof.
  intros Hop Ha Hb Hd. destruct op; try done; cbn [rv_alu alu_defined] in *;
    auto with emu; try (apply wrap64_word).
  all: try (case_if; [apply is_word_1 | apply is_word_0]).
  all: unfold is_word in *.
  - pose proof (mod_64_lt b). pose proof (Z.pow_pos_nonneg 2 (b mod 64) ltac:(lia) ltac:(lia)).
    split; [apply Z.div_pos; lia | apply Z.div_lt_upper_bound; nia].
  - zify_bool. split; [apply Z.div_pos; lia | apply Z.div_lt_upper_bound; nia].
  - zify_bool. pose proof (Z.mod_pos_bound a b ltac:(lia)). lia.
  - zify_bool. pose proof (Z.pow_pos_nonneg 2 b ltac:(lia) ltac:(lia)).
    split; [apply Z.div_pos; lia | apply Z.div_lt_upper_bound; nia].
Qed.

Lemma read_pmpcfg_word p : pmp_wf p -> is_word (read_pmpcfg_all p).
Proof.
  intros [Hl _ Hb _ _]. unfold read_pmpcfg_all. rewrite read_pmpcfg_fold by (done || lia).
  set (bs := _ <$> _). assert (Hbs : Forall is_byte bs).
  { apply Forall_fmap, Forall_forall. intros i Hi%elem_of_seqZ_from. change (is_byte (arr (pmpcfg p) i)); apply Forall_arr; [done |].
    rewrite Hl. unfold PMP_NUMBER_IN_SUSTEMU. lia. }
  pose proof (le_word_word bs Hbs) as Hw. unfold is_word in *.
  change (2 ^ (8 * 0)) with 1. rewrite Z.mul_1_l, Z.add_0_l. by apply Hw.
Qed.

Lemma read_csr_word no cf env s v s' : csr_wf cf -> is_word (env_cycles env) ->
  is_word (env_instret env) -> read_csr no cf env s = Ok (v, s') -> is_word v /\ sim_le s s'.
Proof.
  intros [Hf _ Hp _] Hcy Hin. unfold read_csr. destruct (csr_grants cf no false) eqn:G.
  - rewrite (priv_check_granted _ _ _ _ G). intros H. inv_res. split; [| reflexivity].
    rename select (read_csr_switch _ _ _ = _) into Hr.
    unfold csr_fields in Hf. rewrite !Forall_cons in Hf. destruct_and! Hf.
    assert (Hst : forall st, is_word (stat_hits st) /\ is_word (stat_misses st))
      by (intros [[? ?]|]; split; cbn; auto with emu).
    pose proof (read_pmpcfg_word _ Hp). destruct Hp as [_ Hpl _ Hpa _].
    assert (Ha : forall i, 0 <= i < 2 -> is_word (arr (pmpaddr (pmp cf)) i))
      by (intros i Hi; apply Forall_arr; [done | rewrite Hpl; unfold PMP_NUMBER_IN_SUSTEMU; lia]).
    revert Hr. unfold read_csr_switch. cbv zeta.
    repeat (case_if; [intros; inv_res; first [done | apply Hst | apply Ha; lia | apply wrap64_word
                                              | unfold is_word; lia] |]).
    done.
  - rewrite (priv_check_refused _ _ _ _ G). intros H. inv_res. split; [unfold is_word; lia |].
    destruct (csr_row_of no); [apply sim_le_abort_bad | reflexivity].
Qed.

(** ** What execution does to the machine *)

(** Only the run state, the CSR file and the function trace change. *)
Record exec_frame (m m' : Mach) : Prop := {
  ef_mem : same_mem m m';
  ef_cpu : cpu m' = cpu m;
  ef_cycles : g_sim_cycles m' = g_sim_cycles m;
  ef_instret : g_sim_instret m' = g_sim_instret m;
  ef_io : io (bus m') = io (bus m);
  ef_sim : sim_le (sim (bus m)) (sim (bus m'));
  ef_csr : csr_wf (csrf (bus m)) -> csr_wf (csrf (bus m'));
}.

#[export] Instance exec_frame_preorder : PreOrder exec_frame.
Proof.
  split.
  - intros m. split; (done || reflexivity || auto).
  - intros a b c [? ? ? ? ? ? ?] [? ? ? ? ? ? ?].
    split; try congruence; [by transitivity b | by transitivity (sim (bus b)) | auto].
Qed.

Definition counters_ok (m : Mach) : Prop :=
  csr_wf (csrf (bus m)) /\ is_word (g_sim_cycles m) /\ is_word (g_sim_instret m).

Lemma exec_frame_counters m m' : exec_frame m m' -> counters_ok m -> counters_ok m'.
Proof.
  intros [? ? Ec Ei ? ? Hc] (? & ? & ?). unfold counters_ok. rewrite Ec, Ei. auto.
Qed.

Lemma exec_frame_sim s m : sim_le (sim (bus m)) s -> exec_frame m (set_sim s m).
Proof. intros H. split; [by split | ..]; done. Qed.
Lemma exec_frame_csrf cf m : (csr_wf (csrf (bus m)) -> csr_wf cf) -> exec_frame m (set_csrf cf m).
Proof. intros H. split; [by split | ..]; done. Qed.

Lemma mach_read_csr_ok no m v m' : counters_ok m -> mach_read_csr no m = Ok (v, m') ->
  is_word v /\ exec_frame m m'.
Proof.
  intros (Hc & Hcy & Hin) H. unfold mach_read_csr in H. inv_res. destruct x as [v' s]. inv_res.
  destruct (read_csr_word _ _ (csr_env m) _ _ _ Hc Hcy Hin H). split; [done | by apply exec_frame_sim].
Qed.

Lemma mach_set_csr_ok no v m m' : csr_wf (csrf (bus m)) -> is_word v -> mach_set_csr no v m = Ok m' ->
  exec_frame m m'.
Proof.
  intros Hc Hv H. unfold mach_set_csr in H. inv_res. destruct x as [cf s]. inv_res.
  destruct (set_csr_wf _ _ _ _ _ _ Hc Hv H) as [Hwf _].
  transitivity (set_csrf cf m); [by apply exec_frame_csrf | apply exec_frame_sim].
  destruct (set_csr_inv _ _ _ _ _ _ H) as [(_ & _ & ->) | (_ & _ & ?)]; [reflexivity | done].
Qed.

Lemma ftrace_mach_ok a c m m' : ftrace_mach a c m = Ok m' -> exec_frame m m'.
Proof. intros H. unfold ftrace_mach in H. inv_res. split; [by split | ..]; done. Qed.

Definition with_result (v : Z) (ir : IR_Inst) : IR_Inst := {| ir with ir_result := v |}.

(** What holds after an executor ran. *)
Record exec_ok (ir : IR_Inst) (m : Mach) (ir' : IR_Inst) (m' : Mach) : Prop := {
  eo_ir : ir_ok ir';
  eo_frame : exec_frame m m';
  eo_pc : ir_pc ir' = ir_pc ir;
  eo_rd : ir_rd ir' = ir_rd ir \/ ir_rd ir' = -1;
}.

Section ExecOk.
Context (ir : IR_Inst) (m : Mach) (Hir : ir_ok ir) (Hm : counters_ok m).

Lemma alu_exec_ok op ir' m' : is_alu op = true -> exec_call op ir m = Ok (ir', m') ->
  exec_ok ir m ir' m'.
Proof.
  intros Hop. pose proof Hir as H. words H. rewrite exec_alu by done.
  case_if; intros; inv_res. split; [| reflexivity | done | by left].
  assert (is_word (rv_alu op (src1_val ir) (src2_val ir))) by (by apply rv_alu_word).
  mk_words.
Qed.

Lemma jump_exec_ok ir' m' : ir_exec_jal ir m = Ok (ir', m') \/ ir_exec_jalr ir m = Ok (ir', m') ->
  exec_ok ir m ir' m'.
Proof.
  pose proof Hir as H. words H. unfold ir_exec_jal, ir_exec_jalr. cbv zeta.
  assert (is_word (not64 1)) by (unfold is_word, not64; lia).
  intros [E | E]; inv_res; (split; [mk_words | | done | by left]).
  all: rename select (_ = Ok m') into E; repeat case_if_in E; inv_res;
    first [reflexivity | by eapply ftrace_mach_ok].
Qed.

(** The read half of a CSR access. *)
Lemma csr_old_ok no v m1 : mach_read_csr no m = Ok (v, m1) ->
  is_word v /\ exec_frame m m1 /\ counters_ok m1.
Proof.
  intros H. destruct (mach_read_csr_ok _ _ _ _ Hm H) as [? Hf].
  split; [done | split; [done | by eapply exec_frame_counters]].
Qed.

Lemma csrrw_exec_ok ir' m' : ir_exec_csrrw ir m = Ok (ir', m') -> exec_ok ir m ir' m'.
Proof.
  pose proof Hir as Hi. words Hi. unfold ir_exec_csrrw. cbv zeta. intros E. inv_res.
  destruct x as [ir1 m1]. inv_res. rename select (_ = Ok (ir1, m1)) into E1.
  rename select (mach_set_csr _ _ _ = _) into E2.
  assert (Hv : exists v, ir1 = with_result v (csr_start ir) /\ is_word v /\
    exec_frame m m1 /\ counters_ok m1).
  { case_if_in E1; inv_res; [destruct x as [v m2]; inv_res | by exists (ir_result ir)].
    exists v. split; [done |]. by eapply csr_old_ok. }
  destruct Hv as (v & -> & Hv & Hf & Hc & _).
  apply mach_set_csr_ok in E2; [| done | done].
  split; [mk_words | by transitivity m1 | done | by left].
Qed.

Lemma csrrx_exec_ok (f : Z -> Z -> Z) ir' m' :
  (forall a b, is_word a -> is_word b -> is_word (f a b)) ->
  ('(v, m) ← mach_read_csr (csr_no_of (csr_start ir)) m;
   let ir := with_result v (csr_start ir) in
   m ← (if negb (src1_val ir =? 0)
        then mach_set_csr (csr_no_of (csr_start ir)) (f (ir_result ir) (src1_val ir)) m else Ok m);
   Ok ({| ir with ir_dnpc := ir_snpc ir |}, m)) = Ok (ir', m') -> exec_ok ir m ir' m'.
Proof.
  intros Hfw. pose proof Hir as Hi. words Hi. intros E. inv_res.
  destruct x as [v m1]. rename select (mach_read_csr _ _ = _) into E1.
  destruct (csr_old_ok _ _ _ E1) as (Hv & Hf & Hc & _). inv_res.
  rename select (_ = Ok m') into E2. split; [mk_words | | done | by left].
  transitivity m1; [done |]. case_if_in E2; inv_res; [| reflexivity].
  eapply mach_set_csr_ok; [done | | exact E2]. by apply Hfw.
Qed.

Lemma csrrs_exec_ok ir' m' : ir_exec_csrrs ir m = Ok (ir', m') -> exec_ok ir m ir' m'.
Proof. apply (csrrx_exec_ok Z.lor). auto with emu. Qed.
Lemma csrrc_exec_ok ir' m' : ir_exec_csrrc ir m = Ok (ir', m') -> exec_ok ir m ir' m'.
Proof. apply (csrrx_exec_ok (fun a b => Z.land a (not64 b))). auto with emu. Qed.

Lemma mret_exec_ok ir' m' : ir_exec_mret ir m = Ok (ir', m') -> exec_ok ir m ir' m'.
Proof.
  pose proof Hir as Hi. words Hi. unfold ir_exec_mret. intros E. inv_res. destruct x as [v m1].
  rename select (mach_read_csr _ _ = _) into E1.
  destruct (csr_old_ok _ _ _ E1) as (Hv & Hf & Hc & _). inv_res.
  split; [mk_words | | done | by right].
  transitivity m1; [done |]. apply exec_frame_csrf. auto with emu.
Qed.

Lemma ecall_exec_ok ir' m' : ir_exec_ecall ir m = (ir', m') -> exec_ok ir m ir' m'.
Proof.
  pose proof Hir as Hi. words Hi. destruct Hm as (Hc & _). unfold ir_exec_ecall.
  pose proof (raise_intr_wf (csrf (bus m)) Hc 11 (ir_pc ir) (wrap32 (arr (gpr (cpu m)) 17))
    ltac:(unfold is_word; lia) ltac:(done)) as Hwf.
  assert (Hmt : is_word (mtvec (csr (csrf (bus m))))).
  { destruct Hc as [Hfl _ _ _]. unfold csr_fields in Hfl. rewrite !Forall_cons in Hfl. by destruct_and! Hfl. }
  cbn [raise_intr] in *. intros E. simplify_eq. split; [mk_words | | done | by right].
  apply exec_frame_csrf. intros _. auto with emu.
Qed.

Lemma exec_call_ok op ir' m' : exec_call op ir m = Ok (ir', m') -> exec_ok ir m ir' m'.
Proof.
  destruct (is_alu op) eqn:Ea; [by apply alu_exec_ok |]. pose proof Hir as Hi. words Hi.
  destruct op; try done; cbn [exec_call]; intros E; cbv beta in E.
  all: try match type of E with
    | ir_exec_jal _ _ = _ => apply jump_exec_ok; by left
    | ir_exec_jalr _ _ = _ => apply jump_exec_ok; by right
    | ir_exec_csrrw _ _ = _ => exact (csrrw_exec_ok _ _ E)
    | ir_exec_csrrs _ _ = _ => exact (csrrs_exec_ok _ _ E)
    | ir_exec_csrrc _ _ = _ => exact (csrrc_exec_ok _ _ E)
    | ir_exec_mret _ _ = _ => exact (mret_exec_ok _ _ E)
    | Ok (ir_exec_ecall _ _) = _ => apply ecall_exec_ok; congruence
    end.
  all: unfold pure_exec in E; injection E as <- <-.
  all: split; [mk_words | try reflexivity | done | try (by left); by right].
  all: try (case_if; [apply add64_word | done]).
  - apply land_word; [done | unfold is_word; lia].
  - apply exec_frame_sim. unfold sim_le. by destruct (sim (bus m)).
Qed.
End ExecOk.
