(* ===== verification/Exec.v ===== *)
(** * Functional simulation (src/cpu/exec.c, src/cpu/reg.c)

    [exec_inst] is the instruction step that [exec_once] and [exec_once_core]
    share: fetch, decode, execute, memory access, write-back, next pc and
    counters.  [exec_once] adds the monitor's trace and the periodic device
    service.  The invariant of the whole machine is stated here and kept by
    every instruction. *)

From S2P Require Import Prelude Word State Pmp Csr Cache CacheSet CacheSpec CacheRefine Coherence Mmio Mem Ftrace Vmem VmemSpec Decode Ir IrSpec.

(** ** reg.c *)

Definition regs : list string :=
  [ "$0"; "ra"; "sp"; "gp"; "tp"; "t0"; "t1"; "t2"; "s0"; "s1"; "a0"; "a1"; "a2"; "a3"; "a4"; "a5";
    "a6"; "a7"; "s2"; "s3"; "s4"; "s5"; "s6"; "s7"; "s8"; "s9"; "s10"; "s11"; "t3"; "t4"; "t5"; "t6"
  ]%string.

Definition init_regs : CPU_state := mkCPU (replicate 32 0) 0x80000000.

(** The loop over [regs], starting at index [i]. *)
Fixpoint reg_scan (names : list string) (i : Z) (s : string) (c : CPU_state) : option Z :=
  match names with
  | [] => None
  | nm :: names => if bool_decide (s = nm) then Some (arr (gpr c) i) else reg_scan names (i + 1) s c
  end.

(** The value and [*success]. *)
Definition reg_str2val (s : string) (c : CPU_state) : Z * bool :=
  match reg_scan regs 0 s c with
  | Some v => (v, true)
  | None => if bool_decide (s = "pc"%string) then (pc c, true) else (0, false)
  end.

(** ** One instruction *)

Definition set_cpu (c : CPU_state) (m : Mach) : Mach := {| m with cpu := c |}.
Definition set_pc (v : Z) (c : CPU_state) : CPU_state := {| c with pc := v |}.

(** [g_sim_cycles++; g_sim_instret++] *)
Definition count_inst (m : Mach) : Mach :=
  {| m with g_sim_cycles := (g_sim_cycles m + 1)%word; g_sim_instret := (g_sim_instret m + 1)%word |}.

(** The verdict of [pmp_check] on the fetch is ignored. *)
Definition fetch_pmp (pc : Z) (m : Mach) : Mach := put_bus (bus_pmp_check pc true false (bus m)).2 m.

(** Fetch and decode; [ir0] is what the uninitialised [IR_Inst ir] holds. *)
Definition fetch_decode (ir0 : IR_Inst) (m : Mach) : Res (IR_Inst * Mach) :=
  let pc := pc (cpu m) in
  let snpc := (pc + 4)%word in
  let m := fetch_pmp pc m in
  '(v, m) ← vaddr_ifetch pc 4 m;
  let raw := wrap32 v in
  Ok (ir_decode (gpr (cpu m)) raw pc snpc ir0, m).

Definition exec_inst (ir0 : IR_Inst) (m : Mach) : Res (IR_Inst * Mach) :=
  '(ir, m) ← fetch_decode ir0 m;
  '(ir, m) ← ir_execute ir m;
  '(ir, _, m) ← ir_mem_access false ir m;
  c ← ir_writeback ir (cpu m);
  Ok (ir, count_inst (set_cpu (set_pc (ir_dnpc ir) c) m)).

(** ** The machine invariant *)

(** Registers hold words and [x0] is zero, the counters are words, the memory
    system and the CSR file are well formed. *)
Record mach_wf (m : Mach) : Prop := {
  mw_mem : mem_inv m;
  mw_gpr : gprs_ok (gpr (cpu m));
  mw_pc : is_word (pc (cpu m));
  mw_cycles : is_word (g_sim_cycles m);
  mw_instret : is_word (g_sim_instret m);
}.

Lemma mach_wf_counters m : mach_wf m -> counters_ok m.
Proof. intros [Hm _ _ ? ?]. split; [apply Hm | done]. Qed.

(** A store that leaves the cached range must not come back to memory through
    the 32-bit mask of [paddr_write]. *)
Definition store_clean (addr : Z) : bool := cached addr || negb (in_pmem (low32 addr)).

Lemma writeback_ok ir c c' : ir_ok ir -> gprs_ok (gpr c) -> ir_writeback ir c = Ok c' ->
  gprs_ok (gpr c') /\ pc c' = pc c.
Proof.
  intros Hir [Hl Hw Hz] H. words Hir. unfold ir_writeback in H. inv_res.
  rename select (_ = Ok _) into E.
  assert (Hx : length (gpr x) = 32%nat /\ Forall is_word (gpr x) /\ pc x = pc c).
  { case_if_in E; [case_if_in E |]; inv_res; cbn; rewrite ?length_upd; auto with emu. }
  destruct Hx as (Hl' & Hw' & ->). split; [| done]. split; cbn.
  - by rewrite length_upd.
  - apply Forall_upd; [done | apply is_word_0].
  - apply arr_upd_eq. rewrite Hl'. lia.
Qed.

(** [ir_writeback] cannot leave the register file. *)
Lemma writeback_total ir c : ir_ok ir -> gprs_ok (gpr c) -> exists c', ir_writeback ir c = Ok c'.
Proof.
  intros [_ Hrd] [Hl _ _]. unfold ir_writeback, in_range. rewrite Hl.
  destruct (Z.eqb_spec (ir_rd ir) (-1)) as [->|]; cbn [negb].
  - by eexists.
  - replace ((0 <=? ir_rd ir) && (ir_rd ir <? Z.of_nat 32)) with true by lia. by eexists.
Qed.

(** ** Accesses that succeed *)

(** A completed cache access stayed inside its line. *)
Lemma line_load_inv l a len v : line_load l (block_offset a) len = Ok v -> in_block a len.
Proof.
  unfold line_load. rewrite block_offset_mod. case_if; [| done]. intros _. zify_bool.
  unfold BLOCK_SIZE, WORD_SIZE in *. split; lia.
Qed.
Lemma line_store_inv l a len v l' : line_store l (block_offset a) len v = Ok l' -> in_block a len.
Proof.
  unfold line_store. rewrite block_offset_mod. case_if; [| done]. intros _. zify_bool.
  unfold BLOCK_SIZE, WORD_SIZE in *. split; lia.
Qed.

Lemma cache_read_inv l1 l2 a len (b : Bus) r : cache_read l1 l2 a len b = Ok r -> in_block a len.
Proof.
  unfold cache_read. intros H. inv_res. destruct x as [[[? ?] ?] ?]. inv_res. by eapply line_load_inv.
Qed.
Lemma cache_write_inv l1 l2 a len v (b : Bus) r : cache_write l1 l2 a len v b = Ok r -> in_block a len.
Proof.
  unfold cache_write. intros H. inv_res. destruct x as [[[? ?] ?] ?]. inv_res. by eapply line_store_inv.
Qed.

Lemma on_caches_inv {A} p1 p2 (f : Cache -> Cache -> Bus -> Res (A * (Cache * Cache * Bus))) m r :
  on_caches p1 p2 f m = Ok r -> exists l1 l2 x, f l1 l2 (bus m) = Ok x.
Proof. unfold on_caches. intros H. inv_res. eauto. Qed.

Lemma flat_read_word B a len : (forall i, 0 <= i < len -> is_byte (B (a + i))) -> 0 <= len <= 8 ->
  is_word (flat_read B a len).
Proof.
  intros HB Hl. unfold flat_read. apply le_word_word.
  - apply Forall_fmap, Forall_forall. intros i Hi%elem_of_seqZ_from. apply HB. lia.
  - rewrite length_fmap, length_seqZ_from. lia.
Qed.

(** The bytes of a well-formed memory. *)
Lemma bytes_of_byte V a i len : is_block (V (blk a)) -> in_block a len -> 0 <= i < len ->
  is_byte (bytes_of V (a + i)).
Proof.
  intros [Hlen Hb] [Hl0 Hl] Hi. unfold bytes_of. destruct (blk_add a i) as [-> ->]; [lia | lia |].
  pose proof (Z.mod_pos_bound a 64 ltac:(lia)). apply Forall_arr; [done |]. rewrite Hlen.
  unfold BLOCK_SIZE. lia.
Qed.

Section Accesses.
Context (m : Mach) (Hm : mem_inv m).

Lemma vaddr_read_any addr len v m' : 0 <= len <= 8 -> vaddr_read addr len m = Ok (v, m') ->
  mem_inv m' /\ mach_frame m m' /\ is_word v.
Proof.
  intros Hl E. destruct (cached addr) eqn:Hc.
  - assert (Hb : in_block addr len).
    { unfold vaddr_read in E. rewrite Hc in E. inv_res.
      rename select (on_caches _ _ _ _ = _) into Eo.
      apply on_caches_inv in Eo as (? & ? & ? & ?). by eapply cache_read_inv. }
    destruct (vaddr_read_ok m addr len Hm Hc Hb) as (m1 & E1 & [? ? ? ? ?]).
    rewrite E1 in E. injection E as <- <-. split; [done | split; [done |]].
    destruct (cached_ram addr Hc) as [_ Hk]. apply flat_read_word; [| done]. intros i Hi.
    eapply bytes_of_byte; [by apply dview_is_block | done | done].
  - unfold vaddr_read in E. rewrite Hc in E.
    by destruct (bus_read_ok m addr len v m' Hm E) as (? & ? & ? & _).
Qed.

Lemma vaddr_ifetch_any addr v m' : vaddr_ifetch addr 4 m = Ok (v, m') ->
  mem_inv m' /\ mach_frame m m'.
Proof.
  intros E. destruct (cached addr) eqn:Hc.
  - assert (Hb : in_block addr 4).
    { unfold vaddr_ifetch in E. rewrite Hc in E.
      apply on_caches_inv in E as (? & ? & ? & ?). by eapply cache_read_inv. }
    destruct (vaddr_ifetch_ok m addr 4 Hm Hc Hb) as (m1 & E1 & [? ? ? ? ?]).
    rewrite E1 in E. by injection E as <- <-.
  - unfold vaddr_ifetch in E. rewrite Hc in E.
    by destruct (bus_read_ok m addr 4 v m' Hm E) as (? & ? & ? & _).
Qed.

Lemma vaddr_write_any addr len v m' : store_clean addr = true -> vaddr_write addr len v m = Ok m' ->
  mem_inv m' /\ mach_frame m m'.
Proof.
  intros Hs E. destruct (cached addr) eqn:Hc.
  - assert (Hb : in_block addr len).
    { unfold vaddr_write in E. rewrite Hc in E. inv_res.
      rename select (on_caches _ _ _ _ = _) into Eo.
      apply on_caches_inv in Eo as (? & ? & ? & ?). inv_res. by eapply cache_write_inv. }
    destruct (vaddr_write_ok m addr len v Hm Hc Hb) as (m1 & E1 & [? ? ? ? ?]).
    rewrite E1 in E. by injection E as <-.
  - unfold vaddr_write in E. rewrite Hc in E. unfold store_clean in Hs. rewrite Hc in Hs.
    zify_bool. destruct Hs as [? | Hs]; [done |]. apply negb_true_iff in Hs.
    by destruct (bus_write_ok m addr len v m' Hm Hs E) as (? & ? & _).
Qed.
End Accesses.

(** ** Every instruction keeps the invariant *)

Definition widths : list Z := [1; 2; 4; 8].

Lemma widths_range w : w ∈ widths -> 0 <= w <= 8.
Proof. intros H. unfold widths in H. elem_cases H; lia. Qed.
Lemma widths_in w : existsb (Z.eqb w) widths = true -> w ∈ widths.
Proof.
  intros (x & Hx & <-%Z.eqb_eq)%existsb_exists. by apply list_elem_of_In.
Qed.

(** A memory instruction moves 1, 2, 4 or 8 bytes. *)
Lemma exec_call_width op ir m ir' m' : is_word (src2_val ir) -> exec_call op ir m = Ok (ir', m') ->
  ir_type ir' = ITYPE_LOAD \/ ir_type ir' = ITYPE_STORE -> mem_width ir' ∈ widths.
Proof.
  intros Hb. destruct (is_alu op) eqn:Ea.
  { rewrite exec_alu by done. case_if; intros; inv_res. naive_solver. }
  destruct op; try done; cbn [exec_call]; unfold pure_exec; cbv beta;
    unfold ir_exec_jal, ir_exec_jalr, ir_exec_csrrw, ir_exec_csrrs, ir_exec_csrrc, ir_exec_mret,
      ir_exec_ecall; cbv zeta; intros E; inv_res;
    repeat match goal with x : (_ * _)%type |- _ => destruct x end; inv_res;
    repeat match goal with
    | H : (if _ then _ else _) = Ok _ |- _ => case_if_in H; inv_res
    | x : (_ * _)%type |- _ => destruct x
    end; inv_res;
    try (intros [? | ?]; discriminate); intros _; by apply widths_in.
Qed.

Lemma extend_load_word s w raw : is_word raw -> is_word (extend_load s w raw).
Proof.
  intros Hr. unfold extend_load.
  destruct s; repeat match goal with |- context [match ?x with _ => _ end] => destruct x end;
    first [done | apply SEXT_word | apply UEXT_word; lia].
Qed.

(** The memory stage. *)
Lemma mem_access_ok ir m ir' lat m' : mem_inv m -> ir_ok ir ->
  (ir_type ir = ITYPE_LOAD \/ ir_type ir = ITYPE_STORE -> mem_width ir ∈ widths) ->
  ir_mem_access false ir m = Ok (ir', lat, m') ->
  (ir_type ir' = ITYPE_STORE -> store_clean (mem_addr ir') = true) ->
  mem_inv m' /\ mach_frame m m' /\ ir_ok ir' /\ ir_dnpc ir' = ir_dnpc ir.
Proof.
  intros Hm Hir Hw E Hs. pose proof Hir as Hi. words Hi. unfold ir_mem_access in E.
  destruct (ir_type ir) eqn:Et; inv_res; try (split; [done | split; [reflexivity | done]]).
  - repeat match goal with x : (_ * _)%type |- _ => destruct x end. inv_res.
    rename select (vaddr_read _ _ _ = _) into Er.
    assert (Hl : 0 <= mem_width ir <= 8) by (apply widths_range, Hw; auto).
    destruct (vaddr_read_any m Hm _ _ _ _ Hl Er) as (? & ? & Hv).
    pose proof (extend_load_word (mem_sign ir) (mem_width ir) _ Hv).
    split; [done | split; [done | split; [mk_words | done]]].
  - rename select (vaddr_write _ _ _ _ = _) into Er.
    destruct (vaddr_write_any m Hm _ _ _ _ (Hs Et) Er). done.
Qed.

Lemma fetch_pmp_frame pc m : mem_inv m ->
  mem_inv (fetch_pmp pc m) /\ mach_frame m (fetch_pmp pc m) /\ same_mem m (fetch_pmp pc m).
Proof.
  intros Hm. unfold fetch_pmp.
  destruct (bus_pmp_check_wf pc true false (bus m) (mi_bus _ Hm)) as (Hb & [Hc Hs] & Hp & _).
  destruct (mem_inv_bus m _ Hm Hb Hp Hc Hs) as (? & ? & _). split; [done | split; [done |]].
  by apply same_mem_bus.
Qed.

Lemma exec_frame_inv m m' : exec_frame m m' -> mem_inv m -> mem_inv m'.
Proof.
  intros [Hs _ _ _ Ei _ Hc] Hm. eapply same_mem_inv; [done | | done].
  pose proof (mi_bus _ Hm) as [? ? ?]. split; [by rewrite (sm_pmem _ _ Hs) | by rewrite Ei | auto].
Qed.

Lemma mach_wf_frame m m' : mach_frame m m' -> mem_inv m' -> mach_wf m -> mach_wf m'.
Proof.
  intros Hf Hm [_ ? ? ? ?]. destruct Hf as [Ec _ Ey Ei _ _ _ _ _ _ _ _ _].
  split; [done | by rewrite Ec | by rewrite Ec | by rewrite Ey | by rewrite Ei].
Qed.

Lemma fetch_decode_ok ir0 m ir m' : mach_wf m -> ir_ok ir0 -> fetch_decode ir0 m = Ok (ir, m') ->
  mach_wf m' /\ mach_frame m m' /\ ir_ok ir /\ ir_pc ir = pc (cpu m).
Proof.
  intros Hwf H0 E. unfold fetch_decode in E. inv_res. destruct x as [v m2]. inv_res.
  rename select (vaddr_ifetch _ _ _ = _) into Ef.
  destruct (fetch_pmp_frame (pc (cpu m)) m (mw_mem _ Hwf)) as (Hm1 & Hf1 & _).
  destruct (vaddr_ifetch_any _ Hm1 _ _ _ Ef) as (Hm2 & Hf2).
  assert (Hf : mach_frame m m') by (by transitivity (fetch_pmp (pc (cpu m)) m)).
  assert (Hwf2 : mach_wf m') by (by eapply mach_wf_frame).
  split; [done | split; [done |]]. split.
  - apply decode_ok; [apply Hwf2 | apply Hwf | apply add64_word | done].
  - apply decode_pcs.
Qed.

Lemma ir_execute_ok ir m ir' m' : ir_ok ir -> mach_wf m -> ir_execute ir m = Ok (ir', m') ->
  exec_ok ir m ir' m' /\ mach_wf m' /\
  (exec_fn ir <> None -> ir_type ir' = ITYPE_LOAD \/ ir_type ir' = ITYPE_STORE ->
   mem_width ir' ∈ widths).
Proof.
  intros Hir Hwf E. pose proof (mach_wf_counters m Hwf) as Hc. unfold ir_execute in E.
  assert (Ho : exec_ok ir m ir' m').
  { destruct (exec_fn ir); [by eapply exec_call_ok |]. inv_res. by split; [| reflexivity | | left]. }
  split; [done | split].
  - destruct Ho as [_ Hf _ _]. pose proof (exec_frame_inv _ _ Hf (mw_mem _ Hwf)).
    destruct Hwf as [_ ? ? ? ?], Hf as [_ Ec Ey Ei _ _ _].
    split; [done | by rewrite Ec | by rewrite Ec | by rewrite Ey | by rewrite Ei].
  - pose proof Hir as Hi. words Hi. destruct (exec_fn ir) as [op|]; [| done]. intros _.
    by eapply exec_call_width.
Qed.

Lemma decode_exec_fn g raw pc snpc ir : exec_fn (ir_decode g raw pc snpc ir) <> None.
Proof.
  unfold ir_decode. cbv zeta.
  unfold decode_op_imm, decode_load, decode_store, decode_branch, decode_op_imm32, decode_op,
    decode_op32, decode_system. cbv zeta.
  generalize (opcode_of raw), (funct3_of raw), (funct7_of raw). intros o f3 f7.
  repeat (match goal with |- context [match ?x with _ => _ end] => destruct x end); done.
Qed.

Lemma exec_inst_wf ir0 m ir m' : mach_wf m -> ir_ok ir0 -> exec_inst ir0 m = Ok (ir, m') ->
  (ir_type ir = ITYPE_STORE -> store_clean (mem_addr ir) = true) ->
  mach_wf m' /\ pc (cpu m') = ir_dnpc ir /\ arr (gpr (cpu m')) 0 = 0 /\
  g_sim_cycles m' = (g_sim_cycles m + 1)%word /\ g_sim_instret m' = (g_sim_instret m + 1)%word /\
  sim_le (sim (bus m)) (sim (bus m')).
Proof.
  intros Hwf H0 E Hs. unfold exec_inst in E. inv_res. destruct x as [ir1 m1]. inv_res.
  rename select (fetch_decode _ _ = _) into Ef. destruct x as [ir2 m2]. inv_res.
  rename select (ir_execute _ _ = _) into Ee. destruct x as [[ir3 lat] m3]. inv_res.
  rename select (ir_mem_access _ _ _ = _) into Em. rename select (ir_writeback _ _ = _) into Ew.
  destruct (fetch_decode_ok _ _ _ _ Hwf H0 Ef) as (Hwf1 & Hf1 & Hir1 & _).
  destruct (ir_execute_ok _ _ _ _ Hir1 Hwf1 Ee) as ([Hir2 Hf2 _ _] & Hwf2 & Hw).
  assert (Hfn : exec_fn ir1 <> None).
  { unfold fetch_decode in Ef. inv_res. destruct x0. inv_res. apply decode_exec_fn. }
  destruct (mem_access_ok _ _ _ _ _ (mw_mem _ Hwf2) Hir2 (Hw Hfn) Em Hs) as (Hm3 & Hf3 & Hir3 & Ed).
  assert (Hwf3 : mach_wf m3) by (by eapply mach_wf_frame).
  destruct (writeback_ok _ _ _ Hir3 (mw_gpr _ Hwf3) Ew) as [Hg Hpc].
  assert (Hdn : is_word (ir_dnpc ir)) by (pose proof Hir3 as Hi; by words Hi).
  destruct Hf1 as [_ _ Ey1 Ei1 _ _ _ _ _ _ _ _ Hs1], Hf2 as [_ _ Ey2 Ei2 _ Hs2 _],
    Hf3 as [_ _ Ey3 Ei3 _ _ _ _ _ _ _ _ Hs3].
  split; [split; cbn; try done; try apply add64_word | split; [done | split; [apply Hg |]]].
  - eapply (same_mem_inv m3); [by split | apply (mi_bus _ Hm3) | done].
  - cbn. rewrite Ey3, Ey2, Ey1, Ei3, Ei2, Ei1. split; [done | split; [done |]].
    by do 2 (etransitivity; [eassumption |]).
Qed.

(** C20. One instruction keeps the machine well formed.  Whatever word is
    fetched (valid or not, in memory or in a device), if the step completes
    and its store, if any, does not reach memory behind the caches, then the
    registers are 64-bit words with [x0 = 0], the memory system, the CSR file
    and the counters are well formed, the pc is the instruction's next pc, one
    cycle and one instruction are counted, and a bad exit status stays bad. *)
Theorem exec_inst_invariant ir0 m ir m' : mach_wf m -> ir_ok ir0 -> exec_inst ir0 m = Ok (ir, m') ->
  (ir_type ir = ITYPE_STORE -> store_clean (mem_addr ir) = true) ->
  mach_wf m' /\ pc (cpu m') = ir_dnpc ir /\ arr (gpr (cpu m')) 0 = 0 /\
  g_sim_cycles m' = (g_sim_cycles m + 1)%word /\ g_sim_instret m' = (g_sim_instret m + 1)%word /\
  sim_le (sim (bus m)) (sim (bus m')).
Proof. apply exec_inst_wf. Qed.
