(* ===== verification/Isa.v ===== *)
(** * The instruction set as a specification, and its implementation

    An abstract RV64IM hart: a pc, 32 registers and a flat byte memory, with
    one pure step per instruction.  The functional simulator (fetch through
    the instruction cache, decode dispatch, executor, data caches, write-back)
    is shown to implement it, instruction by instruction and over whole runs. *)

From S2P Require Import Prelude Word State Pmp Csr Cache CacheSet CacheSpec CacheRefine Coherence Mmio Mem Ftrace Vmem VmemSpec Decode Ir InstTable IrSpec Exec.

(** ** The abstract hart *)

Record Isa := mkIsa {
  isa_pc : Z;
  isa_gpr : list Z;
  isa_mem : flat;
}.

(** What an instruction does: write a register and continue, continue
    elsewhere, load, or store. *)
Inductive outcome :=
  | Write (v npc : Z)
  | Goto (npc : Z)
  | Load (addr width : Z) (sign : bool)
  | Store (addr width v : Z).

(** Branch conditions. *)
Definition rv_taken (op : exec_op) (a b : Z) : bool :=
  match op with
  | Exec_beq => a =? b
  | Exec_bne => negb (a =? b)
  | Exec_blt => s64 a <? s64 b
  | Exec_bge => s64 b <=? s64 a
  | Exec_bltu => a <? b
  | Exec_bgeu => b <=? a
  | _ => false
  end.

(** Width and signedness of the loads, width of the stores. *)
Definition load_spec (op : exec_op) : option (Z * bool) :=
  match op with
  | Exec_lb => Some (1, true) | Exec_lh => Some (2, true) | Exec_lw => Some (4, true)
  | Exec_ld => Some (8, false)
  | Exec_lbu => Some (1, false) | Exec_lhu => Some (2, false) | Exec_lwu => Some (4, false)
  | _ => None
  end.
Definition store_spec (op : exec_op) : option Z :=
  match op with
  | Exec_sb => Some 1 | Exec_sh => Some 2 | Exec_sw => Some 4 | Exec_sd => Some 8
  | _ => None
  end.

(** Immediate operand instead of [rs2]. *)
Definition alu_imm (op : exec_op) : bool :=
  match op with
  | Exec_addi | Exec_ori | Exec_xori | Exec_andi | Exec_slti | Exec_sltiu | Exec_slli | Exec_srli
  | Exec_srai | Exec_addiw | Exec_slliw | Exec_srliw | Exec_sraiw => true
  | _ => false
  end.

Section Outcome.
Context (op : exec_op) (raw pc : Z) (g : list Z).
Let a := arr g (BITS raw 19 15).
Let b := arr g (BITS raw 24 20).

Definition alu_src2 : Z := if alu_imm op then immI raw else b.

Definition isa_outcome : outcome :=
  if is_alu op then Write (rv_alu op a alu_src2) (pc + 4)%word
  else match op with
  | Exec_lui => Write (immU raw) (pc + 4)%word
  | Exec_auipc => Write (pc + immU raw)%word (pc + 4)%word
  | Exec_jal => Write (pc + 4)%word (pc + immJ raw)%word
  | Exec_jalr => Write (pc + 4)%word ((a + immI raw)%word / 2 * 2)
  | Exec_fence | Exec_fence_i => Goto (pc + 4)%word
  | _ =>
      match load_spec op, store_spec op with
      | Some (w, sg), _ => Load (a + immI raw)%word w sg
      | _, Some w => Store (a + immS raw)%word w b
      | _, _ => Goto (if rv_taken op a b then (pc + immB raw)%word else (pc + 4)%word)
      end
  end.

(** The operands on which the C code is defined and the access is an aligned
    access to memory. *)
Definition isa_defined : Prop :=
  match isa_outcome with
  | Write _ _ => is_alu op = true -> alu_defined op a alu_src2 = true
  | Goto _ => True
  | Load addr w _ => cached addr = true /\ in_block addr w
  | Store addr w _ => cached addr = true /\ in_block addr w
  end.
End Outcome.

(** [x0] stays zero. *)
Definition isa_set (g : list Z) (rd v : Z) : list Z := if rd =? 0 then g else upd g rd v.

(** The loaded bytes as a register value. *)
Definition isa_extend (sign : bool) (w v : Z) : Z :=
  if sign then wrap64 (signed_field v (8 * w)) else v.

Definition isa_step (op : exec_op) (raw : Z) (s : Isa) : Isa :=
  let rd := BITS raw 11 7 in
  match isa_outcome op raw (isa_pc s) (isa_gpr s) with
  | Write v npc => {| s with isa_pc := npc; isa_gpr := isa_set (isa_gpr s) rd v |}
  | Goto npc => {| s with isa_pc := npc |}
  | Load addr w sg =>
      {| s with isa_pc := (isa_pc s + 4)%word;
                isa_gpr := isa_set (isa_gpr s) rd (isa_extend sg w (flat_read (isa_mem s) addr w)) |}
  | Store addr w v =>
      {| s with isa_pc := (isa_pc s + 4)%word; isa_mem := flat_write (isa_mem s) addr w v |}
  end.

(** The unprivileged instructions of the table, [srai] apart. *)
Definition user_op (op : exec_op) : bool :=
  match op with
  | Exec_csrrw | Exec_csrrs | Exec_csrrc | Exec_ecall | Exec_mret | Exec_ebreak | Exec_inv
  | Exec_srai => false
  | _ => true
  end.

(** Equal up to the bytes outside memory. *)
Record isa_eq (s s' : Isa) : Prop := {
  ie_pc : isa_pc s = isa_pc s';
  ie_gpr : isa_gpr s = isa_gpr s';
  ie_mem : forall a, cached a = true -> isa_mem s a = isa_mem s' a;
}.

#[export] Instance isa_eq_equiv : Equivalence isa_eq.
Proof.
  split.
  - intros s. by split.
  - intros s s' [? ? H]. split; [done | done |]. intros a Ha. by rewrite H.
  - intros s1 s2 s3 [? ? H] [? ? H']. split; [congruence | congruence |].
    intros a Ha. by rewrite H, H'.
Qed.

(** ** The simulator as an abstract hart *)

Definition abs (m : Mach) : Isa := mkIsa (pc (cpu m)) (gpr (cpu m)) (mem_byte m).

(** ** Executors and outcomes *)

(** The format of each executor's operands. *)
Definition op_format (op : exec_op) : itype :=
  match op with
  | Exec_lui | Exec_auipc => TYPE_U
  | Exec_jal => TYPE_J
  | Exec_beq | Exec_bne | Exec_blt | Exec_bge | Exec_bltu | Exec_bgeu => TYPE_B
  | Exec_sb | Exec_sh | Exec_sw | Exec_sd => TYPE_S
  | Exec_ecall | Exec_mret | Exec_ebreak | Exec_fence | Exec_fence_i | Exec_inv => TYPE_N
  | op => if is_alu op && negb (alu_imm op) then TYPE_R else TYPE_I
  end.

Definition itype_eqb (t u : itype) : bool :=
  match t, u with
  | TYPE_I, TYPE_I | TYPE_U, TYPE_U | TYPE_S, TYPE_S | TYPE_J, TYPE_J | TYPE_R, TYPE_R
  | TYPE_B, TYPE_B | TYPE_N, TYPE_N => true
  | _, _ => false
  end.

Lemma table_formats : forallb (fun r => itype_eqb (direct_type r) (op_format (row_op r))) inst_table = true.
Proof. reflexivity. Qed.

Lemma direct_type_format r : r ∈ inst_table -> direct_type r = op_format (row_op r).
Proof.
  intros Hr. pose proof table_formats as H. rewrite forallb_forall in H.
  specialize (H r ltac:(by apply list_elem_of_In)).
  destruct (direct_type r), (op_format (row_op r)); done.
Qed.

(** An executed instruction carries out an outcome. *)
Definition outcome_done (o : outcome) (raw pc : Z) (d : IR_Inst) : Prop :=
  match o with
  | Write v npc => (ir_type d <> ITYPE_LOAD /\ ir_type d <> ITYPE_STORE) /\
      ir_rd d = BITS raw 11 7 /\ ir_result d = v /\ ir_dnpc d = npc
  | Goto npc => (ir_type d <> ITYPE_LOAD /\ ir_type d <> ITYPE_STORE) /\ ir_rd d = -1 /\ ir_dnpc d = npc
  | Load addr w sg => ir_type d = ITYPE_LOAD /\ ir_rd d = BITS raw 11 7 /\ mem_addr d = addr /\
      mem_width d = w /\ mem_sign d = sg /\ ir_dnpc d = (pc + 4)%word
  | Store addr w v => ir_type d = ITYPE_STORE /\ ir_rd d = -1 /\ mem_addr d = addr /\
      mem_width d = w /\ src2_val d = v /\ ir_dnpc d = (pc + 4)%word
  end.

(** [immU] has no low bits for [lui] to clear. *)
Lemma land_immU raw : Z.land (immU raw) 0xfffffffffffff000 = immU raw.
Proof.
  change 0xfffffffffffff000 with (not64 (2 ^ 12 - 1)).
  rewrite land_not64_pow2 by (first [apply imm_words | lia]). rewrite immU_wrap.
  unfold wrap64. set (k := signed_field _ _). change (2 ^ 64) with (2 ^ 52 * 4096).
  change (2 ^ 12) with 4096. rewrite Z.mul_mod_distr_r by lia. by rewrite Z.div_mul by lia.
Qed.

Lemma land_not1 x : is_word x -> Z.land x (not64 1) = x / 2 * 2.
Proof. intros Hx. change 1 with (2 ^ 1 - 1) at 1. by rewrite land_not64_pow2 by (done || lia). Qed.

Lemma ftrace_off a c m : g_ftrace_en (ftrace m) = false -> ftrace_mach a c m = Ok m.
Proof. intros E. unfold ftrace_mach. rewrite add_ftrace_off by done. by destruct m. Qed.

Lemma add64_comm a b : (a + b)%word = (b + a)%word.
Proof. unfold add64. by rewrite Z.add_comm. Qed.

Lemma exec_outcome op d m raw pc g ir0 : user_op op = true ->
  operands d = operands (ir_fill_operands g raw (op_format op) ir0) ->
  ir_pc d = pc -> ir_snpc d = (pc + 4)%word -> gprs_ok g ->
  g_ftrace_en (ftrace m) = false -> isa_defined op raw pc g ->
  exists d', exec_call op d m = Ok (d', m) /\ outcome_done (isa_outcome op raw pc g) raw pc d'.
Proof.
  intros Hu Ho Hpc Hsn Hg Hft Hd. unfold operands in Ho.
  destruct (is_alu op) eqn:Ea.
  - unfold isa_defined in Hd. unfold isa_outcome in *. rewrite Ea in *. specialize (Hd eq_refl).
    assert (E : ir_rd d = BITS raw 11 7 /\ src1_val d = arr g (BITS raw 19 15) /\
                src2_val d = alu_src2 op raw g).
    { unfold alu_src2. destruct op; try done; injection Ho as ? ? ? ? ? ?; done. }
    destruct E as (Erd & E1 & E2). rewrite <- E1, <- E2 in *.
    assert (Hw : is_word (src2_val d)).
    { rewrite E2. unfold alu_src2. destruct (alu_imm op); [apply imm_words | by apply gprs_ok_word]. }
    rewrite exec_alu, Hd by done. eexists. by split.
  - unfold isa_outcome. rewrite Ea.
    destruct op; try done; injection Ho as Erd Er1 Er2 E1 E2 Ei;
      cbn [exec_call load_spec store_spec rv_taken]; unfold pure_exec;
      unfold ir_exec_jal, ir_exec_jalr; cbv zeta; rewrite ?ftrace_off by done.
    all: repeat match goal with |- context [if ?b then Ok _ else _] => destruct b end.
    all: eexists; (split; [reflexivity |]); cbn [outcome_done load_done store_done branch_done].
    all: cbn; rewrite <- ?E1, <- ?E2, <- ?Ei, <- ?Hsn, <- ?Hpc.
    all: repeat split; try done.
    + apply add64_comm.
    + rewrite E1. apply land_immU.
    + apply land_not1, add64_word.
    + apply land_not1, add64_word.
    + apply land_not1, add64_word.
Qed.

(** ** Write-back and memory stage *)

Lemma upd_zero g : arr g 0 = 0 -> upd g 0 0 = g.
Proof. intros E. transitivity (upd g 0 (arr g 0)); [by rewrite E | apply upd_same]. Qed.

Lemma writeback_value d c : gprs_ok (gpr c) -> 0 <= ir_rd d < 32 ->
  ir_writeback d c = Ok (mkCPU (isa_set (gpr c) (ir_rd d) (ir_result d)) (pc c)).
Proof.
  intros [Hl Hw Hz] Hrd. unfold ir_writeback, in_range. rewrite Hl.
  destruct (Z.eqb_spec (ir_rd d) (-1)); [lia |]. cbn [negb].
  replace ((0 <=? ir_rd d) && (ir_rd d <? Z.of_nat 32)) with true by lia.
  cbn [mbind Res_bind gpr pc]. do 2 f_equal. unfold isa_set.
  destruct (Z.eqb_spec (ir_rd d) 0) as [->|].
  - rewrite upd_upd. by apply upd_zero.
  - apply upd_zero. by rewrite arr_upd_ne by lia.
Qed.

Lemma writeback_none d c : gprs_ok (gpr c) -> ir_rd d = -1 -> ir_writeback d c = Ok c.
Proof.
  intros [_ _ Hz] Hrd. unfold ir_writeback. rewrite Hrd. cbn [negb Z.eqb Pos.eqb mbind Res_bind].
  destruct c as [g p]. cbn in *. do 2 f_equal. by apply upd_zero.
Qed.

Lemma flat_read_range B a w : (forall i, 0 <= i < w -> is_byte (B (a + i))) -> 0 <= w ->
  0 <= flat_read B a w < 2 ^ (8 * w).
Proof.
  intros HB Hw. unfold flat_read. rewrite Z.pow_mul_r by lia. change (2 ^ 8) with 256.
  set (bs := _ <$> _). assert (El : Z.of_nat (length bs) = w).
  { unfold bs. rewrite length_fmap, length_seqZ_from. lia. }
  rewrite <- El. apply le_word_range.
  apply Forall_fmap, Forall_forall. intros i Hi%elem_of_seqZ_from. apply HB. lia.
Qed.

Lemma extend_load_isa op w sg v : load_spec op = Some (w, sg) -> 0 <= v < 2 ^ (8 * w) ->
  extend_load sg w v = isa_extend sg w v.
Proof.
  intros Hs Hv. destruct op; simplify_eq/=; try done; unfold UEXT; by rewrite Z.mod_small.
Qed.

(** The block a store may make stale for the instruction cache. *)
Definition touched (o : outcome) (k : Z) : Prop :=
  match o with Store addr _ _ => k = blk addr | _ => False end.

(** What the memory and write-back stages do with an executed instruction. *)
Lemma finish_outcome op raw pc0 d m : mach_wf m -> user_op op = true -> pc (cpu m) = pc0 ->
  isa_defined op raw pc0 (gpr (cpu m)) ->
  outcome_done (isa_outcome op raw pc0 (gpr (cpu m))) raw pc0 d ->
  exists d' lat m' c, ir_mem_access false d m = Ok (d', lat, m') /\ ir_writeback d' (cpu m') = Ok c /\
    isa_eq (mkIsa (ir_dnpc d') (gpr c) (mem_byte m')) (isa_step op raw (abs m)) /\
    ir_type d' = ir_type d /\ mem_addr d' = mem_addr d /\ mem_inv m' /\ mach_frame m m' /\
    only_ram (bus m) (bus m') /\
    (forall k, ram_blk (M := Bus) k -> ~ touched (isa_outcome op raw pc0 (gpr (cpu m))) k ->
       fresh m k -> fresh m' k).
Proof.
  intros Hwf Hu Epc Hd Ho. unfold isa_step. cbn [isa_pc isa_gpr isa_mem abs]. rewrite Epc.
  pose proof (mw_gpr _ Hwf) as Hg. pose proof (mw_mem _ Hwf) as Hm. pose proof (BITS_rd raw) as Hrd.
  unfold isa_defined in Hd. destruct (isa_outcome op raw pc0 (gpr (cpu m))) as [v npc | npc | addr w sg | addr w v] eqn:Eo;
    cbn [outcome_done touched] in *.
  - destruct Ho as ([? ?] & Er & Ev & En). exists d, None, m. eexists.
    split; [| split; [apply writeback_value; [done | by rewrite Er] |]].
    + unfold ir_mem_access. by destruct (ir_type d).
    + rewrite Er, Ev, En. split; [by split | done].
  - destruct Ho as ([? ?] & Er & En). exists d, None, m, (cpu m).
    split; [| split; [by apply writeback_none |]].
    + unfold ir_mem_access. by destruct (ir_type d).
    + rewrite En. split; [by split | done].
  - destruct Ho as (Et & Er & Ea & Ew & Es & En), Hd as [Hc Hb].
    destruct (vaddr_read_ok m addr w Hm Hc Hb) as (m' & E & [Hm' Hf Hor Hmem Hfr]).
    unfold ir_mem_access. rewrite Et, Ea, Ew, E. cbn [mbind Res_bind].
    assert (Hl : load_spec op = Some (w, sg)).
    { unfold isa_outcome in Eo. destruct (is_alu op) eqn:Eal; [done |]. clear -Eo Hu.
      destruct op; simplify_eq/=; done. }
    assert (Hv : 0 <= flat_read (mem_byte m) addr w < 2 ^ (8 * w)).
    { destruct (cached_ram addr Hc) as [_ Hk]. apply flat_read_range; [| apply Hb]. intros i Hi.
      eapply bytes_of_byte; [by apply dview_is_block | done | done]. }
    rewrite Es, (extend_load_isa op w sg _ Hl Hv).
    eexists _, None, m', _. split; [reflexivity |].
    rewrite (mf_cpu _ _ Hf). split; [apply writeback_value; [done | by rewrite Er] |].
    cbn. rewrite Er, En. split; [by split |]. by split_and!; [done.. | auto].
  - destruct Ho as (Et & Er & Ea & Ew & Es & En), Hd as [Hc Hb].
    destruct (vaddr_write_ok m addr w v Hm Hc Hb) as (m' & E & [Hm' Hf Hor Hmem Hfr]).
    unfold ir_mem_access. rewrite Et, Ea, Ew, Es, E. cbn [mbind Res_bind].
    exists d, None, m', (cpu m). split; [done |].
    rewrite (mf_cpu _ _ Hf). split; [by apply writeback_none |].
    rewrite En. split; [by split | done].
Qed.

(** ** One instruction *)

Lemma wrap32_flat_read m a : mem_inv m -> cached a = true -> in_block a 4 ->
  wrap32 (flat_read (mem_byte m) a 4) = flat_read (mem_byte m) a 4 /\
  0 <= flat_read (mem_byte m) a 4 < 2 ^ 32.
Proof.
  intros Hm Hc Hb. destruct (cached_ram a Hc) as [_ Hk].
  assert (Hr : 0 <= flat_read (mem_byte m) a 4 < 2 ^ (8 * 4)).
  { apply flat_read_range; [| lia]. intros i Hi.
    eapply bytes_of_byte; [by apply dview_is_block | done | done]. }
  split; [by apply Z.mod_small | done].
Qed.

(** Fetching from a fresh block decodes the word that memory holds. *)
Lemma fetch_decode_fresh ir0 m : mach_wf m -> cached (pc (cpu m)) = true ->
  in_block (pc (cpu m)) 4 -> fresh m (blk (pc (cpu m))) ->
  let pc := pc (cpu m) in
  exists m', fetch_decode ir0 m = Ok (ir_decode (gpr (cpu m)) (flat_read (mem_byte m) pc 4) pc
                                        (pc + 4)%word ir0, m') /\
    mach_wf m' /\ mach_frame m m' /\ (forall a, cached a = true -> mem_byte m' a = mem_byte m a) /\
    (forall k, ram_blk (M := Bus) k -> fresh m k -> fresh m' k) /\
    only_ram (bus (fetch_pmp pc m)) (bus m').
Proof.
  intros Hwf Hc Hb Hfr pc0. pose proof (mw_mem _ Hwf) as Hm.
  destruct (fetch_pmp_frame pc0 m Hm) as (Hm1 & Hf1 & Hs1).
  destruct (same_mem_view _ _ Hs1) as [Hdv Hfr1]. set (m1 := fetch_pmp pc0 m) in *.
  destruct (cached_ram _ Hc) as [_ Hk].
  destruct (vaddr_ifetch_ok m1 pc0 4 Hm1 Hc Hb) as (m2 & E2 & [Hm2 Hf2 Hor2 Hmem2 Hfr2]).
  assert (Hv : flat_read (bytes_of (iview m1)) pc0 4 = flat_read (mem_byte m) pc0 4).
  { rewrite <- (block_read_flat (iview m1)) by (try done; by apply iview_is_block).
    rewrite (fresh_iview m1) by (by apply Hfr1). rewrite Hdv.
    rewrite <- (block_read_flat (dview m)) by (try done; by apply dview_is_block). done. }
  assert (Hf : mach_frame m m2) by (by transitivity m1).
  exists m2. split; [| split; [by eapply mach_wf_frame | split; [done |]]].
  - unfold fetch_decode. fold pc0. fold m1. rewrite E2. cbn [mbind Res_bind].
    rewrite Hv. destruct (wrap32_flat_read m pc0 Hm Hc Hb) as [-> _]. by rewrite (mf_cpu _ _ Hf).
  - split_and!; [| | done].
    + intros a Ha. rewrite Hmem2 by done. unfold mem_byte, bytes_of. by rewrite Hdv.
    + intros k Hkk Hfk. apply Hfr2; [done | intros [] | by apply Hfr1].
Qed.

Lemma isa_step_eq op raw s s' : isa_eq s s' -> isa_defined op raw (isa_pc s) (isa_gpr s) ->
  isa_eq (isa_step op raw s) (isa_step op raw s').
Proof.
  intros [Ep Eg Em] Hd. unfold isa_step, isa_defined in *. rewrite <- Ep, <- Eg.
  destruct (isa_outcome op raw (isa_pc s) (isa_gpr s)) as [| | addr w sg | addr w v]; try (by split).
  - destruct Hd as [Hc Hb]. destruct (cached_ram addr Hc) as [_ Hk].
    rewrite (flat_read_ext (M := Bus) _ (isa_mem s') addr w Hk Hb); [by split |].
    intros a Ha. apply Em. by apply ram_cached.
  - split; [done | done |]. intros a Ha. cbn. unfold flat_write. case_if; [done | by apply Em].
Qed.

(** What one step needs to find in an abstract state, with the word it runs. *)
Record step_ready (r : inst_row) (s : Isa) : Prop := {
  sr_row : r ∈ inst_table;
  sr_op : user_op (row_op r) = true;
  sr_pc : cached (isa_pc s) = true;
  sr_block : in_block (isa_pc s) 4;
  sr_word : pat_agrees (row_chars r) (flat_read (isa_mem s) (isa_pc s) 4);
  sr_defined : isa_defined (row_op r) (flat_read (isa_mem s) (isa_pc s) 4) (isa_pc s) (isa_gpr s);
}.

Definition isa_next (r : inst_row) (s : Isa) : Isa :=
  isa_step (row_op r) (flat_read (isa_mem s) (isa_pc s) 4) s.
Definition isa_touched (r : inst_row) (s : Isa) : Z -> Prop :=
  touched (isa_outcome (row_op r) (flat_read (isa_mem s) (isa_pc s) 4) (isa_pc s) (isa_gpr s)).

(** [fence.i] and [fence] are the same instruction. *)
Lemma direct_op_isa r raw pc g : isa_outcome (direct_op r) raw pc g = isa_outcome (row_op r) raw pc g /\
  op_format (direct_op r) = op_format (row_op r) /\
  (isa_defined (row_op r) raw pc g -> isa_defined (direct_op r) raw pc g) /\
  (user_op (row_op r) = true -> user_op (direct_op r) = true) /\
  forall s, isa_step (direct_op r) raw s = isa_step (row_op r) raw s.
Proof. unfold direct_op. by destruct (row_op r). Qed.

(** What an unprivileged instruction leaves alone, the run state included when
    the PMP lets the fetch pass. *)
Record inst_frame (m m' : Mach) : Prop := {
  nf_hart : g_current_hartid m' = g_current_hartid m;
  nf_num : g_num_cores m' = g_num_cores m;
  nf_l1d : cores_l1d m' = cores_l1d m;
  nf_pi : L1I_cache m' = L1I_cache m;
  nf_pd : L1D_cache m' = L1D_cache m;
  nf_p2 : L2_cache m' = L2_cache m;
  nf_len : length (heap m') = length (heap m);
  nf_csrf : csrf (bus m') = csrf (bus m);
  nf_io : io (bus m') = io (bus m);
  nf_sim : sim (bus m') = sim (bus (fetch_pmp (pc (cpu m)) m));
}.

Lemma exec_inst_step r ir0 m : mach_wf m -> ir_ok ir0 -> g_ftrace_en (ftrace m) = false ->
  step_ready r (abs m) -> fresh m (blk (pc (cpu m))) ->
  exists ir m', exec_inst ir0 m = Ok (ir, m') /\ isa_eq (abs m') (isa_next r (abs m)) /\
    mach_wf m' /\ ftrace m' = ftrace m /\
    g_sim_instret m' = (g_sim_instret m + 1)%word /\ g_sim_cycles m' = (g_sim_cycles m + 1)%word /\
    (forall k, ram_blk (M := Bus) k -> ~ isa_touched r (abs m) k -> fresh m k -> fresh m' k) /\
    (ir_type ir = ITYPE_STORE -> store_clean (mem_addr ir) = true) /\ inst_frame m m'.
Proof.
  intros Hwf H0 Hft [Hr Hu Hc Hb Hpat Hdef] Hfr. cbn [isa_pc isa_gpr isa_mem abs] in *.
  unfold isa_next, isa_touched. cbn [isa_pc isa_gpr isa_mem abs] in *.
  set (raw := flat_read (mem_byte m) (pc (cpu m)) 4) in *. set (pc0 := pc (cpu m)) in *.
  destruct (fetch_decode_fresh ir0 m Hwf Hc Hb Hfr) as (m1 & E1 & Hwf1 & Hf1 & Hmem1 & Hfr1 & Hor1).
  fold pc0 in E1. fold raw in E1.
  destruct (wrap32_flat_read m pc0 (mw_mem _ Hwf) Hc Hb) as [_ Hraw]. fold raw in Hraw.
  destruct (dispatch_row r raw (gpr (cpu m)) pc0 (pc0 + 4)%word ir0 Hr) as (Ex & Eo & _ & Ep & Es & _);
    [by intros E; rewrite E in Hu | by intros E; rewrite E in Hu | done | done |].
  destruct (direct_op_isa r raw pc0 (gpr (cpu m))) as (Hout & Hfmt & Hdd & Huu & Hst).
  rewrite direct_type_format, <- Hfmt in Eo by done.
  destruct (exec_outcome (direct_op r) _ m1 raw pc0 (gpr (cpu m)) _ (Huu Hu) Eo Ep Es (mw_gpr _ Hwf))
    as (d & Ed & Hdone); [by rewrite (mf_ftrace _ _ Hf1) | auto |].
  assert (Ecpu : cpu m1 = cpu m) by apply Hf1.
  assert (Hdef1 : isa_defined (direct_op r) raw pc0 (gpr (cpu m1))) by (rewrite Ecpu; auto).
  destruct (finish_outcome (direct_op r) raw pc0 d m1 Hwf1 (Huu Hu) ltac:(by rewrite Ecpu) Hdef1)
    as (d' & lat & m2 & c & Em & Ew & Heq & Et & Ea & Hm2 & Hf2 & Hor2 & Hfr2); [by rewrite Ecpu |].
  assert (E : exec_inst ir0 m = Ok (d', count_inst (set_cpu (set_pc (ir_dnpc d') c) m2))).
  { unfold exec_inst. rewrite E1. cbn [mbind Res_bind]. unfold ir_execute. rewrite Ex, Ed.
    cbn [mbind Res_bind]. rewrite Em. cbn [mbind Res_bind]. by rewrite Ew. }
  exists d', (count_inst (set_cpu (set_pc (ir_dnpc d') c) m2)). split; [exact E |].
  assert (Hsc : ir_type d' = ITYPE_STORE -> store_clean (mem_addr d') = true).
  { rewrite Et, Ea. intros Hst'. unfold store_clean. rewrite Ecpu in Hdef1. unfold isa_defined in Hdef1.
    destruct (isa_outcome (direct_op r) raw pc0 (gpr (cpu m))); cbn [outcome_done] in Hdone;
      destruct Hdone as (Hty & Hdone); try (by destruct Hty); [congruence |].
    destruct Hdone as (_ & -> & _), Hdef1 as [-> _]. done. }
  destruct (exec_inst_wf ir0 m _ _ Hwf H0 E Hsc) as (Hwf' & _ & _ & Hcy & Hin & _).
  assert (Hsm : same_mem m2 (count_inst (set_cpu (set_pc (ir_dnpc d') c) m2))) by (by split).
  destruct (same_mem_view _ _ Hsm) as [Hdv Hfv].
  split; [| split; [done | split; [| split; [done | split; [done | split; [| split; [exact Hsc |]]]]]]].
  - rewrite <- Hst. transitivity (mkIsa (ir_dnpc d') (gpr c) (mem_byte m2)); [by split |].
    rewrite Heq. apply isa_step_eq.
    + split; cbn; [by rewrite Ecpu | by rewrite Ecpu | done].
    + cbn [isa_pc isa_gpr abs]. rewrite Ecpu in Hdef1 |- *. exact Hdef1.
  - cbn. rewrite (mf_ftrace _ _ Hf2). apply Hf1.
  - intros k Hk Hnt Hfk. apply Hfv, Hfr2; [done | by rewrite Ecpu, Hout | by apply Hfr1].
  - pose proof (transitivity Hf1 Hf2) as Hf. destruct Hor1 as (Es1 & _ & Ei1), Hor2 as (Es2 & _ & Ei2).
    fold pc0 in Es1, Ei1. destruct Hf. split; try done; cbn; [by rewrite Ei2, Ei1 | by rewrite Es2, Es1].
Qed.

(** One instruction of the simulator is one instruction of the abstract
    hart.  In a well-formed machine (one core or two) whose pc lies in a block
    of memory that is fresh for the instruction cache, when memory holds a
    word of the instruction table, the step [exec_inst] completes, and the pc,
    the registers and every byte of memory are afterwards those of the
    arithmetic specification; all blocks but the stored one stay fresh, and
    one instruction and one cycle are counted. *)
Theorem exec_inst_refines_isa r ir0 m : mach_wf m -> ir_ok ir0 -> g_ftrace_en (ftrace m) = false ->
  step_ready r (abs m) -> fresh m (blk (pc (cpu m))) ->
  exists ir m', exec_inst ir0 m = Ok (ir, m') /\ isa_eq (abs m') (isa_next r (abs m)) /\
    mach_wf m' /\ ftrace m' = ftrace m /\
    g_sim_instret m' = (g_sim_instret m + 1)%word /\ g_sim_cycles m' = (g_sim_cycles m + 1)%word /\
    (forall k, ram_blk (M := Bus) k -> ~ isa_touched r (abs m) k -> fresh m k -> fresh m' k) /\
    (ir_type ir = ITYPE_STORE -> store_clean (mem_addr ir) = true).
Proof.
  intros Hwf H0 Hft Hr Hf. destruct (exec_inst_step r ir0 m Hwf H0 Hft Hr Hf) as (ir & m' & H).
  exists ir, m'. tauto.
Qed.

(** ** Runs *)

(** [n] instructions of the abstract hart, from code that lies in the blocks
    [code] and does not store into them. *)
Inductive isa_run (code : Z -> Prop) : nat -> Isa -> Isa -> Prop :=
  | run_done s : isa_run code 0 s s
  | run_step n s s' r : step_ready r s -> code (blk (isa_pc s)) ->
      (forall k, code k -> ~ isa_touched r s k) ->
      isa_run code n (isa_next r s) s' -> isa_run code (S n) s s'.

(** [n] steps of the simulator; [junk] is what the stack holds each time. *)
Fixpoint exec_n (junk : nat -> IR_Inst) (n : nat) (m : Mach) : Res Mach :=
  match n with
  | O => Ok m
  | S n => '(_, m) ← exec_inst (junk n) m; exec_n junk n m
  end.

Lemma flat_read_isa_eq s s' a len : isa_eq s s' -> cached a = true -> in_block a len ->
  flat_read (isa_mem s) a len = flat_read (isa_mem s') a len.
Proof.
  intros He Hc Hb. destruct (cached_ram a Hc) as [_ Hk]. apply (flat_read_ext (M := Bus)); [done | done |].
  intros x Hx. apply (ie_mem _ _ He). by apply ram_cached.
Qed.

(** The specification cannot tell equivalent states apart. *)
Lemma step_ready_eq r s s' : isa_eq s s' -> step_ready r s ->
  step_ready r s' /\ isa_eq (isa_next r s) (isa_next r s') /\ (forall k, isa_touched r s k <-> isa_touched r s' k).
Proof.
  intros He [Hr Hu Hc Hb Hp Hd]. pose proof (flat_read_isa_eq s s' (isa_pc s) 4 He Hc Hb) as Ew.
  pose proof (isa_step_eq _ _ _ _ He Hd) as Hn. destruct He as [Ep Eg _].
  unfold isa_next, isa_touched. rewrite Ep, Eg in *. rewrite Ew in *. by split; [split |].
Qed.

Lemma exec_n_sim code n s s' : isa_run code n s s' ->
  forall m junk, mach_wf m -> (forall i, ir_ok (junk i)) -> g_ftrace_en (ftrace m) = false ->
  isa_eq (abs m) s -> (forall k, code k -> ram_blk (M := Bus) k /\ fresh m k) ->
  exists m', exec_n junk n m = Ok m' /\ isa_eq (abs m') s' /\ mach_wf m' /\
    g_sim_instret m' = wrap64 (g_sim_instret m + Z.of_nat n) /\
    (forall k, code k -> fresh m' k).
Proof.
  induction 1 as [s | n s s' r Hready Hcode Htouch _ IH]; intros m junk Hwf Hj Hft Heq Hfr.
  - exists m. split; [done | split; [done | split; [done |]]].
    rewrite Z.add_0_r, wrap64_small by apply Hwf. split; [done |]. intros k Hk. by apply Hfr.
  - destruct (step_ready_eq r s (abs m)) as (Hready' & Hnext & Hto); [by symmetry | done |].
    destruct (exec_inst_step r (junk n) m Hwf (Hj n) Hft Hready') as
      (ir & m1 & E & Heq1 & Hwf1 & Hft1 & Hin & _ & Hfr1 & _ & _).
    { apply Hfr. by rewrite <- (ie_pc _ _ Heq) in Hcode. }
    destruct (IH m1 junk Hwf1 Hj) as (m' & E' & Heq' & Hwf' & Hin' & Hfr').
    { by rewrite Hft1. }
    { by rewrite Heq1, Hnext. }
    { intros k Hk. destruct (Hfr k Hk). split; [done |]. apply Hfr1; [done | | done].
      rewrite <- Hto. by apply Htouch. }
    exists m'. split; [| split; [done | split; [done |]]].
    + cbn [exec_n]. rewrite E. done.
    + split; [| done]. rewrite Hin', Hin. unfold add64. rewrite wrap64_mod_l. f_equal. lia.
Qed.

(** Whole runs.  If the abstract hart, started in a state equivalent to the
    machine's, can run [n] instructions from code blocks that are fresh and
    that it does not overwrite, then the simulator runs [n] instructions
    without stopping and ends in an equivalent state, having counted [n]
    instructions, with its code still fresh. *)
Theorem exec_n_simulates code n s s' : isa_run code n s s' ->
  forall m junk, mach_wf m -> (forall i, ir_ok (junk i)) -> g_ftrace_en (ftrace m) = false ->
  isa_eq (abs m) s -> (forall k, code k -> ram_blk (M := Bus) k /\ fresh m k) ->
  exists m', exec_n junk n m = Ok m' /\ isa_eq (abs m') s' /\ mach_wf m' /\
    g_sim_instret m' = wrap64 (g_sim_instret m + Z.of_nat n) /\
    (forall k, code k -> fresh m' k).
Proof. apply exec_n_sim. Qed.
