(* ===== verification/Image.v ===== *)
(** * The boot image (src/monitor/img.c) and the first run

    The built-in program, the loading of an image file, and the machine that
    [main] builds from them.  The built-in program is run to its end. *)

From S2P Require Import Prelude Word State Pmp Csr Cache CacheSet CacheSpec CacheRefine Coherence Mmio Mem Ftrace Vmem VmemSpec Decode Ir InstTable IrSpec Exec Isa.

Definition default_program : list Z :=
  [ 0x00150513; 0x00150513; 0x00150513; 0x00150513;
    0x00150513; 0x00150513; 0x00150513; 0x00150513;
    0x00150513; 0x00150513; 0x00150513; 0x00150513;
    0x00150513; 0x00150513; 0x00150513; 0x00100073 ].

(** [memcpy(guest_to_host(RESET_VECTOR), default_program, sizeof(default_program))] *)
Definition init_default_program (mem : bytemap) : bytemap :=
  mem_put mem (guest_to_host RESET_VECTOR) (flat_map (le_bytes 4) default_program).

(** [load_img]: the image file's bytes, if one was named and could be opened;
    returns the size.  [fread] of a whole file of size [n] into [pmem]. *)
Definition load_img (img : option (option (list Z))) (mem : bytemap) : Res (Z * bytemap) :=
  match img with
  | None => Ok (4096, mem)
  | Some None => Err Assertion
  | Some (Some bytes) =>
      let size := Z.of_nat (length bytes) in
      _ ← ensure Assertion (0 <? size);
      if size <=? MSIZE then Ok (size, mem_put mem (guest_to_host RESET_VECTOR) bytes)
      else Err Undefined
  end.

(** The machine at the first instruction of the built-in program. *)
Definition default_bus (d : IO) : Bus := mkBus sim_init csrfile_init (init_default_program ∅) d.
Definition default_mach (d : IO) : Mach := boot_on (default_bus d).

(** ** The built-in program *)

Lemma default_bus_wf d : io_wf d -> bus_wf (default_bus d).
Proof.
  intros Hd. split; [| done | apply csrfile_init_wf]. apply mem_put_wf; [done |].
  apply Forall_flat_map. repeat (constructor; [apply le_bytes_byte |]). constructor.
Qed.

Lemma default_bus_ok scancode_of tod poll : exists d,
  init_devices ∅ scancode_of (io_static tod poll) = Ok d /\ bus_wf (default_bus d).
Proof.
  destruct (init_devices_ok ∅ scancode_of tod poll) as (d & E & Hd); [done |].
  exists d. split; [done | by apply default_bus_wf].
Qed.

Lemma init_regs_ok : gprs_ok (gpr init_regs) /\ is_word (pc init_regs).
Proof.
  split; [split; cbn; [done | | done] | cbn; unfold is_word; lia].
  repeat (constructor; [apply is_word_0 |]). constructor.
Qed.

Lemma default_mach_wf d : bus_wf (default_bus d) -> mach_wf (default_mach d).
Proof.
  intros Hb. destruct (boot_on_inv (default_bus d) Hb) as (Hm & _).
  split; [done | apply init_regs_ok | apply init_regs_ok | apply is_word_0 | apply is_word_0].
Qed.

(** The bytes of the program, and the abstract state after [i] increments. *)
Definition default_flat : flat := fun a => mem_get (init_default_program ∅) (a - MBASE).
Definition default_isa (i : Z) : Isa :=
  mkIsa (0x80000000 + 4 * i) (upd (replicate 32 0) 10 i) default_flat.

Lemma default_bytes d a : bytes_of (bus_block (default_bus d)) a = default_flat a.
Proof.
  unfold bytes_of, bus_block, default_flat. pose proof (Z.mod_pos_bound a 64 ltac:(lia)).
  rewrite arr_mem_bytes by (unfold BLOCK_SIZE; lia). cbn [pmem default_bus]. f_equal.
  unfold guest_to_host, blk. pose proof (Z.div_mod a 64). lia.
Qed.

Lemma default_abs d : bus_wf (default_bus d) -> isa_eq (abs (default_mach d)) (default_isa 0).
Proof.
  intros Hb. destruct (boot_on_inv (default_bus d) Hb) as (_ & Hv & _). split; [done | done |].
  intros a Ha. cbn [abs isa_mem default_isa default_mach]. rewrite <-(default_bytes d).
  unfold mem_byte, bytes_of. by rewrite Hv.
Qed.

Definition addi_row : inst_row := mkInst "??????? ????? ????? 000 ????? 00100 11" Exec_addi TYPE_I.

Lemma default_word i : 0 <= i < 15 -> flat_read default_flat (0x80000000 + 4 * i) 4 = 0x00150513.
Proof.
  intros Hi. assert (H : forallb (fun i => flat_read default_flat (0x80000000 + 4 * i) 4 =? 0x00150513)
                           (seqZ_from 0 15) = true) by reflexivity.
  rewrite forallb_forall in H. apply Z.eqb_eq, H. apply list_elem_of_In, elem_of_seqZ_from. lia.
Qed.

Lemma default_step i : 0 <= i < 15 ->
  step_ready addi_row (default_isa i) /\ isa_next addi_row (default_isa i) = default_isa (i + 1) /\
  forall k, ~ isa_touched addi_row (default_isa i) k.
Proof.
  intros Hi. unfold isa_next, isa_touched. cbn [default_isa isa_pc isa_mem isa_gpr].
  rewrite default_word by done. split; [split | split; [| intros k []]]; cbn [default_isa isa_pc isa_mem isa_gpr].
  - unfold inst_table. do 27 apply list_elem_of_further. apply list_elem_of_here.
  - done.
  - unfold cached. lia.
  - split; [lia |]. rewrite Z.add_mod by lia. change (0x80000000 mod 64) with 0.
    rewrite Z.add_0_l, Z.mod_mod, (Z.mod_small (4 * i)) by lia. lia.
  - rewrite default_word by done.
    unfold pat_agrees. rewrite <- masked_eq_iff; [reflexivity | by apply pat_bits_chars].
  - done.
  - unfold isa_step. change (row_op addi_row) with Exec_addi.
    cbn [isa_outcome is_alu isa_pc isa_gpr isa_mem default_isa].
    change (BITS 0x00150513 19 15) with 10. change (BITS 0x00150513 11 7) with 10.
    change (alu_src2 Exec_addi 0x00150513 _) with 1. cbn [rv_alu].
    rewrite arr_upd_eq by (rewrite length_replicate; lia). unfold isa_set, default_isa.
    change (10 =? 0) with false. cbv iota. rewrite upd_upd, Z.mod_small by lia.
    unfold add64. rewrite wrap64_small by (unfold is_word; lia). f_equal. lia.
Qed.

(** The block of the program. *)
Definition default_code (k : Z) : Prop := k = blk 0x80000000.

Lemma default_run (n : nat) i : 0 <= i -> i + Z.of_nat n <= 15 ->
  isa_run default_code n (default_isa i) (default_isa (i + Z.of_nat n)).
Proof.
  revert i. induction n as [|n IH]; intros i Hi Hn; [rewrite Z.add_0_r; constructor |].
  destruct (default_step i ltac:(lia)) as (Hr & En & Ht).
  eapply (run_step _ _ _ _ addi_row); [done | | intros k _; apply Ht |].
  - unfold default_code, blk. cbn [default_isa isa_pc].
    replace (0x80000000 + 4 * i) with (4 * i + 33554432 * 64) by lia.
    rewrite Z.div_add, Z.div_small by lia. done.
  - rewrite En. replace (i + Z.of_nat (S n)) with (i + 1 + Z.of_nat n) by lia. apply IH; lia.
Qed.

(** [ebreak] in a fresh block ends the run. *)
Lemma ebreak_step ir0 m : mach_wf m -> ir_ok ir0 -> cached (pc (cpu m)) = true -> in_block (pc (cpu m)) 4 ->
  fresh m (blk (pc (cpu m))) -> flat_read (mem_byte m) (pc (cpu m)) 4 = 0x00100073 ->
  exists ir m', exec_inst ir0 m = Ok (ir, m') /\ state (sim (bus m')) = NEMU_END /\
    gpr (cpu m') = gpr (cpu m) /\ pc (cpu m') = (pc (cpu m) + 4)%word /\
    g_sim_instret m' = (g_sim_instret m + 1)%word /\
    mach_wf m' /\ io (bus m') = io (bus m) /\ status (sim (bus m')) = status (sim (bus (fetch_pmp (pc (cpu m)) m))).
Proof.
  intros Hwf H0 Hc Hb Hf Hw. destruct (fetch_decode_fresh ir0 m Hwf Hc Hb Hf) as (m1 & E & Hwf1 & Hf1 & _ & _ & Es1 & _ & Ei1).
  rewrite Hw in E.
  assert (Hx : forall ir m', exec_inst ir0 m = Ok (ir, m') -> ir_type ir <> ITYPE_STORE -> mach_wf m').
  { intros ir m' Ex Ht. by destruct (exec_inst_wf ir0 m ir m' Hwf H0 Ex) as [? _]. }
  revert Hx. unfold exec_inst. rewrite E. cbn [mbind Res_bind].
  set (d := ir_decode _ 0x00100073 _ _ ir0).
  assert (Ed : exec_fn d = Some Exec_ebreak /\ ir_snpc d = (pc (cpu m) + 4)%word) by done.
  destruct Ed as [Ef Es]. unfold ir_execute. rewrite Ef. cbn [exec_call mbind Res_bind ir_exec_ebreak].
  unfold ir_mem_access. cbn [ir_type mbind Res_bind].
  rewrite writeback_none by (apply (mw_gpr _ Hwf1) || done). cbn [mbind Res_bind].
  intros Hx. eexists _, _. split; [reflexivity |].
  split_and!; [done | by cbn; rewrite (mf_cpu _ _ Hf1) | exact Es | by cbn; rewrite (mf_instret _ _ Hf1) | | done |].
  - by eapply Hx.
  - cbn in Es1 |- *. by rewrite Es1.
Qed.

(** The built-in program.  Started from [main]'s initial machine with the
    devices of the configuration, the simulator executes the fifteen [addi]
    instructions through its caches, leaving 15 in [a0] and 60 past the reset
    vector in the pc, and the [ebreak] that follows ends the run with the
    result still in [a0] after 16 instructions. *)
Theorem default_program_runs scancode_of tod poll d junk :
  init_devices ∅ scancode_of (io_static tod poll) = Ok d -> (forall i, ir_ok (junk i)) ->
  exists m, exec_n junk 15 (default_mach d) = Ok m /\ arr (gpr (cpu m)) 10 = 15 /\
    pc (cpu m) = 0x8000003c /\
    exists ir m', exec_inst (junk 16%nat) m = Ok (ir, m') /\ state (sim (bus m')) = NEMU_END /\
      arr (gpr (cpu m')) 10 = 15 /\ g_sim_instret m' = 16.
Proof.
  intros Ed Hj. destruct (default_bus_ok scancode_of tod poll) as (d' & Ed' & Hb).
  rewrite Ed in Ed'. injection Ed' as <-.
  pose proof (default_mach_wf d Hb) as Hwf. pose proof (default_run 15 0 ltac:(lia) ltac:(lia)) as Hrun.
  destruct (boot_on_inv (default_bus d) Hb) as (_ & _ & Hfr).
  destruct (exec_n_sim _ _ _ _ Hrun (default_mach d) junk Hwf Hj eq_refl (default_abs d Hb))
    as (m & E & [Epc Eg Em] & Hwf' & Hin & Hfm).
  { intros k ->. split; [| apply Hfr]. by apply (cached_ram 0x80000000). }
  cbn [default_isa isa_pc isa_gpr isa_mem abs] in *. change (0x80000000 + 4 * 15) with 0x8000003c in Epc.
  exists m. rewrite Eg. split; [done | split; [done | split; [done |]]].
  destruct (ebreak_step (junk 16%nat) m Hwf' (Hj _)) as (ir & m' & E' & Hst & Hg & _ & Hin' & _).
  - by rewrite Epc.
  - rewrite Epc. split; [lia | done].
  - rewrite Epc. by apply Hfm.
  - rewrite Epc. transitivity (flat_read default_flat 0x8000003c 4); [| done].
    apply (flat_read_ext (M := Bus)); [by apply (cached_ram 0x8000003c) | split; [lia | done] |].
    intros a Ha. apply Em. by apply ram_cached.
  - exists ir, m'. split; [done | split; [done |]]. rewrite Hg, Eg, Hin', Hin.
    split; [reflexivity |]. change (g_sim_instret (default_mach d)) with 0. reflexivity.
Qed.

(** ** The properties at the first instruction *)

Lemma ir_zero_ok : ir_ok ir_zero.
Proof. split; cbn; [| lia]. repeat (constructor; [apply is_word_0 |]). constructor. Qed.

Lemma default_ready d : bus_wf (default_bus d) -> step_ready addi_row (abs (default_mach d)).
Proof.
  intros Hb. eapply step_ready_eq; [symmetry; by apply default_abs |].
  by apply (default_step 0).
Qed.

Lemma default_program_runs_witness : exists d m,
  init_devices ∅ (fun _ => 0) (io_static (fun _ => (0, 0)) (fun _ => [])) = Ok d /\
  exec_n (fun _ => ir_zero) 15 (default_mach d) = Ok m /\ arr (gpr (cpu m)) 10 = 15.
Proof.
  destruct (default_bus_ok (fun _ => 0) (fun _ => (0, 0)) (fun _ => [])) as (d & E & Hb).
  destruct (default_program_runs (fun _ => 0) (fun _ => (0, 0)) (fun _ => []) d (fun _ => ir_zero) E)
    as (m & E' & Ha & _).
  - intros _. apply ir_zero_ok.
  - exists d, m. split; [exact E | split; [exact E' | exact Ha]].
Defined.

Lemma exec_inst_refines_isa_witness : exists d ir m',
  init_devices ∅ (fun _ => 0) (io_static (fun _ => (0, 0)) (fun _ => [])) = Ok d /\
  exec_inst ir_zero (default_mach d) = Ok (ir, m') /\ pc (cpu m') = 0x80000004.
Proof.
  destruct (default_bus_ok (fun _ => 0) (fun _ => (0, 0)) (fun _ => [])) as (d & E & Hb).
  destruct (exec_inst_refines_isa addi_row ir_zero (default_mach d)) as (ir & m' & E' & [Ep _ _] & _).
  - by apply default_mach_wf.
  - apply ir_zero_ok.
  - reflexivity.
  - by apply default_ready.
  - by apply (boot_on_inv (default_bus d) Hb).
  - exists d, ir, m'. split; [exact E | split; [exact E' |]]. exact Ep.
Defined.

Lemma exec_n_simulates_witness : exists d m',
  init_devices ∅ (fun _ => 0) (io_static (fun _ => (0, 0)) (fun _ => [])) = Ok d /\
  exec_n (fun _ => ir_zero) 3 (default_mach d) = Ok m' /\ pc (cpu m') = 0x8000000c.
Proof.
  destruct (default_bus_ok (fun _ => 0) (fun _ => (0, 0)) (fun _ => [])) as (d & E & Hb).
  pose proof (default_run 3 0 ltac:(lia) ltac:(lia)) as Hrun.
  destruct (exec_n_simulates default_code 3 _ _ Hrun (default_mach d) (fun _ => ir_zero))
    as (m' & E' & [Ep _ _] & _).
  - by apply default_mach_wf.
  - intros _. apply ir_zero_ok.
  - reflexivity.
  - by apply default_abs.
  - intros k ->. split; [by apply (cached_ram 0x80000000) | by apply (boot_on_inv (default_bus d) Hb)].
  - exists d, m'. split; [exact E | split; [exact E' | exact Ep]].
Defined.

Lemma exec_inst_invariant_witness : exists d ir m',
  init_devices ∅ (fun _ => 0) (io_static (fun _ => (0, 0)) (fun _ => [])) = Ok d /\
  exec_inst ir_zero (default_mach d) = Ok (ir, m') /\ mach_wf m'.
Proof.
  destruct (default_bus_ok (fun _ => 0) (fun _ => (0, 0)) (fun _ => [])) as (d & E & Hb).
  destruct (exec_inst_step addi_row ir_zero (default_mach d)) as (ir & m' & E' & _ & _ & _ & _ & _ & _ & Hs & _).
  - by apply default_mach_wf.
  - apply ir_zero_ok.
  - reflexivity.
  - by apply default_ready.
  - by apply (boot_on_inv (default_bus d) Hb).
  - exists d, ir, m'. split; [exact E | split; [exact E' |]].
    refine (proj1 (exec_inst_invariant ir_zero (default_mach d) ir m' _ _ E' _)).
    + by apply default_mach_wf.
    + apply ir_zero_ok.
    + exact Hs.
Defined.
