(* ===== verification/Bpred.v ===== *)
(** * Branch prediction (src/cpu/bpred.c, src/cpu/bpred2.c)

    The branch target buffer, the local, global and meta tables of 2-bit
    saturating counters and the circular return address stack, with the
    predict and update functions of both predictors.  The theorems: the state
    invariant, the target buffer learns taken targets, the return address
    stack is a bounded stack. *)

From S2P Require Import Prelude Word Ir.

Definition BTB_SIZE : Z := 512.
Definition LHT_SIZE : Z := 1024.
Definition LHT_BITS : Z := 10.
Definition LPHT_SIZE : Z := 1024.
Definition GHR_BITS : Z := 12.
Definition GPHT_SIZE : Z := 4096.
Definition META_SIZE : Z := 4096.
Definition RAS_SIZE : Z := 16.

Record BTBEntry := mkBTB {
  btb_tag : Z;
  btb_target : Z;
  btb_valid : bool;
}.

#[export] Instance BTBEntry_inhabited : Inhabited BTBEntry := populate (mkBTB 0 0 false).

Record BranchPredictor := mkBP {
  btb : list BTBEntry;
  lht : list Z;
  lpht : list Z;
  ghr : Z;
  gpht : list Z;
  meta : list Z;
  ras : list Z;
  ras_top : Z;
  ras_count : Z;
  predictions : Z;
  mispredictions : Z;
  btb_misses : Z;
}.

Record BPredResult := mkBPR {
  bpr_taken : bool;
  bpr_target : Z;
  bpr_btb_hit : bool;
}.

(** ** bpred.c *)

(** Everything is zeroed by [memset]. *)
Definition bpred_init : BranchPredictor :=
  {| btb := replicate (Z.to_nat BTB_SIZE) (mkBTB 0 0 false);
     lht := replicate (Z.to_nat LHT_SIZE) 0; lpht := replicate (Z.to_nat LPHT_SIZE) 0; ghr := 0;
     gpht := replicate (Z.to_nat GPHT_SIZE) 0; meta := replicate (Z.to_nat META_SIZE) 0;
     ras := replicate (Z.to_nat RAS_SIZE) 0; ras_top := 0; ras_count := 0;
     predictions := 0; mispredictions := 0; btb_misses := 0 |}.

Definition rd_of (raw : Z) : Z := Z.land (Z.shiftr raw 7) 0x1f.
Definition rs1_of (raw : Z) : Z := Z.land (Z.shiftr raw 15) 0x1f.

Definition is_call (raw : Z) : bool :=
  if Z.land raw 0x7f =? 0x6f then (rd_of raw =? 1) || (rd_of raw =? 5)
  else if Z.land raw 0x707f =? 0x0067 then
    ((rd_of raw =? 1) || (rd_of raw =? 5)) && negb (rs1_of raw =? rd_of raw)
  else false.

Definition is_ret (raw : Z) : bool :=
  if Z.land raw 0x707f =? 0x0067 then (rd_of raw =? 0) && ((rs1_of raw =? 1) || (rs1_of raw =? 5))
  else false.

(** Table indices: a pc is a word, [ghr] a [uint32_t]. *)
Definition btb_idx (pc : Z) : Z := Z.land (Z.shiftr pc 2) (BTB_SIZE - 1).
Definition lht_idx (pc : Z) : Z := Z.land (Z.shiftr pc 2) (LHT_SIZE - 1).
Definition gpht_idx (bp : BranchPredictor) (pc : Z) : Z :=
  Z.land (Z.lxor (ghr bp) (wrap32 (Z.shiftr pc 2))) (GPHT_SIZE - 1).

Definition btb_entry (bp : BranchPredictor) (pc : Z) : BTBEntry := arr (btb bp) (btb_idx pc).
Definition btb_matches (bp : BranchPredictor) (pc : Z) : bool :=
  btb_valid (btb_entry bp pc) && (btb_tag (btb_entry bp pc) =? Z.shiftr pc 11).

(** Push [pc + 4] on the return address stack. *)
Definition ras_push (bp : BranchPredictor) (pc : Z) : BranchPredictor :=
  let new_top := Z.rem (ras_top bp + 1) RAS_SIZE in
  {| bp with ras := upd (ras bp) new_top (pc + 4)%word; ras_top := new_top;
             ras_count := if ras_count bp <? RAS_SIZE then ras_count bp + 1 else ras_count bp |}.

(** The tournament of the local and the global table. *)
Definition local_pred (bp : BranchPredictor) (pc : Z) : bool :=
  2 <=? arr (lpht bp) (arr (lht bp) (lht_idx pc)).
Definition global_pred (bp : BranchPredictor) (pc : Z) : bool :=
  2 <=? arr (gpht bp) (gpht_idx bp pc).

Definition bpred_predict (bp : BranchPredictor) (pc raw : Z) : BPredResult * BranchPredictor :=
  if is_ret raw && (0 <? ras_count bp) then
    let target := arr (ras bp) (ras_top bp) in
    (mkBPR true target true,
     {| bp with ras_top := Z.rem (ras_top bp - 1 + RAS_SIZE) RAS_SIZE;
                ras_count := ras_count bp - 1 |})
  else
    let bp := if is_call raw then ras_push bp pc else bp in
    let hit := btb_matches bp pc in
    let target := if hit then btb_target (btb_entry bp pc) else 0 in
    let taken := if 2 <=? arr (meta bp) (gpht_idx bp pc) then global_pred bp pc else local_pred bp pc in
    (mkBPR taken target hit, bp).

(** The two guarded steps of a saturating counter. *)
Definition sat_inc (x : Z) : Z := if x <? 3 then x + 1 else x.
Definition sat_dec (x : Z) : Z := if 0 <? x then x - 1 else x.
Definition sat_train (actual : bool) (x : Z) : Z := if actual then sat_inc x else sat_dec x.

(** [((h << 1) | actual) & ((1 << bits) - 1)] on [uint32_t] *)
Definition shift_in (h : Z) (actual : bool) (bits : Z) : Z :=
  Z.land (Z.lor (wrap32 (Z.shiftl h 1)) (b2z actual)) (Z.shiftl 1 bits - 1).

Definition meta_train (actual local global : bool) (x : Z) : Z :=
  if negb (Bool.eqb local global) then
    let x := if Bool.eqb actual global then sat_inc x else x in
    if Bool.eqb actual local then sat_dec x else x
  else x.

Definition is_control (t : IRInstType) : bool :=
  match t with ITYPE_BRANCH | ITYPE_JAL | ITYPE_JALR => true | _ => false end.

(** [bp->predictions++] and the misprediction count. *)
Definition count_prediction (ir : IR_Inst) (bp : BranchPredictor) : BranchPredictor :=
  {| bp with predictions := (predictions bp + 1)%word;
             mispredictions := if negb (ir_dnpc ir =? bp_predicted_pc ir)
                               then (mispredictions bp + 1)%word else mispredictions bp |}.

(** The target buffer learns a taken target; [known] says that the entry was this one's. *)
Definition btb_learn (pc tag target : Z) (known : bool) (bp : BranchPredictor) : BranchPredictor :=
  {| bp with btb_misses := if known then btb_misses bp else (btb_misses bp + 1)%word;
             btb := upd (btb bp) (btb_idx pc) (mkBTB tag target true) |}.

(** Local counter [i] is trained, then the outcome enters the history of [pc]. *)
Definition train_local (pc i : Z) (actual : bool) (bp : BranchPredictor) : BranchPredictor :=
  {| bp with lpht := upd (lpht bp) i (sat_train actual (arr (lpht bp) i));
             lht := upd (lht bp) (lht_idx pc) (shift_in (arr (lht bp) (lht_idx pc)) actual LHT_BITS) |}.

(** The global counter and the choice counter of [pc] are trained. *)
Definition train_global (pc : Z) (actual local : bool) (bp : BranchPredictor) : BranchPredictor :=
  let gi := gpht_idx bp pc in
  let global := global_pred bp pc in
  {| bp with gpht := upd (gpht bp) gi (sat_train actual (arr (gpht bp) gi));
             meta := upd (meta bp) gi (meta_train actual local global (arr (meta bp) gi)) |}.

Definition push_ghr (actual : bool) (bp : BranchPredictor) : BranchPredictor :=
  {| bp with ghr := shift_in (ghr bp) actual GHR_BITS |}.

Definition bpred_update (bp : BranchPredictor) (ir : IR_Inst) : BranchPredictor :=
  if negb (is_control (ir_type ir)) then bp else
  let pc := ir_pc ir in
  let actual := negb (ir_dnpc ir =? ir_snpc ir) in
  let bp := count_prediction ir bp in
  let bp := if actual then btb_learn pc (Z.shiftr pc 11) (ir_dnpc ir) (btb_matches bp pc) bp else bp in
  let hist := arr (lht bp) (lht_idx pc) in
  let local := local_pred bp pc in
  let bp := train_local pc hist actual bp in
  let bp := train_global pc actual local bp in
  push_ghr actual bp.

(** ** bpred2.c *)

(** Nothing writes [spec_lht]: it keeps its static zeros. *)
Definition spec_lht : list Z := replicate (Z.to_nat LHT_SIZE) 0.

(** [uint32_t tag = pc >> 11], compared with the 64-bit field. *)
Definition tag32 (pc : Z) : Z := wrap32 (Z.shiftr pc 11).
Definition btb_matches2 (bp : BranchPredictor) (pc : Z) : bool :=
  btb_valid (btb_entry bp pc) && (btb_tag (btb_entry bp pc) =? tag32 pc).

Definition bpred2_predict (bp : BranchPredictor) (pc : Z) : BPredResult :=
  let hit := btb_matches2 bp pc in
  let spec_hist := arr spec_lht (lht_idx pc) in
  mkBPR (2 <=? arr (lpht bp) (Z.land spec_hist (LPHT_SIZE - 1)))
        (if hit then btb_target (btb_entry bp pc) else 0) hit.

Definition bpred2_update (bp : BranchPredictor) (ir : IR_Inst) : BranchPredictor :=
  let pc := ir_pc ir in
  let actual := negb (ir_dnpc ir =? ir_snpc ir) in
  let bp := count_prediction ir bp in
  let bp := if actual then btb_learn pc (tag32 pc) (ir_dnpc ir) (btb_matches2 bp pc) bp else bp in
  let hist := arr (lht bp) (lht_idx pc) in
  let bp := train_local pc (Z.land hist (LPHT_SIZE - 1)) actual bp in
  push_ghr actual bp.

(** ** The state invariant *)

Definition is_counter (x : Z) : Prop := 0 <= x <= 3.

Record bp_wf (bp : BranchPredictor) : Prop := {
  bw_btb : length (btb bp) = Z.to_nat BTB_SIZE;
  bw_lht : length (lht bp) = Z.to_nat LHT_SIZE;
  bw_lpht : length (lpht bp) = Z.to_nat LPHT_SIZE;
  bw_gpht : length (gpht bp) = Z.to_nat GPHT_SIZE;
  bw_meta : length (meta bp) = Z.to_nat META_SIZE;
  bw_ras : length (ras bp) = Z.to_nat RAS_SIZE;
  bw_hist : Forall (fun h => 0 <= h < LPHT_SIZE) (lht bp);
  bw_lctr : Forall is_counter (lpht bp);
  bw_gctr : Forall is_counter (gpht bp);
  bw_mctr : Forall is_counter (meta bp);
  bw_ghr : 0 <= ghr bp < GPHT_SIZE;
  bw_top : 0 <= ras_top bp < RAS_SIZE;
  bw_count : 0 <= ras_count bp <= RAS_SIZE;
}.

Lemma bpred_init_wf : bp_wf bpred_init.
Proof.
  split; cbn [bpred_init btb lht lpht gpht meta ras ghr ras_top ras_count];
    try apply length_replicate; try (apply Forall_replicate); unfold is_counter, RAS_SIZE, LPHT_SIZE, GPHT_SIZE; lia.
Qed.

Lemma land_pow2_range x k : 0 <= k -> 0 <= Z.land x (2 ^ k - 1) < 2 ^ k.
Proof. intros Hk. rewrite land_ones_mod by done. apply Z.mod_pos_bound. lia. Qed.

Lemma btb_idx_range pc : 0 <= btb_idx pc < BTB_SIZE.
Proof. apply (land_pow2_range _ 9). lia. Qed.
Lemma lht_idx_range pc : 0 <= lht_idx pc < LHT_SIZE.
Proof. apply (land_pow2_range _ 10). lia. Qed.
Lemma gpht_idx_range bp pc : 0 <= gpht_idx bp pc < GPHT_SIZE.
Proof. apply (land_pow2_range _ 12). lia. Qed.
Lemma shift_in_range h a bits : 0 <= bits -> 0 <= shift_in h a bits < 2 ^ bits.
Proof.
  intros Hb. unfold shift_in. rewrite (Z.shiftl_mul_pow2 1), Z.mul_1_l by done. by apply land_pow2_range.
Qed.

Lemma sat_train_counter a x : is_counter x -> is_counter (sat_train a x).
Proof. unfold is_counter, sat_train, sat_inc, sat_dec. intros. repeat case_if; zify_bool; lia. Qed.
Lemma meta_train_counter a l g x : is_counter x -> is_counter (meta_train a l g x).
Proof.
  unfold is_counter, meta_train, sat_inc, sat_dec. cbv zeta. intros.
  repeat case_if; zify_bool; lia.
Qed.

Lemma hist_range bp pc : bp_wf bp -> 0 <= arr (lht bp) (lht_idx pc) < LPHT_SIZE.
Proof.
  intros Hw. pose proof (lht_idx_range pc). apply (Forall_arr _ _ _ (bw_hist _ Hw)).
  rewrite (bw_lht _ Hw). unfold LHT_SIZE in *. lia.
Qed.

Lemma ctr_lpht bp i : bp_wf bp -> 0 <= i < LPHT_SIZE -> is_counter (arr (lpht bp) i).
Proof.
  intros Hw Hi. apply (Forall_arr _ _ _ (bw_lctr _ Hw)). rewrite (bw_lpht _ Hw). unfold LPHT_SIZE in *. lia.
Qed.
Lemma ctr_gpht bp i : bp_wf bp -> 0 <= i < GPHT_SIZE -> is_counter (arr (gpht bp) i).
Proof.
  intros Hw Hi. apply (Forall_arr _ _ _ (bw_gctr _ Hw)). rewrite (bw_gpht _ Hw). unfold GPHT_SIZE in *. lia.
Qed.
Lemma ctr_meta bp i : bp_wf bp -> 0 <= i < META_SIZE -> is_counter (arr (meta bp) i).
Proof.
  intros Hw Hi. apply (Forall_arr _ _ _ (bw_mctr _ Hw)). rewrite (bw_meta _ Hw). unfold META_SIZE in *. lia.
Qed.

(** Each step of the training keeps the invariant. *)
Lemma count_prediction_wf ir bp : bp_wf bp -> bp_wf (count_prediction ir bp).
Proof. by intros []. Qed.
Lemma btb_learn_wf pc tag target known bp : bp_wf bp -> bp_wf (btb_learn pc tag target known bp).
Proof. intros []. split; cbn [btb_learn btb lht lpht gpht meta ras ghr ras_top ras_count]; rewrite ?length_upd; done. Qed.
Lemma train_local_wf pc i actual bp : bp_wf bp -> 0 <= i < LPHT_SIZE -> bp_wf (train_local pc i actual bp).
Proof.
  intros Hw Hi. pose proof (sat_train_counter actual _ (ctr_lpht bp i Hw Hi)).
  pose proof (shift_in_range (arr (lht bp) (lht_idx pc)) actual LHT_BITS ltac:(unfold LHT_BITS; lia)).
  destruct Hw. split; cbn [train_local btb lht lpht gpht meta ras ghr ras_top ras_count];
    rewrite ?length_upd; auto using Forall_upd.
Qed.
Lemma train_global_wf pc actual local bp : bp_wf bp -> bp_wf (train_global pc actual local bp).
Proof.
  intros Hw. unfold train_global. pose proof (gpht_idx_range bp pc) as Hg.
  pose proof (sat_train_counter actual _ (ctr_gpht bp _ Hw Hg)).
  pose proof (meta_train_counter actual local (global_pred bp pc) _ (ctr_meta bp _ Hw Hg)).
  destruct Hw. cbv zeta. split; cbn [btb lht lpht gpht meta ras ghr ras_top ras_count];
    rewrite ?length_upd; auto using Forall_upd.
Qed.
Lemma push_ghr_wf actual bp : bp_wf bp -> bp_wf (push_ghr actual bp).
Proof.
  pose proof (shift_in_range (ghr bp) actual GHR_BITS ltac:(unfold GHR_BITS; lia)).
  intros []. by split; cbn [push_ghr btb lht lpht gpht meta ras ghr ras_top ras_count].
Qed.

#[export] Hint Resolve count_prediction_wf btb_learn_wf train_local_wf train_global_wf push_ghr_wf
  hist_range : emu.

Lemma land_lpht_range h : 0 <= Z.land h (LPHT_SIZE - 1) < LPHT_SIZE.
Proof. apply (land_pow2_range _ 10). lia. Qed.

Lemma bpred_update_wf bp ir : bp_wf bp -> bp_wf (bpred_update bp ir).
Proof.
  intros Hw. unfold bpred_update. case_if; [done |]. cbv zeta.
  apply push_ghr_wf, train_global_wf.
  case_if; (apply train_local_wf; [| apply hist_range]); auto with emu.
Qed.

Lemma bpred2_update_wf bp ir : bp_wf bp -> bp_wf (bpred2_update bp ir).
Proof.
  intros Hw. unfold bpred2_update. cbv zeta.
  apply push_ghr_wf, train_local_wf; [case_if; auto with emu | apply land_lpht_range].
Qed.

Lemma rem16 x : 0 <= x -> Z.rem x RAS_SIZE = x mod 16.
Proof. intros. by rewrite Z.rem_mod_nonneg. Qed.

Lemma ras_push_wf bp pc : bp_wf bp -> bp_wf (ras_push bp pc).
Proof.
  intros []. unfold ras_push. rewrite (rem16 (ras_top bp + 1)) by lia. unfold RAS_SIZE in *.
  pose proof (Z.mod_pos_bound (ras_top bp + 1) 16 ltac:(lia)).
  split; cbn; rewrite ?length_upd; try done.
  case_if; zify_bool; unfold RAS_SIZE in *; lia.
Qed.

Lemma bpred_predict_wf bp pc raw : bp_wf bp -> bp_wf (bpred_predict bp pc raw).2.
Proof.
  intros Hw. unfold bpred_predict. case_if.
  - zify_bool. cbn [snd]. destruct Hw. rewrite rem16 by (unfold RAS_SIZE; lia). unfold RAS_SIZE in *.
    pose proof (Z.mod_pos_bound (ras_top bp - 1 + 16) 16 ltac:(lia)). split; cbn; try done; unfold RAS_SIZE in *; lia.
  - cbv zeta. cbn [snd]. case_if; [by apply ras_push_wf | done].
Qed.

(** The tables stay in range.  From the zeroed state on, predicting and
    training keep every array at its size, every counter within two bits,
    every local history below the size of the table it indexes, the global
    history within twelve bits and the stack pointers within the stack: no
    table access of either predictor leaves its array. *)
Theorem bpred_invariant bp pc raw ir : bp_wf bp ->
  bp_wf bpred_init /\ bp_wf (bpred_predict bp pc raw).2 /\ bp_wf (bpred_update bp ir) /\
  bp_wf (bpred2_update bp ir) /\
  in_range (btb bp) (btb_idx pc) = true /\ in_range (lht bp) (lht_idx pc) = true /\
  in_range (lpht bp) (arr (lht bp) (lht_idx pc)) = true /\
  in_range (gpht bp) (gpht_idx bp pc) = true /\ in_range (meta bp) (gpht_idx bp pc) = true /\
  in_range (ras bp) (ras_top bp) = true.
Proof.
  intros Hw. split; [apply bpred_init_wf |]. split; [by apply bpred_predict_wf |].
  split; [by apply bpred_update_wf |]. split; [by apply bpred2_update_wf |].
  pose proof (hist_range bp pc Hw). pose proof (btb_idx_range pc). pose proof (lht_idx_range pc).
  pose proof (gpht_idx_range bp pc). destruct Hw as [E1 E2 E3 E4 E5 E6 _ _ _ _ _ ? _].
  unfold in_range. rewrite E1, E2, E3, E4, E5, E6.
  unfold BTB_SIZE, LHT_SIZE, LPHT_SIZE, GPHT_SIZE, META_SIZE, RAS_SIZE in *. lia.
Qed.

Lemma bpred_invariant_witness : bp_wf (bpred_predict bpred_init 0x80000000 0x00008067).2.
Proof. apply (bpred_invariant bpred_init 0x80000000 0x00008067 ir_zero bpred_init_wf). Defined.

(** ** The return address stack *)

(** The live entries, newest first. *)
Definition ras_stack (bp : BranchPredictor) : list Z :=
  (fun i => arr (ras bp) ((ras_top bp - i) mod 16)) <$> seqZ_from 0 (Z.to_nat (ras_count bp)).

Lemma ras_stack_lookup bp (k : nat) : ras_stack bp !! k =
  if decide (k < Z.to_nat (ras_count bp))%nat then Some (arr (ras bp) ((ras_top bp - Z.of_nat k) mod 16))
  else None.
Proof.
  unfold ras_stack. rewrite list_lookup_fmap. case_decide.
  - by rewrite lookup_seqZ_from.
  - rewrite lookup_ge_None_2; [done |]. rewrite length_seqZ_from. lia.
Qed.

Lemma mod16_cases x : 0 <= x mod 16 < 16 /\ exists q, x = 16 * q + x mod 16.
Proof.
  split; [apply Z.mod_pos_bound; lia |]. exists (x / 16). apply Z.div_mod. lia.
Qed.

Lemma ras_stack_push bp pc : bp_wf bp ->
  ras_stack (ras_push bp pc) = take 16 ((pc + 4)%word :: ras_stack bp).
Proof.
  intros [_ _ _ _ _ Hr _ _ _ _ _ Ht Hc]. unfold RAS_SIZE in *.
  apply list_eq. intros k. rewrite ras_stack_lookup. unfold ras_push.
  rewrite rem16 by lia. cbn [ras ras_top ras_count].
  set (n := if ras_count bp <? RAS_SIZE then ras_count bp + 1 else ras_count bp).
  assert (Hn : n = Z.min (ras_count bp + 1) 16) by (unfold n, RAS_SIZE; case_if; zify_bool; lia).
  clearbody n. subst n. set (nt := (ras_top bp + 1) mod 16).
  assert (Hnt : 0 <= nt < 16) by (apply Z.mod_pos_bound; lia).
  destruct (decide (k < 16)%nat) as [Hk|Hk].
  - rewrite lookup_take_lt by done. destruct k as [|k]; cbn [lookup list_lookup].
    + rewrite decide_True by lia. f_equal. rewrite Z.sub_0_r, (Z.mod_small nt) by lia.
      apply arr_upd_eq. lia.
    + rewrite ras_stack_lookup. destruct (decide (k < Z.to_nat (ras_count bp))%nat).
      * rewrite decide_True by lia. f_equal.
        assert (Ei : (nt - Z.of_nat (S k)) mod 16 = (ras_top bp - Z.of_nat k) mod 16).
        { unfold nt. rewrite Zminus_mod_idemp_l. f_equal. lia. }
        rewrite Ei. apply arr_upd_ne; [apply Z.mod_pos_bound; lia |].
        rewrite <- Ei. destruct (mod16_cases (nt - Z.of_nat (S k))) as [? [q ?]]. lia.
      * by rewrite decide_False by lia.
  - rewrite lookup_take_ge by lia. by rewrite decide_False by lia.
Qed.

Lemma is_ret_not_call raw : is_ret raw = true -> is_call raw = false.
Proof.
  unfold is_ret, is_call. intros H. destruct (Z.eqb_spec (Z.land raw 0x707f) 0x0067) as [E|]; [| done].
  zify_bool. destruct (Z.eqb_spec (Z.land raw 0x7f) 0x6f) as [E'|].
  - assert (Ef : Z.land (Z.land raw 0x707f) 0x7f = Z.land raw 0x7f) by (by rewrite <- Z.land_assoc).
    rewrite E, E' in Ef. done.
  - rename select (rd_of raw = 0) into Er. by rewrite Er.
Qed.

(** The return address stack is a stack of 16 entries.  A predicted call
    pushes its fall-through address and drops the oldest entry when full; a
    predicted return takes its target from the top and pops it; a return on an
    empty stack and every other instruction leave it alone. *)
Theorem ras_bounded_stack bp pc raw : bp_wf bp ->
  let '(r, bp') := bpred_predict bp pc raw in
  if is_ret raw then
    match ras_stack bp with
    | t :: st => r = mkBPR true t true /\ ras_stack bp' = st
    | [] => ras_stack bp' = []
    end
  else if is_call raw then ras_stack bp' = take 16 ((pc + 4)%word :: ras_stack bp)
  else ras_stack bp' = ras_stack bp.
Proof.
  intros Hw. unfold bpred_predict. destruct (is_ret raw) eqn:Er.
  - rewrite (is_ret_not_call raw Er). cbn [andb]. destruct (Z.ltb_spec 0 (ras_count bp)) as [Hc|Hc].
    + destruct (ras_stack bp) as [|t st] eqn:Es.
      { apply (f_equal length) in Es. unfold ras_stack in Es. rewrite length_fmap, length_seqZ_from in Es.
        cbn in Es. lia. }
      pose proof (ras_stack_lookup bp 0) as E0. rewrite Es, decide_True in E0 by lia. cbn in E0.
      destruct Hw as [_ _ _ _ _ _ _ _ _ _ _ Ht _]. unfold RAS_SIZE in Ht.
      rewrite Z.sub_0_r, (Z.mod_small (ras_top bp)) in E0 by lia. injection E0 as ->. split; [done |].
      apply list_eq. intros k. pose proof (ras_stack_lookup bp (S k)) as Ek. rewrite Es in Ek.
      change ((arr (ras bp) (ras_top bp) :: st) !! S k) with (st !! k) in Ek. rewrite Ek, ras_stack_lookup.
      cbn [ras ras_top ras_count]. rewrite rem16 by (unfold RAS_SIZE; lia).
      destruct (decide (S k < Z.to_nat (ras_count bp))%nat).
      * rewrite decide_True by lia. do 2 f_equal. rewrite Zminus_mod_idemp_l. unfold RAS_SIZE.
        replace (ras_top bp - 1 + 16 - Z.of_nat k) with (ras_top bp - Z.of_nat (S k) + 1 * 16) by lia.
        by rewrite Z.mod_add.
      * by rewrite decide_False by lia.
    + assert (E0 : ras_stack bp = []).
      { unfold ras_stack. replace (ras_count bp) with 0; [done |]. destruct Hw. lia. }
      by rewrite E0.
  - cbn [andb]. cbv zeta. case_if; [by apply ras_stack_push | done].
Qed.

(** [jal ra, _] then [ret]. *)
Lemma ras_bounded_stack_witness :
  let bp := (bpred_predict bpred_init 0x80000000 0x000000ef).2 in
  ras_stack bp = [0x80000004].
Proof.
  pose proof (ras_bounded_stack bpred_init 0x80000000 0x000000ef bpred_init_wf) as H.
  destruct (bpred_predict bpred_init 0x80000000 0x000000ef) as [r bp]. exact H.
Defined.

(** ** Learning *)

(** Only [btb_learn] touches the target buffer. *)
Lemma btb_after bp ir pc : btb_entry (bpred_update bp ir) pc =
  if is_control (ir_type ir) && negb (ir_dnpc ir =? ir_snpc ir)
  then arr (upd (btb bp) (btb_idx (ir_pc ir)) (mkBTB (Z.shiftr (ir_pc ir) 11) (ir_dnpc ir) true)) (btb_idx pc)
  else btb_entry bp pc.
Proof.
  unfold bpred_update, btb_entry. destruct (is_control (ir_type ir)); [| done]. cbn [negb andb].
  cbv zeta. by destruct (negb (ir_dnpc ir =? ir_snpc ir)).
Qed.

(** The two low bits of a pc aside, index and tag determine it. *)
Lemma idx_tag_inj pc pc' : is_word pc -> is_word pc' -> btb_idx pc = btb_idx pc' ->
  Z.shiftr pc 11 = Z.shiftr pc' 11 -> pc / 4 = pc' / 4.
Proof.
  unfold is_word. intros Hp Hp'. unfold btb_idx, BTB_SIZE. change (512 - 1) with (2 ^ 9 - 1).
  rewrite !land_ones_mod, !Z.shiftr_div_pow2 by lia. change (2 ^ 11) with (4 * 512).
  rewrite <- !Z.div_div by lia. change (2 ^ 2) with 4. change (2 ^ 9) with 512.
  intros E1 E2. rewrite (Z.div_mod (pc / 4) 512), (Z.div_mod (pc' / 4) 512) by lia. by rewrite E1, E2.
Qed.

(** The target buffer learns.  After a taken branch or jump has been
    trained, its own pc hits the buffer and yields the resolved target; a pc
    in another instruction slot hits the buffer afterwards only if it did
    before, and then with the same target; a branch that falls through
    changes nothing. *)
Theorem btb_learns bp ir pc : bp_wf bp -> is_word (ir_pc ir) -> is_word pc ->
  let bp' := bpred_update bp ir in
  (is_control (ir_type ir) = true -> ir_dnpc ir <> ir_snpc ir ->
     btb_matches bp' (ir_pc ir) = true /\ btb_target (btb_entry bp' (ir_pc ir)) = ir_dnpc ir) /\
  (pc / 4 <> ir_pc ir / 4 -> btb_matches bp' pc = true ->
     btb_matches bp pc = true /\ btb_target (btb_entry bp' pc) = btb_target (btb_entry bp pc)) /\
  (ir_dnpc ir = ir_snpc ir -> btb_entry bp' pc = btb_entry bp pc).
Proof.
  intros Hw Hi Hp bp'. pose proof (btb_idx_range (ir_pc ir)) as Hr. pose proof (btb_idx_range pc) as Hr'.
  assert (Hl : Z.of_nat (length (btb bp)) = 512) by (rewrite (bw_btb _ Hw); done).
  unfold BTB_SIZE in *. unfold bp', btb_matches. rewrite !btb_after. split; [| split].
  - intros Hc Hne. rewrite Hc. destruct (Z.eqb_spec (ir_dnpc ir) (ir_snpc ir)); [done |].
    cbn [negb andb]. rewrite arr_upd_eq by lia. cbn. by rewrite Z.eqb_refl.
  - intros Hne. case_if; [| done]. rewrite arr_upd by lia.
    destruct (Z.eqb_spec (btb_idx (ir_pc ir)) (btb_idx pc)) as [Ei|]; [| done]. cbn [btb_valid btb_tag andb].
    intros Et%Z.eqb_eq. destruct Hne. symmetry. by apply idx_tag_inj.
  - intros E. rewrite E, Z.eqb_refl, andb_false_r. done.
Qed.

Lemma btb_learns_witness :
  let ir := {| ir_zero with ir_type := ITYPE_BRANCH; ir_pc := 0x80000010; ir_snpc := 0x80000014;
                            ir_dnpc := 0x80000000 |} in
  btb_matches (bpred_update bpred_init ir) 0x80000010 = true.
Proof.
  cbv zeta. refine (proj1 (proj1 (btb_learns bpred_init _ 0x80000010 bpred_init_wf _ _) _ _));
    first [reflexivity | unfold is_word; cbn; lia | done].
Defined.

(** Two outcomes in a row settle a 2-bit counter, whatever it held. *)
Lemma two_outcomes a x : is_counter x -> (2 <=? sat_train a (sat_train a x)) = a.
Proof.
  unfold is_counter, sat_train, sat_inc, sat_dec. intros Hx.
  destruct a; repeat case_if; zify_bool; lia.
Qed.

(** The second predictor ignores history.  Its speculative history table
    is read but never written, so the direction it predicts is that of local
    counter 0 for every branch, whatever the predictor has been trained on;
    and its 32-bit tags make two pcs that differ only above bit 43 share an
    entry. *)
Theorem bpred2_ignores_history bp pc : is_word pc ->
  bpr_taken (bpred2_predict bp pc) = (2 <=? arr (lpht bp) 0) /\
  (pc + 2 ^ 43 < 2 ^ 64 -> bpred2_predict bp (pc + 2 ^ 43) = bpred2_predict bp pc).
Proof.
  intros Hp. unfold is_word in Hp.
  assert (Hs : forall q, arr spec_lht (lht_idx q) = 0).
  { intros q. apply arr_replicate. pose proof (lht_idx_range q). unfold LHT_SIZE in *. lia. }
  unfold bpred2_predict. rewrite !Hs. split; [done |]. intros Hlt.
  assert (Ei : btb_idx (pc + 2 ^ 43) = btb_idx pc).
  { unfold btb_idx, BTB_SIZE. change (512 - 1) with (2 ^ 9 - 1).
    rewrite !land_ones_mod, !Z.shiftr_div_pow2 by lia.
    replace (pc + 2 ^ 43) with (pc + 2 ^ 41 * 2 ^ 2) by lia. rewrite Z.div_add by lia.
    change (2 ^ 41) with (2 ^ 32 * 2 ^ 9). by rewrite Z.mod_add by lia. }
  assert (Et : tag32 (pc + 2 ^ 43) = tag32 pc).
  { unfold tag32, wrap32. rewrite !Z.shiftr_div_pow2 by lia.
    replace (pc + 2 ^ 43) with (pc + 2 ^ 32 * 2 ^ 11) by lia. rewrite Z.div_add by lia.
    rewrite <- (Z.mul_1_l (2 ^ 32)) at 1. by rewrite Z.mod_add by lia. }
  unfold btb_matches2, btb_entry. by rewrite Ei, Et.
Qed.

Lemma bpred2_ignores_history_witness :
  bpr_taken (bpred2_predict bpred_init 0x80000000) = false.
Proof.
  rewrite (proj1 (bpred2_ignores_history bpred_init 0x80000000 ltac:(unfold is_word; lia))). reflexivity.
Defined.
