(* ===== verification/Pipeline.v ===== *)
(** * The five-stage pipeline (src/cpu/pipeline.c, include/cpu/pipeline.h)

    Four latches held in four slots; each clock runs the stages from WB back
    to IF on the slots and then rotates the latch pointers.  [PipeWorld] is the
    machine with the globals of pipeline.c.  The theorems: the pointers always
    name four different slots and a bubble is really empty; the operands that
    leave ID are those of the register file with every older instruction
    completed; a cache-miss stall freezes the pipeline for exactly the
    latency of the access. *)

From S2P Require Import Prelude Word State Pmp Csr Cache CacheSet CacheSpec CacheRefine Coherence Mmio Mem Ftrace Vmem VmemSpec Decode Ir IrSpec Exec Isa Bpred.

(** ** Data *)

Record PipeReg := mkPipeReg {
  pr_ir : IR_Inst;
  pr_valid : bool;
}.

#[export] Instance PipeReg_inhabited : Inhabited PipeReg := populate (mkPipeReg ir_zero false).

(** The latch pointers are indices into [slots]. *)
Record Pipeline := mkPipeline {
  p_id : Z;
  p_ex : Z;
  p_mem : Z;
  p_wb : Z;
  slots : list PipeReg;
  fetch_pc : Z;
  mem_stall_rem : Z;
}.

Record PipeStats := mkPipeStats {
  ps_cycles : Z;
  ps_insts : Z;
  stall_load_use : Z;
  stall_control : Z;
  stall_cache_miss : Z;
}.

Record PipeWorld := mkPipeWorld {
  mach : Mach;
  cpu_pipe : Pipeline;
  pipe_stats : PipeStats;
  g_pipe_stalled : bool;
  g_fetch_slot : Z;
  bpred : BranchPredictor;
  g_bpred_mode : bool;
  g_difftest_en : bool;
  diff_cpu : CPU_state;
  diff_init : bool;
  diff_junk : IR_Inst;      (** what the uninitialised [diff_ir] holds *)
}.

Definition zero_stats : PipeStats := mkPipeStats 0 0 0 0 0.

(** Access to a latch. *)
Definition latch (p : Z) (w : PipeWorld) : PipeReg := arr (slots (cpu_pipe w)) p.
Definition put_pipe (p : Pipeline) (w : PipeWorld) : PipeWorld := {| w with cpu_pipe := p |}.
Definition put_latch (p : Z) (r : PipeReg) (w : PipeWorld) : PipeWorld :=
  let pp := cpu_pipe w in put_pipe {| pp with slots := upd (slots pp) p r |} w.
Definition put_ir (p : Z) (ir : IR_Inst) (w : PipeWorld) : PipeWorld :=
  let r := latch p w in put_latch p {| r with pr_ir := ir |} w.
Definition put_valid (p : Z) (v : bool) (w : PipeWorld) : PipeWorld :=
  let r := latch p w in put_latch p {| r with pr_valid := v |} w.
Definition put_mach (m : Mach) (w : PipeWorld) : PipeWorld := {| w with mach := m |}.
Definition put_stats (s : PipeStats) (w : PipeWorld) : PipeWorld := {| w with pipe_stats := s |}.
Definition put_fetch_pc (pc : Z) (w : PipeWorld) : PipeWorld :=
  let pp := cpu_pipe w in put_pipe {| pp with fetch_pc := pc |} w.

Definition put_bpred (bp : BranchPredictor) (w : PipeWorld) : PipeWorld := {| w with bpred := bp |}.
Definition put_stalled (b : bool) (w : PipeWorld) : PipeWorld := {| w with g_pipe_stalled := b |}.

Definition put_fetch_slot (p : Z) (w : PipeWorld) : PipeWorld := {| w with g_fetch_slot := p |}.

Arguments put_fetch_slot : simpl never.
Arguments put_bpred : simpl never.
Arguments put_stalled : simpl never.
Arguments latch : simpl never.
Arguments put_pipe : simpl never.
Arguments put_latch : simpl never.
Arguments put_ir : simpl never.
Arguments put_valid : simpl never.
Arguments put_mach : simpl never.
Arguments put_stats : simpl never.
Arguments put_fetch_pc : simpl never.

(** ** pipeline_init *)

Definition pipeline_init (w : PipeWorld) : PipeWorld :=
  let pp := cpu_pipe w in
  let empty (r : PipeReg) := {| r with pr_valid := false |} in
  {| w with cpu_pipe := {| p_id := 0; p_ex := 1; p_mem := 2; p_wb := 3;
                           slots := empty <$> slots pp;
                           fetch_pc := pc (cpu (mach w)); mem_stall_rem := 0 |};
            pipe_stats := zero_stats;
            bpred := if g_bpred_mode w then bpred_init else bpred w |}.

(** ** difftest_step *)

(** [if (ir.rs1 > 0) ir.src1_val = gpr[ir.rs1]], and the same for [rs2] *)
Definition reread (g : list Z) (ir : IR_Inst) : IR_Inst :=
  let ir := if 0 <? ir_rs1 ir then {| ir with src1_val := arr g (ir_rs1 ir) |} else ir in
  if 0 <? ir_rs2 ir then {| ir with src2_val := arr g (ir_rs2 ir) |} else ir.

(** The reference CPU is copied before the first commit. *)
Definition diff_start (committed : IR_Inst) (w : PipeWorld) : PipeWorld :=
  if diff_init w then w else
  let c := cpu (mach w) in
  {| w with diff_cpu := set_pc (ir_pc committed) c; diff_init := true |}.

(** The reference step executes with [diff_cpu] as the CPU argument, but on the
    same memory, devices and CSRs. *)
Definition difftest_step (committed : IR_Inst) (w : PipeWorld) : Res PipeWorld :=
  if negb (g_difftest_en w) then Ok w else
  let w := diff_start committed w in
  _ ← ensure Assertion (ir_pc committed =? pc (diff_cpu w));
  let m := mach w in
  let ir := ir_decode (gpr (cpu m)) (ir_raw committed) (ir_pc committed) (ir_pc committed + 4)%word
              (diff_junk w) in
  let ir := reread (gpr (diff_cpu w)) ir in
  '(ir, m1) ← ir_execute ir (set_cpu (diff_cpu w) m);
  '(ir, _, m2) ← ir_mem_access false ir m1;
  dc ← ir_writeback ir (cpu m2);
  let dc := set_pc (ir_dnpc ir) dc in
  let is_csr := Z.land (ir_raw committed) 0x7f =? 0x73 in
  _ ← ensure Assertion (negb ((0 <? ir_rd committed) && negb is_csr &&
                              negb (ir_result committed =? ir_result ir)));
  let dc := if (0 <? ir_rd committed) && is_csr
            then {| dc with gpr := upd (gpr dc) (ir_rd committed) (ir_result committed) |} else dc in
  Ok {| w with mach := set_cpu (cpu m) m2; diff_cpu := dc |}.

(** ** Stages *)

Definition stage_WB (w : PipeWorld) : Res PipeWorld :=
  let wb := p_wb (cpu_pipe w) in
  if negb (pr_valid (latch wb w)) then Ok w else
  let ir := pr_ir (latch wb w) in
  w ← difftest_step ir w;
  c ← ir_writeback ir (cpu (mach w));
  let w := put_mach (set_cpu (set_pc (ir_dnpc ir) c) (mach w)) w in
  let s := pipe_stats w in
  Ok (put_valid wb false (put_stats {| s with ps_insts := (ps_insts s + 1)%word |} w)).

Definition stage_MEM (w : PipeWorld) : Res PipeWorld :=
  let me := p_mem (cpu_pipe w) in
  if negb (pr_valid (latch me w)) then Ok w else
  '(ir, lat, m) ← ir_mem_access true (pr_ir (latch me w)) (mach w);
  let w := put_ir me ir (put_mach m w) in
  let lat := default 0 lat in
  if (1 <? lat) && bool_decide (ir_type ir = ITYPE_LOAD) then
    let pp := cpu_pipe w in
    let s := pipe_stats w in
    Ok (put_stats {| s with stall_cache_miss := (stall_cache_miss s + (lat - 1))%word |}
          (put_pipe {| pp with mem_stall_rem := lat - 1 |} w))
  else Ok w.

(** [op5 == 0x18 || op5 == 0x1b || op5 == 0x19] *)
Definition is_control_op (raw : Z) : bool :=
  let op5 := Z.land (Z.shiftr raw 2) 0x1f in
  (op5 =? 0x18) || (op5 =? 0x1b) || (op5 =? 0x19).

(** Kill the instruction in ID and the fetch slot, and redirect the fetch. *)
Definition flush (pc : Z) (w : PipeWorld) : PipeWorld :=
  put_fetch_pc pc (put_valid (g_fetch_slot w) false (put_valid (p_id (cpu_pipe w)) false w)).

Definition stage_EX (w : PipeWorld) : Res PipeWorld :=
  let ex := p_ex (cpu_pipe w) in
  if negb (pr_valid (latch ex w)) then Ok w else
  '(ir, m) ← ir_execute (pr_ir (latch ex w)) (mach w);
  let m := if fault ir then set_sim (INV (ir_pc ir) (sim (bus m))) m else m in
  let w := put_ir ex ir (put_mach m w) in
  if g_bpred_mode w then
    let w := if is_control_op (ir_raw ir) then put_bpred (bpred_update (bpred w) ir) w else w in
    if negb (ir_dnpc ir =? bp_predicted_pc ir) then Ok (flush (ir_dnpc ir) w) else Ok w
  else
    if negb (ir_dnpc ir =? ir_snpc ir) then
      let w := flush (ir_dnpc ir) w in
      let s := pipe_stats w in
      Ok (put_stats {| s with stall_control := (stall_control s + 1)%word |} w)
    else Ok w.

(** [if (src->rd == ir->rs1) ir->src1_val = src->result], and [rs2] *)
Definition forward (src ir : IR_Inst) : IR_Inst :=
  let ir := if ir_rd src =? ir_rs1 ir then {| ir with src1_val := ir_result src |} else ir in
  if ir_rd src =? ir_rs2 ir then {| ir with src2_val := ir_result src |} else ir.

(** The load-use hazard. *)
Definition load_use (ex : PipeReg) (ir : IR_Inst) : bool :=
  pr_valid ex && bool_decide (ir_type (pr_ir ex) = ITYPE_LOAD) && (0 <? ir_rd (pr_ir ex)) &&
  ((ir_rd (pr_ir ex) =? ir_rs1 ir) || (ir_rd (pr_ir ex) =? ir_rs2 ir)).

Definition stage_ID (w : PipeWorld) : PipeWorld :=
  let id := p_id (cpu_pipe w) in
  if negb (pr_valid (latch id w)) then w else
  let ex := latch (p_ex (cpu_pipe w)) w in
  let me := latch (p_mem (cpu_pipe w)) w in
  let ir := reread (gpr (cpu (mach w))) (pr_ir (latch id w)) in
  if load_use ex ir then
    let w := put_ir id ir w in
    let s := pipe_stats w in
    let w := put_stats {| s with stall_load_use := (stall_load_use s + 1)%word |} w in
    put_stalled true w
  else
    let ir := if pr_valid me && (0 <? ir_rd (pr_ir me)) then forward (pr_ir me) ir else ir in
    let ir := if pr_valid ex && (0 <? ir_rd (pr_ir ex)) && negb (bool_decide (ir_type (pr_ir ex) = ITYPE_LOAD))
              then forward (pr_ir ex) ir else ir in
    put_ir id ir w.

Definition stage_IF (w : PipeWorld) : Res PipeWorld :=
  if g_pipe_stalled w then Ok w else
  let pc := fetch_pc (cpu_pipe w) in
  let fs := g_fetch_slot w in
  '(v, m) ← vaddr_ifetch pc 4 (mach w);
  let raw := wrap32 v in
  let snpc := (pc + 4)%word in
  let ir := ir_decode (gpr (cpu m)) raw pc snpc (pr_ir (latch fs w)) in
  let ir := {| ir with bp_predict_taken := false; bp_predicted_pc := snpc |} in
  let w := put_fetch_pc snpc (put_latch fs (mkPipeReg ir true) (put_mach m w)) in
  if g_bpred_mode w && is_control_op raw then
    let '(r, bp) := bpred_predict (bpred w) pc raw in
    let go := bpr_taken r && bpr_btb_hit r in
    let ir := {| ir with bp_predict_taken := bpr_taken r;
                         bp_predicted_pc := if go then bpr_target r else snpc |} in
    let w := put_latch fs (mkPipeReg ir true) (put_bpred bp w) in
    Ok (if go then put_fetch_pc (bpr_target r) w else w)
  else Ok w.

(** ** pipeline_cycle *)

Definition rotate (stalled : bool) (fs : Z) (pp : Pipeline) : Pipeline :=
  if negb stalled
  then {| pp with p_wb := p_mem pp; p_mem := p_ex pp; p_ex := p_id pp; p_id := fs |}
  else {| pp with p_wb := p_mem pp; p_mem := p_ex pp; p_ex := fs |}.

Definition count_cycle (w : PipeWorld) : PipeWorld :=
  let s := pipe_stats w in
  let m := mach w in
  put_mach {| m with g_sim_cycles := (g_sim_cycles m + 1)%word |}
    (put_stats {| s with ps_cycles := (ps_cycles s + 1)%word |} w).

(** The five stages and the rotation. *)
Definition run_stages (w : PipeWorld) : Res PipeWorld :=
  let w := put_fetch_slot (p_wb (cpu_pipe w)) w in
  w ← stage_WB w;
  w ← stage_MEM w;
  w ← stage_EX w;
  w ← stage_IF (stage_ID w);
  Ok (put_pipe (rotate (g_pipe_stalled w) (g_fetch_slot w) (cpu_pipe w)) w).

Definition pipeline_cycle (w : PipeWorld) : Res PipeWorld :=
  let pp := cpu_pipe w in
  if 0 <? mem_stall_rem pp then
    Ok (count_cycle (put_pipe {| pp with mem_stall_rem := mem_stall_rem pp - 1 |} w))
  else
    w ← run_stages (put_stalled false w);
    let w := count_cycle w in
    let m := mach w in
    Ok (put_mach {| m with g_sim_instret := ps_insts (pipe_stats w) |} w).

(** ** The latch pointers *)

Record pipe_wf (w : PipeWorld) : Prop := {
  pw_slots : length (slots (cpu_pipe w)) = 4%nat;
  pw_nodup : NoDup [p_id (cpu_pipe w); p_ex (cpu_pipe w); p_mem (cpu_pipe w); p_wb (cpu_pipe w)];
  pw_range : Forall (fun p => 0 <= p < 4)
    [p_id (cpu_pipe w); p_ex (cpu_pipe w); p_mem (cpu_pipe w); p_wb (cpu_pipe w)];
}.

(** What the stages leave alone. *)
Record stage_frame (w w' : PipeWorld) : Prop := {
  sf_id : p_id (cpu_pipe w') = p_id (cpu_pipe w);
  sf_ex : p_ex (cpu_pipe w') = p_ex (cpu_pipe w);
  sf_mem : p_mem (cpu_pipe w') = p_mem (cpu_pipe w);
  sf_wb : p_wb (cpu_pipe w') = p_wb (cpu_pipe w);
  sf_len : length (slots (cpu_pipe w')) = length (slots (cpu_pipe w));
  sf_fs : g_fetch_slot w' = g_fetch_slot w;
  sf_mode : g_bpred_mode w' = g_bpred_mode w;
}.

#[export] Instance stage_frame_preorder : PreOrder stage_frame.
Proof.
  split; [done |]. intros a b c [? ? ? ? ? ? ?] [? ? ? ? ? ? ?]. split; congruence.
Qed.

(** Two worlds that agree on a latch. *)
Definition same_latch (p : Z) (w w' : PipeWorld) : Prop := latch p w' = latch p w.

Lemma put_latch_frame p r w : stage_frame w (put_latch p r w).
Proof. split; try done. apply length_upd. Qed.
Lemma put_ir_frame p ir w : stage_frame w (put_ir p ir w).
Proof. apply put_latch_frame. Qed.
Lemma put_valid_frame p v w : stage_frame w (put_valid p v w).
Proof. apply put_latch_frame. Qed.
Lemma put_mach_frame m w : stage_frame w (put_mach m w).
Proof. done. Qed.
Lemma put_stats_frame s w : stage_frame w (put_stats s w).
Proof. done. Qed.
Lemma put_fetch_pc_frame pc w : stage_frame w (put_fetch_pc pc w).
Proof. done. Qed.

#[local] Hint Resolve put_latch_frame put_ir_frame put_valid_frame put_mach_frame put_stats_frame
  put_fetch_pc_frame : emu.

Lemma latch_put_eq p r w : 0 <= p < Z.of_nat (length (slots (cpu_pipe w))) -> latch p (put_latch p r w) = r.
Proof. intros Hp. unfold latch. by apply arr_upd_eq. Qed.
Lemma latch_put_ne p q r w : 0 <= q -> p <> q -> latch q (put_latch p r w) = latch q w.
Proof. intros Hq Hne. unfold latch. by apply arr_upd_ne. Qed.

(** The pointers of a well-formed pipeline, one by one. *)
Lemma pipe_ptrs w : pipe_wf w ->
  let pp := cpu_pipe w in
  (0 <= p_id pp < 4 /\ 0 <= p_ex pp < 4 /\ 0 <= p_mem pp < 4 /\ 0 <= p_wb pp < 4) /\
  (p_id pp <> p_ex pp /\ p_id pp <> p_mem pp /\ p_id pp <> p_wb pp /\ p_ex pp <> p_mem pp /\
   p_ex pp <> p_wb pp /\ p_mem pp <> p_wb pp).
Proof.
  intros [_ Hn Hr]. cbv zeta. rewrite !Forall_cons in Hr. destruct Hr as (? & ? & ? & ? & _).
  split; [done |]. rewrite !NoDup_cons, !not_elem_of_cons in Hn.
  by destruct Hn as ((? & ? & ? & _) & (? & ? & _) & (? & _) & _).
Qed.

Lemma pipe_wf_frame w w' : stage_frame w w' -> pipe_wf w -> pipe_wf w'.
Proof.
  intros [E1 E2 E3 E4 El _ _] [Hs Hn Hr]. split; rewrite ?E1, ?E2, ?E3, ?E4; [by rewrite El | done | done].
Qed.

Lemma difftest_frame ir w w' : difftest_step ir w = Ok w' -> stage_frame w w' /\ (forall p, same_latch p w w') /\
  pipe_stats w' = pipe_stats w /\ cpu (mach w') = cpu (mach w).
Proof.
  assert (Hs : stage_frame w (diff_start ir w) /\ (forall p, same_latch p w (diff_start ir w)) /\
    pipe_stats (diff_start ir w) = pipe_stats w /\ cpu (mach (diff_start ir w)) = cpu (mach w))
    by (unfold diff_start; by destruct (diff_init w)).
  unfold difftest_step. destruct (negb (g_difftest_en w)); intros H; [by inv_res |].
  cbv zeta in H. set (w1 := diff_start ir w) in *. clearbody w1.
  inv_pairs. destruct Hs as (Hf & Hl & Hp & Hc). split; [by transitivity w1 |]. done.
Qed.

Lemma WB_frame w w' : stage_WB w = Ok w' -> stage_frame w w'.
Proof.
  unfold stage_WB. cbv zeta. case_if; [intros; by simplify_eq |].
  destruct (difftest_step _ _) as [w1|] eqn:Ed; [| done]. cbn [mbind Res_bind].
  apply difftest_frame in Ed as [Hf _]. destruct (ir_writeback _ _) as [c|]; [| done].
  cbn [mbind Res_bind]. intros H. injection H as <-.
  etransitivity; [exact Hf |]. etransitivity; [| apply put_valid_frame]. done.
Qed.

Lemma MEM_frame w w' : stage_MEM w = Ok w' -> stage_frame w w'.
Proof.
  unfold stage_MEM. cbv zeta. case_if; [intros; by simplify_eq |].
  destruct (ir_mem_access _ _ _) as [[[ir lat] m]|]; [| done]. cbn [mbind Res_bind].
  set (w1 := put_ir _ _ _). assert (Hf : stage_frame w w1) by (transitivity (put_mach m w); [done | apply put_ir_frame]).
  clearbody w1. case_if; intros H; injection H as <-; (etransitivity; [exact Hf | done]).
Qed.

Lemma flush_frame pc w : stage_frame w (flush pc w).
Proof.
  unfold flush. etransitivity; [apply put_valid_frame |]. etransitivity; [apply put_valid_frame | done].
Qed.

Lemma EX_frame w w' : stage_EX w = Ok w' -> stage_frame w w'.
Proof.
  unfold stage_EX. cbv zeta. case_if; [intros; by simplify_eq |].
  destruct (ir_execute _ _) as [[ir m]|]; [| done]. cbn [mbind Res_bind].
  set (m' := if fault ir then _ else _). set (w1 := put_ir _ _ _).
  assert (Hf : stage_frame w w1) by (transitivity (put_mach m' w); [done | apply put_ir_frame]). clearbody w1.
  assert (Hb : forall bp, stage_frame w1 (put_bpred bp w1)) by done.
  intros H. etransitivity; [exact Hf |]. clear Hf.
  repeat case_if_in H; injection H as <-;
    first [done | apply flush_frame | etransitivity; [| apply flush_frame]; done
           | etransitivity; [apply flush_frame | done]].
Qed.

Lemma ID_frame w : stage_frame w (stage_ID w).
Proof.
  unfold stage_ID. cbv zeta. case_if; [done |]. case_if; [| apply put_ir_frame].
  etransitivity; [apply put_ir_frame | done].
Qed.

Lemma IF_frame w w' : stage_IF w = Ok w' -> stage_frame w w'.
Proof.
  unfold stage_IF. cbv zeta. case_if; [intros; by simplify_eq |].
  destruct (vaddr_ifetch _ _ _) as [[v m]|]; [| done]. cbn [mbind Res_bind].
  set (w1 := put_fetch_pc _ _). intros H.
  assert (Hf : stage_frame w w1)
    by (transitivity (put_mach m w); [done |]; etransitivity; [apply put_latch_frame | done]).
  etransitivity; [exact Hf |]. clearbody w1. clear Hf. case_if_in H; [| by injection H as <-].
  destruct (bpred_predict _ _ _) as [r bp]. case_if_in H; injection H as <-.
  - transitivity (put_bpred bp w1); [done |]. etransitivity; [apply put_latch_frame | done].
  - transitivity (put_bpred bp w1); [done | apply put_latch_frame].
Qed.

Lemma run_stages_inv w w' : run_stages w = Ok w' -> exists w1 w2 w3 w4,
  let w0 := put_fetch_slot (p_wb (cpu_pipe w)) w in
  stage_WB w0 = Ok w1 /\ stage_MEM w1 = Ok w2 /\ stage_EX w2 = Ok w3 /\
  stage_IF (stage_ID w3) = Ok w4 /\ stage_frame w0 w4 /\
  w' = put_pipe (rotate (g_pipe_stalled w4) (p_wb (cpu_pipe w)) (cpu_pipe w4)) w4.
Proof.
  unfold run_stages. cbv zeta. set (w0 := put_fetch_slot _ w).
  destruct (stage_WB w0) as [w1|] eqn:E1; [| done]. cbn [mbind Res_bind].
  destruct (stage_MEM w1) as [w2|] eqn:E2; [| done]. cbn [mbind Res_bind].
  destruct (stage_EX w2) as [w3|] eqn:E3; [| done]. cbn [mbind Res_bind].
  destruct (stage_IF (stage_ID w3)) as [w4|] eqn:E4; [| done]. cbn [mbind Res_bind].
  intros H. injection H as <-. exists w1, w2, w3, w4.
  assert (Hf : stage_frame w0 w4).
  { etransitivity; [by eapply WB_frame |]. etransitivity; [by eapply MEM_frame |].
    etransitivity; [by eapply EX_frame |]. etransitivity; [apply ID_frame | by eapply IF_frame]. }
  repeat (split; [done |]). by rewrite (sf_fs _ _ Hf).
Qed.

Lemma rotate_wf w st fs : pipe_wf w -> fs = p_wb (cpu_pipe w) ->
  pipe_wf (put_pipe (rotate st fs (cpu_pipe w)) w).
Proof.
  intros Hw ->. pose proof (pipe_ptrs w Hw) as [(? & ? & ? & ?) (? & ? & ? & ? & ? & ?)].
  pose proof (pw_slots _ Hw).
  assert (Hp : forall pp, cpu_pipe (put_pipe pp w) = pp) by done.
  destruct st; split; rewrite ?Hp; cbn [rotate negb p_id p_ex p_mem p_wb slots]; try done.
  all: try (repeat (apply Forall_cons; split; [lia |]); by apply Forall_nil).
  all: rewrite !NoDup_cons, !not_elem_of_cons; repeat split; try done; try apply not_elem_of_nil;
    try apply NoDup_nil_2; congruence.
Qed.

Lemma pipeline_cycle_wf w w' : pipe_wf w -> pipeline_cycle w = Ok w' -> pipe_wf w'.
Proof.
  intros Hw. unfold pipeline_cycle. cbv zeta. case_if; [intros H; injection H as <-; by destruct Hw |].
  destruct (run_stages _) as [w1|] eqn:E1; [| done]. cbn [mbind Res_bind]. intros H. injection H as <-.
  apply run_stages_inv in E1 as (? & ? & ? & w4 & _ & _ & _ & _ & Hf & ->).
  assert (Hw4 : pipe_wf w4) by (eapply pipe_wf_frame; [exact Hf | by destruct Hw]).
  pose proof (rotate_wf w4 (g_pipe_stalled w4) _ Hw4 eq_refl) as Hr.
  rewrite (sf_wb _ _ Hf) in Hr. by destruct Hr.
Qed.

(** ** What each stage does to the latches *)

Section Latches.
Context (w w' : PipeWorld) (Hw : pipe_wf w).
Let pp := cpu_pipe w.

Lemma in_slots p : 0 <= p < 4 -> 0 <= p < Z.of_nat (length (slots (cpu_pipe w))).
Proof. rewrite (pw_slots _ Hw). lia. Qed.

Lemma put_valid_latch p v q : 0 <= p < 4 -> 0 <= q ->
  latch q (put_valid p v w) = if p =? q then mkPipeReg (pr_ir (latch p w)) v else latch q w.
Proof.
  intros Hp Hq. unfold put_valid. cbv zeta. destruct (Z.eqb_spec p q) as [<-|].
  - rewrite latch_put_eq by (by apply in_slots). done.
  - by rewrite latch_put_ne.
Qed.

Lemma put_ir_latch p ir q : 0 <= p < 4 -> 0 <= q ->
  latch q (put_ir p ir w) = if p =? q then mkPipeReg ir (pr_valid (latch p w)) else latch q w.
Proof.
  intros Hp Hq. unfold put_ir. cbv zeta. destruct (Z.eqb_spec p q) as [<-|].
  - rewrite latch_put_eq by (by apply in_slots). done.
  - by rewrite latch_put_ne.
Qed.
End Latches.

Lemma WB_latch w w' q : pipe_wf w -> 0 <= q -> stage_WB w = Ok w' ->
  pr_valid (latch (p_wb (cpu_pipe w)) w') = false /\
  (q <> p_wb (cpu_pipe w) -> latch q w' = latch q w) /\ g_pipe_stalled w' = g_pipe_stalled w.
Proof.
  intros Hw Hq. destruct (pipe_ptrs w Hw) as [(_ & _ & _ & Hp) _]. unfold stage_WB. cbv zeta. case_if.
  - intros H. injection H as <-. zify_bool. done.
  - destruct (difftest_step _ _) as [w1|] eqn:Ed; [| done]. cbn [mbind Res_bind].
    assert (Hst : g_pipe_stalled w1 = g_pipe_stalled w).
    { unfold difftest_step in Ed. case_if_in Ed; [by inv_res |]. cbv zeta in Ed.
      assert (Est : g_pipe_stalled (diff_start (pr_ir (latch (p_wb (cpu_pipe w)) w)) w) = g_pipe_stalled w)
        by (unfold diff_start; by destruct (diff_init w)).
      set (w2 := diff_start _ w) in *. clearbody w2. by inv_pairs. }
    apply difftest_frame in Ed as (Hf & Hl & _).
    destruct (ir_writeback _ _) as [c|]; [| done]. cbn [mbind Res_bind]. intros H. injection H as <-.
    set (w2 := put_stats _ _).
    assert (Hf2 : stage_frame w w2) by (etransitivity; [exact Hf | done]).
    assert (Hw2 : pipe_wf w2) by (by eapply pipe_wf_frame).
    assert (Hl2 : forall p, latch p w2 = latch p w) by (intros p; rewrite <- (Hl p); done).
    rewrite !put_valid_latch by (done || lia). rewrite Z.eqb_refl. split; [done | split].
    + intros Hne. destruct (Z.eqb_spec (p_wb (cpu_pipe w)) q); [congruence | apply Hl2].
    + exact Hst.
Qed.

Lemma MEM_latch w w' q : pipe_wf w -> 0 <= q -> stage_MEM w = Ok w' ->
  pr_valid (latch q w') = pr_valid (latch q w) /\
  (q <> p_mem (cpu_pipe w) -> latch q w' = latch q w) /\ g_pipe_stalled w' = g_pipe_stalled w.
Proof.
  intros Hw Hq. destruct (pipe_ptrs w Hw) as [(_ & _ & Hp & _) _]. unfold stage_MEM. cbv zeta.
  case_if; [intros H; by injection H as <- |].
  destruct (ir_mem_access _ _ _) as [[[ir lat] m]|]; [| done]. cbn [mbind Res_bind].
  set (w1 := put_ir _ _ _).
  assert (H1 : latch q w1 = if p_mem (cpu_pipe w) =? q
                            then mkPipeReg ir (pr_valid (latch (p_mem (cpu_pipe w)) w)) else latch q w).
  { unfold w1. rewrite put_ir_latch; [done | | done | done]. eapply pipe_wf_frame; [| exact Hw]. done. }
  assert (H2 : g_pipe_stalled w1 = g_pipe_stalled w) by done. clearbody w1.
  assert (Hq1 : pr_valid (latch q w1) = pr_valid (latch q w) /\
    (q <> p_mem (cpu_pipe w) -> latch q w1 = latch q w)).
  { rewrite H1. destruct (Z.eqb_spec (p_mem (cpu_pipe w)) q) as [<-|]; [split; [done | congruence] | done]. }
  destruct Hq1 as [Ev El]. case_if; intros H; injection H as <-; (split; [| split; [| done]]).
  all: first [exact Ev | exact El].
Qed.

Lemma EX_latch w w' q : pipe_wf w -> g_fetch_slot w = p_wb (cpu_pipe w) -> 0 <= q -> stage_EX w = Ok w' ->
  g_pipe_stalled w' = g_pipe_stalled w /\
  (q = p_mem (cpu_pipe w) -> latch q w' = latch q w) /\
  (q = p_wb (cpu_pipe w) -> pr_valid (latch q w) = false -> pr_valid (latch q w') = false).
Proof.
  intros Hw Hfs Hq. destruct (pipe_ptrs w Hw) as [(Hi & He & Hm & Hb) (? & ? & ? & ? & ? & ?)].
  unfold stage_EX. cbv zeta. case_if; [intros Heq; by injection Heq as <- |].
  destruct (ir_execute _ _) as [[ir m]|]; [| done]. cbn [mbind Res_bind].
  set (m' := if fault ir then _ else _). set (w1 := put_ir _ _ _).
  assert (Hf1 : stage_frame w w1) by (transitivity (put_mach m' w); [done | apply put_ir_frame]).
  assert (Hw1 : pipe_wf w1) by (by eapply pipe_wf_frame).
  assert (Hq1 : q <> p_ex (cpu_pipe w) -> latch q w1 = latch q w).
  { intros Hne. unfold w1. rewrite put_ir_latch; [| by eapply pipe_wf_frame; [| exact Hw] | done | done].
    destruct (Z.eqb_spec (p_ex (cpu_pipe w)) q); [congruence | done]. }
  assert (Hst : g_pipe_stalled w1 = g_pipe_stalled w) by done.
  assert (Hfl : forall w2 pc, stage_frame w w2 -> (forall p, latch p w2 = latch p w1) ->
    g_pipe_stalled w2 = g_pipe_stalled w ->
    g_pipe_stalled (flush pc w2) = g_pipe_stalled w /\
    (q = p_mem (cpu_pipe w) -> latch q (flush pc w2) = latch q w) /\
    (q = p_wb (cpu_pipe w) -> pr_valid (latch q w) = false -> pr_valid (latch q (flush pc w2)) = false)).
  { intros w2 pc Hf2 Hl2 Hs2. assert (Hw2 : pipe_wf w2) by (by eapply pipe_wf_frame).
    destruct Hf2 as [Ei _ _ _ _ Ef _]. split; [done |].
    assert (El : latch q (flush pc w2) =
      if p_wb (cpu_pipe w) =? q
      then mkPipeReg (pr_ir (latch (p_wb (cpu_pipe w)) (put_valid (p_id (cpu_pipe w2)) false w2))) false
      else if p_id (cpu_pipe w) =? q then mkPipeReg (pr_ir (latch (p_id (cpu_pipe w)) w2)) false
      else latch q w2).
    { unfold flush. change (latch q (put_fetch_pc ?p ?x)) with (latch q x). rewrite Ef, Hfs, Ei.
      rewrite put_valid_latch; [| | done | done].
      - destruct (p_wb (cpu_pipe w) =? q); [done |]. by rewrite put_valid_latch.
      - eapply pipe_wf_frame; [apply put_valid_frame | done]. }
    rewrite El. split.
    - intros ->. destruct (Z.eqb_spec (p_wb (cpu_pipe w)) (p_mem (cpu_pipe w))); [congruence |].
      destruct (Z.eqb_spec (p_id (cpu_pipe w)) (p_mem (cpu_pipe w))); [congruence |].
      rewrite Hl2. apply Hq1. congruence.
    - intros ->. by rewrite Z.eqb_refl. }
  assert (Hid : g_pipe_stalled w1 = g_pipe_stalled w /\ (q = p_mem (cpu_pipe w) -> latch q w1 = latch q w) /\
    (q = p_wb (cpu_pipe w) -> pr_valid (latch q w) = false -> pr_valid (latch q w1) = false)).
  { split; [done |]. split; intros ->; rewrite Hq1; congruence. }
  clearbody w1. pose proof (fun pc => Hfl w1 pc Hf1 (fun _ => eq_refl) Hst) as Hfl1.
  assert (Hfb : forall bp, stage_frame w (put_bpred bp w1)) by (intros bp; transitivity w1; done).
  pose proof (fun bp pc => Hfl (put_bpred bp w1) pc (Hfb bp) (fun _ => eq_refl) Hst) as Hfl2.
  intros H'. repeat case_if_in H'; injection H' as <-;
    first [exact Hid | exact (Hfl1 _) | exact (Hfl2 _ _)].
Qed.

(** A stall is signalled only with an instruction in ID, and IF then does nothing. *)
Lemma ID_stalled w : pipe_wf w -> g_pipe_stalled w = false -> g_pipe_stalled (stage_ID w) = true ->
  pr_valid (latch (p_id (cpu_pipe w)) (stage_ID w)) = true /\
  forall q, 0 <= q -> pr_valid (latch q (stage_ID w)) = pr_valid (latch q w).
Proof.
  intros Hw Hns. destruct (pipe_ptrs w Hw) as [(Hi & _) _].
  unfold stage_ID. cbv zeta. destruct (pr_valid (latch (p_id (cpu_pipe w)) w)) eqn:Ev; cbn [negb]; [| congruence].
  case_if; [intros _ | intros Hc; change (g_pipe_stalled w = true) in Hc; congruence].
  set (ir := reread _ _). set (s := pipe_stats _).
  assert (Hl : forall q, 0 <= q -> pr_valid (latch q (put_ir (p_id (cpu_pipe w)) ir w)) = pr_valid (latch q w)).
  { intros q Hq. rewrite put_ir_latch by done. destruct (Z.eqb_spec (p_id (cpu_pipe w)) q) as [<-|]; done. }
  split; [| exact Hl]. rewrite <- Ev. apply Hl. lia.
Qed.

Lemma IF_stalled w : g_pipe_stalled w = true -> stage_IF w = Ok w.
Proof. intros E. unfold stage_IF. by rewrite E. Qed.

Lemma IF_fetches w w' : pipe_wf w -> 0 <= g_fetch_slot w < 4 -> g_pipe_stalled w = false -> stage_IF w = Ok w' ->
  pr_valid (latch (g_fetch_slot w) w') = true /\ g_pipe_stalled w' = false.
Proof.
  intros Hw Hfs Hns. unfold stage_IF. rewrite Hns. cbv zeta.
  destruct (vaddr_ifetch _ _ _) as [[v m]|]; [| done]. cbn [mbind Res_bind].
  assert (Hin : 0 <= g_fetch_slot w < Z.of_nat (length (slots (cpu_pipe w)))) by (rewrite (pw_slots _ Hw); lia).
  assert (Hl : forall r x, length (slots (cpu_pipe x)) = length (slots (cpu_pipe w)) ->
    latch (g_fetch_slot w) (put_latch (g_fetch_slot w) r x) = r).
  { intros r x Hx. apply latch_put_eq. by rewrite Hx. }
  case_if.
  - destruct (bpred_predict _ _ _) as [r bp]. intros H.
    case_if_in H; injection H as <-; (split; [| exact Hns]);
      change (latch (g_fetch_slot w) (put_fetch_pc ?p ?x)) with (latch (g_fetch_slot w) x);
      rewrite Hl; try done; apply length_upd.
  - intros H. injection H as <-. split; [| exact Hns].
    change (latch (g_fetch_slot w) (put_fetch_pc ?p ?x)) with (latch (g_fetch_slot w) x). by rewrite Hl.
Qed.

Lemma ID_not_stalled w : g_pipe_stalled w = false -> forall w', stage_IF (stage_ID w) = Ok w' ->
  g_pipe_stalled w' = g_pipe_stalled (stage_ID w).
Proof.
  intros _ w' H. destruct (g_pipe_stalled (stage_ID w)) eqn:E.
  - rewrite IF_stalled in H by done. by injection H as <-.
  - unfold stage_IF in H. rewrite E in H. cbv zeta in H.
    destruct (vaddr_ifetch _ _ _) as [[v m]|]; [| done]. cbn [mbind Res_bind] in H.
    case_if_in H; [destruct (bpred_predict _ _ _) as [r bp]; case_if_in H |]; injection H as <-; exact E.
Qed.

(** The latches.  Every clock keeps the four latch pointers on four
    different slots.  After a clock that is not a cache-miss stall, either the
    pipeline advanced, and the newly fetched instruction sits in ID, or there
    was a load-use stall: then ID still holds its instruction and what entered
    EX is an empty slot. *)
Theorem pipeline_latches w w' : pipe_wf w -> pipeline_cycle w = Ok w' ->
  pipe_wf w' /\
  (mem_stall_rem (cpu_pipe w) <= 0 ->
     pr_valid (latch (p_id (cpu_pipe w')) w') = true /\
     (if g_pipe_stalled w' then p_id (cpu_pipe w') = p_id (cpu_pipe w) /\
                                pr_valid (latch (p_ex (cpu_pipe w')) w') = false
      else p_id (cpu_pipe w') = p_wb (cpu_pipe w) /\ p_ex (cpu_pipe w') = p_id (cpu_pipe w))).
Proof.
  intros Hw H. split; [by eapply pipeline_cycle_wf |]. intros Hr. unfold pipeline_cycle in H. cbv zeta in H.
  destruct (Z.ltb_spec 0 (mem_stall_rem (cpu_pipe w))); [lia |].
  destruct (run_stages _) as [wr|] eqn:E1; [| done]. cbn [mbind Res_bind] in H. injection H as <-.
  apply run_stages_inv in E1 as (w1 & w2 & w3 & w4 & E1 & E2 & E3 & E4 & Hf4 & ->).
  change (cpu_pipe (put_stalled false w)) with (cpu_pipe w) in *.
  set (w0 := put_fetch_slot _ _) in *.
  assert (Hw0 : pipe_wf w0) by (by destruct Hw).
  destruct (pipe_ptrs w Hw) as [(Hi & He & Hm & Hb) (? & ? & ? & ? & ? & ?)].
  pose proof (WB_frame _ _ E1) as Hf1. assert (Hw1 : pipe_wf w1) by (by eapply pipe_wf_frame).
  pose proof (MEM_frame _ _ E2) as Hf2. assert (Hw2 : pipe_wf w2) by (by eapply pipe_wf_frame).
  pose proof (EX_frame _ _ E3) as Hf3. assert (Hw3 : pipe_wf w3) by (by eapply pipe_wf_frame).
  assert (Hf03 : stage_frame w0 w3) by (transitivity w1; [done | by transitivity w2]).
  destruct (WB_latch w0 w1 (p_wb (cpu_pipe w)) Hw0 ltac:(lia) E1) as (Hv1 & _ & Hs1).
  destruct (MEM_latch w1 w2 (p_wb (cpu_pipe w)) Hw1 ltac:(lia) E2) as (Hv2 & _ & Hs2).
  destruct (EX_latch w2 w3 (p_wb (cpu_pipe w)) Hw2) as (Hs3 & _ & Hv3); [| lia | done |].
  { by rewrite (sf_fs _ _ Hf2), (sf_fs _ _ Hf1), (sf_wb _ _ Hf2), (sf_wb _ _ Hf1). }
  assert (Hns3 : g_pipe_stalled w3 = false) by (by rewrite Hs3, Hs2, Hs1).
  assert (Hwb3 : pr_valid (latch (p_wb (cpu_pipe w)) w3) = false).
  { apply Hv3; [by rewrite (sf_wb _ _ Hf2), (sf_wb _ _ Hf1) |]. rewrite Hv2. exact Hv1. }
  pose proof (ID_not_stalled w3 Hns3 w4 E4) as Hs4.
  pose proof (ID_frame w3) as Hfi. assert (Hwi : pipe_wf (stage_ID w3)) by (by eapply pipe_wf_frame).
  assert (Eid : p_id (cpu_pipe w4) = p_id (cpu_pipe w)) by apply Hf4.
  change (g_pipe_stalled (put_mach ?m ?x)) with (g_pipe_stalled x).
  change (g_pipe_stalled (count_cycle ?x)) with (g_pipe_stalled x).
  change (g_pipe_stalled (put_pipe ?m ?x)) with (g_pipe_stalled x).
  change (cpu_pipe (put_mach ?m (count_cycle (put_pipe ?p ?x)))) with p.
  change (latch ?q (put_mach ?m (count_cycle (put_pipe (rotate ?b ?f (cpu_pipe ?x)) ?y)))) with (arr (slots (rotate b f (cpu_pipe x))) q).
  assert (Hsl : forall b f, slots (rotate b f (cpu_pipe w4)) = slots (cpu_pipe w4)) by (by intros [] f).
  rewrite !Hsl, Hs4. destruct (g_pipe_stalled (stage_ID w3)) eqn:Est; cbn [rotate negb p_id p_ex].
  - rewrite IF_stalled in E4 by done. injection E4 as <-.
    destruct (ID_stalled w3 Hw3 Hns3 Est) as [Hv Hall]. rewrite (sf_id _ _ Hf03) in Hv. rewrite Eid.
    split; [exact Hv | split; [done |]]. specialize (Hall (p_wb (cpu_pipe w)) ltac:(lia)).
    rewrite Hwb3 in Hall. exact Hall.
  - assert (Hfs : g_fetch_slot (stage_ID w3) = p_wb (cpu_pipe w))
      by (rewrite (sf_fs _ _ Hfi); apply Hf03).
    destruct (IF_fetches (stage_ID w3) w4 Hwi) as [Hv _]; [by rewrite Hfs | done | done |].
    rewrite Hfs in Hv. split; [exact Hv | done].
Qed.

(** ** Operands *)

(** The register file once the instruction of a latch has completed. *)
Definition completed (r : PipeReg) (g : list Z) : list Z :=
  if pr_valid r && (0 <? ir_rd (pr_ir r)) then upd g (ir_rd (pr_ir r)) (ir_result (pr_ir r)) else g.

(** The value of source register [rs], [old] when the instruction has none. *)
Definition operand (rs old : Z) (g : list Z) : Z := if 0 <? rs then arr g rs else old.

Lemma reread_fields g ir : let d := reread g ir in
  ir_rs1 d = ir_rs1 ir /\ ir_rs2 d = ir_rs2 ir /\
  src1_val d = operand (ir_rs1 ir) (src1_val ir) g /\ src2_val d = operand (ir_rs2 ir) (src2_val ir) g.
Proof. unfold reread, operand. cbv zeta. by repeat (case_if; cbn in * ). Qed.

Lemma forward_fields src ir : let d := forward src ir in
  ir_rs1 d = ir_rs1 ir /\ ir_rs2 d = ir_rs2 ir /\
  src1_val d = (if ir_rd src =? ir_rs1 ir then ir_result src else src1_val ir) /\
  src2_val d = (if ir_rd src =? ir_rs2 ir then ir_result src else src2_val ir).
Proof. unfold forward. cbv zeta. by repeat (case_if; cbn in * ). Qed.

(** Forwarding an operand from a latch is reading it from the completed file. *)
Lemma operand_completed r rs old g : length g = 32%nat -> ir_rd (pr_ir r) < 32 -> rs < 32 ->
  operand rs old (completed r g) =
    if pr_valid r && (0 <? ir_rd (pr_ir r)) && (ir_rd (pr_ir r) =? rs) then ir_result (pr_ir r)
    else operand rs old g.
Proof.
  intros Hl Hrd Hrs. unfold operand, completed.
  destruct (pr_valid r); cbn [andb]; [| done].
  destruct (Z.ltb_spec 0 (ir_rd (pr_ir r))) as [Hp|]; cbn [andb]; [| done].
  destruct (Z.ltb_spec 0 rs) as [Hs|].
  - rewrite arr_upd by lia. done.
  - destruct (Z.eqb_spec (ir_rd (pr_ir r)) rs); [lia | done].
Qed.

(** C18. Forwarding.  When ID does not stall, both source operands that leave
    it are those of the register file in which the instructions still in MEM
    and in EX have completed, the newer one last: exactly what sequential
    execution would read.  When it stalls, an instruction in EX is a load of
    one of its sources. *)
Theorem forwarding_correct w : pipe_wf w -> g_pipe_stalled w = false ->
  let id := p_id (cpu_pipe w) in
  let ex := latch (p_ex (cpu_pipe w)) w in
  let me := latch (p_mem (cpu_pipe w)) w in
  let ir := pr_ir (latch id w) in
  length (gpr (cpu (mach w))) = 32%nat -> pr_valid (latch id w) = true ->
  ir_rd (pr_ir ex) < 32 -> ir_rd (pr_ir me) < 32 -> ir_rs1 ir < 32 -> ir_rs2 ir < 32 ->
  let w' := stage_ID w in
  let d := pr_ir (latch id w') in
  let file := completed ex (completed me (gpr (cpu (mach w)))) in
  if g_pipe_stalled w' then
    ir_type (pr_ir ex) = ITYPE_LOAD /\ 0 < ir_rd (pr_ir ex) /\
    (ir_rd (pr_ir ex) = ir_rs1 ir \/ ir_rd (pr_ir ex) = ir_rs2 ir)
  else src1_val d = operand (ir_rs1 ir) (src1_val ir) file /\
       src2_val d = operand (ir_rs2 ir) (src2_val ir) file.
Proof.
  intros Hw Hns. cbv zeta. destruct (pipe_ptrs w Hw) as [(Hi & _) _].
  set (id := p_id (cpu_pipe w)) in *. set (ex := latch (p_ex (cpu_pipe w)) w).
  set (me := latch (p_mem (cpu_pipe w)) w). set (ir := pr_ir (latch id w)).
  set (g := gpr (cpu (mach w))). intros Hl Hv Hex Hme H1 H2.
  unfold stage_ID. cbv zeta. fold id. rewrite Hv. cbn [negb]. fold ex me ir g.
  destruct (reread_fields g ir) as (E1 & E2 & V1 & V2). set (d0 := reread g ir) in *.
  destruct (load_use ex d0) eqn:Elu.
  - change (g_pipe_stalled (put_stalled true ?x)) with true. cbv iota. unfold load_use in Elu.
    rewrite E1, E2 in Elu. zify_bool.
    match goal with H : bool_decide _ = true |- _ => apply bool_decide_eq_true in H end.
    rename select (_ \/ _) into Hor. destruct Hor; zify_bool; auto.
  - assert (Hlr : forall d, pr_ir (latch id (put_ir id d w)) = d)
      by (intros d; rewrite put_ir_latch by (done || lia); by rewrite Z.eqb_refl).
    set (d1 := if pr_valid me && _ then _ else _). set (d2 := if _ && negb _ then _ else _).
    change (g_pipe_stalled (put_ir id d2 w)) with (g_pipe_stalled w). rewrite Hns, Hlr.
    assert (Hd1 : ir_rs1 d1 = ir_rs1 ir /\ ir_rs2 d1 = ir_rs2 ir /\
      src1_val d1 = operand (ir_rs1 ir) (src1_val ir) (completed me g) /\
      src2_val d1 = operand (ir_rs2 ir) (src2_val ir) (completed me g)).
    { rewrite !(operand_completed me _ _ g) by done. unfold d1.
      destruct (forward_fields (pr_ir me) d0) as (F1 & F2 & F3 & F4).
      rewrite E1, E2 in *. destruct (pr_valid me && _); cbn [andb]; rewrite ?F1, ?F2, ?F3, ?F4, ?V1, ?V2; done. }
    destruct Hd1 as (R1 & R2 & S1 & S2).
    assert (Hlc : length (completed me g) = 32%nat) by (unfold completed; case_if; rewrite ?length_upd; done).
    rewrite !(operand_completed ex _ _ (completed me g) Hlc) by done.
    unfold d2. destruct (forward_fields (pr_ir ex) d1) as (F1 & F2 & F3 & F4).
    unfold load_use in Elu. rewrite E1, E2 in Elu. rewrite R1, R2, S1, S2 in *.
    destruct (pr_valid ex); cbn [andb] in *; [| done].
    destruct (0 <? ir_rd (pr_ir ex)); cbn [andb] in *; [| done].
    destruct (bool_decide (ir_type (pr_ir ex) = ITYPE_LOAD)); cbn [andb negb] in *; [| done].
    apply orb_false_iff in Elu as [-> ->]. done.
Qed.

(** ** Cache-miss stalls *)

Fixpoint pipeline_cycles (n : nat) (w : PipeWorld) : Res PipeWorld :=
  match n with
  | O => Ok w
  | S n => w ← pipeline_cycle w; pipeline_cycles n w
  end.

(** Only time passes. *)
Record frozen (n : Z) (w w' : PipeWorld) : Prop := {
  fz_slots : slots (cpu_pipe w') = slots (cpu_pipe w);
  fz_ptrs : (p_id (cpu_pipe w'), p_ex (cpu_pipe w'), p_mem (cpu_pipe w'), p_wb (cpu_pipe w'))
            = (p_id (cpu_pipe w), p_ex (cpu_pipe w), p_mem (cpu_pipe w), p_wb (cpu_pipe w));
  fz_fetch : fetch_pc (cpu_pipe w') = fetch_pc (cpu_pipe w);
  fz_rem : mem_stall_rem (cpu_pipe w') = mem_stall_rem (cpu_pipe w) - n;
  fz_insts : ps_insts (pipe_stats w') = ps_insts (pipe_stats w);
  fz_cycles : ps_cycles (pipe_stats w') = wrap64 (ps_cycles (pipe_stats w) + n);
  fz_cpu : cpu (mach w') = cpu (mach w);
  fz_bus : bus (mach w') = bus (mach w);
  fz_heap : heap (mach w') = heap (mach w);
}.

(** A load that misses the first-level cache freezes the pipeline for
    exactly its latency.  When MEM performs a load of latency [lat > 1], it
    sets the stall counter to [lat - 1]; and from a counter of [n], the next
    [n] clocks complete, touch neither latches nor registers nor memory,
    retire nothing, count [n] cycles and bring the counter to zero. *)
Theorem cache_stall_exact w (n : nat) :
  (forall ir lat m w', pr_valid (latch (p_mem (cpu_pipe w)) w) = true ->
     ir_mem_access true (pr_ir (latch (p_mem (cpu_pipe w)) w)) (mach w) = Ok (ir, Some lat, m) ->
     ir_type ir = ITYPE_LOAD -> stage_MEM w = Ok w' ->
     mem_stall_rem (cpu_pipe w') = if 1 <? lat then lat - 1 else mem_stall_rem (cpu_pipe w)) /\
  (mem_stall_rem (cpu_pipe w) = Z.of_nat n -> is_word (ps_cycles (pipe_stats w)) ->
     exists w', pipeline_cycles n w = Ok w' /\ frozen (Z.of_nat n) w w').
Proof.
  split.
  - intros ir lat m w' Hv E Ht. unfold stage_MEM. cbv zeta. rewrite Hv. cbn [negb].
    rewrite E. cbn [mbind Res_bind]. change (default 0 (Some lat)) with lat.
    rewrite bool_decide_true, andb_true_r by done. case_if; intros H; by injection H as <-.
  - revert w. induction n as [|n IH]; intros w Hn Hc.
    + exists w. split; [done |]. split; try done; [lia |]. rewrite Z.add_0_r. by rewrite wrap64_small.
    + cbn [pipeline_cycles]. unfold pipeline_cycle. cbv zeta.
      destruct (Z.ltb_spec 0 (mem_stall_rem (cpu_pipe w))); [| lia]. cbn [mbind Res_bind].
      set (w1 := count_cycle _).
      assert (Hw1 : mem_stall_rem (cpu_pipe w1) = mem_stall_rem (cpu_pipe w) - 1) by done.
      assert (Hc1 : ps_cycles (pipe_stats w1) = wrap64 (ps_cycles (pipe_stats w) + 1)) by done.
      destruct (IH w1) as (w' & E & [F1 F2 F3 F4 F5 F6 F7 F8 F9]).
      { rewrite Hw1. lia. }
      { rewrite Hc1. apply wrap64_word. }
      exists w'. split; [exact E |]. split; try done.
      * rewrite F4, Hw1. lia.
      * rewrite F6, Hc1, wrap64_mod_l. f_equal. lia.
Qed.

(** ** End of a run *)

(** In pipelined mode [ebreak] ends the run before its predecessors have
    committed.  The stage EX that executes it sets the run state to
    [NEMU_END]; the register file and the latch of the instruction before it,
    still to be written back, are as they were, and the loop of [exec] stops
    after this clock. *)
Theorem ebreak_ends_before_commit w w' : pipe_wf w -> g_fetch_slot w = p_wb (cpu_pipe w) ->
  let ex := latch (p_ex (cpu_pipe w)) w in
  pr_valid ex = true -> exec_fn (pr_ir ex) = Some Exec_ebreak -> fault (pr_ir ex) = false ->
  stage_EX w = Ok w' ->
  state (sim (bus (mach w'))) = NEMU_END /\ cpu (mach w') = cpu (mach w) /\
  latch (p_mem (cpu_pipe w)) w' = latch (p_mem (cpu_pipe w)) w.
Proof.
  intros Hw Hfs ex Hv Hx Hnf E. destruct (pipe_ptrs w Hw) as [(_ & _ & Hm & _) _].
  destruct (EX_latch w w' (p_mem (cpu_pipe w)) Hw Hfs ltac:(lia) E) as (_ & Hl & _).
  split; [| split; [| by apply Hl]].
  all: unfold stage_EX in E; cbv zeta in E; fold ex in E; rewrite Hv in E; cbn [negb] in E;
    unfold ir_execute in E; rewrite Hx in E; cbn [exec_call mbind Res_bind ir_exec_ebreak fault] in E;
    rewrite Hnf in E; repeat case_if_in E; by injection E as <-.
Qed.

(** ** The properties on a small pipeline *)

(** An instruction in EX, a dependent one in ID, an addition in MEM. *)
Definition sample_mach : Mach := boot_mach (io_static (fun _ => (0, 0)) (fun _ => [])).

Definition sample_world (m : Mach) (ex_type : IRInstType) (op : option exec_op) (stall : Z) : PipeWorld :=
  {| mach := m;
     cpu_pipe := {| p_id := 0; p_ex := 1; p_mem := 2; p_wb := 3;
       slots := [ mkPipeReg {| ir_zero with ir_rs1 := 10; ir_rs2 := 11; ir_rd := 12 |} true;
                  mkPipeReg {| ir_zero with ir_type := ex_type; ir_rd := 10; ir_result := 7;
                                            exec_fn := op |} true;
                  mkPipeReg {| ir_zero with ir_rd := 11; ir_result := 9 |} true;
                  mkPipeReg ir_zero false ];
       fetch_pc := 0x80000000; mem_stall_rem := stall |};
     pipe_stats := zero_stats; g_pipe_stalled := false; g_fetch_slot := 3; bpred := bpred_init;
     g_bpred_mode := false; g_difftest_en := false; diff_cpu := init_regs; diff_init := false;
     diff_junk := ir_zero |}.

Lemma sample_wf m t op n : pipe_wf (sample_world m t op n).
Proof.
  split; [done | |]; cbn.
  - rewrite !NoDup_cons, !not_elem_of_cons. repeat split; try done; try apply not_elem_of_nil.
    apply NoDup_nil_2.
  - repeat (apply Forall_cons; split; [lia |]). by apply Forall_nil.
Qed.

Lemma forwarding_correct_witness :
  let w := sample_world sample_mach ITYPE_ALU None 0 in
  let d := pr_ir (latch 0 (stage_ID w)) in src1_val d = 7 /\ src2_val d = 9.
Proof.
  pose proof (forwarding_correct _ (sample_wf sample_mach ITYPE_ALU None 0)
    eq_refl eq_refl eq_refl) as H.
  cbv zeta in *. apply H; reflexivity.
Defined.

(** Stages of an empty pipeline do nothing, and IF fetches. *)
Lemma bubbles w : (forall p, pr_valid (latch p w) = false) ->
  stage_WB w = Ok w /\ stage_MEM w = Ok w /\ stage_EX w = Ok w /\ stage_ID w = w.
Proof. intros H. unfold stage_WB, stage_MEM, stage_EX, stage_ID. cbv zeta. by rewrite !H. Qed.

Lemma empty_cycle w : (forall p, pr_valid (latch p w) = false) -> mem_stall_rem (cpu_pipe w) = 0 ->
  mem_inv (mach w) -> cached (fetch_pc (cpu_pipe w)) = true -> in_block (fetch_pc (cpu_pipe w)) 4 ->
  exists w', pipeline_cycle w = Ok w'.
Proof.
  intros Hb Hr Hm Hc Hi. unfold pipeline_cycle. cbv zeta. rewrite Hr. cbn [Z.ltb Z.compare].
  unfold run_stages. cbv zeta. set (w0 := put_fetch_slot _ _).
  destruct (bubbles w0 Hb) as (E1 & E2 & E3 & E4). rewrite E1. cbn [mbind Res_bind]. rewrite E2.
  cbn [mbind Res_bind]. rewrite E3. cbn [mbind Res_bind]. rewrite E4.
  assert (E5 : exists w5, stage_IF w0 = Ok w5).
  { unfold stage_IF. cbv zeta. change (g_pipe_stalled w0) with false. cbv iota.
    destruct (vaddr_ifetch_ok (mach w0) (fetch_pc (cpu_pipe w0)) 4 Hm Hc Hi) as (m1 & E & _).
    rewrite E. cbn [mbind Res_bind]. case_if; [destruct (bpred_predict _ _ _) |]; eauto. }
  destruct E5 as [w5 ->]. cbn [mbind Res_bind]. eauto.
Qed.

Definition empty_world (m : Mach) : PipeWorld :=
  let w := sample_world m ITYPE_ALU None 0 in
  {| w with cpu_pipe := mkPipeline 0 1 2 3 (replicate 4 (mkPipeReg ir_zero false)) 0x80000000 0 |}.

Lemma empty_world_ok m : pipe_wf (empty_world m) /\ forall p, pr_valid (latch p (empty_world m)) = false.
Proof.
  split.
  - destruct (sample_wf m ITYPE_ALU None 0). by split.
  - intros p. unfold latch, arr. cbn [empty_world cpu_pipe slots].
    rewrite list_lookup_total_alt.
    destruct (replicate 4 (mkPipeReg ir_zero false) !! Z.to_nat p) as [r|] eqn:Hr; [| done].
    by apply lookup_replicate in Hr as [-> _].
Qed.

Lemma pipeline_latches_witness : exists d w',
  init_devices ∅ (fun _ => 0) (io_static (fun _ => (0, 0)) (fun _ => [])) = Ok d /\
  pipeline_cycle (empty_world (boot_mach d)) = Ok w' /\ pr_valid (latch (p_id (cpu_pipe w')) w') = true.
Proof.
  destruct (boot_bus_ok (fun _ => 0) (fun _ => (0, 0)) (fun _ => [])) as (d & Ed & Hb).
  destruct (boot_mach_inv d Hb) as (Hm & _). destruct (empty_world_ok (boot_mach d)) as [Hw He].
  destruct (empty_cycle (empty_world (boot_mach d)) He) as [w' E].
  - reflexivity.
  - exact Hm.
  - reflexivity.
  - split; [lia | vm_compute; congruence].
  - exists d, w'. split; [exact Ed | split; [exact E |]].
    destruct (pipeline_latches (empty_world (boot_mach d)) w' Hw E) as [_ H].
    apply H. cbn. lia.
Defined.

Lemma cache_stall_exact_witness : exists w',
  pipeline_cycles 7 (sample_world sample_mach ITYPE_ALU None 7) = Ok w' /\
  ps_cycles (pipe_stats w') = 7 /\ mem_stall_rem (cpu_pipe w') = 0.
Proof.
  destruct (proj2 (cache_stall_exact (sample_world sample_mach ITYPE_ALU None 7) 7)) as (w' & E & Hf).
  - reflexivity.
  - apply is_word_0.
  - exists w'. split; [exact E |]. split; [apply (fz_cycles _ _ _ Hf) | apply (fz_rem _ _ _ Hf)].
Defined.

Lemma sample_ebreak m : exists w', stage_EX (sample_world m ITYPE_ALU (Some Exec_ebreak) 0) = Ok w'.
Proof. eexists. reflexivity. Qed.

Lemma ebreak_ends_before_commit_witness : exists w',
  stage_EX (sample_world sample_mach ITYPE_ALU (Some Exec_ebreak) 0) = Ok w' /\
  state (sim (bus (mach w'))) = NEMU_END.
Proof.
  destruct (sample_ebreak sample_mach) as [w' E]. exists w'. split; [exact E |].
  refine (proj1 (ebreak_ends_before_commit
    (sample_world sample_mach ITYPE_ALU (Some Exec_ebreak) 0) w' _ _ _ _ _ E));
    first [apply sample_wf | reflexivity].
Defined.
