(* ===== verification/PipeFlow.v ===== *)
(** * What flows through the pipeline (src/cpu/pipeline.c)

    An instruction is known by its address and its word.  [pipeline_flow] follows
    the instructions of the four latches through one clock: nothing is lost,
    doubled or moved past a stage, and what a redirect kills is exactly what was
    fetched behind the branch. *)

From S2P Require Import Prelude Word State Csr CacheSpec Mmio Mem Vmem VmemSpec Ir IrSpec Isa Bpred Pipeline.

(** The instruction in a slot. *)
Definition occupant (p : Z) (w : PipeWorld) : option (Z * Z) :=
  let r := latch p w in if pr_valid r then Some (ir_pc (pr_ir r), ir_raw (pr_ir r)) else None.

(** The executed instruction in slot [p] goes elsewhere than the fetch went. *)
Definition redirects (p : Z) (w : PipeWorld) : bool :=
  let r := latch p w in
  pr_valid r && negb (ir_dnpc (pr_ir r) =? (if g_bpred_mode w then bp_predicted_pc (pr_ir r) else ir_snpc (pr_ir r))).

Arguments occupant : simpl never.
Arguments redirects : simpl never.

(** ** Executors keep the instruction *)

Definition inst_of (ir : IR_Inst) : Z * Z := (ir_pc ir, ir_raw ir).

Lemma exec_call_inst op ir m ir' m' : exec_call op ir m = Ok (ir', m') -> inst_of ir' = inst_of ir.
Proof.
  destruct op; cbn [exec_call]; unfold pure_exec, res_exec; cbv beta;
    unfold ir_exec_jal, ir_exec_jalr, ir_exec_csrrw, ir_exec_csrrs, ir_exec_csrrc, ir_exec_mret; cbv zeta; intros E;
    try (injection E as <- _; reflexivity);
    try (apply bind_Ok_inv in E as (ir1 & E & E'); injection E' as <- _; apply bind_Ok_inv in E as (v & _ & E);
         injection E as <-; reflexivity);
    try (unfold ir_exec_ecall in E; destruct (raise_intr _ _ _ _); injection E as <- _; reflexivity);
    res_cases; reflexivity.
Qed.

Lemma ir_execute_inst ir m ir' m' : ir_execute ir m = Ok (ir', m') -> inst_of ir' = inst_of ir.
Proof. unfold ir_execute. destruct (exec_fn ir); [apply exec_call_inst | intros E; by injection E as <- _]. Qed.

Lemma ir_mem_access_inst want ir m ir' lat m' : ir_mem_access want ir m = Ok (ir', lat, m') -> inst_of ir' = inst_of ir.
Proof. unfold ir_mem_access. intros E. destruct (ir_type ir); res_cases; reflexivity. Qed.

Lemma occupant_inst p w w' : pr_valid (latch p w') = pr_valid (latch p w) ->
  inst_of (pr_ir (latch p w')) = inst_of (pr_ir (latch p w)) -> occupant p w' = occupant p w.
Proof. intros Ev Ei. unfold occupant. cbv zeta. rewrite Ev. unfold inst_of in Ei. by injection Ei as -> ->. Qed.

Lemma occupant_latch p w w' : latch p w' = latch p w -> occupant p w' = occupant p w.
Proof. intros E. unfold occupant. by rewrite E. Qed.

Lemma occupant_none p w : pr_valid (latch p w) = false -> occupant p w = None.
Proof. intros E. unfold occupant. cbv zeta. by rewrite E. Qed.

(** A latch whose [ir] a stage has worked on. *)
Lemma put_ir_occupant p ir w q : pipe_wf w -> 0 <= p < 4 -> 0 <= q -> inst_of ir = inst_of (pr_ir (latch p w)) ->
  occupant q (put_ir p ir w) = occupant q w.
Proof.
  intros Hw Hp Hq Ei. destruct (Z.eqb_spec p q) as [<- | Hne].
  - apply occupant_inst; rewrite put_ir_latch, Z.eqb_refl by done; done.
  - apply occupant_latch. rewrite put_ir_latch by done. by rewrite (proj2 (Z.eqb_neq p q)).
Qed.

(** ** The stages *)

(** The count of retired instructions after one more clock. *)
Definition retire (w : PipeWorld) : Z :=
  let n := ps_insts (pipe_stats w) in if pr_valid (latch (p_wb (cpu_pipe w)) w) then (n + 1)%word else n.

Lemma WB_flow w w' : pipe_wf w -> stage_WB w = Ok w' ->
  occupant (p_wb (cpu_pipe w)) w' = None /\
  (forall q, 0 <= q -> q <> p_wb (cpu_pipe w) -> occupant q w' = occupant q w) /\
  ps_insts (pipe_stats w') = retire w /\ fetch_pc (cpu_pipe w') = fetch_pc (cpu_pipe w).
Proof.
  intros Hw H. destruct (pipe_ptrs w Hw) as [(_ & _ & _ & Hb) _]. split; [| split].
  - apply occupant_none. apply (WB_latch w w' (p_wb (cpu_pipe w)) Hw ltac:(lia) H).
  - intros q Hq Hne. apply occupant_latch. by apply (WB_latch w w' q Hw Hq H).
  - unfold stage_WB in H. unfold retire. cbv zeta in *. destruct (pr_valid _); cbn [negb] in H; [| by injection H as <-].
    destruct (difftest_step _ _) as [w1|] eqn:Ed; [| done]. cbn [mbind Res_bind] in H.
    assert (Ef : fetch_pc (cpu_pipe w1) = fetch_pc (cpu_pipe w)).
    { unfold difftest_step in Ed. case_if_in Ed; [by inv_res |]. cbv zeta in Ed.
      assert (Es : cpu_pipe (diff_start (pr_ir (latch (p_wb (cpu_pipe w)) w)) w) = cpu_pipe w)
        by (unfold diff_start; by destruct (diff_init w)).
      rewrite <- Es. set (w2 := diff_start _ w) in *. clearbody w2. by inv_pairs. }
    apply difftest_frame in Ed as (_ & _ & Ep & _). destruct (ir_writeback _ _) as [c|]; [| done]. cbn [mbind Res_bind] in H.
    injection H as <-. split; [| exact Ef]. transitivity (ps_insts (pipe_stats w1) + 1)%word; [done | by rewrite Ep].
Qed.

Lemma MEM_flow w w' q : pipe_wf w -> stage_MEM w = Ok w' -> 0 <= q ->
  occupant q w' = occupant q w /\ ps_insts (pipe_stats w') = ps_insts (pipe_stats w) /\
  fetch_pc (cpu_pipe w') = fetch_pc (cpu_pipe w).
Proof.
  intros Hw H Hq. destruct (pipe_ptrs w Hw) as [(_ & _ & Hm & _) _]. unfold stage_MEM in H. cbv zeta in H.
  case_if_in H; [by injection H as <- |].
  destruct (ir_mem_access _ _ _) as [[[ir lat] m]|] eqn:Ea; [| done]. cbn [mbind Res_bind] in H.
  apply ir_mem_access_inst in Ea.
  pose proof (put_ir_occupant (p_mem (cpu_pipe w)) ir (put_mach m w) q (pipe_wf_frame _ _ (put_mach_frame m w) Hw) Hm Hq Ea) as Ho.
  case_if_in H; injection H as <-; split_and!; try exact Ho; done.
Qed.

(** A flush empties ID and the slot of the next fetch. *)
Lemma flush_latch pc w q : pipe_wf w -> g_fetch_slot w = p_wb (cpu_pipe w) -> 0 <= q ->
  let killed := (q =? p_id (cpu_pipe w)) || (q =? p_wb (cpu_pipe w)) in
  (if killed then pr_valid (latch q (flush pc w)) = false else latch q (flush pc w) = latch q w).
Proof.
  intros Hw Hf Hq killed. destruct (pipe_ptrs w Hw) as [(Hi & _ & _ & Hb) _]. unfold flush.
  change (latch q (put_fetch_pc ?p ?x)) with (latch q x). rewrite Hf.
  assert (Hw1 : pipe_wf (put_valid (p_id (cpu_pipe w)) false w)) by (eapply pipe_wf_frame; [apply put_valid_frame | done]).
  rewrite !put_valid_latch by done. unfold killed. rewrite !(Z.eqb_sym q).
  destruct (p_wb (cpu_pipe w) =? q); [by rewrite orb_true_r |].
  rewrite orb_false_r, !put_valid_latch by done. by destruct (p_id (cpu_pipe w) =? q).
Qed.

(** EX keeps its instruction; a redirect empties ID and moves the fetch. *)
Definition ex_flow (w w' : PipeWorld) : Prop :=
  let pp := cpu_pipe w in let r := redirects (p_ex pp) w' in
  occupant (p_ex pp) w' = occupant (p_ex pp) w /\ occupant (p_mem pp) w' = occupant (p_mem pp) w /\
  occupant (p_wb pp) w' = None /\ occupant (p_id pp) w' = (if r then None else occupant (p_id pp) w) /\
  fetch_pc (cpu_pipe w') = (if r then ir_dnpc (pr_ir (latch (p_ex pp) w')) else fetch_pc pp) /\
  ps_insts (pipe_stats w') = ps_insts (pipe_stats w).

(** The executed instruction in its latch, the rest as it was. *)
Record executed (w w1 : PipeWorld) (ir : IR_Inst) : Prop := {
  ed_frame : stage_frame w w1;
  ed_occ q : 0 <= q -> occupant q w1 = occupant q w;
  ed_latch : latch (p_ex (cpu_pipe w)) w1 = mkPipeReg ir true;
  ed_fetch : fetch_pc (cpu_pipe w1) = fetch_pc (cpu_pipe w);
  ed_insts : ps_insts (pipe_stats w1) = ps_insts (pipe_stats w) }.

Definition goes_on (w : PipeWorld) (ir : IR_Inst) : bool :=
  ir_dnpc ir =? (if g_bpred_mode w then bp_predicted_pc ir else ir_snpc ir).

Section Execute.
Context (w w1 : PipeWorld) (ir : IR_Inst) (Hw : pipe_wf w) (Hn : occupant (p_wb (cpu_pipe w)) w = None)
  (Hd : executed w w1 ir).

Lemma stay_flow : goes_on w ir = true -> ex_flow w w1.
Proof.
  intros Hg. destruct (pipe_ptrs w Hw) as [(Hi & He & Hm & Hb) _]. unfold ex_flow. cbv zeta.
  assert (Er : redirects (p_ex (cpu_pipe w)) w1 = false).
  { unfold redirects. cbv zeta. rewrite (ed_latch _ _ _ Hd), (sf_mode _ _ (ed_frame _ _ _ Hd)). cbn [pr_ir pr_valid andb].
    unfold goes_on in Hg. by rewrite Hg. }
  rewrite Er, !(ed_occ _ _ _ Hd) by lia. rewrite Hn. split_and!; try done; apply Hd.
Qed.

Lemma flush_flow w2 : g_fetch_slot w = p_wb (cpu_pipe w) -> goes_on w ir = false ->
  cpu_pipe w2 = cpu_pipe (flush (ir_dnpc ir) w1) -> g_bpred_mode w2 = g_bpred_mode w ->
  ps_insts (pipe_stats w2) = ps_insts (pipe_stats w) -> ex_flow w w2.
Proof.
  intros Hf Hg E2 Em Es. destruct (pipe_ptrs w Hw) as [(Hi & He & Hm & Hb) (N1 & N2 & N3 & N4 & N5 & N6)].
  destruct Hd as [[Fi Fe Fm Fb Fl Ff Fo] Ho El _ _].
  assert (Hw1 : pipe_wf w1) by (eapply pipe_wf_frame; [by split | exact Hw]).
  assert (L2 : forall q, latch q w2 = latch q (flush (ir_dnpc ir) w1)) by (intros q; unfold latch; by rewrite E2).
  assert (K : forall q, 0 <= q -> q <> p_id (cpu_pipe w) -> q <> p_wb (cpu_pipe w) -> latch q w2 = latch q w1).
  { intros q Hq M1 M2. pose proof (flush_latch (ir_dnpc ir) w1 q Hw1 ltac:(by rewrite Ff, Fb) Hq) as H. cbv zeta in H.
    rewrite Fi, Fb, (proj2 (Z.eqb_neq _ _) M1), (proj2 (Z.eqb_neq _ _) M2) in H. by rewrite L2. }
  assert (V : forall q, 0 <= q -> q = p_id (cpu_pipe w) \/ q = p_wb (cpu_pipe w) -> occupant q w2 = None).
  { intros q Hq M. pose proof (flush_latch (ir_dnpc ir) w1 q Hw1 ltac:(by rewrite Ff, Fb) Hq) as H. cbv zeta in H.
    rewrite Fi, Fb in H. apply occupant_none. rewrite L2. destruct M as [-> | ->]; rewrite Z.eqb_refl, ?orb_true_r in H; exact H. }
  assert (Er : redirects (p_ex (cpu_pipe w)) w2 = true).
  { unfold redirects. cbv zeta. rewrite K, El, Em by (lia || congruence). cbn [pr_ir pr_valid andb]. unfold goes_on in Hg. by rewrite Hg. }
  unfold ex_flow. cbv zeta. rewrite Er. split_and!; try done.
  - rewrite <- Ho by lia. apply occupant_latch, K; lia || congruence.
  - rewrite <- Ho by lia. apply occupant_latch, K; lia || congruence.
  - apply V; [lia | by right].
  - apply V; [lia | by left].
  - rewrite E2, K, El by (lia || congruence). done.
Qed.
End Execute.

Lemma EX_flow w w' : pipe_wf w -> g_fetch_slot w = p_wb (cpu_pipe w) -> occupant (p_wb (cpu_pipe w)) w = None ->
  stage_EX w = Ok w' -> ex_flow w w'.
Proof.
  intros Hw Hf Hn H. destruct (pipe_ptrs w Hw) as [(_ & He & _) _]. unfold stage_EX in H. cbv zeta in H.
  destruct (pr_valid (latch (p_ex (cpu_pipe w)) w)) eqn:Ev; cbn [negb] in H.
  2: { injection H as <-. unfold ex_flow, redirects. cbv zeta. by rewrite Ev. }
  destruct (ir_execute _ _) as [[ir m]|] eqn:Ex; [| done]. cbn [mbind Res_bind] in H. apply ir_execute_inst in Ex.
  set (m' := if fault ir then _ else _) in H. set (w1 := put_ir _ _ _) in H.
  assert (Hwm : pipe_wf (put_mach m' w)) by (by eapply pipe_wf_frame; [apply put_mach_frame |]).
  assert (Hd : executed w w1 ir).
  { split; [transitivity (put_mach m' w); [done | apply put_ir_frame] | | | done | done].
    - intros q Hq. exact (put_ir_occupant (p_ex (cpu_pipe w)) ir (put_mach m' w) q Hwm He Hq Ex).
    - unfold w1. rewrite put_ir_latch, Z.eqb_refl by (done || lia). f_equal. exact Ev. }
  assert (Em : g_bpred_mode w1 = g_bpred_mode w) by done. clearbody w1. rewrite Em in H. clear Ex Hwm. clearbody m'.
  destruct (g_bpred_mode w) eqn:Eb.
  - set (w2 := if is_control_op _ then _ else _) in H.
    assert (Hd2 : executed w w2 ir) by (unfold w2; destruct (is_control_op _); [by destruct Hd as [[]] | done]). clearbody w2.
    destruct (ir_dnpc ir =? bp_predicted_pc ir) eqn:Eg; cbn [negb] in H; injection H as <-.
    + eapply stay_flow; try done. unfold goes_on. by rewrite Eb.
    + eapply (flush_flow w w2 ir); try done; [unfold goes_on; by rewrite Eb | | apply Hd2].
      exact (sf_mode _ _ (ed_frame _ _ _ Hd2)).
  - destruct (ir_dnpc ir =? ir_snpc ir) eqn:Eg; cbn [negb] in H; injection H as <-.
    + eapply stay_flow; try done. unfold goes_on. by rewrite Eb.
    + eapply (flush_flow w w1 ir); try done; [unfold goes_on; by rewrite Eb | | apply Hd].
      exact (sf_mode _ _ (ed_frame _ _ _ Hd)).
Qed.

Lemma reread_inst g ir : inst_of (reread g ir) = inst_of ir.
Proof. unfold reread. by destruct (0 <? ir_rs1 ir), (0 <? ir_rs2 _). Qed.

Lemma forward_inst src ir : inst_of (forward src ir) = inst_of ir.
Proof. unfold forward. by destruct (_ =? ir_rs1 ir), (_ =? ir_rs2 _). Qed.

Lemma ID_flow w : pipe_wf w ->
  (forall q, 0 <= q -> occupant q (stage_ID w) = occupant q w) /\
  (forall q, 0 <= q -> q <> p_id (cpu_pipe w) -> latch q (stage_ID w) = latch q w) /\
  fetch_pc (cpu_pipe (stage_ID w)) = fetch_pc (cpu_pipe w) /\
  ps_insts (pipe_stats (stage_ID w)) = ps_insts (pipe_stats w).
Proof.
  intros Hw. destruct (pipe_ptrs w Hw) as [(Hi & _) _].
  assert (K : forall ir, inst_of ir = inst_of (pr_ir (latch (p_id (cpu_pipe w)) w)) ->
    (forall q, 0 <= q -> occupant q (put_ir (p_id (cpu_pipe w)) ir w) = occupant q w) /\
    (forall q, 0 <= q -> q <> p_id (cpu_pipe w) -> latch q (put_ir (p_id (cpu_pipe w)) ir w) = latch q w)).
  { intros ir Ei. split; intros q Hq; [by apply put_ir_occupant |]. intros Hne. rewrite put_ir_latch by done.
    by rewrite (proj2 (Z.eqb_neq _ _)) by congruence. }
  unfold stage_ID. cbv zeta. destruct (negb (pr_valid (latch (p_id (cpu_pipe w)) w))); [done |]. case_if.
  - destruct (K _ (reread_inst (gpr (cpu (mach w))) _)) as [K1 K2]. by split_and!.
  - set (ir := if (_ && negb _) then _ else _). destruct (K ir) as [K1 K2]; [| by split_and!].
    unfold ir. repeat case_if; by rewrite ?forward_inst, ?reread_inst.
Qed.

(** The fetch slot holds [ir] and the fetch goes on where [ir] is predicted to go. *)
Record filled (w w' : PipeWorld) (fs : Z) (ir : IR_Inst) : Prop := {
  fd_other q : 0 <= q -> q <> fs -> latch q w' = latch q w;
  fd_latch : latch fs w' = mkPipeReg ir true;
  fd_fetch : fetch_pc (cpu_pipe w') = bp_predicted_pc ir;
  fd_insts : ps_insts (pipe_stats w') = ps_insts (pipe_stats w) }.

Lemma filled_put w fs ir : pipe_wf w -> 0 <= fs < 4 ->
  filled w (put_fetch_pc (bp_predicted_pc ir) (put_latch fs (mkPipeReg ir true) w)) fs ir.
Proof.
  intros Hw Hf. split; try done.
  - intros q Hq Hne. change (latch q (put_fetch_pc ?p ?x)) with (latch q x). by apply latch_put_ne; [| congruence].
  - change (latch fs (put_fetch_pc ?p ?x)) with (latch fs x). apply latch_put_eq. rewrite (pw_slots _ Hw). lia.
Qed.

Lemma refill w w1 fs ir ir' w' : filled w w1 fs ir -> pipe_wf w1 -> 0 <= fs < 4 ->
  slots (cpu_pipe w') = upd (slots (cpu_pipe w1)) fs (mkPipeReg ir' true) ->
  fetch_pc (cpu_pipe w') = bp_predicted_pc ir' -> pipe_stats w' = pipe_stats w1 -> filled w w' fs ir'.
Proof.
  intros [Ho _ _ Hn] Hw Hf Es Ep Ei. split; [| | done | by rewrite Ei].
  - intros q Hq Hne. rewrite <- Ho by done. unfold latch. rewrite Es. by apply arr_upd_ne; [| congruence].
  - unfold latch. rewrite Es. apply arr_upd_eq. rewrite (pw_slots _ Hw). lia.
Qed.

Lemma IF_flow w w' : pipe_wf w -> 0 <= g_fetch_slot w < 4 -> g_pipe_stalled w = false -> stage_IF w = Ok w' ->
  let fs := g_fetch_slot w in
  (forall q, 0 <= q -> q <> fs -> latch q w' = latch q w) /\
  (exists raw, occupant fs w' = Some (fetch_pc (cpu_pipe w), raw)) /\
  fetch_pc (cpu_pipe w') = bp_predicted_pc (pr_ir (latch fs w')) /\
  ps_insts (pipe_stats w') = ps_insts (pipe_stats w).
Proof.
  intros Hw Hfs Hns. unfold stage_IF. rewrite Hns. cbv zeta.
  destruct (vaddr_ifetch _ _ _) as [[v m]|]; [| done]. cbn [mbind Res_bind].
  set (d := ir_decode _ _ _ _ _). assert (Hd : inst_of d = (fetch_pc (cpu_pipe w), wrap32 v)).
  { unfold inst_of, d. by destruct (decode_pcs (gpr (cpu m)) (wrap32 v) (fetch_pc (cpu_pipe w)) (fetch_pc (cpu_pipe w) + 4)%word
      (pr_ir (latch (g_fetch_slot w) w))) as (-> & _ & ->). }
  set (ir := {| d with bp_predict_taken := false; bp_predicted_pc := (fetch_pc (cpu_pipe w) + 4)%word |}).
  assert (Hw1 : pipe_wf (put_mach m w)) by (by eapply pipe_wf_frame; [apply put_mach_frame |]).
  pose proof (filled_put (put_mach m w) (g_fetch_slot w) ir Hw1 Hfs) as F1. change (bp_predicted_pc ir) with (fetch_pc (cpu_pipe w) + 4)%word in F1.
  set (w1 := put_fetch_pc _ _) in *. intros H.
  assert (F : exists ir', filled (put_mach m w) w' (g_fetch_slot w) ir' /\ inst_of ir' = inst_of d).
  { case_if_in H; [| injection H as <-; by exists ir]. destruct (bpred_predict _ _ _) as [r bp].
    assert (Hf1 : stage_frame (put_mach m w) w1) by (etransitivity; [apply put_latch_frame | done]).
    assert (Hw2 : pipe_wf w1) by (by eapply pipe_wf_frame).
    set (ir' := {| ir with bp_predict_taken := bpr_taken r; bp_predicted_pc := _ |}) in H. exists ir'. split; [| done].
    eapply (refill _ w1 _ ir); try done; destruct (bpr_taken r && bpr_btb_hit r) eqn:Eg; injection H as <-; try done.
    all: unfold ir'; cbn [bp_predicted_pc]; by rewrite ?Eg. }
  destruct F as (ir' & F & Ei). rewrite Hd in Ei. split_and!.
  - apply F.
  - exists (wrap32 v). unfold occupant. cbv zeta. rewrite (fd_latch _ _ _ _ F). cbn [pr_valid pr_ir].
    unfold inst_of in Ei. by injection Ei as -> ->.
  - rewrite (fd_latch _ _ _ _ F). apply F.
  - apply F.
Qed.

(** ** The clock *)

Lemma cycle_stages w w' : pipeline_cycle w = Ok w' -> mem_stall_rem (cpu_pipe w) <= 0 -> exists w1 w2 w3 w4,
  let w0 := put_fetch_slot (p_wb (cpu_pipe w)) (put_stalled false w) in
  stage_WB w0 = Ok w1 /\ stage_MEM w1 = Ok w2 /\ stage_EX w2 = Ok w3 /\ stage_IF (stage_ID w3) = Ok w4 /\
  stage_frame w0 w4 /\ cpu_pipe w' = rotate (g_pipe_stalled w4) (p_wb (cpu_pipe w)) (cpu_pipe w4) /\
  g_pipe_stalled w' = g_pipe_stalled w4 /\ g_bpred_mode w' = g_bpred_mode w4 /\
  ps_insts (pipe_stats w') = ps_insts (pipe_stats w4).
Proof.
  intros H Hr. unfold pipeline_cycle in H. cbv zeta in H. destruct (Z.ltb_spec 0 (mem_stall_rem (cpu_pipe w))); [lia |].
  destruct (run_stages _) as [wr|] eqn:E1; [| done]. cbn [mbind Res_bind] in H. injection H as <-.
  apply run_stages_inv in E1 as (w1 & w2 & w3 & w4 & E1 & E2 & E3 & E4 & Hf4 & ->). by exists w1, w2, w3, w4.
Qed.

(** WB, MEM and EX together. *)
Lemma back_flow w w1 w2 w3 : pipe_wf w ->
  let pp := cpu_pipe w in let w0 := put_fetch_slot (p_wb pp) (put_stalled false w) in
  stage_WB w0 = Ok w1 -> stage_MEM w1 = Ok w2 -> stage_EX w2 = Ok w3 ->
  let r := redirects (p_ex pp) w3 in
  stage_frame w0 w3 /\ g_pipe_stalled w3 = false /\
  occupant (p_mem pp) w3 = occupant (p_mem pp) w /\ occupant (p_ex pp) w3 = occupant (p_ex pp) w /\
  occupant (p_wb pp) w3 = None /\ occupant (p_id pp) w3 = (if r then None else occupant (p_id pp) w) /\
  fetch_pc (cpu_pipe w3) = (if r then ir_dnpc (pr_ir (latch (p_ex pp) w3)) else fetch_pc pp) /\
  ps_insts (pipe_stats w3) = retire w.
Proof.
  intros Hw pp w0 E1 E2 E3 r. destruct (pipe_ptrs w Hw) as [(Hi & He & Hm & Hb) (N1 & N2 & N3 & N4 & N5 & N6)].
  fold pp in Hi, He, Hm, Hb, N1, N2, N3, N4, N5, N6.
  assert (Hw0 : pipe_wf w0) by (by destruct Hw).
  pose proof (WB_frame _ _ E1) as Hf1. assert (Hw1 : pipe_wf w1) by (by eapply pipe_wf_frame).
  pose proof (MEM_frame _ _ E2) as Hf2. assert (Hw2 : pipe_wf w2) by (by eapply pipe_wf_frame).
  pose proof (EX_frame _ _ E3) as Hf3. assert (F2 : stage_frame w0 w2) by (by transitivity w1).
  destruct (WB_flow w0 w1 Hw0 E1) as (Q1 & O1 & I1 & P1). destruct (WB_latch w0 w1 0 Hw0 ltac:(lia) E1) as (_ & _ & S1).
  destruct (MEM_latch w1 w2 0 Hw1 ltac:(lia) E2) as (_ & _ & S2).
  pose proof (fun q => MEM_flow w1 w2 q Hw1 E2) as M2. destruct (M2 0 ltac:(lia)) as (_ & I2 & P2).
  pose proof F2 as [Ai Ae Am Ab _ As _]. change (cpu_pipe w0) with pp in Ai, Ae, Am, Ab, Q1, O1, P1. change (g_fetch_slot w0) with (p_wb pp) in As.
  assert (O2 : forall q, 0 <= q -> q <> p_wb pp -> occupant q w2 = occupant q w).
  { intros q Hq Hne. destruct (M2 q Hq) as [-> _]. by apply O1. }
  assert (W2 : occupant (p_wb pp) w2 = None) by (destruct (M2 (p_wb pp) ltac:(lia)) as [-> _]; exact Q1).
  destruct (EX_latch w2 w3 0 Hw2 ltac:(by rewrite As, Ab) ltac:(lia) E3) as (S3 & _).
  pose proof (EX_flow w2 w3 Hw2 ltac:(by rewrite As, Ab) ltac:(by rewrite Ab) E3) as X. unfold ex_flow in X. cbv zeta in X.
  rewrite Ai, Ae, Am, Ab in X. destruct X as (X1 & X2 & X3 & X4 & X5 & X6). fold r in X4, X5.
  rewrite !O2 in X1, X2, X4 by (lia || congruence). split_and!; try done.
  - by transitivity w2.
  - by rewrite S3, S2, S1.
  - rewrite X5, P2, P1. done.
  - by rewrite X6, I2, I1.
Qed.

(** The stages before the rotation: [w4] still has the pointers of [w]. *)
Lemma stages_flow w w1 w2 w3 w4 : pipe_wf w ->
  let pp := cpu_pipe w in let w0 := put_fetch_slot (p_wb pp) (put_stalled false w) in
  stage_WB w0 = Ok w1 -> stage_MEM w1 = Ok w2 -> stage_EX w2 = Ok w3 -> stage_IF (stage_ID w3) = Ok w4 ->
  let r := redirects (p_ex pp) w4 in
  occupant (p_mem pp) w4 = occupant (p_mem pp) w /\ occupant (p_ex pp) w4 = occupant (p_ex pp) w /\
  ps_insts (pipe_stats w4) = retire w /\
  if g_pipe_stalled w4 then
    occupant (p_id pp) w4 = occupant (p_id pp) w /\ occupant (p_id pp) w <> None /\
    occupant (p_wb pp) w4 = None /\ fetch_pc (cpu_pipe w4) = fetch_pc pp
  else
    occupant (p_id pp) w4 = (if r then None else occupant (p_id pp) w) /\
    (exists raw, occupant (p_wb pp) w4 = Some (if r then ir_dnpc (pr_ir (latch (p_ex pp) w4)) else fetch_pc pp, raw)) /\
    fetch_pc (cpu_pipe w4) = bp_predicted_pc (pr_ir (latch (p_wb pp) w4)).
Proof.
  intros Hw pp w0 E1 E2 E3 E4 r. destruct (pipe_ptrs w Hw) as [(Hi & He & Hm & Hb) (N1 & N2 & N3 & N4 & N5 & N6)].
  fold pp in Hi, He, Hm, Hb, N1, N2, N3, N4, N5, N6.
  destruct (back_flow w w1 w2 w3 Hw E1 E2 E3) as (F3 & S3 & O1 & O2 & O3 & O4 & P3 & I3). fold pp in O1, O2, O3, O4, P3.
  assert (Hw3 : pipe_wf w3) by (eapply pipe_wf_frame; [exact F3 | by destruct Hw]).
  assert (Bi : p_id (cpu_pipe w3) = p_id pp) by exact (sf_id _ _ F3).
  assert (Bs : g_fetch_slot w3 = p_wb pp) by exact (sf_fs _ _ F3).
  destruct (ID_flow w3 Hw3) as (D1 & D2 & D3 & D4). pose proof (ID_frame w3) as Fi. rewrite Bi in D2.
  pose proof (ID_not_stalled w3 S3 w4 E4) as S4. rewrite S4. destruct (g_pipe_stalled (stage_ID w3)) eqn:Es.
  - rewrite IF_stalled in E4 by done. injection E4 as <-. rewrite !D1 by lia. rewrite D4.
    destruct (ID_stalled w3 Hw3 S3 Es) as [Hv Hall]. rewrite Bi, Hall in Hv by lia.
    assert (Er : redirects (p_ex pp) w3 = false).
    { destruct (redirects _ w3); [| done]. unfold occupant in O4. cbv zeta in O4. by rewrite Hv in O4. }
    rewrite Er in O4, P3. split_and!; try done; [| by rewrite D3].
    rewrite <- O4. unfold occupant. cbv zeta. by rewrite Hv.
  - assert (Hwi : pipe_wf (stage_ID w3)) by (by eapply pipe_wf_frame).
    assert (Efs : g_fetch_slot (stage_ID w3) = p_wb pp) by (by rewrite (sf_fs _ _ Fi)).
    destruct (IF_flow (stage_ID w3) w4 Hwi ltac:(by rewrite Efs) Es E4) as (L4 & (raw & R4) & P4 & I4). rewrite Efs in L4, R4, P4.
    assert (Lex : latch (p_ex pp) w4 = latch (p_ex pp) w3) by (rewrite L4, D2 by (lia || congruence); done).
    assert (Er : r = redirects (p_ex pp) w3).
    { unfold r, redirects. rewrite Lex, (sf_mode _ _ (IF_frame _ _ E4)), (sf_mode _ _ Fi). done. }
    assert (Oq : forall q, 0 <= q -> q <> p_wb pp -> occupant q w4 = occupant q w3).
    { intros q Hq Hne. rewrite (occupant_latch q (stage_ID w3) w4) by (by apply L4). by apply D1. }
    rewrite !Oq, I4, D4, Er, Lex by (lia || congruence). split_and!; try done.
    exists raw. by rewrite R4, D3, P3.
Qed.


(** ** One clock of a full pipeline *)

(** Three instructions in ID, EX and MEM that read no register; the one in EX
    was executed at [0x80000004] and goes on to [next]. *)
Definition flowing (next : Z) (m : Mach) : PipeWorld :=
  let at_pc pc raw := {| ir_zero with ir_pc := pc; ir_raw := raw; ir_type := ITYPE_ALU |} in
  let ex := {| ir_zero with ir_pc := 0x80000004; ir_raw := 2; ir_snpc := 0x80000008; ir_dnpc := next; ir_type := ITYPE_ALU |} in
  let w := empty_world m in
  {| w with cpu_pipe := mkPipeline 0 1 2 3 [mkPipeReg (at_pc 0x80000008 3) true; mkPipeReg ex true;
       mkPipeReg (at_pc 0x80000000 1) true; mkPipeReg ir_zero false] 0x8000000c 0 |}.

Lemma IF_runs w : mem_inv (mach w) -> g_pipe_stalled w = false -> cached (fetch_pc (cpu_pipe w)) = true ->
  in_block (fetch_pc (cpu_pipe w)) 4 -> exists w', stage_IF w = Ok w'.
Proof.
  intros Hm Hs Hc Hi. unfold stage_IF. cbv zeta. rewrite Hs.
  destruct (vaddr_ifetch_ok (mach w) (fetch_pc (cpu_pipe w)) 4 Hm Hc Hi) as (m1 & E & _). rewrite E.
  cbn [mbind Res_bind]. case_if; [destruct (bpred_predict _ _ _) |]; eauto.
Qed.

Lemma flowing_runs next m : mem_inv m -> next = 0x80000008 \/ next = 0x80000040 ->
  pipe_wf (flowing next m) /\ exists w', pipeline_cycle (flowing next m) = Ok w'.
Proof.
  intros Hm Hn. split.
  { destruct (sample_wf m ITYPE_ALU None 0). by split. }
  set (w0 := put_fetch_slot 3 (put_stalled false (flowing next m))).
  assert (H : exists w3, (w1 ← stage_WB w0; w2 ← stage_MEM w1; stage_EX w2) = Ok w3 /\ mach (stage_ID w3) = m /\
    g_pipe_stalled (stage_ID w3) = false /\ (fetch_pc (cpu_pipe (stage_ID w3)) = 0x8000000c \/ fetch_pc (cpu_pipe (stage_ID w3)) = 0x80000040)).
  { destruct Hn as [-> | ->]; eexists; (split; [reflexivity |]); split_and!; try reflexivity; [left | right]; reflexivity. }
  destruct H as (w3 & E & Em & Es & Ef). destruct (IF_runs (stage_ID w3)) as [w4 E4].
  - by rewrite Em.
  - done.
  - by destruct Ef as [-> | ->].
  - destruct Ef as [-> | ->]; (split; [lia | vm_compute; congruence]).
  - unfold pipeline_cycle. cbv zeta. change (0 <? mem_stall_rem _) with false. cbv iota. unfold run_stages. cbv zeta.
    change (put_fetch_slot _ _) with w0. destruct (stage_WB w0) as [w1|]; [| done]. cbn [mbind Res_bind] in *.
    destruct (stage_MEM w1) as [w2|]; [| done]. cbn [mbind Res_bind] in *. rewrite E. cbn [mbind Res_bind].
    rewrite E4. cbn [mbind Res_bind]. eauto.
Qed.

