(* ===== verification/Ring.v ===== *)
(** * Circular buffers

    The ROB, the free list and the store buffer of ooo.c are arrays with a
    head index and a count.  [ring l size head n] is the list of the [n]
    elements from [head] on; the lemmas say what a push at the tail, a pop at
    the head and a pop at the tail do to it. *)

From S2P Require Import Prelude.

Definition ring {A} `{Inhabited A} (l : list A) (size head : Z) (n : nat) : list A :=
  (fun k => arr l ((head + k) mod size)) <$> seqZ_from 0 n.

Lemma seqZ_from_snoc n start : seqZ_from start (S n) = seqZ_from start n ++ [start + Z.of_nat n].
Proof.
  revert start. induction n as [|n IH]; intros start.
  - cbn. do 2 f_equal. lia.
  - change (seqZ_from start (S (S n))) with (start :: seqZ_from (start + 1) (S n)). rewrite IH.
    cbn [seqZ_from app]. do 3 f_equal. lia.
Qed.

Lemma seqZ_from_shift n start d : seqZ_from (start + d) n = (fun k => k + d) <$> seqZ_from start n.
Proof.
  revert start. induction n as [|n IH]; intros start; cbn; [done |]. f_equal.
  rewrite <-IH. f_equal. lia.
Qed.

Section Rings.
Context {A : Type} `{Inhabited A}.
Implicit Types (l : list A) (size head : Z).

Lemma length_ring l size head n : length (ring l size head n) = n.
Proof. unfold ring. by rewrite length_fmap, length_seqZ_from. Qed.

Lemma ring_pop_back l size head n : ring l size head (S n) = ring l size head n ++ [arr l ((head + Z.of_nat n) mod size)].
Proof. unfold ring. rewrite seqZ_from_snoc, fmap_app. by rewrite Z.add_0_l. Qed.

Lemma ring_pop_front l size head n : 0 <= head < size ->
  ring l size head (S n) = arr l head :: ring l size ((head + 1) mod size) n.
Proof.
  intros Hh. unfold ring. cbn [seqZ_from fmap list_fmap]. f_equal.
  - f_equal. rewrite Z.add_0_r. apply Z.mod_small. lia.
  - change (0 + 1) with (0 + (1)). rewrite seqZ_from_shift, <-list_fmap_compose.
    apply list_fmap_ext. intros i k _. cbn. f_equal. rewrite Zplus_mod_idemp_l. f_equal. lia.
Qed.

(** Positions of a ring: the index wraps at most once. *)
Lemma ring_wrap size head k : 0 <= head < size -> 0 <= k < size ->
  (head + k) mod size = if head + k <? size then head + k else head + k - size.
Proof.
  intros Hh Hk. case_if; zify_bool; [apply Z.mod_small; lia |].
  rewrite <-(Z_mod_plus_full _ (-1)). rewrite Z.mod_small; lia.
Qed.

Lemma ring_pos_inj size head j k : 0 <= head < size -> 0 <= j < size -> 0 <= k < size ->
  (head + j) mod size = (head + k) mod size -> j = k.
Proof.
  intros Hh Hj Hk E. rewrite !ring_wrap in E by lia. repeat case_if_in E; zify_bool; lia.
Qed.

Lemma ring_pos size head i : 0 <= head < size -> 0 <= i < size ->
  (head + (i - head + size) mod size) mod size = i.
Proof.
  intros Hh Hi. rewrite Zplus_mod_idemp_r. replace (head + (i - head + size)) with (i + 1 * size) by lia.
  rewrite Z_mod_plus_full. apply Z.mod_small. lia.
Qed.

Lemma ring_dist size head k : 0 <= head < size -> 0 <= k < size ->
  ((head + k) mod size - head + size) mod size = k.
Proof.
  intros Hh Hk. apply (ring_pos_inj size head); [done | apply Z.mod_pos_bound; lia | done |].
  apply ring_pos; [done | apply Z.mod_pos_bound; lia].
Qed.

Lemma lookup_ring l size head n k : (k < n)%nat ->
  ring l size head n !! k = Some (arr l ((head + Z.of_nat k) mod size)).
Proof. intros Hk. unfold ring. by rewrite list_lookup_fmap, lookup_seqZ_from, Z.add_0_l. Qed.

(** Writing outside the ring. *)
Lemma ring_upd_out l size head n k v : 0 <= head < size -> Z.of_nat n <= k < size ->
  ring (upd l ((head + k) mod size) v) size head n = ring l size head n.
Proof.
  intros Hh Hk. unfold ring. apply list_fmap_ext. intros i j Hj.
  apply list_elem_of_lookup_2, elem_of_seqZ_from in Hj.
  apply arr_upd_ne; [apply Z.mod_pos_bound; lia |].
  intros E. apply ring_pos_inj in E; lia.
Qed.

Lemma ring_push l size head n v : Z.of_nat (length l) = size -> 0 <= head < size -> Z.of_nat n < size ->
  ring (upd l ((head + Z.of_nat n) mod size) v) size head (S n) = ring l size head n ++ [v].
Proof.
  intros Hl Hh Hn. rewrite ring_pop_back, ring_upd_out by lia. do 2 f_equal.
  apply arr_upd_eq. rewrite Hl. apply Z.mod_pos_bound. lia.
Qed.

(** Writing inside the ring. *)
Lemma ring_upd_in l size head n k v : Z.of_nat (length l) = size -> 0 <= head < size ->
  (k < n)%nat -> Z.of_nat n <= size ->
  ring (upd l ((head + Z.of_nat k) mod size) v) size head n = <[k := v]> (ring l size head n).
Proof.
  intros Hl Hh Hk Hn. apply list_eq_same_length with (n := n).
  - by rewrite length_insert, length_ring.
  - apply length_ring.
  - intros i x y Hi. rewrite lookup_ring by done. intros [= <-] Hy.
    destruct (decide (i = k)) as [->|Hne].
    + rewrite list_lookup_insert_eq in Hy by (rewrite length_ring; lia). injection Hy as <-.
      apply arr_upd_eq. rewrite Hl. apply Z.mod_pos_bound. lia.
    + rewrite list_lookup_insert_ne, lookup_ring in Hy by (done || lia). injection Hy as <-.
      apply arr_upd_ne; [apply Z.mod_pos_bound; lia |]. intros E. apply ring_pos_inj in E; lia.
Qed.
End Rings.

Lemma arr_fmap {A B} `{Inhabited A, Inhabited B} (f : A -> B) (l : list A) i :
  0 <= i < Z.of_nat (length l) -> arr (f <$> l) i = f (arr l i).
Proof.
  intros Hi. unfold arr at 1. apply list_lookup_total_correct. by rewrite list_lookup_fmap, arr_lookup.
Qed.

Lemma fmap_ring {A B} `{Inhabited A, Inhabited B} (f : A -> B) (l : list A) size head n :
  Z.of_nat (length l) = size -> 0 < size -> f <$> ring l size head n = ring (f <$> l) size head n.
Proof.
  intros Hl Hs. unfold ring. rewrite <-list_fmap_compose. apply list_fmap_ext. intros i k _. cbn.
  rewrite arr_fmap; [done |]. rewrite Hl. apply Z.mod_pos_bound. lia.
Qed.

(** An update that the observation [f] does not see. *)
Lemma fmap_upd_same {A B} `{Inhabited A} (f : A -> B) (l : list A) i v :
  f v = f (arr l i) -> f <$> upd l i v = f <$> l.
Proof.
  intros Hv. transitivity (f <$> upd l i (arr l i)); [| by rewrite upd_same].
  unfold upd. case_if; [| done]. by rewrite !list_fmap_insert, Hv.
Qed.
