(* ===== verification/Ooo.v ===== *)
(** * The out-of-order engine (src/cpu/ooo.c, include/cpu/ooo.h)

    Tomasulo's scheme with explicit renaming: a physical register file with a
    free list and two rename tables, a reorder buffer, reservation stations
    with ready and free bit masks, the INT, MUL and LSU units with their
    latches, miss-status registers and a store buffer.  Every stage of
    [ooo_cycle] is a function on [OOOState] or, where it touches the machine
    or the predictors, on [OooWorld]. *)

From S2P Require Import Prelude Word State Pmp Csr Cache CacheSet CacheSpec CacheRefine Coherence Mmio Mem Ftrace Vmem VmemSpec Decode Ir IrSpec Exec Isa Bpred Pipeline Ringbuf.
From Stdlib Require Import Ascii.

(** ** exec_cfg.h and the sizes of ooo.h *)

Definition FETCH_WIDTH : nat := 2.
Definition COMMIT_WIDTH : nat := 2.
Definition NUM_INT_UNITS : nat := 2.
Definition NUM_MUL_UNITS : nat := 1.
Definition NUM_LSU_UNITS : nat := 2.
Definition LAT_INT_MUL : Z := 3.
Definition LAT_INT_DIV : Z := 20.
Definition EU_INT : Z := 0.
Definition EU_MUL : Z := 1.
Definition EU_LSU : Z := 2.
Definition NUM_PHYS_REGS : Z := 64.
Definition FREE_LIST_SIZE : Z := NUM_PHYS_REGS.
Definition ROB_SIZE : Z := 32.
Definition RS_SIZE : Z := 16.
Definition MSHR_SIZE : Z := 8.
Definition STORE_BUF_SIZE : Z := 16.

(** ** Data *)

Record PhysReg := mkPhysReg { pr_value : Z; pr_ready : bool }.

Record FreeList := mkFreeList {
  fl_regs : list Z;
  fl_head : Z;
  fl_tail : Z;
  fl_count : Z;
}.

Record ROBEntry := mkROB {
  rob_ir : IR_Inst;
  arch_rd : Z;
  rob_phys_rd : Z;
  old_phys : Z;
  store_data : Z;
  rob_ready : bool;
  rob_valid : bool;
}.

Record RSEntry := mkRS {
  rs_valid : bool;
  rs_phys_rd : Z;
  rs_rob_idx : Z;
  src1_ready : bool;
  rs_src1_val : Z;
  src1_ptag : Z;
  src2_ready : bool;
  rs_src2_val : Z;
  src2_ptag : Z;
  rs_cycles_rem : Z;
  eu_type : Z;
}.

Record MSHREntry := mkMSHR { mshr_valid : bool; line_addr : Z; mshr_cycles_rem : Z }.

Record OOOLatch := mkLatch {
  l_rob_idx : Z;
  l_phys_rd : Z;
  l_valid : bool;
  l_cycles_rem : Z;
  l_mshr_idx : Z;
  flushed : bool;
  l_src1_val : Z;
  l_src2_val : Z;
}.

Record OOOStats := mkOOOStats {
  os_cycles : Z;
  os_insts : Z;
  rob_full_stalls : Z;
  rs_full_stalls : Z;
  mispred_flushes : Z;
  serializing_stalls : Z;
  eu_contention_stalls : Z;
  branch_penalty_cycles : Z;
}.

Record StoreBufEntry := mkSbuf { sb_addr : Z; sb_data : Z; sb_width : Z; sb_valid : bool }.

Record OOOState := mkOOO {
  prf : list PhysReg;
  rat : list Z;
  rrat : list Z;
  freelist : FreeList;
  rob : list ROBEntry;
  rob_head : Z;
  rob_tail : Z;
  rob_count : Z;
  rs : list RSEntry;
  unready_store_count : Z;
  rs_ready_mask : list Z;
  rs_free_mask : Z;
  latch_if_id : list PipeReg;
  latch_id_rn : list PipeReg;
  latch_int : list OOOLatch;
  latch_mul : list OOOLatch;
  latch_lsu : list OOOLatch;
  mshr : list MSHREntry;
  ooo_fetch_pc : Z;
  sbuf : list StoreBufEntry;
  sbuf_head : Z;
  sbuf_tail : Z;
  sbuf_count : Z;
  sbuf_drain_tick : Z;
}.

#[export] Instance PhysReg_inhabited : Inhabited PhysReg := populate (mkPhysReg 0 false).
#[export] Instance ROBEntry_inhabited : Inhabited ROBEntry := populate (mkROB ir_zero 0 0 0 0 false false).
#[export] Instance RSEntry_inhabited : Inhabited RSEntry := populate (mkRS false 0 0 false 0 0 false 0 0 0 0).
#[export] Instance MSHREntry_inhabited : Inhabited MSHREntry := populate (mkMSHR false 0 0).
#[export] Instance OOOLatch_inhabited : Inhabited OOOLatch := populate (mkLatch 0 0 false 0 0 false 0 0).
#[export] Instance StoreBufEntry_inhabited : Inhabited StoreBufEntry := populate (mkSbuf 0 0 0 false).

(** The machine and the globals of pipeline.c, with those of ooo.c.  The trace
    capture [ooo_tc_ir] is only printed and left out; the busy counters
    [eu_int_busy], [eu_mul_busy] and [eu_lsu_busy] are never used. *)
Record OooWorld := mkOooWorld {
  pw : PipeWorld;
  ooo : OOOState;
  ooo_stats : OOOStats;
  bpred2_state : BranchPredictor;
  g_bpred2_mode : bool;
  difftest_ref : CPU_state;
  difftest_active : bool;
  log_fp : bool;                          (** a log file is open *)
  rb : ringbuf;
  disassemble : Z -> Z -> list ascii;     (** the LLVM disassembler *)
}.

Definition zero_ooo_stats : OOOStats := mkOOOStats 0 0 0 0 0 0 0 0.

(** ** Updates *)

Definition set_prf (i : Z) (r : PhysReg) (o : OOOState) : OOOState := {| o with prf := upd (prf o) i r |}.
Definition set_rat (i v : Z) (o : OOOState) : OOOState := {| o with rat := upd (rat o) i v |}.
Definition set_rrat (i v : Z) (o : OOOState) : OOOState := {| o with rrat := upd (rrat o) i v |}.
Definition set_rob (i : Z) (e : ROBEntry) (o : OOOState) : OOOState := {| o with rob := upd (rob o) i e |}.
Definition set_rs (i : Z) (e : RSEntry) (o : OOOState) : OOOState := {| o with rs := upd (rs o) i e |}.
Definition set_ready_mask (eu m : Z) (o : OOOState) : OOOState :=
  {| o with rs_ready_mask := upd (rs_ready_mask o) eu m |}.
Definition set_mshr (i : Z) (e : MSHREntry) (o : OOOState) : OOOState := {| o with mshr := upd (mshr o) i e |}.
Definition set_int (s : Z) (l : OOOLatch) (o : OOOState) : OOOState := {| o with latch_int := upd (latch_int o) s l |}.
Definition set_mul (s : Z) (l : OOOLatch) (o : OOOState) : OOOState := {| o with latch_mul := upd (latch_mul o) s l |}.
Definition set_lsu (s : Z) (l : OOOLatch) (o : OOOState) : OOOState := {| o with latch_lsu := upd (latch_lsu o) s l |}.
Definition set_if_id (s : Z) (r : PipeReg) (o : OOOState) : OOOState := {| o with latch_if_id := upd (latch_if_id o) s r |}.
Definition set_id_rn (s : Z) (r : PipeReg) (o : OOOState) : OOOState := {| o with latch_id_rn := upd (latch_id_rn o) s r |}.

Definition prf_unready (i : Z) (o : OOOState) : OOOState :=
  let r := arr (prf o) i in set_prf i {| r with pr_ready := false |} o.
Definition rob_put_ir (i : Z) (ir : IR_Inst) (o : OOOState) : OOOState :=
  let e := arr (rob o) i in set_rob i {| e with rob_ir := ir |} o.
Definition rob_put_ready (i : Z) (o : OOOState) : OOOState :=
  let e := arr (rob o) i in set_rob i {| e with rob_ready := true |} o.
Definition rob_invalidate (i : Z) (o : OOOState) : OOOState :=
  let e := arr (rob o) i in set_rob i {| e with rob_valid := false |} o.
Definition latch_off (l : OOOLatch) : OOOLatch := {| l with l_valid := false |}.

(** ** Bit masks *)

Definition bit (i : Z) : Z := Z.shiftl 1 i.
(** The positions of the set bits, lowest first: the loop
    [while (m) { i = ctz(m); m &= m - 1; ... }]. *)
Definition bits (m : Z) : list Z := filter (fun i => Z.testbit m i = true) (seqZ_from 0 32).
(** [__builtin_ctz], undefined on 0. *)
Definition ctz (m : Z) : Res Z := match bits m with i :: _ => Ok i | [] => Err Undefined end.
Definition popcount (m : Z) : Z := Z.of_nat (length (bits m)).

Definition rs_mask_update (i : Z) (o : OOOState) : OOOState :=
  let e := arr (rs o) i in
  let m := arr (rs_ready_mask o) (eu_type e) in
  set_ready_mask (eu_type e)
    (if rs_valid e && src1_ready e && src2_ready e then Z.lor m (bit i) else Z.ldiff m (bit i)) o.

Definition rs_mask_clear (i eu : Z) (o : OOOState) : OOOState :=
  let o := set_ready_mask eu (Z.ldiff (arr (rs_ready_mask o) eu) (bit i)) o in
  {| o with rs_free_mask := Z.lor (rs_free_mask o) (bit i) |}.

(** ** Free list and ROB order *)

Definition freelist_pop (o : OOOState) : Z * OOOState :=
  let f := freelist o in
  (arr (fl_regs f) (fl_head f),
   {| o with freelist := {| f with fl_head := (fl_head f + 1) mod FREE_LIST_SIZE; fl_count := fl_count f - 1 |} |}).

Definition freelist_push (reg : Z) (o : OOOState) : OOOState :=
  let f := freelist o in
  {| o with freelist := {| f with fl_regs := upd (fl_regs f) (fl_tail f) reg;
                                  fl_tail := (fl_tail f + 1) mod FREE_LIST_SIZE;
                                  fl_count := fl_count f + 1 |} |}.

(** [(a - rob_head + ROB_SIZE) % ROB_SIZE] *)
Definition rob_dist (o : OOOState) (a : Z) : Z := (a - rob_head o + ROB_SIZE) mod ROB_SIZE.

Definition rob_newer_than (o : OOOState) (a b : Z) : bool := rob_dist o b <? rob_dist o a.

(** The slots from [rob_head] up to, not including, [idx]: the loop
    [for (j = rob_head; j != idx; j = (j + 1) % ROB_SIZE)]. *)
Definition rob_older (o : OOOState) (idx : Z) : list Z :=
  (fun k => (rob_head o + k) mod ROB_SIZE) <$> seqZ_from 0 (Z.to_nat (rob_dist o idx)).

(** ** CDB broadcast *)

Definition waits1 (tag : Z) (e : RSEntry) : bool := negb (src1_ready e) && (src1_ptag e =? tag).
Definition waits2 (tag : Z) (e : RSEntry) : bool := negb (src2_ready e) && (src2_ptag e =? tag).

(** The station with the operands that wait for [tag] filled in. *)
Definition woken (tag v : Z) (e : RSEntry) : RSEntry :=
  let e := if waits1 tag e then {| e with rs_src1_val := v; src1_ready := true |} else e in
  if waits2 tag e then {| e with rs_src2_val := v; src2_ready := true |} else e.

Definition set_ready_bit (i eu : Z) (o : OOOState) : OOOState :=
  set_ready_mask eu (Z.lor (arr (rs_ready_mask o) eu) (bit i)) o.

Definition cdb_wake (phys_tag i : Z) (o : OOOState) : OOOState :=
  let e := arr (rs o) i in
  let e' := woken phys_tag (pr_value (arr (prf o) phys_tag)) e in
  let changed := waits1 phys_tag e || waits2 phys_tag e in
  let o := set_rs i e' o in
  if changed && src1_ready e' && src2_ready e' then set_ready_bit i (eu_type e') o else o.

(** Only slots outside the free mask are looked at. *)
Definition cdb_broadcast (phys_tag : Z) (o : OOOState) : OOOState :=
  let valid_mask := Z.ldiff (2 ^ RS_SIZE - 1) (rs_free_mask o) in
  foldl (fun o i => cdb_wake phys_tag i o) o (bits valid_mask).

(** ** ooo_flush_after *)

Definition put_tail (t : Z) (o : OOOState) : OOOState := {| o with rob_tail := t |}.
Definition less_unready (o : OOOState) : OOOState := {| o with unready_store_count := unready_store_count o - 1 |}.
Definition less_count (o : OOOState) : OOOState := {| o with rob_count := rob_count o - 1 |}.

(** The rename table gets its old entry back, the new register is freed. *)
Definition undo_rename (e : ROBEntry) (o : OOOState) : OOOState :=
  freelist_push (rob_phys_rd e) (prf_unready (rob_phys_rd e) (set_rat (arch_rd e) (old_phys e) o)).

(** [arch_rd != -1 && arch_rd != 0] *)
Definition has_dest (rd : Z) : bool := negb (rd =? -1) && negb (rd =? 0).

Definition is_store_raw (raw : Z) : bool := Z.land raw 0x7f =? 0x23.

(** One iteration of the loop that walks [rob_tail] back. *)
Definition flush_entry (o : OOOState) : OOOState :=
  let t := (rob_tail o - 1 + ROB_SIZE) mod ROB_SIZE in
  let e := arr (rob o) t in
  let o := put_tail t o in
  if negb (rob_valid e) then o else
  let o := if has_dest (arch_rd e) then undo_rename e o else o in
  let o := if negb (rob_ready e) && is_store_raw (ir_raw (rob_ir e)) then less_unready o else o in
  less_count (rob_invalidate t o).

(** [while (rob_tail != new_tail)]: at most [ROB_SIZE] iterations. *)
Fixpoint flush_rob (fuel : nat) (new_tail : Z) (o : OOOState) : OOOState :=
  match fuel with
  | O => o
  | S fuel => if rob_tail o =? new_tail then o else flush_rob fuel new_tail (flush_entry o)
  end.

Definition flush_rs (branch_rob_idx i : Z) (o : OOOState) : OOOState :=
  let e := arr (rs o) i in
  if rs_valid e && rob_newer_than o (rs_rob_idx e) branch_rob_idx
  then set_rs i {| e with rs_valid := false |} (rs_mask_clear i (eu_type e) o)
  else o.

Definition flush_latch (o : OOOState) (branch_rob_idx : Z) (l : OOOLatch) : OOOLatch :=
  if l_valid l && rob_newer_than o (l_rob_idx l) branch_rob_idx then latch_off l else l.

(** A load that waits for a cache fill stays, marked. *)
Definition flush_lsu (o : OOOState) (branch_rob_idx : Z) (l : OOOLatch) : OOOLatch :=
  if l_valid l && rob_newer_than o (l_rob_idx l) branch_rob_idx
  then if 0 <=? l_mshr_idx l then {| l with flushed := true |} else latch_off l
  else l.

Definition pipe_reg_off (r : PipeReg) : PipeReg := {| r with pr_valid := false |}.

Definition flush_units (branch_rob_idx : Z) (o : OOOState) : OOOState :=
  {| o with latch_int := flush_latch o branch_rob_idx <$> latch_int o;
            latch_mul := flush_latch o branch_rob_idx <$> latch_mul o;
            latch_lsu := flush_lsu o branch_rob_idx <$> latch_lsu o;
            latch_if_id := pipe_reg_off <$> latch_if_id o;
            latch_id_rn := pipe_reg_off <$> latch_id_rn o |}.

(** Stations, unit latches and the front end. *)
Definition flush_rest (branch_rob_idx : Z) (o : OOOState) : OOOState :=
  flush_units branch_rob_idx
    (foldl (fun o i => flush_rs branch_rob_idx i o) o (seqZ_from 0 (Z.to_nat RS_SIZE))).

Definition ooo_flush_after (branch_rob_idx : Z) (o : OOOState) : OOOState :=
  let new_tail := (branch_rob_idx + 1) mod ROB_SIZE in
  flush_rest branch_rob_idx (flush_rob (Z.to_nat ROB_SIZE) new_tail o).

(** ** Access to the world *)

Definition omach (w : OooWorld) : Mach := mach (pw w).
Definition put_pw (p : PipeWorld) (w : OooWorld) : OooWorld := {| w with pw := p |}.
Definition put_omach (m : Mach) (w : OooWorld) : OooWorld := put_pw (put_mach m (pw w)) w.
Definition put_ooo (o : OOOState) (w : OooWorld) : OooWorld := {| w with ooo := o |}.
Definition put_ostats (s : OOOStats) (w : OooWorld) : OooWorld := {| w with ooo_stats := s |}.
Definition map_ooo (f : OOOState -> OOOState) (w : OooWorld) : OooWorld := put_ooo (f (ooo w)) w.
Definition put_gpr (r v : Z) (c : CPU_state) : CPU_state := {| c with gpr := upd (gpr c) r v |}.
Definition put_ref (c : CPU_state) (w : OooWorld) : OooWorld := {| w with difftest_ref := c |}.

(** ** ooo_init *)

Definition zero_ooo : OOOState :=
  {| prf := replicate (Z.to_nat NUM_PHYS_REGS) (mkPhysReg 0 false);
     rat := replicate 32 0; rrat := replicate 32 0;
     freelist := mkFreeList (replicate (Z.to_nat FREE_LIST_SIZE) 0) 0 0 0;
     rob := replicate (Z.to_nat ROB_SIZE) inhabitant; rob_head := 0; rob_tail := 0; rob_count := 0;
     rs := replicate (Z.to_nat RS_SIZE) inhabitant; unready_store_count := 0;
     rs_ready_mask := replicate 3 0; rs_free_mask := 0;
     latch_if_id := replicate FETCH_WIDTH inhabitant; latch_id_rn := replicate FETCH_WIDTH inhabitant;
     latch_int := replicate NUM_INT_UNITS inhabitant; latch_mul := replicate NUM_MUL_UNITS inhabitant;
     latch_lsu := replicate NUM_LSU_UNITS inhabitant;
     mshr := replicate (Z.to_nat MSHR_SIZE) inhabitant; ooo_fetch_pc := 0;
     sbuf := replicate (Z.to_nat STORE_BUF_SIZE) inhabitant; sbuf_head := 0; sbuf_tail := 0;
     sbuf_count := 0; sbuf_drain_tick := 0 |}.

(** The register file and the rename tables. *)
Definition init_phys (c : CPU_state) (i : Z) : PhysReg :=
  mkPhysReg (if (0 <? i) && (i <? 32) then arr (gpr c) i else 0) true.

Definition init_ooo (c : CPU_state) : OOOState :=
  let o := zero_ooo in
  let o := {| o with prf := init_phys c <$> seqZ_from 0 (Z.to_nat NUM_PHYS_REGS);
                     rat := seqZ_from 0 32; rrat := seqZ_from 0 32 |} in
  let o := foldl (fun o i => freelist_push i o) o (seqZ_from 32 32) in
  {| o with rs_free_mask := 2 ^ RS_SIZE - 1; ooo_fetch_pc := pc c |}.

Definition ooo_init (w : OooWorld) : OooWorld :=
  let c := cpu (omach w) in
  let p := pw w in
  {| w with ooo := init_ooo c; ooo_stats := zero_ooo_stats;
            pw := if g_bpred_mode p then put_bpred bpred_init p else p;
            bpred2_state := if g_bpred2_mode w then bpred_init else bpred2_state w;
            difftest_ref := c;
            difftest_active := (g_num_cores (omach w) =? 1) && g_difftest_en p |}.

(** ** Differential testing *)

(** One instruction on the reference registers, on the shared memory. *)
Definition ref_step (w : OooWorld) : Res OooWorld :=
  let m := omach w in
  let ref := difftest_ref w in
  let pc := pc ref in
  '(v, m) ← vaddr_read pc 4 m;
  let ir := ir_decode (gpr (cpu m)) (wrap32 v) pc (pc + 4)%word (diff_junk (pw w)) in
  let ir := reread (gpr ref) ir in
  '(ir, m1) ← ir_execute ir (set_cpu ref m);
  '(ir, m2) ← (if bool_decide (ir_type ir = ITYPE_LOAD) then
                 '(ir, _, m2) ← ir_mem_access false ir m1; Ok (ir, m2)
               else Ok (ir, m1));
  ref ← ir_writeback ir (cpu m2);
  Ok (put_ref (put_gpr 0 0 (set_pc (ir_dnpc ir) ref)) (put_omach (set_cpu (cpu m) m2) w)).

(** The search for a buffered store to exactly the loaded bytes. *)
Definition sbuf_covers (o : OOOState) (addr width : Z) : bool :=
  existsb (fun bi =>
    let se := arr (sbuf o) ((sbuf_tail o - 1 - bi + STORE_BUF_SIZE) mod STORE_BUF_SIZE) in
    sb_valid se && (sb_addr se =? addr) && (sb_width se =? width))
    (seqZ_from 0 (Z.to_nat (sbuf_count o))).

Definition put_cpu (c : CPU_state) (w : OooWorld) : OooWorld := put_omach (set_cpu c (omach w)) w.

Definition difftest_check (e : ROBEntry) (w : OooWorld) : Res OooWorld :=
  let t := ir_type (rob_ir e) in
  let skip_cmp := bool_decide (t = ITYPE_CSR \/ t = ITYPE_SYSTEM \/ t = ITYPE_FENCE \/ t = ITYPE_STORE) in
  w ← ref_step w;
  let c := cpu (omach w) in
  let ref := difftest_ref w in
  let rd := arch_rd e in
  if skip_cmp then
    Ok (if 0 <? rd then put_ref (put_gpr rd (arr (gpr c) rd) ref) w else w)
  else if bool_decide (t = ITYPE_LOAD) && (0 <? rd) then
    let ooo_val := arr (gpr c) rd in
    let ref_val := arr (gpr ref) rd in
    if 0xa0000000 <=? mem_addr (rob_ir e) then Ok (put_ref (put_gpr rd ooo_val ref) w)
    else if negb (ooo_val =? ref_val) &&
            negb (sbuf_covers (ooo w) (mem_addr (rob_ir e)) (mem_width (rob_ir e))) then
      Ok (put_ref (put_gpr rd ref_val ref) (put_cpu (put_gpr rd ref_val c) w))
    else Ok (put_ref (put_gpr rd ooo_val ref) w)
  else
    let mismatch := existsb (fun i => negb (arr (gpr c) i =? arr (gpr ref) i)) (seqZ_from 1 31) in
    Ok (if mismatch then put_ref c w else w).

(** ** ooo_stage_commit *)

(** The trace line of a committed instruction. *)
Definition commit_trace (ir : IR_Inst) (w : OooWorld) : Res OooWorld :=
  if negb (log_fp w) then Ok w else
  let text := disassemble w (ir_pc ir) (ir_raw ir) in
  _ ← ensure Assertion (Z.of_nat (length text) <? 70);
  r ← add_ringbuf_inst (trace_line (ir_pc ir) (ir_raw ir) text) (rb w);
  Ok {| w with rb := r |}.

Definition sbuf_push (a d width : Z) (o : OOOState) : OOOState :=
  {| o with sbuf := upd (sbuf o) (sbuf_tail o) (mkSbuf a d width true);
            sbuf_tail := (sbuf_tail o + 1) mod STORE_BUF_SIZE;
            sbuf_count := sbuf_count o + 1 |}.

(** Cacheable stores are buffered, the others take effect at once. *)
Definition commit_store (e : ROBEntry) (w : OooWorld) : Res OooWorld :=
  let ir := rob_ir e in
  if bool_decide (ir_type ir = ITYPE_STORE) then
    if cached (mem_addr ir)
    then Ok (map_ooo (sbuf_push (mem_addr ir) (store_data e) (mem_width ir)) w)
    else m ← vaddr_write (mem_addr ir) (mem_width ir) (store_data e) (omach w); Ok (put_omach m w)
  else Ok w.

Definition commit_rename (e : ROBEntry) (o : OOOState) : OOOState :=
  freelist_push (old_phys e) (prf_unready (old_phys e) (set_rrat (arch_rd e) (rob_phys_rd e) o)).

Definition commit_regs (e : ROBEntry) (w : OooWorld) : OooWorld :=
  let v := pr_value (arr (prf (ooo w)) (rob_phys_rd e)) in
  let c := cpu (omach w) in
  let c := if has_dest (arch_rd e) then put_gpr (arch_rd e) v c else c in
  let w := if has_dest (arch_rd e) then map_ooo (commit_rename e) w else w in
  put_cpu (set_pc (ir_dnpc (rob_ir e)) (put_gpr 0 0 c)) w.

Definition rob_pop (o : OOOState) : OOOState :=
  let o := rob_invalidate (rob_head o) o in
  {| o with rob_head := (rob_head o + 1) mod ROB_SIZE; rob_count := rob_count o - 1 |}.

Definition count_commit (w : OooWorld) : OooWorld :=
  let s := ooo_stats w in put_ostats {| s with os_insts := (os_insts s + 1)%word |} w.

(** One iteration; [false] when the loop breaks. *)
Definition commit_one (w : OooWorld) : Res (bool * OooWorld) :=
  let o := ooo w in
  if rob_count o =? 0 then Ok (false, w) else
  let e := arr (rob o) (rob_head o) in
  let ir := rob_ir e in
  if negb (rob_valid e) || negb (rob_ready e) then Ok (false, w) else
  w ← commit_trace ir w;
  if bool_decide (ir_type ir = ITYPE_FENCE) && (0 <? sbuf_count o) then Ok (false, w) else
  _ ← ensure Assertion (negb (fault ir));
  if bool_decide (ir_type ir = ITYPE_STORE) && cached (mem_addr ir) && (STORE_BUF_SIZE <=? sbuf_count o)
  then Ok (false, w) else
  w ← commit_store e w;
  let w := commit_regs e w in
  w ← (if difftest_active w then difftest_check e w else Ok w);
  Ok (true, count_commit (map_ooo rob_pop w)).

Fixpoint commit_loop (n : nat) (w : OooWorld) : Res OooWorld :=
  match n with
  | O => Ok w
  | S n => '(go, w) ← commit_one w; if go : bool then commit_loop n w else Ok w
  end.

Definition ooo_stage_commit (w : OooWorld) : Res OooWorld := commit_loop COMMIT_WIDTH w.

(** ** Miss-status registers *)

(** The index of the first entry from [i] on that satisfies [P]. *)
Fixpoint find_from {A} (P : A -> bool) (l : list A) (i : Z) : option Z :=
  match l with
  | [] => None
  | x :: l => if P x then Some i else find_from P l (i + 1)
  end.

(** The index, or -1 when the table is full. *)
Definition mshr_find_or_alloc (line lat : Z) (o : OOOState) : Z * OOOState :=
  match find_from (fun e => mshr_valid e && (line_addr e =? line)) (mshr o) 0 with
  | Some i => (i, o)
  | None =>
      match find_from (fun e => negb (mshr_valid e)) (mshr o) 0 with
      | Some i => (i, set_mshr i (mkMSHR true line (lat - 1)) o)
      | None => (-1, o)
      end
  end.

Definition tick_entry (e : MSHREntry) : MSHREntry :=
  if mshr_valid e && (0 <? mshr_cycles_rem e) then {| e with mshr_cycles_rem := mshr_cycles_rem e - 1 |} else e.

Definition mshr_tick (o : OOOState) : OOOState := {| o with mshr := tick_entry <$> mshr o |}.

Definition mshr_off (i : Z) (o : OOOState) : OOOState :=
  let e := arr (mshr o) i in set_mshr i {| e with mshr_valid := false |} o.

(** Another load slot waits for the same line. *)
Definition mshr_still_used (s mi : Z) (o : OOOState) : bool :=
  existsb (fun t => negb (t =? s) && l_valid (arr (latch_lsu o) t) && (l_mshr_idx (arr (latch_lsu o) t) =? mi))
    (seqZ_from 0 NUM_LSU_UNITS).

Definition mshr_release (s mi : Z) (o : OOOState) : OOOState :=
  if mshr_still_used s mi o then o else mshr_off mi o.

(** ** The INT unit *)

(** The result reaches the physical register file and the waiting stations. *)
Definition publish (p v : Z) (o : OOOState) : OOOState := set_prf p (mkPhysReg v true) o.

Definition finish (ir : IR_Inst) (rob_idx phys_rd : Z) (o : OOOState) : OOOState :=
  let o := rob_put_ir rob_idx ir o in
  let o := if 0 <=? phys_rd then
             let o := publish phys_rd (ir_result ir) o in
             if 0 <? phys_rd then cdb_broadcast phys_rd o else o
           else o in
  rob_put_ready rob_idx o.

Definition operands (l : OOOLatch) (ir : IR_Inst) : IR_Inst :=
  {| ir with src1_val := l_src1_val l; src2_val := l_src2_val l |}.

(** [bp_predicted_pc ? bp_predicted_pc : snpc] *)
Definition predicted_pc (ir : IR_Inst) : Z :=
  if bp_predicted_pc ir =? 0 then ir_snpc ir else bp_predicted_pc ir.

Definition train (ir : IR_Inst) (w : OooWorld) : OooWorld :=
  if g_bpred2_mode w then {| w with bpred2_state := bpred2_update (bpred2_state w) ir |}
  else let p := pw w in
       if g_bpred_mode p then put_pw (put_bpred (bpred_update (bpred p) ir) p) w else w.

Definition restore_ras (ir : IR_Inst) (w : OooWorld) : OooWorld :=
  let p := pw w in
  let bp := bpred p in
  if g_bpred_mode p
  then put_pw (put_bpred {| bp with ras_top := ras_top_snap ir; ras_count := ras_cnt_snap ir |} p) w
  else w.

Definition redirect (rob_idx : Z) (ir : IR_Inst) (w : OooWorld) : OooWorld :=
  let w := map_ooo (ooo_flush_after rob_idx) (restore_ras ir w) in
  let s := ooo_stats w in
  let w := put_ostats {| s with mispred_flushes := (mispred_flushes s + 1)%word |} w in
  map_ooo (fun o => {| o with ooo_fetch_pc := ir_dnpc ir |}) w.

Definition rob_fault (i : Z) (o : OOOState) : OOOState :=
  let ir := rob_ir (arr (rob o) i) in rob_put_ir i {| ir with fault := true |} o.

Definition resolve (rob_idx : Z) (ir : IR_Inst) (w : OooWorld) : OooWorld :=
  if is_control (ir_type ir) then
    let w := train ir w in
    if ir_dnpc ir =? predicted_pc ir then w
    else if negb (cached (ir_dnpc ir)) then map_ooo (rob_fault rob_idx) w
    else redirect rob_idx ir w
  else w.

Definition int_slot (s : Z) (w : OooWorld) : Res OooWorld :=
  let l := arr (latch_int (ooo w)) s in
  if negb (l_valid l) then Ok w else
  let w := map_ooo (set_int s (latch_off l)) w in
  let e := arr (rob (ooo w)) (l_rob_idx l) in
  if negb (rob_valid e) then Ok w else
  '(ir, m) ← ir_execute (operands l (rob_ir e)) (omach w);
  Ok (resolve (l_rob_idx l) ir (map_ooo (finish ir (l_rob_idx l) (l_phys_rd l)) (put_omach m w))).

Definition ooo_unit_int (w : OooWorld) : Res OooWorld := for_each (seqZ_from 0 NUM_INT_UNITS) int_slot w.

(** ** The MUL unit *)

Definition mul_latency (raw : Z) : Z :=
  let opc := Z.land raw 0x7f in
  if ((opc =? 0x33) || (opc =? 0x3b)) && (Z.shiftr raw 25 =? 1)
  then if Z.land (Z.shiftr raw 12) 0x7 <? 4 then LAT_INT_MUL else LAT_INT_DIV
  else 1.

Definition mul_exec (s : Z) (w : OooWorld) : Res OooWorld :=
  let l := arr (latch_mul (ooo w)) s in
  let w := map_ooo (set_mul s (latch_off l)) w in
  let e := arr (rob (ooo w)) (l_rob_idx l) in
  if negb (rob_valid e) then Ok w else
  '(ir, m) ← ir_execute (operands l (rob_ir e)) (omach w);
  Ok (map_ooo (finish ir (l_rob_idx l) (l_phys_rd l)) (put_omach m w)).

Definition mul_slot (s : Z) (w : OooWorld) : Res OooWorld :=
  let l := arr (latch_mul (ooo w)) s in
  if negb (l_valid l) then Ok w else
  let e := arr (rob (ooo w)) (l_rob_idx l) in
  if l_cycles_rem l =? -1 then
    let lat := mul_latency (ir_raw (rob_ir e)) in
    let w := map_ooo (set_mul s {| l with l_cycles_rem := lat - 1 |}) w in
    if 1 <? lat then Ok w else mul_exec s w
  else if 0 <? l_cycles_rem l then
    Ok (map_ooo (set_mul s (if negb (rob_valid e) then latch_off l
                            else {| l with l_cycles_rem := l_cycles_rem l - 1 |})) w)
  else mul_exec s w.

Definition ooo_unit_mul (w : OooWorld) : Res OooWorld := for_each (seqZ_from 0 NUM_MUL_UNITS) mul_slot w.

(** ** The LSU *)

(** STLF_TRY: a store [sa, sa+sw) that contains the load [la, la+lw) supplies
    its bytes; otherwise [out] stays. *)
Definition stlf_try (sa sw sd la lw : Z) (sign : bool) (out : Z) : Res Z :=
  if (sa <=? la) && ((la + lw)%word <=? (sa + sw)%word) then
    let sh := s32 (la - sa)%word * 8 in
    _ ← ensure Undefined ((0 <=? sh) && (sh <? 64));
    Ok (extend_load sign lw (Z.shiftr sd sh))
  else Ok out.

(** Buffered stores, oldest first: the last hit wins. *)
Definition stlf_sbuf (ir : IR_Inst) (o : OOOState) (out : Z) : Res Z :=
  for_each (seqZ_from 0 (Z.to_nat (sbuf_count o))) (fun bi out =>
    let se := arr (sbuf o) ((sbuf_head o + bi) mod STORE_BUF_SIZE) in
    if sb_valid se
    then stlf_try (sb_addr se) (sb_width se) (sb_data se) (mem_addr ir) (mem_width ir) (mem_sign ir) out
    else Ok out) out.

(** Executed stores in the ROB older than the load. *)
Definition stlf_rob (ir : IR_Inst) (rob_idx : Z) (o : OOOState) (out : Z) : Res Z :=
  for_each (rob_older o rob_idx) (fun scan out =>
    let roe := arr (rob o) scan in
    if rob_valid roe && rob_ready roe && is_store_raw (ir_raw (rob_ir roe))
    then stlf_try (mem_addr (rob_ir roe)) (mem_width (rob_ir roe)) (store_data roe)
                  (mem_addr ir) (mem_width ir) (mem_sign ir) out
    else Ok out) out.

Definition put_result (i v : Z) (o : OOOState) : OOOState :=
  let ir := rob_ir (arr (rob o) i) in rob_put_ir i {| ir with ir_result := v |} o.

Definition lsu_off (s : Z) (o : OOOState) : OOOState := set_lsu s (latch_off (arr (latch_lsu o) s)) o.

(** A load from an address that is neither memory nor a device. *)
Definition lsu_bad (s rob_idx : Z) (o : OOOState) : OOOState :=
  let o := put_result rob_idx 0 (rob_fault rob_idx o) in
  let p := l_phys_rd (arr (latch_lsu o) s) in
  let o := if 0 <? p then cdb_broadcast p (publish p 0 o) else o in
  lsu_off s (rob_put_ready rob_idx o).

Definition lsu_done (s mi rob_idx phys_rd v : Z) (o : OOOState) : OOOState :=
  let o := put_result rob_idx v o in
  let o := if 0 <=? mi then mshr_release s mi o else o in
  lsu_off s (rob_put_ready rob_idx (cdb_broadcast phys_rd (publish phys_rd v o))).

(** The label [lsu_do_fill]. *)
Definition lsu_do_fill (s mi rob_idx phys_rd : Z) (w : OooWorld) : Res OooWorld :=
  let ir := rob_ir (arr (rob (ooo w)) rob_idx) in
  let pa := lo32 (mem_addr ir) in
  if negb (cached pa) && negb (0xa0000000 <=? pa) then Ok (map_ooo (lsu_bad s rob_idx) w) else
  '(raw, m) ← vaddr_fill_and_read (mem_addr ir) (mem_width ir) (omach w);
  let w := put_omach m w in
  v ← stlf_sbuf ir (ooo w) (extend_load (mem_sign ir) (mem_width ir) raw);
  v ← stlf_rob ir rob_idx (ooo w) v;
  _ ← ensure Undefined (in_range (prf (ooo w)) phys_rd);
  Ok (map_ooo (lsu_done s mi rob_idx phys_rd v) w).

(** The entry was flushed: an outstanding fill completes without write-back. *)
Definition lsu_flushed (s mi : Z) (w : OooWorld) : Res OooWorld :=
  if mi <? 0 then Ok (map_ooo (lsu_off s) w) else
  let e := arr (mshr (ooo w)) mi in
  if 0 <? mshr_cycles_rem e then Ok w else
  '(_, m) ← vaddr_fill_and_read (line_addr e) 8 (omach w);
  Ok (map_ooo (fun o => lsu_off s (mshr_release s mi o)) (put_omach m w)).

Definition lsu_store (s rob_idx : Z) (o : OOOState) : OOOState :=
  let e := arr (rob o) rob_idx in
  let o := set_rob rob_idx {| e with store_data := src2_val (rob_ir e); rob_ready := true |} o in
  lsu_off s (less_unready o).

Definition lsu_set_wait (s rem mi : Z) (o : OOOState) : OOOState :=
  let l := arr (latch_lsu o) s in set_lsu s {| l with l_cycles_rem := rem; l_mshr_idx := mi |} o.

(** First visit: compute the address. *)
Definition lsu_first (s rob_idx phys_rd : Z) (w : OooWorld) : Res OooWorld :=
  let l := arr (latch_lsu (ooo w)) s in
  let e := arr (rob (ooo w)) rob_idx in
  '(ir, m) ← ir_execute (operands l (rob_ir e)) (omach w);
  let w := map_ooo (rob_put_ir rob_idx ir) (put_omach m w) in
  if bool_decide (ir_type ir = ITYPE_STORE) then Ok (map_ooo (lsu_store s rob_idx) w)
  else if 0xa0000000 <=? mem_addr ir then
    if negb (rob_idx =? rob_head (ooo w)) then Ok (map_ooo (lsu_set_wait s (-2) (-1)) w)
    else lsu_do_fill s (-1) rob_idx phys_rd w
  else
    '(level, m) ← vaddr_probe_level (mem_addr ir) (omach w);
    let w := put_omach m w in
    let lat := arr level_to_lat level in
    if lat =? 1 then lsu_do_fill s (-1) rob_idx phys_rd w else
    let '(mi, o) := mshr_find_or_alloc (Z.ldiff (mem_addr ir) 63) lat (ooo w) in
    let w := put_ooo o w in
    if mi =? -1 then Ok w else Ok (map_ooo (lsu_set_wait s 0 mi) w).

Definition lsu_slot (s : Z) (w : OooWorld) : Res OooWorld :=
  let l := arr (latch_lsu (ooo w)) s in
  if negb (l_valid l) then Ok w else
  let phys_rd := l_phys_rd l in
  let rob_idx := l_rob_idx l in
  let mi := l_mshr_idx l in
  let e := arr (rob (ooo w)) rob_idx in
  if negb (rob_valid e) || flushed l then lsu_flushed s mi w
  else if (mi =? -1) && (l_cycles_rem l =? -1) then lsu_first s rob_idx phys_rd w
  else if (mi =? -1) && (l_cycles_rem l =? 0) then lsu_do_fill s mi rob_idx phys_rd w
  else if (mi =? -1) && (l_cycles_rem l =? -2) then
    if negb (rob_idx =? rob_head (ooo w)) then Ok w else lsu_do_fill s mi rob_idx phys_rd w
  else if (0 <=? mi) && (0 <? mshr_cycles_rem (arr (mshr (ooo w)) mi)) then Ok w
  else lsu_do_fill s mi rob_idx phys_rd w.

Definition ooo_unit_lsu (w : OooWorld) : Res OooWorld := for_each (seqZ_from 0 NUM_LSU_UNITS) lsu_slot w.

(** ** ooo_stage_is *)

Definition latch_from_rs (i : Z) (o : OOOState) : OOOLatch * OOOState :=
  let e := arr (rs o) i in
  (mkLatch (rs_rob_idx e) (rs_phys_rd e) true (-1) (-1) false (rs_src1_val e) (rs_src2_val e),
   let o := rs_mask_clear i (eu_type e) o in
   set_rs i {| e with rs_valid := false |} o).

(** A load waits for older stores that have no address yet, and for an older
    fence while the store buffer holds entries. *)
Definition load_blocked (o : OOOState) (idx : Z) : bool :=
  existsb (fun j =>
    let roe := arr (rob o) j in
    rob_valid roe &&
    (negb (rob_ready roe) && is_store_raw (ir_raw (rob_ir roe)) ||
     bool_decide (ir_type (rob_ir roe) = ITYPE_FENCE) && (0 <? sbuf_count o)))
    (rob_older o idx).

(** May the station [i] issue?  Only the LSU orders memory accesses. *)
Definition may_issue (mem_order : bool) (o : OOOState) (i : Z) : bool :=
  let idx := rs_rob_idx (arr (rs o) i) in
  negb (mem_order && (Z.land (ir_raw (rob_ir (arr (rob o) idx))) 0x7f =? 0x03) && load_blocked o idx).

(** The oldest ready station of a unit. *)
Definition pick_step (mem_order : bool) (o : OOOState) (best : option Z) (i : Z) : option Z :=
  if negb (may_issue mem_order o i) then best else
  match best with
  | None => Some i
  | Some b => if rob_dist o (rs_rob_idx (arr (rs o) i)) <? rob_dist o (rs_rob_idx (arr (rs o) b))
              then Some i else best
  end.

Definition pick (mem_order : bool) (eu : Z) (o : OOOState) : option Z :=
  foldl (pick_step mem_order o) None (bits (arr (rs_ready_mask o) eu)).

Definition issue_slot (get : OOOState -> list OOOLatch) (put : Z -> OOOLatch -> OOOState -> OOOState)
    (mem_order : bool) (eu : Z) (o : OOOState) (s : Z) : OOOState :=
  if l_valid (arr (get o) s) then o else
  match pick mem_order eu o with
  | Some i => let '(l, o) := latch_from_rs i o in put s l o
  | None => o
  end.

Definition ooo_stage_is (o : OOOState) : OOOState :=
  let o := foldl (issue_slot latch_int set_int false EU_INT) o (seqZ_from 0 NUM_INT_UNITS) in
  let o := foldl (issue_slot latch_mul set_mul false EU_MUL) o (seqZ_from 0 NUM_MUL_UNITS) in
  foldl (issue_slot latch_lsu set_lsu true EU_LSU) o (seqZ_from 0 NUM_LSU_UNITS).

(** ** ooo_stage_rn *)

Definition eu_of (raw : Z) : Z :=
  let opc := Z.land raw 0x7f in
  if (opc =? 0x03) || (opc =? 0x23) then EU_LSU
  else if ((opc =? 0x33) || (opc =? 0x3b)) && (Z.shiftr raw 25 =? 1) then EU_MUL
  else EU_INT.

(** A source operand read through the rename table: tag, ready, value. *)
Definition read_source (r : Z) (o : OOOState) : Z * bool * Z :=
  if 0 <? r then let p := arr (rat o) r in (p, pr_ready (arr (prf o) p), pr_value (arr (prf o) p))
  else (-1, true, 0).

Definition alloc_rob (ir : IR_Inst) (o : OOOState) : OOOState :=
  let t := rob_tail o in
  let e := arr (rob o) t in
  let o := {| o with rob_tail := (t + 1) mod ROB_SIZE; rob_count := rob_count o + 1 |} in
  let o := set_rob t {| e with rob_ir := ir; arch_rd := ir_rd ir; rob_ready := false; rob_valid := true;
                               store_data := 0 |} o in
  if is_store_raw (ir_raw ir) then {| o with unready_store_count := unready_store_count o + 1 |} else o.

(** Physical destination and the register it replaces. *)
Definition alloc_phys (rd : Z) (o : OOOState) : Z * Z * OOOState :=
  if has_dest rd then
    let '(p, o) := freelist_pop o in
    let old := arr (rat o) rd in
    (p, old, set_prf p (mkPhysReg 0 false) (set_rat rd p o))
  else if rd =? 0 then (0, 0, o) else (-1, -1, o).

Definition set_dest (i p old : Z) (o : OOOState) : OOOState :=
  let e := arr (rob o) i in set_rob i {| e with rob_phys_rd := p; old_phys := old |} o.

(** The station of a renamed instruction. *)
Definition fill_rs (ir : IR_Inst) (idx p : Z) (s1 s2 : Z * bool * Z) (e : RSEntry) : RSEntry :=
  let '(t1, r1, v1) := s1 in
  let '(t2, r2, v2) := s2 in
  let e := {| e with rs_valid := true; rs_phys_rd := p; rs_rob_idx := idx; eu_type := eu_of (ir_raw ir) |} in
  let e := if ir_rs1 ir <=? 0
           then {| e with src1_ready := true; rs_src1_val := (if ir_rs1 ir =? 0 then 0 else src1_val ir);
                          src1_ptag := 0 |}
           else {| e with src1_ptag := t1; src1_ready := r1; rs_src1_val := if r1 then v1 else 0 |} in
  if ir_rs2 ir =? -1
  then {| e with src2_ready := true; rs_src2_val := src2_val ir; src2_ptag := 0 |}
  else if ir_rs2 ir =? 0
  then {| e with src2_ready := true; rs_src2_val := 0; src2_ptag := 0 |}
  else {| e with src2_ptag := t2; src2_ready := r2; rs_src2_val := if r2 then v2 else 0 |}.

(** Everything that renaming one instruction does to the engine. *)
Definition rename (ir : IR_Inst) (o : OOOState) : Res OOOState :=
  let idx := rob_tail o in
  let o := alloc_rob ir o in
  let s1 := read_source (ir_rs1 ir) o in
  let s2 := read_source (ir_rs2 ir) o in
  let '(p, old, o) := alloc_phys (ir_rd ir) o in
  let o := set_dest idx p old o in
  slot ← ctz (rs_free_mask o);
  let o := {| o with rs_free_mask := Z.ldiff (rs_free_mask o) (bit slot) |} in
  Ok (rs_mask_update slot (set_rs slot (fill_rs ir idx p s1 s2 (arr (rs o) slot)) o)).

Definition id_rn_off (n : Z) (o : OOOState) : OOOState := set_id_rn n (pipe_reg_off (arr (latch_id_rn o) n)) o.

(** Why a rename slot stops the group. *)
Inductive rn_stop :=
  | Rn_go
  | Rn_serial
  | Rn_rob_full
  | Rn_rs_full.

Definition rn_guard (n used : Z) (ir : IR_Inst) (o : OOOState) : rn_stop :=
  if serializing ir && ((0 <? rob_count o) || (0 <? n)) then Rn_serial
  else if ROB_SIZE <=? rob_count o then Rn_rob_full
  else if RS_SIZE <=? used then Rn_rs_full
  else if has_dest (ir_rd ir) && (fl_count (freelist o) =? 0) then Rn_rob_full
  else Rn_go.

Definition rn_count (n : Z) (g : rn_stop) (s : OOOStats) : OOOStats :=
  match g with
  | Rn_go => s
  | Rn_serial => if n =? 0 then {| s with serializing_stalls := (serializing_stalls s + 1)%word |} else s
  | Rn_rob_full => {| s with rob_full_stalls := (rob_full_stalls s + 1)%word |}
  | Rn_rs_full => {| s with rs_full_stalls := (rs_full_stalls s + 1)%word |}
  end.

(** The iterations [n], [n + 1], ... of the loop; [used] is [rs_used]. *)
Fixpoint rn_loop (todo : nat) (n used : Z) (o : OOOState) (s : OOOStats) : Res (OOOState * OOOStats) :=
  match todo with
  | O => Ok (o, s)
  | S todo =>
      let r := arr (latch_id_rn o) n in
      if negb (pr_valid r) then Ok (o, s) else
      match rn_guard n used (pr_ir r) o with
      | Rn_go =>
          o ← rename (pr_ir r) o;
          rn_loop todo (n + 1) (used + 1) (id_rn_off n o) s
      | g => Ok (o, rn_count n g s)
      end
  end.

(** Slot 1 moves to slot 0 when it was left behind. *)
Definition rn_compact (o : OOOState) : OOOState :=
  if negb (pr_valid (arr (latch_id_rn o) 0)) && pr_valid (arr (latch_id_rn o) 1)
  then id_rn_off 1 (set_id_rn 0 (arr (latch_id_rn o) 1) o)
  else o.

Definition ooo_stage_rn (o : OOOState) (s : OOOStats) : Res (OOOState * OOOStats) :=
  if negb (pr_valid (arr (latch_id_rn o) 0)) then Ok (o, s) else
  let used := RS_SIZE - popcount (rs_free_mask o) in
  '(o, s) ← rn_loop FETCH_WIDTH 0 used o s;
  Ok (rn_compact o, s).

(** ** ooo_stage_id *)

Definition id_move (o : OOOState) (s : Z) : OOOState :=
  let r := arr (latch_if_id o) s in
  set_if_id s (pipe_reg_off r) (set_id_rn s r o).

Definition ooo_stage_id (o : OOOState) : OOOState :=
  if negb (pr_valid (arr (latch_if_id o) 0)) then o else
  if pr_valid (arr (latch_id_rn o) 0) then o else
  foldl id_move o (seqZ_from 0 FETCH_WIDTH).

(** ** ooo_stage_if *)

Definition set_ofetch (pc : Z) (o : OOOState) : OOOState := {| o with ooo_fetch_pc := pc |}.

(** The prediction for a control-flow instruction; [true] when fetch is
    redirected. *)
Definition if_predict (s pc raw : Z) (ir : IR_Inst) (w : OooWorld) : bool * OooWorld :=
  let p := pw w in
  let ir := {| ir with ras_top_snap := ras_top (bpred p); ras_cnt_snap := ras_count (bpred p) |} in
  let '(r, w) := (if g_bpred2_mode w then (bpred2_predict (bpred2_state w) pc, w)
                  else let '(r, bp) := bpred_predict (bpred p) pc raw in (r, put_pw (put_bpred bp p) w)) in
  let go := bpr_taken r && bpr_btb_hit r in
  let ir := {| ir with bp_predict_taken := bpr_taken r;
                       bp_predicted_pc := if go then bpr_target r else (pc + 4)%word |} in
  let w := map_ooo (set_if_id s (mkPipeReg ir true)) w in
  (go, if go then map_ooo (set_ofetch (bpr_target r)) w else w).

Definition if_one (s : Z) (w : OooWorld) : Res (bool * OooWorld) :=
  let pc := lo32 (ooo_fetch_pc (ooo w)) in
  let w := map_ooo (set_ofetch pc) w in
  if negb (cached pc) then Ok (false, map_ooo (set_ofetch (pc + 4)%word) w) else
  '(v, m) ← vaddr_ifetch pc 4 (omach w);
  let raw := wrap32 v in
  let w := put_omach m w in
  let ir := ir_decode (gpr (cpu m)) raw pc (pc + 4)%word (pr_ir (arr (latch_if_id (ooo w)) s)) in
  let ir := {| ir with bp_predict_taken := false; bp_predicted_pc := (pc + 4)%word |} in
  let w := map_ooo (fun o => set_ofetch (pc + 4)%word (set_if_id s (mkPipeReg ir true) o)) w in
  if (g_bpred_mode (pw w) || g_bpred2_mode w) && is_control_op raw then
    let '(go, w) := if_predict s pc raw ir w in Ok (negb go, w)
  else Ok (true, w).

Fixpoint if_loop (todo : nat) (s : Z) (w : OooWorld) : Res OooWorld :=
  match todo with
  | O => Ok w
  | S todo => '(go, w) ← if_one s w; if go : bool then if_loop todo (s + 1) w else Ok w
  end.

Definition ooo_stage_if (w : OooWorld) : Res OooWorld :=
  if pr_valid (arr (latch_if_id (ooo w)) 0) then Ok w else if_loop FETCH_WIDTH 0 w.

(** ** ooo_drain_store_buf *)

Definition sbuf_pop (o : OOOState) : OOOState :=
  let h := sbuf_head o in
  let se := arr (sbuf o) h in
  {| o with sbuf := upd (sbuf o) h {| se with sb_valid := false |};
            sbuf_head := (h + 1) mod STORE_BUF_SIZE; sbuf_count := sbuf_count o - 1 |}.

Definition drain_one (w : OooWorld) : Res OooWorld :=
  let o := ooo w in
  let se := arr (sbuf o) (sbuf_head o) in
  m ← vaddr_write (sb_addr se) (sb_width se) (sb_data se) (omach w);
  Ok (map_ooo sbuf_pop (put_omach m w)).

Definition ooo_drain_store_buf (w : OooWorld) : Res OooWorld :=
  let o := ooo w in
  if sbuf_count o =? 0 then Ok w else
  if 1 <? g_num_cores (omach w) then
    if 0 <? sbuf_drain_tick o then Ok (put_ooo {| o with sbuf_drain_tick := sbuf_drain_tick o - 1 |} w)
    else drain_one (put_ooo {| o with sbuf_drain_tick := LAT_L2_HIT - 1 |} w)
  else drain_one w.

(** ** ooo_cycle *)

Definition lift_rn (w : OooWorld) : Res OooWorld :=
  '(o, s) ← ooo_stage_rn (ooo w) (ooo_stats w); Ok (put_ostats s (put_ooo o w)).

(** The stages, in the order of both [ooo_cycle] and [ooo_cycle_core]. *)
Definition ooo_stages (w : OooWorld) : Res OooWorld :=
  w ← ooo_drain_store_buf w;
  w ← ooo_stage_commit w;
  w ← ooo_unit_int (map_ooo mshr_tick w);
  w ← ooo_unit_mul w;
  w ← ooo_unit_lsu w;
  w ← lift_rn (map_ooo ooo_stage_is w);
  ooo_stage_if (map_ooo ooo_stage_id w).

Definition ooo_count (w : OooWorld) : OooWorld :=
  let s := ooo_stats w in
  let m := omach w in
  put_omach {| m with g_sim_cycles := (g_sim_cycles m + 1)%word; g_sim_instret := os_insts s |}
    (put_ostats {| s with os_cycles := (os_cycles s + 1)%word |} w).

Definition ooo_cycle (w : OooWorld) : Res OooWorld := w ← ooo_stages w; Ok (ooo_count w).

(** One unrolling of each loop. *)
Lemma flush_rob_S fuel t o :
  flush_rob (S fuel) t o = if rob_tail o =? t then o else flush_rob fuel t (flush_entry o).
Proof. done. Qed.
Lemma commit_loop_S n w : commit_loop (S n) w = ('(go, w) ← commit_one w; if go : bool then commit_loop n w else Ok w).
Proof. done. Qed.
Lemma if_loop_S n s w : if_loop (S n) s w = ('(go, w) ← if_one s w; if go : bool then if_loop n (s + 1) w else Ok w).
Proof. done. Qed.
Lemma rn_loop_S todo n used o s : rn_loop (S todo) n used o s =
  (let r := arr (latch_id_rn o) n in
   if negb (pr_valid r) then Ok (o, s) else
   match rn_guard n used (pr_ir r) o with
   | Rn_go => o ← rename (pr_ir r) o; rn_loop todo (n + 1) (used + 1) (id_rn_off n o) s
   | g => Ok (o, rn_count n g s)
   end).
Proof. done. Qed.

Arguments rn_loop : simpl never.
Arguments commit_loop : simpl never.
Arguments if_loop : simpl never.
Arguments flush_rob : simpl never.
Arguments flush_rest : simpl never.
Arguments ooo_flush_after : simpl never.
Arguments cdb_broadcast : simpl never.
Arguments ooo_stage_is : simpl never.
Arguments ooo_stage_id : simpl never.
Arguments map_ooo : simpl never.
Arguments put_ooo : simpl never.
Arguments put_omach : simpl never.
Arguments put_pw : simpl never.
Arguments put_ostats : simpl never.
Arguments put_ref : simpl never.
Arguments put_cpu : simpl never.
