(* ===== verification/Renamer.v ===== *)
(** * The abstract renamer and its circular buffers (src/cpu/ooo.c)

    An abstract renamer: a queue of free registers, the committed register map
    and the list of the instructions in flight.  [RnView] is what the engine
    keeps of it, a free list, two rename tables and a reorder buffer; commit,
    squash and rename on the view implement the abstract steps. *)

From S2P Require Import Prelude Word State Pmp Csr Cache CacheSet CacheSpec CacheRefine Coherence Mmio Mem Ftrace Vmem VmemSpec Decode Ir IrSpec Exec Isa Bpred Pipeline Ringbuf Ring Ooo.

(** ** The abstract renamer *)

Record Renamer := mkRen {
  free : list Z;                 (** oldest first *)
  cmap : list Z;                 (** the committed map of x0..x31 *)
  inflight : list (Z * Z);       (** destination and physical register, oldest first *)
}.

Definition apply_dest (m : list Z) (d : Z * Z) : list Z := if has_dest d.1 then upd m d.1 d.2 else m.

(** The map that the next instruction sees. *)
Definition spec_map (a : Renamer) : list Z := foldl apply_dest (cmap a) (inflight a).

Definition dest_ok (rd : Z) : Prop := -1 <= rd < 32.

(** The physical register of an instruction without a destination. *)
Definition no_phys (rd : Z) : Z := if rd =? 0 then 0 else -1.

Inductive rstep : Renamer -> Renamer -> Prop :=
  | R_rename rd p f c l : has_dest rd = true -> dest_ok rd ->
      rstep (mkRen (p :: f) c l) (mkRen f c (l ++ [(rd, p)]))
  | R_rename_none rd f c l : has_dest rd = false -> dest_ok rd ->
      rstep (mkRen f c l) (mkRen f c (l ++ [(rd, no_phys rd)]))
  | R_commit rd p f c l :
      rstep (mkRen f c ((rd, p) :: l))
            (mkRen (if has_dest rd then f ++ [arr c rd] else f) (apply_dest c (rd, p)) l)
  | R_squash rd p f c l :
      rstep (mkRen f c (l ++ [(rd, p)])) (mkRen (if has_dest rd then f ++ [p] else f) c l).

(** The physical registers held by the instructions in flight. *)
Definition held (l : list (Z * Z)) : list Z := (filter (fun d => has_dest d.1 = true) l).*2.

(** p1..p63 are each free, or the committed home of one of x1..x31, or the
    destination of one instruction in flight. *)
Record ren_inv (a : Renamer) : Prop := {
  ri_map : length (cmap a) = 32%nat;
  ri_zero : arr (cmap a) 0 = 0;
  ri_dest : Forall (fun d => dest_ok d.1) (inflight a);
  ri_regs : free a ++ drop 1 (cmap a) ++ held (inflight a) ≡ₚ seqZ_from 1 63;
}.

Lemma held_app l l' : held (l ++ l') = held l ++ held l'.
Proof. unfold held. by rewrite filter_app, fmap_app. Qed.
Lemma held_one rd p : held [(rd, p)] = if has_dest rd then [p] else [].
Proof. unfold held. rewrite filter_cons, filter_nil. cbn. by destruct (has_dest rd). Qed.
Lemma held_cons rd p l : held ((rd, p) :: l) = (if has_dest rd then [p] else []) ++ held l.
Proof. change ((rd, p) :: l) with ([(rd, p)] ++ l). by rewrite held_app, held_one. Qed.

Lemma insert_perm (l : list Z) i x y : l !! i = Some x -> y :: l ≡ₚ x :: <[i := y]> l.
Proof.
  intros Hx. pose proof (lookup_lt_Some _ _ _ Hx). rewrite insert_take_drop by done.
  rewrite <-(take_drop_middle l i x) at 1 by done. solve_Permutation.
Qed.

Lemma has_dest_spec rd : has_dest rd = true -> dest_ok rd -> 0 < rd < 32.
Proof. unfold has_dest, dest_ok. intros H ?. zify_bool. lia. Qed.

(** Replacing the home of [rd]. *)
Lemma drop_upd_perm (m : list Z) rd p : length m = 32%nat -> 0 < rd < 32 ->
  p :: drop 1 m ≡ₚ arr m rd :: drop 1 (upd m rd p).
Proof.
  intros Hl Hr. destruct m as [|x m]; [done |]. injection Hl as Hl. unfold upd.
  replace (0 <=? rd) with true by lia. replace (Z.to_nat rd) with (S (Z.to_nat (rd - 1))) by lia. cbn.
  apply insert_perm. unfold arr. replace (Z.to_nat rd) with (S (Z.to_nat (rd - 1))) by lia.
  cbn. apply list_lookup_lookup_total_lt. lia.
Qed.

Lemma rstep_inv a a' : rstep a a' -> ren_inv a -> ren_inv a'.
Proof.
  destruct 1 as [rd p f c l Hd Hr|rd f c l Hd Hr|rd p f c l|rd p f c l]; intros [Hm Hz Hf Hp];
    cbn [free cmap inflight] in *.
  - split; cbn [free cmap inflight]; [done | done | |].
    + apply Forall_app_2; [done | by apply Forall_singleton].
    + rewrite <-Hp, held_app, held_one, Hd. solve_Permutation.
  - split; cbn [free cmap inflight]; [done | done | |].
    + apply Forall_app_2; [done | by apply Forall_singleton].
    + by rewrite held_app, held_one, Hd, app_nil_r.
  - apply Forall_cons in Hf as [Hr Hf]. rewrite held_cons in Hp. unfold apply_dest. cbn [fst snd] in *.
    destruct (has_dest rd) eqn:Hd; [| by split].
    pose proof (has_dest_spec _ Hd Hr). split; cbn [free cmap inflight].
    + by rewrite length_upd.
    + by rewrite arr_upd_ne by lia.
    + done.
    + rewrite <-Hp. pose proof (drop_upd_perm c rd p Hm ltac:(lia)) as Hu.
      transitivity (f ++ (arr c rd :: drop 1 (upd c rd p)) ++ held l); [solve_Permutation |].
      rewrite <-Hu. solve_Permutation.
  - apply Forall_app in Hf as [Hf _]. rewrite held_app, held_one in Hp.
    split; cbn [free cmap inflight]; try done.
    rewrite <-Hp. destruct (has_dest rd); solve_Permutation.
Qed.

Lemma rsteps_inv a a' : rtc rstep a a' -> ren_inv a -> ren_inv a'.
Proof. induction 1; eauto using rstep_inv. Qed.

(** Consequences: the free list holds 32 minus the writers in flight. *)
Lemma ren_inv_free a : ren_inv a -> (length (free a) + length (held (inflight a)) = 32)%nat.
Proof.
  intros [Hm _ _ Hp]. apply Permutation_length in Hp.
  rewrite !length_app, length_drop, Hm, length_seqZ_from in Hp. lia.
Qed.

(** ** The engine's view of renaming *)

Record RobView := mkRV { rv_valid : bool; rv_rd : Z; rv_phys : Z; rv_old : Z }.
#[export] Instance RobView_inhabited : Inhabited RobView := populate (mkRV false 0 0 0).

Definition rob_view (e : ROBEntry) : RobView := mkRV (rob_valid e) (arch_rd e) (rob_phys_rd e) (old_phys e).
Definition rv_pair (v : RobView) : Z * Z := (rv_rd v, rv_phys v).

(** What the renamer reads of the engine: everything else is invisible to it. *)
Record RnView := mkView {
  v_rat : list Z;
  v_rrat : list Z;
  v_fl : FreeList;
  v_rob : list RobView;
  v_head : Z;
  v_tail : Z;
  v_count : Z;
}.

Definition rn_view (o : OOOState) : RnView :=
  mkView (rat o) (rrat o) (freelist o) (rob_view <$> rob o) (rob_head o) (rob_tail o) (rob_count o).

Lemma view_rrat o : v_rrat (rn_view o) = rrat o.
Proof. done. Qed.
Lemma view_rat o : v_rat (rn_view o) = rat o.
Proof. done. Qed.

(** The instructions in flight, oldest first. *)
Definition window (v : RnView) : list RobView := ring (v_rob v) ROB_SIZE (v_head v) (Z.to_nat (v_count v)).
Definition fl_list (f : FreeList) : list Z := ring (fl_regs f) FREE_LIST_SIZE (fl_head f) (Z.to_nat (fl_count f)).

Definition abs (v : RnView) : Renamer := mkRen (fl_list (v_fl v)) (v_rrat v) (rv_pair <$> window v).

(** Each entry remembers the register its destination had before it. *)
Fixpoint olds_ok (m : list Z) (es : list RobView) : Prop :=
  match es with
  | [] => True
  | e :: es => (has_dest (rv_rd e) = true -> rv_old e = arr m (rv_rd e)) /\ olds_ok (apply_dest m (rv_pair e)) es
  end.

Record fl_wf (f : FreeList) : Prop := {
  fw_len : length (fl_regs f) = Z.to_nat FREE_LIST_SIZE;
  fw_head : 0 <= fl_head f < FREE_LIST_SIZE;
  fw_count : 0 <= fl_count f;
  fw_tail : fl_tail f = (fl_head f + fl_count f) mod FREE_LIST_SIZE;
}.

Record rename_wf (v : RnView) : Prop := {
  rw_len : length (v_rob v) = Z.to_nat ROB_SIZE;
  rw_head : 0 <= v_head v < ROB_SIZE;
  rw_count : 0 <= v_count v <= ROB_SIZE;
  rw_tail : v_tail v = (v_head v + v_count v) mod ROB_SIZE;
  rw_valid : forall k, 0 <= k < ROB_SIZE ->
    rv_valid (arr (v_rob v) ((v_head v + k) mod ROB_SIZE)) = (k <? v_count v);
  rw_fl : fl_wf (v_fl v);
  rw_ren : ren_inv (abs v);
  rw_rat : v_rat v = spec_map (abs v);
  rw_old : olds_ok (v_rrat v) (window v);
}.

(** ** Lists of entries *)

Definition map_through (m : list Z) (es : list RobView) : list Z := foldl apply_dest m (rv_pair <$> es).

Lemma spec_map_abs v : spec_map (abs v) = map_through (v_rrat v) (window v).
Proof. done. Qed.

Lemma map_through_app m es es' : map_through m (es ++ es') = map_through (map_through m es) es'.
Proof. unfold map_through. by rewrite fmap_app, foldl_app. Qed.

Lemma olds_ok_app m es es' : olds_ok m (es ++ es') <-> olds_ok m es /\ olds_ok (map_through m es) es'.
Proof.
  revert m. induction es as [|e es IH]; intros m; cbn [olds_ok app]; [unfold map_through; cbn; tauto |].
  rewrite IH. unfold map_through. cbn [fmap list_fmap foldl]. tauto.
Qed.

Lemma length_map_through m es : length (map_through m es) = length m.
Proof.
  unfold map_through. revert m. induction es as [|e es IH]; intros m; cbn; [done |].
  rewrite IH. unfold apply_dest. case_if; [apply length_upd | done].
Qed.

(** Undoing the last rename. *)
Lemma undo_last m es e : 0 < rv_rd e -> has_dest (rv_rd e) = true -> olds_ok m (es ++ [e]) ->
  upd (map_through m (es ++ [e])) (rv_rd e) (rv_old e) = map_through m es.
Proof.
  intros H0 Hd Ho. apply olds_ok_app in Ho as [_ [Ho _]]. rewrite (Ho Hd), map_through_app.
  unfold map_through at 1. cbn [fmap list_fmap foldl]. unfold apply_dest. cbn [rv_pair fst snd].
  by rewrite Hd, upd_upd, upd_same.
Qed.

(** ** The free list *)

Definition fl_push (r : Z) (f : FreeList) : FreeList :=
  {| f with fl_regs := upd (fl_regs f) (fl_tail f) r; fl_tail := (fl_tail f + 1) mod FREE_LIST_SIZE;
            fl_count := fl_count f + 1 |}.
Definition fl_pop (f : FreeList) : FreeList :=
  {| f with fl_head := (fl_head f + 1) mod FREE_LIST_SIZE; fl_count := fl_count f - 1 |}.

Lemma fl_push_ok r f : fl_wf f -> fl_count f < FREE_LIST_SIZE ->
  fl_wf (fl_push r f) /\ fl_list (fl_push r f) = fl_list f ++ [r].
Proof.
  intros [Hl Hh Hc Ht] Hn. split.
  - split; cbn; [by rewrite length_upd | done | lia |]. rewrite Ht, Zplus_mod_idemp_l. f_equal. lia.
  - unfold fl_list. cbn [fl_regs fl_head fl_count fl_push]. rewrite Ht.
    replace (Z.to_nat (fl_count f + 1)) with (S (Z.to_nat (fl_count f))) by lia.
    replace (fl_head f + fl_count f) with (fl_head f + Z.of_nat (Z.to_nat (fl_count f))) by lia.
    apply ring_push; [by rewrite Hl | done | lia].
Qed.

Lemma fl_pop_ok f : fl_wf f -> 0 < fl_count f ->
  fl_wf (fl_pop f) /\ fl_list f = arr (fl_regs f) (fl_head f) :: fl_list (fl_pop f).
Proof.
  intros [Hl Hh Hc Ht] Hn. split.
  - split; cbn; [done | apply Z.mod_pos_bound; done | lia |]. rewrite Ht, Zplus_mod_idemp_l. f_equal. lia.
  - unfold fl_list. cbn [fl_regs fl_head fl_count fl_pop].
    replace (Z.to_nat (fl_count f)) with (S (Z.to_nat (fl_count f - 1))) by lia.
    by apply ring_pop_front.
Qed.

(** Room in the free list follows from the counting. *)
Lemma rename_fl_count v : rename_wf v ->
  (Z.to_nat (fl_count (v_fl v)) + length (held (rv_pair <$> window v)) = 32)%nat.
Proof.
  intros H. pose proof (ren_inv_free _ (rw_ren _ H)) as E. unfold abs, fl_list in E.
  cbn [free inflight] in E. by rewrite length_ring in E.
Qed.

Lemma rename_fl_room v : rename_wf v -> fl_count (v_fl v) < FREE_LIST_SIZE.
Proof. intros H. pose proof (rename_fl_count _ H). unfold FREE_LIST_SIZE, NUM_PHYS_REGS. lia. Qed.

(** ** Commit, squash and rename on the view *)

Definition rv_off (e : RobView) : RobView := {| e with rv_valid := false |}.

Definition v_commit (v : RnView) : RnView :=
  let e := arr (v_rob v) (v_head v) in
  let d := has_dest (rv_rd e) in
  {| v with v_rrat := apply_dest (v_rrat v) (rv_pair e);
            v_fl := if d then fl_push (rv_old e) (v_fl v) else v_fl v;
            v_rob := upd (v_rob v) (v_head v) (rv_off e);
            v_head := (v_head v + 1) mod ROB_SIZE; v_count := v_count v - 1 |}.

Definition v_squash (v : RnView) : RnView :=
  let t := (v_tail v - 1 + ROB_SIZE) mod ROB_SIZE in
  let e := arr (v_rob v) t in
  let d := has_dest (rv_rd e) in
  {| v with v_rat := if d then upd (v_rat v) (rv_rd e) (rv_old e) else v_rat v;
            v_fl := if d then fl_push (rv_phys e) (v_fl v) else v_fl v;
            v_rob := upd (v_rob v) t (rv_off e); v_tail := t; v_count := v_count v - 1 |}.

Definition v_rename (rd : Z) (v : RnView) : RnView :=
  let d := has_dest rd in
  let p := if d then arr (fl_regs (v_fl v)) (fl_head (v_fl v)) else no_phys rd in
  let old := if d then arr (v_rat v) rd else no_phys rd in
  {| v with v_rat := apply_dest (v_rat v) (rd, p);
            v_fl := if d then fl_pop (v_fl v) else v_fl v;
            v_rob := upd (v_rob v) (v_tail v) (mkRV true rd p old);
            v_tail := (v_tail v + 1) mod ROB_SIZE; v_count := v_count v + 1 |}.

Section ViewOps.
Context (v : RnView) (Hw : rename_wf v).

Lemma head_range : 0 <= v_head v < 32.
Proof. apply Hw. Qed.
Lemma count_range : 0 <= v_count v <= 32.
Proof. apply Hw. Qed.
Lemma len_rob : Z.of_nat (length (v_rob v)) = 32.
Proof. by rewrite (rw_len _ Hw). Qed.

(** The fields of the invariant that only speak of positions. *)
Lemma valid_commit k : 0 < v_count v -> 0 <= k < ROB_SIZE ->
  rv_valid (arr (v_rob (v_commit v)) ((v_head (v_commit v) + k) mod ROB_SIZE)) = (k <? v_count v - 1).
Proof.
  intros Hc Hk. pose proof head_range as Hh. pose proof count_range. unfold ROB_SIZE in *.
  cbn [v_commit v_rob v_head]. rewrite Zplus_mod_idemp_l. replace (v_head v + 1 + k) with (v_head v + (k + 1)) by lia.
  destruct (decide (k = 31)) as [->|].
  - replace ((v_head v + (31 + 1)) mod 32) with (v_head v)
      by (rewrite <-(Z_mod_plus_full _ (-1)); rewrite Z.mod_small; lia).
    rewrite arr_upd_eq by (rewrite len_rob; lia). cbn. symmetry. apply Z.ltb_ge. lia.
  - rewrite arr_upd_ne.
    + rewrite (rw_valid _ Hw) by (unfold ROB_SIZE; lia). apply eq_bool_prop_intro. rewrite !Is_true_true, !Z.ltb_lt. lia.
    + apply Z.mod_pos_bound. lia.
    + intros E. pose proof (ring_pos_inj 32 (v_head v) 0 (k + 1) Hh ltac:(lia) ltac:(lia)) as F.
      rewrite Z.add_0_r, (Z.mod_small (v_head v)) in F by lia. specialize (F E). lia.
Qed.

Lemma window_commit : 0 < v_count v ->
  window v = arr (v_rob v) (v_head v) :: window (v_commit v).
Proof.
  intros Hc. pose proof head_range as Hh. pose proof count_range. unfold window.
  replace (Z.to_nat (v_count v)) with (S (Z.to_nat (v_count v - 1))) by lia.
  rewrite ring_pop_front by done. f_equal. cbn [v_commit v_rob v_head v_count]. unfold ROB_SIZE in *.
  assert (E : v_head v = ((v_head v + 1) mod 32 + 31) mod 32).
  { rewrite Zplus_mod_idemp_l, <-(Z_mod_plus_full _ (-1)). rewrite Z.mod_small; lia. }
  generalize (rv_off (arr (v_rob v) (v_head v))). intros x.
  replace (upd (v_rob v) (v_head v) x) with (upd (v_rob v) (((v_head v + 1) mod 32 + 31) mod 32) x)
    by (by rewrite <-E).
  symmetry. apply ring_upd_out; [apply Z.mod_pos_bound; lia | lia].
Qed.

Lemma v_commit_ok : 0 < v_count v -> rename_wf (v_commit v) /\ rstep (abs v) (abs (v_commit v)).
Proof.
  intros Hc. pose proof head_range as Hh. pose proof count_range as Hn.
  pose proof (window_commit Hc) as Ew. pose proof (rename_fl_room _ Hw) as Hroom.
  set (e := arr (v_rob v) (v_head v)) in *.
  pose proof (rw_old _ Hw) as Ho. rewrite Ew in Ho. destruct Ho as [Ho1 Ho2].
  pose proof (fl_push_ok (rv_old e) _ (rw_fl _ Hw) Hroom) as [Hf1 Hf2].
  assert (Hs : rstep (abs v) (abs (v_commit v))).
  { unfold abs. rewrite Ew. cbn [fmap list_fmap]. unfold rv_pair at 1.
    assert (Ef : fl_list (v_fl (v_commit v)) =
      if has_dest (rv_rd e) then fl_list (v_fl v) ++ [arr (v_rrat v) (rv_rd e)] else fl_list (v_fl v)).
    { cbn [v_commit v_fl]. fold e. destruct (has_dest (rv_rd e)); [| done]. by rewrite Hf2, Ho1. }
    rewrite Ef. apply R_commit. }
  split; [| done]. split.
  - cbn. rewrite length_upd. apply Hw.
  - cbn. apply Z.mod_pos_bound. done.
  - cbn. unfold ROB_SIZE in *. lia.
  - cbn. rewrite (rw_tail _ Hw), Zplus_mod_idemp_l. f_equal. lia.
  - intros k Hk. by apply valid_commit.
  - cbn. fold e. destruct (has_dest (rv_rd e)); [done | apply Hw].
  - eapply rstep_inv; [exact Hs | apply Hw].
  - change (v_rat (v_commit v)) with (v_rat v).
    by rewrite (rw_rat _ Hw), !spec_map_abs, Ew.
  - exact Ho2.
Qed.

Lemma squash_pos : 0 < v_count v ->
  (v_tail v - 1 + ROB_SIZE) mod ROB_SIZE = (v_head v + (v_count v - 1)) mod ROB_SIZE.
Proof.
  intros Hc. rewrite (rw_tail _ Hw). unfold ROB_SIZE.
  replace ((v_head v + v_count v) mod 32 - 1 + 32) with ((v_head v + v_count v) mod 32 + 31) by lia.
  rewrite Zplus_mod_idemp_l. replace (v_head v + v_count v + 31) with (v_head v + (v_count v - 1) + 1 * 32) by lia.
  apply Z_mod_plus_full.
Qed.

(** Reading position [k] after a write at position [j]. *)
Lemma arr_pos_upd (j k : Z) (x : RobView) : 0 <= j < 32 -> 0 <= k < 32 ->
  arr (upd (v_rob v) ((v_head v + j) mod ROB_SIZE) x) ((v_head v + k) mod ROB_SIZE) =
  if k =? j then x else arr (v_rob v) ((v_head v + k) mod ROB_SIZE).
Proof.
  intros Hj Hk. pose proof head_range as Hh. unfold ROB_SIZE. destruct (Z.eqb_spec k j) as [->|Hne].
  - apply arr_upd_eq. rewrite len_rob. apply Z.mod_pos_bound. lia.
  - apply arr_upd_ne; [apply Z.mod_pos_bound; lia |]. intros E. apply ring_pos_inj in E; lia.
Qed.

Lemma window_squash : 0 < v_count v ->
  window v = window (v_squash v) ++ [arr (v_rob v) ((v_tail v - 1 + ROB_SIZE) mod ROB_SIZE)].
Proof.
  intros Hc. pose proof head_range as Hh. pose proof count_range. unfold window.
  replace (Z.to_nat (v_count v)) with (S (Z.to_nat (v_count v - 1))) by lia.
  rewrite ring_pop_back. cbn [v_squash v_rob v_head v_count]. rewrite squash_pos by done. f_equal.
  - symmetry. apply ring_upd_out; unfold ROB_SIZE in *; lia.
  - do 4 f_equal. lia.
Qed.

Lemma v_squash_ok : 0 < v_count v -> rename_wf (v_squash v) /\ rstep (abs v) (abs (v_squash v)).
Proof.
  intros Hc. pose proof head_range as Hh. pose proof count_range as Hn.
  pose proof (window_squash Hc) as Ew. pose proof (squash_pos Hc) as Ep. pose proof (rename_fl_room _ Hw) as Hroom.
  set (e := arr (v_rob v) ((v_tail v - 1 + ROB_SIZE) mod ROB_SIZE)) in *.
  pose proof (rw_old _ Hw) as Ho. rewrite Ew in Ho. pose proof (proj1 (proj1 (olds_ok_app _ _ _) Ho)) as Ho1.
  pose proof (fl_push_ok (rv_phys e) _ (rw_fl _ Hw) Hroom) as [Hf1 Hf2].
  assert (Hs : rstep (abs v) (abs (v_squash v))).
  { unfold abs. rewrite Ew, fmap_app. cbn [fmap list_fmap]. unfold rv_pair at 2.
    assert (Ef : fl_list (v_fl (v_squash v)) =
      if has_dest (rv_rd e) then fl_list (v_fl v) ++ [rv_phys e] else fl_list (v_fl v)).
    { cbn [v_squash v_fl]. fold e. by destruct (has_dest (rv_rd e)). }
    rewrite Ef. apply R_squash. }
  pose proof (ri_dest _ (rw_ren _ Hw)) as Hr. cbn [abs inflight] in Hr. rewrite Ew, fmap_app in Hr.
  apply Forall_app in Hr as [_ Hr]. apply Forall_cons in Hr as [Hr _].
  split; [| done]. split.
  - cbn. rewrite length_upd. apply Hw.
  - apply Hw.
  - cbn. unfold ROB_SIZE in *. lia.
  - exact Ep.
  - intros k Hk. cbn [v_squash v_rob v_head v_count]. rewrite Ep, arr_pos_upd by (unfold ROB_SIZE in *; lia).
    case_if; zify_bool; cbn [rv_off rv_valid].
    + symmetry. apply Z.ltb_ge. lia.
    + rewrite (rw_valid _ Hw) by done. apply eq_bool_prop_intro. rewrite !Is_true_true, !Z.ltb_lt. lia.
  - cbn. fold e. destruct (has_dest (rv_rd e)); [done | apply Hw].
  - eapply rstep_inv; [exact Hs | apply Hw].
  - cbn [v_squash v_rat]. fold e. rewrite (rw_rat _ Hw), !spec_map_abs, Ew.
    change (v_rrat (v_squash v)) with (v_rrat v). destruct (has_dest (rv_rd e)) eqn:Hd.
    + apply undo_last; [| done | done]. pose proof (has_dest_spec _ Hd Hr). lia.
    + rewrite map_through_app. unfold map_through at 1. cbn. unfold apply_dest. cbn. by rewrite Hd.
  - exact Ho1.
Qed.

Lemma window_rename rd : v_count v < 32 ->
  window (v_rename rd v) = window v ++ [arr (v_rob (v_rename rd v)) (v_tail v)].
Proof.
  intros Hc. pose proof head_range as Hh. pose proof count_range as Hn. unfold window.
  cbn [v_rename v_rob v_head v_count].
  replace (Z.to_nat (v_count v + 1)) with (S (Z.to_nat (v_count v))) by lia.
  rewrite (rw_tail _ Hw). replace (v_head v + v_count v) with (v_head v + Z.of_nat (Z.to_nat (v_count v))) by lia.
  rewrite ring_push, arr_upd_eq; [done | | by rewrite len_rob | done | unfold ROB_SIZE; lia].
  rewrite len_rob. apply Z.mod_pos_bound. done.
Qed.

Lemma rename_entry rd : arr (v_rob (v_rename rd v)) (v_tail v) =
  mkRV true rd (if has_dest rd then arr (fl_regs (v_fl v)) (fl_head (v_fl v)) else no_phys rd)
    (if has_dest rd then arr (v_rat v) rd else no_phys rd).
Proof.
  cbn [v_rename v_rob]. apply arr_upd_eq. rewrite len_rob, (rw_tail _ Hw). apply Z.mod_pos_bound. done.
Qed.

Lemma v_rename_ok rd : v_count v < 32 -> dest_ok rd -> (has_dest rd = true -> 0 < fl_count (v_fl v)) ->
  rename_wf (v_rename rd v) /\ rstep (abs v) (abs (v_rename rd v)).
Proof.
  intros Hc Hr Hfree. pose proof head_range as Hh. pose proof count_range as Hn.
  pose proof (window_rename rd Hc) as Ew. pose proof (rename_entry rd) as Ee.
  rewrite Ee in Ew.
  assert (Hs : fl_wf (v_fl (v_rename rd v)) /\ rstep (abs v) (abs (v_rename rd v))).
  { unfold abs. rewrite Ew, fmap_app. cbn [fmap list_fmap rv_pair rv_rd rv_phys v_rename v_rrat v_fl].
    destruct (has_dest rd) eqn:Hd.
    - destruct (fl_pop_ok _ (rw_fl _ Hw) (Hfree eq_refl)) as [Hf ->]. split; [done | by apply R_rename].
    - split; [apply Hw | by apply R_rename_none]. }
  destruct Hs as [Hf Hs]. split; [| done]. split.
  - cbn. rewrite length_upd. apply Hw.
  - apply Hw.
  - cbn. unfold ROB_SIZE in *. lia.
  - cbn. rewrite (rw_tail _ Hw), Zplus_mod_idemp_l. f_equal. lia.
  - intros k Hk. cbn [v_rename v_rob v_head v_count]. rewrite (rw_tail _ Hw), arr_pos_upd by (unfold ROB_SIZE in *; lia).
    case_if; zify_bool; cbn [rv_valid].
    + symmetry. apply Z.ltb_lt. lia.
    + rewrite (rw_valid _ Hw) by done. apply eq_bool_prop_intro. rewrite !Is_true_true, !Z.ltb_lt. lia.
  - done.
  - eapply rstep_inv; [exact Hs | apply Hw].
  - rewrite !spec_map_abs, Ew, map_through_app. change (v_rrat (v_rename rd v)) with (v_rrat v).
    rewrite <-spec_map_abs, <-(rw_rat _ Hw). done.
  - rewrite Ew. change (v_rrat (v_rename rd v)) with (v_rrat v). apply olds_ok_app. split; [apply Hw |].
    cbn [olds_ok rv_rd rv_old]. split; [| done]. intros Hd. rewrite Hd.
    by rewrite (rw_rat _ Hw), spec_map_abs.
Qed.
End ViewOps.
