(* ===== verification/OooStages.v ===== *)
(** * The stages of the out-of-order engine, once and for all

    [frame] is the part of the engine that executing instructions leaves
    alone.  [StageLaws R] lists what a relation on engine states has to satisfy
    at each elementary change; then every stage, and the whole cycle, is in the
    relation.  The renaming, issue and store-buffer proofs each give an
    instance. *)

From S2P Require Import Prelude Word State Pmp Csr Cache CacheSet CacheSpec CacheRefine Coherence Mmio Mem Ftrace Vmem VmemSpec Decode Ir IrSpec Exec Isa Bpred Pipeline Ringbuf Ring Ooo Renamer.

(** ** What the other operations leave alone *)

(** The ROB indices held by the stations and the unit latches. *)
Definition ix_view (o : OOOState) : list Z * list Z * list Z * list Z :=
  (rs_rob_idx <$> rs o, l_rob_idx <$> latch_int o, l_rob_idx <$> latch_mul o, l_rob_idx <$> latch_lsu o).

(** The renamer, the front-end latches, the ROB indices and the store buffer. *)
Definition frame (o : OOOState) :=
  (rn_view o, (latch_if_id o, latch_id_rn o), ix_view o, (sbuf o, sbuf_head o, sbuf_tail o, sbuf_count o)).

Lemma foldl_same {A B C} (g : A -> C) (f : A -> B -> A) l a :
  (forall a b, g (f a b) = g a) -> g (foldl f a l) = g a.
Proof. intros Hf. revert a. induction l as [|b l IH]; intros a; cbn; [done |]. by rewrite IH, Hf. Qed.

(** A change of one ROB entry that keeps what the renamer sees. *)
Lemma frame_set_rob i e o : rob_view e = rob_view (arr (rob o) i) -> frame (set_rob i e o) = frame o.
Proof.
  intros He. unfold frame, rn_view, set_rob. cbn [rob rat rrat freelist rob_head rob_tail rob_count latch_if_id
    latch_id_rn sbuf sbuf_head sbuf_tail sbuf_count]. by rewrite fmap_upd_same.
Qed.

(** Changes of one station or latch that keep its ROB index. *)
Lemma frame_set_rs i e o : rs_rob_idx e = rs_rob_idx (arr (rs o) i) -> frame (set_rs i e o) = frame o.
Proof.
  intros He. unfold frame, ix_view, set_rs. cbn [rs latch_int latch_mul latch_lsu]. by rewrite fmap_upd_same.
Qed.
Lemma frame_set_int i l o : l_rob_idx l = l_rob_idx (arr (latch_int o) i) -> frame (set_int i l o) = frame o.
Proof.
  intros He. unfold frame, ix_view, set_int. cbn [rs latch_int latch_mul latch_lsu].
  by rewrite (fmap_upd_same _ (latch_int o)).
Qed.
Lemma frame_set_mul i l o : l_rob_idx l = l_rob_idx (arr (latch_mul o) i) -> frame (set_mul i l o) = frame o.
Proof.
  intros He. unfold frame, ix_view, set_mul. cbn [rs latch_int latch_mul latch_lsu].
  by rewrite (fmap_upd_same _ (latch_mul o)).
Qed.
Lemma frame_set_lsu i l o : l_rob_idx l = l_rob_idx (arr (latch_lsu o) i) -> frame (set_lsu i l o) = frame o.
Proof.
  intros He. unfold frame, ix_view, set_lsu. cbn [rs latch_int latch_mul latch_lsu].
  by rewrite (fmap_upd_same _ (latch_lsu o)).
Qed.

Lemma frame_put_ir i ir o : frame (rob_put_ir i ir o) = frame o.
Proof. by apply frame_set_rob. Qed.
Lemma frame_put_ready i o : frame (rob_put_ready i o) = frame o.
Proof. by apply frame_set_rob. Qed.
Lemma frame_fault i o : frame (rob_fault i o) = frame o.
Proof. apply frame_put_ir. Qed.
Lemma frame_put_result i v o : frame (put_result i v o) = frame o.
Proof. apply frame_put_ir. Qed.

Create Rewrite HintDb frame.
#[export] Hint Rewrite frame_put_ir frame_put_ready frame_fault frame_put_result : frame.

Lemma frame_wake t i o : frame (cdb_wake t i o) = frame o.
Proof.
  unfold cdb_wake. set (e := woken _ _ _).
  assert (E : frame (set_rs i e o) = frame o) by (apply frame_set_rs; unfold e, woken; by repeat case_if).
  by case_if.
Qed.
Lemma frame_broadcast t o : frame (cdb_broadcast t o) = frame o.
Proof. apply foldl_same. intros. apply frame_wake. Qed.
Lemma frame_publish p v o : frame (publish p v o) = frame o.
Proof. done. Qed.
Lemma frame_lsu_off s o : frame (lsu_off s o) = frame o.
Proof. by apply frame_set_lsu. Qed.
Lemma frame_set_wait s rem mi o : frame (lsu_set_wait s rem mi o) = frame o.
Proof. by apply frame_set_lsu. Qed.
Lemma frame_release s mi o : frame (mshr_release s mi o) = frame o.
Proof. unfold mshr_release. by case_match. Qed.
#[export] Hint Rewrite frame_broadcast frame_publish frame_lsu_off frame_release frame_set_wait : frame.

Lemma frame_finish ir i p o : frame (finish ir i p o) = frame o.
Proof. unfold finish. repeat case_if; by autorewrite with frame. Qed.

Lemma frame_bad s i o : frame (lsu_bad s i o) = frame o.
Proof. unfold lsu_bad. repeat case_if; by autorewrite with frame. Qed.

Lemma frame_done s mi i p v o : frame (lsu_done s mi i p v o) = frame o.
Proof. unfold lsu_done. repeat case_if; by autorewrite with frame. Qed.

Lemma frame_store s i o : frame (lsu_store s i o) = frame o.
Proof.
  unfold lsu_store. rewrite frame_lsu_off. pose (e := arr (rob o) i).
  exact (frame_set_rob i {| e with store_data := src2_val (rob_ir e); rob_ready := true |} o eq_refl).
Qed.

Lemma frame_alloc line lat o i o' : mshr_find_or_alloc line lat o = (i, o') -> frame o' = frame o.
Proof. unfold mshr_find_or_alloc. intros E. by repeat case_match; simplify_eq. Qed.

Lemma frame_from_rs i o : frame (latch_from_rs i o).2 = frame o.
Proof. unfold latch_from_rs. cbn [snd]. by rewrite frame_set_rs. Qed.

Lemma fmap_upd {A B} (f : A -> B) (l : list A) i x : f <$> upd l i x = upd (f <$> l) i (f x).
Proof. unfold upd. case_if; [apply list_fmap_insert | done]. Qed.

Lemma arr_default {A} `{Inhabited A} (P : A -> Prop) (l : list A) i : Forall P l -> P inhabitant -> P (arr l i).
Proof.
  intros Hl Hd. unfold arr. rewrite list_lookup_total_alt. destruct (l !! Z.to_nat i) eqn:E; [| done].
  by eapply Forall_lookup_1.
Qed.


(** ** Destinations of decoded instructions *)

Definition latch_ok (r : PipeReg) : Prop := dest_ok (ir_rd (pr_ir r)).

Lemma latch_ok_arr (l : list PipeReg) i : Forall latch_ok l -> latch_ok (arr l i).
Proof. intros H. by apply (arr_default latch_ok). Qed.

Lemma fill_dest g raw t ir : dest_ok (ir_rd (ir_fill_operands g raw t ir)).
Proof. pose proof (BITS_rd raw). unfold dest_ok. destruct t; cbn; lia. Qed.

Lemma decode_dest g raw pc snpc ir0 : dest_ok (ir_rd (ir_decode g raw pc snpc ir0)).
Proof.
  unfold ir_decode, decode_op_imm, decode_load, decode_store, decode_branch, decode_op_imm32, decode_op,
    decode_op32, decode_system. cbv zeta.
  generalize (opcode_of raw), (funct3_of raw), (funct7_of raw). intros o f3 f7.
  repeat (match goal with |- context [match ?x with _ => _ end] => destruct x end);
    first [exact (fill_dest g raw _ _) | unfold dest_ok; cbn; lia].
Qed.


(** ** Functions that do not touch the engine *)

Lemma ref_step_ooo w w' : ref_step w = Ok w' -> ooo w' = ooo w.
Proof. unfold ref_step. intros E. by inv_pairs. Qed.

Lemma check_ooo e w w' : difftest_check e w = Ok w' -> ooo w' = ooo w.
Proof.
  unfold difftest_check. intros E. apply bind_Ok_inv in E as (w1 & Hs & E). apply ref_step_ooo in Hs.
  rewrite <-Hs. clear Hs. by res_cases; repeat case_if.
Qed.

Lemma trace_ooo ir w w' : commit_trace ir w = Ok w' -> ooo w' = ooo w.
Proof.
  unfold commit_trace. intros E. case_if_in E; [by injection E as <- |].
  apply bind_Ok_inv in E as (_ & _ & E). apply bind_Ok_inv in E as (r & _ & E). by injection E as <-.
Qed.

Lemma ooo_map f w : ooo (map_ooo f w) = f (ooo w).
Proof. done. Qed.

Lemma train_ooo ir w : ooo (train ir w) = ooo w.
Proof. unfold train. by repeat case_if. Qed.
Lemma restore_ras_ooo ir w : ooo (restore_ras ir w) = ooo w.
Proof. unfold restore_ras. by case_if. Qed.


(** ** The laws *)

Class StageLaws (R : OOOState -> OOOState -> Prop) : Prop := {
  sl_pre : PreOrder R;
  sl_commit w go w' : commit_one w = Ok (go, w') -> R (ooo w) (ooo w');
  sl_mshr_tick o : R o (mshr_tick o);
  sl_int s l o : l_rob_idx l = l_rob_idx (arr (latch_int o) s) -> l_valid l = false -> R o (set_int s l o);
  sl_mul s l o : l_rob_idx l = l_rob_idx (arr (latch_mul o) s) -> R o (set_mul s l o);
  sl_wait s rem mi o : R o (lsu_set_wait s rem mi o);
  sl_lsu_off s o : R o (lsu_off s o);
  sl_put_ir b ir o : R o (rob_put_ir b ir o);
  sl_finish ir b p o : R o (finish ir b p o);
  sl_bad s b o : R o (lsu_bad s b o);
  sl_done s mi b p v o : R o (lsu_done s mi b p v o);
  sl_store s b o : R o (lsu_store s b o);
  sl_alloc line lat o i o' : mshr_find_or_alloc line lat o = (i, o') -> R o o';
  sl_release s mi o : R o (mshr_release s mi o);
  sl_flush s o o1 : let b := l_rob_idx (arr (latch_int o) s) in
    rob_valid (arr (rob o) b) = true -> frame o1 = frame o -> R o o1 -> R o (ooo_flush_after b o1);
  sl_is o : R o (ooo_stage_is o);
  sl_rn o s o' s' : ooo_stage_rn o s = Ok (o', s') -> R o o';
  sl_move o s : R o (id_move o s);
  sl_fetch s r o : latch_ok r -> R o (set_if_id s r o);
  sl_ofetch pc o : R o (set_ofetch pc o);
  sl_pop o : sbuf_count o <> 0 -> R o (sbuf_pop o);
  sl_tick k o : R o {| o with sbuf_drain_tick := k |};
}.
#[export] Existing Instance sl_pre.

Section Stages.
Context (R : OOOState -> OOOState -> Prop) `{!StageLaws R}.

Definition WR (w w' : OooWorld) : Prop := R (ooo w) (ooo w').
#[local] Instance WR_preorder : PreOrder WR.
Proof. split; [intros w; unfold WR; reflexivity | intros w1 w2 w3; unfold WR; by etrans]. Qed.

Lemma for_each_R {A} (f : A -> OooWorld -> Res OooWorld) l w w' :
  (forall a w w', f a w = Ok w' -> WR w w') -> for_each l f w = Ok w' -> WR w w'.
Proof.
  intros Hf. revert w. induction l as [|a l IH]; intros w E; cbn [for_each] in E; inv_res; [done |].
  etrans; [by eapply Hf | by apply IH].
Qed.

Lemma foldl_R {B} (f : OOOState -> B -> OOOState) l o : (forall o b, R o (f o b)) -> R o (foldl f o l).
Proof. intros Hf. revert o. induction l as [|b l IH]; intros o; cbn; [done |]. by etrans; [apply Hf |]. Qed.

Lemma commit_R w w' : ooo_stage_commit w = Ok w' -> WR w w'.
Proof.
  unfold ooo_stage_commit. generalize COMMIT_WIDTH. intros n. revert w. induction n as [|n IH]; intros w E.
  - by injection E as <-.
  - rewrite commit_loop_S in E. apply bind_Ok_inv in E as ([go w1] & E1 & E2). apply sl_commit in E1.
    etrans; [exact E1 |]. destruct go; [by apply IH | by injection E2 as <-].
Qed.

(** ** The units *)

Lemma redirect_R s ir w w1 : let b := l_rob_idx (arr (latch_int (ooo w)) s) in
  rob_valid (arr (rob (ooo w)) b) = true -> frame (ooo w1) = frame (ooo w) -> WR w w1 -> WR w (redirect b ir w1).
Proof.
  cbv zeta. set (b := l_rob_idx _). intros Hv Hf HR. unfold redirect. cbv zeta.
  transitivity (map_ooo (ooo_flush_after b) (restore_ras ir w1)).
  - unfold WR. rewrite ooo_map, restore_ras_ooo. by apply sl_flush.
  - generalize (map_ooo (ooo_flush_after b) (restore_ras ir w1)). intros w2. unfold WR.
    exact (sl_ofetch (ir_dnpc ir) (ooo w2)).
Qed.

Lemma resolve_R s ir w w1 : let b := l_rob_idx (arr (latch_int (ooo w)) s) in
  rob_valid (arr (rob (ooo w)) b) = true -> frame (ooo w1) = frame (ooo w) -> WR w w1 -> WR w (resolve b ir w1).
Proof.
  cbv zeta. set (b := l_rob_idx _). intros Hv Hf HR. unfold resolve. case_if; [| done]. cbv zeta.
  assert (Ht : WR w (train ir w1)) by (unfold WR; by rewrite train_ooo).
  case_if; [done |]. case_if.
  - etrans; [exact Ht |]. apply sl_put_ir.
  - apply redirect_R; [done | by rewrite train_ooo | done].
Qed.

Lemma int_slot_R s w w' : int_slot s w = Ok w' -> WR w w'.
Proof.
  unfold int_slot. intros E. case_if_in E; [by injection E as <- |]. cbv zeta in E.
  set (l := arr (latch_int (ooo w)) s) in *.
  set (w1 := map_ooo (set_int s (latch_off l)) w) in *.
  assert (F1 : frame (ooo w1) = frame (ooo w)) by (by apply frame_set_int).
  assert (R1 : WR w w1) by (by apply sl_int).
  case_if_in E; [by injection E as <- |]. apply negb_false_iff in E1 as Hv.
  apply bind_Ok_inv in E as ([ir m] & _ & E). injection E as <-.
  apply (resolve_R s ir w); [exact Hv | |].
  - rewrite ooo_map, <-F1. apply frame_finish.
  - etrans; [exact R1 |]. apply sl_finish.
Qed.

Lemma mul_exec_R s w w' : mul_exec s w = Ok w' -> WR w w'.
Proof.
  unfold mul_exec. intros E. cbv zeta in E. set (w1 := map_ooo _ w) in *.
  assert (R1 : WR w w1) by (by apply sl_mul).
  case_if_in E; [by injection E as <- |]. apply bind_Ok_inv in E as ([ir m] & _ & E). injection E as <-.
  etrans; [exact R1 | apply sl_finish].
Qed.

Lemma mul_slot_R s w w' : mul_slot s w = Ok w' -> WR w w'.
Proof.
  unfold mul_slot. intros E. case_if_in E; [by injection E as <- |]. cbv zeta in E.
  case_if_in E; [| case_if_in E].
  - set (w1 := map_ooo _ w) in *. assert (R1 : WR w w1) by (by apply sl_mul).
    case_if_in E; [by injection E as <- |]. etrans; [exact R1 | by eapply mul_exec_R].
  - injection E as <-. apply sl_mul. by case_if.
  - by eapply mul_exec_R.
Qed.

Lemma fill_R s mi b p w w' : lsu_do_fill s mi b p w = Ok w' -> WR w w'.
Proof.
  unfold lsu_do_fill. intros E. cbv zeta in E. case_if_in E; [injection E as <-; apply sl_bad |].
  apply bind_Ok_inv in E as ([raw m] & _ & E). cbv beta iota in E.
  apply bind_Ok_inv in E as (v1 & _ & E). apply bind_Ok_inv in E as (v2 & _ & E).
  apply bind_Ok_inv in E as (_ & _ & E). injection E as <-. apply sl_done.
Qed.

Lemma lsu_flushed_R s mi w w' : lsu_flushed s mi w = Ok w' -> WR w w'.
Proof.
  unfold lsu_flushed. intros E. case_if_in E; [injection E as <-; apply sl_lsu_off |].
  cbv zeta in E. case_if_in E; [by injection E as <- |]. apply bind_Ok_inv in E as ([v m] & _ & E). injection E as <-.
  unfold WR. rewrite ooo_map. etrans; [apply sl_release | apply sl_lsu_off].
Qed.

Lemma lsu_first_R s b p w w' : lsu_first s b p w = Ok w' -> WR w w'.
Proof.
  unfold lsu_first. intros E. cbv zeta in E. apply bind_Ok_inv in E as ([ir m] & _ & E). cbv beta iota in E.
  set (w1 := map_ooo (rob_put_ir b ir) (put_omach m w)) in *.
  assert (R1 : WR w w1) by (apply sl_put_ir).
  etrans; [exact R1 |]. clear R1. clearbody w1. case_if_in E; [injection E as <-; apply sl_store |].
  case_if_in E.
  - case_if_in E; [injection E as <-; apply sl_wait | by eapply fill_R].
  - apply bind_Ok_inv in E as ([level m2] & _ & E). cbv beta iota in E. case_if_in E; [by apply fill_R in E |].
    destruct (mshr_find_or_alloc _ _ _) as [mi o] eqn:Ea. apply sl_alloc in Ea.
    case_if_in E; injection E as <-; [exact Ea |]. unfold WR. rewrite ooo_map.
    etrans; [exact Ea | apply sl_wait].
Qed.

Lemma lsu_slot_R s w w' : lsu_slot s w = Ok w' -> WR w w'.
Proof.
  unfold lsu_slot. intros E. cbv zeta in E. repeat case_if_in E; try (by injection E as <-);
    eauto using lsu_flushed_R, lsu_first_R, fill_R.
Qed.

(** ** The front end and the store buffer *)

Lemma id_R o : R o (ooo_stage_id o).
Proof. unfold ooo_stage_id. repeat case_if; try done. apply foldl_R. intros. apply sl_move. Qed.

Lemma drain_R w w' : ooo_drain_store_buf w = Ok w' -> WR w w'.
Proof.
  assert (D : forall w w', sbuf_count (ooo w) <> 0 -> drain_one w = Ok w' -> WR w w').
  { intros v v' Hc E. unfold drain_one in E. apply bind_Ok_inv in E as (m & _ & E). injection E as <-. by apply sl_pop. }
  unfold ooo_drain_store_buf. intros E. cbv zeta in E.
  destruct (Z.eqb_spec (sbuf_count (ooo w)) 0) as [|Hc]; [by injection E as <- |].
  case_if_in E; [| by apply D]. case_if_in E; [injection E as <-; apply sl_tick |].
  etrans; [| apply (fun H => D _ _ H E); exact Hc]. apply (sl_tick (LAT_L2_HIT - 1) (ooo w)).
Qed.

Lemma if_predict_R s pc raw ir w go w' : dest_ok (ir_rd ir) -> if_predict s pc raw ir w = (go, w') -> WR w w'.
Proof.
  intros Hr E. unfold if_predict in E. cbv zeta in E.
  set (ir1 := {| ir with ras_top_snap := ras_top (bpred (pw w)); ras_cnt_snap := ras_count (bpred (pw w)) |}) in *.
  assert (Hr1 : dest_ok (ir_rd ir1)) by done. clearbody ir1.
  destruct (if g_bpred2_mode w then _ else _) as [r w1] eqn:Ep.
  assert (E1 : ooo w1 = ooo w).
  { case_if_in Ep; [by injection Ep as _ <- |]. destruct (bpred_predict _ _ _). by injection Ep as _ <-. }
  injection E as _ <-. unfold WR. rewrite <-E1. clear E1 Ep.
  case_if; rewrite !ooo_map; [etrans; [| apply sl_ofetch] |]; apply (sl_fetch s); exact Hr1.
Qed.

Lemma if_one_R s w go w' : if_one s w = Ok (go, w') -> WR w w'.
Proof.
  unfold if_one. intros E. cbv zeta in E.
  case_if_in E; [injection E as _ <-; unfold WR; rewrite !ooo_map; etrans; apply sl_ofetch |].
  apply bind_Ok_inv in E as ([v m] & _ & E). cbv beta iota in E.
  set (pc := lo32 (ooo_fetch_pc (ooo w))) in *. set (w1 := put_omach m (map_ooo (set_ofetch pc) w)) in *.
  set (ir := ir_decode _ _ _ _ _) in *. assert (Hr : dest_ok (ir_rd ir)) by apply decode_dest. clearbody ir.
  set (ir1 := {| ir with bp_predict_taken := false; bp_predicted_pc := (pc + 4)%word |}) in *.
  assert (Hr1 : dest_ok (ir_rd ir1)) by done. clearbody ir1.
  set (w2 := map_ooo _ w1) in *.
  assert (HR : WR w w2).
  { transitivity w1; [apply sl_ofetch |]. unfold w2, WR. rewrite ooo_map.
    etrans; [| apply sl_ofetch]. apply (sl_fetch s). exact Hr1. }
  etrans; [exact HR |]. clearbody w2. case_if_in E; [| by injection E as _ <-].
  destruct (if_predict _ _ _ _ _) as [g w3] eqn:Ep. injection E as _ <-. by eapply if_predict_R.
Qed.

Lemma if_R w w' : ooo_stage_if w = Ok w' -> WR w w'.
Proof.
  unfold ooo_stage_if. case_if; [by intros [= <-] |]. clear E. generalize FETCH_WIDTH, 0. intros n. revert w.
  induction n as [|n IH]; intros w s E; [by injection E as <- |].
  rewrite if_loop_S in E. apply bind_Ok_inv in E as ([go w1] & E1 & E2). apply if_one_R in E1.
  etrans; [exact E1 |]. destruct go; [by eapply IH | by injection E2 as <-].
Qed.

(** ** The whole cycle *)

Lemma stages_R w w' : ooo_stages w = Ok w' -> R (ooo w) (ooo w').
Proof.
  unfold ooo_stages. intros E.
  apply bind_Ok_inv in E as (w1 & E1 & E). apply bind_Ok_inv in E as (w2 & E2 & E).
  apply bind_Ok_inv in E as (w3 & E3 & E). apply bind_Ok_inv in E as (w4 & E4 & E).
  apply bind_Ok_inv in E as (w5 & E5 & E). apply bind_Ok_inv in E as (w6 & E6 & E). fold (WR w w').
  transitivity w1; [by apply drain_R |]. transitivity w2; [by apply commit_R |].
  transitivity (map_ooo mshr_tick w2); [apply sl_mshr_tick |].
  transitivity w3; [eapply for_each_R; [apply int_slot_R | exact E3] |].
  transitivity w4; [eapply for_each_R; [apply mul_slot_R | exact E4] |].
  transitivity w5; [eapply for_each_R; [apply lsu_slot_R | exact E5] |].
  transitivity (map_ooo ooo_stage_is w5); [apply sl_is |].
  transitivity w6.
  { unfold lift_rn in E6. apply bind_Ok_inv in E6 as ([o s] & Er & E6). injection E6 as <-.
    exact (sl_rn _ _ _ _ Er). }
  transitivity (map_ooo ooo_stage_id w6); [apply id_R | by apply if_R].
Qed.

Lemma cycle_R w w' : ooo_cycle w = Ok w' -> R (ooo w) (ooo w').
Proof.
  unfold ooo_cycle. intros E. apply bind_Ok_inv in E as (w1 & E1 & E). injection E as <-.
  by apply stages_R in E1.
Qed.
End Stages.
