(* ===== verification/OooRename.v ===== *)
(** * Register renaming of the out-of-order engine (src/cpu/ooo.c)

    An abstract renamer, a queue of free registers, the committed register map
    and the list of the instructions in flight, and the proof that the free
    list, the two rename tables and the reorder buffer of ooo.c implement it:
    every cycle is a sequence of abstract renames, commits and squashes.  No
    physical register is ever lost or owned twice, and a flush restores the
    map of the mispredicted branch. *)

From S2P Require Import Prelude Word State Pmp Csr Cache CacheSet CacheSpec CacheRefine Coherence Mmio Mem Ftrace Vmem VmemSpec Decode Ir IrSpec Exec Isa Bpred Pipeline Ringbuf Ring Ooo Renamer OooStages.

(** ** The engine implements the view *)

Section Engine.
Context (o : OOOState) (Hw : rename_wf (rn_view o)).

Lemma view_arr i : 0 <= i < 32 -> arr (rob_view <$> rob o) i = rob_view (arr (rob o) i).
Proof.
  intros Hi. apply arr_fmap. pose proof (rw_len _ Hw) as Hl. cbn in Hl. rewrite length_fmap in Hl.
  rewrite Hl. unfold ROB_SIZE. lia.
Qed.

Lemma rob_head_range : 0 <= rob_head o < 32.
Proof. apply Hw. Qed.
Lemma rob_tail_range : 0 <= rob_tail o < 32.
Proof. pose proof (rw_tail _ Hw) as E. cbn in E. rewrite E. by apply Z.mod_pos_bound. Qed.

Lemma view_commit e : e = arr (rob o) (rob_head o) ->
  rn_view (rob_pop (if has_dest (arch_rd e) then commit_rename e o else o)) = v_commit (rn_view o).
Proof.
  intros ->. unfold v_commit. cbn [v_rob v_head v_rat v_rrat v_fl v_tail v_count rn_view].
  rewrite view_arr by apply rob_head_range. cbn [rob_view rv_rd rv_old rv_pair rv_phys]. unfold apply_dest.
  cbn [fst snd]. destruct (has_dest _); unfold rn_view; cbn; by rewrite fmap_upd.
Qed.

Lemma view_flush_entry : 0 < rob_count o -> rn_view (flush_entry o) = v_squash (rn_view o).
Proof.
  intros Hc. unfold v_squash. cbn [v_rob v_head v_rat v_rrat v_fl v_tail v_count rn_view].
  set (t := (rob_tail o - 1 + ROB_SIZE) mod ROB_SIZE).
  assert (Ht : 0 <= t < 32) by (by apply Z.mod_pos_bound).
  rewrite (view_arr t Ht). cbn [rob_view rv_rd rv_old rv_pair rv_phys].
  assert (Hv : rob_valid (arr (rob o) t) = true).
  { pose proof (squash_pos _ Hw Hc) as Ep. cbn in Ep. fold t in Ep. pose proof (rw_count _ Hw) as Hn. cbn in Hn.
    pose proof (rw_valid _ Hw (rob_count o - 1)) as E. cbn [rn_view v_rob v_head v_count] in E.
    rewrite <-Ep, (view_arr t Ht) in E. cbn in E. rewrite E; [apply Z.ltb_lt |]; lia. }
  unfold flush_entry. fold t. rewrite Hv. cbn [negb].
  destruct (has_dest _), (negb (rob_ready _) && _); unfold rn_view, less_count, rob_invalidate, set_rob;
    cbn [rob]; by rewrite fmap_upd.
Qed.

(** Allocating the ROB slot, then filling in the destination. *)
Lemma view_alloc ir p old o1 : dest_ok (ir_rd ir) ->
  rat o1 = apply_dest (rat o) (ir_rd ir, p) ->
  rob o1 = rob (alloc_rob ir o) -> rrat o1 = rrat o -> rob_head o1 = rob_head o ->
  rob_tail o1 = (rob_tail o + 1) mod ROB_SIZE -> rob_count o1 = rob_count o + 1 ->
  rn_view (set_dest (rob_tail o) p old o1) =
  mkView (apply_dest (rat o) (ir_rd ir, p)) (rrat o) (freelist o1)
    (upd (rob_view <$> rob o) (rob_tail o) (mkRV true (ir_rd ir) p old))
    (rob_head o) ((rob_tail o + 1) mod ROB_SIZE) (rob_count o + 1).
Proof.
  intros Hr E1 E2 E3 E4 E5 E6. unfold set_dest, rn_view, set_rob.
  cbn [rat rrat freelist rob rob_head rob_tail rob_count]. rewrite E1, E2, E3, E4, E5, E6. f_equal.
  assert (Ha : exists e, rob (alloc_rob ir o) = upd (rob o) (rob_tail o) e /\ rob_valid e = true /\ arch_rd e = ir_rd ir).
  { unfold alloc_rob. case_match; eexists; split_and!; reflexivity. }
  destruct Ha as (e & -> & Hv & Hd). rewrite arr_upd_eq, upd_upd, fmap_upd.
  - f_equal. unfold rob_view. cbn. by rewrite Hv, Hd.
  - pose proof (rw_len _ Hw) as Hl. cbn in Hl. rewrite length_fmap in Hl. rewrite Hl. apply rob_tail_range.
Qed.

Lemma alloc_rob_fields ir : rat (alloc_rob ir o) = rat o /\ rrat (alloc_rob ir o) = rrat o /\
  freelist (alloc_rob ir o) = freelist o /\ rob_head (alloc_rob ir o) = rob_head o /\
  rob_tail (alloc_rob ir o) = (rob_tail o + 1) mod ROB_SIZE /\ rob_count (alloc_rob ir o) = rob_count o + 1.
Proof. unfold alloc_rob. by case_match. Qed.

Lemma view_rename ir o' : dest_ok (ir_rd ir) -> rename ir o = Ok o' -> rn_view o' = v_rename (ir_rd ir) (rn_view o).
Proof.
  intros Hr E. unfold rename in E.
  destruct (alloc_phys (ir_rd ir) (alloc_rob ir o)) as [[p old] o1] eqn:Ea. inv_res.
  destruct (alloc_rob_fields ir) as (F1 & F2 & F3 & F4 & F5 & F6).
  change (rn_view (set_dest (rob_tail o) p old o1) = v_rename (ir_rd ir) (rn_view o)).
  unfold alloc_phys in Ea. unfold v_rename. cbn [v_rob v_head v_rat v_rrat v_fl v_tail v_count rn_view].
  destruct (has_dest (ir_rd ir)) eqn:Hd.
  - cbn [freelist_pop] in Ea. injection Ea as <- <- <-. cbn [freelist rat fl_regs fl_head].
    rewrite F3, F1. rewrite (view_alloc ir); [done | done | | done..].
    unfold apply_dest. cbn [fst snd]. by rewrite Hd, <-F1.
  - assert (Eo : o1 = alloc_rob ir o /\ p = no_phys (ir_rd ir) /\ old = no_phys (ir_rd ir)).
    { unfold no_phys. by destruct (ir_rd ir =? 0); injection Ea as <- <- <-. }
    destruct Eo as (-> & -> & ->). rewrite (view_alloc ir); [by rewrite F3 | done | | done..].
    unfold apply_dest. cbn [fst snd]. by rewrite Hd, F1.
Qed.
End Engine.

(** ** The flush *)

Lemma tail_stop head count d : 0 <= head < 32 -> 0 <= d < count -> count <= 32 ->
  (head + count) mod 32 = (head + d + 1) mod 32 -> count = d + 1.
Proof.
  intros Hh Hd Hc E. assert (F : count - 1 = d); [| lia].
  apply (ring_pos_inj 32 ((head + 1) mod 32)); [by apply Z.mod_pos_bound | lia | lia |].
  rewrite !Zplus_mod_idemp_l. by replace (head + 1 + (count - 1)) with (head + count) by lia;
    replace (head + 1 + d) with (head + d + 1) by lia.
Qed.

Lemma flush_entry_rest o : latch_if_id (flush_entry o) = latch_if_id o /\ latch_id_rn (flush_entry o) = latch_id_rn o /\
  (sbuf (flush_entry o), sbuf_head (flush_entry o), sbuf_tail (flush_entry o), sbuf_count (flush_entry o)) =
  (sbuf o, sbuf_head o, sbuf_tail o, sbuf_count o).
Proof.
  unfold flush_entry. destruct (rob_valid _); [| done]. by destruct (has_dest _), (negb _ && _).
Qed.

(** [fuel] iterations are enough to reach the branch at distance [d]. *)
Lemma flush_rob_ok fuel d o : rename_wf (rn_view o) -> 0 <= d < rob_count o -> rob_count o - (d + 1) <= Z.of_nat fuel ->
  let o' := flush_rob fuel ((rob_head o + d + 1) mod ROB_SIZE) o in
  rename_wf (rn_view o') /\ rtc rstep (abs (rn_view o)) (abs (rn_view o')) /\
  window (rn_view o') = take (Z.to_nat (d + 1)) (window (rn_view o)) /\ rob_count o' = d + 1 /\
  rob_head o' = rob_head o /\ rrat o' = rrat o /\ rob_tail o' = (rob_head o + d + 1) mod ROB_SIZE /\
  latch_if_id o' = latch_if_id o /\ latch_id_rn o' = latch_id_rn o.
Proof.
  revert o. induction fuel as [|fuel IH]; intros o Hw Hd Hf; cbv zeta.
  - assert (Ec : rob_count o = d + 1) by lia.
    change (flush_rob 0 ?t ?o) with o.
    split_and!; try done.
    + rewrite take_ge; [done |]. unfold window. rewrite length_ring. cbn. lia.
    + pose proof (rw_tail _ Hw) as Et. cbn in Et. rewrite Et, Ec. f_equal. lia.
  - pose proof (head_range _ Hw) as Hh. pose proof (count_range _ Hw) as Hc. cbn in Hh, Hc.
    pose proof (rw_tail _ Hw) as Et. cbn [rn_view v_tail v_head v_count] in Et. rewrite flush_rob_S.
    destruct (Z.eqb_spec (rob_tail o) ((rob_head o + d + 1) mod ROB_SIZE)) as [Es|Es].
    + rewrite Et in Es. apply tail_stop in Es as Ec; [| done | lia | lia].
      split_and!; try done; [| by rewrite Et, Es].
      rewrite take_ge; [done |]. unfold window. rewrite length_ring. cbn. lia.
    + assert (Hlt : d + 1 < rob_count o).
      { destruct (Z.eq_dec (rob_count o) (d + 1)) as [E|]; [| lia]. destruct Es. rewrite Et, E. f_equal. lia. }
      pose proof (view_flush_entry o Hw ltac:(lia)) as Ev.
      destruct (v_squash_ok _ Hw) as [Hw' Hs]; [cbn; lia |].
      pose proof (window_squash _ Hw ltac:(cbn; lia)) as Ew.
      rewrite <-Ev in Hw', Hs, Ew.
      assert (Ef : rob_count (flush_entry o) = rob_count o - 1 /\ rob_head (flush_entry o) = rob_head o /\
                   rrat (flush_entry o) = rrat o).
      { pose proof (f_equal v_count Ev). pose proof (f_equal v_head Ev). by pose proof (f_equal v_rrat Ev). }
      destruct Ef as (Ec & Eh & Er). destruct (flush_entry_rest o) as (E1 & E2 & _).
      destruct (IH (flush_entry o) Hw') as (I1 & I2 & I3 & I4 & I5 & I6 & I7 & I8 & I9); [lia | lia |].
      rewrite Eh in *. split_and!; try congruence; [by eapply rtc_l |].
      rewrite I3, Ew, take_app_le; [done |]. unfold window. rewrite length_ring. cbn. lia.
Qed.

Lemma flush_rs_frame b i o : frame (flush_rs b i o) = frame o.
Proof. unfold flush_rs. case_if; [| done]. by rewrite frame_set_rs. Qed.

(** ** The front end *)

Record fe_ok (o : OOOState) : Prop := {
  fe_if : Forall latch_ok (latch_if_id o);
  fe_rn : Forall latch_ok (latch_id_rn o);
  fe_if_len : length (latch_if_id o) = FETCH_WIDTH;
  fe_rn_len : length (latch_id_rn o) = FETCH_WIDTH;
}.

(** ROB indices. *)
Definition ix_list (l : list Z) : Prop := Forall (fun i => 0 <= i < 32) l.
Definition ix_ok (o : OOOState) : Prop :=
  ix_list (rs_rob_idx <$> rs o) /\ ix_list (l_rob_idx <$> latch_int o) /\
  ix_list (l_rob_idx <$> latch_mul o) /\ ix_list (l_rob_idx <$> latch_lsu o).

(** The invariant of the renamer, of the latches that feed it and of the
    indices that refer to it. *)
Definition ren_ok (o : OOOState) : Prop := rename_wf (rn_view o) /\ fe_ok o /\ ix_ok o.

(** A change of the engine that keeps the invariant and is a sequence of
    abstract steps. *)
Definition refines (o o' : OOOState) : Prop :=
  ren_ok o -> ren_ok o' /\ rtc rstep (abs (rn_view o)) (abs (rn_view o')).

#[export] Instance refines_preorder : PreOrder refines.
Proof.
  split.
  - intros o Ho. split; [done | by apply rtc_refl].
  - intros o1 o2 o3 H12 H23 Ho. destruct (H12 Ho) as [H2 S12]. destruct (H23 H2) as [H3 S23].
    split; [done | by etrans].
Qed.

Lemma refines_same o o' : rn_view o' = rn_view o -> (latch_if_id o', latch_id_rn o') = (latch_if_id o, latch_id_rn o) ->
  ix_view o' = ix_view o -> refines o o'.
Proof.
  intros Hv [= H1 H2] [= H3 H4 H5 H6] (Hw & [F1 F2 F3 F4] & Hi). unfold ren_ok, ix_ok. rewrite Hv, H3, H4, H5, H6.
  split; [| by apply rtc_refl]. split_and!; try apply Hi; [done |]. by split; rewrite ?H1, ?H2.
Qed.

Lemma refines_frame o o' : frame o' = frame o -> refines o o'.
Proof.
  intros E. pose proof (f_equal (fun x => x.1.1.1) E) as E1. pose proof (f_equal (fun x => x.1.1.2) E) as E2.
  pose proof (f_equal (fun x => x.1.2) E) as E3. by apply refines_same.
Qed.

Lemma foldl_refines {B} (f : OOOState -> B -> OOOState) l o : (forall o b, refines o (f o b)) -> refines o (foldl f o l).
Proof. intros Hf. revert o. induction l as [|b l IH]; intros o; cbn; [done |]. by etrans; [apply Hf |]. Qed.

(** Turning latches off keeps their indices. *)
Lemma ix_flush (f : OOOLatch -> OOOLatch) (l : list OOOLatch) : (forall x, l_rob_idx (f x) = l_rob_idx x) ->
  l_rob_idx <$> (f <$> l) = l_rob_idx <$> l.
Proof. intros Hf. rewrite <-list_fmap_compose. apply list_fmap_ext. intros i x _. apply Hf. Qed.

Lemma flush_units_refines b o : refines o (flush_units b o).
Proof.
  intros (Hw & [F1 F2 F3 F4] & Hi). split; [| apply rtc_refl]. split_and!; [done | |].
  - split; cbn [flush_units latch_if_id latch_id_rn]; rewrite ?length_fmap; try done;
      apply Forall_fmap; by eapply Forall_impl.
  - unfold ix_ok. cbn [flush_units rs latch_int latch_mul latch_lsu].
    rewrite !ix_flush; [done | | |]; intros x; unfold flush_lsu, flush_latch; by repeat case_if.
Qed.

Lemma flush_rest_refines b o : refines o (flush_rest b o).
Proof.
  unfold flush_rest. etrans; [| apply flush_units_refines].
  apply (foldl_refines (fun o i => flush_rs b i o)). intros. apply refines_frame, flush_rs_frame.
Qed.

Lemma flush_units_view b o : rn_view (flush_units b o) = rn_view o.
Proof. done. Qed.

Lemma flush_rest_view b o : rn_view (flush_rest b o) = rn_view o.
Proof.
  unfold flush_rest. rewrite flush_units_view. apply (foldl_same rn_view (fun o i => flush_rs b i o)). intros o1 i. exact (f_equal (fun x => x.1.1.1) (flush_rs_frame b i o1)).
Qed.

(** The window position of a valid entry. *)
Lemma valid_dist o i : rename_wf (rn_view o) -> 0 <= i < 32 -> rob_valid (arr (rob o) i) = true ->
  0 <= rob_dist o i < rob_count o.
Proof.
  intros Hw Hi Hv. pose proof (head_range _ Hw) as Hh. cbn in Hh. unfold rob_dist, ROB_SIZE.
  pose proof (Z.mod_pos_bound (i - rob_head o + 32) 32 ltac:(lia)) as Hd. split; [lia |].
  pose proof (rw_valid _ Hw _ Hd) as E. cbn [rn_view v_rob v_head v_count] in E. unfold ROB_SIZE in E.
  rewrite ring_pos, view_arr in E by done. cbn in E. rewrite Hv in E. symmetry in E. by apply Z.ltb_lt in E.
Qed.

Lemma ix_int o s : ix_ok o -> 0 <= s < Z.of_nat (length (latch_int o)) -> 0 <= l_rob_idx (arr (latch_int o) s) < 32.
Proof. intros (_ & H & _) Hs. apply Forall_fmap in H. by apply (Forall_arr _ _ _ H). Qed.

(** The restored state of a flush: only the branch and what is older stays. *)
Lemma flush_after_rob b o : rename_wf (rn_view o) -> 0 <= b < 32 -> rob_valid (arr (rob o) b) = true ->
  let o' := ooo_flush_after b o in
  rename_wf (rn_view o') /\ rtc rstep (abs (rn_view o)) (abs (rn_view o')) /\
  window (rn_view o') = take (Z.to_nat (rob_dist o b + 1)) (window (rn_view o)) /\ rrat o' = rrat o.
Proof.
  intros Hw Hb Hv. pose proof (valid_dist _ _ Hw Hb Hv) as Hd.
  pose proof (head_range _ Hw) as Hh. pose proof (count_range _ Hw) as Hc. cbn in Hh, Hc.
  assert (Et : (b + 1) mod ROB_SIZE = (rob_head o + rob_dist o b + 1) mod ROB_SIZE).
  { rewrite <-(Zplus_mod_idemp_l (rob_head o + rob_dist o b)). unfold rob_dist, ROB_SIZE. by rewrite ring_pos. }
  destruct (flush_rob_ok (Z.to_nat ROB_SIZE) _ o Hw Hd) as (F1 & F2 & F3 & _ & _ & F6 & _);
    [unfold ROB_SIZE; lia |].
  cbv zeta. unfold ooo_flush_after. rewrite Et, flush_rest_view. revert F1 F2 F3 F6.
  generalize (flush_rob (Z.to_nat ROB_SIZE) ((rob_head o + rob_dist o b + 1) mod ROB_SIZE) o). intros o1 F1 F2 F3 F6.
  split_and!; [done.. |]. by rewrite <-F6, <-!view_rrat, flush_rest_view.
Qed.

Lemma flush_entry_ix o : ix_view (flush_entry o) = ix_view o.
Proof. unfold flush_entry. destruct (rob_valid _); [| done]. by destruct (has_dest _), (negb _ && _). Qed.

Lemma flush_rob_rest fuel t o :
  (latch_if_id (flush_rob fuel t o), latch_id_rn (flush_rob fuel t o)) = (latch_if_id o, latch_id_rn o) /\
  ix_view (flush_rob fuel t o) = ix_view o.
Proof.
  revert o. induction fuel as [|fuel IH]; intros o; [done |]. rewrite flush_rob_S. case_if; [done |].
  destruct (IH (flush_entry o)) as [-> ->]. destruct (flush_entry_rest o) as (-> & -> & _).
  by rewrite flush_entry_ix.
Qed.

Lemma rest_same o o' : (latch_if_id o', latch_id_rn o') = (latch_if_id o, latch_id_rn o) /\ ix_view o' = ix_view o ->
  fe_ok o -> ix_ok o -> fe_ok o' /\ ix_ok o'.
Proof.
  intros [[= E1 E2] [= E3 E4 E5 E6]] [F1 F2 F3 F4] Hi.
  split; [by split; rewrite ?E1, ?E2 | unfold ix_ok; by rewrite E3, E4, E5, E6].
Qed.

Lemma flush_after_refines b o : 0 <= b < 32 -> rob_valid (arr (rob o) b) = true -> refines o (ooo_flush_after b o).
Proof.
  intros Hb Hv Ho. destruct (flush_after_rob b o (proj1 Ho) Hb Hv) as (Hw & Hs & _).
  split; [| done]. revert Hw Hs. unfold ooo_flush_after. rewrite flush_rest_view. intros Hw Hs.
  apply flush_rest_refines. split; [done |]. destruct Ho as (_ & Hf & Hi).
  by eapply rest_same; [apply flush_rob_rest |..].
Qed.

(** ** Issue *)

Lemma ix_default (f : OOOLatch -> Z) (l : list OOOLatch) i : ix_list (f <$> l) -> f inhabitant = 0 ->
  0 <= f (arr l i) < 32.
Proof.
  intros H E. apply Forall_fmap in H. by apply (arr_default (fun x => 0 <= f x < 32)); [| rewrite E].
Qed.

Lemma ix_rs o i : ix_ok o -> 0 <= rs_rob_idx (arr (rs o) i) < 32.
Proof. intros [H _]. apply Forall_fmap in H. by apply (arr_default (fun x => 0 <= rs_rob_idx x < 32)). Qed.

Lemma ix_list_upd {A} (f : A -> Z) (l : list A) i x : ix_list (f <$> l) -> 0 <= f x < 32 -> ix_list (f <$> upd l i x).
Proof. intros H Hx. rewrite fmap_upd. by apply Forall_upd. Qed.

(** The three unit latches. *)
Inductive unit_latch : (OOOState -> list OOOLatch) -> (Z -> OOOLatch -> OOOState -> OOOState) -> Prop :=
  | Unit_int : unit_latch latch_int set_int
  | Unit_mul : unit_latch latch_mul set_mul
  | Unit_lsu : unit_latch latch_lsu set_lsu.

Lemma unit_refines get put s l o : unit_latch get put -> 0 <= l_rob_idx l < 32 -> refines o (put s l o).
Proof.
  intros Hu Hl (Hw & Hf & H1 & H2 & H3 & H4).
  destruct Hu; (split; [| apply rtc_refl]); (split; [exact Hw | split; [by destruct Hf |]]);
    unfold ix_ok; cbn [set_int set_mul set_lsu rs latch_int latch_mul latch_lsu]; split_and!; try done; by apply ix_list_upd.
Qed.

Lemma issue_refines get put mo eu o s : unit_latch get put -> refines o (issue_slot get put mo eu o s).
Proof.
  intros Hu Ho. unfold issue_slot. case_if; [by split; [| apply rtc_refl] |].
  destruct (pick mo eu o) as [i|]; [| by split; [| apply rtc_refl]].
  pose proof (frame_from_rs i o) as Ef. destruct (latch_from_rs i o) as [l o'] eqn:El. cbn [snd] in Ef.
  assert (Hr : refines o (put s l o')); [| by apply Hr].
  etrans; [apply refines_frame, Ef |]. eapply unit_refines; [done |].
  unfold latch_from_rs in El. injection El as <- _. apply ix_rs, Ho.
Qed.

Lemma is_refines o : refines o (ooo_stage_is o).
Proof.
  unfold ooo_stage_is.
  etrans; [| apply foldl_refines; intros; apply issue_refines, Unit_lsu].
  etrans; [| apply foldl_refines; intros; apply issue_refines, Unit_mul].
  apply foldl_refines. intros. apply issue_refines, Unit_int.
Qed.

(** ** Rename *)

Lemma fill_rs_idx ir idx p s1 s2 e : rs_rob_idx (fill_rs ir idx p s1 s2 e) = idx.
Proof. destruct s1 as [[? ?] ?], s2 as [[? ?] ?]. unfold fill_rs. by repeat case_if. Qed.

Lemma rename_rest ir o o' : rename ir o = Ok o' ->
  (latch_if_id o', latch_id_rn o') = (latch_if_id o, latch_id_rn o) /\
  (sbuf o', sbuf_head o', sbuf_tail o', sbuf_count o') = (sbuf o, sbuf_head o, sbuf_tail o, sbuf_count o) /\
  latch_int o' = latch_int o /\ latch_mul o' = latch_mul o /\ latch_lsu o' = latch_lsu o /\
  exists slot e, rs o' = upd (rs o) slot e /\ rs_rob_idx e = rob_tail o.
Proof.
  intros E. unfold rename in E. destruct (alloc_phys _ _) as [[p old] o1] eqn:Ea. inv_res.
  assert (F : (latch_if_id o1, latch_id_rn o1) = (latch_if_id o, latch_id_rn o) /\
    (sbuf o1, sbuf_head o1, sbuf_tail o1, sbuf_count o1) = (sbuf o, sbuf_head o, sbuf_tail o, sbuf_count o) /\
    latch_int o1 = latch_int o /\ latch_mul o1 = latch_mul o /\ latch_lsu o1 = latch_lsu o /\ rs o1 = rs o).
  { assert (G : (latch_if_id (alloc_rob ir o), latch_id_rn (alloc_rob ir o)) = (latch_if_id o, latch_id_rn o) /\
      (sbuf (alloc_rob ir o), sbuf_head (alloc_rob ir o), sbuf_tail (alloc_rob ir o), sbuf_count (alloc_rob ir o)) =
      (sbuf o, sbuf_head o, sbuf_tail o, sbuf_count o) /\
      latch_int (alloc_rob ir o) = latch_int o /\ latch_mul (alloc_rob ir o) = latch_mul o /\
      latch_lsu (alloc_rob ir o) = latch_lsu o /\ rs (alloc_rob ir o) = rs o)
      by (unfold alloc_rob; by case_if).
    revert G Ea. generalize (alloc_rob ir o). intros oa G Ea. unfold alloc_phys in Ea.
    case_if_in Ea; [| case_if_in Ea]; cbn [freelist_pop] in Ea; injection Ea as <- <- <-; exact G. }
  destruct F as (F1 & F2 & F3 & F4 & F5 & F6). split_and!; try done.
  exists x, (fill_rs ir (rob_tail o) p (read_source (ir_rs1 ir) (alloc_rob ir o))
    (read_source (ir_rs2 ir) (alloc_rob ir o)) (arr (rs o1) x)).
  split; [by rewrite <-F6 | apply fill_rs_idx].
Qed.

Lemma rename_refines ir o o' : dest_ok (ir_rd ir) -> rob_count o < 32 ->
  (has_dest (ir_rd ir) = true -> fl_count (freelist o) <> 0) -> rename ir o = Ok o' -> refines o o'.
Proof.
  intros Hr Hc Hf E (Hw & Hfe & Hi). pose proof (view_rename o Hw ir o' Hr E) as Ev.
  destruct (v_rename_ok _ Hw (ir_rd ir)) as [Hw' Hs]; [done | done | |].
  { intros Hd. specialize (Hf Hd). pose proof (fw_count _ (rw_fl _ Hw)). cbn in *. lia. }
  rewrite <-Ev in Hw', Hs. split; [| by apply rtc_once]. split; [done |].
  destruct (rename_rest _ _ _ E) as ([= R1 R2] & _ & R3 & R4 & R5 & slot & e & R6 & R7).
  split.
  - destruct Hfe as [F1 F2 F3 F4]. by split; rewrite ?R1, ?R2.
  - destruct Hi as (H1 & H2 & H3 & H4). unfold ix_ok. rewrite R3, R4, R5, R6. split_and!; try done.
    apply ix_list_upd; [done |]. rewrite R7. by apply rob_tail_range.
Qed.

Lemma set_id_rn_refines n r o : (fe_ok o -> latch_ok r) -> refines o (set_id_rn n r o).
Proof.
  intros Hr (Hw & Hf & Hi). split; [| apply rtc_refl]. split_and!; [exact Hw | | exact Hi].
  pose proof (Hr Hf). destruct Hf as [F1 F2 F3 F4].
  split; cbn [set_id_rn latch_if_id latch_id_rn]; rewrite ?length_upd; auto using Forall_upd.
Qed.

Lemma set_if_id_refines n r o : (fe_ok o -> latch_ok r) -> refines o (set_if_id n r o).
Proof.
  intros Hr (Hw & Hf & Hi). split; [| apply rtc_refl]. split_and!; [exact Hw | | exact Hi].
  pose proof (Hr Hf). destruct Hf as [F1 F2 F3 F4].
  split; cbn [set_if_id latch_if_id latch_id_rn]; rewrite ?length_upd; auto using Forall_upd.
Qed.

Lemma id_rn_off_refines n o : refines o (id_rn_off n o).
Proof. apply set_id_rn_refines. intros [_ F _ _]. exact (latch_ok_arr _ n F). Qed.

Lemma rn_guard_go n used ir o : rn_guard n used ir o = Rn_go ->
  rob_count o < 32 /\ (has_dest (ir_rd ir) = true -> fl_count (freelist o) <> 0) /\ used < 16.
Proof.
  unfold rn_guard. intros E. repeat case_if_in E; try done. zify_bool. unfold ROB_SIZE, RS_SIZE in *.
  split_and!; [lia | | lia]. intros Hd. rewrite Hd in *. zify_bool. lia.
Qed.

Lemma rn_loop_refines todo n used o s o' s' : rn_loop todo n used o s = Ok (o', s') -> refines o o'.
Proof.
  revert n used o s. induction todo as [|todo IH]; intros n used o s E; [by injection E as <- _ |].
  rewrite rn_loop_S in E. cbv zeta in E.
  case_if_in E; [by simplify_eq |].
  destruct (rn_guard n used _ o) eqn:Eg; [| by simplify_eq..].
  apply rn_guard_go in Eg as (Hc & Hf & _). inv_res. rename x into o1.
  intros Ho. assert (Hl : latch_ok (arr (latch_id_rn o) n)) by (apply latch_ok_arr, Ho).
  assert (R : refines o o'); [| by apply R].
  etrans; [eapply rename_refines; eauto |]. etrans; [apply id_rn_off_refines |]. by eapply IH.
Qed.

Lemma compact_refines o : refines o (rn_compact o).
Proof.
  unfold rn_compact. case_if; [| done]. etrans; [| apply id_rn_off_refines].
  apply set_id_rn_refines. intros [_ F _ _]. by apply latch_ok_arr.
Qed.

Lemma rn_refines o s o' s' : ooo_stage_rn o s = Ok (o', s') -> refines o o'.
Proof.
  unfold ooo_stage_rn. intros E. case_if_in E; [by simplify_eq |]. inv_res. destruct x as [o1 s1].
  inv_res. etrans; [by eapply rn_loop_refines | apply compact_refines].
Qed.

(** ** Commit *)

Lemma commit_store_view e w w' : commit_store e w = Ok w' ->
  rn_view (ooo w') = rn_view (ooo w) /\ rob (ooo w') = rob (ooo w) /\
  (latch_if_id (ooo w'), latch_id_rn (ooo w')) = (latch_if_id (ooo w), latch_id_rn (ooo w)) /\
  ix_view (ooo w') = ix_view (ooo w).
Proof. unfold commit_store. intros E. by res_cases. Qed.

Lemma commit_regs_ooo e w :
  ooo (commit_regs e w) = if has_dest (arch_rd e) then commit_rename e (ooo w) else ooo w.
Proof. unfold commit_regs. by case_if. Qed.

(** Retiring the head of the ROB is an abstract commit. *)
Lemma retire_refines e o : e = arr (rob o) (rob_head o) -> rob_count o <> 0 ->
  refines o (rob_pop (if has_dest (arch_rd e) then commit_rename e o else o)).
Proof.
  intros He Hc (Hw & Hf & Hi). pose proof (view_commit o Hw e He) as Ev.
  destruct (v_commit_ok _ Hw) as [Hw' Hs]; [pose proof (count_range _ Hw); cbn in *; lia |].
  rewrite <-Ev in Hw', Hs. split; [| by apply rtc_once]. split; [done |].
  by apply (rest_same o); [case_if |..].
Qed.

Lemma commit_one_refines w go w' : commit_one w = Ok (go, w') -> refines (ooo w) (ooo w').
Proof.
  unfold commit_one. intros E. destruct (Z.eqb_spec (rob_count (ooo w)) 0) as [|Hc]; [by simplify_eq |].
  cbv zeta in E. case_if_in E; [by simplify_eq |]. apply bind_Ok_inv in E as (w1 & Ht & E).
  apply trace_ooo in Ht. case_if_in E; [injection E as _ <-; by rewrite Ht |].
  apply bind_Ok_inv in E as (_ & _ & E). case_if_in E; [injection E as _ <-; by rewrite Ht |].
  apply bind_Ok_inv in E as (w2 & Hst & E). apply bind_Ok_inv in E as (w3 & Hd & E). injection E as _ <-.
  assert (Ed : ooo w3 = ooo (commit_regs (arr (rob (ooo w)) (rob_head (ooo w))) w2)).
  { case_if_in Hd; [by apply check_ooo in Hd | by injection Hd as <-]. }
  apply commit_store_view in Hst as (V1 & V2 & V3 & V4). rewrite Ht in V1, V2, V3, V4.
  transitivity (ooo w2); [by apply refines_same |].
  change (ooo (count_commit (map_ooo rob_pop w3))) with (rob_pop (ooo w3)).
  assert (Eh : rob_head (ooo w2) = rob_head (ooo w)) by exact (f_equal v_head V1).
  assert (En : rob_count (ooo w2) = rob_count (ooo w)) by exact (f_equal v_count V1).
  rewrite Ed, commit_regs_ooo, <-Eh, <-V2. apply retire_refines; [done | by rewrite En].
Qed.

(** ** The whole cycle *)

Lemma valid_same o o' i : rename_wf (rn_view o) -> rn_view o' = rn_view o -> 0 <= i < 32 ->
  rob_valid (arr (rob o') i) = rob_valid (arr (rob o) i).
Proof.
  intros Hw Ev Hi. pose proof (f_equal v_rob Ev) as E. cbn in E.
  assert (Hw' : rename_wf (rn_view o')) by (by rewrite Ev).
  pose proof (view_arr o Hw i Hi) as E1. pose proof (view_arr o' Hw' i Hi) as E2.
  rewrite E, E1 in E2. by injection E2.
Qed.

Lemma flush_law s o o1 : let b := l_rob_idx (arr (latch_int o) s) in
  rob_valid (arr (rob o) b) = true -> frame o1 = frame o -> refines o o1 -> refines o (ooo_flush_after b o1).
Proof.
  cbv zeta. set (b := l_rob_idx _). intros Hv Hf HR Ho.
  assert (Hb : 0 <= b < 32) by (apply (ix_default l_rob_idx); [apply Ho | done]).
  assert (Hv1 : rob_valid (arr (rob o1) b) = true).
  { rewrite <-Hv. apply valid_same; [apply Ho | exact (f_equal (fun x => x.1.1.1) Hf) | done]. }
  assert (G : refines o (ooo_flush_after b o1)); [| by apply G].
  etrans; [exact HR | by apply flush_after_refines].
Qed.

#[export] Instance refines_laws : StageLaws refines.
Proof.
  split; try (intros; apply refines_frame; by autorewrite with frame).
  - apply refines_preorder.
  - apply commit_one_refines.
  - intros. by apply refines_frame, frame_set_int.
  - intros. by apply refines_frame, frame_set_mul.
  - intros. by apply refines_frame, frame_finish.
  - intros. apply refines_frame, frame_bad.
  - intros. apply refines_frame, frame_done.
  - intros. apply refines_frame, frame_store.
  - intros. by eapply refines_frame, frame_alloc.
  - apply flush_law.
  - apply is_refines.
  - intros. by eapply rn_refines.
  - intros o s. unfold id_move.
    etrans; [apply (set_id_rn_refines s (arr (latch_if_id o) s)) | apply set_if_id_refines];
      intros [F1 F2 _ _]; exact (latch_ok_arr _ s F1).
  - intros. by apply set_if_id_refines.
  - intros. by apply refines_same.
Qed.

(** ** The initial state *)

Definition init_view : RnView :=
  mkView (seqZ_from 0 32) (seqZ_from 0 32)
    (mkFreeList (seqZ_from 32 32 ++ replicate 32 0) 0 32 32)
    (replicate (Z.to_nat ROB_SIZE) (mkRV false 0 0 0)) 0 0 0.

Lemma init_rn_view c : rn_view (init_ooo c) = init_view.
Proof. vm_compute. reflexivity. Qed.

Lemma init_view_wf : rename_wf init_view.
Proof.
  split; try (vm_compute; (reflexivity || (split; congruence))); try done.
  - intros k Hk. replace (k <? v_count init_view) with false by (cbn; lia).
    by apply (arr_default (fun x => rv_valid x = false)); [apply Forall_replicate |].
  - split; try reflexivity; [by apply Forall_nil |].
    change (seqZ_from 32 32 ++ seqZ_from 1 31 ++ [] ≡ₚ seqZ_from 1 31 ++ seqZ_from 32 32).
    rewrite app_nil_r. apply Permutation_app_comm.
Qed.

Lemma init_ren_ok c : ren_ok (init_ooo c).
Proof.
  unfold ren_ok. rewrite init_rn_view. split_and!; [apply init_view_wf | |].
  - split; [by repeat constructor.. | done | done].
  - unfold ix_ok. split_and!; vm_compute; repeat constructor; congruence.
Qed.

(** ** Claims *)

(** C12. Register renaming in the out-of-order engine refines the abstract
    renamer: [ooo_init] starts it in a good state, and whatever one cycle does,
    with its commits, its misprediction flush and its renames, is a sequence of
    abstract commits, squashes and renames that keeps p1..p63 partitioned into
    free registers, homes of x1..x31 and destinations in flight. *)
Theorem renaming_refined w w' : ren_ok (ooo (ooo_init w)) /\
  (ren_ok (ooo w) -> ooo_cycle w = Ok w' ->
   ren_ok (ooo w') /\ rtc rstep (abs (rn_view (ooo w))) (abs (rn_view (ooo w'))) /\
   ren_inv (abs (rn_view (ooo w')))).
Proof.
  split; [apply init_ren_ok |]. intros Ho E. destruct (cycle_R refines _ _ E Ho) as [Ho' Hs]. split_and!; [done | done |]. apply Ho'.
Qed.

(** The registers that the speculative map no longer names. *)
Fixpoint replaced (m : list Z) (l : list (Z * Z)) : list Z :=
  match l with
  | [] => []
  | d :: l => (if has_dest d.1 then [arr m d.1] else []) ++ replaced (apply_dest m d) l
  end.

Lemma replaced_perm l m : length m = 32%nat -> Forall (fun d => dest_ok d.1) l ->
  drop 1 m ++ held l ≡ₚ drop 1 (foldl apply_dest m l) ++ replaced m l.
Proof.
  revert m. induction l as [|[rd p] l IH]; intros m Hm Hl; [done |].
  apply Forall_cons in Hl as [Hr Hl]. rewrite held_cons. cbn [foldl replaced fst].
  assert (Ea : apply_dest m (rd, p) = if has_dest rd then upd m rd p else m) by done. rewrite Ea.
  cbn [fst snd] in *. destruct (has_dest rd) eqn:Hd; [| by apply IH].
  pose proof (has_dest_spec _ Hd Hr). pose proof (drop_upd_perm m rd p Hm ltac:(lia)) as Hu.
  transitivity ((p :: drop 1 m) ++ held l); [solve_Permutation |]. rewrite Hu. cbn [app].
  rewrite (IH (upd m rd p)) by (rewrite ?length_upd; done). solve_Permutation.
Qed.

Lemma NoDup_seqZ_from n start : NoDup (seqZ_from start n).
Proof.
  revert start. induction n as [|n IH]; intros start; cbn; [constructor |]. constructor; [| done].
  intros H%elem_of_seqZ_from. lia.
Qed.

(** In every reachable rename state two different registers among x1..x31
    never share a physical register, none of them is on the free list, x0 stays
    on p0, and the free list holds exactly 32 registers minus the instructions
    in flight that write one; so it cannot be empty while the reorder buffer
    has room, and the third structural check of [ooo_stage_rn] never fires. *)
Theorem rename_map_sound o : ren_ok o ->
  NoDup (fl_list (freelist o) ++ drop 1 (rat o)) /\ arr (rat o) 0 = 0 /\
  fl_count (freelist o) = 32 - Z.of_nat (length (held (rv_pair <$> window (rn_view o)))) /\
  (rob_count o < ROB_SIZE -> 0 < fl_count (freelist o)) /\
  (forall n used ir, rn_guard n used ir o =
     if serializing ir && ((0 <? rob_count o) || (0 <? n)) then Rn_serial
     else if ROB_SIZE <=? rob_count o then Rn_rob_full
     else if RS_SIZE <=? used then Rn_rs_full else Rn_go).
Proof.
  intros (Hw & _ & _). destruct (rw_ren _ Hw) as [Hm Hz Hd Hp]. cbn [abs cmap inflight free] in *.
  pose proof (rename_fl_count _ Hw) as Hc. cbn [rn_view v_fl] in Hc. pose proof (fw_count _ (rw_fl _ Hw)) as H0. cbn in H0.
  pose proof (rw_rat _ Hw) as Hr. rewrite view_rat in Hr.
  assert (Hroom : rob_count o < ROB_SIZE -> 0 < fl_count (freelist o)).
  { intros Hlt. assert (Hle : (length (held (rv_pair <$> window (rn_view o))) <= Z.to_nat (rob_count o))%nat).
    { unfold held, window. rewrite length_fmap, length_filter, length_fmap, length_ring. done. }
    unfold ROB_SIZE in Hlt. pose proof (count_range _ Hw). cbn in *. lia. }
  split_and!; [| | lia | done |].
  - pose proof (NoDup_seqZ_from 63 1) as Hn. rewrite <-Hp, replaced_perm, app_assoc in Hn by done.
    rewrite Hr. by apply NoDup_app in Hn as [Hn _].
  - rewrite Hr. unfold spec_map. cbn [abs cmap inflight]. clear -Hd Hz. revert Hd Hz.
    generalize (rv_pair <$> window (rn_view o)), (v_rrat (rn_view o)). intros l.
    induction l as [|[rd p] l IH]; intros m Hd Hz; [done |]. apply Forall_cons in Hd as [Hr Hd].
    cbn [foldl]. apply IH; [done |]. unfold apply_dest. cbn [fst snd] in *. destruct (has_dest rd) eqn:E; [| done].
    pose proof (has_dest_spec _ E Hr). by rewrite arr_upd_ne by lia.
  - intros n used ir. unfold rn_guard. repeat case_if; try done; zify_bool; lia.
Qed.

(** C13. A misprediction flush is precise: it leaves in the reorder buffer the
    branch and everything older, gives back the rename table the branch itself
    left behind, does not touch the committed table, and returns to the free
    list exactly the destinations of the squashed instructions. *)
Theorem flush_precise b o : ren_ok o -> 0 <= b < ROB_SIZE -> rob_valid (arr (rob o) b) = true ->
  let kept := take (Z.to_nat (rob_dist o b + 1)) (window (rn_view o)) in
  let squashed := drop (Z.to_nat (rob_dist o b + 1)) (window (rn_view o)) in
  let o' := ooo_flush_after b o in
  ren_ok o' /\ window (rn_view o') = kept /\ rat o' = map_through (rrat o) kept /\ rrat o' = rrat o /\
  fl_list (freelist o') ≡ₚ fl_list (freelist o) ++ held (rv_pair <$> squashed).
Proof.
  intros Ho Hb Hv. cbv zeta. destruct (flush_after_refines b o Hb Hv Ho) as [Ho' _].
  destruct (flush_after_rob b o (proj1 Ho) Hb Hv) as (Hw' & _ & Ew & Er).
  revert Ho' Hw' Ew Er. generalize (ooo_flush_after b o). intros o' Ho' Hw' Ew Er.
  split_and!; [done | done | | done |].
  - pose proof (rw_rat _ Hw') as E. by rewrite view_rat, spec_map_abs, Ew, view_rrat, Er in E.
  - pose proof (ri_regs _ (rw_ren _ Hw')) as P'. pose proof (ri_regs _ (rw_ren _ (proj1 Ho))) as P.
    cbn [abs free cmap inflight rn_view v_fl v_rrat] in P, P'. fold (rn_view o) in P. fold (rn_view o') in P'.
    rewrite Ew, Er in P'. rewrite <-(take_drop (Z.to_nat (rob_dist o b + 1)) (window (rn_view o))), fmap_app, held_app in P.
    rewrite <-P in P'. apply (Permutation_app_inv_r (drop 1 (rrat o) ++ held (rv_pair <$> take (Z.to_nat (rob_dist o b + 1)) (window (rn_view o))))).
    etrans; [exact P' |]. solve_Permutation.
Qed.

(** ** Instances *)

(** [addi x1, x0, 5] *)
Definition addi_ir : IR_Inst := ir_decode (replicate 32 0) 0x00500093 0x80000000 0x80000004 ir_zero.

(** A started engine with one instruction in front of the rename stage. *)
Definition sample_engine : OOOState := set_id_rn 0 (mkPipeReg addi_ir true) (init_ooo (mkCPU (replicate 32 0) 0)).

Definition sample_ooo (m : Mach) : OooWorld :=
  mkOooWorld (sample_world m ITYPE_ALU None 0) sample_engine zero_ooo_stats bpred_init false init_regs false false
    ringbuf_static (fun _ _ => []).

Lemma sample_engine_ok : ren_ok sample_engine.
Proof. apply set_id_rn_refines; [intros _; apply decode_dest | apply init_ren_ok]. Qed.

Lemma sample_cycle m : exists w', ooo_cycle (sample_ooo m) = Ok w' /\ rob_count (ooo w') = 1.
Proof.
  assert (H : (match ooo_cycle (sample_ooo m) with Ok w => rob_count (ooo w) =? 1 | Err _ => false end) = true)
    by (vm_compute; reflexivity).
  destruct (ooo_cycle (sample_ooo m)) as [w'|]; [| done]. exists w'. split; [done | by apply Z.eqb_eq].
Qed.

Lemma renaming_refined_witness : exists w', ooo_cycle (sample_ooo sample_mach) = Ok w' /\ rob_count (ooo w') = 1 /\
  ren_inv (abs (rn_view (ooo w'))).
Proof.
  destruct (sample_cycle sample_mach) as (w' & E & Hc). exists w'. split; [exact E | split; [exact Hc |]].
  apply (proj2 (renaming_refined (sample_ooo sample_mach) w') sample_engine_ok E).
Defined.

Lemma rename_map_sound_witness : ren_ok sample_engine /\ fl_count (freelist sample_engine) = 32 /\
  (rob_count sample_engine < ROB_SIZE -> 0 < fl_count (freelist sample_engine)).
Proof.
  split; [exact sample_engine_ok | split; [vm_compute; reflexivity |]].
  apply (rename_map_sound sample_engine sample_engine_ok).
Defined.

(** Two renamed instructions. *)
Lemma sample_two : exists o1 o2, rename addi_ir sample_engine = Ok o1 /\ rename addi_ir o1 = Ok o2 /\ ren_ok o2 /\
  rob_valid (arr (rob o2) 0) = true /\ rob_dist o2 0 = 0 /\ rob_count o2 = 2.
Proof.
  assert (H : (match rename addi_ir sample_engine with
    | Ok o1 => (rob_count o1 =? 1) && negb (fl_count (freelist o1) =? 0) && match rename addi_ir o1 with
      | Ok o2 => rob_valid (arr (rob o2) 0) && (rob_dist o2 0 =? 0) && (rob_count o2 =? 2)
      | Err _ => false end
    | Err _ => false end) = true) by (vm_compute; reflexivity).
  destruct (rename addi_ir sample_engine) as [o1|] eqn:E1; [| done].
  destruct (rename addi_ir o1) as [o2|] eqn:E2; [| by zify_bool]. exists o1, o2. zify_bool.
  assert (Ho1 : ren_ok o1).
  { eapply (rename_refines addi_ir sample_engine); [apply decode_dest | done | done | done | apply sample_engine_ok]. }
  split_and!; try done. by eapply (rename_refines addi_ir o1); [apply decode_dest | lia | done | done |].
Qed.

Lemma flush_precise_witness : exists o2, ren_ok o2 /\ rob_count o2 = 2 /\
  length (window (rn_view (ooo_flush_after 0 o2))) = 1%nat.
Proof.
  destruct sample_two as (o1 & o2 & _ & _ & Ho & Hv & Hd & Hc). exists o2. split; [exact Ho | split; [exact Hc |]].
  destruct (flush_precise 0 o2 Ho ltac:(done) Hv) as (_ & E & _). rewrite E, length_take, Hd.
  unfold window. rewrite length_ring. cbn [rn_view v_count]. rewrite Hc. reflexivity.
Defined.

