(* ===== verification/OooIssue.v ===== *)
(** * Reservation stations and issue of the out-of-order engine (src/cpu/ooo.c)

    The free and ready bit masks always describe the stations, so the rename
    stage always finds the slot its count promised and the issue stage picks
    the oldest station that may run. *)

From S2P Require Import Prelude Word State Pmp Csr Cache CacheSet CacheSpec CacheRefine Coherence Mmio Mem Ftrace Vmem VmemSpec Decode Ir IrSpec Exec Isa Bpred Pipeline Ringbuf Ring Ooo Renamer OooStages OooRename.

(** ** Bits *)

Lemma testbit_bit i j : 0 <= i -> 0 <= j -> Z.testbit (bit i) j = (i =? j).
Proof. intros Hi Hj. unfold bit. rewrite Z.shiftl_1_l. by apply Z.pow2_bits_eqb. Qed.

Lemma testbit_set m i j : 0 <= i -> 0 <= j -> Z.testbit (Z.lor m (bit i)) j = Z.testbit m j || (i =? j).
Proof. intros Hi Hj. by rewrite Z.lor_spec, testbit_bit. Qed.

Lemma testbit_clear m i j : 0 <= i -> 0 <= j -> Z.testbit (Z.ldiff m (bit i)) j = Z.testbit m j && negb (i =? j).
Proof. intros Hi Hj. by rewrite Z.ldiff_spec, testbit_bit. Qed.

Lemma elem_of_bits m i : i ∈ bits m <-> 0 <= i < 32 /\ Z.testbit m i = true.
Proof. unfold bits. rewrite list_elem_of_filter, elem_of_seqZ_from. cbn. split; intros [? ?]; split; [lia | done | done | lia]. Qed.

Lemma ctz_spec m i : ctz m = Ok i -> i ∈ bits m.
Proof. unfold ctz. destruct (bits m) as [|j l]; [done |]. intros [= <-]. apply list_elem_of_here. Qed.

Lemma ctz_total m : 0 < popcount m -> exists i, ctz m = Ok i.
Proof. unfold popcount, ctz. destruct (bits m) as [|i l]; cbn; [lia | eauto]. Qed.

(** Clearing a set bit. *)
Lemma filter_away (P Q : Z -> Prop) `{!forall x, Decision (P x), !forall x, Decision (Q x)} (l : list Z) :
  (forall j, j ∈ l -> Q j <-> P j) -> filter P l = filter Q l.
Proof.
  intros HQ. induction l as [|x l IH]; [done |]. rewrite !filter_cons, IH by (intros; apply HQ; by apply list_elem_of_further).
  pose proof (HQ x ltac:(apply list_elem_of_here)). destruct (decide (P x)), (decide (Q x)); tauto.
Qed.

Lemma filter_one (P Q : Z -> Prop) `{!forall x, Decision (P x), !forall x, Decision (Q x)} (l : list Z) i :
  NoDup l -> i ∈ l -> P i -> (forall j, j ∈ l -> Q j <-> P j /\ j <> i) -> length (filter P l) = S (length (filter Q l)).
Proof.
  intros Hn Hi HP HQ. induction Hn as [|x l Hx Hn IH]; [by apply elem_of_nil in Hi |].
  pose proof (HQ x ltac:(apply list_elem_of_here)) as Hq.
  assert (HQ' : forall j, j ∈ l -> Q j <-> P j /\ j <> i) by (intros; apply HQ; by apply list_elem_of_further).
  rewrite !filter_cons. destruct (decide (x = i)) as [->|Hne].
  - rewrite decide_True by done. rewrite decide_False by tauto. cbn. f_equal. f_equal.
    apply filter_away. intros j Hj. rewrite (HQ' j Hj). split; [tauto |]. intros Pj. split; [done |]. by intros ->.
  - apply elem_of_cons in Hi as [?|Hi]; [done |]. specialize (IH Hi HQ').
    destruct (decide (P x)), (decide (Q x)); cbn; rewrite ?IH; tauto.
Qed.

Lemma popcount_clear m i : i ∈ bits m -> popcount (Z.ldiff m (bit i)) = popcount m - 1.
Proof.
  intros Hi. unfold popcount. assert (E : length (bits m) = S (length (bits (Z.ldiff m (bit i))))); [| lia].
  apply elem_of_bits in Hi as [Hr Hb]. unfold bits. apply (filter_one _ _ _ i).
  - apply NoDup_seqZ_from.
  - apply elem_of_seqZ_from. lia.
  - done.
  - intros j Hj%elem_of_seqZ_from. rewrite testbit_clear by lia. rewrite andb_true_iff, negb_true_iff, Z.eqb_neq.
    split; intros [? ?]; split; congruence.
Qed.

(** ** The masks describe the stations *)

Definition station_ready (eu : Z) (e : RSEntry) : bool :=
  rs_valid e && (eu_type e =? eu) && src1_ready e && src2_ready e.

Record mask_ok (o : OOOState) : Prop := {
  mk_rs : length (rs o) = Z.to_nat RS_SIZE;
  mk_masks : length (rs_ready_mask o) = 3%nat;
  mk_eu : Forall (fun e => 0 <= eu_type e < 3) (rs o);
  mk_free : forall i, 0 <= i -> Z.testbit (rs_free_mask o) i = (i <? RS_SIZE) && negb (rs_valid (arr (rs o) i));
  mk_ready : forall eu i, 0 <= eu < 3 -> 0 <= i ->
    Z.testbit (arr (rs_ready_mask o) eu) i = (i <? RS_SIZE) && station_ready eu (arr (rs o) i);
}.

Definition mask_view (o : OOOState) := (rs o, rs_ready_mask o, rs_free_mask o).

Lemma mask_same o o' : mask_view o' = mask_view o -> mask_ok o -> mask_ok o'.
Proof. intros [= E1 E2 E3] [H1 H2 H3 H4 H5]. split; rewrite ?E1, ?E2, ?E3; done. Qed.

(** Replacing station [i] with the masks that go with the new station. *)
Lemma mask_put i e o o' : mask_ok o -> 0 <= i < RS_SIZE -> 0 <= eu_type e < 3 ->
  rs o' = upd (rs o) i e -> length (rs_ready_mask o') = 3%nat ->
  (forall j, 0 <= j -> Z.testbit (rs_free_mask o') j = if i =? j then negb (rs_valid e) else Z.testbit (rs_free_mask o) j) ->
  (forall eu j, 0 <= eu < 3 -> 0 <= j -> Z.testbit (arr (rs_ready_mask o') eu) j =
     if i =? j then station_ready eu e else Z.testbit (arr (rs_ready_mask o) eu) j) ->
  mask_ok o'.
Proof.
  intros [H1 H2 H3 H4 H5] Hi He Ers El Hf Hr. unfold RS_SIZE in *.
  split; rewrite ?Ers, ?length_upd; try done; [by apply Forall_upd | |].
  - intros j Hj. rewrite Hf by done. rewrite arr_upd by (rewrite ?H1; lia).
    destruct (Z.eqb_spec i j) as [<-|]; [| by apply H4]. by replace (i <? RS_SIZE) with true by (unfold RS_SIZE; lia).
  - intros eu j Heu Hj. rewrite Hr by done. rewrite arr_upd by (rewrite ?H1; lia).
    destruct (Z.eqb_spec i j) as [<-|]; [| by apply H5]. by replace (i <? RS_SIZE) with true by (unfold RS_SIZE; lia).
Qed.

(** Bits of a ready mask after one of the three masks changed. *)
Lemma ready_upd (l : list Z) eu eu' m : length l = 3%nat -> 0 <= eu < 3 -> 0 <= eu' < 3 ->
  arr (upd l eu m) eu' = if eu =? eu' then m else arr l eu'.
Proof. intros Hl H1 H2. apply arr_upd; [rewrite Hl |]; lia. Qed.

Section Masks.
Context (o : OOOState) (Hm : mask_ok o).

Lemma eu_range i : 0 <= i < RS_SIZE -> 0 <= eu_type (arr (rs o) i) < 3.
Proof.
  intros Hi. destruct Hm as [H1 _ H3 _ _]. apply (Forall_arr (fun e => 0 <= eu_type e < 3)); [done |].
  rewrite H1. unfold RS_SIZE in *. lia.
Qed.

(** A station that is not ready for another unit has no bit there. *)
Lemma other_unit eu i : 0 <= eu < 3 -> 0 <= i < RS_SIZE -> eu <> eu_type (arr (rs o) i) ->
  Z.testbit (arr (rs_ready_mask o) eu) i = false.
Proof.
  intros Heu Hi Hne. destruct Hm as [_ _ _ _ H5]. rewrite H5 by (done || lia). unfold station_ready.
  replace (eu_type (arr (rs o) i) =? eu) with false by lia. rewrite andb_false_r. cbn. by rewrite andb_false_r.
Qed.

(** Freeing a station. *)
Lemma mask_free i e : 0 <= i < RS_SIZE -> e = arr (rs o) i ->
  mask_ok (set_rs i {| e with rs_valid := false |} (rs_mask_clear i (eu_type e) o)).
Proof.
  intros Hi ->. pose proof (eu_range i Hi) as He. pose proof (mk_masks _ Hm) as Hl.
  eapply (mask_put i); [exact Hm | done | | reflexivity | by cbn; rewrite length_upd | |]; [done | |].
  - intros j Hj. cbn [rs_free_mask set_rs rs_mask_clear rs_valid negb]. rewrite testbit_set by lia.
    destruct (Z.eqb_spec i j); [by rewrite orb_true_r | by rewrite orb_false_r].
  - intros eu j Heu Hj. cbn [rs_ready_mask set_rs rs_mask_clear set_ready_mask]. rewrite ready_upd by done.
    destruct (Z.eqb_spec (eu_type (arr (rs o) i)) eu) as [E|E]; rewrite ?testbit_clear by lia;
      (destruct (Z.eqb_spec i j) as [<-|]; [| by rewrite ?andb_true_r, ?E]).
    + by rewrite andb_false_r.
    + by apply other_unit.
Qed.

Lemma woken_facts tag v e :
  rs_valid (woken tag v e) = rs_valid e /\ eu_type (woken tag v e) = eu_type e /\
  src1_ready (woken tag v e) = src1_ready e || waits1 tag e /\ src2_ready (woken tag v e) = src2_ready e || waits2 tag e.
Proof.
  unfold woken. assert (E : forall e', waits2 tag e' = negb (src2_ready e') && (src2_ptag e' =? tag)) by done.
  destruct (waits1 tag e) eqn:E1; rewrite !E; cbn [src2_ready src2_ptag];
    destruct (negb (src2_ready e) && (src2_ptag e =? tag)) eqn:E2; cbn;
    rewrite ?orb_true_r, ?orb_false_r; done.
Qed.

Lemma mask_wake tag i : 0 <= i < RS_SIZE -> rs_valid (arr (rs o) i) = true -> mask_ok (cdb_wake tag i o).
Proof.
  intros Hi Hv. pose proof (eu_range i Hi) as He. pose proof (mk_masks _ Hm) as Hl.
  unfold cdb_wake. set (e := arr (rs o) i) in *. cbv zeta.
  destruct (woken_facts tag (pr_value (arr (prf o) tag)) e) as (W1 & W2 & W3 & W4).
  set (e' := woken tag (pr_value (arr (prf o) tag)) e) in *.
  assert (Hold : forall eu, 0 <= eu < 3 -> Z.testbit (arr (rs_ready_mask o) eu) i = station_ready eu e).
  { intros eu Heu. rewrite (mk_ready _ Hm) by (done || lia). by replace (i <? RS_SIZE) with true by lia. }
  assert (Hfree : forall j, 0 <= j -> Z.testbit (rs_free_mask o) j =
    if i =? j then negb (rs_valid e') else Z.testbit (rs_free_mask o) j).
  { intros j Hj. destruct (Z.eqb_spec i j) as [<-|]; [| done]. rewrite (mk_free _ Hm) by done.
    rewrite W1. by replace (i <? RS_SIZE) with true by lia. }
  destruct ((waits1 tag e || waits2 tag e) && src1_ready e' && src2_ready e') eqn:Hc.
  - eapply (mask_put i e' o); [exact Hm | done | by rewrite W2 | reflexivity | by cbn; rewrite length_upd | exact Hfree |].
    intros eu j Heu Hj. cbn [rs_ready_mask set_ready_bit set_rs set_ready_mask]. rewrite W2, ready_upd by done.
    destruct (Z.eqb_spec (eu_type e) eu) as [E|E]; rewrite ?testbit_set by lia;
      (destruct (Z.eqb_spec i j) as [<-|]; [| by rewrite ?orb_false_r, ?E]).
    + rewrite orb_true_r. unfold station_ready. zify_bool. rewrite W1, W2, Hv, E, Z.eqb_refl.
      repeat match goal with H : _ = true |- _ => rewrite H end. done.
    + rewrite Hold by done. unfold station_ready. rewrite W2. replace (eu_type e =? eu) with false by lia.
      by rewrite !andb_false_r.
  - eapply (mask_put i e' o); [exact Hm | done | by rewrite W2 | reflexivity | done | exact Hfree |].
    intros eu j Heu Hj. cbn [rs_ready_mask set_rs]. destruct (Z.eqb_spec i j) as [<-|]; [| done].
    rewrite Hold by done. unfold station_ready. rewrite W1, W2, <-!andb_assoc. do 2 f_equal.
    rewrite <-andb_assoc in Hc. revert Hc. rewrite W3, W4. unfold waits1, waits2.
    by destruct (src1_ready e), (src2_ready e), (src1_ptag e =? tag), (src2_ptag e =? tag).
Qed.
End Masks.

(** ** Operations that keep the masks right *)

Definition mkeep (o o' : OOOState) : Prop := mask_ok o -> mask_ok o'.
#[export] Instance mkeep_preorder : PreOrder mkeep.
Proof. split; [by intros o Ho | intros o1 o2 o3 H12 H23 Ho; auto]. Qed.

Lemma mkeep_same o o' : mask_view o' = mask_view o -> mkeep o o'.
Proof. intros E Ho. by apply (mask_same o). Qed.

Lemma foldl_mkeep {B} (f : OOOState -> B -> OOOState) l o : (forall o b, mkeep o (f o b)) -> mkeep o (foldl f o l).
Proof. intros Hf. revert o. induction l as [|b l IH]; intros o; cbn; [done |]. by etrans; [apply Hf |]. Qed.

Lemma wake_valid tag i j o : 0 <= i < Z.of_nat (length (rs o)) -> 0 <= j ->
  rs_valid (arr (rs (cdb_wake tag i o)) j) = rs_valid (arr (rs o) j).
Proof.
  intros Hi Hj. assert (E : rs (cdb_wake tag i o) = upd (rs o) i (woken tag (pr_value (arr (prf o) tag)) (arr (rs o) i)))
    by (unfold cdb_wake; by case_if).
  rewrite E, arr_upd by done. destruct (Z.eqb_spec i j) as [<-|]; [| done]. apply woken_facts.
Qed.

Lemma wakes_mask tag l o : mask_ok o -> (forall i, i ∈ l -> 0 <= i < RS_SIZE /\ rs_valid (arr (rs o) i) = true) ->
  mask_ok (foldl (fun o i => cdb_wake tag i o) o l).
Proof.
  revert o. induction l as [|i l IH]; intros o Hm Hl; cbn [foldl]; [done |].
  destruct (Hl i) as [Hi Hv]; [apply list_elem_of_here |]. apply IH; [by apply mask_wake |].
  intros j Hj. destruct (Hl j) as [Hj1 Hj2]; [by apply list_elem_of_further |]. split; [done |].
  rewrite wake_valid; [done | | lia]. rewrite (mk_rs _ Hm). unfold RS_SIZE in *. lia.
Qed.

Lemma broadcast_mkeep tag o : mkeep o (cdb_broadcast tag o).
Proof.
  intros Hm. unfold cdb_broadcast. apply wakes_mask; [done |]. intros i [Hr Hb]%elem_of_bits.
  rewrite Z.ldiff_spec, (mk_free _ Hm) in Hb by lia. apply andb_true_iff in Hb as [H1 H2].
  change (2 ^ RS_SIZE - 1) with (Z.ones 16) in H1. rewrite Z.testbit_ones_nonneg in H1 by lia. apply Z.ltb_lt in H1.
  split; [unfold RS_SIZE; lia |]. replace (i <? RS_SIZE) with true in H2 by (unfold RS_SIZE; lia).
  cbn in H2. by rewrite negb_involutive in H2.
Qed.

Lemma put_ir_mkeep b ir o : mkeep o (rob_put_ir b ir o).
Proof. by apply mkeep_same. Qed.
Lemma put_ready_mkeep b o : mkeep o (rob_put_ready b o).
Proof. by apply mkeep_same. Qed.
Lemma publish_mkeep p v o : mkeep o (publish p v o).
Proof. by apply mkeep_same. Qed.
Lemma lsu_off_mkeep s o : mkeep o (lsu_off s o).
Proof. by apply mkeep_same. Qed.
Lemma release_mkeep s mi o : mkeep o (mshr_release s mi o).
Proof. unfold mshr_release. case_if; by apply mkeep_same. Qed.

(** Peel the outermost operation. *)
Ltac mkeep_steps :=
  repeat first [reflexivity
    | etrans; [| first [apply broadcast_mkeep | apply put_ready_mkeep | apply lsu_off_mkeep | apply publish_mkeep
                       | apply release_mkeep | apply put_ir_mkeep]]].

Lemma finish_mkeep ir b p o : mkeep o (finish ir b p o).
Proof. unfold finish. cbv zeta. repeat case_if; mkeep_steps. Qed.

Lemma bad_mkeep s b o : mkeep o (lsu_bad s b o).
Proof. unfold lsu_bad, put_result, rob_fault. cbv zeta. case_if; mkeep_steps. Qed.

Lemma done_mkeep s mi b p v o : mkeep o (lsu_done s mi b p v o).
Proof. unfold lsu_done, put_result. cbv zeta. case_if; mkeep_steps. Qed.

Lemma flush_rs_mkeep b i o : 0 <= i < RS_SIZE -> mkeep o (flush_rs b i o).
Proof. intros Hi Hm. unfold flush_rs. case_if; [| done]. by apply mask_free. Qed.

Lemma flush_entry_mask o : mask_view (flush_entry o) = mask_view o.
Proof. unfold flush_entry. destruct (rob_valid _); [| done]. by destruct (has_dest _), (negb _ && _). Qed.

Lemma flush_rob_mask fuel t o : mask_view (flush_rob fuel t o) = mask_view o.
Proof.
  revert o. induction fuel as [|fuel IH]; intros o; [done |]. rewrite flush_rob_S. case_if; [done |].
  by rewrite IH, flush_entry_mask.
Qed.

Lemma flush_stations_mkeep b l o : (forall i, i ∈ l -> 0 <= i < RS_SIZE) -> mkeep o (foldl (fun o i => flush_rs b i o) o l).
Proof.
  revert o. induction l as [|i l IH]; intros o Hl; cbn [foldl]; [done |].
  etrans; [apply (flush_rs_mkeep b i), Hl, list_elem_of_here |]. apply IH. intros. by apply Hl, list_elem_of_further.
Qed.

Lemma flush_units_mkeep b o : mkeep o (flush_units b o).
Proof. by apply mkeep_same. Qed.

Lemma flush_after_mkeep b o : mkeep o (ooo_flush_after b o).
Proof.
  unfold ooo_flush_after, flush_rest. etrans; [apply mkeep_same, flush_rob_mask |].
  etrans; [| apply flush_units_mkeep]. apply flush_stations_mkeep. intros i Hi%elem_of_seqZ_from. unfold RS_SIZE in *. lia.
Qed.

Lemma alloc_rob_mask ir o : mask_view (alloc_rob ir o) = mask_view o.
Proof. unfold alloc_rob. by case_if. Qed.
Lemma alloc_phys_mask rd o p old o' : alloc_phys rd o = (p, old, o') -> mask_view o' = mask_view o.
Proof. unfold alloc_phys. intros E. repeat case_if_in E; cbn [freelist_pop] in E; by simplify_eq. Qed.

Lemma fill_rs_facts ir idx p s1 s2 e :
  rs_valid (fill_rs ir idx p s1 s2 e) = true /\ eu_type (fill_rs ir idx p s1 s2 e) = eu_of (ir_raw ir).
Proof. destruct s1 as [[? ?] ?], s2 as [[? ?] ?]. unfold fill_rs. by repeat case_if. Qed.

Lemma eu_of_range raw : 0 <= eu_of raw < 3.
Proof. unfold eu_of, EU_LSU, EU_MUL, EU_INT. repeat case_if; lia. Qed.

(** The state of the masks once a free station was filled. *)
Lemma mask_alloc slot e o : mask_ok o -> slot ∈ bits (rs_free_mask o) -> rs_valid e = true -> 0 <= eu_type e < 3 ->
  let o1 := {| o with rs_free_mask := Z.ldiff (rs_free_mask o) (bit slot) |} in
  mask_ok (rs_mask_update slot (set_rs slot e o1)).
Proof.
  intros Hm [Hs Hb]%elem_of_bits Hv He. cbv zeta. pose proof (mk_masks _ Hm) as Hl.
  rewrite (mk_free _ Hm) in Hb by lia. apply andb_true_iff in Hb as [Hr Hn]. apply Z.ltb_lt in Hr.
  apply negb_true_iff in Hn.
  assert (Hlen : 0 <= slot < Z.of_nat (length (rs o))) by (rewrite (mk_rs _ Hm); unfold RS_SIZE in *; lia).
  eapply (mask_put slot e o); [exact Hm | lia | done | reflexivity | by cbn; rewrite length_upd | |].
  - intros j Hj. cbn. rewrite testbit_clear by lia. destruct (Z.eqb_spec slot j); cbn.
    + by rewrite Hv, andb_false_r.
    + by rewrite andb_true_r.
  - intros eu j Heu Hj. unfold rs_mask_update. cbn [rs rs_ready_mask set_rs set_ready_mask].
    rewrite arr_upd_eq by done. rewrite ready_upd by done.
    assert (Hold : Z.testbit (arr (rs_ready_mask o) eu) slot = false).
    { rewrite (mk_ready _ Hm) by (done || lia). unfold station_ready. rewrite Hn. by rewrite andb_false_r. }
    destruct (Z.eqb_spec (eu_type e) eu) as [E|E]; (destruct (Z.eqb_spec slot j) as [<-|]).
    + unfold station_ready. rewrite E, Z.eqb_refl, Hv in *. cbn [andb].
      destruct (src1_ready e && src2_ready e); rewrite ?testbit_set, ?testbit_clear by lia; rewrite ?Z.eqb_refl, ?Hold; done.
    + rewrite E. destruct (_ && _); rewrite ?testbit_set, ?testbit_clear by lia;
        replace (slot =? j) with false by lia; by rewrite ?orb_false_r, ?andb_true_r.
    + rewrite Hold. unfold station_ready. replace (eu_type e =? eu) with false by lia. by rewrite !andb_false_r.
    + done.
Qed.

Lemma rename_mkeep ir o o' : rename ir o = Ok o' -> mask_ok o ->
  mask_ok o' /\ popcount (rs_free_mask o') = popcount (rs_free_mask o) - 1.
Proof.
  unfold rename. cbv zeta. intros E Hm. pose proof (alloc_rob_mask ir o) as Ea.
  destruct (alloc_phys (ir_rd ir) (alloc_rob ir o)) as [[p old] o1] eqn:Ep. apply alloc_phys_mask in Ep.
  assert (E1 : mask_view (set_dest (rob_tail o) p old o1) = mask_view o) by (by rewrite <-Ea, <-Ep).
  apply bind_Ok_inv in E as (slot & Es & E). apply ctz_spec in Es.
  assert (Hm1 : mask_ok (set_dest (rob_tail o) p old o1)) by (by apply (mask_same o)).
  assert (Ef : rs_free_mask (set_dest (rob_tail o) p old o1) = rs_free_mask o) by (by injection E1).
  revert Es E Hm1 Ef. generalize (set_dest (rob_tail o) p old o1). intros o2 Es E Hm1 Ef. injection E as <-.
  destruct (fill_rs_facts ir (rob_tail o) p (read_source (ir_rs1 ir) (alloc_rob ir o))
    (read_source (ir_rs2 ir) (alloc_rob ir o)) (arr (rs o2) slot)) as [F1 F2]. split.
  - apply (mask_alloc slot _ o2); [done | done | done |]. rewrite F2. apply eu_of_range.
  - cbn. rewrite <-Ef. by apply popcount_clear.
Qed.

Lemma rename_total ir o : mask_ok o -> 0 < popcount (rs_free_mask o) -> exists o', rename ir o = Ok o'.
Proof.
  intros Hm Hp. unfold rename. cbv zeta. pose proof (alloc_rob_mask ir o) as Ea.
  destruct (alloc_phys (ir_rd ir) (alloc_rob ir o)) as [[p old] o1] eqn:Ep. apply alloc_phys_mask in Ep.
  assert (Ef : rs_free_mask (set_dest (rob_tail o) p old o1) = rs_free_mask o).
  { assert (E1 : mask_view o1 = mask_view o) by congruence. by injection E1. }
  rewrite Ef. destruct (ctz_total _ Hp) as [i ->]. cbn [mbind Res_bind]. eauto.
Qed.

(** ** The rename stage *)

Lemma rn_loop_ok todo n used o s : mask_ok o -> used = RS_SIZE - popcount (rs_free_mask o) ->
  exists o' s', rn_loop todo n used o s = Ok (o', s') /\ mask_ok o'.
Proof.
  revert n used o s. induction todo as [|todo IH]; intros n used o s Hm Hu; [by exists o, s |].
  rewrite rn_loop_S. cbv zeta. case_if; [by exists o, s |].
  destruct (rn_guard n used _ o) eqn:Eg; [| by eexists _, _..]. apply rn_guard_go in Eg as (_ & _ & Hlt).
  destruct (rename_total (pr_ir (arr (latch_id_rn o) n)) o Hm) as [o1 Er]; [unfold RS_SIZE in *; lia |].
  destruct (rename_mkeep _ _ _ Er Hm) as [Hm1 Hp]. rewrite Er. cbn [mbind Res_bind].
  apply IH; [by apply (mask_same o1) |]. change (rs_free_mask (id_rn_off n o1)) with (rs_free_mask o1). lia.
Qed.

Lemma rn_stage_ok o s : mask_ok o -> exists o' s', ooo_stage_rn o s = Ok (o', s') /\ mask_ok o'.
Proof.
  intros Hm. unfold ooo_stage_rn. case_if; [by exists o, s |]. cbv zeta.
  destruct (rn_loop_ok FETCH_WIDTH 0 _ o s Hm eq_refl) as (o1 & s1 & -> & Hm1). cbn [mbind Res_bind].
  eexists _, _. split; [done |]. unfold rn_compact. case_if; by apply (mask_same o1).
Qed.

(** ** Issue *)

Section Pick.
Context (mo : bool) (o : OOOState).

Definition age (i : Z) : Z := rob_dist o (rs_rob_idx (arr (rs o) i)).

(** [best] is the oldest of the stations of [l] that may issue. *)
Definition oldest (l : list Z) (best : option Z) : Prop :=
  match best with
  | Some b => b ∈ l /\ may_issue mo o b = true /\ forall j, j ∈ l -> may_issue mo o j = true -> age b <= age j
  | None => forall j, j ∈ l -> may_issue mo o j = false
  end.

Lemma pick_oldest l : oldest l (foldl (pick_step mo o) None l).
Proof.
  induction l as [|i l IH] using rev_ind; [by intros j Hj%elem_of_nil |].
  rewrite foldl_snoc. destruct (foldl _ None l) as [b|]; unfold oldest, pick_step in *;
    destruct (may_issue mo o i) eqn:Hi; cbn [negb].
  - destruct IH as (H1 & H2 & H3). fold (age i) (age b). case_if; zify_bool.
    + split_and!; [set_solver | done |]. intros j [Hj|Hj%list_elem_of_singleton]%elem_of_app Hmj; subst; [| lia].
      specialize (H3 j Hj Hmj). lia.
    + split_and!; [set_solver | done |]. intros j [Hj|Hj%list_elem_of_singleton]%elem_of_app Hmj; subst; [by apply H3 | lia].
  - destruct IH as (H1 & H2 & H3). split_and!; [set_solver | done |].
    intros j [Hj|Hj%list_elem_of_singleton]%elem_of_app Hmj; subst; [by apply H3 | congruence].
  - split_and!; [set_solver | done |]. intros j [Hj|Hj%list_elem_of_singleton]%elem_of_app Hmj; subst; [| lia].
    by rewrite IH in Hmj.
  - intros j [Hj|Hj%list_elem_of_singleton]%elem_of_app; subst; [by apply IH | done].
Qed.

Lemma pick_spec eu : oldest (bits (arr (rs_ready_mask o) eu)) (pick mo eu o).
Proof. apply pick_oldest. Qed.
End Pick.

Lemma issue_mkeep get put mo eu o s : (forall s l o, mask_view (put s l o) = mask_view o) -> 0 <= eu < 3 ->
  mkeep o (issue_slot get put mo eu o s).
Proof.
  intros Hp Heu Hm. unfold issue_slot. case_if; [done |].
  pose proof (pick_spec mo o eu) as Hpick. destruct (pick mo eu o) as [i|]; [| done].
  destruct Hpick as ([Hr Hb]%elem_of_bits & _ & _). rewrite (mk_ready _ Hm) in Hb by (done || lia).
  apply andb_true_iff in Hb as [Hi%Z.ltb_lt _]. unfold latch_from_rs. cbv zeta.
  eapply mask_same; [apply Hp |]. apply mask_free; [done | lia | done].
Qed.

Lemma is_mkeep o : mkeep o (ooo_stage_is o).
Proof.
  unfold ooo_stage_is, EU_INT, EU_MUL, EU_LSU.
  etrans; [| apply foldl_mkeep; intros; by apply issue_mkeep].
  etrans; [| apply foldl_mkeep; intros; by apply issue_mkeep].
  apply foldl_mkeep. intros. by apply issue_mkeep.
Qed.

(** ** The whole cycle *)

Lemma commit_one_mask w go w' : commit_one w = Ok (go, w') -> mask_view (ooo w') = mask_view (ooo w).
Proof.
  unfold commit_one. intros E. case_if_in E; [by simplify_eq |]. cbv zeta in E. case_if_in E; [by simplify_eq |].
  apply bind_Ok_inv in E as (w1 & Ht & E). apply trace_ooo in Ht.
  case_if_in E; [injection E as _ <-; by rewrite Ht |].
  apply bind_Ok_inv in E as (_ & _ & E). case_if_in E; [injection E as _ <-; by rewrite Ht |].
  apply bind_Ok_inv in E as (w2 & Hst & E). apply bind_Ok_inv in E as (w3 & Hd & E). injection E as _ <-.
  assert (Ed : ooo w3 = ooo (commit_regs (arr (rob (ooo w)) (rob_head (ooo w))) w2)).
  { case_if_in Hd; [by apply check_ooo in Hd | by injection Hd as <-]. }
  assert (Es : mask_view (ooo w2) = mask_view (ooo w1)) by (unfold commit_store in Hst; by res_cases).
  change (mask_view (rob_pop (ooo w3)) = mask_view (ooo w)). rewrite Ed, commit_regs_ooo, <-Ht, <-Es. by case_if.
Qed.

Lemma stage_rn_mkeep o s o' s' : ooo_stage_rn o s = Ok (o', s') -> mkeep o o'.
Proof. intros E Hm. destruct (rn_stage_ok o s Hm) as (o1 & s1 & E1 & Hm1). by rewrite E in E1; simplify_eq. Qed.

#[export] Instance mkeep_laws : StageLaws mkeep.
Proof.
  split; try (intros; by apply mkeep_same).
  - apply mkeep_preorder.
  - intros w go w' E. eapply mkeep_same, commit_one_mask, E.
  - intros. apply finish_mkeep.
  - intros. apply bad_mkeep.
  - intros. apply done_mkeep.
  - intros line lat o i o' E. apply mkeep_same. unfold mshr_find_or_alloc in E. by repeat case_match; simplify_eq.
  - intros. apply release_mkeep.
  - intros s o o1 b _ _ HR. etrans; [exact HR | apply flush_after_mkeep].
  - apply is_mkeep.
  - apply stage_rn_mkeep.
Qed.

Lemma init_mask_ok c : mask_ok (init_ooo c).
Proof.
  assert (E1 : rs (init_ooo c) = replicate 16 inhabitant) by (vm_compute; reflexivity).
  assert (E2 : rs_ready_mask (init_ooo c) = [0; 0; 0]) by (vm_compute; reflexivity).
  assert (E3 : rs_free_mask (init_ooo c) = 65535) by (vm_compute; reflexivity). split; rewrite ?E1, ?E2, ?E3; try done.
  - by apply Forall_replicate.
  - intros i Hi. change 65535 with (Z.ones 16). rewrite Z.testbit_ones_nonneg by lia. unfold RS_SIZE.
    rewrite (arr_default (fun x => rs_valid x = false)); [by rewrite andb_true_r | by apply Forall_replicate | done].
  - intros eu i Heu Hi. assert (F : arr [0; 0; 0] eu = 0) by (change [0; 0; 0] with (replicate 3 0); apply arr_replicate; lia).
    rewrite F, Z.bits_0. unfold station_ready.
    rewrite (arr_default (fun x => rs_valid x = false)); [by rewrite andb_false_r | by apply Forall_replicate | done].
Qed.

(** ** Claims *)

(** The bit masks of the reservation stations are exact in every state the
    engine reaches: bit [i] of [rs_free_mask] is set exactly when station [i]
    is free, bit [i] of [rs_ready_mask[eu]] exactly when the station holds an
    instruction for unit [eu] with both operands present; [ooo_init]
    establishes this and every cycle keeps it. *)
Theorem masks_exact w w' : mask_ok (ooo (ooo_init w)) /\
  (ooo_cycle w = Ok w' -> mask_ok (ooo w) -> mask_ok (ooo w')).
Proof. split; [apply init_mask_ok |]. intros E. exact (cycle_R mkeep w w' E). Qed.

(** Renaming never fails: with exact masks the count of free stations,
    taken once before the loop, always leaves a free station for the [ctz]
    that picks one, so [__builtin_ctz] is never called on zero and the stage
    returns. *)
Theorem rename_stage_defined o s : mask_ok o -> exists o' s', ooo_stage_rn o s = Ok (o', s').
Proof. intros Hm. destruct (rn_stage_ok o s Hm) as (o' & s' & E & _). eauto. Qed.

(** C17. The issue stage is fair to age and respects memory order: the station
    it moves to a unit belongs to that unit, has both operands, is the oldest
    such station in the reorder buffer among those allowed to go, and, when it
    is a load, no older store still lacks its address; if it issues nothing to
    an idle slot then no ready station is allowed to go. *)
Theorem issue_oldest_first mo eu o : mask_ok o -> 0 <= eu < 3 ->
  match pick mo eu o with
  | Some i => 0 <= i < RS_SIZE /\ station_ready eu (arr (rs o) i) = true /\ may_issue mo o i = true /\
      (forall j, 0 <= j < RS_SIZE -> station_ready eu (arr (rs o) j) = true -> may_issue mo o j = true ->
         age o i <= age o j) /\
      (mo = true -> Z.land (ir_raw (rob_ir (arr (rob o) (rs_rob_idx (arr (rs o) i))))) 0x7f = 0x03 ->
         forall j, j ∈ rob_older o (rs_rob_idx (arr (rs o) i)) -> rob_valid (arr (rob o) j) = true ->
           is_store_raw (ir_raw (rob_ir (arr (rob o) j))) = true -> rob_ready (arr (rob o) j) = true)
  | None => forall j, 0 <= j < RS_SIZE -> station_ready eu (arr (rs o) j) = true -> may_issue mo o j = false
  end.
Proof.
  intros Hm Heu. pose proof (pick_spec mo o eu) as Hp.
  assert (Hb : forall j, 0 <= j < RS_SIZE -> station_ready eu (arr (rs o) j) = true -> j ∈ bits (arr (rs_ready_mask o) eu)).
  { intros j Hj Hr. apply elem_of_bits. unfold RS_SIZE in *. split; [lia |]. rewrite (mk_ready _ Hm) by lia.
    rewrite Hr. by replace (j <? RS_SIZE) with true by (unfold RS_SIZE; lia). }
  destruct (pick mo eu o) as [i|]; [| intros j Hj Hr; by apply Hp, Hb].
  destruct Hp as ([Hr Ht]%elem_of_bits & Hi & Ho). rewrite (mk_ready _ Hm) in Ht by (done || lia).
  apply andb_true_iff in Ht as [Hlt%Z.ltb_lt Hst]. split_and!; [lia | done | done | done | |].
  - intros j Hj Hsj Hmj. by apply Ho; [apply Hb |].
  - intros -> Hraw j Hj Hv Hs. unfold may_issue in Hi. rewrite Hraw in Hi. cbn in Hi. apply negb_true_iff in Hi.
    destruct (rob_ready (arr (rob o) j)) eqn:Er; [done |].
    assert (E : load_blocked o (rs_rob_idx (arr (rs o) i)) = true); [| congruence].
    apply existsb_exists. exists j. split; [by apply list_elem_of_In |]. cbv beta zeta. by rewrite Hv, Er, Hs.
Qed.

(** ** Instances *)

Lemma set_id_rn_mkeep n r o : mkeep o (set_id_rn n r o).
Proof. by apply mkeep_same. Qed.

Lemma sample_mask_ok : mask_ok sample_engine.
Proof. apply set_id_rn_mkeep, init_mask_ok. Qed.

Lemma masks_exact_witness : mask_ok sample_engine /\ exists w', ooo_cycle (sample_ooo sample_mach) = Ok w' /\ mask_ok (ooo w').
Proof.
  pose proof sample_mask_ok as Hm.
  split; [exact Hm |]. destruct (sample_cycle sample_mach) as (w' & E & _). exists w'. split; [exact E |].
  exact (proj2 (masks_exact (sample_ooo sample_mach) w') E Hm).
Defined.

Lemma rename_stage_defined_witness : mask_ok sample_engine /\ exists o' s', ooo_stage_rn sample_engine zero_ooo_stats = Ok (o', s').
Proof.
  pose proof sample_mask_ok as Hm.
  split; [exact Hm |]. exact (rename_stage_defined sample_engine zero_ooo_stats Hm).
Defined.

(** After renaming, the instruction waits in station 0 and is picked. *)
Lemma sample_pick : exists o1, rename addi_ir sample_engine = Ok o1 /\ pick false EU_INT o1 = Some 0.
Proof.
  assert (H : (match rename addi_ir sample_engine with
    | Ok o1 => match pick false EU_INT o1 with Some i => i =? 0 | None => false end | Err _ => false end) = true)
    by (vm_compute; reflexivity).
  destruct (rename addi_ir sample_engine) as [o1|]; [| done]. exists o1. split; [done |].
  destruct (pick false EU_INT o1) as [i|]; [| done]. f_equal. lia.
Qed.

Lemma issue_oldest_first_witness : exists o1, mask_ok o1 /\ pick false EU_INT o1 = Some 0 /\
  station_ready EU_INT (arr (rs o1) 0) = true.
Proof.
  destruct sample_pick as (o1 & E & Hp). exists o1.
  pose proof sample_mask_ok as Hm.
  destruct (rename_mkeep _ _ _ E Hm) as [Hm1 _]. split; [exact Hm1 |]. split; [exact Hp |].
  pose proof (issue_oldest_first false EU_INT o1 Hm1 ltac:(unfold EU_INT; lia)) as H. rewrite Hp in H. apply H.
Defined.
