(* ===== verification/OooStore.v ===== *)
(** * The store buffer and store-to-load forwarding (src/cpu/ooo.c)

    Committed stores wait in a circular buffer and reach memory in order.  The
    core's own memory is what the caches hold with the buffered stores applied;
    draining does not change it, committing a store is one write to it, and a
    load that every older store either covers or misses reads it. *)

From S2P Require Import Prelude Word State Pmp Csr Cache CacheSet CacheSpec CacheRefine Coherence Mmio Mem Ftrace Vmem VmemSpec Decode Ir IrSpec Exec Isa Bpred Pipeline Ringbuf Ring Ooo Renamer OooStages OooRename.

(** ** The buffer is a queue *)

Definition sb_queue (o : OOOState) : list StoreBufEntry :=
  ring (sbuf o) STORE_BUF_SIZE (sbuf_head o) (Z.to_nat (sbuf_count o)).

Record sb_ok (o : OOOState) : Prop := {
  sb_len : length (sbuf o) = Z.to_nat STORE_BUF_SIZE;
  sb_head : 0 <= sbuf_head o < STORE_BUF_SIZE;
  sb_count : 0 <= sbuf_count o <= STORE_BUF_SIZE;
  sb_tail : sbuf_tail o = (sbuf_head o + sbuf_count o) mod STORE_BUF_SIZE;
  sb_valids : Forall (fun e => sb_valid e = true) (sb_queue o);
}.

Inductive qstep : list StoreBufEntry -> list StoreBufEntry -> Prop :=
  | Q_push e q : (length q < 16)%nat -> qstep q (q ++ [e])
  | Q_pop e q : qstep (e :: q) q.

Lemma push_ok a d width o : sb_ok o -> sbuf_count o < STORE_BUF_SIZE ->
  sb_ok (sbuf_push a d width o) /\ sb_queue (sbuf_push a d width o) = sb_queue o ++ [mkSbuf a d width true].
Proof.
  intros [Hl Hh Hc Ht Hv] Hlt.
  assert (E : sb_queue (sbuf_push a d width o) = sb_queue o ++ [mkSbuf a d width true]).
  { unfold sb_queue. cbn [sbuf_push sbuf sbuf_head sbuf_count]. rewrite Ht.
    replace (Z.to_nat (sbuf_count o + 1)) with (S (Z.to_nat (sbuf_count o))) by lia.
    replace (sbuf_head o + sbuf_count o) with (sbuf_head o + Z.of_nat (Z.to_nat (sbuf_count o))) by lia.
    apply ring_push; [by rewrite Hl | done | lia]. }
  split; [| done]. split; [| done | | |].
  - cbn. by rewrite length_upd.
  - cbn. lia.
  - cbn. rewrite Ht, Zplus_mod_idemp_l. f_equal. lia.
  - rewrite E. apply Forall_app_2; [done | by apply Forall_singleton].
Qed.

Lemma pop_ok o : sb_ok o -> sbuf_count o <> 0 ->
  sb_ok (sbuf_pop o) /\ sb_queue o = arr (sbuf o) (sbuf_head o) :: sb_queue (sbuf_pop o).
Proof.
  intros [Hl Hh Hc Ht Hv] Hne.
  assert (E : sb_queue o = arr (sbuf o) (sbuf_head o) :: sb_queue (sbuf_pop o)).
  { unfold sb_queue. cbn [sbuf_pop sbuf sbuf_head sbuf_count]. unfold STORE_BUF_SIZE in *.
    replace (Z.to_nat (sbuf_count o)) with (S (Z.to_nat (sbuf_count o - 1))) by lia.
    rewrite ring_pop_front by done. f_equal.
    set (x := {| sb_addr := _; sb_data := _; sb_width := _; sb_valid := false |}). generalize x. clear x. intros x.
    replace (upd (sbuf o) (sbuf_head o) x) with (upd (sbuf o) (((sbuf_head o + 1) mod 16 + 15) mod 16) x).
    - symmetry. apply ring_upd_out; [apply Z.mod_pos_bound; lia | lia].
    - f_equal. rewrite Zplus_mod_idemp_l, <-(Z_mod_plus_full _ (-1)). rewrite Z.mod_small; lia. }
  split; [| done]. rewrite E in Hv. apply Forall_cons in Hv as [_ Hv]. split; [| | | |exact Hv].
  - cbn. by rewrite length_upd.
  - cbn. by apply Z.mod_pos_bound.
  - cbn. lia.
  - cbn. rewrite Ht, Zplus_mod_idemp_l. f_equal. lia.
Qed.

(** Every change of the engine is a sequence of queue steps. *)
Definition sbref (o o' : OOOState) : Prop := sb_ok o -> sb_ok o' /\ rtc qstep (sb_queue o) (sb_queue o').

#[export] Instance sbref_preorder : PreOrder sbref.
Proof.
  split.
  - intros o Ho. split; [done | apply rtc_refl].
  - intros o1 o2 o3 H12 H23 Ho. destruct (H12 Ho) as [H2 S12]. destruct (H23 H2) as [H3 S23].
    split; [done | by etrans].
Qed.

Definition sb_view (o : OOOState) := (sbuf o, sbuf_head o, sbuf_tail o, sbuf_count o).

Lemma sbref_same o o' : sb_view o' = sb_view o -> sbref o o'.
Proof.
  intros [= E1 E2 E3 E4] [H1 H2 H3 H4 H5].
  assert (Eq : sb_queue o' = sb_queue o) by (unfold sb_queue; by rewrite E1, E2, E4).
  rewrite Eq. split; [| apply rtc_refl]. split; rewrite ?Eq, ?E1, ?E2, ?E3, ?E4; done.
Qed.

Lemma frame_sb o o' : frame o' = frame o -> sbref o o'.
Proof. intros E. apply sbref_same. exact (f_equal (fun x => x.2) E). Qed.

Lemma commit_one_sb w go w' : commit_one w = Ok (go, w') -> sbref (ooo w) (ooo w').
Proof.
  unfold commit_one. intros E. case_if_in E; [by simplify_eq |]. cbv zeta in E.
  set (e := arr (rob (ooo w)) (rob_head (ooo w))) in *. case_if_in E; [by simplify_eq |].
  apply bind_Ok_inv in E as (w1 & Ht & E). apply trace_ooo in Ht.
  case_if_in E; [injection E as _ <-; by rewrite Ht |].
  apply bind_Ok_inv in E as (_ & _ & E).
  destruct (bool_decide (ir_type (rob_ir e) = ITYPE_STORE) && cached (mem_addr (rob_ir e)) &&
            (STORE_BUF_SIZE <=? sbuf_count (ooo w))) eqn:Hfull; [injection E as _ <-; by rewrite Ht |].
  apply bind_Ok_inv in E as (w2 & Hst & E). apply bind_Ok_inv in E as (w3 & Hd & E). injection E as _ <-.
  assert (Ed : ooo w3 = ooo (commit_regs e w2)) by (case_if_in Hd; [by apply check_ooo in Hd | by injection Hd as <-]).
  transitivity (ooo w2).
  - rewrite <-Ht in *. unfold commit_store in Hst. cbv zeta in Hst.
    destruct (bool_decide (ir_type (rob_ir e) = ITYPE_STORE)); [| by injection Hst as <-].
    destruct (cached (mem_addr (rob_ir e))).
    + injection Hst as <-. cbn [andb] in Hfull. apply Z.leb_gt in Hfull. intros Ho.
      destruct (push_ok (mem_addr (rob_ir e)) (store_data e) (mem_width (rob_ir e)) _ Ho Hfull) as [H1 H2].
      rewrite ooo_map. split; [done |]. rewrite H2. apply rtc_once, Q_push. unfold sb_queue. rewrite length_ring.
      pose proof (sb_count _ Ho). unfold STORE_BUF_SIZE in *. lia.
    + apply bind_Ok_inv in Hst as (m & _ & Hst). by injection Hst as <-.
  - change (ooo (count_commit (map_ooo rob_pop w3))) with (rob_pop (ooo w3)).
    rewrite Ed, commit_regs_ooo. apply sbref_same. by case_if.
Qed.

Lemma flush_rob_sb fuel t o : sb_view (flush_rob fuel t o) = sb_view o.
Proof.
  revert o. induction fuel as [|fuel IH]; intros o; [done |]. rewrite flush_rob_S. case_if; [done |].
  rewrite IH. apply flush_entry_rest.
Qed.

Lemma flush_after_sb b o : sb_view (ooo_flush_after b o) = sb_view o.
Proof.
  unfold ooo_flush_after. etrans; [| apply (flush_rob_sb (Z.to_nat ROB_SIZE) ((b + 1) mod ROB_SIZE) o)].
  generalize (flush_rob (Z.to_nat ROB_SIZE) ((b + 1) mod ROB_SIZE) o). intros o1. unfold flush_rest.
  assert (E : forall o2, sb_view (flush_units b o2) = sb_view o2) by done. rewrite E.
  apply (foldl_same sb_view (fun o i => flush_rs b i o)). intros o2 i.
  exact (f_equal (fun x => x.2) (flush_rs_frame b i o2)).
Qed.

Lemma issue_sb get put mo eu o s : (forall s l o, sb_view (put s l o) = sb_view o) ->
  sb_view (issue_slot get put mo eu o s) = sb_view o.
Proof.
  intros Hp. unfold issue_slot. case_if; [done |]. destruct (pick mo eu o) as [i|]; [| done].
  pose proof (frame_from_rs i o) as Ef. destruct (latch_from_rs i o) as [l o'] eqn:El. cbn [snd] in Ef.
  rewrite Hp. exact (f_equal (fun x => x.2) Ef).
Qed.

Lemma is_sb o : sb_view (ooo_stage_is o) = sb_view o.
Proof. unfold ooo_stage_is. rewrite !(foldl_same sb_view); [done | | |]; intros; by apply issue_sb. Qed.

Lemma rn_loop_sb todo n used o s o' s' : rn_loop todo n used o s = Ok (o', s') -> sb_view o' = sb_view o.
Proof.
  revert n used o s. induction todo as [|todo IH]; intros n used o s E; [by injection E as <- _ |].
  rewrite rn_loop_S in E. cbv zeta in E. case_if_in E; [by simplify_eq |].
  destruct (rn_guard n used _ o); [| by simplify_eq..]. apply bind_Ok_inv in E as (o1 & Er & E).
  apply IH in E. rewrite E. by destruct (rename_rest _ _ _ Er) as (_ & Hs & _).
Qed.

Lemma stage_rn_sb o s o' s' : ooo_stage_rn o s = Ok (o', s') -> sb_view o' = sb_view o.
Proof.
  unfold ooo_stage_rn. intros E. case_if_in E; [by simplify_eq |]. cbv zeta in E.
  apply bind_Ok_inv in E as ([o1 s1] & Er & E). injection E as <- _. apply rn_loop_sb in Er. rewrite <-Er.
  unfold rn_compact. by case_if.
Qed.

#[export] Instance sbref_laws : StageLaws sbref.
Proof.
  split; try (intros; by apply sbref_same).
  - apply sbref_preorder.
  - apply commit_one_sb.
  - intros. apply frame_sb, frame_finish.
  - intros. apply frame_sb, frame_bad.
  - intros. apply frame_sb, frame_done.
  - intros. by eapply frame_sb, frame_alloc.
  - intros. apply frame_sb, frame_release.
  - intros s o o1 b _ _ HR. etrans; [exact HR |]. apply sbref_same, flush_after_sb.
  - intros. apply sbref_same, is_sb.
  - intros o s o' s' E. by eapply sbref_same, stage_rn_sb.
  - intros o Hc Ho. destruct (pop_ok o Ho Hc) as [H1 H2]. split; [done |]. rewrite H2. apply rtc_once, Q_pop.
Qed.

Lemma init_sb_ok c : sb_ok (init_ooo c) /\ sb_queue (init_ooo c) = [].
Proof.
  assert (E1 : sbuf (init_ooo c) = replicate 16 inhabitant) by (vm_compute; reflexivity).
  assert (E2 : sbuf_count (init_ooo c) = 0) by (vm_compute; reflexivity).
  assert (E3 : sbuf_head (init_ooo c) = 0) by (vm_compute; reflexivity).
  assert (E4 : sbuf_tail (init_ooo c) = 0) by (vm_compute; reflexivity).
  assert (Eq : sb_queue (init_ooo c) = []) by (unfold sb_queue; by rewrite E2).
  split; [| done]. split; rewrite ?Eq, ?E1, ?E2, ?E3, ?E4; try done; constructor.
Qed.

(** ** Stores on the flat memory *)

(** Address, width and data. *)
Record store := mkStore { st_addr : Z; st_width : Z; st_data : Z }.

Definition do_store (B : flat) (s : store) : flat := flat_write B (st_addr s) (st_width s) (st_data s).
Definition do_stores (B : flat) (l : list store) : flat := foldl do_store B l.

Definition is_width (n : Z) : Prop := n = 1 \/ n = 2 \/ n = 4 \/ n = 8.

(** A store that the machine can perform. *)
Record store_ok (s : store) : Prop := {
  so_cached : cached (st_addr s) = true;
  so_block : in_block (st_addr s) (st_width s);
  so_width : is_width (st_width s);
  so_data : is_word (st_data s);
}.

(** The store supplies all bytes of the load, or none. *)
Definition fits (la lw : Z) (s : store) : Prop :=
  (st_addr s <= la /\ la + lw <= st_addr s + st_width s) \/ la + lw <= st_addr s \/ st_addr s + st_width s <= la.

Definition sb_store (e : StoreBufEntry) : store := mkStore (sb_addr e) (sb_width e) (sb_data e).

(** Only the low bytes matter to the extension. *)
Lemma extend_load_mod sign lw x : is_width lw -> lw <> 8 -> extend_load sign lw (x mod 256 ^ lw) = extend_load sign lw x.
Proof.
  intros [->|[->|[->| ->]]] Hne; [| | | done]; destruct sign; cbn [extend_load]; unfold SEXT, UEXT.
  all: change (256 ^ 1) with (2 ^ 8); change (256 ^ 2) with (2 ^ 16); change (256 ^ 4) with (2 ^ 32);
    by rewrite Z.mod_mod by done.
Qed.

(** Reading inside a store that was just made. *)
Lemma read_covered B sa sw sd la lw : sa <= la -> la + lw <= sa + sw -> 0 <= lw ->
  flat_read (flat_write B sa sw sd) la lw = (sd / 256 ^ (la - sa)) mod 256 ^ lw.
Proof.
  intros H1 H2 H0. unfold flat_read.
  transitivity (le_word (le_bytes (Z.to_nat lw) (sd / 256 ^ (la - sa)))); [f_equal | by rewrite le_word_bytes, Z2Nat.id].
  apply list_eq_same_length with (n := Z.to_nat lw);
    [by rewrite length_le_bytes | by rewrite length_fmap, length_seqZ_from |].
  intros k x y Hk. rewrite list_lookup_fmap, lookup_seqZ_from by done. cbn. intros [= <-].
  rewrite lookup_le_bytes by done. intros [= <-]. unfold flat_write.
  replace ((sa <=? la + (0 + Z.of_nat k)) && (la + (0 + Z.of_nat k) <? sa + sw)) with true by lia.
  rewrite Z.div_div by lia. rewrite <-Z.pow_add_r by lia. do 3 f_equal. lia.
Qed.

Lemma read_missed B sa sw sd la lw : la + lw <= sa \/ sa + sw <= la ->
  flat_read (flat_write B sa sw sd) la lw = flat_read B la lw.
Proof.
  intros H. unfold flat_read. f_equal. apply list_fmap_ext. intros i x Hx.
  apply list_elem_of_lookup_2, elem_of_seqZ_from in Hx. unfold flat_write.
  by replace ((sa <=? la + x) && (la + x <? sa + sw)) with false by lia.
Qed.

(** One forwarding attempt is one store. *)
Lemma stlf_step B s la lw sign : store_ok s -> is_width lw -> 0 <= la -> la + lw <= 2 ^ 32 -> fits la lw s ->
  stlf_try (st_addr s) (st_width s) (st_data s) la lw sign (extend_load sign lw (flat_read B la lw)) =
  Ok (extend_load sign lw (flat_read (do_store B s) la lw)).
Proof.
  intros [Hc _ Hw Hd] Hlw H0 H1 Hf. unfold fits in Hf. destruct s as [sa sw sd]. cbn [st_addr st_width st_data] in *.
  unfold cached in Hc. zify_bool. unfold is_width in *. unfold stlf_try, do_store. cbn [st_addr st_width st_data].
  assert (Ew : forall a b, 0 <= a -> 0 <= b -> a + b < 2 ^ 64 -> (a + b)%word = a + b).
  { intros a b ? ? ?. unfold add64, wrap64. apply Z.mod_small. lia. }
  rewrite !Ew by lia. destruct Hf as [[Ha Hb]|Hdis].
  - replace ((sa <=? la) && (la + lw <=? sa + sw)) with true by lia.
    assert (Es : s32 (la - sa)%word = la - sa).
    { unfold s32, sub64, wrap64. rewrite (Z.mod_small (la - sa)) by lia. rewrite Z.mod_small by lia.
      replace (la - sa <? 2 ^ 31) with true by lia. done. }
    rewrite Es. replace ((0 <=? (la - sa) * 8) && ((la - sa) * 8 <? 64)) with true by lia.
    cbn [ensure mbind Res_bind]. f_equal. rewrite read_covered by lia.
    rewrite Z.shiftr_div_pow2 by lia. replace (2 ^ ((la - sa) * 8)) with (256 ^ (la - sa))
      by (change 256 with (2 ^ 8); rewrite <-Z.pow_mul_r by lia; f_equal; lia).
    destruct (decide (lw = 8)) as [->|Hne]; [| by rewrite extend_load_mod].
    assert (sw = 8) as -> by lia. replace (la - sa) with 0 by lia. rewrite Z.pow_0_r, Z.div_1_r.
    change (256 ^ 8) with (2 ^ 64). by rewrite Z.mod_small.
  - replace ((sa <=? la) && (la + lw <=? sa + sw)) with false by lia. by rewrite read_missed by lia.
Qed.

Lemma stlf_steps {A} (f : A -> Z -> Res Z) (g : A -> option store) l B la lw sign :
  is_width lw -> 0 <= la -> la + lw <= 2 ^ 32 ->
  (forall x out, f x out = match g x with
     | Some s => stlf_try (st_addr s) (st_width s) (st_data s) la lw sign out | None => Ok out end) ->
  Forall (fun s => store_ok s /\ fits la lw s) (omap g l) ->
  for_each l f (extend_load sign lw (flat_read B la lw)) =
  Ok (extend_load sign lw (flat_read (do_stores B (omap g l)) la lw)).
Proof.
  intros Hlw H0 H1 Hf. revert B. induction l as [|x l IH]; intros B Hs; [done |].
  cbn [for_each]. rewrite Hf. cbn [omap list_omap] in *. destruct (g x) as [s|]; [| by apply IH].
  apply Forall_cons in Hs as [[Hs1 Hs2] Hs]. rewrite stlf_step by done. cbn [mbind Res_bind]. by apply IH.
Qed.

(** ** The stores a load has to see *)

Definition sb_stores (o : OOOState) : list store := sb_store <$> sb_queue o.

(** An executed store in the reorder buffer. *)
Definition rob_store (o : OOOState) (i : Z) : option store :=
  let e := arr (rob o) i in
  if rob_valid e && rob_ready e && is_store_raw (ir_raw (rob_ir e))
  then Some (mkStore (mem_addr (rob_ir e)) (mem_width (rob_ir e)) (store_data e)) else None.

Definition rob_stores (o : OOOState) (b : Z) : list store := omap (rob_store o) (rob_older o b).

(** The memory as this core sees it at commit: the buffered stores have happened. *)
Definition own_memory (w : OooWorld) : flat := do_stores (mem_byte (omach w)) (sb_stores (ooo w)).

Lemma do_stores_app B l l' : do_stores B (l ++ l') = do_stores (do_stores B l) l'.
Proof. apply foldl_app. Qed.

Lemma do_stores_ext l B B' a : (forall a, cached a = true -> B a = B' a) -> cached a = true ->
  do_stores B l a = do_stores B' l a.
Proof.
  revert B B'. induction l as [|s l IH]; intros B B' HB Ha; [by apply HB |]. cbn. apply IH; [| done].
  intros a' Ha'. unfold do_store, flat_write. case_if; [done | by apply HB].
Qed.

Lemma stlf_sbuf_value ir o B sign : sb_ok o -> mem_sign ir = sign -> is_width (mem_width ir) -> 0 <= mem_addr ir ->
  mem_addr ir + mem_width ir <= 2 ^ 32 ->
  Forall (fun s => store_ok s /\ fits (mem_addr ir) (mem_width ir) s) (sb_stores o) ->
  stlf_sbuf ir o (extend_load sign (mem_width ir) (flat_read B (mem_addr ir) (mem_width ir))) =
  Ok (extend_load sign (mem_width ir) (flat_read (do_stores B (sb_stores o)) (mem_addr ir) (mem_width ir))).
Proof.
  intros Ho <- Hw H0 H1 Hs. unfold stlf_sbuf.
  set (g := fun bi => let se := arr (sbuf o) ((sbuf_head o + bi) mod STORE_BUF_SIZE) in
                      if sb_valid se then Some (sb_store se) else None).
  assert (Eg : omap g (seqZ_from 0 (Z.to_nat (sbuf_count o))) = sb_stores o).
  { unfold sb_stores. pose proof (sb_valids _ Ho) as Hv. unfold sb_queue, ring in *. revert Hv. unfold g.
    generalize (seqZ_from 0 (Z.to_nat (sbuf_count o))). intros l. induction l as [|k l IH]; intros Hv; [done |].
    cbn [fmap list_fmap] in *. apply Forall_cons in Hv as [Hk Hv]. cbn [omap list_omap]. cbv zeta. rewrite Hk.
    f_equal. by apply IH. }
  rewrite <-Eg in *. apply (stlf_steps _ g); try done. intros bi out. unfold g. cbv zeta. by case_if.
Qed.

Lemma stlf_rob_value ir o b B sign : mem_sign ir = sign -> is_width (mem_width ir) -> 0 <= mem_addr ir ->
  mem_addr ir + mem_width ir <= 2 ^ 32 ->
  Forall (fun s => store_ok s /\ fits (mem_addr ir) (mem_width ir) s) (rob_stores o b) ->
  stlf_rob ir b o (extend_load sign (mem_width ir) (flat_read B (mem_addr ir) (mem_width ir))) =
  Ok (extend_load sign (mem_width ir) (flat_read (do_stores B (rob_stores o b)) (mem_addr ir) (mem_width ir))).
Proof.
  intros <- Hw H0 H1 Hs. apply (stlf_steps _ (rob_store o)); try done.
  intros i out. unfold rob_store. cbv zeta. by case_if.
Qed.

Lemma broadcast_prf t o : prf (cdb_broadcast t o) = prf o.
Proof. apply (foldl_same prf (fun o i => cdb_wake t i o)). intros o1 i. unfold cdb_wake. by case_if. Qed.
Lemma release_prf s mi o : prf (mshr_release s mi o) = prf o.
Proof. unfold mshr_release. by case_if. Qed.

Lemma lsu_done_prf s mi b p v o : 0 <= p < Z.of_nat (length (prf o)) ->
  arr (prf (lsu_done s mi b p v o)) p = mkPhysReg v true.
Proof.
  intros Hp. unfold lsu_done. cbv zeta. set (o1 := if 0 <=? mi then _ else _).
  assert (E1 : prf o1 = prf o) by (unfold o1; case_if; [by rewrite release_prf | done]).
  change (prf (lsu_off s (rob_put_ready b (cdb_broadcast p (publish p v o1))))) with
    (prf (cdb_broadcast p (publish p v o1))).
  rewrite broadcast_prf. cbn [publish set_prf prf]. apply arr_upd_eq. by rewrite E1.
Qed.

(** Performing the oldest buffered store. *)
Lemma drain_one_ok w : mem_inv (omach w) -> sb_ok (ooo w) -> Forall store_ok (sb_stores (ooo w)) -> sbuf_count (ooo w) <> 0 ->
  exists w', drain_one w = Ok w' /\ mem_inv (omach w') /\ sb_ok (ooo w') /\ Forall store_ok (sb_stores (ooo w')) /\
    forall a, cached a = true -> own_memory w' a = own_memory w a.
Proof.
  intros Hm Ho Hs Hc. destruct (pop_ok _ Ho Hc) as [Ho' Eq]. set (se := arr (sbuf (ooo w)) (sbuf_head (ooo w))) in *.
  unfold sb_stores in Hs. rewrite Eq in Hs. cbn [fmap list_fmap] in Hs. apply Forall_cons in Hs as [[Hse1 Hse2 _ _] Hs].
  destruct (vaddr_write_ok (omach w) (sb_addr se) (sb_width se) (sb_data se) Hm Hse1 Hse2) as (m' & E & [Hm' _ _ Hmem _]).
  exists (map_ooo sbuf_pop (put_omach m' w)). split_and!; [| done | done | done |].
  - unfold drain_one. cbv zeta. fold se. by rewrite E.
  - intros a Ha. unfold own_memory. rewrite ooo_map. change (omach (map_ooo sbuf_pop (put_omach m' w))) with m'.
    change (ooo (put_omach m' w)) with (ooo w). unfold sb_stores at 2. rewrite Eq. cbn [fmap list_fmap do_stores foldl].
    by apply do_stores_ext.
Qed.

(** ** Claims *)

(** The store buffer is a FIFO of at most sixteen stores: [ooo_init] empties
    it, and whatever happens in a cycle only appends committed stores at the end
    and removes the store at the front. *)
Theorem store_buffer_fifo w w' :
  (sb_ok (ooo (ooo_init w)) /\ sb_queue (ooo (ooo_init w)) = []) /\
  (sb_ok (ooo w) -> ooo_cycle w = Ok w' ->
   sb_ok (ooo w') /\ rtc qstep (sb_queue (ooo w)) (sb_queue (ooo w'))).
Proof. split; [apply init_sb_ok |]. intros Ho E. exact (cycle_R sbref w w' E Ho). Qed.

(** C15. Buffering is invisible to the core itself: draining the buffer always
    succeeds and leaves the core's own memory, the caches with the buffered
    stores applied, as it is; committing a buffered store is exactly one write
    to that memory. *)
Theorem store_buffer_transparent w e : mem_inv (omach w) -> sb_ok (ooo w) -> Forall store_ok (sb_stores (ooo w)) ->
  (exists w', ooo_drain_store_buf w = Ok w' /\ mem_inv (omach w') /\ sb_ok (ooo w') /\
     Forall store_ok (sb_stores (ooo w')) /\
     forall a, cached a = true -> own_memory w' a = own_memory w a) /\
  (ir_type (rob_ir e) = ITYPE_STORE -> cached (mem_addr (rob_ir e)) = true -> sbuf_count (ooo w) < STORE_BUF_SIZE ->
   exists w', commit_store e w = Ok w' /\ omach w' = omach w /\ sb_ok (ooo w') /\
     own_memory w' = flat_write (own_memory w) (mem_addr (rob_ir e)) (mem_width (rob_ir e)) (store_data e)).
Proof.
  intros Hm Ho Hs. split.
  - unfold ooo_drain_store_buf. cbv zeta. destruct (Z.eqb_spec (sbuf_count (ooo w)) 0) as [|Hc]; [by exists w |].
    assert (T : forall k (o := ooo w), sb_ok {| o with sbuf_drain_tick := k |})
      by (intros k; cbv zeta; by apply (sbref_same (ooo w))).
    case_if; [| by apply drain_one_ok]. case_if.
    + eexists. split; [reflexivity |]. split_and!; [done | apply T | done | done].
    + set (w1 := put_ooo _ w). destruct (drain_one_ok w1) as (w' & E' & H1 & H2 & H3 & H4); [done | apply T | done | done |].
      exists w'. split_and!; [done | done | done | done |]. intros a Ha. by rewrite H4.
  - intros Ht Hc Hlt. unfold commit_store. cbv zeta. rewrite bool_decide_true, Hc by done.
    destruct (push_ok (mem_addr (rob_ir e)) (store_data e) (mem_width (rob_ir e)) _ Ho Hlt) as [H1 H2].
    eexists. split; [reflexivity |]. split_and!; [done | done |].
    unfold own_memory, sb_stores. rewrite ooo_map, H2, fmap_app, do_stores_app. done.
Qed.

(** C14. Store-to-load forwarding is right whenever it can be: if each store in
    the buffer and each executed older store of the reorder buffer either covers
    the loaded bytes or misses them, then a cacheable load that is due completes
    with the value of the memory in which all those stores have been performed
    in program order, and publishes it. *)
Theorem forwarded_load w s mi b p : let ir := rob_ir (arr (rob (ooo w)) b) in
  mem_inv (omach w) -> sb_ok (ooo w) -> cached (mem_addr ir) = true -> in_block (mem_addr ir) (mem_width ir) ->
  is_width (mem_width ir) -> 0 <= p < Z.of_nat (length (prf (ooo w))) ->
  Forall (fun st => store_ok st /\ fits (mem_addr ir) (mem_width ir) st)
    (sb_stores (ooo w) ++ rob_stores (ooo w) b) ->
  exists w', lsu_do_fill s mi b p w = Ok w' /\ mem_inv (omach w') /\
    (forall a, cached a = true -> mem_byte (omach w') a = mem_byte (omach w) a) /\
    arr (prf (ooo w')) p = mkPhysReg (extend_load (mem_sign ir) (mem_width ir)
      (flat_read (do_stores (own_memory w) (rob_stores (ooo w) b)) (mem_addr ir) (mem_width ir))) true.
Proof.
  cbv zeta. set (ir := rob_ir _). intros Hm Ho Hc Hb Hw Hp Hs. apply Forall_app in Hs as [Hs1 Hs2].
  pose proof Hc as Hc'. unfold cached in Hc'. zify_bool.
  assert (H32 : mem_addr ir + mem_width ir <= 2 ^ 32) by (unfold is_width in Hw; lia).
  assert (Epa : lo32 (mem_addr ir) = mem_addr ir) by (rewrite lo32_mod; apply Z.mod_small; lia).
  destruct (vaddr_read_ok (omach w) (mem_addr ir) (mem_width ir) Hm Hc Hb) as (m' & E & [Hm' _ _ Hmem _]).
  eexists. split.
  { unfold lsu_do_fill. cbv zeta. fold ir. rewrite Epa, Hc. cbn [negb andb].
    change (vaddr_fill_and_read (mem_addr ir) (mem_width ir) (omach w)) with
      (vaddr_read (mem_addr ir) (mem_width ir) (omach w)). rewrite E. cbn [mbind Res_bind].
    change (ooo (put_omach m' w)) with (ooo w).
    rewrite (stlf_sbuf_value ir (ooo w)) by (done || lia). cbn [mbind Res_bind].
    rewrite (stlf_rob_value ir (ooo w) b) by (done || lia). cbn [mbind Res_bind].
    replace (in_range (prf (ooo w)) p) with true by (symmetry; unfold in_range; lia). reflexivity. }
  split_and!; [done | done |]. rewrite ooo_map. by apply lsu_done_prf.
Qed.

(** Two places where the engine leaves the sequential semantics.  A store
    that overlaps a load only in part is not forwarded: a buffered [sb] into the
    second byte of a word leaves a following [lw] with the old byte.  And
    [ecall], [mret] and [ebreak] never redirect the fetch: executing one squashes
    nothing and leaves [fetch_pc] on the fall-through path, whatever next pc the
    trap computed. *)
Theorem ooo_departures :
  (exists o ir B, sb_ok o /\ Forall store_ok (sb_stores o) /\ is_width (mem_width ir) /\
     stlf_sbuf ir o (extend_load (mem_sign ir) (mem_width ir) (flat_read B (mem_addr ir) (mem_width ir))) = Ok 0 /\
     extend_load (mem_sign ir) (mem_width ir) (flat_read (do_stores B (sb_stores o)) (mem_addr ir) (mem_width ir)) = 0xff00) /\
  (forall b ir w, ir_type ir = ITYPE_SYSTEM -> resolve b ir w = w) /\
  (forall ir m, ir_type (ir_exec_ecall ir m).1 = ITYPE_SYSTEM).
Proof.
  split_and!.
  - exists (sbuf_push 0x80000101 0xff 1 (init_ooo init_regs)),
      {| ir_zero with mem_addr := 0x80000100; mem_width := 4; mem_sign := true |}, (fun _ => 0).
    destruct (init_sb_ok init_regs) as [Ho Eq].
    destruct (push_ok 0x80000101 0xff 1 _ Ho) as [Ho' Eq']; [vm_compute; reflexivity |].
    unfold sb_stores. rewrite Eq', Eq. split_and!; [done | | by right; right; left | vm_compute; reflexivity | vm_compute; reflexivity].
    apply Forall_singleton. split; [done | | by left |]; vm_compute; intuition congruence.
  - intros b ir w Ht. unfold resolve. by rewrite Ht.
  - intros ir m. unfold ir_exec_ecall. by destruct (raise_intr _ _ _ _).
Qed.

(** ** Instances *)

Lemma set_id_rn_sb n r o : sb_ok o -> sb_ok (set_id_rn n r o).
Proof. intros Ho. by apply (sbref_same o). Qed.
Lemma set_rob_sb n r o : sb_ok o -> sb_ok (set_rob n r o).
Proof. intros Ho. by apply (sbref_same o). Qed.

Lemma sample_sb_ok : sb_ok sample_engine.
Proof. apply set_id_rn_sb, init_sb_ok. Qed.

Lemma store_buffer_fifo_witness : sb_ok sample_engine /\ exists w', ooo_cycle (sample_ooo sample_mach) = Ok w' /\ sb_ok (ooo w').
Proof.
  pose proof sample_sb_ok as Ho. split; [exact Ho |]. destruct (sample_cycle sample_mach) as (w' & E & _). exists w'. split; [exact E |].
  apply (proj2 (store_buffer_fifo (sample_ooo sample_mach) w') Ho E).
Defined.

(** A committed [sw] in the buffer and an [lw] of the same word, due. *)
Definition buffered_engine : OOOState :=
  sbuf_push 0x80000100 0xcafe 4
    (set_rob 0 (mkROB {| ir_zero with mem_addr := 0x80000100; mem_width := 4 |} 1 33 1 0 false true) (init_ooo init_regs)).

Definition buffered_world (m : Mach) : OooWorld := let w := sample_ooo m in {| w with ooo := buffered_engine |}.

Lemma buffered_ok : sb_ok buffered_engine /\ sb_stores buffered_engine = [mkStore 0x80000100 4 0xcafe] /\
  store_ok (mkStore 0x80000100 4 0xcafe).
Proof.
  destruct (init_sb_ok init_regs) as [Ho Eq]. split_and!.
  - apply push_ok; [apply set_rob_sb, Ho | vm_compute; reflexivity].
  - vm_compute. reflexivity.
  - split; [done | | by right; right; left |]; vm_compute; intuition congruence.
Qed.

Lemma store_buffer_transparent_witness : exists d w',
  init_devices ∅ (fun _ => 0) (io_static (fun _ => (0, 0)) (fun _ => [])) = Ok d /\
  ooo_drain_store_buf (buffered_world (boot_mach d)) = Ok w' /\
  own_memory w' 0x80000100 = own_memory (buffered_world (boot_mach d)) 0x80000100.
Proof.
  destruct (boot_bus_ok (fun _ => 0) (fun _ => (0, 0)) (fun _ => [])) as (d & Ed & Hb).
  destruct (boot_mach_inv d Hb) as (Hm & _). destruct buffered_ok as (Ho & Es & Hs).
  destruct (store_buffer_transparent (buffered_world (boot_mach d)) inhabitant Hm Ho) as [(w' & E & _ & _ & _ & Hw) _].
  - change (ooo (buffered_world (boot_mach d))) with buffered_engine. rewrite Es. by apply Forall_singleton.
  - exists d, w'. split; [exact Ed | split; [exact E |]]. by apply Hw.
Defined.

Lemma forwarded_load_witness : exists d w',
  init_devices ∅ (fun _ => 0) (io_static (fun _ => (0, 0)) (fun _ => [])) = Ok d /\
  lsu_do_fill 0 (-1) 0 33 (buffered_world (boot_mach d)) = Ok w' /\ arr (prf (ooo w')) 33 = mkPhysReg 0xcafe true.
Proof.
  destruct (boot_bus_ok (fun _ => 0) (fun _ => (0, 0)) (fun _ => [])) as (d & Ed & Hb).
  destruct (boot_mach_inv d Hb) as (Hm & _). destruct buffered_ok as (Ho & Es & Hs).
  destruct (forwarded_load (buffered_world (boot_mach d)) 0 (-1) 0 33 Hm Ho) as (w' & E & _ & _ & Hp).
  - reflexivity.
  - split; [split; vm_compute; congruence | vm_compute; congruence].
  - by right; right; left.
  - split; [lia | reflexivity].
  - change (ooo (buffered_world (boot_mach d))) with buffered_engine. rewrite Es.
    change (rob_stores buffered_engine 0) with (@nil store). apply Forall_singleton. split; [exact Hs |].
    left. split; vm_compute; congruence.
  - exists d, w'. split; [exact Ed | split; [exact E |]]. rewrite Hp. reflexivity.
Defined.
