(* ===== verification/Regex.v ===== *)
(** * POSIX regular expressions, as src/monitor/expr.c uses them

    The tokeniser compiles its rules with [regcomp(REG_EXTENDED)] and asks
    [regexec] for a match that starts at the first character.  [regexec] finds
    the leftmost match and, among those, the longest, so a rule that matches at
    position 0 is reported with the length of its longest matching prefix.
    [longest] computes that length by derivatives; [longest_spec] states it
    against the declarative [matches]. *)

From S2P Require Import Prelude.
From Stdlib Require Import Ascii.

Inductive regex :=
  | Emp
  | Eps
  | Cls (f : ascii -> bool)
  | Cat (r s : regex)
  | Alt (r s : regex)
  | Star (r : regex).

Inductive matches : regex -> list ascii -> Prop :=
  | m_eps : matches Eps []
  | m_cls f c : f c = true -> matches (Cls f) [c]
  | m_cat r s u v : matches r u -> matches s v -> matches (Cat r s) (u ++ v)
  | m_alt_l r s u : matches r u -> matches (Alt r s) u
  | m_alt_r r s u : matches s u -> matches (Alt r s) u
  | m_star_nil r : matches (Star r) []
  | m_star r u v : matches r u -> matches (Star r) v -> matches (Star r) (u ++ v).

(** ** Derivatives *)

Fixpoint nullable (r : regex) : bool :=
  match r with
  | Emp | Cls _ => false
  | Eps | Star _ => true
  | Cat r s => nullable r && nullable s
  | Alt r s => nullable r || nullable s
  end.

(** Constructors that drop the empty language, so that a rule that has failed
    becomes [Emp]. *)
Definition mkCat (r s : regex) : regex := match r with Emp => Emp | Eps => s | _ => Cat r s end.
Definition mkAlt (r s : regex) : regex :=
  match r, s with
  | Emp, _ => s
  | _, Emp => r
  | _, _ => Alt r s
  end.

Fixpoint deriv (c : ascii) (r : regex) : regex :=
  match r with
  | Emp | Eps => Emp
  | Cls f => if f c then Eps else Emp
  | Cat r s =>
      if nullable r then mkAlt (mkCat (deriv c r) s) (deriv c s) else mkCat (deriv c r) s
  | Alt r s => mkAlt (deriv c r) (deriv c s)
  | Star r => mkCat (deriv c r) (Star r)
  end.

(** The longest prefix of [s] in the language of [r]; [n] characters have been
    consumed and [best] is the last accepting length. *)
Fixpoint longest_from (r : regex) (s : list ascii) (n : nat) (best : option nat) : option nat :=
  let best := if nullable r then Some n else best in
  match r, s with
  | Emp, _ => best
  | _, [] => best
  | _, c :: s => longest_from (deriv c r) s (S n) best
  end.

Definition longest (r : regex) (s : list ascii) : option nat := longest_from r s 0 None.

(** ** Correctness *)

Lemma matches_Emp u : ~ matches Emp u.
Proof. by inversion 1. Qed.

Lemma matches_Cat r s u :
  matches (Cat r s) u <-> exists v w, u = v ++ w /\ matches r v /\ matches s w.
Proof.
  split; [inversion 1; subst; eauto | intros (v & w & -> & ? & ?); by constructor].
Qed.

Lemma matches_Alt r s u : matches (Alt r s) u <-> matches r u \/ matches s u.
Proof. split; [inversion 1; auto | intros [? | ?]; [by apply m_alt_l | by apply m_alt_r]]. Qed.

Lemma matches_nil r : matches r [] <-> nullable r = true.
Proof.
  induction r as [| |f|r IHr s IHs|r IHr s IHs|r IHr]; cbn [nullable].
  - split; [intros []%matches_Emp | done].
  - split; [done | constructor].
  - split; [inversion 1 | done].
  - rewrite matches_Cat, andb_true_iff, <- IHr, <- IHs. split.
    + intros (v & w & E & ? & ?). by symmetry in E; apply app_eq_nil in E as [-> ->].
    + intros [? ?]. by exists [], [].
  - by rewrite matches_Alt, orb_true_iff, IHr, IHs.
  - split; [done | constructor].
Qed.

Lemma matches_mkCat r s u : matches (mkCat r s) u <-> matches (Cat r s) u.
Proof.
  destruct r; cbn; try done; rewrite matches_Cat; split.
  - intros []%matches_Emp.
  - intros (v & w & -> & []%matches_Emp & ?).
  - intros ?. exists [], u. by split_and!; [| constructor |].
  - intros (v & w & -> & Hv & ?). by inversion Hv.
Qed.

Lemma matches_mkAlt r s u : matches (mkAlt r s) u <-> matches (Alt r s) u.
Proof.
  assert (Hl : matches Emp u <-> False) by (split; [apply matches_Emp | done]).
  rewrite matches_Alt. destruct r; cbn [mkAlt]; rewrite ?Hl; [tauto |..];
    destruct s; rewrite ?matches_Alt, ?Hl; tauto.
Qed.

Lemma matches_star_cons r c u :
  matches (Star r) (c :: u) -> exists v w, u = v ++ w /\ matches r (c :: v) /\ matches (Star r) w.
Proof.
  intros H. remember (Star r) as q eqn:Eq. remember (c :: u) as x eqn:Ex.
  revert c u Ex. induction H; intros c' u' Ex; simplify_eq.
  destruct u as [|d u]; cbn in Ex; simplify_eq.
  - eauto.
  - eauto 6.
Qed.

Lemma matches_deriv c r u : matches (deriv c r) u <-> matches r (c :: u).
Proof.
  revert u. induction r as [| |f|r IHr s IHs|r IHr s IHs|r IHr]; intros u; cbn [deriv].
  - split; intros H; by apply matches_Emp in H.
  - split; intros H; [by apply matches_Emp in H | by inversion H].
  - split; intros H.
    + destruct (f c) eqn:E; [| by apply matches_Emp in H]. inversion H; subst. by constructor.
    + inversion H; subst. case_match; [constructor | congruence].
  - assert (Hc : matches (Cat r s) (c :: u) <->
      matches (Cat (deriv c r) s) u \/ (nullable r = true /\ matches (deriv c s) u)).
    { rewrite !matches_Cat, IHs, <- matches_nil. split.
      - intros ([|d v] & w & E & Hv & Hw); cbn in E; simplify_eq; [by right | left].
        exists v, w. by rewrite IHr.
      - intros [(v & w & -> & Hv & Hw) | [Hn H]]; [exists (c :: v), w | exists [], (c :: u)]; [| done].
        by rewrite <- IHr. }
    rewrite Hc. destruct (nullable r).
    + rewrite matches_mkAlt, matches_Alt, matches_mkCat. tauto.
    + rewrite matches_mkCat. split; [by left | by intros [? | [? ?]]].
  - by rewrite matches_mkAlt, !matches_Alt, IHr, IHs.
  - rewrite matches_mkCat, matches_Cat. split.
    + intros (v & w & -> & Hv & Hw). apply (m_star r (c :: v)); [by apply IHr | done].
    + intros (v & w & -> & Hv & Hw)%matches_star_cons. exists v, w. by rewrite IHr.
Qed.

(** [longest_prefix r s j]: the longest prefix of [s] that [r] matches has [j]
    characters. *)
Record longest_prefix (r : regex) (s : list ascii) (j : nat) : Prop := {
  lp_len : (j <= length s)%nat;
  lp_match : matches r (take j s);
  lp_max : forall i, (j < i <= length s)%nat -> ~ matches r (take i s);
}.

Definition no_prefix (r : regex) (s : list ascii) : Prop :=
  forall i, (i <= length s)%nat -> ~ matches r (take i s).

Lemma longest_from_Emp s n best : longest_from Emp s n best = best.
Proof. by destruct s. Qed.

Lemma longest_from_cons r c s n best :
  longest_from r (c :: s) n best =
  longest_from (deriv c r) s (S n) (if nullable r then Some n else best).
Proof. destruct r; try reflexivity. by rewrite longest_from_Emp, longest_from_Emp. Qed.

Lemma longest_from_nil r n best : longest_from r [] n best = if nullable r then Some n else best.
Proof. by destruct r. Qed.

Lemma longest_from_spec r s n best :
  (exists j, longest_prefix r s j /\ longest_from r s n best = Some (n + j)%nat) \/
  (no_prefix r s /\ longest_from r s n best = best).
Proof.
  revert r n best. induction s as [|c s IH]; intros r n best.
  - rewrite longest_from_nil. destruct (nullable r) eqn:En; [left | right].
    + exists 0%nat. split; [| f_equal; lia].
      split; cbn; [lia | by apply matches_nil | intros; lia].
    + split; [| done]. intros i _. rewrite take_nil, matches_nil. congruence.
  - rewrite longest_from_cons.
    destruct (IH (deriv c r) (S n) (if nullable r then Some n else best)) as [(j & Hj & ->) | (Hno & ->)].
    + left. exists (S j). split; [| f_equal; lia]. destruct Hj as [Hl Hm Hmax].
      split; cbn; [lia | by apply matches_deriv |].
      intros [|i] Hi; [lia |]. cbn. rewrite <- matches_deriv. apply Hmax. lia.
    + assert (Hi : forall i, (0 < i <= length (c :: s))%nat -> ~ matches r (take i (c :: s))).
      { intros [|i] Hi; [lia |]. cbn. rewrite <- matches_deriv. apply Hno. cbn in Hi. lia. }
      destruct (nullable r) eqn:En; [left | right].
      * exists 0%nat. split; [| f_equal; lia]. split; [lia | by apply matches_nil | exact Hi].
      * split; [| done]. intros [|i] Hlt; [| apply Hi; lia]. cbn. rewrite matches_nil. congruence.
Qed.

(** [longest r s] is the length that [regexec] reports for a match at 0, and
    [None] when there is none. *)
Lemma longest_spec r s :
  match longest r s with
  | Some j => longest_prefix r s j
  | None => no_prefix r s
  end.
Proof.
  unfold longest. destruct (longest_from_spec r s 0 None) as [(j & Hj & ->) | (Hno & ->)]; [| done].
  by rewrite Nat.add_0_l.
Qed.
