(* ===== verification/Expr.v ===== *)
(** * The expression evaluator of the monitor (src/monitor/expr.c)

    The tokeniser with its rule table, the operator priorities, the bracket
    test, the recursive evaluator with its depth limit and the marking of
    dereferences.  C strings are lists of characters without the final NUL. *)

From S2P Require Import Prelude Word State Pmp Csr Cache Mmio Mem Ftrace Vmem Decode Ir Exec Regex.
From Stdlib Require Import Ascii.

(** ** Token types: a character code, or one of the enumeration *)

Definition ch (c : ascii) : Z := Z.of_N (N_of_ascii c).

Definition NOTYPE : Z := 256.
Definition EQ : Z := 257.
Definition NEQ : Z := 258.
Definition HEX : Z := 259.
Definition NUM : Z := 260.
Definition REG : Z := 261.
Definition SYMB : Z := 262.
Definition LS : Z := 263.
Definition RS : Z := 264.
Definition NG : Z := 265.
Definition NL : Z := 266.
Definition AND : Z := 267.
Definition OR : Z := 268.
Definition DEREF : Z := 269.

Record Token := mkToken {
  type : Z;
  str : list ascii;       (** [char str[64]]; only read for HEX, NUM and REG *)
}.

#[export] Instance Token_inhabited : Inhabited Token := populate (mkToken 0 []).

(** ** The rules *)

Definition between (lo hi c : ascii) : bool := (ch lo <=? ch c) && (ch c <=? ch hi).
Definition one_of (cs : list ascii) (c : ascii) : bool := existsb (Ascii.eqb c) cs.

Fixpoint lit (s : list ascii) : regex :=
  match s with
  | [] => Eps
  | c :: s => Cat (Cls (Ascii.eqb c)) (lit s)
  end.
Definition word (s : string) : regex := lit (String.list_ascii_of_string s).
Definition plus (f : ascii -> bool) : regex := Cat (Cls f) (Star (Cls f)).

Definition digit : ascii -> bool := between "0" "9".
Definition hex_digit (c : ascii) : bool := digit c || between "a" "f" c || between "A" "F" c.
(** [[a-zA-z]]: the second range is written with a small [z] and so contains
    the characters between [Z] and [a], among them the caret. *)
Definition symb_start (c : ascii) : bool := between "a" "z" c || between "A" "z" c.
Definition alnum (c : ascii) : bool := between "a" "z" c || between "A" "Z" c || digit c.

Definition rules : list (regex * Z) :=
  [ (plus (Ascii.eqb " "), NOTYPE);
    (word "==", EQ);
    (word "!=", NEQ);
    (Cat (Cls (Ascii.eqb "0")) (Cat (Cls (one_of ["x"; "X"]%char)) (plus hex_digit)), HEX);
    (plus digit, NUM);
    (Cat (Cls (Ascii.eqb "t")) (Cls (between "0" "6")), REG);
    (Cat (Cls (Ascii.eqb "s")) (Cls (between "0" "1")), REG);
    (Cat (Cls (Ascii.eqb "a")) (Cls (between "0" "7")), REG);
    (Cat (Cls (Ascii.eqb "s")) (Alt (Cls (between "2" "9")) (Alt (word "10") (word "11"))), REG);
    (word "pc", REG);
    (Alt (word "$0") (Alt (word "ra") (Alt (word "sp") (Alt (word "gp") (word "tp")))), REG);
    (Cat (plus symb_start) (Star (Cls alnum)), SYMB);
    (word "<<", LS);
    (word ">>", RS);
    (word "<=", NG);
    (word ">=", NL);
    (word "&&", AND);
    (word "||", OR);
    (word "+", ch "+");
    (word "-", ch "-");
    (word "*", ch "*");
    (word "/", ch "/");
    (word "%", ch "%");
    (word "(", ch "(");
    (word ")", ch ")");
    (word ">", ch ">");
    (word "<", ch "<");
    (word "&", ch "&");
    (word "^", ch "^");
    (word "|", ch "|");
    (word "!", ch "!");
    (word "~", ch "~") ].

(** The loop over the rules: the first that matches at the position, with the
    length of its match. *)
Fixpoint first_rule (rs : list (regex * Z)) (s : list ascii) : option (Z * nat) :=
  match rs with
  | [] => None
  | (r, t) :: rs => match longest r s with Some n => Some (t, n) | None => first_rule rs s end
  end.

(** [substr_len] characters and a NUL are stored into [str[64]]; a longer
    lexeme leaves the array. *)
Definition has_text (t : Z) : bool := (t =? HEX) || (t =? NUM) || (t =? REG) || (t =? SYMB).

Definition token_of (t : Z) (lexeme : list ascii) : Res (list Token) :=
  if t =? NOTYPE then Ok []
  else if has_text t then
    _ ← ensure Undefined (Z.of_nat (length lexeme) <? 64);
    Ok [mkToken t lexeme]
  else Ok [mkToken t []].

(** The scan of [make_token]: [skip] characters of the last lexeme are still to
    be passed.  [None] is "no match at position". *)
Fixpoint scan (s : list ascii) (skip : nat) : Res (option (list Token)) :=
  match s with
  | [] => Ok (Some [])
  | c :: s' =>
      match skip with
      | S skip => scan s' skip
      | O =>
          match first_rule rules s with
          | None => Ok None
          | Some (t, n) =>
              tok ← token_of t (take n s);
              rest ← scan s' (pred n);
              Ok (option_map (app tok) rest)
          end
      end
  end.

(** [tokens] has 65536 entries. *)
Definition make_token (e : list ascii) : Res (option (list Token)) :=
  toks ← scan e 0;
  _ ← ensure Undefined (Z.of_nat (length (default [] toks)) <=? 65536);
  Ok toks.

(** ** Priorities *)

Definition prior_arr : list (Z * Z) :=
  [ (ch "+", 4); (ch "-", 4); (EQ, 7); (NEQ, 7); (ch "*", 3); (ch "/", 3); (ch "%", 3); (LS, 5);
    (RS, 5); (NG, 6); (NL, 6); (ch "<", 6); (ch ">", 6); (AND, 11); (OR, 12); (ch "&", 8);
    (ch "^", 9); (ch "|", 10); (ch "!", 2); (ch "~", 2); (DEREF, 2) ].

Definition MAX_PRIOR : Z := 15.

Fixpoint find_prior_from (ps : list (Z * Z)) (token_type : Z) : Z :=
  match ps with
  | [] => -1
  | (t, p) :: ps => if t =? token_type then p else find_prior_from ps token_type
  end.

Definition find_prior (token_type : Z) : Z := find_prior_from prior_arr token_type.

(** ** Brackets *)

Definition ty (toks : list Token) (i : Z) : Z := type (arr toks i).

(** [match] after the loop from [i] down to [p + 1], [n] steps. *)
Fixpoint match_loop (toks : list Token) (n : nat) (i mtch : Z) : Z :=
  match n with
  | O => mtch
  | S n =>
      match_loop toks n (i - 1)
        (if ty toks i =? ch ")" then mtch + 1
         else if (ty toks i =? ch "(") && (0 <? mtch) then mtch - 1 else mtch)
  end.

Definition check_parentheses (toks : list Token) (p q : Z) : bool :=
  if (ty toks p =? ch "(") && (ty toks q =? ch ")")
  then match_loop toks (Z.to_nat (q - 1 - p)) (q - 1) 0 =? 0
  else false.

(** ** The search for the operator to split at *)

(** From [j] down to [p]: the bracket that closes [colon_match] open ones. *)
Fixpoint open_scan (toks : list Token) (n : nat) (j colon_match : Z) : option Z :=
  match n with
  | O => None
  | S n =>
      if ty toks j =? ch ")" then open_scan toks n (j - 1) (colon_match + 1)
      else if ty toks j =? ch "(" then
        if colon_match - 1 =? 0 then Some j else open_scan toks n (j - 1) (colon_match - 1)
      else open_scan toks n (j - 1) colon_match
  end.

(** From [i] down to [p]: the last operator of priority [prior] outside
    brackets; [n] bounds the steps. *)
Fixpoint op_scan (toks : list Token) (p prior : Z) (n : nat) (i : Z) : option Z :=
  match n with
  | O => None
  | S n =>
      if i <? p then None
      else if ty toks i =? ch ")" then
        op_scan toks p prior n (default i (open_scan toks (Z.to_nat (i - p)) (i - 1) 1) - 1)
      else if prior =? find_prior (ty toks i) then Some i
      else op_scan toks p prior n (i - 1)
  end.

(** [while(prior != 0 && !find)]; [op] stays -1 when there is no operator. *)
Fixpoint find_op (toks : list Token) (p q : Z) (prior : nat) : Z :=
  match prior with
  | O => -1
  | S k =>
      match op_scan toks p (Z.of_nat prior) (Z.to_nat (q - p + 1)) q with
      | Some op => op
      | None => find_op toks p q k
      end
  end.

(** ** Numbers: [sscanf] with [%lu], and with [0x%lx] *)

Definition digit_val (c : ascii) : Z :=
  if digit c then ch c - ch "0" else if between "a" "f" c then ch c - ch "a" + 10 else ch c - ch "A" + 10.

Definition numeral (base : Z) (s : list ascii) : Z := foldl (fun v c => v * base + digit_val c) 0 s.

(** A value that does not fit is undefined for [sscanf]. *)
Definition scan_lu (s : list ascii) : Res Z :=
  _ ← ensure Undefined (numeral 10 s <? 2 ^ 64); Ok (numeral 10 s).

(** The literal part of the format is [0x]: with [0X] nothing is stored and
    [result] stays uninitialised. *)
Definition scan_lx (s : list ascii) : Res Z :=
  match s with
  | "0"%char :: "x"%char :: s => _ ← ensure Undefined (numeral 16 s <? 2 ^ 64); Ok (numeral 16 s)
  | _ => Err Undefined
  end.

(** ** Evaluation *)

Definition b2u (b : bool) : Z := if b then 1 else 0.

(** The switch over the operator; a dereference reads memory. *)
Definition apply_op (t val1 val2 : Z) (m : Mach) : Res (Z * Mach) :=
  let ret v := Ok (v, m) in
  if t =? ch "+" then ret (val1 + val2)%word
  else if t =? ch "-" then ret (val1 - val2)%word
  else if t =? ch "*" then ret (val1 * val2)%word
  else if t =? ch "/" then ret (val1 / val2)
  else if t =? ch "%" then ret (val1 mod val2)
  else if t =? ch "&" then ret (Z.land val1 val2)
  else if t =? ch "^" then ret (Z.lxor val1 val2)
  else if t =? ch "|" then ret (Z.lor val1 val2)
  else if t =? ch "~" then ret (not64 val2)
  else if t =? ch "!" then ret (b2u (val2 =? 0))
  else if t =? ch "<" then ret (b2u (val1 <? val2))
  else if t =? ch ">" then ret (b2u (val2 <? val1))
  else if t =? LS then v ← shl64 val1 val2; ret v
  else if t =? RS then v ← shr64 val1 val2; ret v
  else if t =? NG then ret (b2u (val1 <=? val2))
  else if t =? NL then ret (b2u (val2 <=? val1))
  else if t =? EQ then ret (b2u (val1 =? val2))
  else if t =? NEQ then ret (b2u (negb (val1 =? val2)))
  else if t =? AND then ret (b2u (negb (val1 =? 0) && negb (val2 =? 0)))
  else if t =? OR then ret (b2u (negb (val1 =? 0) || negb (val2 =? 0)))
  else if t =? DEREF then vaddr_read val2 8 m
  else Err Assertion.

(** [return -1] of a [uint64_t] *)
Definition FAILED : Z := 2 ^ 64 - 1.

(** A single token; a symbol, an operator or a bracket gives 0. *)
Definition eval_atom (t : Token) (success : bool) (m : Mach) : Res (Z * bool * Mach) :=
  if type t =? NUM then v ← scan_lu (str t); Ok (v, success, m)
  else if type t =? REG then
    let '(v, ok) := reg_str2val (String.string_of_list_ascii (str t)) (cpu m) in Ok (v, ok, m)
  else if type t =? HEX then v ← scan_lx (str t); Ok (v, success, m)
  else Ok (0, success, m).

(** [eval(p, q, success, depth)]: [togo] is [36 - depth], so that no call is
    made below depth 35.  Without an operator [op] is -1: both recursive calls
    are made and then [tokens[-1]] is read. *)
Fixpoint eval (toks : list Token) (togo : nat) (p q : Z) (success : bool) (m : Mach)
    : Res (Z * bool * Mach) :=
  match togo with
  | O => Ok (FAILED, false, m)
  | S togo =>
      if negb success then Ok (FAILED, false, m)
      else if q <? p then Ok (0, success, m)
      else if p =? q then eval_atom (arr toks p) success m
      else if check_parentheses toks p q then eval toks togo (p + 1) (q - 1) success m
      else
        let op := find_op toks p q (Z.to_nat MAX_PRIOR) in
        '(val1, success, m) ← eval toks togo p (op - 1) success m;
        '(val2, success, m) ← eval toks togo (op + 1) q success m;
        _ ← ensure Undefined (0 <=? op);
        if (val2 =? 0) && ((ty toks op =? ch "/") || (ty toks op =? ch "%")) then Ok (FAILED, false, m)
        else '(v, m) ← apply_op (ty toks op) val1 val2 m; Ok (v, success, m)
  end.

Definition DEPTH_LIMIT : nat := 36.

(** ** Dereferences *)

Definition operator_judge (t : Z) : bool :=
  existsb (Z.eqb t)
    [ ch "+"; ch "-"; EQ; NEQ; ch "*"; ch "/"; ch "%"; LS; RS; NG; NL; ch "<"; ch ">"; AND; OR;
      ch "&"; ch "^"; ch "|"; ch "!"; ch "~" ].

(** The loop that turns a [*] into a dereference; [prev] is the type the
    previous token has by then, [None] at index 0. *)
Fixpoint mark_deref (prev : option Z) (toks : list Token) : list Token :=
  match toks with
  | [] => []
  | t :: toks =>
      let t := if (type t =? ch "*") && (match prev with None => true | Some p => operator_judge p end)
               then {| t with type := DEREF |} else t in
      t :: mark_deref (Some (type t)) toks
  end.

(** [expr(e, &success)]: the value and [success], which the callers set to
    true before the call. *)
Definition expr (e : list ascii) (success : bool) (m : Mach) : Res (Z * bool * Mach) :=
  toks ← make_token e;
  match toks with
  | None => Ok (0, false, m)
  | Some toks =>
      let toks := mark_deref None toks in
      eval toks DEPTH_LIMIT 0 (Z.of_nat (length toks) - 1) success m
  end.
