(* ===== verification/ExprSpec.v ===== *)
(** * What the expression evaluator computes

    A syntax tree with its meaning, its printed form with the brackets that
    the operator priorities require, and the theorem that [expr] evaluates the
    printed form to the meaning: tokeniser, dereference marking, bracket test,
    operator search and evaluation together. *)

From S2P Require Import Prelude Word State Pmp Csr Cache Mmio Mem Ftrace Vmem VmemSpec Decode Ir Exec Regex Expr.
From Stdlib Require Import Ascii.

(** ** Segments of the token array *)

(** [seg toks p l]: the tokens from index [p] on are [l]. *)
Definition seg (toks : list Token) (p : Z) (l : list Token) : Prop :=
  0 <= p /\ forall i t, l !! i = Some t -> toks !! (Z.to_nat p + i)%nat = Some t.

Definition zlen {A} (l : list A) : Z := Z.of_nat (length l).

Lemma zlen_app {A} (l l' : list A) : zlen (l ++ l') = zlen l + zlen l'.
Proof. unfold zlen. rewrite length_app. lia. Qed.

Lemma zlen_cons {A} (x : A) l : zlen (x :: l) = zlen l + 1.
Proof. unfold zlen. cbn [length]. lia. Qed.

Lemma seg_app toks p l l' : seg toks p (l ++ l') <-> seg toks p l /\ seg toks (p + zlen l) l'.
Proof.
  unfold seg, zlen. split.
  - intros [Hp H]. split; split; try lia; intros i t Hi.
    + apply H. by apply lookup_app_l_Some.
    + replace (Z.to_nat (p + Z.of_nat (length l)) + i)%nat with (Z.to_nat p + (length l + i))%nat by lia.
      apply H. rewrite lookup_app_r by lia. by replace (length l + i - length l)%nat with i by lia.
  - intros [[Hp H] [_ H']]. split; [done |]. intros i t [Hi | [Hge Hi]]%lookup_app_Some; [by apply H |].
    apply H' in Hi. by replace (Z.to_nat (p + Z.of_nat (length l)) + (i - length l))%nat
      with (Z.to_nat p + i)%nat in Hi by lia.
Qed.

Lemma seg_cons toks p t l : seg toks p (t :: l) <-> seg toks p [t] /\ seg toks (p + 1) l.
Proof. apply (seg_app toks p [t] l). Qed.

Lemma seg_one toks p t : seg toks p [t] -> 0 <= p /\ arr toks p = t.
Proof.
  intros [Hp H]. split; [done |]. rewrite <- (Z2Nat.id p) by done. apply arr_of_lookup.
  specialize (H 0%nat t eq_refl). by rewrite Nat.add_0_r in H.
Qed.

Lemma seg_all l : seg l 0 l.
Proof. split; [lia |]. by intros i t. Qed.

Lemma seg_pos toks p l : seg toks p l -> 0 <= p.
Proof. by intros []. Qed.

(** ** Balanced token lists

    [bal P l]: brackets match and [P] holds of the types outside brackets. *)

Definition not_bracket (t : Z) : Prop := t <> ch "(" /\ t <> ch ")".

Inductive bal : (Z -> Prop) -> list Token -> Prop :=
  | bal_nil P : bal P []
  | bal_tok (P : Z -> Prop) t l : not_bracket (type t) -> P (type t) -> bal P l -> bal P (t :: l)
  | bal_par P o a c b : type o = ch "(" -> type c = ch ")" ->
      bal (fun _ => True) a -> bal P b -> bal P (o :: a ++ c :: b).

Lemma bal_app P l l' : bal P l -> bal P l' -> bal P (l ++ l').
Proof.
  intros H. revert l'. induction H; intros l' Hl'; cbn; [done | apply bal_tok; auto |].
  rewrite <- app_assoc. cbn. apply bal_par; auto.
Qed.

Lemma bal_weaken P Q l : (forall t, P t -> Q t) -> bal P l -> bal Q l.
Proof.
  intros HPQ H. revert Q HPQ. induction H; intros Q HPQ; [constructor | | apply bal_par; auto].
  apply bal_tok; auto.
Qed.

Lemma bal_any P l : bal P l -> bal (fun _ => True) l.
Proof. by apply bal_weaken. Qed.

(** A balanced list that ends in a closing bracket ends in a bracketed group. *)
Lemma bal_last P l c : bal P (l ++ [c]) -> type c = ch ")" ->
  exists f o a, l = f ++ o :: a /\ type o = ch "(" /\
    bal (fun _ => True) f /\ bal (fun _ => True) a.
Proof.
  remember (l ++ [c]) as x eqn:Ex. intros H Hc. revert l Ex.
  induction H as [P | P t x Ht HP Hx IH | P o a d b Ho Hd Ha IHa Hb IHb]; intros l Ex.
  - by destruct l.
  - destruct l as [|t' l]; cbn in Ex; simplify_eq.
    { destruct Ht as [_ []]. done. }
    destruct (IH l eq_refl) as (f & o & a & -> & Ho & Hf & Ha).
    exists (t' :: f), o, a. split_and!; [done | done | by apply bal_tok | done].
  - destruct (decide (b = [])) as [->|Hne].
    + destruct (app_inj_tail (o :: a) l d c Ex) as [<- ->]. exists [], o, a.
      split_and!; [done | done | constructor | done].
    + destruct (exists_last Hne) as (b' & c' & ->).
      assert (l = o :: a ++ d :: b' /\ c = c') as [-> <-].
      { apply app_inj_tail. rewrite <- Ex. cbn. by rewrite <- app_assoc. }
      destruct (IHb b' eq_refl) as (f & o' & a' & -> & Ho' & Hf & Ha').
      exists (o :: a ++ d :: f), o', a'.
      split_and!; [cbn; by rewrite <- app_assoc | done | by apply bal_par | done].
Qed.

(** ** The bracket test *)

(** The counter of [check_parentheses], read over a list from the right. *)
Definition mstep (t : Token) (c : Z) : Z :=
  if type t =? ch ")" then c + 1 else if (type t =? ch "(") && (0 <? c) then c - 1 else c.
Definition mcount (l : list Token) (c : Z) : Z := foldr mstep c l.

Lemma match_loop_seg toks p l c :
  seg toks p l -> match_loop toks (length l) (p + zlen l - 1) c = mcount l c.
Proof.
  revert p c. induction l as [|t l IH] using rev_ind; intros p c H; [done |].
  apply seg_app in H as [Hl Ht]. apply seg_one in Ht as [_ Ht].
  rewrite length_app, Nat.add_1_r, zlen_app. cbn [match_loop]. unfold mcount. rewrite foldr_app.
  change (zlen [t]) with 1. replace (p + (zlen l + 1) - 1) with (p + zlen l) by lia.
  unfold ty. rewrite Ht. by apply IH.
Qed.

Lemma mstep_plain t c : not_bracket (type t) -> mstep t c = c.
Proof. intros [Ho Hc]. unfold mstep. apply Z.eqb_neq in Ho, Hc. by rewrite Hc, Ho. Qed.

Lemma mstep_open t c : type t = ch "(" -> 0 <= c -> mstep t c = Z.max 0 (c - 1).
Proof.
  intros E Hc. unfold mstep. rewrite E. change (ch "(" =? ch ")") with false.
  change (ch "(" =? ch "(") with true. cbn [andb]. case_if; lia.
Qed.

Lemma mstep_close t c : type t = ch ")" -> mstep t c = c + 1.
Proof. intros E. unfold mstep. by rewrite E. Qed.

Lemma mcount_app l l' c : mcount (l ++ l') c = mcount l (mcount l' c).
Proof. apply foldr_app. Qed.

Lemma mcount_bal P l c : bal P l -> 0 <= c -> mcount l c = c.
Proof.
  intros H. revert c. induction H as [| P t l Ht _ _ IH | P o a d b Ho Hd _ IHa _ IHb]; intros c Hc.
  - done.
  - cbn. change (foldr mstep c l) with (mcount l c). rewrite IH by done. by apply mstep_plain.
  - change (o :: a ++ d :: b) with ([o] ++ a ++ [d] ++ b). rewrite !mcount_app, IHb by done.
    change (mcount [d] c) with (mstep d c). rewrite mstep_close, IHa by (done || lia).
    change (mcount [o] (c + 1)) with (mstep o (c + 1)). rewrite mstep_open by (done || lia). lia.
Qed.

(** ** The operator search *)

Lemma open_scan_bal P l toks p n c : bal P l -> seg toks p l -> 1 <= c ->
  open_scan toks (length l + n) (p + zlen l - 1) c = open_scan toks n (p - 1) c.
Proof.
  intros H. revert p n c. induction H as [| P t l Ht _ _ IH | P o a d b Ho Hd _ IHa _ IHb];
    intros p n c Hs Hc.
  - cbn. f_equal. unfold zlen. cbn. lia.
  - apply seg_cons in Hs as [Hs1 Hs2]. apply seg_one in Hs1 as [_ Hs1].
    rewrite zlen_cons. replace (p + (zlen l + 1) - 1) with (p + 1 + zlen l - 1) by lia.
    cbn [length]. replace (S (length l) + n)%nat with (length l + S n)%nat by lia.
    rewrite IH by done. cbn [open_scan]. replace (p + 1 - 1) with p by lia. unfold ty. rewrite Hs1.
    destruct Ht as [Ht1 Ht2]. apply Z.eqb_neq in Ht1, Ht2. by rewrite Ht2, Ht1.
  - apply seg_cons in Hs as [Hs1 Hs2]. apply seg_one in Hs1 as [_ Hs1].
    apply seg_app in Hs2 as [Hsa Hs2]. apply seg_cons in Hs2 as [Hsd Hsb].
    apply seg_one in Hsd as [_ Hsd].
    rewrite zlen_cons, zlen_app, zlen_cons.
    replace (p + (zlen a + (zlen b + 1) + 1) - 1) with (p + 1 + zlen a + 1 + zlen b - 1) by lia.
    cbn [length]. rewrite length_app. cbn [length].
    replace (S (length a + S (length b)) + n)%nat with (length b + S (length a + S n))%nat by lia.
    rewrite IHb by done. cbn [open_scan]. replace (p + 1 + zlen a + 1 - 1) with (p + 1 + zlen a) by lia.
    unfold ty at 1. rewrite Hsd, Hd. cbn [Z.eqb ch].
    change (ch ")" =? ch ")") with true. cbv iota.
    rewrite IHa by (done || lia). cbn [open_scan]. replace (p + 1 - 1) with p by lia.
    unfold ty. rewrite Hs1, Ho. change (ch "(" =? ch ")") with false. change (ch "(" =? ch "(") with true.
    cbv iota. replace (c + 1 - 1) with c by lia. destruct (Z.eqb_spec c 0); [lia | done].
Qed.

Lemma open_scan_range toks n j c k : open_scan toks n j c = Some k -> j - Z.of_nat n < k <= j.
Proof.
  revert j c. induction n as [|n IH]; intros j c H; [done |]. cbn in H.
  repeat case_if_in H; try (apply IH in H; lia). simplify_eq. lia.
Qed.

(** The search with the number of steps it needs. *)
Definition os (toks : list Token) (p prior i : Z) : option Z :=
  op_scan toks p prior (Z.to_nat (i - p + 1)) i.

Lemma op_scan_fuel toks p prior n i :
  (Z.to_nat (i - p + 1) <= n)%nat -> op_scan toks p prior n i = os toks p prior i.
Proof.
  unfold os. remember (Z.to_nat (i - p + 1)) as k eqn:Ek. revert n i Ek.
  induction k as [k IH] using lt_wf_ind. intros n i Ek Hn.
  destruct (decide (i < p)) as [Hlt|Hge].
  { destruct n, k; cbn; try done; by rewrite (proj2 (Z.ltb_lt i p)) by lia. }
  destruct n as [|n]; [lia |]. destruct k as [|k]; [lia |]. cbn [op_scan].
  rewrite (proj2 (Z.ltb_ge i p)) by lia.
  assert (Hstep : forall j, j < i -> op_scan toks p prior n j = op_scan toks p prior k j).
  { intros j Hj. transitivity (os toks p prior j).
    - apply (IH (Z.to_nat (j - p + 1))); lia.
    - symmetry. apply (IH (Z.to_nat (j - p + 1))); lia. }
  case_if; [| case_if; [done | apply Hstep; lia]]. apply Hstep.
  destruct (open_scan _ _ _ _) eqn:Eo; cbn [from_option id]; [| lia].
  apply open_scan_range in Eo. lia.
Qed.

Lemma os_step toks p prior i : p <= i -> os toks p prior i =
  if ty toks i =? ch ")" then
    os toks p prior (default i (open_scan toks (Z.to_nat (i - p)) (i - 1) 1) - 1)
  else if prior =? find_prior (ty toks i) then Some i else os toks p prior (i - 1).
Proof.
  intros Hp. unfold os at 1. replace (Z.to_nat (i - p + 1)) with (S (Z.to_nat (i - p))) by lia.
  cbn [op_scan]. rewrite (proj2 (Z.ltb_ge i p)) by lia.
  case_if; [| case_if; [done |]]; apply op_scan_fuel.
  - destruct (open_scan _ _ _ _) eqn:E2; cbn [from_option id]; [| lia].
    apply open_scan_range in E2. lia.
  - lia.
Qed.

(** The search passes over a balanced segment without operators of the priority
    outside brackets. *)
Lemma os_bal P toks p0 prior p l : bal P l -> (forall t, P t -> find_prior t <> prior) ->
  seg toks p l -> p0 <= p -> os toks p0 prior (p + zlen l - 1) = os toks p0 prior (p - 1).
Proof.
  intros H. revert p. induction H as [| P t l Ht HP _ IH | P o a d b Ho Hd Ha _ Hb IHb];
    intros p HPp Hs Hp.
  - f_equal. unfold zlen. cbn. lia.
  - apply seg_cons in Hs as [Hs1 Hs2]. apply seg_one in Hs1 as [_ Hs1].
    rewrite zlen_cons. replace (p + (zlen l + 1) - 1) with (p + 1 + zlen l - 1) by lia.
    rewrite IH by (done || lia). replace (p + 1 - 1) with p by lia. rewrite os_step by done.
    unfold ty. rewrite Hs1. destruct Ht as [_ Ht]. apply Z.eqb_neq in Ht. rewrite Ht.
    apply HPp in HP. destruct (Z.eqb_spec prior (find_prior (type t))); [by subst | done].
  - apply seg_cons in Hs as [Hs1 Hs2]. apply seg_one in Hs1 as [_ Hs1].
    apply seg_app in Hs2 as [Hsa Hs2]. apply seg_cons in Hs2 as [Hsd Hsb].
    apply seg_one in Hsd as [_ Hsd].
    rewrite zlen_cons, zlen_app, zlen_cons.
    replace (p + (zlen a + (zlen b + 1) + 1) - 1) with (p + 1 + zlen a + 1 + zlen b - 1) by lia.
    rewrite IHb by (done || unfold zlen; lia).
    replace (p + 1 + zlen a + 1 - 1) with (p + 1 + zlen a) by lia.
    rewrite os_step by (unfold zlen; lia). unfold ty at 1. rewrite Hsd, Hd.
    change (ch ")" =? ch ")") with true. cbv iota. f_equal.
    replace (Z.to_nat (p + 1 + zlen a - p0)) with (length a + S (Z.to_nat (p - p0)))%nat
      by (unfold zlen; lia).
    rewrite (open_scan_bal _ a toks (p + 1) _ 1 Ha) by (done || lia). cbn [open_scan].
    replace (p + 1 - 1) with p by lia. unfold ty. rewrite Hs1, Ho. done.
Qed.

(** ** Syntax and meaning *)

Inductive unop := U_not | U_compl | U_deref.

Inductive binop :=
  | B_add | B_sub | B_mul | B_div | B_rem | B_and | B_or | B_lt | B_gt | B_shl | B_shr
  | B_le | B_ge | B_eq | B_ne | B_land | B_lor.

Inductive ast :=
  | Lit (n : Z)
  | Reg (r : string)
  | Un (u : unop) (e : ast)
  | Bin (b : binop) (l r : ast).

Definition un_type (u : unop) : Z :=
  match u with U_not => ch "!" | U_compl => ch "~" | U_deref => DEREF end.

Definition bin_type (b : binop) : Z :=
  match b with
  | B_add => ch "+" | B_sub => ch "-" | B_mul => ch "*" | B_div => ch "/" | B_rem => ch "%"
  | B_and => ch "&" | B_or => ch "|" | B_lt => ch "<" | B_gt => ch ">" | B_shl => LS | B_shr => RS
  | B_le => NG | B_ge => NL | B_eq => EQ | B_ne => NEQ | B_land => AND | B_lor => OR
  end.

(** C's priorities, 1 binding tightest. *)
Definition bin_prior (b : binop) : Z :=
  match b with
  | B_mul | B_div | B_rem => 3 | B_add | B_sub => 4 | B_shl | B_shr => 5
  | B_lt | B_gt | B_le | B_ge => 6 | B_eq | B_ne => 7 | B_and => 8 | B_or => 10
  | B_land => 11 | B_lor => 12
  end.

Lemma find_prior_bin b : find_prior (bin_type b) = bin_prior b.
Proof. by destruct b. Qed.

Lemma find_prior_un u : find_prior (un_type u) = 2.
Proof. by destruct u. Qed.

(** Unsigned 64-bit arithmetic; [None] for a division by zero and for a shift
    by 64 or more. *)
Definition bin_sem (b : binop) (x y : Z) : option Z :=
  let bit (c : bool) := Some (if c then 1 else 0) in
  match b with
  | B_add => Some ((x + y) mod 2 ^ 64)
  | B_sub => Some ((x - y) mod 2 ^ 64)
  | B_mul => Some ((x * y) mod 2 ^ 64)
  | B_div => if y =? 0 then None else Some (x / y)
  | B_rem => if y =? 0 then None else Some (x mod y)
  | B_and => Some (Z.land x y)
  | B_or => Some (Z.lor x y)
  | B_lt => bit (x <? y)
  | B_gt => bit (y <? x)
  | B_le => bit (x <=? y)
  | B_ge => bit (y <=? x)
  | B_eq => bit (x =? y)
  | B_ne => bit (negb (x =? y))
  | B_shl => if (0 <=? y) && (y <? 64) then Some ((x * 2 ^ y) mod 2 ^ 64) else None
  | B_shr => if (0 <=? y) && (y <? 64) then Some (x / 2 ^ y) else None
  | B_land => bit (negb (x =? 0) && negb (y =? 0))
  | B_lor => bit (negb (x =? 0) || negb (y =? 0))
  end.

(** Operands are evaluated from left to right; a dereference is an 8-byte load
    of the machine and may move blocks between the caches. *)
Fixpoint meaning (e : ast) (m : Mach) : option (Z * Mach) :=
  match e with
  | Lit n => Some (n, m)
  | Reg r => let '(v, ok) := reg_str2val r (cpu m) in if ok : bool then Some (v, m) else None
  | Un u e =>
      match meaning e m with
      | Some (v, m) =>
          match u with
          | U_not => Some (if v =? 0 then 1 else 0, m)
          | U_compl => Some (2 ^ 64 - 1 - v, m)
          | U_deref => match vaddr_read v 8 m with Ok r => Some r | Err _ => None end
          end
      | None => None
      end
  | Bin b l r =>
      match meaning l m with
      | Some (x, m) =>
          match meaning r m with
          | Some (y, m) => match bin_sem b x y with Some v => Some (v, m) | None => None end
          | None => None
          end
      | None => None
      end
  end.

(** ** Printing *)

(** Decimal digits, least significant first. *)
Fixpoint dec_rev (fuel : nat) (n : Z) : list ascii :=
  match fuel with
  | O => []
  | S k =>
      ascii_of_N (Z.to_N (ch "0" + n mod 10)) :: (if n <? 10 then [] else dec_rev k (n / 10))
  end.
(** Twenty digits are enough for 64 bits. *)
Definition dec (n : Z) : list ascii := rev (dec_rev 20 n).

Definition prio (e : ast) : Z :=
  match e with Lit _ | Reg _ => 0 | Un _ _ => 2 | Bin b _ _ => bin_prior b end.

Definition lpar : Token := mkToken (ch "(") [].
Definition rpar : Token := mkToken (ch ")") [].

Definition bracket (k : Z) (e : ast) (body : list Token) : list Token :=
  if prio e <=? k then body else lpar :: body ++ [rpar].

(** [print k e]: [e] where operators of priority at most [k] need no brackets.
    The operand of a prefix operator is bracketed unless it is atomic. *)
Fixpoint print (k : Z) (e : ast) : list Token :=
  bracket k e
    match e with
    | Lit n => [mkToken NUM (dec n)]
    | Reg r => [mkToken REG (String.list_ascii_of_string r)]
    | Un u e => mkToken (un_type u) [] :: print 1 e
    | Bin b l r => print (bin_prior b) l ++ mkToken (bin_type b) [] :: print (bin_prior b - 1) r
    end.

Definition top : Z := 15.

(** The depth of the calls of [eval] on [print k e]. *)
Fixpoint height (k : Z) (e : ast) : nat :=
  ((if (prio e <=? k)%Z then 0 else 1) +
   match e with
   | Lit _ | Reg _ => 1
   | Un _ e => S (height 1 e)
   | Bin b l r => S (Nat.max (height (bin_prior b) l) (height (bin_prior b - 1) r))
   end)%nat.

(** Literals are 64-bit words. *)
Fixpoint lits_ok (e : ast) : bool :=
  match e with
  | Lit n => (0 <=? n) && (n <? 2 ^ 64)
  | Reg _ => true
  | Un _ e => lits_ok e
  | Bin _ l r => lits_ok l && lits_ok r
  end.

(** ** Evaluation of a printed tree *)

Lemma apply_bin b x y v m : bin_sem b x y = Some v ->
  (y =? 0) && ((bin_type b =? ch "/") || (bin_type b =? ch "%")) = false /\
  apply_op (bin_type b) x y m = Ok (v, m).
Proof.
  intros H. destruct b; cbn in H; cbn; simplify_eq; rewrite ?andb_false_r; try done.
  - destruct (y =? 0); by simplify_eq.
  - destruct (y =? 0); by simplify_eq.
  - split; [done |]. change (apply_op LS x y m) with (v ← shl64 x y; Ok (v, m)).
    unfold shl64. destruct ((0 <=? y) && (y <? 64)) eqn:E; simplify_eq.
    rewrite Z.shiftl_mul_pow2 by lia. done.
  - split; [done |]. change (apply_op RS x y m) with (v ← shr64 x y; Ok (v, m)).
    unfold shr64. destruct ((0 <=? y) && (y <? 64)) eqn:E; simplify_eq.
    rewrite Z.shiftr_div_pow2 by lia. done.
Qed.

Lemma bracket_body k e body : prio e <= k -> bracket k e body = body.
Proof. intros H. unfold bracket. by rewrite (proj2 (Z.leb_le _ _) H). Qed.

Lemma bal_bracket P k e body : bal (fun _ => True) body -> (prio e <= k -> bal P body) ->
  bal P (bracket k e body).
Proof.
  intros Ha HP. unfold bracket. case_if; [apply HP; lia |].
  by apply (bal_par P lpar body rpar []); [done.. | constructor].
Qed.

Lemma print_bal k e : 0 <= k -> bal (fun t => find_prior t <= k) (print k e).
Proof.
  assert (Hone : forall P t, not_bracket (type t) -> P (type t) -> bal P [t])
    by (intros; apply bal_tok; [done.. | constructor]).
  revert k. induction e as [n|r|u e IH|b l IHl r IHr]; intros k Hk; cbn [print].
  - apply bal_bracket; [| intros _]; apply Hone; [done | done | done | change (-1 <= k); lia].
  - apply bal_bracket; [| intros _]; apply Hone; [done | done | done | change (-1 <= k); lia].
  - assert (Hn : not_bracket (un_type u)) by (by destruct u).
    apply bal_bracket; [apply bal_tok; [done.. | by eapply bal_any, IH] |].
    cbn [prio]. intros Hp. apply bal_tok; [done | cbn [type]; rewrite find_prior_un; lia |].
    eapply bal_weaken; [| by apply IH]. cbn. lia.
  - assert (Hn : not_bracket (bin_type b)) by (by destruct b).
    assert (Hb : 3 <= bin_prior b) by (by destruct b).
    specialize (IHl (bin_prior b) ltac:(lia)). specialize (IHr (bin_prior b - 1) ltac:(lia)).
    apply bal_bracket.
    + apply bal_app; [by eapply bal_any |]. apply bal_tok; [done.. | by eapply bal_any].
    + cbn [prio]. intros Hp. apply bal_app; [eapply bal_weaken, IHl; cbn; lia |].
      apply bal_tok; [done | cbn [type]; rewrite find_prior_bin; lia |]. eapply bal_weaken, IHr; cbn; lia.
Qed.

(** The operator found is the one of the given priority, when nothing of a
    higher number stands outside brackets and nothing of its own to its right. *)
Lemma find_op_at toks p q op k :
  (forall prior, k < prior -> os toks p prior q = None) -> os toks p k q = Some op ->
  1 <= k <= MAX_PRIOR -> find_op toks p q (Z.to_nat MAX_PRIOR) = op.
Proof.
  intros Hno Hk Hr. assert (H : forall n : nat, k <= Z.of_nat n -> find_op toks p q n = op).
  { induction n as [|n IH]; intros Hn; [lia |]. cbn [find_op].
    rewrite op_scan_fuel by lia.
    destruct (decide (k = Z.of_nat (S n))) as [->|Hne]; [by rewrite Hk |].
    rewrite Hno by lia. apply IH. lia. }
  apply H. unfold MAX_PRIOR in *. lia.
Qed.

Lemma os_before toks p prior : os toks p prior (p - 1) = None.
Proof. unfold os. by replace (Z.to_nat (p - 1 - p + 1)) with 0%nat by lia. Qed.

(** The split of [l ++ op :: r]. *)
Lemma find_op_split toks p k l t r :
  seg toks p (l ++ t :: r) -> find_prior (type t) = k -> 1 <= k <= MAX_PRIOR ->
  type t <> ch ")" -> bal (fun t => find_prior t <= k) l -> bal (fun t => find_prior t <= k - 1) r ->
  find_op toks p (p + zlen (l ++ t :: r) - 1) (Z.to_nat MAX_PRIOR) = p + zlen l.
Proof.
  intros Hs Hk Hr Ht Hl Hb. apply seg_app in Hs as [Hsl Hs]. apply seg_cons in Hs as [Hst Hsr].
  pose proof (seg_pos _ _ _ Hsl). apply seg_one in Hst as [_ Hst].
  rewrite zlen_app, zlen_cons.
  replace (p + (zlen l + (zlen r + 1)) - 1) with (p + zlen l + 1 + zlen r - 1) by lia.
  assert (Hop : forall prior, k <= prior -> os toks p prior (p + zlen l + 1 + zlen r - 1) =
    if prior =? k then Some (p + zlen l) else os toks p prior (p + zlen l - 1)).
  { intros prior Hp. rewrite (os_bal _ toks p prior _ r Hb); [| cbn; lia | done | unfold zlen; lia].
    replace (p + zlen l + 1 - 1) with (p + zlen l) by lia. rewrite os_step by (unfold zlen; lia).
    unfold ty. rewrite Hst, Hk. apply Z.eqb_neq in Ht. by rewrite Ht. }
  apply (find_op_at _ _ _ _ k); [| by rewrite Hop, Z.eqb_refl by lia | done].
  intros prior Hp. rewrite Hop by lia. rewrite (proj2 (Z.eqb_neq prior k)) by lia.
  rewrite (os_bal _ toks p prior _ l Hl); [apply os_before | cbn; lia | done | lia].
Qed.

Lemma seg_last toks p x c : seg toks p (x ++ [c]) -> arr toks (p + zlen (x ++ [c]) - 1) = c.
Proof.
  intros H. apply seg_app in H as [_ H]. apply seg_one in H as [_ H]. rewrite zlen_app.
  change (zlen [c]) with 1. by replace (p + (zlen x + 1) - 1) with (p + zlen x) by lia.
Qed.

(** The bracket test fails on [l ++ op :: r]: a bracket that opens [l] closes
    inside [l]. *)
Lemma check_split toks p P Q l t r :
  seg toks p (l ++ t :: r) -> not_bracket (type t) -> bal P l -> bal Q r -> l <> [] -> r <> [] ->
  check_parentheses toks p (p + zlen (l ++ t :: r) - 1) = false.
Proof.
  intros Hs Ht Hl Hr Hnl Hnr. unfold check_parentheses. case_if; [| done].
  apply andb_true_iff in E as [Eo Ec]. apply Z.eqb_eq in Eo, Ec.
  destruct l as [|o l]; [done |]. destruct (exists_last Hnr) as (r' & c & ->).
  assert (Hc : type c = ch ")").
  { replace ((o :: l) ++ t :: r' ++ [c]) with ((o :: l ++ t :: r') ++ [c]) in *
      by (cbn; by rewrite <- app_assoc).
    unfold ty in Ec. by rewrite (seg_last _ _ _ _ Hs) in Ec. }
  cbn [app] in Hs. apply seg_cons in Hs as [Ho Hs]. apply seg_one in Ho as [Hp Ho].
  unfold ty in Eo. rewrite Ho in Eo.
  assert (Hd : exists a d b, l = a ++ d :: b /\ type d = ch ")" /\ bal (fun _ => True) a /\ bal P b).
  { inversion Hl as [| ? ? ? [Hne _] | ? ? a d b ? Hd Ha Hb]; subst; [done | by exists a, d, b]. }
  destruct Hd as (a & d & b & -> & Hd & Ha & Hb).
  destruct (bal_last _ _ _ Hr Hc) as (f & o' & a' & -> & Ho' & Hf & Ha').
  replace ((o :: a ++ d :: b) ++ t :: (f ++ o' :: a') ++ [c])
    with (o :: (a ++ d :: b ++ t :: f ++ o' :: a') ++ [c]) by (by list_simplifier).
  replace ((a ++ d :: b) ++ t :: (f ++ o' :: a') ++ [c])
    with ((a ++ d :: b ++ t :: f ++ o' :: a') ++ [c]) in Hs by (by list_simplifier).
  apply seg_app in Hs as [Hs _]. remember (a ++ d :: b ++ t :: f ++ o' :: a') as x eqn:Ex.
  rewrite zlen_cons, zlen_app. change (zlen [c]) with 1.
  replace (p + (zlen x + 1 + 1) - 1 - 1 - p) with (zlen x) by lia.
  replace (p + (zlen x + 1 + 1) - 1 - 1) with (p + 1 + zlen x - 1) by lia.
  unfold zlen at 1. rewrite Nat2Z.id, (match_loop_seg _ _ _ _ Hs), Ex.
  change (d :: b ++ t :: f ++ o' :: a') with ([d] ++ b ++ [t] ++ f ++ [o'] ++ a').
  rewrite !mcount_app, (mcount_bal _ a') by (done || lia).
  change (mcount [o'] 0) with (mstep o' 0). rewrite mstep_open by done. change (0 `max` (0 - 1)) with 0.
  rewrite (mcount_bal _ f) by (done || lia).
  change (mcount [t] 0) with (mstep t 0). rewrite mstep_plain by done.
  rewrite (mcount_bal _ b) by (done || lia).
  change (mcount [d] 0) with (mstep d 0). rewrite mstep_close by done.
  by rewrite (mcount_bal _ a) by (done || lia).
Qed.

Lemma check_bracketed toks p body :
  seg toks p (lpar :: body ++ [rpar]) -> bal (fun _ => True) body ->
  check_parentheses toks p (p + zlen (lpar :: body ++ [rpar]) - 1) = true.
Proof.
  intros Hs Hb. apply seg_cons in Hs as [Ho Hs]. apply seg_app in Hs as [Hs Hc].
  apply seg_one in Ho as [_ Ho], Hc as [_ Hc]. rewrite zlen_cons, zlen_app. change (zlen [rpar]) with 1.
  replace (p + (zlen body + 1 + 1) - 1) with (p + 1 + zlen body) by lia.
  unfold check_parentheses, ty. rewrite Ho, Hc. cbn [type lpar rpar andb Z.eqb].
  change (ch "(" =? ch "(") with true. change (ch ")" =? ch ")") with true. cbn [andb].
  replace (p + 1 + zlen body - 1 - p) with (zlen body) by lia.
  unfold zlen at 1. rewrite Nat2Z.id, (match_loop_seg _ _ _ _ Hs).
  by rewrite (mcount_bal _ _ _ Hb).
Qed.


(** Digits of a literal. *)
Lemma digit_val_of n : 0 <= n < 10 -> digit_val (ascii_of_N (Z.to_N (ch "0" + n))) = n.
Proof.
  intros H. assert (Hn : n ∈ seqZ_from 0 10) by (apply elem_of_seqZ_from; lia).
  clear H. cbn [seqZ_from Z.add Pos.add Pos.succ] in Hn. elem_cases Hn; reflexivity.
Qed.

Lemma numeral_dec n : 0 <= n < 2 ^ 64 -> numeral 10 (dec n) = n.
Proof.
  intros Hn. unfold dec.
  assert (H : forall k n, 0 <= n < 10 ^ Z.of_nat k -> (0 < k)%nat -> numeral 10 (rev (dec_rev k n)) = n).
  { clear. induction k as [|k IH]; intros n Hn Hk; [lia |]. cbn [dec_rev rev].
    assert (0 <= n mod 10 < 10) by (apply Z.mod_pos_bound; lia).
    unfold numeral in *. rewrite foldl_app. cbn [foldl].
    rewrite digit_val_of by done. pose proof (Z.div_mod n 10 ltac:(lia)) as Hdm.
    case_if.
    - cbn [rev foldl]. rewrite Z.mod_small; lia.
    - rewrite IH; [lia | |].
      + rewrite Nat2Z.inj_succ, Z.pow_succ_r in Hn by lia.
        split; [apply Z.div_pos; lia | apply Z.div_lt_upper_bound; lia].
      + destruct k; [change (10 ^ Z.of_nat 1) with 10 in Hn; lia | lia]. }
  apply H; [| lia]. change (10 ^ Z.of_nat 20) with 100000000000000000000. lia.
Qed.

Lemma print_nonempty k e : print k e <> [].
Proof.
  destruct e; cbn [print]; unfold bracket; case_if; try done. by destruct (print _ e1).
Qed.

Lemma zlen_pos {A} (l : list A) : l <> [] -> 1 <= zlen l.
Proof. destruct l; [done |]. rewrite zlen_cons. unfold zlen. lia. Qed.

Lemma height_pos k e : (1 <= height k e)%nat.
Proof. destruct e; cbn [height]; lia. Qed.

(** The cases of [eval] on more than one token. *)
Lemma eval_inner toks togo p q m : p < q -> check_parentheses toks p q = true ->
  eval toks (S togo) p q true m = eval toks togo (p + 1) (q - 1) true m.
Proof.
  intros Hlt Hc. cbn [eval negb].
  rewrite (proj2 (Z.ltb_ge q p)), (proj2 (Z.eqb_neq p q)) by lia. by rewrite Hc.
Qed.

Lemma eval_split toks togo p q op m : p < q -> check_parentheses toks p q = false ->
  find_op toks p q (Z.to_nat MAX_PRIOR) = op -> 0 <= op ->
  eval toks (S togo) p q true m =
    ('(val1, success, m) ← eval toks togo p (op - 1) true m;
     '(val2, success, m) ← eval toks togo (op + 1) q success m;
     if (val2 =? 0) && ((ty toks op =? ch "/") || (ty toks op =? ch "%")) then Ok (FAILED, false, m)
     else '(v, m) ← apply_op (ty toks op) val1 val2 m; Ok (v, success, m)).
Proof.
  intros Hlt Hc Hop H0. cbn [eval negb].
  rewrite (proj2 (Z.ltb_ge q p)), (proj2 (Z.eqb_neq p q)) by lia. rewrite Hc, Hop.
  by rewrite (proj2 (Z.leb_le 0 op)) by lia.
Qed.

(** What evaluation of [e] at a level must give. *)
Definition evaluates (toks : list Token) (togo : nat) (p : Z) (l : list Token) (m : Mach)
    (r : Z * Mach) : Prop :=
  eval toks togo p (p + zlen l - 1) true m = Ok (r.1, true, r.2).

Lemma evaluates_bracket toks h togo p k e body m r :
  seg toks p (bracket k e body) -> bal (fun _ => True) body ->
  (forall togo p, (h <= togo)%nat -> seg toks p body -> evaluates toks togo p body m r) ->
  ((if (prio e <=? k)%Z then 0 else 1) + h <= togo)%nat ->
  evaluates toks togo p (bracket k e body) m r.
Proof.
  intros Hs Hb Hbody Hh. unfold bracket in *. destruct (prio e <=? k); [by apply Hbody |].
  destruct togo as [|togo]; [lia |]. unfold evaluates. pose proof (check_bracketed _ _ _ Hs Hb) as Hc.
  apply seg_cons in Hs as [_ Hs]. apply seg_app in Hs as [Hs _].
  specialize (Hbody togo (p + 1) ltac:(lia) Hs). unfold evaluates in Hbody. rewrite <- Hbody.
  set (q := p + zlen (lpar :: body ++ [rpar]) - 1) in *.
  assert (Hq : q = p + 1 + zlen body).
  { unfold q. rewrite zlen_cons, zlen_app. change (zlen [rpar]) with 1. lia. }
  assert (0 <= zlen body) by (unfold zlen; lia).
  replace (p + 1 + zlen body - 1) with (q - 1) by lia. apply eval_inner; [lia | done].
Qed.

Lemma evaluates_atom toks togo p t m r : (1 <= togo)%nat -> seg toks p [t] ->
  eval_atom t true m = Ok (r.1, true, r.2) -> evaluates toks togo p [t] m r.
Proof.
  intros Hh Hs Ht. apply seg_one in Hs as [_ Hs]. destruct togo as [|togo]; [lia |].
  unfold evaluates. change (zlen [t]) with 1. replace (p + 1 - 1) with p by lia. cbn [eval negb].
  by rewrite Z.ltb_irrefl, Z.eqb_refl, Hs.
Qed.

Lemma eval_empty toks togo p m : (1 <= togo)%nat -> eval toks togo p (p - 1) true m = Ok (0, true, m).
Proof.
  intros Hh. destruct togo as [|togo]; [lia |]. cbn [eval negb].
  by rewrite (proj2 (Z.ltb_lt (p - 1) p)) by lia.
Qed.

Lemma eval_un toks togo p u l m r v : (S togo >= 2)%nat -> seg toks p (mkToken (un_type u) [] :: l) ->
  l <> [] -> bal (fun t => find_prior t <= 1) l ->
  evaluates toks togo (p + 1) l m v ->
  apply_op (un_type u) 0 v.1 v.2 = Ok r ->
  evaluates toks (S togo) p (mkToken (un_type u) [] :: l) m r.
Proof.
  intros Hh Hs Hne Hb Hl Hr. pose proof (zlen_pos _ Hne). unfold evaluates.
  assert (Hop : find_op toks p (p + zlen (mkToken (un_type u) [] :: l) - 1) (Z.to_nat MAX_PRIOR) = p).
  { transitivity (p + zlen (A:=Token) []); [| unfold zlen; cbn; lia].
    apply (find_op_split toks p 2 [] _ l Hs); try done; [apply find_prior_un | by destruct u | constructor]. }
  pose proof Hs as Hs'. apply seg_cons in Hs' as [Ht _]. apply seg_one in Ht as [Hp Ht].
  rewrite (eval_split toks togo p _ p m); [| rewrite zlen_cons; lia | | done | done].
  2: { unfold check_parentheses, ty. rewrite Ht. by destruct u. }
  rewrite eval_empty by lia. cbn [mbind Res_bind].
  unfold evaluates in Hl. rewrite zlen_cons. replace (p + (zlen l + 1) - 1) with (p + 1 + zlen l - 1) by lia.
  rewrite Hl. cbn [mbind Res_bind]. unfold ty. rewrite Ht. cbn [type].
  replace (_ && _) with false by (by destruct u; rewrite andb_false_r).
  rewrite Hr. by destruct r.
Qed.

Lemma eval_bin_step toks togo p b l r m x y : seg toks p (l ++ mkToken (bin_type b) [] :: r) ->
  l <> [] -> r <> [] -> bal (fun t => find_prior t <= bin_prior b) l ->
  bal (fun t => find_prior t <= bin_prior b - 1) r ->
  evaluates toks togo p l m x -> evaluates toks togo (p + zlen l + 1) r x.2 y ->
  eval toks (S togo) p (p + zlen (l ++ mkToken (bin_type b) [] :: r) - 1) true m =
    if (y.1 =? 0) && ((bin_type b =? ch "/") || (bin_type b =? ch "%")) then Ok (FAILED, false, y.2)
    else '(v, m) ← apply_op (bin_type b) x.1 y.1 y.2; Ok (v, true, m).
Proof.
  intros Hs Hnl Hnr Hl Hr El Er. pose proof (zlen_pos _ Hnl). pose proof (zlen_pos _ Hnr).
  assert (Hn : not_bracket (bin_type b)) by (by destruct b).
  assert (Hop := find_op_split toks p (bin_prior b) l _ r Hs (find_prior_bin b)).
  assert (Hc := check_split toks p _ _ l _ r Hs Hn Hl Hr Hnl Hnr).
  pose proof (seg_pos _ _ _ Hs). unfold evaluates in *.
  rewrite (eval_split toks togo p _ (p + zlen l) m); [| rewrite zlen_app, zlen_cons; lia | done | | lia].
  2: { apply Hop; [by destruct b | by destruct b | done | done]. }
  rewrite El. cbn [mbind Res_bind].
  replace (p + zlen (l ++ mkToken (bin_type b) [] :: r) - 1) with (p + zlen l + 1 + zlen r - 1)
    by (rewrite zlen_app, zlen_cons; lia).
  rewrite Er. cbn [mbind Res_bind].
  apply seg_app in Hs as [_ Hs]. apply seg_cons in Hs as [Ht _]. apply seg_one in Ht as [_ Ht].
  unfold ty. by rewrite Ht.
Qed.

(** The evaluator computes the meaning of a printed tree. *)
Lemma eval_print e toks k togo p m r : 0 <= k -> lits_ok e = true -> meaning e m = Some r ->
  seg toks p (print k e) -> (height k e <= togo)%nat -> evaluates toks togo p (print k e) m r.
Proof.
  revert k togo p m r. induction e as [n|s|u e IH|b l IHl r IHr];
    intros k togo p m v Hk Hlit Hm Hs Hh; cbn [print height meaning lits_ok] in *.
  - rewrite bracket_body in * by done. apply evaluates_atom; [lia | done |]. simplify_eq.
    unfold eval_atom. cbn [type str]. change (NUM =? NUM) with true. cbv iota.
    unfold scan_lu. rewrite numeral_dec by lia. apply andb_true_iff in Hlit as [_ ->]. done.
  - rewrite bracket_body in * by done. apply evaluates_atom; [lia | done |].
    unfold eval_atom. cbn [type str]. change (REG =? NUM) with false. change (REG =? REG) with true. cbv iota.
    rewrite String.string_of_list_ascii_of_string.
    destruct (reg_str2val s (cpu m)) as [x []]; by simplify_eq.
  - destruct (meaning e m) as [[x m1]|] eqn:E; [| done].
    assert (Hb := print_bal 1 e ltac:(lia)).
    eapply evaluates_bracket; [exact Hs | | | exact Hh].
    { apply bal_tok; [by destruct u | done | by eapply bal_any]. }
    intros togo' p' Hh' Hs'. destruct togo' as [|togo']; [lia |].
    pose proof (height_pos 1 e). pose proof Hs' as Hs2. apply seg_cons in Hs2 as [_ Hs2].
    apply (eval_un _ _ _ _ _ _ _ (x, m1)); [lia | done | apply print_nonempty | done | |].
    + apply IH; [done.. | lia].
    + cbn [fst snd]. destruct u; simplify_eq; try done.
      change (apply_op (un_type U_deref) 0 x m1) with (vaddr_read x 8 m1).
      destruct (vaddr_read x 8 m1); by simplify_eq.
  - destruct (meaning l m) as [[x m1]|] eqn:El; [| done].
    destruct (meaning r m1) as [[y m2]|] eqn:Er; [| done].
    destruct (bin_sem b x y) as [z|] eqn:Eb; [| done]. simplify_eq.
    assert (Hp : 3 <= bin_prior b) by (by destruct b). apply andb_true_iff in Hlit as [Hl1 Hl2].
    assert (Hbl := print_bal (bin_prior b) l ltac:(lia)).
    assert (Hbr := print_bal (bin_prior b - 1) r ltac:(lia)).
    eapply evaluates_bracket; [exact Hs | | | exact Hh].
    { apply bal_app; [by eapply bal_any |]. apply bal_tok; [by destruct b | done | by eapply bal_any]. }
    intros togo' p' Hh' Hs'. destruct togo' as [|togo']; [lia |].
    pose proof Hs' as Hs2. apply seg_app in Hs2 as [Hsl Hs2]. apply seg_cons in Hs2 as [_ Hs2].
    unfold evaluates. rewrite (eval_bin_step toks togo' p' b _ _ m (x, m1) (y, m2)); try done;
      try apply print_nonempty.
    + cbn [fst snd]. by destruct (apply_bin b x y z m2 Eb) as [-> ->].
    + apply IHl; [lia | done.. | lia].
    + apply IHr; [lia | done.. | lia].
Qed.

(** A division by zero at the root is reported. *)
Lemma eval_print_div0 b l r toks m x m1 m2 togo : b = B_div \/ b = B_rem ->
  lits_ok (Bin b l r) = true -> meaning l m = Some (x, m1) -> meaning r m1 = Some (0, m2) ->
  seg toks 0 (print top (Bin b l r)) -> (height top (Bin b l r) <= togo)%nat ->
  eval toks togo 0 (zlen (print top (Bin b l r)) - 1) true m = Ok (FAILED, false, m2).
Proof.
  intros Hb Hlit Hl Hr Hs Hh. cbn [lits_ok] in Hlit. apply andb_true_iff in Hlit as [Hl1 Hl2].
  assert (Hp : bin_prior b = 3) by (by destruct Hb; subst).
  cbn [print height] in *. rewrite bracket_body in * by (cbn; rewrite Hp; done).
  rewrite (proj2 (Z.leb_le _ _)) in Hh by (cbn [prio]; rewrite Hp; done).
  destruct togo as [|togo]; [lia |].
  pose proof Hs as Hs2. apply seg_app in Hs2 as [Hsl Hs2]. apply seg_cons in Hs2 as [_ Hs2].
  etransitivity; [apply (eval_bin_step toks togo 0 b (print (bin_prior b) l) _ m (x, m1) (0, m2) Hs) |].
  - apply print_nonempty.
  - apply print_nonempty.
  - apply print_bal. lia.
  - apply print_bal. lia.
  - apply eval_print; [lia | done.. | lia].
  - apply eval_print; [lia | done.. | lia].
  - cbn [fst snd]. by destruct Hb; subst.
Qed.
