(* ===== verification/ExprLex.v ===== *)
(** * From text to tokens: the tokeniser on printed expressions

    Tokens written one after the other, each followed by a blank, are read
    back by [make_token]; the marking of dereferences restores their types.
    With the evaluator's theorem this gives the meaning of [expr] on text. *)

From S2P Require Import Prelude Word State Pmp Csr Cache Mmio Mem Ftrace Vmem VmemSpec Decode Ir Exec Regex Expr ExprSpec.
From Stdlib Require Import Ascii.

(** ** Matching a known prefix

    When every rule has either failed or can go no further after [s], the rest
    of the text does not matter. *)

Fixpoint consume (r : regex) (s : list ascii) (n : nat) (best : option nat) : regex * option nat :=
  match s with
  | [] => (r, best)
  | c :: s => consume (deriv c r) s (S n) (if nullable r then Some n else best)
  end.

Lemma longest_from_app r s rest n best :
  longest_from r (s ++ rest) n best =
  longest_from (consume r s n best).1 rest (n + length s) (consume r s n best).2.
Proof.
  revert r n best. induction s as [|c s IH]; intros r n best; cbn [app consume length].
  - by rewrite Nat.add_0_r.
  - rewrite longest_from_cons, IH. f_equal. lia.
Qed.

Fixpoint first_closed (rs : list (regex * Z)) (s : list ascii) : option (Z * nat) :=
  match rs with
  | [] => None
  | (r, t) :: rs =>
      match consume r s 0 None with
      | (Emp, Some n) => Some (t, n)
      | (Emp, None) => first_closed rs s
      | _ => None
      end
  end.

Lemma first_closed_ok rs s rest res :
  first_closed rs s = Some res -> first_rule rs (s ++ rest) = Some res.
Proof.
  induction rs as [|[r t] rs IH]; [done |]. cbn [first_closed first_rule]. intros H.
  unfold longest. rewrite longest_from_app.
  destruct (consume r s 0 None) as [[] [n|]]; try done; cbn [fst snd]; rewrite longest_from_Emp.
  - done.
  - by apply IH.
Qed.

(** No rule of [rs] matches a text that starts with [s]. *)
Fixpoint all_closed (rs : list (regex * Z)) (s : list ascii) : bool :=
  match rs with
  | [] => true
  | (r, _) :: rs => match consume r s 0 None with (Emp, None) => all_closed rs s | _ => false end
  end.

Lemma first_rule_skip rs rs' s rest :
  all_closed rs s = true -> first_rule (rs ++ rs') (s ++ rest) = first_rule rs' (s ++ rest).
Proof.
  induction rs as [|[r t] rs IH]; [done |]. cbn [all_closed first_rule app]. intros H.
  unfold longest at 1. rewrite longest_from_app.
  destruct (consume r s 0 None) as [[] [n|]]; try done. cbn [fst snd]. rewrite longest_from_Emp. by apply IH.
Qed.

(** A run of a character class is matched whole. *)
Definition stops (f : ascii -> bool) (rest : list ascii) : Prop :=
  match rest with [] => True | c :: _ => f c = false end.

Lemma longest_star f s rest n best : Forall (fun c => f c = true) s -> stops f rest ->
  longest_from (Star (Cls f)) (s ++ rest) n best = Some (n + length s)%nat.
Proof.
  intros Hs. revert n best. induction Hs as [|c s Hc _ IH]; intros n best Hr; cbn [app].
  - destruct rest as [|c rest].
    + rewrite longest_from_nil. cbn. f_equal. lia.
    + rewrite longest_from_cons. cbn in Hr. cbn [deriv nullable]. rewrite Hr. cbn [mkCat].
      rewrite longest_from_Emp. f_equal. cbn. lia.
  - rewrite longest_from_cons. cbn [deriv nullable]. rewrite Hc. cbn [mkCat]. rewrite IH by done.
    f_equal. cbn. lia.
Qed.

Lemma longest_plus f s rest : s <> [] -> Forall (fun c => f c = true) s -> stops f rest ->
  longest (plus f) (s ++ rest) = Some (length s).
Proof.
  intros Hne Hs Hr. destruct Hs as [|c s Hc Hs]; [done |]. unfold longest, plus. cbn [app].
  rewrite longest_from_cons. cbn [deriv nullable]. rewrite Hc. cbn [mkCat].
  rewrite longest_star by done. f_equal.
Qed.

(** ** The text of a token *)

(** Registers whose names the rules read in one piece: [s10] and [s11] are not
    among them, the rule for [s0] and [s1] comes first. *)
Definition lex_regs : list string :=
  [ "$0"; "ra"; "sp"; "gp"; "tp"; "t0"; "t1"; "t2"; "s0"; "s1"; "a0"; "a1"; "a2"; "a3"; "a4"; "a5";
    "a6"; "a7"; "s2"; "s3"; "s4"; "s5"; "s6"; "s7"; "s8"; "s9"; "t3"; "t4"; "t5"; "t6"; "pc" ]%string.

(** Operators and brackets with their spelling; a dereference is written as a
    multiplication. *)
Definition spelling : list (Z * string) :=
  [ (EQ, "=="); (NEQ, "!="); (LS, "<<"); (RS, ">>"); (NG, "<="); (NL, ">="); (AND, "&&"); (OR, "||");
    (ch "+", "+"); (ch "-", "-"); (ch "*", "*"); (ch "/", "/"); (ch "%", "%"); (ch "(", "(");
    (ch ")", ")"); (ch ">", ">"); (ch "<", "<"); (ch "&", "&"); (ch "|", "|"); (ch "!", "!");
    (ch "~", "~"); (DEREF, "*") ]%string.

Fixpoint spell (tab : list (Z * string)) (t : Z) : string :=
  match tab with
  | [] => ""%string
  | (u, s) :: tab => if u =? t then s else spell tab t
  end.

Definition text (t : Token) : list ascii :=
  if has_text (type t) then str t else String.list_ascii_of_string (spell spelling (type t)).

(** The token that the tokeniser makes of it. *)
Definition raw (t : Token) : Token := if type t =? DEREF then mkToken (ch "*") (str t) else t.

Definition render (toks : list Token) : list ascii := flat_map (fun t => text t ++ [" "%char]) toks.

(** Tokens of printed trees. *)
Inductive lexable : Token -> Prop :=
  | lex_num s : s <> [] -> (length s < 64)%nat -> Forall (fun c => digit c = true) s ->
      lexable (mkToken NUM s)
  | lex_reg r : r ∈ lex_regs -> lexable (mkToken REG (String.list_ascii_of_string r))
  | lex_op t s : (t, s) ∈ spelling -> lexable (mkToken t []).

(** ** One lexeme *)

Definition blank : ascii := " ".

Definition lexeme_ok (t : Z) (s : list ascii) : bool :=
  match first_closed rules (s ++ [blank]) with
  | Some (u, n) => (u =? t) && (n =? length s)%nat
  | None => false
  end.

Lemma lexeme_ok_rule t s rest :
  lexeme_ok t s = true -> first_rule rules (s ++ blank :: rest) = Some (t, length s).
Proof.
  intros H. unfold lexeme_ok in H. destruct (first_closed _ _) as [[u n]|] eqn:E; [| done].
  replace (s ++ blank :: rest) with ((s ++ [blank]) ++ rest) by (by rewrite <- app_assoc).
  rewrite (first_closed_ok _ _ _ _ E). apply andb_true_iff in H as [?%Z.eqb_eq ?%Nat.eqb_eq]. by subst.
Qed.

Lemma regs_lex : forallb (fun r => lexeme_ok REG (String.list_ascii_of_string r)) lex_regs = true.
Proof. reflexivity. Qed.

Lemma ops_lex : forallb (fun '(t, s) =>
  lexeme_ok (if t =? DEREF then ch "*" else t) (String.list_ascii_of_string s)) spelling = true.
Proof. reflexivity. Qed.

Definition digits : list ascii := ["0"; "1"; "2"; "3"; "4"; "5"; "6"; "7"; "8"; "9"]%char.

Lemma digit_cases c : digit c = true -> c ∈ digits.
Proof.
  assert (H : forall b0 b1 b2 b3 b4 b5 b6 b7 : bool, let c := Ascii b0 b1 b2 b3 b4 b5 b6 b7 in
    implb (digit c) (bool_decide (c ∈ digits)) = true)
    by (intros [] [] [] [] [] [] [] []; reflexivity).
  intros Hc. destruct c as [b0 b1 b2 b3 b4 b5 b6 b7].
  specialize (H b0 b1 b2 b3 b4 b5 b6 b7). cbv zeta in H. rewrite Hc in H. cbn in H.
  by apply bool_decide_eq_true_1 in H.
Qed.

Lemma before_num : forallb (fun c => forallb (fun d => all_closed (take 4 rules) [c; d]) (blank :: digits)) digits = true.
Proof. reflexivity. Qed.

Lemma num_rule s rest : s <> [] -> Forall (fun c => digit c = true) s ->
  first_rule rules (s ++ blank :: rest) = Some (NUM, length s).
Proof.
  intros Hne Hs.
  assert (Hsplit : exists c d tl, s ++ blank :: rest = [c; d] ++ tl /\ c ∈ digits /\ d ∈ blank :: digits).
  { destruct Hs as [|c s Hc Hs]; [done |]. apply digit_cases in Hc.
    destruct Hs as [|d s Hd Hs]; [by exists c, blank, rest; split_and!; [| | apply list_elem_of_here] |].
    apply digit_cases in Hd. exists c, d, (s ++ blank :: rest). by split_and!; [| | apply list_elem_of_further]. }
  destruct Hsplit as (c & d & tl & E & Hc & Hd).
  change rules with (take 4 rules ++ (plus digit, NUM) :: drop 5 rules).
  rewrite E, first_rule_skip, <- E.
  - cbn [first_rule]. by rewrite longest_plus.
  - pose proof before_num as H. rewrite forallb_forall in H. specialize (H c (proj1 (list_elem_of_In _ _) Hc)).
    rewrite forallb_forall in H. by apply H, list_elem_of_In.
Qed.

Lemma blank_rule rest : stops (Ascii.eqb blank) rest -> first_rule rules (blank :: rest) = Some (NOTYPE, 1%nat).
Proof.
  intros H. change (first_rule rules (blank :: rest)) with
    (match longest (plus (Ascii.eqb blank)) ([blank] ++ rest) with
     | Some n => Some (NOTYPE, n) | None => first_rule (tail rules) (blank :: rest) end).
  by rewrite (longest_plus (Ascii.eqb blank) [blank] rest); [| | repeat constructor |].
Qed.

(** ** The whole text *)

Lemma scan_skip a b : scan (a ++ b) (length a) = scan b 0.
Proof. induction a as [|c a IH]; [done |]. cbn. apply IH. Qed.

Lemma scan_rule s rest t tok :
  s <> [] -> first_rule rules (s ++ rest) = Some (t, length s) -> token_of t s = Ok tok ->
  scan (s ++ rest) 0 = (r ← scan rest 0; Ok (option_map (app tok) r)).
Proof.
  intros Hne Hr Ht. destruct s as [|c s]; [done |].
  cbn [app scan]. cbn [app] in Hr. rewrite Hr. cbn [length Nat.pred].
  rewrite firstn_cons, firstn_app, Nat.sub_diag, firstn_all, firstn_O, app_nil_r, Ht.
  cbn [mbind Res_bind]. by rewrite scan_skip.
Qed.

Lemma text_rule t rest : lexable t -> text t <> [] /\ stops (Ascii.eqb blank) (text t ++ rest) /\
  first_rule rules (text t ++ blank :: rest) = Some (type (raw t), length (text t)) /\
  token_of (type (raw t)) (text t) = Ok [raw t].
Proof.
  destruct 1 as [s Hne Hlen Hs | r Hr | t s Hts].
  - split_and!; [done | | by apply num_rule |].
    + destruct Hs as [|c s Hc Hs]; [done |]. cbn. apply digit_cases in Hc.
      clear -Hc. revert c Hc. apply Forall_forall. repeat constructor.
    + unfold text, token_of. cbn [type str raw]. cbn. rewrite (proj2 (Z.ltb_lt _ 64)) by lia. done.
  - assert (H := regs_lex). rewrite forallb_forall in H.
    assert (Hl := H r (proj1 (list_elem_of_In _ _) Hr)).
    unfold text, raw. cbn [type str]. change (REG =? DEREF) with false. change (has_text REG) with true. cbv iota.
    assert (Hc : forall r, r ∈ lex_regs -> let s := String.list_ascii_of_string r in
      s <> [] /\ stops (Ascii.eqb blank) (s ++ rest) /\ token_of REG s = Ok [mkToken REG s]).
    { apply Forall_forall. repeat constructor; done. }
    destruct (Hc r Hr) as (? & ? & ?). split_and!; try done. by apply lexeme_ok_rule.
  - assert (H := ops_lex). rewrite forallb_forall in H.
    assert (Hl := H (t, s) (proj1 (list_elem_of_In _ _) Hts)). cbn beta iota in Hl.
    assert (Hc : forall ts, ts ∈ spelling -> let tk := mkToken ts.1 [] in
      text tk = String.list_ascii_of_string ts.2 /\ text tk <> [] /\ stops (Ascii.eqb blank) (text tk ++ rest) /\
      type (raw tk) = (if ts.1 =? DEREF then ch "*" else ts.1) /\ token_of (type (raw tk)) (text tk) = Ok [raw tk]).
    { apply Forall_forall. repeat constructor; done. }
    destruct (Hc _ Hts) as (Et & ? & ? & Er & ?). cbn [fst snd] in *.
    split_and!; try done. rewrite Er, Et. by apply lexeme_ok_rule.
Qed.

Lemma scan_render toks : Forall lexable toks -> scan (render toks) 0 = Ok (Some (raw <$> toks)).
Proof.
  induction 1 as [|t toks Ht Hts IH]; [done |].
  assert (Hstop : stops (Ascii.eqb blank) (render toks)).
  { destruct Hts as [|u toks Hu _]; [done |]. cbn. rewrite <- app_assoc. by apply text_rule. }
  change (render (t :: toks)) with ((text t ++ [blank]) ++ render toks). rewrite <- app_assoc. cbn [app].
  destruct (text_rule t (render toks) Ht) as (Hne & _ & Hr & Htok).
  rewrite (scan_rule _ _ _ _ Hne Hr Htok).
  change (blank :: render toks) with ([blank] ++ render toks).
  rewrite (scan_rule [blank] (render toks) NOTYPE [] ltac:(done) (blank_rule _ Hstop) eq_refl), IH.
  reflexivity.
Qed.

(** ** Dereferences *)

Definition judge (prev : option Z) : bool := match prev with None => true | Some p => operator_judge p end.

(** The marking restores the types of a list in which a dereference stands at
    the front or after an operator, and a multiplication does not. *)
Fixpoint marked (prev : option Z) (toks : list Token) : bool :=
  match toks with
  | [] => true
  | t :: toks =>
      (if type t =? DEREF then judge prev else if type t =? ch "*" then negb (judge prev) else true) &&
      marked (Some (type t)) toks
  end.

Lemma mark_raw prev toks : marked prev toks = true -> mark_deref prev (raw <$> toks) = toks.
Proof.
  revert prev. induction toks as [|[t s] toks IH]; intros prev H; [done |].
  cbn [marked type] in H. apply andb_true_iff in H as [Ht H]. specialize (IH _ H).
  assert (E : (let t0 := raw (mkToken t s) in
    if (type t0 =? ch "*") && judge prev then {| t0 with type := DEREF |} else t0) = mkToken t s).
  { unfold raw. cbn [type str]. destruct (Z.eqb_spec t DEREF) as [->|Hd]; cbn [type str].
    - rewrite Ht. done.
    - destruct (t =? ch "*"); [| done]. apply negb_true_iff in Ht. by rewrite Ht. }
  cbn [fmap list_fmap mark_deref]. cbv zeta in E |- *. unfold judge in E. rewrite E. cbn [type]. by f_equal.
Qed.

(** [print k e] starts with a dereference. *)
Fixpoint starts_deref (k : Z) (e : ast) : bool :=
  (prio e <=? k) &&
  match e with
  | Un U_deref _ => true
  | Bin b l _ => starts_deref (bin_prior b) l
  | _ => false
  end.

(** No bracket of [print k e] opens before a dereference: [expr] would take
    that one for a multiplication. *)
Fixpoint deref_ok (k : Z) (e : ast) : bool :=
  ((prio e <=? k) || negb (starts_deref (prio e) e)) &&
  match e with
  | Lit _ | Reg _ => true
  | Un _ e => deref_ok 1 e
  | Bin b l r => deref_ok (bin_prior b) l && deref_ok (bin_prior b - 1) r
  end.

Lemma starts_deref_atom e : starts_deref 1 e = false.
Proof. destruct e as [| |[]|[]]; done. Qed.

(** What the marking leaves behind [l] is not an operator. *)
Definition marks (prev : option Z) (l : list Token) : Prop :=
  forall rest, exists t, operator_judge t = false /\ marked prev (l ++ rest) = marked (Some t) rest.

Lemma marks_bracket prev k e body :
  ((prio e <=? k) || negb (starts_deref (prio e) e)) = true ->
  (starts_deref k e = true -> judge prev = true) ->
  (forall prev, (starts_deref (prio e) e = true -> judge prev = true) -> marks prev body) ->
  (prio e <= k -> starts_deref k e = starts_deref (prio e) e) ->
  marks prev (bracket k e body).
Proof.
  intros Hb Hp Hbody Hsd. unfold bracket. destruct (Z.leb_spec (prio e) k) as [Hle|Hgt].
  - apply Hbody. by rewrite <- Hsd.
  - cbn [orb] in Hb. apply negb_true_iff in Hb. intros rest.
    destruct (Hbody (Some (ch "(")) ltac:(by rewrite Hb) (rpar :: rest)) as (t & Ht & E).
    exists (ch ")"). split; [done |]. cbn [app marked lpar type].
    change (ch "(" =? DEREF) with false. change (ch "(" =? ch "*") with false. cbn [andb].
    rewrite <- app_assoc. cbn [app]. rewrite E. done.
Qed.

Lemma starts_deref_level k e : prio e <= k -> starts_deref k e = starts_deref (prio e) e.
Proof.
  intros H. destruct e; cbn [starts_deref]; by rewrite Z.leb_refl, (proj2 (Z.leb_le _ _) H).
Qed.

Lemma marks_one prev t : type t <> DEREF -> type t <> ch "*" -> operator_judge (type t) = false ->
  marks prev [t].
Proof.
  intros Hd Hm Hj rest. exists (type t). split; [done |]. cbn [app marked].
  apply Z.eqb_neq in Hd, Hm. by rewrite Hd, Hm.
Qed.

Lemma print_marks k e prev : deref_ok k e = true -> (starts_deref k e = true -> judge prev = true) ->
  marks prev (print k e).
Proof.
  revert k prev. induction e as [n|r|u e IH|b l IHl r IHr]; intros k prev Hd Hs;
    cbn [deref_ok] in Hd; apply andb_true_iff in Hd as [Hb Hd]; cbn [print];
    (apply marks_bracket; [done | done | clear prev Hs; intros prev Hs | apply starts_deref_level]).
  - by apply marks_one.
  - by apply marks_one.
  - intros rest. cbn [app marked type].
    destruct (IH 1 (Some (un_type u)) Hd ltac:(by rewrite starts_deref_atom) rest) as (t & Ht & E).
    exists t. split; [done |]. rewrite E.
    destruct u; cbn [starts_deref prio] in Hs; try done. by rewrite Hs.
  - apply andb_true_iff in Hd as [Hdl Hdr]. intros rest. rewrite <- app_assoc. cbn [app].
    destruct (IHl (bin_prior b) prev Hdl) with (rest := mkToken (bin_type b) [] :: print (bin_prior b - 1) r ++ rest)
      as (t & Ht & E).
    { cbn [starts_deref prio] in Hs. by rewrite Z.leb_refl in Hs. }
    destruct (IHr (bin_prior b - 1) (Some (bin_type b)) Hdr ltac:(by destruct b) rest) as (t' & Ht' & E').
    exists t'. split; [done |]. rewrite E. cbn [marked type]. rewrite E'.
    destruct b; try done. cbn [judge]. by rewrite Ht.
Qed.

(** ** The evaluator on text *)

(** Only registers that the tokeniser reads in one piece. *)
Fixpoint regs_ok (e : ast) : bool :=
  match e with
  | Lit _ => true
  | Reg r => bool_decide (r ∈ lex_regs)
  | Un _ e => regs_ok e
  | Bin _ l r => regs_ok l && regs_ok r
  end.

Lemma dec_lexable n : lexable (mkToken NUM (dec n)).
Proof.
  assert (H : forall k n, (length (dec_rev k n) <= k)%nat /\ Forall (fun c => digit c = true) (dec_rev k n)).
  { clear. induction k as [|k IH]; intros n; cbn [dec_rev length]; [by split |].
    assert (Hd : digit (ascii_of_N (Z.to_N (ch "0" + n mod 10))) = true).
    { assert (0 <= n mod 10 < 10) as Hr by (apply Z.mod_pos_bound; lia).
      assert (n mod 10 ∈ seqZ_from 0 10) as Hin by (apply elem_of_seqZ_from; lia).
      revert Hin. generalize (n mod 10). clear. apply Forall_forall. repeat constructor. }
    destruct (IH (n / 10)). case_if; cbn [length]; split; try lia; by constructor. }
  destruct (H 20%nat n) as [Hl Hf]. unfold dec. constructor.
  - cbn [dec_rev rev]. by destruct (rev _).
  - rewrite length_rev. lia.
  - by apply Forall_rev.
Qed.

Lemma print_lexable k e : regs_ok e = true -> Forall lexable (print k e).
Proof.
  assert (Hb : forall k e body, Forall lexable body -> Forall lexable (bracket k e body)).
  { clear. intros k e body H. unfold bracket. case_if; [done |]. constructor; [| apply Forall_app; split; [done |]].
    - apply (lex_op _ "("). unfold spelling. set_solver.
    - constructor; [| constructor]. apply (lex_op _ ")"). unfold spelling. set_solver. }
  revert k. induction e as [n|r|u e IH|b l IHl r IHr]; intros k H; cbn [print]; cbn in H; apply Hb.
  - constructor; [apply dec_lexable | constructor].
  - apply bool_decide_eq_true_1 in H. constructor; [by apply lex_reg | constructor].
  - constructor; [| by apply IH]. apply (lex_op _ (spell spelling (un_type u))).
    destruct u; cbn; unfold spelling; set_solver.
  - apply andb_true_iff in H as [? ?]. apply Forall_app. split; [by apply IHl |].
    constructor; [| by apply IHr]. apply (lex_op _ (spell spelling (bin_type b))).
    destruct b; cbn; unfold spelling; set_solver.
Qed.

(** The text of a tree and the conditions under which [expr] can read it: the
    literals fit, the registers are read in one piece, no bracket opens before
    a dereference, and the depth limit and the token array suffice. *)
Definition source (e : ast) : list ascii := render (print top e).

Record readable (e : ast) : Prop := {
  rd_lits : lits_ok e = true;
  rd_regs : regs_ok e = true;
  rd_deref : deref_ok top e = true;
  rd_depth : (height top e <= DEPTH_LIMIT)%nat;
  rd_len : zlen (print top e) <= 65536;
}.

Lemma expr_source e success m : readable e ->
  expr (source e) success m =
  eval (print top e) DEPTH_LIMIT 0 (zlen (print top e) - 1) success m.
Proof.
  intros [_ Hr Hd _ Hlen]. unfold expr, make_token, source.
  rewrite scan_render by (by apply print_lexable). cbn [mbind Res_bind from_option id].
  rewrite length_fmap. fold (zlen (print top e)). rewrite (proj2 (Z.leb_le _ _) Hlen). cbn [ensure mbind Res_bind].
  rewrite mark_raw; [done |].
  destruct (print_marks top e None Hd ltac:(done) []) as (t & _ & E). rewrite app_nil_r in E. by rewrite E.
Qed.

(** C34. The monitor evaluates expressions.  For every readable expression
    tree over literals, registers, the three prefix operators and seventeen
    binary operators, [expr] applied to its printed text succeeds with the
    tree's meaning whenever that is defined: C's priorities, left
    associativity, unsigned 64-bit arithmetic and 8-byte loads for
    dereferences, in the order from left to right.  A division or remainder by
    zero at the root is reported through [success] instead. *)
Theorem expr_correct e m : readable e ->
  (forall v m', meaning e m = Some (v, m') -> expr (source e) true m = Ok (v, true, m')) /\
  (forall b l r x m1 m2, e = Bin b l r -> b = B_div \/ b = B_rem ->
     meaning l m = Some (x, m1) -> meaning r m1 = Some (0, m2) ->
     expr (source e) true m = Ok (FAILED, false, m2)).
Proof.
  intros He. rewrite expr_source by done. split.
  - intros v m' Hm. apply (eval_print e (print top e) top DEPTH_LIMIT 0 m (v, m'));
      [done | apply He | done | apply seg_all | apply He].
  - intros b l r x m1 m2 -> Hb Hl Hr. by eapply eval_print_div0; [apply Hb | apply He | .. | apply seg_all | apply He].
Qed.

Definition sample_expr : ast :=
  Bin B_add (Reg "pc") (Bin B_mul (Lit 3) (Bin B_sub (Lit 10) (Un U_not (Lit 7)))).

Lemma expr_correct_witness :
  source sample_expr = String.list_ascii_of_string "pc + 3 * ( 10 - ! 7 ) " /\
  expr (source sample_expr) true (boot_mach (io_static (fun _ => (0, 0)) (fun _ => []))) =
    Ok (0x8000001e, true, boot_mach (io_static (fun _ => (0, 0)) (fun _ => []))).
Proof.
  split; [reflexivity |].
  apply (expr_correct sample_expr); [| reflexivity].
  split; [reflexivity | reflexivity | reflexivity | apply Nat.leb_le; reflexivity | apply Z.leb_le; reflexivity].
Defined.

(** Where the evaluator departs from C's grammar.  Two prefix operators in
    a row lose the outer one; a prefix minus after a multiplication cuts the
    product off; a dereference right after an opening bracket is taken for a
    multiplication by zero; the caret is read as part of a symbol, so that the
    exclusive-or of the operator table cannot be written; [s10] is read as
    [s1] followed by 0.  In the last two cases no operator is found and
    [tokens[-1]] is read. *)
Theorem expr_departures m :
  let run s := expr (String.list_ascii_of_string s) true m in
  run "!!1" = Ok (0, true, m) /\ run "~~5" = Ok (not64 5, true, m) /\
  run "2*-3" = Ok (2 ^ 64 - 3, true, m) /\ run "(*0x80000000)" = Ok (0, true, m) /\
  run "5^3" = Err Undefined /\ run "s10" = Err Undefined.
Proof. split_and!; reflexivity. Qed.
