(* ===== verification/Watchpoint.v ===== *)
(** * Watchpoints (src/monitor/watchpoint.c)

    The pool of watchpoints is an array whose elements form two linked lists,
    the active one and the free one.  The pointers are indices; the theorems
    show that the two lists always partition the pool, so that every walk ends,
    and what each operation does to the list of active watchpoints. *)

From S2P Require Import Prelude Word State Pmp Csr Cache Mmio Mem Ftrace Vmem VmemSpec Decode Ir Exec Regex Expr.
From Stdlib Require Import Ascii.

(** ** Data *)

Definition NR_WP : Z := 32.
Definition expr_maxl : Z := 100.

Record WP := mkWP {
  NO : Z;
  next : option Z;          (** an index of [wp_pool], or null *)
  wp_expr : list ascii;     (** [char expr[expr_maxl]] *)
  value : Z;
}.

#[export] Instance WP_inhabited : Inhabited WP := populate (mkWP 0 None [] 0).

Record WatchPool := mkWatchPool {
  wp_pool : list WP;
  head : option Z;
  free_ : option Z;
  g_wp_head : option Z;
}.

Definition upd_wp (i : Z) (w : WP) (s : WatchPool) : WatchPool :=
  {| s with wp_pool := upd (wp_pool s) i w |}.
Definition set_next (i : Z) (p : option Z) (s : WatchPool) : WatchPool :=
  let w := arr (wp_pool s) i in upd_wp i {| w with next := p |} s.
Definition set_head (p : option Z) (s : WatchPool) : WatchPool := {| s with head := p |}.
Definition set_free (p : option Z) (s : WatchPool) : WatchPool := {| s with free_ := p |}.
Definition set_g_head (s : WatchPool) : WatchPool := {| s with g_wp_head := head s |}.
Definition set_text (i : Z) (e : list ascii) (s : WatchPool) : WatchPool :=
  let w := arr (wp_pool s) i in upd_wp i {| w with wp_expr := e |} s.
Definition set_value (i v : Z) (s : WatchPool) : WatchPool :=
  let w := arr (wp_pool s) i in upd_wp i {| w with value := v |} s.

Arguments upd_wp : simpl never.
Arguments set_next : simpl never.
Arguments set_head : simpl never.
Arguments set_free : simpl never.
Arguments set_g_head : simpl never.
Arguments set_text : simpl never.
Arguments set_value : simpl never.

(** ** Operations *)

(** The static array before initialisation is zero; every element gets its
    number and a link to its neighbour, the last one null. *)
Definition init_wp_pool (s : WatchPool) : WatchPool :=
  let pool := imap (fun i w => {| w with NO := Z.of_nat i; next := Some (Z.of_nat i + 1) |}) (wp_pool s) in
  let s := mkWatchPool pool (head s) (free_ s) (g_wp_head s) in
  let s := set_next (NR_WP - 1) None s in
  mkWatchPool (wp_pool s) None (Some 0) None.

(** Static storage. *)
Definition wp_static : WatchPool :=
  mkWatchPool (replicate (Z.to_nat NR_WP) (mkWP 0 None [] 0)) None None None.

Definition wp_any_active (s : WatchPool) : bool := match g_wp_head s with Some _ => true | None => false end.

(** [strcpy] into [expr[100]]; the value is whatever [expr] returns, its
    success is not looked at. *)
Definition new_wp (expression : list ascii) (s : WatchPool) (m : Mach) : Res (WatchPool * Mach) :=
  match free_ s with
  | Some p =>
      let s := set_free (next (arr (wp_pool s) p)) s in
      let s := set_next p (head s) s in
      let s := set_g_head (set_head (Some p) s) in
      _ ← ensure Undefined (Z.of_nat (length expression) <? expr_maxl);
      let s := set_text p expression s in
      '(v, _, m) ← expr expression true m;
      Ok (set_value p v s, m)
  | None => Ok (s, m)
  end.

(** The walk of [free_wp] from [pointer] with [pre] behind it.  A list that
    ran in a circle would never end: [fuel] counts more steps than the pool
    has elements, and running out is an error. *)
Fixpoint free_wp_from (fuel : nat) (no : Z) (pointer pre : option Z) (s : WatchPool) : Res WatchPool :=
  match pointer with
  | None => Ok s
  | Some p =>
      match fuel with
      | O => Err Undefined
      | S fuel =>
          if NO (arr (wp_pool s) p) =? no then
            let nx := next (arr (wp_pool s) p) in
            let s := match pre with None => set_head nx s | Some q => set_next q nx s end in
            let s := set_free (Some p) (set_next p (free_ s) s) in
            Ok (set_g_head s)
          else free_wp_from fuel no (next (arr (wp_pool s) p)) (Some p) s
      end
  end.

Definition wp_fuel : nat := S (Z.to_nat NR_WP).

Definition free_wp (no : Z) (s : WatchPool) : Res WatchPool := free_wp_from wp_fuel no (head s) None s.

(** The walk of [check_wp]: it stops at the first changed value. *)
Fixpoint check_wp_from (fuel : nat) (pointer : option Z) (s : WatchPool) (m : Mach)
    : Res (bool * WatchPool * Mach) :=
  match pointer with
  | None => Ok (false, s, m)
  | Some p =>
      match fuel with
      | O => Err Undefined
      | S fuel =>
          let w := arr (wp_pool s) p in
          '(v, _, m) ← expr (wp_expr w) true m;
          if negb (v =? value w) then Ok (true, set_value p v s, m)
          else check_wp_from fuel (next w) s m
      end
  end.

Definition check_wp (s : WatchPool) (m : Mach) : Res (bool * WatchPool * Mach) :=
  check_wp_from wp_fuel (head s) s m.

(** ** Linked lists in the pool *)

(** [chain pool p l]: following [next] from [p] visits [l] and ends. *)
Inductive chain (pool : list WP) : option Z -> list Z -> Prop :=
  | chain_nil : chain pool None []
  | chain_cons i p l : 0 <= i < Z.of_nat (length pool) -> next (arr pool i) = p -> chain pool p l ->
      chain pool (Some i) (i :: l).

(** The invariant: the active list [used] and the free list [rest] hold every
    element once, elements carry their index, and the public alias is up to
    date. *)
Record wp_wf (s : WatchPool) (used rest : list Z) : Prop := {
  ww_len : length (wp_pool s) = Z.to_nat NR_WP;
  ww_used : chain (wp_pool s) (head s) used;
  ww_free : chain (wp_pool s) (free_ s) rest;
  ww_part : used ++ rest ≡ₚ seqZ_from 0 (Z.to_nat NR_WP);
  ww_no : forall i, 0 <= i < NR_WP -> NO (arr (wp_pool s) i) = i;
  ww_alias : g_wp_head s = head s;
}.

(** What a watchpoint shows to the user. *)
Definition wp_info (s : WatchPool) (i : Z) : Z * list ascii * Z :=
  let w := arr (wp_pool s) i in (NO w, wp_expr w, value w).

Definition active (s : WatchPool) (used : list Z) : list (Z * list ascii * Z) := wp_info s <$> used.

Lemma chain_range pool p l : chain pool p l -> Forall (fun i => 0 <= i < Z.of_nat (length pool)) l.
Proof. induction 1; by constructor. Qed.

(** Changing an element outside a chain, or without touching its link. *)
Lemma chain_upd pool p l i w : chain pool p l -> (i ∉ l \/ next w = next (arr pool i)) ->
  0 <= i < Z.of_nat (length pool) -> chain (upd pool i w) p l.
Proof.
  intros Hc Hi Hr. induction Hc as [|j p l Hj Hn Hc IH]; [constructor |].
  apply (chain_cons _ j p).
  - by rewrite length_upd.
  - rewrite arr_upd by lia. destruct (Z.eqb_spec i j) as [<-|]; [| done].
    destruct Hi as [Hi | ->]; [set_solver | done].
  - apply IH. set_solver.
Qed.

Lemma chain_fun pool p l l' : chain pool p l -> chain pool p l' -> l = l'.
Proof.
  intros H. revert l'. induction H as [|i p l Hi Hn Hc IH]; intros l' H'; inversion H'; subst; [done |].
  f_equal. by apply IH.
Qed.

Section Pool.
Context (s : WatchPool) (used rest : list Z) (Hwf : wp_wf s used rest).

Lemma pool_nodup : NoDup (used ++ rest).
Proof using Hwf.
  rewrite (ww_part _ _ _ Hwf). apply NoDup_alt. intros i j x Hi Hj.
  pose proof (lookup_lt_Some _ _ _ Hi) as Li. pose proof (lookup_lt_Some _ _ _ Hj) as Lj.
  rewrite length_seqZ_from in *. rewrite lookup_seqZ_from in Hi, Hj by done. simplify_eq. lia.
Qed.

Lemma pool_range i : i ∈ used ++ rest -> 0 <= i < NR_WP.
Proof using Hwf. intros Hi. rewrite (ww_part _ _ _ Hwf), elem_of_seqZ_from in Hi. unfold NR_WP in *. lia. Qed.

Lemma pool_len : Z.of_nat (length (wp_pool s)) = NR_WP.
Proof using Hwf. by rewrite (ww_len _ _ _ Hwf). Qed.

Lemma used_length : (length used <= Z.to_nat NR_WP)%nat.
Proof using Hwf.
  pose proof (Permutation_length (ww_part _ _ _ Hwf)) as H. rewrite length_app, length_seqZ_from in H. lia.
Qed.
End Pool.

(** Replacing the text and the value of one element. *)
Lemma upd_wp_info s used rest i w : wp_wf s used rest -> 0 <= i < NR_WP ->
  next w = next (arr (wp_pool s) i) -> NO w = i -> wp_wf (upd_wp i w s) used rest.
Proof.
  intros Hwf Hi Hn Hno. pose proof (pool_len _ _ _ Hwf) as Hlen. destruct Hwf as [Hl Hu Hf Hp Hnos Ha].
  unfold upd_wp. split; cbn [wp_pool head free_ g_wp_head]; try done.
  - by rewrite length_upd.
  - apply chain_upd; [done | by right | by rewrite Hlen].
  - apply chain_upd; [done | by right | by rewrite Hlen].
  - intros j Hj. rewrite arr_upd by (rewrite ?Hlen; lia). destruct (Z.eqb_spec i j); [by subst | by apply Hnos].
Qed.

Lemma arr_upd_wp s i j w : 0 <= i < Z.of_nat (length (wp_pool s)) -> 0 <= j ->
  arr (wp_pool (upd_wp i w s)) j = if i =? j then w else arr (wp_pool s) j.
Proof. intros Hi Hj. unfold upd_wp. cbn [wp_pool]. by apply arr_upd. Qed.

Section Texts.
Context (s : WatchPool) (used rest : list Z) (i : Z) (Hwf : wp_wf s used rest) (Hi : 0 <= i < NR_WP).

Lemma set_text_ok e : wp_wf (set_text i e s) used rest /\
  forall j, 0 <= j -> wp_info (set_text i e s) j = if i =? j then (i, e, value (arr (wp_pool s) i)) else wp_info s j.
Proof using Hwf Hi.
  pose proof (pool_len _ _ _ Hwf) as Hlen. pose proof (ww_no _ _ _ Hwf i Hi) as Hno. split.
  - by apply upd_wp_info.
  - intros j Hj. unfold wp_info, set_text. rewrite arr_upd_wp by lia. case_if; [| done]. cbn. by rewrite Hno.
Qed.

Lemma set_value_ok v : wp_wf (set_value i v s) used rest /\
  forall j, 0 <= j -> wp_info (set_value i v s) j = if i =? j then (i, wp_expr (arr (wp_pool s) i), v) else wp_info s j.
Proof using Hwf Hi.
  pose proof (pool_len _ _ _ Hwf) as Hlen. pose proof (ww_no _ _ _ Hwf i Hi) as Hno. split.
  - by apply upd_wp_info.
  - intros j Hj. unfold wp_info, set_value. rewrite arr_upd_wp by lia. case_if; [| done]. cbn. by rewrite Hno.
Qed.
End Texts.

(** Links do not show. *)
Lemma set_next_info s i p j : 0 <= i < Z.of_nat (length (wp_pool s)) -> 0 <= j ->
  wp_info (set_next i p s) j = wp_info s j.
Proof.
  intros Hi Hj. unfold wp_info, set_next. rewrite arr_upd_wp by done. destruct (Z.eqb_spec i j); by subst.
Qed.

Lemma active_ext s s' l : (forall i, i ∈ l -> wp_info s' i = wp_info s i) -> active s' l = active s l.
Proof. intros H. unfold active. by apply list_fmap_ext; intros i x Hx; apply H, list_elem_of_lookup; exists i. Qed.

(** ** [new_wp] *)

(** Moving the first free element to the front of the active list. *)
Lemma take_free s used rest i : wp_wf s used (i :: rest) -> 0 <= i < NR_WP ->
  let s1 := set_g_head (set_head (Some i) (set_next i (head s) (set_free (next (arr (wp_pool s) i)) s))) in
  wp_wf s1 (i :: used) rest /\ forall j, 0 <= j -> wp_info s1 j = wp_info s j.
Proof.
  intros Hwf Hi s1. pose proof (pool_nodup _ _ _ Hwf) as Hnd. pose proof (pool_len _ _ _ Hwf) as Hlen.
  destruct Hwf as [Hl Hu Hf Hp Hno Ha]. inversion Hf as [|? p ? _ Hn Hf']; subst.
  apply NoDup_app in Hnd as (Hndu & Hdis & Hndr). apply NoDup_cons in Hndr as [Hir Hndr].
  assert (Hiu : i ∉ used) by (intros Hin; apply (Hdis i Hin); apply list_elem_of_here).
  assert (Hpool : wp_pool s1 = wp_pool (set_next i (head s) s)) by done.
  assert (Harr : forall j, 0 <= j -> arr (wp_pool s1) j =
    if i =? j then (let w := arr (wp_pool s) i in {| w with next := head s |}) else arr (wp_pool s) j).
  { intros j Hj. rewrite Hpool. unfold set_next. by rewrite arr_upd_wp by lia. }
  assert (Hlen1 : length (wp_pool s1) = length (wp_pool s)) by apply length_upd.
  split.
  - split; try done.
    + by rewrite Hlen1.
    + apply (chain_cons _ i (head s)); [by rewrite Hlen1, Hlen | by rewrite Harr, Z.eqb_refl by lia |].
      rewrite Hpool. apply chain_upd; [done | by left | by rewrite Hlen].
    + rewrite Hpool. apply chain_upd; [done | by left | by rewrite Hlen].
    + rewrite <- Hp. apply Permutation_middle.
    + intros j Hj. rewrite Harr by lia. destruct (Z.eqb_spec i j) as [<-|]; by apply Hno.
  - intros j Hj. unfold wp_info. rewrite Harr by done. destruct (Z.eqb_spec i j) as [<-|]; done.
Qed.

Lemma new_wp_ok e s m used rest s' m' : wp_wf s used rest -> new_wp e s m = Ok (s', m') ->
  match rest with
  | [] => s' = s /\ m' = m
  | i :: rest' => exists v ok, expr e true m = Ok (v, ok, m') /\
      wp_wf s' (i :: used) rest' /\ active s' (i :: used) = (i, e, v) :: active s used
  end.
Proof.
  intros Hwf E. pose proof (pool_range _ _ _ Hwf) as Hrng. pose proof (pool_nodup _ _ _ Hwf) as Hnd.
  pose proof (ww_free _ _ _ Hwf) as Hf. unfold new_wp in E. destruct rest as [|i rest].
  - inversion Hf as [Hn|]. rewrite <- Hn in E. by inv_res.
  - inversion Hf as [|? ? ? _ _ _ Hn]. rewrite <- Hn in E. inv_pairs.
    assert (Hi : 0 <= i < NR_WP) by (apply Hrng, elem_of_app; right; apply list_elem_of_here).
    destruct (take_free _ _ _ _ Hwf Hi) as [W1 I1]. set (s1 := set_g_head _) in *.
    destruct (set_text_ok _ _ _ _ W1 Hi e) as [W2 I2]. set (s2 := set_text _ _ _) in *.
    rename select (expr e true m = _) into Ee. rename select Z into v. rename select bool into ok.
    destruct (set_value_ok _ _ _ _ W2 Hi v) as [W3 I3].
    exists v, ok. split_and!; [done | done |]. cbn [active fmap list_fmap]. f_equal.
    + rewrite I3, Z.eqb_refl by lia. specialize (I2 i ltac:(lia)). rewrite Z.eqb_refl in I2.
      apply (f_equal (fun x => x.1.2)) in I2. unfold wp_info in I2. cbn [fst snd] in I2. by rewrite I2.
    + apply active_ext. intros j Hj. assert (0 <= j < NR_WP) by (apply Hrng, elem_of_app; by left).
      assert (i <> j).
      { intros ->. apply NoDup_app in Hnd as (_ & Hdis & _). apply (Hdis j Hj), list_elem_of_here. }
      rewrite I3, (proj2 (Z.eqb_neq i j)), I2, (proj2 (Z.eqb_neq i j)) by (done || lia). apply I1. lia.
Qed.

(** ** [free_wp] *)

Lemma chain_split pool p l1 i l2 : chain pool p (l1 ++ i :: l2) ->
  chain pool (next (arr pool i)) l2 /\ chain pool (Some i) (i :: l2) /\ (l1 = [] -> p = Some i).
Proof.
  revert p. induction l1 as [|j l1 IH]; intros p H; cbn [app] in H; inversion H; subst.
  - split_and!; [done | done | done].
  - edestruct IH as (? & ? & _); [eassumption |]. done.
Qed.

Lemma chain_unlink pool p l1 q i l2 w : chain pool p (l1 ++ q :: i :: l2) -> NoDup (l1 ++ q :: i :: l2) ->
  next w = next (arr pool i) -> chain (upd pool q w) p (l1 ++ q :: l2).
Proof.
  revert p. induction l1 as [|j l1 IH]; intros p H Hnd Hw; cbn [app] in *.
  - inversion H as [|? ? ? Hq Hn Hc]; subst. inversion Hc as [|? ? ? Hi Hn' Hc']; subst.
    apply NoDup_cons in Hnd as [Hq' Hnd].
    apply (chain_cons _ q (next (arr pool i))); [by rewrite length_upd | by rewrite arr_upd_eq |].
    apply chain_upd; [done | left; set_solver | done].
  - inversion H as [|? ? ? Hj Hn Hc]; subst. apply NoDup_cons in Hnd as [Hj' Hnd].
    assert (Hq : 0 <= q < Z.of_nat (length pool)).
    { apply chain_range in Hc. rewrite Forall_forall in Hc. apply Hc. set_solver. }
    apply (chain_cons _ j (next (arr pool j))); [by rewrite length_upd | | by apply IH].
    rewrite arr_upd_ne; [done | lia | set_solver].
Qed.

(** Taking [i] out of the active list, behind [pre], and putting it in front of
    the free list. *)
Definition relink (pre : option Z) (i : Z) (s : WatchPool) : WatchPool :=
  let nx := next (arr (wp_pool s) i) in
  let s := match pre with None => set_head nx s | Some q => set_next q nx s end in
  set_g_head (set_free (Some i) (set_next i (free_ s) s)).

Lemma relink_ok s l1 i l2 rest : wp_wf s (l1 ++ i :: l2) rest ->
  wp_wf (relink (last l1) i s) (l1 ++ l2) (i :: rest) /\
  forall j, 0 <= j -> wp_info (relink (last l1) i s) j = wp_info s j.
Proof.
  intros Hwf. pose proof (pool_nodup _ _ _ Hwf) as Hnd. pose proof (pool_len _ _ _ Hwf) as Hlen.
  pose proof (pool_range _ _ _ Hwf) as Hrng.
  assert (Hi : 0 <= i < NR_WP) by (apply Hrng; set_solver).
  destruct Hwf as [Hl Hu Hf Hp Hno Ha].
  apply NoDup_app in Hnd as (Hndu & Hdis & Hndr).
  assert (Hir : i ∉ rest) by (apply Hdis; set_solver).
  destruct (chain_split _ _ _ _ _ Hu) as (Hc2 & Hci & Hnil).
  (* the pool and the head after the unlinking *)
  assert (Hs1 : exists s1, relink (last l1) i s = set_g_head (set_free (Some i) (set_next i (free_ s) s1)) /\
    length (wp_pool s1) = length (wp_pool s) /\ chain (wp_pool s1) (head s1) (l1 ++ l2) /\
    chain (wp_pool s1) (free_ s) rest /\
    (forall j, 0 <= j -> wp_info s1 j = wp_info s j)).
  { destruct l1 as [|q l1 _] using rev_ind.
    - exists (set_head (next (arr (wp_pool s) i)) s). by split_and!.
    - rewrite last_snoc. exists (set_next q (next (arr (wp_pool s) i)) s).
      rewrite <- app_assoc in Hu, Hndu. cbn [app] in Hu, Hndu.
      assert (Hq : 0 <= q < NR_WP) by (apply Hrng; set_solver).
      split_and!; [done | apply length_upd | | |].
      + rewrite <- app_assoc. cbn [app]. by apply (chain_unlink _ _ _ _ i).
      + apply chain_upd; [done | left; apply Hdis; set_solver | by rewrite Hlen].
      + intros j Hj. apply set_next_info; [by rewrite Hlen | done]. }
  destruct Hs1 as (s1 & -> & Hl1 & Hu1 & Hf1 & Hi1).
  set (s2 := set_g_head _).
  assert (Hpool : wp_pool s2 = wp_pool (set_next i (free_ s) s1)) by done.
  assert (Hinf : forall j, 0 <= j -> wp_info s2 j = wp_info s j).
  { intros j Hj. rewrite <- Hi1 by done. transitivity (wp_info (set_next i (free_ s) s1) j); [done |].
    apply set_next_info; [by rewrite Hl1, Hlen | done]. }
  split; [| done]. split; try done.
  - rewrite Hpool. unfold set_next, upd_wp. cbn [wp_pool]. by rewrite length_upd, Hl1.
  - rewrite Hpool. apply chain_upd; [done | | by rewrite Hl1, Hlen]. left.
    apply NoDup_app in Hndu as (_ & Hd12 & Hnd2). apply NoDup_cons in Hnd2 as [Hn2 _].
    intros [Hin|Hin]%elem_of_app; [apply (Hd12 i Hin), list_elem_of_here | done].
  - apply (chain_cons _ i (free_ s)).
    + rewrite Hpool. unfold set_next, upd_wp. cbn [wp_pool]. by rewrite length_upd, Hl1, Hlen.
    + rewrite Hpool. unfold set_next, upd_wp. cbn [wp_pool]. rewrite arr_upd_eq by (by rewrite Hl1, Hlen). done.
    + rewrite Hpool. apply chain_upd; [done | by left | by rewrite Hl1, Hlen].
  - rewrite <- Hp. rewrite <- !app_assoc. apply Permutation_app_head. cbn [app]. symmetry. apply Permutation_middle.
  - intros j Hj. specialize (Hinf j ltac:(lia)). 
    apply (f_equal (fun x => x.1.1)) in Hinf. unfold wp_info in Hinf. cbn [fst snd] in Hinf. rewrite Hinf. by apply Hno.
Qed.

Lemma free_wp_from_ok s rest no l1 l2 p fuel : wp_wf s (l1 ++ l2) rest -> chain (wp_pool s) p l2 ->
  no ∉ l1 -> (length l2 <= fuel)%nat ->
  ((no ∉ l2) /\ free_wp_from fuel no p (last l1) s = Ok s) \/
  (exists l3 l4, l2 = l3 ++ no :: l4 /\ free_wp_from fuel no p (last l1) s = Ok (relink (last (l1 ++ l3)) no s)).
Proof.
  intros Hwf Hc. revert l1 fuel Hwf.
  induction Hc as [|i p l2 Hi Hn Hc IH]; intros l1 fuel Hwf Hno Hf.
  - left. split; [set_solver | by destruct fuel].
  - destruct fuel as [|fuel]; [cbn in Hf; lia |]. cbn [free_wp_from].
    assert (HNO : NO (arr (wp_pool s) i) = i).
    { apply (ww_no _ _ _ Hwf), (pool_range _ _ _ Hwf). set_solver. }
    rewrite HNO. destruct (Z.eqb_spec i no) as [->|Hne].
    + right. exists [], l2. split; [done |]. rewrite app_nil_r. done.
    + replace (l1 ++ i :: l2) with ((l1 ++ [i]) ++ l2) in Hwf by (by rewrite <- app_assoc).
      destruct (IH (l1 ++ [i]) fuel Hwf) as [[Hn2 E]|(l3 & l4 & -> & E)]; [set_solver | cbn in Hf; lia | |];
        rewrite last_snoc in E; rewrite Hn.
      * left. split; [set_solver | done].
      * right. exists (i :: l3), l4. split; [done |]. rewrite E. by rewrite <- app_assoc.
Qed.

Lemma free_wp_ok s used rest no : wp_wf s used rest ->
  ((no ∉ used) /\ free_wp no s = Ok s) \/
  (exists s' l1 l2, used = l1 ++ no :: l2 /\ free_wp no s = Ok s' /\ wp_wf s' (l1 ++ l2) (no :: rest) /\
    active s' (l1 ++ l2) = active s (l1 ++ l2)).
Proof.
  intros Hwf. pose proof (used_length _ _ _ Hwf). unfold free_wp.
  destruct (free_wp_from_ok s rest no [] used (head s) wp_fuel Hwf (ww_used _ _ _ Hwf))
    as [?|(l1 & l2 & -> & E)]; [set_solver | unfold wp_fuel; lia | by left |].
  right. destruct (relink_ok _ _ _ _ _ Hwf) as [Hw' Hi'].
  exists (relink (last l1) no s), l1, l2. split_and!; [done | done | done |].
  apply active_ext. intros j Hj. apply Hi'. eapply (pool_range _ _ _ Hwf). set_solver.
Qed.

(** ** [check_wp] *)

(** The check on the list of active watchpoints: evaluate in order, stop at the
    first changed value and record it. *)
Fixpoint check_list (l : list (Z * list ascii * Z)) (m : Mach)
    : Res (bool * list (Z * list ascii * Z) * Mach) :=
  match l with
  | [] => Ok (false, [], m)
  | (no, e, v0) :: l =>
      '(v, _, m) ← expr e true m;
      if v =? v0 then '(b, l, m) ← check_list l m; Ok (b, (no, e, v0) :: l, m)
      else Ok (true, (no, e, v) :: l, m)
  end.

Lemma check_wp_from_ok s rest l1 l2 p fuel m : wp_wf s (l1 ++ l2) rest -> chain (wp_pool s) p l2 ->
  (length l2 <= fuel)%nat ->
  match check_list (active s l2) m with
  | Ok (b, l, m') => exists s', check_wp_from fuel p s m = Ok (b, s', m') /\ wp_wf s' (l1 ++ l2) rest /\
      active s' (l1 ++ l2) = active s l1 ++ l
  | Err e => check_wp_from fuel p s m = Err e
  end.
Proof.
  intros Hwf Hc. revert l1 fuel Hwf m.
  induction Hc as [|i p l2 Hi Hn Hc IH]; intros l1 fuel Hwf m Hf.
  - exists s. rewrite app_nil_r in *. split_and!; [by destruct fuel | done | by rewrite app_nil_r].
  - destruct fuel as [|fuel]; [cbn in Hf; lia |].
    assert (Hir : 0 <= i < NR_WP) by (apply (pool_range _ _ _ Hwf); set_solver).
    pose proof (ww_no _ _ _ Hwf i Hir) as HNO. pose proof (pool_nodup _ _ _ Hwf) as Hnd.
    pose proof (pool_range _ _ _ Hwf) as Hrng.
    cbn [check_wp_from active fmap list_fmap]. unfold wp_info at 1. cbn [check_list].
    destruct (expr (wp_expr (arr (wp_pool s) i)) true m) as [[[v ok] m1]|]; [| done]. cbn [mbind Res_bind].
    destruct (v =? value (arr (wp_pool s) i)); cbn [negb].
    + replace (l1 ++ i :: l2) with ((l1 ++ [i]) ++ l2) in * by (by rewrite <- app_assoc).
      specialize (IH (l1 ++ [i]) fuel Hwf m1 ltac:(cbn in Hf; lia)). fold (active s l2). rewrite Hn.
      destruct (check_list (active s l2) m1) as [[[b l] m2]|]; cbn [mbind Res_bind]; [| done].
      destruct IH as (s' & E & Hw' & Ha). exists s'. split_and!; [done | done |].
      rewrite Ha. unfold active at 1. rewrite fmap_app. cbn [fmap list_fmap]. by rewrite <- app_assoc.
    + destruct (set_value_ok _ _ _ _ Hwf Hir v) as [Hw' Hi']. exists (set_value i v s).
      split_and!; [done | done |]. unfold active. rewrite fmap_app. cbn [fmap list_fmap].
      rewrite HNO. apply NoDup_app in Hnd as (Hnd & _ & _). apply NoDup_app in Hnd as (_ & Hd & Hnd2).
      apply NoDup_cons in Hnd2 as [Hi2 _]. f_equal; [| f_equal].
      * apply active_ext. intros j Hj. assert (0 <= j < NR_WP) by (apply Hrng; set_solver).
        rewrite Hi', (proj2 (Z.eqb_neq i j)); [done | | lia]. intros ->. apply (Hd j Hj), list_elem_of_here.
      * by rewrite Hi', Z.eqb_refl by lia.
      * apply active_ext. intros j Hj. assert (0 <= j < NR_WP) by (apply Hrng; set_solver).
        rewrite Hi', (proj2 (Z.eqb_neq i j)); [done | | lia]. by intros ->.
Qed.

Lemma init_wp_pool_ok : wp_wf (init_wp_pool wp_static) [] (seqZ_from 0 (Z.to_nat NR_WP)).
Proof.
  split; try done.
  - constructor.
  - repeat (eapply chain_cons; [split; [lia | reflexivity] | reflexivity |]). constructor.
  - intros i Hi. assert (Hin : i ∈ seqZ_from 0 32) by (apply elem_of_seqZ_from; unfold NR_WP in *; lia).
    clear Hi. revert i Hin. apply Forall_forall. repeat constructor.
Qed.

(** The watchpoint pool.  Whenever the active and the free list partition
    the pool, every operation ends and keeps them so.  [new_wp] takes the first
    free element, records the text and its present value and puts it in front
    of the active ones; with all 32 in use it does nothing.  [free_wp] removes
    exactly the watchpoint of that number, if it is active, and leaves the
    others in order.  [check_wp] evaluates the active watchpoints in order,
    stops at the first whose value has changed, records the new value and
    reports it; an error of the evaluation is its error. *)
Theorem watchpoint_lists s used rest m : wp_wf s used rest ->
  (forall e s' m', new_wp e s m = Ok (s', m') ->
     match rest with
     | [] => s' = s /\ m' = m
     | i :: rest' => exists v ok, expr e true m = Ok (v, ok, m') /\
         wp_wf s' (i :: used) rest' /\ active s' (i :: used) = (i, e, v) :: active s used
     end) /\
  (forall no, ((no ∉ used) /\ free_wp no s = Ok s) \/
     (exists s' l1 l2, used = l1 ++ no :: l2 /\ free_wp no s = Ok s' /\
        wp_wf s' (l1 ++ l2) (no :: rest) /\ active s' (l1 ++ l2) = active s (l1 ++ l2))) /\
  match check_list (active s used) m with
  | Ok (b, l, m') => exists s', check_wp s m = Ok (b, s', m') /\ wp_wf s' used rest /\ active s' used = l
  | Err e => check_wp s m = Err e
  end.
Proof.
  intros Hwf. split_and!.
  - intros e s' m'. by apply new_wp_ok.
  - intros no. by apply free_wp_ok.
  - pose proof (used_length _ _ _ Hwf).
    apply (check_wp_from_ok s rest [] used (head s) wp_fuel m Hwf (ww_used _ _ _ Hwf)). unfold wp_fuel. lia.
Qed.

Lemma expr_pc m : expr (String.list_ascii_of_string "pc") true m = Ok (pc (cpu m), true, m).
Proof. reflexivity. Qed.

Lemma watchpoint_lists_witness : let m := boot_mach (io_static (fun _ => (0, 0)) (fun _ => [])) in
  exists s', wp_wf s' [0] (seqZ_from 1 31) /\ active s' [0] = [(0, String.list_ascii_of_string "pc", 0x80000000)].
Proof.
  intros m. destruct (watchpoint_lists (init_wp_pool wp_static) [] (seqZ_from 0 (Z.to_nat NR_WP)) m init_wp_pool_ok)
    as [H _].
  assert (E : exists s', new_wp (String.list_ascii_of_string "pc") (init_wp_pool wp_static) m = Ok (s', m)).
  { clear H. generalize m. intros m'. eexists. reflexivity. }
  destruct E as [s' E]. destruct (H _ _ _ E) as (v & ok & Ev & Hw & Ha).
  exists s'. split; [exact Hw |]. rewrite Ha. rewrite expr_pc in Ev. injection Ev as <- _. reflexivity.
Defined.
