(* ===== verification/Stdio.v ===== *)
(** * The conversions of printf and sscanf that the monitor uses

    [%lx], [%d] and their field widths; [%d], [%ld], [%lx] and [%s] of [sscanf];
    [strtok] with a blank as the only delimiter.  Printing a number and scanning
    it gives the number back. *)

From S2P Require Import Prelude Word Ringbuf Ftrace Expr.
From Stdlib Require Import Ascii.

Definition text_of (s : string) : list ascii := String.list_ascii_of_string s.

(** ** Printing *)

(** The digits, most significant first; [fuel] bounds their number. *)
Fixpoint digits_of (fuel : nat) (base v : Z) : list Z :=
  match fuel with
  | O => [v]
  | S fuel => if v <? base then [v] else digits_of fuel base (v / base) ++ [v mod base]
  end.

(** [%lx] and [%lu] of a 64-bit word: at most twenty digits. *)
Definition fmt_u (base v : Z) : list ascii := hex_char <$> digits_of 19 base v.
Definition fmt_lx : Z -> list ascii := fmt_u 16.
(** [%d] *)
Definition fmt_d (v : Z) : list ascii := if v <? 0 then "-"%char :: fmt_u 10 (- v) else fmt_u 10 v.

Definition blanks (n : nat) : list ascii := replicate n " "%char.
(** [%3s], [%-16lx] and [%02lx] *)
Definition right_align (n : nat) (s : list ascii) : list ascii := blanks (n - length s) ++ s.
Definition left_align (n : nat) (s : list ascii) : list ascii := s ++ blanks (n - length s).
Definition zero_align (n : nat) (s : list ascii) : list ascii := replicate (n - length s) "0"%char ++ s.

(** ** Scanning *)

Definition is_space (c : ascii) : bool := (ch c =? 32) || ((9 <=? ch c) && (ch c <=? 13)).

Fixpoint skip_space (s : list ascii) : list ascii :=
  match s with
  | c :: s' => if is_space c then skip_space s' else s
  | [] => []
  end.

Fixpoint take_while (f : ascii -> bool) (s : list ascii) : list ascii :=
  match s with
  | c :: s => if f c then c :: take_while f s else []
  | [] => []
  end.

(** The optional sign. *)
Definition scan_sign (s : list ascii) : bool * list ascii :=
  match s with
  | "-"%char :: s => (true, s)
  | "+"%char :: s => (false, s)
  | _ => (false, s)
  end.

Definition signed (neg : bool) (v : Z) : Z := if neg then - v else v.

(** [%d] and [%ld]: [None] is a matching failure, which stores nothing. *)
Definition scan_dec (s : list ascii) : option Z :=
  let '(neg, s) := scan_sign (skip_space s) in
  match take_while digit s with
  | [] => None
  | ds => Some (signed neg (numeral 10 ds))
  end.

(** The digits of [%lx] after an optional [0x]. *)
Definition hex_digits (s : list ascii) : list ascii :=
  match s with
  | "0"%char :: x :: s' => if one_of ["x"; "X"]%char x then take_while hex_digit s' else take_while hex_digit s
  | _ => take_while hex_digit s
  end.

Definition scan_hex (s : list ascii) : option Z :=
  let '(neg, s) := scan_sign (skip_space s) in
  match hex_digits s with
  | [] => None
  | ds => Some (signed neg (numeral 16 ds))
  end.

(** The variable after [sscanf]: [None] without a match, when it is still
    uninitialised; a value outside the type is undefined. *)
Definition stored (lo hi : Z) (v : option Z) : Res (option Z) :=
  match v with
  | Some v => _ ← ensure Undefined ((lo <=? v) && (v <=? hi)); Ok (Some v)
  | None => Ok None
  end.

(** Reading the variable. *)
Definition initialised (v : option Z) : Res Z := match v with Some v => Ok v | None => Err Undefined end.

Definition scanned (lo hi : Z) (v : option Z) : Res Z := v ← stored lo hi v; initialised v.

Definition store_d (s : list ascii) : Res (option Z) := stored INT_MIN INT_MAX (scan_dec s).
Definition scan_d (s : list ascii) : Res Z := scanned INT_MIN INT_MAX (scan_dec s).
(** A [uint64_t] read with [%ld]. *)
Definition scan_ld (s : list ascii) : Res Z := v ← scanned (- 2 ^ 63) (2 ^ 63 - 1) (scan_dec s); Ok (wrap64 v).
(** [%lx]; a minus sign negates in the unsigned type. *)
Definition scan_x (s : list ascii) : Res Z := v ← scanned (- (2 ^ 64 - 1)) (2 ^ 64 - 1) (scan_hex s); Ok (wrap64 v).

(** [%s] into a buffer of [n] bytes, the terminating zero included. *)
Definition scan_s (n : Z) (s : list ascii) : Res (list ascii) :=
  match take_while (fun c => negb (is_space c)) (skip_space s) with
  | [] => Err Undefined
  | w => _ ← ensure Undefined (Z.of_nat (length w) <? n); Ok w
  end.

(** ** strtok *)

Definition not_blank (c : ascii) : bool := negb (Ascii.eqb c " ").

Fixpoint skip_blanks (s : list ascii) : list ascii :=
  match s with
  | c :: s' => if not_blank c then s else skip_blanks s'
  | [] => []
  end.

(** [strtok(s, " ")], or [strtok(NULL, " ")] at [s]: the token and where the
    next call continues. *)
Definition strtok (s : list ascii) : option (list ascii) * list ascii :=
  let s := skip_blanks s in
  match take_while not_blank s with
  | [] => (None, [])
  | w => (Some w, drop (S (length w)) s)
  end.

(** ** Numbers *)

Lemma numeral_app base s c : numeral base (s ++ [c]) = numeral base s * base + digit_val c.
Proof. unfold numeral. by rewrite foldl_app. Qed.

(** The ten decimal digits as characters. *)
Lemma digit_char d : 0 <= d < 10 -> digit (hex_char d) = true /\ digit_val (hex_char d) = d.
Proof.
  intros Hd. assert (Hin : d ∈ seqZ_from 0 10) by (apply elem_of_seqZ_from; lia).
  cbn [seqZ_from Z.add Pos.add Pos.succ] in Hin. elem_cases Hin; done.
Qed.

Lemma fmt_u_ok fuel v : 0 <= v < 10 ^ (Z.of_nat fuel + 1) ->
  Forall (fun c => digit c = true) (hex_char <$> digits_of fuel 10 v) /\
  numeral 10 (hex_char <$> digits_of fuel 10 v) = v /\ (hex_char <$> digits_of fuel 10 v) <> [].
Proof.
  revert v. induction fuel as [|fuel IH]; intros v Hv; cbn [digits_of].
  - destruct (digit_char v) as [Hd Hn]; [lia |]. cbn [fmap list_fmap]. split_and!; [by repeat constructor | | done].
    unfold numeral. cbn [foldl]. lia.
  - destruct (Z.ltb_spec v 10).
    + destruct (digit_char v) as [Hd Hn]; [lia |]. cbn [fmap list_fmap]. split_and!; [by repeat constructor | | done].
      unfold numeral. cbn [foldl]. lia.
    + pose proof (Z.mod_pos_bound v 10 ltac:(lia)) as Hm. pose proof (Z.div_mod v 10 ltac:(lia)) as Hdm.
      destruct (digit_char (v mod 10)) as [Hd Hn]; [lia |].
      destruct (IH (v / 10)) as (H1 & H2 & H3).
      { split; [apply Z.div_pos; lia |]. apply Z.div_lt_upper_bound; [lia |].
        replace (Z.of_nat (S fuel) + 1) with (Z.succ (Z.of_nat fuel + 1)) in Hv by lia. rewrite Z.pow_succ_r in Hv by lia. lia. }
      rewrite fmap_app. change (hex_char <$> [v mod 10]) with [hex_char (v mod 10)]. split_and!.
      * apply Forall_app. split; [done | by repeat constructor].
      * rewrite numeral_app, H2, Hn. lia.
      * intros E. by apply app_eq_nil in E as [_ E].
Qed.

Lemma take_while_all f s rest : Forall (fun c => f c = true) s -> (forall c r, rest = c :: r -> f c = false) ->
  take_while f (s ++ rest) = s.
Proof.
  induction 1 as [|c s Hc _ IH]; intros Hr; cbn [app take_while].
  - destruct rest as [|c r]; [done |]. cbn. by rewrite (Hr c r).
  - rewrite Hc. by rewrite IH.
Qed.

Lemma digit_not_special c : digit c = true -> is_space c = false /\ c <> "-"%char /\ c <> "+"%char.
Proof.
  unfold digit, between, is_space. change (ch "0") with 48. change (ch "9") with 57. intros H. zify_bool.
  split_and!; [lia | intros -> | intros ->]; exact (H eq_refl).
Qed.

Lemma scan_sign_other c s : c <> "-"%char -> c <> "+"%char -> scan_sign (c :: s) = (false, c :: s).
Proof. intros H1 H2. unfold scan_sign. destruct c as [[] [] [] [] [] [] [] []]; done. Qed.

(** A printed number scans as itself, whatever follows that is not a digit. *)
Lemma scan_dec_fmt v rest : - 10 ^ 20 < v < 10 ^ 20 -> (forall c r, rest = c :: r -> digit c = false) ->
  scan_dec (fmt_d v ++ rest) = Some v.
Proof.
  intros Hv Hr. unfold fmt_d, scan_dec. destruct (Z.ltb_spec v 0).
  - destruct (fmt_u_ok 19 (- v)) as (H1 & H2 & H3); [cbn; lia |]. fold (fmt_u 10 (- v)) in *.
    cbn [app skip_space is_space]. change (scan_sign ("-"%char :: ?s)) with (true, s).
    change (is_space "-") with false. cbv iota. change (scan_sign ("-"%char :: ?s)) with (true, s). cbv iota beta.
    rewrite take_while_all by done. destruct (fmt_u 10 (- v)); [done |]. cbn [signed]. f_equal. lia.
  - destruct (fmt_u_ok 19 v) as (H1 & H2 & H3); [cbn; lia |]. fold (fmt_u 10 v) in *.
    destruct (fmt_u 10 v) as [|c s] eqn:Es; [done |]. apply Forall_cons in H1 as [Hc Hs].
    destruct (digit_not_special c Hc) as (Hsp & Hm & Hp). cbn [app skip_space]. rewrite Hsp, scan_sign_other by done.
    rewrite app_comm_cons, take_while_all by (by constructor || done). cbn [signed]. by rewrite H2.
Qed.

(** Numbers survive printing and scanning.  For every [int], [sscanf] with
    [%d] reads back what [printf] wrote with [%d], and for every count below
    [2^63], [%ld] reads it back into a [uint64_t]; the text may be followed by
    anything that is not a digit, and numbers that do not fit are never read as
    something else. *)
Theorem scan_print v rest : (forall c r, rest = c :: r -> digit c = false) ->
  (INT_MIN <= v <= INT_MAX -> scan_d (fmt_d v ++ rest) = Ok v) /\
  (0 <= v < 2 ^ 63 -> scan_ld (fmt_d v ++ rest) = Ok v) /\
  (INT_MAX < v < 10 ^ 20 -> scan_d (fmt_d v ++ rest) = Err Undefined).
Proof.
  intros Hr. unfold scan_d, scan_ld, scanned, stored, INT_MIN, INT_MAX. split_and!; intros Hv; rewrite scan_dec_fmt by (done || lia).
  - by replace ((- 2 ^ 31 <=? v) && (v <=? 2 ^ 31 - 1)) with true by lia.
  - replace ((- 2 ^ 63 <=? v) && (v <=? 2 ^ 63 - 1)) with true by lia. cbn [ensure mbind Res_bind initialised].
    f_equal. apply wrap64_small. unfold is_word. lia.
  - by replace ((- 2 ^ 31 <=? v) && (v <=? 2 ^ 31 - 1)) with false by lia.
Qed.

Lemma scan_print_witness : scan_d (fmt_d (-42) ++ text_of " x") = Ok (-42).
Proof. apply (scan_print (-42) (text_of " x")); [intros c r [= <- <-]; reflexivity | unfold INT_MIN, INT_MAX; lia]. Defined.

(** ** Words *)

(** A word without blanks, followed by a blank or by nothing. *)
Lemma strtok_word n w rest : w <> [] -> Forall (fun c => not_blank c = true) w ->
  strtok (blanks n ++ w ++ " "%char :: rest) = (Some w, rest) /\ strtok (blanks n ++ w) = (Some w, []).
Proof.
  intros Hne Hw. assert (Hsk : forall r, skip_blanks (blanks n ++ w ++ r) = w ++ r).
  { intros r. induction n as [|n IH]; [| exact IH]. destruct w as [|c w]; [done |]. apply Forall_cons in Hw as [Hc _].
    cbn. by rewrite Hc. }
  unfold strtok. split.
  - rewrite Hsk, take_while_all; [| done | by intros c r [= <- <-]]. destruct w as [|c w]; [done |]. f_equal.
    change ((c :: w) ++ " "%char :: rest) with ((c :: w) ++ [" "%char] ++ rest). rewrite app_assoc.
    rewrite drop_app_length'; [done |]. rewrite length_app. cbn. lia.
  - pose proof (Hsk []) as E. rewrite app_nil_r in E. rewrite E. rewrite <-(app_nil_r w) at 1.
    rewrite take_while_all by done. destruct w as [|c w]; [done |]. by rewrite drop_ge by (cbn; lia).
Qed.
