(* ===== verification/Mtrace.v ===== *)
(** * The memory trace (src/monitor/mtrace.c)

    A list of accesses that [add_mtrace_point] extends and [print_mtrace]
    filters.  [delete_mtrace] frees the elements and leaves [head] and [tail]
    pointing at them. *)

From S2P Require Import Prelude Word State Pmp Csr Cache Mmio Mem Ringbuf Ftrace Expr Stdio.
From Stdlib Require Import Ascii.

Record mtrace_point := mkMtracePoint {
  is_write : bool;
  mt_addr : Z;
  mt_len : Z;
  mt_data : Z;
}.

(** [points] is the list from [head]; [dangling] says that it has been freed. *)
Record Mtrace := mkMtrace {
  points : list mtrace_point;
  dangling : bool;
}.

Definition mtrace_static : Mtrace := mkMtrace [] false.

(** A read is recorded with the data that memory holds. *)
Definition add_mtrace_point (wr : bool) (addr len data : Z) (mt : Mtrace) (b : Bus) : Res (Mtrace * Bus) :=
  '(v, b) ← (if wr then Ok (data, b) else paddr_read addr len b);
  _ ← ensure Undefined (negb (dangling mt));
  Ok (mkMtrace (points mt ++ [mkMtracePoint wr addr len v]) false, b).

(** 1 for ["w"], 0 for ["r"], 2 otherwise. *)
Definition type_num (type : list ascii) : Z :=
  if bool_decide (type = text_of "w") then 1 else if bool_decide (type = text_of "r") then 0 else 2.

(** The two tests of the loop; [addr + len] is unsigned. *)
Definition selected (type addr len : Z) (p : mtrace_point) : bool :=
  (((if is_write p then 1 else 0) =? type) || (type =? 2)) &&
  ((addr <=? mt_addr p) || (mt_addr p <=? (addr + len)%word)).

Definition print_point (p : mtrace_point) : list ascii :=
  text_of (if is_write p then "write " else "read ") ++ text_of "addr:" ++ fmt_lx (mt_addr p) ++
  text_of " len:" ++ fmt_d (mt_len p) ++ text_of " data:" ++ fmt_lx (mt_data p).

Definition print_mtrace (type : list ascii) (addr len : Z) (mt : Mtrace) : Res (list (list ascii)) :=
  _ ← ensure Undefined (negb (dangling mt));
  Ok (print_point <$> filter (fun p => selected (type_num type) addr len p = true) (points mt)).

Definition delete_mtrace (mt : Mtrace) : Res Mtrace :=
  _ ← ensure Undefined (negb (dangling mt));
  Ok (mkMtrace [] (negb (bool_decide (points mt = [])))).

(** ** Properties *)

(** The accesses of a kind. *)
Definition of_kind (type : list ascii) (p : mtrace_point) : bool :=
  (negb (bool_decide (type = text_of "w")) || is_write p) && (negb (bool_decide (type = text_of "r")) || negb (is_write p)).

Lemma of_kind_num type p : of_kind type p = ((if is_write p then 1 else 0) =? type_num type) || (type_num type =? 2).
Proof. unfold of_kind, type_num. do 2 case_bool_decide; subst; by destruct (is_write p). Qed.

(** [print_mtrace] lists the accesses of one kind, wherever they are.  For
    every range that does not wrap around, the command prints, in order, all
    recorded accesses of the given kind (all of them for a kind other than
    ["r"] and ["w"]): the two comparisons with the ends of the range are joined
    by "or", so that the range selects nothing. *)
Theorem print_mtrace_ignores_range type addr len mt : is_word addr -> 0 <= len -> addr + len < 2 ^ 64 -> dangling mt = false ->
  print_mtrace type addr len mt = Ok (print_point <$> filter (fun p => of_kind type p = true) (points mt)).
Proof.
  intros Ha Hl Hw Hd. unfold print_mtrace. rewrite Hd. cbn [negb ensure mbind Res_bind]. do 2 f_equal.
  apply list_filter_iff. intros p. unfold selected. rewrite <-of_kind_num.
  replace ((addr <=? mt_addr p) || (mt_addr p <=? (addr + len)%word)) with true; [by rewrite andb_true_r |].
  unfold add64. rewrite wrap64_small by (unfold is_word in *; lia). lia.
Qed.

Lemma print_mtrace_ignores_range_witness :
  print_mtrace (text_of "w") 0x80000000 4 (mkMtrace [mkMtracePoint true 0x10 8 7] false) =
  Ok [text_of "write addr:10 len:8 data:7"].
Proof.
  transitivity (@Ok (list (list ascii)) (print_point <$> filter (fun p => of_kind (text_of "w") p = true) [mkMtracePoint true 0x10 8 7])).
  - apply (print_mtrace_ignores_range (text_of "w") 0x80000000 4 (mkMtrace [mkMtracePoint true 0x10 8 7] false));
      [split; [lia | reflexivity] | lia | lia | reflexivity].
  - reflexivity.
Defined.
