(* ===== verification/Core.v ===== *)
(** * The cores of the dual configuration (src/cpu/core.c, include/cpu/core.h)

    Every hart has a [Core] with its registers, CSRs, first-level caches,
    engine state and predictor.  [core_cycle] installs one of them into the
    globals that the rest of the simulator works on, runs its engine for one
    clock and saves it again.  Also here: the per-core entry points of
    pipeline.c and ooo.c. *)

From S2P Require Import Prelude Word State Pmp Csr Cache CacheSet CacheSpec CacheRefine Coherence Mmio Mem Ftrace Vmem VmemSpec Decode Ir IrSpec Exec Isa Bpred Pipeline Ringbuf Ooo.

(** ** Data *)

Definition MAX_CORES : nat := 2.

Inductive CoreMode :=
  | CORE_MODE_FUNCTIONAL
  | CORE_MODE_INORDER
  | CORE_MODE_OOO.

#[export] Instance CoreMode_eq_dec : EqDecision CoreMode.
Proof. solve_decision. Defined.

Record Core := mkCore {
  core_id : Z;
  mode : CoreMode;
  c_cpu : CPU_state;
  c_csr : CSR;
  c_priv_level : Z;
  c_pmpcfg : list Z;
  c_pmpaddr : list Z;
  c_pmp_on_count : Z;         (** never read or written after the [memset] *)
  c_sim_cycles : Z;
  c_sim_instret : Z;
  c_l1i : ptr;
  c_l1d : ptr;
  c_pipe : Pipeline;
  c_pipe_stats : PipeStats;
  c_ooo : OOOState;
  c_ooo_stats : OOOStats;
  c_bpred : BranchPredictor;
  bpred_enabled : bool;
}.

(** The [memset] of the whole record; the null latch pointers are index -1. *)
Definition zero_pipe : Pipeline := mkPipeline (-1) (-1) (-1) (-1) (replicate 4 inhabitant) 0 0.
Definition zero_core : Core :=
  {| core_id := 0; mode := CORE_MODE_FUNCTIONAL; c_cpu := mkCPU (replicate 32 0) 0; c_csr := csr_zero;
     c_priv_level := 0; c_pmpcfg := replicate PMP_NUMBER_IN_SUSTEMU 0;
     c_pmpaddr := replicate PMP_NUMBER_IN_SUSTEMU 0; c_pmp_on_count := 0; c_sim_cycles := 0;
     c_sim_instret := 0; c_l1i := None; c_l1d := None; c_pipe := zero_pipe; c_pipe_stats := zero_stats;
     c_ooo := zero_ooo; c_ooo_stats := zero_ooo_stats; c_bpred := bpred_init; bpred_enabled := false |}.

#[export] Instance Core_inhabited : Inhabited Core := populate zero_core.

(** ** Installing and saving a core's context *)

(** The CSR file seen by a core: [pmp_on_count] stays as it is. *)
Definition install_csrf (c : Core) (f : CsrFile) : CsrFile :=
  mkCsrFile (c_csr c) (c_priv_level c) (mkPmp (c_pmpcfg c) (c_pmpaddr c) (pmp_on_count (pmp f))).

Definition bus_csrf (f : CsrFile) (b : Bus) : Bus := {| b with csrf := f |}.

Definition install (c : Core) (m : Mach) : Mach :=
  {| m with bus := bus_csrf (install_csrf c (csrf (bus m))) (bus m);
            L1I_cache := c_l1i c; L1D_cache := c_l1d c;
            g_current_hartid := core_id c; cpu := c_cpu c |}.

Definition save (m : Mach) (c : Core) : Core :=
  let f := csrf (bus m) in
  {| c with c_cpu := cpu m; c_csr := csr f; c_priv_level := priv_level f;
            c_pmpcfg := pmpcfg (pmp f); c_pmpaddr := pmpaddr (pmp f) |}.

(** ** The in-order engine of a core (pipeline.c) *)

Definition pipeline_init_core (m : Mach) (c : Core) : Core :=
  let empty (r : PipeReg) := {| r with pr_valid := false |} in
  {| c with c_pipe := {| p_id := 0; p_ex := 1; p_mem := 2; p_wb := 3; slots := empty <$> slots (c_pipe c);
                         fetch_pc := pc (cpu m); mem_stall_rem := 0 |};
            c_pipe_stats := zero_stats;
            c_bpred := if bpred_enabled c then bpred_init else c_bpred c |}.

(** The core's pipeline and predictor become the globals. *)
Definition pipe_in (c : Core) (w : PipeWorld) : PipeWorld :=
  put_bpred (c_bpred c) (put_stats (c_pipe_stats c) (put_pipe (c_pipe c) w)).

Definition pipe_out (w : PipeWorld) (c : Core) : Core :=
  {| c with c_sim_cycles := ps_cycles (pipe_stats w); c_sim_instret := ps_insts (pipe_stats w);
            c_pipe := cpu_pipe w; c_pipe_stats := pipe_stats w; c_bpred := bpred w |}.

(** The globals as they were before. *)
Definition pipe_restore (w0 w : PipeWorld) : PipeWorld :=
  put_bpred (bpred w0) (put_stats (pipe_stats w0) (put_pipe (cpu_pipe w0) w)).

Definition count_insts (w : PipeWorld) : PipeWorld :=
  let m := mach w in put_mach {| m with g_sim_instret := ps_insts (pipe_stats w) |} w.

(** [g_pipe_rotated] is cleared before the stages, which never set it. *)
Definition pipeline_cycle_core (c : Core) (w0 : PipeWorld) : Res (Core * PipeWorld) :=
  let w := put_stalled false (pipe_in c w0) in
  let pp := cpu_pipe w in
  w ← (if 0 <? mem_stall_rem pp
       then Ok (put_pipe {| pp with mem_stall_rem := mem_stall_rem pp - 1 |} w)
       else run_stages w);
  let w := count_insts (count_cycle w) in
  Ok (pipe_out w c, pipe_restore w0 w).

(** ** The out-of-order engine of a core (ooo.c) *)

Definition put_obpred (bp : BranchPredictor) (w : OooWorld) : OooWorld := put_pw (put_bpred bp (pw w)) w.

Definition ooo_in (c : Core) (w : OooWorld) : OooWorld :=
  put_obpred (c_bpred c) (put_ostats (c_ooo_stats c) (put_ooo (c_ooo c) w)).

Definition ooo_out (w : OooWorld) (c : Core) : Core :=
  {| c with c_ooo := ooo w; c_ooo_stats := ooo_stats w; c_bpred := bpred (pw w) |}.

Definition ooo_restore (w0 w : OooWorld) : OooWorld :=
  put_obpred (bpred (pw w0)) (put_ostats (ooo_stats w0) (put_ooo (ooo w0) w)).

Definition ooo_init_core (c : Core) (w0 : OooWorld) : Core * OooWorld :=
  let w := ooo_init (ooo_in c w0) in (ooo_out w c, ooo_restore w0 w).

Definition ooo_cycle_core (c : Core) (w0 : OooWorld) : Res (Core * OooWorld) :=
  w ← ooo_stages (ooo_in c w0);
  let w := ooo_count w in
  let c := {| c with c_sim_cycles := os_cycles (ooo_stats w); c_sim_instret := os_insts (ooo_stats w) |} in
  Ok (ooo_out w c, ooo_restore w0 w).

(** ** core.c *)

(** [init_cache]: a new object, never freed. *)
Definition alloc_cache (o : Cache) (m : Mach) : ptr * Mach :=
  (Some (Z.of_nat (length (heap m))), {| m with heap := heap m ++ [o] |}).

(** [core_create]; vmem.c reads the new [l1d] through [cores[core_id]]. *)
Definition core_create (id : Z) (md : CoreMode) (bp : bool) (m : Mach) : Core * Mach :=
  let f := csrf (bus m) in
  let '(pi, m) := alloc_cache (init_cache 6 8 "L1I") m in
  let '(pd, m) := alloc_cache (init_cache L1D_S 8 "L1D") m in
  let c := {| zero_core with core_id := id; mode := md; bpred_enabled := bp; c_cpu := cpu m; c_csr := csr f;
              c_priv_level := priv_level f; c_pmpcfg := pmpcfg (pmp f); c_pmpaddr := pmpaddr (pmp f);
              c_l1i := pi; c_l1d := pd;
              c_bpred := bpred_init |} in
  let c := if bool_decide (md = CORE_MODE_INORDER) then pipeline_init_core m c else c in
  (c, {| m with cores_l1d := upd (cores_l1d m) id pd |}).

(** What [core_create] does to the machine and which caches the core gets. *)
Definition new_l1 : list Cache := [init_cache 6 8 "L1I"; init_cache L1D_S 8 "L1D"].

Lemma core_create_ok id md bp m :
  let n := Z.of_nat (length (heap m)) in
  let '(c, m') := core_create id md bp m in
  m' = {| m with heap := heap m ++ new_l1; cores_l1d := upd (cores_l1d m) id (Some (n + 1)) |} /\
  core_id c = id /\ mode c = md /\ c_cpu c = cpu m /\ c_csr c = csr (csrf (bus m)) /\
  c_priv_level c = priv_level (csrf (bus m)) /\ c_pmpcfg c = pmpcfg (pmp (csrf (bus m))) /\
  c_pmpaddr c = pmpaddr (pmp (csrf (bus m))) /\ c_l1i c = Some n /\ c_l1d c = Some (n + 1).
Proof.
  cbv zeta. unfold core_create, alloc_cache. cbn [heap].
  assert (El : Z.of_nat (length (heap m ++ [init_cache 6 8 "L1I"])) = Z.of_nat (length (heap m)) + 1)
    by (rewrite length_app; cbn [length]; lia).
  rewrite El, <-app_assoc. split; [by destruct m |]. by case_bool_decide.
Qed.

(** [c->sim_cycles++; c->sim_instret++] *)
Definition count_core (c : Core) : Core :=
  {| c with c_sim_cycles := (c_sim_cycles c + 1)%word; c_sim_instret := (c_sim_instret c + 1)%word |}.

(** The functional step of a core; [ir0] is what [IR_Inst ir] holds. *)
Definition exec_once_core (ir0 : IR_Inst) (c : Core) (m : Mach) : Res (Core * Mach) :=
  '(_, m) ← exec_inst ir0 m;
  Ok (count_core c, m).

(** Step 2 of [core_cycle]: the engine. *)
Definition core_engine (ir0 : IR_Inst) (c : Core) (w : OooWorld) : Res (Core * OooWorld) :=
  match mode c with
  | CORE_MODE_FUNCTIONAL => '(c, m) ← exec_once_core ir0 c (omach w); Ok (c, put_omach m w)
  | CORE_MODE_INORDER => '(c, p) ← pipeline_cycle_core c (pw w); Ok (c, put_pw p w)
  | CORE_MODE_OOO => ooo_cycle_core c w
  end.

Definition core_cycle (ir0 : IR_Inst) (c : Core) (w : OooWorld) : Res (Core * OooWorld) :=
  '(c, w) ← core_engine ir0 c (put_omach (install c (omach w)) w);
  Ok (save (omach w) c, w).
