(* ===== verification/Dual.v ===== *)
(** * Two functional cores on one memory

    [core_cycle] swaps a core's context in and out of the globals.  The
    switch keeps the memory system coherent and shows both cores the same
    bytes, an instruction of one core leaves the other core's context and its
    instruction cache alone, and so every schedule of core cycles is the same
    schedule of instructions of two abstract harts that share one flat
    memory. *)

From S2P Require Import Prelude Word State Pmp Csr Cache CacheSet CacheSpec CacheRefine Coherence Mmio Mem Ftrace Vmem VmemSpec Decode Ir InstTable IrSpec Exec Isa Bpred Pipeline Ringbuf Ooo Core.

(** ** Cache objects an instruction cannot reach *)

(** [p] is not one of the four caches that the installed core works on. *)
Record foreign (p : ptr) (m : Mach) : Prop := {
  fo_ptr : exists i, p = Some i /\ 0 <= i;
  fo_i : p <> L1I_cache m;
  fo_d : p <> L1D_cache m;
  fo_2 : p <> L2_cache m;
  fo_o : p <> other_ptr m;
}.

(** The object is the same, and so are the pointers. *)
Record keeps (p : ptr) (m m' : Mach) : Prop := {
  kp_obj : cache_of p m' = cache_of p m;
  kp_i : L1I_cache m' = L1I_cache m;
  kp_d : L1D_cache m' = L1D_cache m;
  kp_2 : L2_cache m' = L2_cache m;
  kp_l : cores_l1d m' = cores_l1d m;
  kp_h : g_current_hartid m' = g_current_hartid m;
}.

#[export] Instance keeps_preorder p : PreOrder (keeps p).
Proof. split; [done |]. intros a b c [? ? ? ? ? ?] [? ? ? ? ? ?]. split; congruence. Qed.

Lemma foreign_keeps p m m' : keeps p m m' -> foreign p m -> foreign p m'.
Proof.
  intros [_ Ei Ed E2 El Eh] [? ? ? ? ?]. split; [done | | | |]; unfold other_ptr in *; by rewrite ?Ei, ?Ed, ?E2, ?El, ?Eh.
Qed.

Lemma put_cache_keeps p q c m : foreign p m -> p <> q -> keeps p m (put_cache q c m).
Proof.
  intros [(i & -> & Hi) _ _ _ _] Hne. destruct q as [j|]; [| done]. split; try done.
  unfold cache_of, put_cache. cbn. apply arr_upd_ne; [done | congruence].
Qed.

Lemma on_caches_keeps {A} p p1 p2 (f : Cache -> Cache -> Bus -> Res (A * (Cache * Cache * Bus))) m r m' :
  foreign p m -> p <> p1 -> p <> p2 -> on_caches p1 p2 f m = Ok (r, m') -> keeps p m m'.
Proof.
  intros Hp H1 H2 E. unfold on_caches in E. apply bind_Ok_inv in E as (c1 & _ & E).
  apply bind_Ok_inv in E as (c2 & _ & E). apply bind_Ok_inv in E as ([r' [[c1' c2'] b]] & _ & E).
  simplify_eq/=. pose proof (put_cache_keeps p p1 c1' m Hp H1) as K1.
  pose proof (put_cache_keeps p p2 c2' _ (foreign_keeps _ _ _ K1 Hp) H2) as K2.
  by do 2 (etrans; [eassumption |]).
Qed.

Lemma snoop_keeps p f m m' : foreign p m -> snoop_other f m = Ok m' -> keeps p m m'.
Proof.
  intros Hp E. unfold snoop_other in E. fold (other_ptr m) in E. case_if_in E; [| by simplify_eq].
  apply bind_Ok_inv in E as (l2 & _ & E). apply bind_Ok_inv in E as (c & _ & E).
  apply bind_Ok_inv in E as ([[oc l2'] b] & _ & E). simplify_eq/=.
  set (m1 := match oc with Some c => put_cache (other_ptr m) c m | None => m end).
  assert (K1 : keeps p m m1).
  { unfold m1. destruct oc; [| done]. apply put_cache_keeps; [done | apply Hp]. }
  pose proof (foreign_keeps _ _ _ K1 Hp) as Hp1.
  pose proof (put_cache_keeps p (L2_cache m1) l2' m1 Hp1 (fo_2 _ _ Hp1)) as K2.
  by do 2 (etrans; [eassumption |]).
Qed.

Lemma bus_read_keeps p a len m v m' : bus_read a len m = Ok (v, m') -> keeps p m m'.
Proof. unfold bus_read. intros E. inv_pairs. done. Qed.
Lemma bus_write_keeps p a len v m m' : bus_write a len v m = Ok m' -> keeps p m m'.
Proof. unfold bus_write. intros E. inv_res. done. Qed.

Section Keeps.
Context (p : ptr) (m : Mach) (Hp : foreign p m).

Lemma vaddr_ifetch_keeps a len v m' : vaddr_ifetch a len m = Ok (v, m') -> keeps p m m'.
Proof using Hp.
  unfold vaddr_ifetch. case_if; [| apply bus_read_keeps]. by apply on_caches_keeps; apply Hp.
Qed.

Lemma vaddr_read_keeps a len v m' : vaddr_read a len m = Ok (v, m') -> keeps p m m'.
Proof using Hp.
  unfold vaddr_read. case_if; [| apply bus_read_keeps]. intros E0.
  apply bind_Ok_inv in E0 as (m1 & E1 & E0). apply (snoop_keeps p _ _ _ Hp) in E1.
  pose proof (foreign_keeps _ _ _ E1 Hp) as Hp1. etrans; [exact E1 |].
  by eapply on_caches_keeps, E0; apply Hp1.
Qed.

Lemma vaddr_write_keeps a len v m' : vaddr_write a len v m = Ok m' -> keeps p m m'.
Proof using Hp.
  unfold vaddr_write. case_if; [| apply bus_write_keeps]. intros E0.
  apply bind_Ok_inv in E0 as (m1 & E1 & E0). apply (snoop_keeps p _ _ _ Hp) in E1.
  pose proof (foreign_keeps _ _ _ E1 Hp) as Hp1. etrans; [exact E1 |].
  apply bind_Ok_inv in E0 as ([u m2] & E2 & E0). simplify_eq/=. by eapply on_caches_keeps, E2; apply Hp1.
Qed.
End Keeps.

Lemma mem_access_keeps p ir m ir' lat m' : foreign p m -> ir_mem_access false ir m = Ok (ir', lat, m') -> keeps p m m'.
Proof.
  intros Hp E. unfold ir_mem_access in E. destruct (ir_type ir); inv_res; try done.
  - destruct x0 as [raw m1]. simplify_eq/=. by eapply vaddr_read_keeps.
  - by eapply vaddr_write_keeps.
Qed.

Lemma exec_inst_keeps p ir0 m ir m' : foreign p m -> mach_wf m -> ir_ok ir0 ->
  exec_inst ir0 m = Ok (ir, m') -> keeps p m m'.
Proof.
  intros Hp Hwf H0 E. unfold exec_inst in E.
  apply bind_Ok_inv in E as ([d1 m1] & E1 & E). apply bind_Ok_inv in E as ([d2 m2] & E2 & E).
  apply bind_Ok_inv in E as ([[d3 lat] m3] & E3 & E). apply bind_Ok_inv in E as (c & _ & E). simplify_eq/=.
  destruct (fetch_decode_ok _ _ _ _ Hwf H0 E1) as (Hwf1 & _ & Hd1 & _).
  assert (K1 : keeps p m m1).
  { unfold fetch_decode in E1. apply bind_Ok_inv in E1 as ([v m0] & Ef & E1). simplify_eq/=.
    assert (K0 : keeps p m (fetch_pmp (pc (cpu m)) m)) by done.
    etrans; [exact K0 |]. eapply vaddr_ifetch_keeps, Ef. by eapply foreign_keeps. }
  destruct (ir_execute_ok _ _ _ _ Hd1 Hwf1 E2) as ([_ [[Eh ? ? ? ? ? ? _] _ _ _ _ _ _] _ _] & _ & _).
  assert (K2 : keeps p m1 m2) by (split; [unfold cache_of; by rewrite Eh | done..]).
  assert (K : keeps p m m2) by (by etrans).
  etrans; [exact K |]. apply (mem_access_keeps p) in E3; [| by eapply foreign_keeps]. by etrans; [exact E3 |].
Qed.

(** ** The context switch *)

(** [m'] is [m] with the two cores' roles exchanged. *)
Record switched (m m' : Mach) : Prop := {
  sw_heap : heap m' = heap m;
  sw_p2 : L2_cache m' = L2_cache m;
  sw_num : g_num_cores m' = g_num_cores m;
  sw_pmem : pmem (bus m') = pmem (bus m);
  sw_own : L1D_cache m' = other_ptr m;
  sw_other : other_ptr m' = L1D_cache m;
  sw_i : foreign (L1I_cache m') m;
  sw_iok : ptr_ok (L1I_cache m') m;
}.

Lemma switch_caches m m' : switched m m' -> 1 < g_num_cores m ->
  l2c m' = l2c m /\ own m' = cache_of (other_ptr m) m /\ other m' = Some (own m) /\
  other m = Some (cache_of (other_ptr m) m).
Proof.
  intros [Eh E2 En _ Ed Eo _ _] Hn. unfold l2c, own, other, cache_of. rewrite Eh, E2, En, Ed, Eo.
  by replace (1 <? g_num_cores m) with true by lia.
Qed.

(** Coherence is symmetric: the switch keeps the memory system well formed and
    both cores see the same bytes. *)
Lemma switch_inv m m' : switched m m' -> 1 < g_num_cores m -> mem_inv m -> bus_wf (bus m') ->
  ro_inv (M := Bus) (icache m') -> mem_inv m' /\ (forall k, dview m' k = dview m k) /\
  (forall k, lower (l2c m') (bus m') k = lower (l2c m) (bus m) k).
Proof.
  intros Hs Hn [[Pi Pd P2 Pi2 Pd2 Pid Pdual] Hb Hd Hi] Hb' Hi'.
  destruct (switch_caches m m' Hs Hn) as (E2 & Eo & Et' & Et). destruct (Pdual Hn) as (Po & Poi & Pod & Po2).
  destruct Hs as [Eh Ep2 En Epm Ed Eot [_ Fi Fd F2 Fo] Iok].
  assert (Hlen : length (heap m) = length (heap m')) by (by rewrite Eh).
  rewrite Et in Hd. set (o := cache_of (other_ptr m) m) in *.
  assert (Hlow : forall c k, lower c (bus m') k = lower c (bus m) k) by (intros; by apply lower_pmem).
  split; [split | split].
  - split; rewrite ?Ep2, ?Ed, ?Eot, ?En; try (by eapply ptr_ok_len); try done.
    intros _. split; [by eapply ptr_ok_len | done].
  - done.
  - rewrite Et', Eo, E2. destruct Hd as [H1 H2 H3 H4].
    split; [by apply (hier_pmem (bus m)) | by apply (hier_pmem (bus m)) | done | done].
  - done.
  - intros k. unfold dview. rewrite Et', Et, Eo, E2. rewrite (cview_sym (own m) o) by done.
    unfold cview, hview, view. by rewrite !Hlow.
  - intros k. by rewrite E2, Hlow.
Qed.

(** ** Two abstract harts on one memory *)

Record DualIsa := mkDual {
  d_harts : list (Z * list Z);    (** pc and registers *)
  d_mem : flat;
}.

Definition hart (i : Z) (d : DualIsa) : Isa := mkIsa (arr (d_harts d) i).1 (arr (d_harts d) i).2 (d_mem d).
Definition put_hart (i : Z) (s : Isa) (d : DualIsa) : DualIsa :=
  mkDual (upd (d_harts d) i (isa_pc s, isa_gpr s)) (isa_mem s).

Definition dual_eq (d d' : DualIsa) : Prop :=
  d_harts d = d_harts d' /\ forall a, cached a = true -> d_mem d a = d_mem d' a.

#[export] Instance dual_eq_equiv : Equivalence dual_eq.
Proof.
  split.
  - by intros d.
  - intros d d' [E H]. split; [done |]. intros a Ha. by rewrite H.
  - intros d1 d2 d3 [E H] [E' H']. split; [congruence |]. intros a Ha. by rewrite H, H'.
Qed.

(** The harts of a schedule execute one instruction each, from code blocks that
    none of them overwrites. *)
Inductive dual_run (code : Z -> Prop) : list Z -> DualIsa -> DualIsa -> Prop :=
  | dual_done d : dual_run code [] d d
  | dual_step i sched d d' r : 0 <= i < 2 -> step_ready r (hart i d) -> code (blk (isa_pc (hart i d))) ->
      (forall k, code k -> ~ isa_touched r (hart i d) k) ->
      dual_run code sched (put_hart i (isa_next r (hart i d)) d) d' -> dual_run code (i :: sched) d d'.

(** ** The simulator as two harts *)

Definition core_hart (c : Core) : Z * list Z := (pc (c_cpu c), gpr (c_cpu c)).
Definition dual_abs (cs : list Core) (m : Mach) : DualIsa :=
  mkDual (core_hart <$> cs) (mem_byte (install (arr cs 0) m)).

(** The caches of both cores, all different. *)
Definition core_ptrs (cs : list Core) (m : Mach) : list ptr :=
  [c_l1i (arr cs 0); c_l1d (arr cs 0); c_l1i (arr cs 1); c_l1d (arr cs 1); L2_cache m].

Record dual_wf (cs : list Core) (m : Mach) : Prop := {
  dw_len : length cs = 2%nat;
  dw_num : g_num_cores m = 2;
  dw_ptrs : NoDup (core_ptrs cs m) /\ Forall (fun p => ptr_ok p m) (core_ptrs cs m);
  dw_id : forall i, 0 <= i < 2 -> core_id (arr cs i) = i;
  dw_l1d : forall i, 0 <= i < 2 -> arr (cores_l1d m) i = c_l1d (arr cs i);
  dw_mach : forall i, 0 <= i < 2 -> mach_wf (install (arr cs i) m);
  dw_ftrace : g_ftrace_en (ftrace m) = false;
}.

(** The PMP's answer for a fetch. *)
Definition fetch_allowed (a : Z) (m : Mach) : bool :=
  pmp_allows (pmp (csrf (bus m))) (priv_level (csrf (bus m))) a true false.

Lemma fetch_pmp_allowed a m : fetch_allowed a m = true -> sim (bus (fetch_pmp a m)) = sim (bus m).
Proof. unfold fetch_allowed, fetch_pmp, bus_pmp_check, pmp_check. cbn. by intros ->. Qed.

(** Both cores in functional mode, with code that is up to date in both
    instruction caches and that the PMP lets them execute. *)
Record code_ok (code : Z -> Prop) (cs : list Core) (m : Mach) : Prop := {
  co_mode : forall i, 0 <= i < 2 -> mode (arr cs i) = CORE_MODE_FUNCTIONAL;
  co_ram : forall k, code k -> ram_blk (M := Bus) k;
  co_fresh : forall i k, 0 <= i < 2 -> code k -> fresh (install (arr cs i) m) k;
  co_pmp : forall i a, 0 <= i < 2 -> code (blk a) -> fetch_allowed a (install (arr cs i) m) = true;
}.

Lemma hart_cases i : 0 <= i < 2 -> i = 0 /\ 1 - i = 1 \/ i = 1 /\ 1 - i = 0.
Proof. lia. Qed.

(** What the switch needs of the step before it. *)
Record ptr_frame (m m' : Mach) : Prop := {
  pf_hart : g_current_hartid m' = g_current_hartid m;
  pf_num : g_num_cores m' = g_num_cores m;
  pf_l1d : cores_l1d m' = cores_l1d m;
  pf_pi : L1I_cache m' = L1I_cache m;
  pf_pd : L1D_cache m' = L1D_cache m;
  pf_p2 : L2_cache m' = L2_cache m;
  pf_len : length (heap m') = length (heap m);
}.

Lemma inst_ptr_frame m m' : inst_frame m m' -> ptr_frame m m'.
Proof. by intros []. Qed.

(** The other core's context instead of the installed one. *)
Lemma install_switched cs m m' i : dual_wf cs m -> 0 <= i < 2 ->
  ptr_frame (install (arr cs i) m) m' -> switched m' (install (arr cs (1 - i)) m').
Proof.
  intros [Hl Hn [Hnd Hok] Hid Hd _ _] Hi [Eh En El Ei Ed E2 Elen].
  assert (Hp : forall p, ptr_ok p m -> ptr_ok p m').
  { intros p. apply ptr_ok_len. by rewrite Elen. }
  cbn [install g_current_hartid g_num_cores cores_l1d L1I_cache L1D_cache L2_cache heap] in *.
  unfold core_ptrs in *. rewrite !Forall_cons in Hok. destruct Hok as (? & ? & ? & ? & ? & _).
  rewrite !NoDup_cons, !not_elem_of_cons in Hnd.
  destruct Hnd as ((? & ? & ? & ? & _) & (? & ? & ? & _) & (? & ? & _) & (? & _) & _).
  pose proof (Hid i Hi) as Ei0. pose proof (Hid (1 - i) ltac:(lia)) as Ej0.
  assert (Eo : other_ptr m' = c_l1d (arr cs (1 - i))).
  { unfold other_ptr. rewrite El, Eh, Ei0. apply Hd. lia. }
  assert (Eo' : other_ptr (install (arr cs (1 - i)) m') = c_l1d (arr cs i)).
  { unfold other_ptr. cbn [install cores_l1d g_current_hartid]. rewrite El, Ej0.
    replace (1 - (1 - i)) with i by lia. by apply Hd. }
  assert (Hj : ptr_ok (c_l1i (arr cs (1 - i))) m).
  { destruct (hart_cases i Hi) as [[-> ->] | [-> ->]]; done. }
  split; cbn [install heap L2_cache g_num_cores bus pmem bus_csrf L1D_cache L1I_cache]; try done.
  - by rewrite Eo', Ed.
  - destruct Hj as (j & Ej & Hj). unfold in_range in Hj. zify_bool.
    split; rewrite ?Ei, ?Ed, ?E2, ?Eo; [exists j; split; [done | lia] | ..];
      destruct (hart_cases i Hi) as [[-> ->] | [-> ->]]; congruence.
  - by apply Hp.
Qed.

(** ** One core cycle *)

(** Installing what was just saved changes nothing. *)
Lemma install_save c m : c_l1i c = L1I_cache m -> c_l1d c = L1D_cache m -> core_id c = g_current_hartid m ->
  install (save m c) m = m.
Proof. destruct m as [[? [? ? []] ? ?] ? ? ? ? ? ? ? ? ? [] ?], c. cbn. by intros -> -> ->. Qed.

(** A step changes memory only in the block it touches. *)
Lemma isa_next_untouched r s a : step_ready r s -> ~ isa_touched r s (blk a) ->
  isa_mem (isa_next r s) a = isa_mem s a.
Proof.
  intros [_ _ _ _ _ Hd]. unfold isa_touched, isa_next, isa_step, isa_defined in *.
  destruct (isa_outcome _ _ _ _) as [| | | addr w v]; try done. cbn [touched isa_mem]. intros Hne.
  destruct Hd as [_ [Hw Hb]]. unfold flat_write. case_if; [| done]. zify_bool. destruct Hne.
  destruct (blk_add addr (a - addr)) as [E _]; [lia | lia |]. by replace (addr + (a - addr)) with a in E by lia.
Qed.

Lemma dview_ext m m' k : mem_inv m -> mem_inv m' -> ram_blk (M := Bus) k ->
  (forall a, blk a = k -> mem_byte m' a = mem_byte m a) -> dview m' k = dview m k.
Proof.
  intros Hm Hm' Hk Hb. pose proof (dview_is_block m k Hm Hk) as [L _]. pose proof (dview_is_block m' k Hm' Hk) as [L' _].
  apply list_eq_arr; [congruence |]. rewrite L'. intros i Hi. unfold BLOCK_SIZE in Hi.
  specialize (Hb (i + k * 64)). unfold mem_byte, bytes_of, blk in Hb.
  rewrite Z.div_add, Z.div_small, Z.mod_add, Z.mod_small in Hb by lia. by apply Hb.
Qed.

Section Step.
Context (code : Z -> Prop) (cs : list Core) (m : Mach) (i : Z).
Context (Hwf : dual_wf cs m) (Hco : code_ok code cs m) (Hi : 0 <= i < 2).
Context (r : inst_row) (m' : Mach) (c' : Core).
Let m1 := install (arr cs i) m.
Let cs' := upd cs i c'.
Context (Hwf' : mach_wf m') (Hnf : inst_frame m1 m') (Hft : ftrace m' = ftrace m)
  (Hready : step_ready r (abs m1)) (Heq : isa_eq (abs m') (isa_next r (abs m1)))
  (Hunt : forall k, code k -> ~ isa_touched r (abs m1) k)
  (Hfr : forall k, code k -> fresh m' k)
  (Hkeep : keeps (c_l1i (arr cs (1 - i))) m1 m')
  (Hc' : install c' m' = m') (Hci : core_id c' = core_id (arr cs i)) (Hcm : mode c' = mode (arr cs i))
  (Hcp : c_l1i c' = c_l1i (arr cs i) /\ c_l1d c' = c_l1d (arr cs i)).

Lemma arr_cs' j : 0 <= j < 2 -> arr cs' j = if j =? i then c' else arr cs j.
Proof using Hwf Hi.
  intros Hj. unfold cs'. rewrite arr_upd by (rewrite ?(dw_len _ _ Hwf); lia). by rewrite (Z.eqb_sym i j).
Qed.

(** Core [1 - i] in the new machine: the same bytes, its own instruction cache. *)
Lemma other_core : mach_wf (install (arr cs (1 - i)) m') /\
  (forall k, dview (install (arr cs (1 - i)) m') k = dview m' k) /\
  (forall k, code k -> fresh (install (arr cs (1 - i)) m') k).
Proof using All.
  set (mj := install (arr cs (1 - i)) m'). pose proof (dw_mach _ _ Hwf (1 - i) ltac:(lia)) as [Hmj Hgj Hpj _ _].
  pose proof (install_switched cs m m' i Hwf Hi (inst_ptr_frame _ _ Hnf)) as Hsw. fold mj in Hsw.
  pose proof (mw_mem _ Hwf') as Hm'. pose proof Hnf as [_ En _ _ _ _ _ Ecf Eio _].
  assert (Hn : 1 < g_num_cores m').
  { rewrite En. unfold m1. cbn. rewrite (dw_num _ _ Hwf). lia. }
  assert (Hic : icache mj = icache (install (arr cs (1 - i)) m)) by apply (kp_obj _ _ _ Hkeep).
  assert (Hb : bus_wf (bus mj)).
  { destruct (mi_bus _ Hm') as [Hp' Hio' _], (mi_bus _ Hmj) as [_ _ Hcf]. split; [done | done |].
    cbn in Hcf |- *. unfold install_csrf. by rewrite Ecf. }
  destruct (switch_inv m' mj Hsw Hn Hm' Hb) as (Hmj' & Hdv & Hlow); [rewrite Hic; apply Hmj |].
  split; [split; [done | done | done | apply Hwf' | apply Hwf'] | split; [done |]].
  intros k Hk. destruct (Hfr k Hk) as [_ Hl]. destruct (co_fresh _ _ _ Hco (1 - i) k ltac:(lia) Hk) as [Hf _].
  split; [| by rewrite Hdv, Hlow]. intros x Hx. rewrite Hic in Hx. rewrite (Hf x Hx), Hdv. symmetry.
  pose proof (install_switched cs m m1 i Hwf Hi ltac:(by split)) as Hsw0.
  pose proof (dw_mach _ _ Hwf i Hi) as [Hm1 _ _ _ _].
  destruct (switch_inv m1 (install (arr cs (1 - i)) m1) Hsw0) as (_ & Hdv0 & _).
  { unfold m1. cbn. rewrite (dw_num _ _ Hwf). lia. }
  { done. } { exact (mi_bus _ Hmj). } { exact (mi_icache _ Hmj). }
  change (dview (install (arr cs (1 - i)) m) k) with (dview (install (arr cs (1 - i)) m1) k).
  rewrite Hdv0. apply dview_ext; [done | done | by apply (co_ram _ _ _ Hco) |].
  intros a Ea. assert (Hka : ram_blk (M := Bus) (blk a)) by (rewrite Ea; by apply (co_ram _ _ _ Hco)).
  change (isa_mem (abs m') a = isa_mem (abs m1) a). rewrite (ie_mem _ _ Heq) by (by apply ram_cached).
  apply isa_next_untouched; [done |]. rewrite Ea. by apply Hunt.
Qed.

Lemma step_dual_wf : dual_wf cs' m' /\ code_ok code cs' m' /\
  dual_eq (dual_abs cs' m') (put_hart i (isa_next r (abs m1)) (dual_abs cs m)).
Proof using All.
  destruct other_core as (Hj & Hdj & Hfj). destruct Hcp as [Epi Epd].
  pose proof Hwf as [Hl Hn [Hnd Hok] Hid Hd _ Hf].
  pose proof Hnf as [_ En El _ _ E2 Elen _ _ _]. cbn in En, El, E2, Elen.
  assert (Hcs : forall j, 0 <= j < 2 -> arr cs' j = if j =? i then c' else arr cs j) by apply arr_cs'.
  assert (Hall : forall (P : Core -> Prop), P c' -> P (arr cs (1 - i)) -> forall j, 0 <= j < 2 -> P (arr cs' j)).
  { intros P H1 H2 j Hjr. rewrite Hcs by done. destruct (Z.eqb_spec j i); [done |].
    by replace j with (1 - i) by lia. }
  assert (Hptr : core_ptrs cs' m' = core_ptrs cs m).
  { unfold core_ptrs. rewrite !Hcs, E2 by lia. destruct (hart_cases i Hi) as [[-> _] | [-> _]]; cbn; by rewrite Epi, Epd. }
  split; [split | split; [split |]].
  - unfold cs'. by rewrite length_upd.
  - by rewrite En.
  - rewrite Hptr. split; [done |]. eapply Forall_impl; [exact Hok |]. intros p. by apply ptr_ok_len.
  - intros j Hjr. rewrite Hcs by done. destruct (Z.eqb_spec j i) as [->|]; [rewrite Hci |]; by apply Hid.
  - intros j Hjr. rewrite Hcs, El by done. destruct (Z.eqb_spec j i) as [->|]; [rewrite Epd |]; by apply Hd.
  - apply (Hall (fun c => mach_wf (install c m'))); [by rewrite Hc' | done].
  - by rewrite Hft.
  - pose proof (co_mode _ _ _ Hco) as Hmd. apply (Hall (fun c => mode c = CORE_MODE_FUNCTIONAL)); [rewrite Hcm |]; apply Hmd; lia.
  - apply Hco.
  - intros j k Hjr Hk. revert j Hjr. apply (Hall (fun c => fresh (install c m') k)); [rewrite Hc'; by apply Hfr | by apply Hfj].
  - intros j a Hjr Hk. revert j Hjr. pose proof (co_pmp _ _ _ Hco) as Hpm.
    pose proof (nf_csrf _ _ Hnf) as Ecf. apply (Hall (fun c => fetch_allowed a (install c m') = true)).
    + rewrite Hc'. unfold fetch_allowed. rewrite Ecf. by apply Hpm.
    + pose proof (Hpm (1 - i) a ltac:(lia) Hk) as Hp. unfold fetch_allowed in *. cbn in Hp |- *. unfold install_csrf in *.
      by rewrite Ecf.
  - split; cbn [dual_abs put_hart d_harts d_mem].
    + apply list_eq_arr; [unfold cs'; by rewrite !length_fmap, !length_upd, length_fmap |]. intros j Hjr.
      unfold cs' in Hjr. rewrite length_fmap, length_upd, Hl in Hjr.
      assert (Hfm : forall l, length l = 2%nat -> arr (core_hart <$> l) j = core_hart (arr l j)).
      { intros l Hll. unfold arr. by rewrite (list_lookup_total_fmap core_hart l) by lia. }
      rewrite arr_upd by (rewrite ?length_fmap, ?Hl; lia). rewrite !Hfm by (unfold cs'; by rewrite ?length_upd).
      rewrite Hcs by lia. rewrite (Z.eqb_sym i j). destruct (j =? i); [| done].
      pose proof Heq as [Ep Eg _]. rewrite <-Ep, <-Eg. unfold core_hart. rewrite <-Hc'. done.
    + intros a Ha. transitivity (mem_byte m' a); [| by apply Heq].
      unfold mem_byte, bytes_of. rewrite Hcs by lia. destruct (Z.eqb_spec 0 i) as [<-|]; [by rewrite Hc' |].
      replace 0 with (1 - i) at 1 by lia. by rewrite Hdj.
Qed.
End Step.

(** A cycle of core [i] is one instruction of hart [i]. *)
Lemma core_cycle_step code cs w i r ir0 :
  let m := omach w in let m1 := install (arr cs i) m in
  dual_wf cs m -> code_ok code cs m -> 0 <= i < 2 -> ir_ok ir0 -> step_ready r (abs m1) ->
  code (blk (pc (cpu m1))) -> (forall k, code k -> ~ isa_touched r (abs m1) k) ->
  exists c' w', core_cycle ir0 (arr cs i) w = Ok (c', w') /\ w' = put_omach (omach w') w /\
    sim (bus (omach w')) = sim (bus m) /\
    dual_wf (upd cs i c') (omach w') /\ code_ok code (upd cs i c') (omach w') /\
    dual_eq (dual_abs (upd cs i c') (omach w')) (put_hart i (isa_next r (abs m1)) (dual_abs cs m)).
Proof.
  cbv zeta. set (m := omach w). set (m1 := install (arr cs i) m). intros Hwf Hco Hi H0 Hr Hc Hu.
  assert (Hwf1 : mach_wf m1) by (by apply (dw_mach _ _ Hwf)).
  destruct (exec_inst_step r ir0 m1) as (ir & m' & E & Heq & Hwf' & Hft & _ & _ & Hfr & _ & Hnf);
    [done | done | apply (dw_ftrace _ _ Hwf) | done | by apply (co_fresh _ _ _ Hco) |].
  assert (Hk : keeps (c_l1i (arr cs (1 - i))) m1 m').
  { eapply exec_inst_keeps, E; [| done | done].
    apply (sw_i _ _ (install_switched cs m m1 i Hwf Hi ltac:(by split))). }
  set (c1 := count_core (arr cs i)).
  destruct (step_dual_wf code cs m i Hwf Hco Hi r m' (save m' c1)) as (H1 & H2 & H3); try done.
  { intros k Hkc. apply Hfr; [by apply (co_ram _ _ _ Hco) | by apply Hu | by apply (co_fresh _ _ _ Hco)]. }
  { apply install_save; symmetry; apply Hnf. }
  exists (save m' c1), (put_omach m' w). split_and!; try done.
  - unfold core_cycle, core_engine, exec_once_core. rewrite (co_mode _ _ _ Hco) by done.
    change (omach (put_omach (install (arr cs i) (omach w)) w)) with m1. rewrite E. reflexivity.
  - change (sim (bus m') = sim (bus m1)). rewrite (nf_sim _ _ Hnf). apply fetch_pmp_allowed.
    by apply (co_pmp _ _ _ Hco).
Qed.

(** ** Schedules *)

(** One clock for core [i] of the array. *)
Definition cycle_core (ir0 : IR_Inst) (i : Z) (cs : list Core) (w : OooWorld) : Res (list Core * OooWorld) :=
  '(c, w) ← core_cycle ir0 (arr cs i) w; Ok (upd cs i c, w).

Fixpoint run_schedule (junk : nat -> IR_Inst) (sched : list Z) (cs : list Core) (w : OooWorld)
    : Res (list Core * OooWorld) :=
  match sched with
  | [] => Ok (cs, w)
  | i :: sched => '(cs, w) ← cycle_core (junk (length sched)) i cs w; run_schedule junk sched cs w
  end.

Lemma dual_eq_hart i d d' : dual_eq d d' -> isa_eq (hart i d) (hart i d').
Proof. intros [E Em]. unfold hart. rewrite E. by split. Qed.

Lemma dual_eq_put i s s' d d' : dual_eq d d' -> isa_eq s s' -> dual_eq (put_hart i s d) (put_hart i s' d').
Proof. intros [E Em] [Ep Eg Em']. split; cbn; [by rewrite E, Ep, Eg | done]. Qed.

(** Core [i] of the array is hart [i] of the pair. *)
Lemma hart_abs cs m i : dual_wf cs m -> 0 <= i < 2 -> isa_eq (hart i (dual_abs cs m)) (abs (install (arr cs i) m)).
Proof.
  intros Hwf Hi. pose proof (dw_len _ _ Hwf) as Hl.
  assert (Hh : arr (core_hart <$> cs) i = core_hart (arr cs i)).
  { unfold arr. by rewrite (list_lookup_total_fmap core_hart cs) by lia. }
  unfold hart, dual_abs. cbn [d_harts d_mem]. rewrite Hh. split; [done | done |]. intros a Ha.
  cbn [isa_mem abs]. destruct (hart_cases i Hi) as [[-> _] | [-> _]]; [done |].
  set (m1 := install (arr cs 1) m).
  pose proof (install_switched cs m m1 1 Hwf ltac:(lia) ltac:(by split)) as Hsw. change (1 - 1) with 0 in Hsw.
  destruct (dw_mach _ _ Hwf 0 ltac:(lia)) as [Hm0 _ _ _ _]. destruct (dw_mach _ _ Hwf 1 ltac:(lia)) as [Hm1 _ _ _ _].
  destruct (switch_inv m1 _ Hsw) as (_ & Hdv & _); [| done | apply (mi_bus _ Hm0) | apply (mi_icache _ Hm0) |].
  { unfold m1. cbn. rewrite (dw_num _ _ Hwf). lia. }
  unfold mem_byte, bytes_of. by rewrite <-Hdv.
Qed.

(** One clock of core [i] against one instruction of hart [i]. *)
Lemma cycle_core_sim code cs w i r ir0 d : dual_wf cs (omach w) -> code_ok code cs (omach w) -> ir_ok ir0 ->
  dual_eq (dual_abs cs (omach w)) d -> 0 <= i < 2 -> step_ready r (hart i d) -> code (blk (isa_pc (hart i d))) ->
  (forall k, code k -> ~ isa_touched r (hart i d) k) ->
  exists cs' w', cycle_core ir0 i cs w = Ok (cs', w') /\ w' = put_omach (omach w') w /\
    sim (bus (omach w')) = sim (bus (omach w)) /\
    dual_eq (dual_abs cs' (omach w')) (put_hart i (isa_next r (hart i d)) d) /\
    dual_wf cs' (omach w') /\ code_ok code cs' (omach w').
Proof.
  intros Hwf Hco H0 Heq Hi Hr Hcode Hu. pose proof (hart_abs cs (omach w) i Hwf Hi) as Ha.
  assert (Hs : isa_eq (hart i d) (abs (install (arr cs i) (omach w)))).
  { transitivity (hart i (dual_abs cs (omach w))); [| done]. symmetry. by apply dual_eq_hart. }
  destruct (step_ready_eq r _ _ Hs Hr) as (Hr' & Hn & Ht).
  destruct (core_cycle_step code cs w i r ir0 Hwf Hco Hi) as
    (c' & w1 & E & Ew & Es & Hwf1 & Hco1 & Heq1); [done | done | by rewrite (ie_pc _ _ Hs) in Hcode | |].
  { intros k Hk. rewrite <-Ht. by apply Hu. }
  exists (upd cs i c'), w1. split_and!; try done.
  - unfold cycle_core. by rewrite E.
  - rewrite Heq1. by apply dual_eq_put.
Qed.

Lemma dual_sim code sched d d' : dual_run code sched d d' ->
  forall junk cs w, dual_wf cs (omach w) -> code_ok code cs (omach w) -> (forall n, ir_ok (junk n)) ->
  dual_eq (dual_abs cs (omach w)) d ->
  exists cs' w', run_schedule junk sched cs w = Ok (cs', w') /\ w' = put_omach (omach w') w /\
    sim (bus (omach w')) = sim (bus (omach w)) /\ dual_eq (dual_abs cs' (omach w')) d' /\
    dual_wf cs' (omach w') /\ code_ok code cs' (omach w').
Proof.
  induction 1 as [d | i sched d d' r Hi Hr Hcode Hu _ IH]; intros junk cs w Hwf Hco Hj Heq.
  { exists cs, w. split_and!; try done. by destruct w as [[]]. }
  destruct (cycle_core_sim code cs w i r (junk (length sched)) d) as (cs1 & w1 & E & Ew & Es & Heq1 & Hwf1 & Hco1); try done.
  destruct (IH junk cs1 w1 Hwf1 Hco1 Hj Heq1) as (cs' & w' & E' & Ew' & Es' & Heq' & Hwf' & Hco').
  exists cs', w'. split_and!; try done.
  - cbn [run_schedule]. by rewrite E.
  - rewrite Ew', Ew. done.
  - congruence.
Qed.

(** ** Machines that differ in the installed context and the run state *)

Record shared (m m' : Mach) : Prop := {
  sh_heap : heap m' = heap m;
  sh_p2 : L2_cache m' = L2_cache m;
  sh_l1d : cores_l1d m' = cores_l1d m;
  sh_num : g_num_cores m' = g_num_cores m;
  sh_cycles : g_sim_cycles m' = g_sim_cycles m;
  sh_instret : g_sim_instret m' = g_sim_instret m;
  sh_ftrace : ftrace m' = ftrace m;
  sh_pmem : pmem (bus m') = pmem (bus m);
  sh_io : io (bus m') = io (bus m);
  sh_pmp : pmp_on_count (pmp (csrf (bus m'))) = pmp_on_count (pmp (csrf (bus m)));
}.

#[export] Instance shared_preorder : PreOrder shared.
Proof. split; [done |]. intros a b c [] []. split; congruence. Qed.

Lemma shared_same m m' c : shared m m' -> same_mem (install c m) (install c m') /\
  csrf (bus (install c m')) = csrf (bus (install c m)).
Proof. intros []. split; [by split |]. cbn. unfold install_csrf. congruence. Qed.

Lemma shared_dual code cs m m' : shared m m' ->
  (dual_wf cs m -> dual_wf cs m') /\ (code_ok code cs m -> code_ok code cs m') /\
  dual_eq (dual_abs cs m') (dual_abs cs m).
Proof.
  intros Hs. pose proof (fun c => shared_same m m' c Hs) as Hc. split; [| split].
  - intros [Hl Hn [Hnd Hok] Hid Hd Hm Hf]. destruct Hs as [Eh E2 Ed En Ecy Ein Eft Epm Eio Epp].
    assert (Hp : core_ptrs cs m' = core_ptrs cs m) by (unfold core_ptrs; by rewrite E2).
    split; [done | by rewrite En | | done | by rewrite Ed | | by rewrite Eft].
    + rewrite Hp. split; [done |]. eapply Forall_impl; [exact Hok |]. intros p. apply ptr_ok_len. by rewrite Eh.
    + intros i Hi. destruct (Hm i Hi) as [Hmi ? ? ? ?], (Hc (arr cs i)) as [Hsm Ecf].
      split; [| done | done | cbn; by rewrite Ecy | cbn; by rewrite Ein].
      eapply same_mem_inv; [exact Hsm | | done]. destruct (mi_bus _ Hmi) as [? ? ?].
      split; [cbn; by rewrite Epm | cbn; by rewrite Eio | by rewrite Ecf].
  - intros [Hmd Hr Hf Hp]. split; [done | done | |].
    + intros i k Hi Hk. destruct (same_mem_view _ _ (proj1 (Hc (arr cs i)))) as [_ Hfr]. by apply Hfr, Hf.
    + intros i a Hi Ha. unfold fetch_allowed. rewrite (proj2 (Hc (arr cs i))). by apply Hp.
  - split; [done |]. intros a _. cbn [dual_abs d_mem]. unfold mem_byte, bytes_of.
    by rewrite (proj1 (same_mem_view _ _ (proj1 (Hc (arr cs 0))))).
Qed.

(** C3. Two cores, one memory.  For every schedule of the two functional cores,
    if two abstract harts over one flat memory can run it, from code that is
    executable and up to date in both instruction caches, then the simulator
    runs the same schedule of [core_cycle] calls and ends with the same pcs,
    registers and memory: private first-level caches, the shared second level,
    the snoops and the context switches through the globals implement
    sequentially consistent shared memory. *)
Theorem dual_cores_simulate code sched d d' : dual_run code sched d d' ->
  forall junk cs w, dual_wf cs (omach w) -> code_ok code cs (omach w) -> (forall n, ir_ok (junk n)) ->
  dual_eq (dual_abs cs (omach w)) d ->
  exists cs' w', run_schedule junk sched cs w = Ok (cs', w') /\ w' = put_omach (omach w') w /\
    sim (bus (omach w')) = sim (bus (omach w)) /\ dual_eq (dual_abs cs' (omach w')) d' /\
    dual_wf cs' (omach w') /\ code_ok code cs' (omach w').
Proof. apply dual_sim. Qed.
