(* ===== verification/ExecLoop.v ===== *)
(** * The main loop (src/cpu/exec.c) and the start-up of main.c

    [Emu] is the whole emulator: the machine and the engines' globals, the
    core array, the watchpoints and the flags and function statics of exec.c.
    [exec] is modelled in its four modes; the loops that are not bounded by
    their argument carry fuel, and [None] means that it ran out. *)

From S2P Require Import Prelude Word State Pmp Csr Cache CacheSet CacheSpec CacheRefine Coherence Mmio Mem Ftrace Elf Vmem VmemSpec Decode Ir InstTable IrSpec Exec Isa Image Bpred Pipeline Ringbuf Ooo Expr Watchpoint Core Dual.
From Stdlib Require Import Ascii.

(** ** State *)

Record Emu := mkEmu {
  ow : OooWorld;
  cores : list Core;
  wps : WatchPool;
  dec_s : Decode;               (** the global [s] *)
  g_inorder_mode : bool;
  g_ooo_mode : bool;
  g_print_step : bool;
  last : Z;                     (** the statics of [exec_once] and [exec] *)
  ooo_last : Z;
  ooo_cycle_ctr : Z;
  pip_last : Z;
  pip_cycle_ctr : Z;
  cores_initialised : bool;
  stack_ir : Z -> IR_Inst;      (** what the uninitialised [IR_Inst ir] holds in the n-th call *)
  once_calls : Z;
}.

Definition emach (e : Emu) : Mach := omach (ow e).
Definition ebus (e : Emu) : Bus := bus (emach e).
Definition estate (e : Emu) : nemu_state := state (sim (ebus e)).
Definition put_ow (w : OooWorld) (e : Emu) : Emu := {| e with ow := w |}.
Definition put_emach (m : Mach) (e : Emu) : Emu := put_ow (put_omach m (ow e)) e.
Definition put_ebus (b : Bus) (e : Emu) : Emu := put_emach (put_bus b (emach e)) e.
Definition put_state (x : nemu_state) (e : Emu) : Emu :=
  let b := ebus e in put_ebus {| b with sim := set_state x (sim b) |} e.
Definition put_cores (cs : list Core) (e : Emu) : Emu := {| e with cores := cs |}.
Definition put_wps (s : WatchPool) (e : Emu) : Emu := {| e with wps := s |}.
Definition put_print_step (b : bool) (e : Emu) : Emu := {| e with g_print_step := b |}.

Definition put_last (t : Z) (e : Emu) : Emu := {| e with last := t |}.

Definition running (e : Emu) : bool := bool_decide (estate e = NEMU_RUNNING).

(** [IR_Inst ir;] *)
Definition bump_calls (e : Emu) : Emu := {| e with once_calls := once_calls e + 1 |}.
Definition next_ir (e : Emu) : IR_Inst * Emu := (stack_ir e (once_calls e), bump_calls e).

(** ** Device service *)

(** One SDL event. *)
Definition handle_event (ev : sdl_event) (b : Bus) : Res Bus :=
  match ev with
  | SDL_QUIT => Ok {| b with sim := set_state NEMU_QUIT (sim b) |}
  | SDL_KEY k down => d ← send_key (sim b) k down (io b); Ok {| b with io := d |}
  | SDL_OTHER => Ok b
  end.

(** [while (SDL_PollEvent(&event))]: the events that are pending. *)
Definition poll_events (b : Bus) : Res Bus :=
  let d := io b in
  for_each (sdl_poll d (poll_calls d)) handle_event {| b with io := {| d with poll_calls := poll_calls d + 1 |} |}.

(** Screen and keyboard. *)
Definition refresh (b : Bus) : Res Bus :=
  d ← vga_update_screen (io b); poll_events {| b with io := d |}.

Definition FRAME_US : Z := 1000000 / 60.

(** The service with [last] as the time of the previous one; [now - last] is
    unsigned. *)
Definition service (last : Z) (b : Bus) : Res (Z * Bus) :=
  let '(now, d) := get_time (io b) in
  let b := {| b with io := d |} in
  if (now - last)%word <? FRAME_US then Ok (last, b)
  else b ← refresh b; Ok (now, b).

(** ** exec_once *)

(** The trace: [log_buf] is printed, logged and put into the ring buffer. *)
Definition trace_once (pc raw : Z) (e : Emu) : Res Emu :=
  if negb (g_print_step e || log_fp (ow e)) then Ok e else
  let w := ow e in
  let text := disassemble w pc raw in
  _ ← ensure Assertion (Z.of_nat (length text) <? 70);
  r ← add_ringbuf_inst (trace_line pc raw text) (rb w);
  Ok (put_ow {| w with rb := r |} e).

Definition service_once (e : Emu) : Res Emu :=
  '(t, b) ← service (last e) (ebus e); Ok (put_last t (put_ebus b e)).

(** The [Decode] record that the monitor reads. *)
Definition sync_decode (pc : Z) (ir : IR_Inst) (e : Emu) : Emu :=
  {| e with dec_s := mkDecode pc (ir_dnpc ir) (ir_dnpc ir) (ir_raw ir) |}.

Definition exec_once (e : Emu) : Res Emu :=
  let pc := pc (cpu (emach e)) in
  let '(ir0, e) := next_ir e in
  '(ir, m) ← exec_inst ir0 (emach e);
  e ← trace_once pc (ir_raw ir) (sync_decode pc ir (put_emach m e));
  service_once e.

(** ** exec *)

(** [if (wp_any_active() && check_wp() && state != NEMU_ABORT) state = NEMU_STOP] *)
Definition wp_stop (e : Emu) : Res Emu :=
  if negb (wp_any_active (wps e)) then Ok e else
  '(hit, s, m) ← check_wp (wps e) (emach e);
  let e := put_wps s (put_emach m e) in
  Ok (if hit && negb (bool_decide (estate e = NEMU_ABORT)) then put_state NEMU_STOP e else e).

(** Functional mode: [n] is the argument. *)
Fixpoint exec_functional (n : nat) (e : Emu) : Res Emu :=
  match n with
  | O => Ok e
  | S n =>
      e ← exec_once e;
      e ← wp_stop e;
      if running e then exec_functional n e else Ok e
  end.

(** A [while] loop with fuel. *)
Fixpoint while_loop {A} (fuel : nat) (cond : A -> bool) (body : A -> Res A) (s : A) : Res (option A) :=
  if negb (cond s) then Ok (Some s) else
  match fuel with
  | O => Ok None
  | S fuel => s ← body s; while_loop fuel cond body s
  end.

(** Every 4096 cycles the devices are served. *)
Definition serve_4096 (ctr last : Z) (b : Bus) : Res (Z * Z * Bus) :=
  let ctr := (ctr + 1)%word in
  if Z.land ctr 4095 =? 0 then '(t, b) ← service last b; Ok (ctr, t, b) else Ok (ctr, last, b).

Definition ooo_body (e : Emu) : Res Emu :=
  w ← ooo_cycle (ow e);
  e ← wp_stop (put_ow w e);
  '(ctr, t, b) ← serve_4096 (ooo_cycle_ctr e) (ooo_last e) (ebus e);
  let e := put_ebus b e in Ok {| e with ooo_cycle_ctr := ctr; ooo_last := t |}.

Definition exec_ooo (fuel : nat) (n : Z) (e : Emu) : Res (option Emu) :=
  while_loop fuel (fun e => (os_insts (ooo_stats (ow e)) <? n) && running e) ooo_body
    (put_ow (ooo_init (ow e)) e).

Definition inorder_body (e : Emu) : Res Emu :=
  p ← pipeline_cycle (pw (ow e));
  e ← wp_stop (put_ow (put_pw p (ow e)) e);
  '(ctr, t, b) ← serve_4096 (pip_cycle_ctr e) (pip_last e) (ebus e);
  let e := put_ebus b e in Ok {| e with pip_cycle_ctr := ctr; pip_last := t |}.

Definition exec_inorder (fuel : nat) (n : Z) (e : Emu) : Res (option Emu) :=
  while_loop fuel (fun e => (ps_insts (pipe_stats (pw (ow e))) <? n) && running e) inorder_body
    (put_ow (put_pw (pipeline_init (pw (ow e))) (ow e)) e).

(** The context that [exec] installs before a core's engine is initialised:
    without the privilege level and the PMP. *)
Definition init_context (c : Core) (m : Mach) : Mach :=
  let b := bus m in
  let f := csrf b in
  {| m with bus := bus_csrf {| f with csr := c_csr c |} b; L1I_cache := c_l1i c; L1D_cache := c_l1d c;
            g_current_hartid := core_id c; cpu := c_cpu c |}.

Definition init_engine (c : Core) (w : OooWorld) : Core * OooWorld :=
  match mode c with
  | CORE_MODE_FUNCTIONAL => (c, w)
  | CORE_MODE_INORDER => (pipeline_init_core (omach w) c, w)
  | CORE_MODE_OOO => ooo_init_core c w
  end.

Definition init_core_at (i : Z) (e : Emu) : Emu :=
  let c := arr (cores e) i in
  let '(c, w) := init_engine c (put_omach (init_context c (emach e)) (ow e)) in
  put_cores (upd (cores e) i c) (put_ow w e).

Definition core_ids (e : Emu) : list Z := seqZ_from 0 (Z.to_nat (g_num_cores (emach e))).

Definition init_cores (e : Emu) : Emu :=
  if cores_initialised e then e else
  foldl (fun e i => init_core_at i e) {| e with cores_initialised := true |} (core_ids e).

(** The inner [for] with its [break]; [total] counts the cycles. *)
Fixpoint dual_round (ids : list Z) (total : Z) (e : Emu) : Res (Z * Emu) :=
  match ids with
  | [] => Ok (total, e)
  | i :: ids =>
      let '(ir0, e) := next_ir e in
      '(cs, w) ← cycle_core ir0 i (cores e) (ow e);
      e ← wp_stop (put_cores cs (put_ow w e));
      if running e then dual_round ids (total + 1)%word e else Ok ((total + 1)%word, e)
  end.

Definition dual_cond (n : Z) (s : Z * Emu) : bool := (s.1 <? n) && running s.2.
Definition dual_body (s : Z * Emu) : Res (Z * Emu) := dual_round (core_ids s.2) s.1 s.2.

Definition exec_dual (fuel : nat) (n : Z) (e : Emu) : Res (option Emu) :=
  r ← while_loop fuel (dual_cond n) dual_body (0, init_cores e); Ok (option_map snd r).

Definition MAX_INST_TO_PRINT : Z := 10.

(** [exec(n)]; the reports and the final banner only print. *)
Definition exec (fuel : nat) (n : Z) (e : Emu) : Res (option Emu) :=
  let e := put_print_step (n <? MAX_INST_TO_PRINT) e in
  match estate e with
  | NEMU_END | NEMU_ABORT => Ok (Some e)
  | _ =>
      let e := put_state NEMU_RUNNING e in
      if 1 <? g_num_cores (emach e) then exec_dual fuel n e
      else if g_ooo_mode e then exec_ooo fuel n e
      else if g_inorder_mode e then exec_inorder fuel n e
      else e ← exec_functional (Z.to_nat n) e; Ok (Some e)
  end.

Arguments put_ow : simpl never.
Arguments put_emach : simpl never.
Arguments put_ebus : simpl never.
Arguments put_state : simpl never.
Arguments put_cores : simpl never.
Arguments put_wps : simpl never.
Arguments put_last : simpl never.
Arguments put_print_step : simpl never.
Arguments bump_calls : simpl never.
Arguments sync_decode : simpl never.

(** ** main *)

(** The flags that [parse_args] sets, with [-i] and [-o] in the order of the
    command line deciding the mode of the cores. *)
Record Options := mkOptions {
  o_inorder : bool;
  o_ooo : bool;
  o_mode : CoreMode;
  o_bpred : bool;
  o_bpred2 : bool;
  o_dual : bool;
  o_difftest : bool;
  o_log : bool;                 (** a log file was named and opened *)
}.

Definition static_world (o : Options) (dis : Z -> Z -> list ascii) (junk : IR_Inst) (m : Mach) : OooWorld :=
  let p := {| mach := m; cpu_pipe := zero_pipe; pipe_stats := zero_stats; g_pipe_stalled := false;
              g_fetch_slot := -1; bpred := bpred_init; g_bpred_mode := o_bpred o;
              g_difftest_en := o_difftest o; diff_cpu := mkCPU (replicate 32 0) 0; diff_init := false;
              diff_junk := junk |} in
  {| pw := p; ooo := zero_ooo; ooo_stats := zero_ooo_stats; bpred2_state := bpred_init;
     g_bpred2_mode := o_bpred2 o; difftest_ref := mkCPU (replicate 32 0) 0; difftest_active := false;
     log_fp := o_log o; rb := ringbuf_static; disassemble := dis |}.

(** [for (i = 0; i < g_num_cores; i++) core_create(i, g_default_mode, g_bpred_mode)] *)
Definition create_cores (o : Options) (n : nat) (m : Mach) : list Core * Mach :=
  foldl (fun '(cs, m) i => let '(c, m) := core_create i (o_mode o) (o_bpred o) m in (upd cs i c, m))
    (replicate MAX_CORES zero_core, m) (seqZ_from 0 n).

(** The machine with the loaded memory, the devices and the caches. *)
Definition boot_cores (o : Options) (ft : Ftrace) (d : IO) (mem : bytemap) : list Core * Mach :=
  let m := boot_on (mkBus sim_init csrfile_init mem d) in
  let n := if o_dual o then 2 else 1 in
  create_cores o (Z.to_nat n) {| m with g_num_cores := n; ftrace := ft |}.

(** Everything else [main] starts from. *)
Definition boot_emu (o : Options) (dis : Z -> Z -> list ascii) (junk : Z -> IR_Inst) (cs : list Core) (m : Mach) : Emu :=
  {| ow := static_world o dis (junk (-1)) m; cores := cs; wps := init_wp_pool wp_static;
     dec_s := init_decode_info (mkDecode 0 0 0 0);
     g_inorder_mode := o_inorder o; g_ooo_mode := o_ooo o; g_print_step := false;
     last := 0; ooo_last := 0; ooo_cycle_ctr := 0; pip_last := 0; pip_cycle_ctr := 0;
     cores_initialised := false; stack_ir := junk; once_calls := 0 |}.

(** [main] up to [sdbloop]; [img] and [elf] are the image file and the ELF file
    as for [load_img] and [init_elf]. *)
Definition boot (o : Options) (dis : Z -> Z -> list ascii) (junk : Z -> IR_Inst) (io_junk : bytemap)
    (scancode_of : string -> Z) (img elf : option (option (list Z))) (d : IO) : Res Emu :=
  '(_, mem) ← load_img img (init_default_program ∅);
  ft ← init_elf elf ftrace_init;
  d ← init_devices io_junk scancode_of d;
  let '(cs, m) := boot_cores o ft d mem in
  Ok (boot_emu o dis junk cs m).
