(* ===== verification/Engines.v ===== *)
(** * The engines of several cores

    Each core has its own pipeline or out-of-order state, which [core_cycle]
    swaps into the globals and back.  The invariants of the single engines hold
    for every core under every schedule. *)

From S2P Require Import Prelude Word State Pmp Csr Cache CacheSet CacheSpec CacheRefine Coherence Mmio Mem Ringbuf Ftrace Vmem VmemSpec Decode Ir InstTable IrSpec Exec Isa Bpred Pipeline Ring Ooo Renamer OooStages OooRename OooIssue OooStore Expr Watchpoint Core Dual ExecLoop.

(** The invariant of the engine that a core runs. *)
Definition engine_ok (c : Core) : Prop :=
  match mode c with
  | CORE_MODE_FUNCTIONAL => True
  | CORE_MODE_INORDER => forall w, pipe_wf (put_pipe (c_pipe c) w)
  | CORE_MODE_OOO => ren_ok (c_ooo c) /\ mask_ok (c_ooo c) /\ sb_ok (c_ooo c)
  end.

(** What identifies a core. *)
Definition core_tag (c : Core) : Z * CoreMode * ptr * ptr := (core_id c, mode c, c_l1i c, c_l1d c).

(** ** The cycle functions of a core are those of the engines *)

Lemma ooo_core_cycle c w0 : ooo_cycle_core c w0 =
  (w ← ooo_cycle (ooo_in c w0);
   Ok (ooo_out w {| c with c_sim_cycles := os_cycles (ooo_stats w); c_sim_instret := os_insts (ooo_stats w) |}, ooo_restore w0 w)).
Proof. unfold ooo_cycle_core, ooo_cycle. by destruct (ooo_stages _). Qed.

(** In-order, with the stall flag cleared first. *)
Lemma pipe_core_cycle c w0 : pipeline_cycle_core c w0 =
  (w ← pipeline_cycle (put_stalled false (pipe_in c w0)); Ok (pipe_out (count_insts w) c, pipe_restore w0 (count_insts w))).
Proof.
  unfold pipeline_cycle_core, pipeline_cycle. cbv zeta. case_if; [done |].
  change (put_stalled false (put_stalled false ?w)) with (put_stalled false w). by destruct (run_stages _).
Qed.

(** ** Initialisation and cycles *)

Lemma pipe_wf_swap w w' p : pipe_wf (put_pipe p w) -> pipe_wf (put_pipe p w').
Proof. intros [? ? ?]. by split. Qed.

Lemma pipeline_init_core_ok m c w : length (slots (c_pipe c)) = 4%nat -> pipe_wf (put_pipe (c_pipe (pipeline_init_core m c)) w).
Proof.
  intros Hl. split; unfold put_pipe, pipeline_init_core; cbn [cpu_pipe c_pipe slots p_id p_ex p_mem p_wb].
  - by rewrite length_fmap.
  - apply (bool_decide_unpack _). reflexivity.
  - repeat (apply Forall_cons; split; [lia |]). by apply Forall_nil.
Qed.

Lemma init_engine_ok c w : length (slots (c_pipe c)) = 4%nat ->
  engine_ok (init_engine c w).1 /\ core_tag (init_engine c w).1 = core_tag c.
Proof.
  intros Hl. unfold init_engine. destruct (mode c) eqn:Em; cbn [fst].
  - split; [unfold engine_ok; by rewrite Em | done].
  - split; [| done]. unfold engine_ok. change (mode (pipeline_init_core (omach w) c)) with (mode c). rewrite Em.
    intros w'. by apply pipeline_init_core_ok.
  - split; [| done]. unfold engine_ok, ooo_init_core. cbn [fst]. change (mode (ooo_out _ c)) with (mode c). rewrite Em.
    change (c_ooo (ooo_out ?x c)) with (ooo x). split_and!; [apply init_ren_ok | apply init_mask_ok | apply init_sb_ok].
Qed.

Lemma core_engine_ok ir0 c w c' w' : core_engine ir0 c w = Ok (c', w') -> engine_ok c ->
  engine_ok c' /\ core_tag c' = core_tag c.
Proof.
  unfold core_engine, engine_ok. intros E Hc. destruct (mode c) eqn:Em.
  - apply bind_Ok_inv in E as ([c1 m] & E1 & E). injection E as <- <-. unfold exec_once_core in E1.
    apply bind_Ok_inv in E1 as ([ir m1] & _ & E1). injection E1 as <- <-.
    split; [| done]. change (mode (count_core c)) with (mode c). by rewrite Em.
  - apply bind_Ok_inv in E as ([c1 p] & E1 & E). injection E as <- <-. rewrite pipe_core_cycle in E1.
    apply bind_Ok_inv in E1 as (p1 & E1 & E2). injection E2 as <- <-. split; [| done].
    change (mode (pipe_out _ c)) with (mode c). rewrite Em. intros w2.
    change (c_pipe (pipe_out (count_insts p1) c)) with (cpu_pipe p1). apply (pipe_wf_swap p1).
    assert (Hw : pipe_wf p1); [| by destruct p1, Hw]. eapply pipeline_cycle_wf, E1. by destruct (Hc (pw w)).
  - rewrite ooo_core_cycle in E. apply bind_Ok_inv in E as (w1 & E1 & E). injection E as <- <-. split; [| done].
    change (mode (ooo_out _ _)) with (mode c). rewrite Em. change (c_ooo (ooo_out w1 _)) with (ooo w1).
    destruct Hc as (H1 & H2 & H3). split_and!.
    + exact (proj1 (cycle_R refines _ _ E1 H1)).
    + exact (cycle_R mkeep _ _ E1 H2).
    + exact (proj1 (cycle_R sbref _ _ E1 H3)).
Qed.

Lemma core_cycle_ok ir0 c w c' w' : core_cycle ir0 c w = Ok (c', w') -> engine_ok c -> engine_ok c' /\ core_tag c' = core_tag c.
Proof.
  intros E Hc. unfold core_cycle in E. apply bind_Ok_inv in E as ([c1 w1] & E1 & E). injection E as <- <-.
  exact (core_engine_ok _ _ _ _ _ E1 Hc).
Qed.

Lemma run_schedule_ok junk sched : forall cs w cs' w', run_schedule junk sched cs w = Ok (cs', w') -> Forall engine_ok cs ->
  Forall (fun i => 0 <= i < Z.of_nat (length cs)) sched -> Forall engine_ok cs' /\ (core_tag <$> cs') = core_tag <$> cs.
Proof.
  induction sched as [|i sched IH]; intros cs w cs' w' E Hc Hs; cbn [run_schedule] in E; [by injection E as <- <- |].
  apply Forall_cons in Hs as [Hi Hs]. apply bind_Ok_inv in E as ([cs1 w1] & E1 & E). unfold cycle_core in E1.
  apply bind_Ok_inv in E1 as ([c w2] & E1 & E2). injection E2 as <- <-.
  destruct (core_cycle_ok _ _ _ _ _ E1) as [Hc1 Ht]; [by apply Forall_arr |].
  destruct (IH _ _ _ _ E) as [H1 H2]; [by apply Forall_upd | by rewrite length_upd |]. split; [done |].
  rewrite H2. unfold upd. rewrite (proj2 (Z.leb_le 0 i)) by lia. rewrite list_fmap_insert, Ht.
  apply list_insert_id. rewrite list_lookup_fmap. unfold arr.
  rewrite (list_lookup_lookup_total_lt cs (Z.to_nat i)) by lia. done.
Qed.

(** C16. Every core keeps its engine's invariant.  [core_create] followed by the
    initialisation in [exec] gives a core, in whichever mode, an engine in a good
    state; and under every schedule of [core_cycle] calls each core's pipeline
    latches stay distinct, each core's register renaming stays a partition with
    exact station masks and a well-formed store buffer, although all cores share
    the same global engine state, and no core changes its number, mode or
    private caches. *)
Theorem core_engines_invariant :
  (forall id md bp m w, let '(c, _) := core_create id md bp m in engine_ok (init_engine c w).1) /\
  (forall junk sched cs w cs' w', run_schedule junk sched cs w = Ok (cs', w') -> Forall engine_ok cs ->
     Forall (fun i => 0 <= i < Z.of_nat (length cs)) sched ->
     Forall engine_ok cs' /\ (core_tag <$> cs') = core_tag <$> cs).
Proof.
  split; [| exact run_schedule_ok]. intros id md bp m w. destruct (core_create id md bp m) as [c m'] eqn:E.
  apply init_engine_ok. unfold core_create, alloc_cache in E. injection E as <- _. by case_bool_decide.
Qed.
