(* ===== verification/ExecSpec.v ===== *)
(** * What the main loop does

    With a host that sends no window events, [exec] in functional mode runs
    the abstract hart of Isa.v, whatever the clock says; from the machine
    that [main] builds, the built-in program runs to its [ebreak].  With two
    functional cores it alternates their instructions on one memory. *)

From S2P Require Import Prelude Word State Pmp Csr Cache CacheSet CacheSpec CacheRefine Coherence Mmio Mem Ftrace Elf ElfSpec ElfWrite Vmem VmemSpec Decode Ir InstTable IrSpec Exec Isa Image Bpred Pipeline Ringbuf Ooo Expr Watchpoint Core Dual ExecLoop.
From Stdlib Require Import Ascii.

(** ** A quiet host *)

(** No window event is ever pending. *)
Definition quiet (d : IO) : Prop := forall n, sdl_poll d n = [].

Definition put_io (d : IO) (b : Bus) : Bus := {| b with io := d |}.

Lemma vga_quiet d : io_wf d -> exists d', vga_update_screen d = Ok d' /\ io_wf d' /\ sdl_poll d' = sdl_poll d.
Proof.
  intros Hd. unfold vga_update_screen, io_get. rewrite (iw_vgactl _ Hd). cbn [mbind Res_bind].
  change (host_ok IO_SPACE_MAX (8192 + 4) 4) with true. cbv iota. cbn [mbind Res_bind].
  case_if; [| by exists d]. match goal with |- context [io_put ?x] => set (d1 := x) end.
  destruct (io_put d1 (8192 + 4) 4 0) as [d'|] eqn:E'; [| done].
  exists d'. split; [done |]. split; [| by unfold io_put in E'; simplify_eq/=].
  eapply io_put_wf, E'. destruct Hd as [? ? ? ? ? ? ? [? ? ?]]. by split.
Qed.

Lemma refresh_quiet b : bus_wf b -> quiet (io b) ->
  exists d, refresh b = Ok (put_io d b) /\ io_wf d /\ quiet d.
Proof.
  intros Hb Hq. destruct (vga_quiet (io b) (bw_io _ Hb)) as (d & E & Hd & Eq).
  unfold refresh. rewrite E. cbn [mbind Res_bind]. assert (En : sdl_poll d (poll_calls d) = []) by (rewrite Eq; apply Hq).
  unfold poll_events. cbv zeta. cbn [io]. rewrite En. cbn [for_each].
  exists {| d with poll_calls := poll_calls d + 1 |}. split; [done |]. split.
  - destruct Hd as [? ? ? ? ? ? ? [? ? ?]]. by split.
  - intros n. cbn. rewrite Eq. apply Hq.
Qed.

Lemma service_quiet t b : bus_wf b -> quiet (io b) ->
  exists t' d, service t b = Ok (t', put_io d b) /\ io_wf d /\ quiet d.
Proof.
  intros Hb Hq. unfold service. destruct (get_time (io b)) as [now d] eqn:E.
  pose proof (get_time_wf (io b) (bw_io _ Hb)) as Hd. rewrite E in Hd. cbn in Hd.
  assert (Hqd : quiet d) by (intros n; unfold get_time in E; by simplify_eq/=).
  cbv zeta. case_if; [by exists t, d |].
  destruct (refresh_quiet (put_io d b)) as (d' & E' & ? & ?); [by destruct Hb; split | done |].
  unfold put_io in E'. cbn in E'. rewrite E'. by exists now, d'.
Qed.

(** ** exec_once on a quiet host *)

(** The machine with other devices state. *)
Definition mach_io (d : IO) (m : Mach) : Mach := put_bus (put_io d (bus m)) m.

Lemma mach_io_wf d m : io_wf d -> mach_wf m -> mach_wf (mach_io d m).
Proof.
  intros Hd [Hm ? ? ? ?]. split; try done. eapply same_mem_inv; [by apply same_mem_bus | | done].
  by destruct (mi_bus _ Hm); split.
Qed.

Lemma mach_io_abs d m : isa_eq (abs (mach_io d m)) (abs m) /\ (forall k, fresh m k -> fresh (mach_io d m) k).
Proof.
  destruct (same_mem_view m (mach_io d m)) as [Hv Hf]; [by apply same_mem_bus |]. split; [| done].
  split; [done | done |]. intros a _. cbn. unfold mem_byte, bytes_of. by rewrite Hv.
Qed.

(** What [exec] never looks behind: no window events, no watchpoints, text of
    the disassembler that fits its buffer. *)
Record emu_ok (e : Emu) : Prop := {
  eo_mach : mach_wf (emach e);
  eo_quiet : quiet (io (ebus e));
  eo_stack : forall n, ir_ok (stack_ir e n);
  eo_dis : forall pc raw, Z.of_nat (length (disassemble (ow e) pc raw)) < 70;
  eo_wp : wp_any_active (wps e) = false;
}.

(** One core, no engine selected. *)
Definition functional (e : Emu) : Prop :=
  g_num_cores (emach e) = 1 /\ g_ooo_mode e = false /\ g_inorder_mode e = false.

(** The run has not ended. *)
Definition idle (e : Emu) : Prop := estate e <> NEMU_END /\ estate e <> NEMU_ABORT.

(** The flags that select the engine. *)
Definition modes (e : Emu) : bool * bool := (g_ooo_mode e, g_inorder_mode e).

Lemma exec_once_modes e e' : exec_once e = Ok e' -> modes e' = modes e.
Proof.
  intros E. unfold exec_once, next_ir in E. apply bind_Ok_inv in E as ([ir m] & _ & E).
  apply bind_Ok_inv in E as (e1 & E1 & E). transitivity (modes e1).
  - unfold service_once in E. apply bind_Ok_inv in E as ([t b] & _ & E). by injection E as <-.
  - unfold trace_once in E1. case_if_in E1; [by injection E1 as <- |]. cbv zeta in E1.
    apply bind_Ok_inv in E1 as (u & _ & E1). apply bind_Ok_inv in E1 as (r & _ & E1). by injection E1 as <-.
Qed.

Lemma trace_once_ok pc raw e : emu_ok e ->
  exists e', trace_once pc raw e = Ok e' /\ emu_ok e' /\ emach e' = emach e /\ wps e' = wps e.
Proof.
  intros [? ? ? Hd ?]. unfold trace_once. case_if; [by exists e |]. cbv zeta.
  rewrite (proj2 (Z.ltb_lt _ 70)) by apply Hd. cbn [ensure mbind Res_bind].
  destruct (trace_line_fits pc raw (disassemble (ow e) pc raw) (rb (ow e))) as [r Er].
  { pose proof (Hd pc raw). lia. }
  rewrite Er. cbn [mbind Res_bind]. eexists. split; [reflexivity |]. split; [by split | done].
Qed.

(** Whatever instruction was executed, the service only moves the devices. *)
Lemma exec_once_quiet e ir m : emu_ok e -> exec_inst (stack_ir e (once_calls e)) (emach e) = Ok (ir, m) ->
  mach_wf m -> quiet (io (bus m)) ->
  exists e' d, exec_once e = Ok e' /\ emu_ok e' /\ emach e' = mach_io d m /\ wps e' = wps e.
Proof.
  intros He E Hm Hq. unfold exec_once. cbn [next_ir]. change (emach (bump_calls e)) with (emach e).
  rewrite E. cbn [mbind Res_bind]. set (e1 := sync_decode _ _ _).
  assert (H1 : emu_ok e1) by (destruct He; by split).
  destruct (trace_once_ok (pc (cpu (emach e))) (ir_raw ir) e1 H1) as (e2 & E2 & H2 & Em2 & Ew2).
  rewrite E2. cbn [mbind Res_bind]. unfold service_once.
  destruct (service_quiet (last e2) (ebus e2) (mi_bus _ (mw_mem _ (eo_mach _ H2))) (eo_quiet _ H2)) as (t & d & Es & Hd & Hqd).
  rewrite Es. cbn [mbind Res_bind]. eexists _, d. split; [reflexivity |].
  assert (Em : emach (put_last t (put_ebus (put_io d (ebus e2)) e2)) = mach_io d m).
  { unfold put_last, put_ebus, put_emach. change (mach_io d (emach e2) = mach_io d m). by rewrite Em2. }
  split; [| split; [done | exact Ew2]]. split; [by rewrite Em; apply mach_io_wf | | apply H2 | apply H2 | apply H2].
  assert (Hz : quiet (io (bus (mach_io d m)))) by exact Hqd. by rewrite <-Em in Hz.
Qed.

(** ** The functional loop *)

(** What a run of the loop keeps: the run state and the number of cores. *)
Lemma exec_once_step r e : emu_ok e -> g_ftrace_en (ftrace (emach e)) = false ->
  step_ready r (abs (emach e)) -> fresh (emach e) (blk (pc (cpu (emach e)))) ->
  fetch_allowed (pc (cpu (emach e))) (emach e) = true ->
  exists e', exec_once e = Ok e' /\ emu_ok e' /\ isa_eq (abs (emach e')) (isa_next r (abs (emach e))) /\
    ftrace (emach e') = ftrace (emach e) /\ sim (ebus e') = sim (ebus e) /\ csrf (ebus e') = csrf (ebus e) /\
    g_sim_instret (emach e') = (g_sim_instret (emach e) + 1)%word /\ (functional e -> functional e') /\
    (forall k, ram_blk (M := Bus) k -> ~ isa_touched r (abs (emach e)) k -> fresh (emach e) k -> fresh (emach e') k).
Proof.
  intros He Hft Hr Hf Hp.
  destruct (exec_inst_step r (stack_ir e (once_calls e)) (emach e) (eo_mach _ He) (eo_stack _ He _) Hft Hr Hf)
    as (ir & m & E & Heq & Hwf & Eft & Ein & _ & Hfr & _ & Hnf).
  destruct (exec_once_quiet e ir m He E Hwf) as (e' & d & Ee & He' & Em & _).
  { rewrite (nf_io _ _ Hnf). apply He. }
  destruct (mach_io_abs d m) as [_ Hfd]. exists e'. unfold ebus. rewrite Em. split_and!; try done.
  - change (sim (bus m) = sim (bus (emach e))). rewrite (nf_sim _ _ Hnf). by apply fetch_pmp_allowed.
  - exact (nf_csrf _ _ Hnf).
  - unfold functional. rewrite Em. pose proof (exec_once_modes _ _ Ee) as Hmo. unfold modes in Hmo. simplify_eq.
    change (g_num_cores (mach_io d m)) with (g_num_cores m). rewrite (nf_num _ _ Hnf). intros (? & ? & ?). split_and!; congruence.
Qed.

(** The code that a run fetches is executable in the current mode. *)
Definition code_allowed (code : Z -> Prop) (m : Mach) : Prop :=
  forall a, code (blk a) -> fetch_allowed a m = true.

Lemma exec_functional_sim code n s s' : isa_run code n s s' ->
  forall e, emu_ok e -> g_ftrace_en (ftrace (emach e)) = false -> running e = true ->
  isa_eq (abs (emach e)) s -> (forall k, code k -> ram_blk (M := Bus) k /\ fresh (emach e) k) ->
  code_allowed code (emach e) ->
  forall rest, exists e', exec_functional (n + rest) e = exec_functional rest e' /\ emu_ok e' /\
    isa_eq (abs (emach e')) s' /\ ftrace (emach e') = ftrace (emach e) /\ sim (ebus e') = sim (ebus e) /\
    g_sim_instret (emach e') = wrap64 (g_sim_instret (emach e) + Z.of_nat n) /\ (functional e -> functional e') /\
    (forall k, code k -> fresh (emach e') k) /\ code_allowed code (emach e').
Proof.
  induction 1 as [s | n s s' r Hready Hcode Htouch _ IH]; intros e He Hft Hrun Heq Hfr Hal rest.
  { exists e. split_and!; try done.
    - rewrite Z.add_0_r, wrap64_small by apply (eo_mach _ He). done.
    - intros k Hk. by apply Hfr. }
  destruct (step_ready_eq r s (abs (emach e))) as (Hr & Hn & Ht); [by symmetry | done |].
  rewrite (ie_pc _ _ (symmetry Heq)) in Hcode. cbn [isa_pc abs] in Hcode.
  destruct (exec_once_step r e He Hft Hr) as (e1 & E1 & He1 & Heq1 & Eft1 & Es1 & Ec1 & Ei1 & Hfn1 & Hfr1);
    [by apply Hfr | by apply Hal |].
  assert (Hrun1 : running e1 = true) by (unfold running, estate in *; by rewrite Es1).
  destruct (IH e1 He1) with (rest := rest) as (e' & E' & He' & Heq' & Eft' & Es' & Ei' & Hfn' & Hfr' & Hal'); try done.
  - by rewrite Eft1.
  - by rewrite Heq1, Hn.
  - intros k Hk. destruct (Hfr k Hk). split; [done |]. apply Hfr1; [done | | done]. rewrite <-Ht. by apply Htouch.
  - intros a Ha. unfold code_allowed, fetch_allowed in *. unfold ebus in Ec1. rewrite Ec1. by apply Hal.
  - exists e'. split_and!; try done; try congruence.
    + cbn [exec_functional Nat.add]. rewrite E1. cbn [mbind Res_bind]. unfold wp_stop. rewrite (eo_wp _ He1). cbn [negb mbind Res_bind].
      by rewrite Hrun1.
    + rewrite Ei', Ei1. unfold add64. rewrite wrap64_mod_l. f_equal. lia.
    + auto.
Qed.

(** ** The machine of main with one core *)

(** New cache objects that no pointer in use reaches. *)
Lemma heap_app_inv m l ps ft : g_num_cores m = 1 -> mem_inv m ->
  let m' := {| m with heap := heap m ++ l; cores_l1d := ps; ftrace := ft |} in
  mem_inv m' /\ (forall k, dview m' k = dview m k) /\ (forall k, fresh m k -> fresh m' k).
Proof.
  intros Hn [[Pi Pd P2 ? ? ? _] Hb Hd Hi]. cbv zeta. set (m' := {| m with heap := _; cores_l1d := _; ftrace := _ |}).
  assert (Hc : forall p, ptr_ok p m -> cache_of p m' = cache_of p m /\ ptr_ok p m').
  { intros p (i & -> & Hr). unfold in_range in Hr. zify_bool. split.
    - unfold cache_of, arr. cbn. by rewrite (lookup_total_app_l (heap m) l) by lia.
    - exists i. split; [done |]. unfold in_range. cbn. rewrite length_app. lia. }
  destruct (Hc _ Pi) as [Ei Pi'], (Hc _ Pd) as [Ed Pd'], (Hc _ P2) as [E2 P2'].
  assert (Eic : icache m' = icache m) by done. assert (Eo : own m' = own m) by done. assert (El2 : l2c m' = l2c m) by done.
  assert (Et : other m' = None /\ other m = None) by (unfold other; cbn; by rewrite Hn).
  destruct Et as [Et' Et]. rewrite Et in Hd.
  assert (Hv : forall k, dview m' k = dview m k) by (intros k; unfold dview; by rewrite Et, Et', Eo, El2).
  split; [split; [split | | |] | split; [done |]]; try done.
  - cbn. rewrite Hn. lia.
  - by rewrite Et', Eo, El2.
  - by rewrite Eic.
  - intros k [H1 H2]. split; [by rewrite Eic, Hv | by rewrite El2, Hv].
Qed.

(** Options of a plain run: no engine flag, one core. *)
Definition plain (o : Options) : Prop :=
  o_inorder o = false /\ o_ooo o = false /\ o_dual o = false.

(** The machine in front of the first instruction, over a given bus. *)
Definition single_on (ft : Ftrace) (b : Bus) : Mach :=
  let m := boot_on b in {| m with heap := heap m ++ new_l1; cores_l1d := [Some 4; None]; ftrace := ft |}.

Lemma boot_cores_single o ft d mem b : o_dual o = false -> b = mkBus sim_init csrfile_init mem d ->
  exists cs, boot_cores o ft d mem = (cs, single_on ft b).
Proof.
  intros Hdu Eb. unfold boot_cores, create_cores. rewrite Hdu, <-Eb. clear.
  change (Z.to_nat 1) with 1%nat. cbn [foldl seqZ_from].
  match goal with |- context [core_create 0 _ _ ?x] => set (m0 := x) end.
  pose proof (core_create_ok 0 (o_mode o) (o_bpred o) m0) as Hc.
  destruct (core_create _ _ _ _) as [c m]. destruct Hc as [-> _]. by eexists.
Qed.

Lemma single_on_inv ft b : bus_wf b -> mach_wf (single_on ft b) /\
  isa_eq (abs (single_on ft b)) (mkIsa 0x80000000 (replicate 32 0) (bytes_of (bus_block b))) /\
  forall k, fresh (single_on ft b) k.
Proof.
  intros Hb. destruct (boot_on_inv b Hb) as (Hm & Hv & Hf).
  destruct (heap_app_inv (boot_on b) new_l1 [Some 4; None] ft eq_refl Hm) as (Hm' & Hv' & Hf').
  fold (single_on ft b) in Hm', Hv', Hf'. split_and!.
  - split; [exact Hm' | apply init_regs_ok | apply init_regs_ok | apply is_word_0 | apply is_word_0].
  - split; [done | done |]. intros a _. cbn [isa_mem abs]. unfold mem_byte, bytes_of.
    rewrite (Hv' (blk a)). by rewrite Hv.
  - intros k. by apply Hf'.
Qed.

Lemma boot_none o dis junk io_junk scancode_of elf ft d d' cs m : init_elf elf ftrace_init = Ok ft -> init_devices io_junk scancode_of d = Ok d' ->
  boot_cores o ft d' (init_default_program ∅) = (cs, m) ->
  boot o dis junk io_junk scancode_of None elf d = Ok (boot_emu o dis junk cs m).
Proof.
  unfold boot. generalize (init_default_program ∅). intros mem E0 E1 E2. cbn [load_img mbind Res_bind].
  rewrite E0. cbn [mbind Res_bind].   rewrite E1. cbn [mbind Res_bind]. by rewrite E2.
Qed.

Lemma boot_emu_ok o dis junk cs m : (forall pc raw, Z.of_nat (length (dis pc raw)) < 70) ->
  (forall n, ir_ok (junk n)) -> mach_wf m -> quiet (io (bus m)) -> emu_ok (boot_emu o dis junk cs m).
Proof. intros Hd Hj Hm Hq. split; [exact Hm | exact Hq | exact Hj | exact Hd | reflexivity]. Qed.

(** ** exec with one functional core *)

(** The first lines of [exec]: only the run state changes. *)
Lemma set_running b e : emu_ok e ->
  let e1 := put_state NEMU_RUNNING (put_print_step b e) in
  emu_ok e1 /\ running e1 = true /\ isa_eq (abs (emach e1)) (abs (emach e)) /\
  (forall k, fresh (emach e) k -> fresh (emach e1) k) /\ status (sim (ebus e1)) = status (sim (ebus e)).
Proof.
  intros [Hm Hq Hs Hd Hw] e1. set (b1 := bus (emach e1)).
  assert (Hsm : same_mem (emach e) (emach e1)) by (by split).
  destruct (same_mem_view _ _ Hsm) as [Hv Hf]. split_and!; try done.
  - split; try done. destruct Hm as [Hm ? ? ? ?]. split; try done.
    eapply same_mem_inv; [done | | done]. by destruct (mi_bus _ Hm); split.
Qed.

Lemma exec_unfold fuel n e : idle e -> functional e ->
  exec fuel n e = (e ← exec_functional (Z.to_nat n) (put_state NEMU_RUNNING (put_print_step (n <? MAX_INST_TO_PRINT) e)); Ok (Some e)).
Proof.
  intros [H1 H2] (Hn & Ho & Hi). unfold exec.
  change (estate (put_print_step (n <? MAX_INST_TO_PRINT) e)) with (estate e).
  set (e1 := put_state NEMU_RUNNING _).
  change (g_num_cores (emach e1)) with (g_num_cores (emach e)). change (g_ooo_mode e1) with (g_ooo_mode e).
  change (g_inorder_mode e1) with (g_inorder_mode e). rewrite Hn, Ho, Hi. cbn [Z.ltb Z.compare Pos.compare Pos.compare_cont].
  by destruct (estate e).
Qed.

(** Ready to run [code]: it is executable and up to date. *)
Record hart_ready (code : Z -> Prop) (e : Emu) : Prop := {
  hr_ok : emu_ok e;
  hr_idle : idle e;
  hr_fun : functional e;
  hr_ftrace : g_ftrace_en (ftrace (emach e)) = false;
  hr_code : forall k, code k -> ram_blk (M := Bus) k /\ fresh (emach e) k;
  hr_allowed : code_allowed code (emach e);
}.

Lemma exec_sim fuel code n s s' e : isa_run code (Z.to_nat n) s s' -> 0 <= n -> hart_ready code e -> isa_eq (abs (emach e)) s ->
  exists e', exec fuel n e = Ok (Some e') /\ isa_eq (abs (emach e')) s' /\ estate e' = NEMU_RUNNING /\
    g_sim_instret (emach e') = wrap64 (g_sim_instret (emach e) + n) /\ hart_ready code e'.
Proof.
  intros Hrun Hn [He Hid Hfn Hft Hfr Hal] Heq. rewrite exec_unfold by done.
  destruct (set_running (n <? MAX_INST_TO_PRINT) e He) as (He1 & Hr1 & Ha1 & Hf1 & _). set (e1 := put_state _ _) in *.
  destruct (exec_functional_sim code _ s s' Hrun e1 He1 Hft Hr1) with (rest := 0%nat) as
    (e' & E & He' & Heq' & Eft & Es & Ei & Hfn' & Hfr' & Hal'); [by rewrite Ha1 | | done |].
  - intros k Hk. destruct (Hfr k Hk). split; [done | by apply Hf1].
  - rewrite Nat.add_0_r in E. rewrite E. exists e'. assert (Hst : estate e' = NEMU_RUNNING) by (unfold estate; by rewrite Es).
    split_and!; try done.
    + rewrite Ei. change (g_sim_instret (emach e1)) with (g_sim_instret (emach e)). by rewrite Z2Nat.id by done.
    + split; [done | split; by rewrite Hst | by apply Hfn' | by rewrite Eft | | done].
      intros k Hk. destruct (Hfr k Hk). split; [done | by apply Hfr'].
Qed.

(** C2. The main loop runs the instruction set.  With one functional core, no
    watchpoint and no window events, [exec(n)] executes [n] instructions of the
    abstract hart whenever that can run them from executable, up-to-date code:
    it returns, still running, with the hart's pc, registers and memory and [n]
    more instructions counted, whatever the clock, the trace and the screen do
    in between, and is ready for the next call. *)
Theorem exec_simulates fuel code n s s' e : isa_run code (Z.to_nat n) s s' -> 0 <= n ->
  hart_ready code e -> isa_eq (abs (emach e)) s ->
  exists e', exec fuel n e = Ok (Some e') /\ isa_eq (abs (emach e')) s' /\ estate e' = NEMU_RUNNING /\
    g_sim_instret (emach e') = wrap64 (g_sim_instret (emach e) + n) /\ hart_ready code e'.
Proof. apply exec_sim. Qed.

(** The machine of [main] is the abstract hart before the built-in program. *)
Lemma single_default ft d : io_wf d -> isa_eq (abs (single_on ft (default_bus d))) (default_isa 0).
Proof.
  intros Hd. destruct (single_on_inv ft _ (default_bus_wf d Hd)) as (_ & -> & _). split; [done | done |].
  intros a _. apply default_bytes.
Qed.

(** Nothing is protected at start-up. *)
Lemma boot_allowed code ft b : csrf b = csrfile_init -> code_allowed code (single_on ft b).
Proof. intros E a _. unfold fetch_allowed. change (csrf (bus (single_on ft b))) with (csrf b). by rewrite E. Qed.

(** The loop at the [ebreak] of the built-in program. *)
Lemma ebreak_stops n e : emu_ok e -> pc (cpu (emach e)) = 0x8000003c -> fresh (emach e) (blk 0x80000000) ->
  isa_eq (abs (emach e)) (default_isa 15) -> status (sim (ebus (e))) = false -> code_allowed default_code (emach e) ->
  exists e', exec_functional (S n) e = Ok e' /\ estate e' = NEMU_END /\ status (sim (ebus e')) = false /\
    gpr (cpu (emach e')) = gpr (cpu (emach e)) /\ g_sim_instret (emach e') = (g_sim_instret (emach e) + 1)%word.
Proof.
  intros He Epc Hf [_ _ Em] Hst Hal.
  destruct (ebreak_step (stack_ir e (once_calls e)) (emach e) (eo_mach _ He) (eo_stack _ He _)) as
    (ir & m & E & Hs & Hg & _ & Hi & Hwf & Hio & Hst').
  { by rewrite Epc. } { rewrite Epc. split; [lia | done]. } { by rewrite Epc. }
  { rewrite Epc. transitivity (flat_read default_flat 0x8000003c 4); [| done].
    apply (flat_read_ext (M := Bus)); [by apply (cached_ram 0x8000003c) | split; [lia | done] |].
    intros a Ha. apply Em. by apply ram_cached. }
  destruct (exec_once_quiet e ir m He E Hwf) as (e' & d & Ee & He' & Eme & _); [rewrite Hio; apply He |].
  exists e'. unfold estate, ebus. rewrite Eme. split_and!; try done.
  - cbn [exec_functional]. rewrite Ee. cbn [mbind Res_bind]. unfold wp_stop. rewrite (eo_wp _ He'). cbn [negb mbind Res_bind].
    unfold running, estate, ebus. rewrite Eme. change (bus (mach_io d m)) with (put_io d (bus m)). cbn [put_io sim]. by rewrite Hs.
  - change (status (sim (bus m)) = false). rewrite Hst', fetch_pmp_allowed; [done |]. apply Hal. by rewrite Epc.
Qed.

Lemma default_ends o dis junk cs ft d n fuel : plain o -> g_ftrace_en ft = false -> io_wf d -> quiet d ->
  (forall pc raw, Z.of_nat (length (dis pc raw)) < 70) -> (forall i, ir_ok (junk i)) -> 16 <= n ->
  exists e', exec fuel n (boot_emu o dis junk cs (single_on ft (default_bus d))) = Ok (Some e') /\
    estate e' = NEMU_END /\ status (sim (ebus e')) = false /\
    arr (gpr (cpu (emach e'))) 10 = 15 /\ g_sim_instret (emach e') = 16.
Proof.
  intros (Hpi & Hpo & Hpd) Hen Hd Hq Hdis Hj Hn. pose proof (single_default ft d Hd) as Ha.
  destruct (single_on_inv ft _ (default_bus_wf d Hd)) as (Hwf & _ & Hfr).
  pose proof (boot_allowed default_code ft (default_bus d) eq_refl) as Hal.
  assert (Hsim : sim (bus (single_on ft (default_bus d))) = sim_init) by done.
  assert (Hin : g_sim_instret (single_on ft (default_bus d)) = 0) by done.
  assert (Hft : g_ftrace_en (ftrace (single_on ft (default_bus d))) = false) by done.
  assert (Hnc : g_num_cores (single_on ft (default_bus d)) = 1) by done.
  assert (Hqm : quiet (io (bus (single_on ft (default_bus d))))) by exact Hq.
  revert Ha Hwf Hfr Hal Hsim Hin Hft Hnc Hqm. generalize (single_on ft (default_bus d)). intros m Ha Hwf Hfr Hal Hsim Hin Hft Hnc Hqm.
  set (e := boot_emu o dis junk cs m).
  assert (He : emu_ok e) by (by apply boot_emu_ok).
  assert (Hid : idle e) by (unfold idle, estate, ebus; change (emach e) with m; by rewrite Hsim).
  rewrite exec_unfold by done.
  destruct (set_running (n <? MAX_INST_TO_PRINT) e He) as (He1 & Hr1 & Ha1 & Hf1 & Hs1). set (e1 := put_state _ _) in *.
  destruct (exec_functional_sim default_code 15 (default_isa 0) (default_isa 15) (default_run 15 0 ltac:(lia) ltac:(lia)) e1 He1 Hft Hr1)
    with (rest := S (Z.to_nat (n - 16))) as (e2 & E2 & He2 & Heq2 & _ & Es2 & Ei2 & _ & Hf2 & Hal2).
  { by rewrite Ha1. } { intros k ->. split; [by apply (cached_ram 0x80000000) | apply Hf1, Hfr]. } { exact Hal. }
  replace (Z.to_nat n) with (15 + S (Z.to_nat (n - 16)))%nat by lia. rewrite E2.
  destruct (ebreak_stops (Z.to_nat (n - 16)) e2 He2) as (e3 & E3 & H1 & H2 & H3 & H4).
  { apply (ie_pc _ _ Heq2). } { by apply Hf2. } { done. }
  { rewrite Es2, Hs1. unfold ebus. change (emach e) with m. by rewrite Hsim. } { done. }
  rewrite E3. exists e3. split_and!; try done.
  - rewrite H3. pose proof (ie_gpr _ _ Heq2) as Eg. cbn [isa_gpr abs] in Eg. by rewrite Eg.
  - rewrite H4, Ei2. change (g_sim_instret (emach e1)) with (g_sim_instret m). by rewrite Hin.
Qed.

(** From start-up to the end of the built-in program.  Without an image file
    and without engine flags, with any ELF file that [init_elf] accepts, on a
    host without window events and whatever its clock shows, [main] reaches the
    monitor, and [exec(n)] for any [n] from 16 on returns after exactly sixteen
    instructions with the run ended by [ebreak], 15 in [a0] and a good exit
    status. *)
Lemma boot_default fuel o dis junk io_junk scancode_of elf ft tod n : plain o -> mem_wf io_junk ->
  init_elf elf ftrace_init = Ok ft ->
  (forall pc raw, Z.of_nat (length (dis pc raw)) < 70) -> (forall i, ir_ok (junk i)) -> 16 <= n ->
  exists e e', boot o dis junk io_junk scancode_of None elf (io_static tod (fun _ => [])) = Ok e /\
    exec fuel n e = Ok (Some e') /\ estate e' = NEMU_END /\ status (sim (ebus e')) = false /\
    arr (gpr (cpu (emach e'))) 10 = 15 /\ g_sim_instret (emach e') = 16.
Proof.
  intros Hpl Hio Hel Hdis Hj Hn. destruct (init_elf_rest _ _ _ Hel) as (Hen & _ & _).
  destruct (init_devices_ok io_junk scancode_of tod (fun _ => []) Hio) as (d & Ed & Hd).
  destruct (boot_cores_single o ft d _ (default_bus d) (proj2 (proj2 Hpl)) eq_refl) as [cs Ec].
  exists (boot_emu o dis junk cs (single_on ft (default_bus d))).
  assert (Hq : quiet d) by (intros i; by rewrite (init_devices_poll _ _ _ _ _ Ed)).
  destruct (default_ends o dis junk cs ft d n fuel Hpl Hen Hd Hq Hdis Hj Hn) as (e' & H).
  exists e'. exact (conj (boot_none _ _ _ _ _ _ _ _ _ _ _ Hel Ed Ec) H).
Qed.

(** Start-up without an ELF file, or with one that is shorter than an ELF header
    or does not start with the ELF magic, stops at an assertion. *)
Lemma boot_no_elf o dis junk io_junk scancode_of img elf d :
  match elf with
  | Some (Some file) => Z.of_nat (length file) < EHDR_SIZE \/ take 4 file <> [0x7f; 0x45; 0x4c; 0x46]
  | _ => True
  end -> exists err, boot o dis junk io_junk scancode_of img elf d = Err err /\
    (forall r, load_img img (init_default_program ∅) = Ok r -> err = Assertion).
Proof.
  intros Helf. unfold boot. generalize (init_default_program ∅). intros mem.
  destruct (load_img img mem) as [[sz mem1]|err]; [| by exists err]. cbn [mbind Res_bind]. exists Assertion.
  assert (E : init_elf elf ftrace_init = Err Assertion); [| by rewrite E].
  destruct elf as [[file|]|]; [| done | done]. unfold init_elf, fread_one. cbn [contents fpos]. change (Z.to_nat 0) with 0%nat. rewrite drop_0.
  destruct (Z.leb_spec (0 + EHDR_SIZE) (Z.of_nat (length file))); [| done]. destruct Helf as [Hl | Hm]; [lia |].
  cbn [Z.ltb Z.compare EHDR_SIZE andb ensure mbind Res_bind]. unfold check_ehdr, ehdr_of. cbn [e_ident].
  rewrite !take_take. change (4 `min` (16 `min` Z.to_nat 64))%nat with 4%nat. by rewrite bool_decide_false.
Qed.

(** ** Instances *)

Definition plain_options : Options := mkOptions false false CORE_MODE_FUNCTIONAL false false false false false.

(** The machine of [main] is ready for the built-in program. *)
Lemma boot_ready ft d : io_wf d -> sdl_poll d = (fun _ => []) -> g_ftrace_en ft = false ->
  let e := boot_emu plain_options (fun _ _ => []) (fun _ => ir_zero) [] (single_on ft (default_bus d)) in
  hart_ready default_code e /\ isa_eq (abs (emach e)) (default_isa 0).
Proof.
  intros Hd Hq Hen. cbv zeta. pose proof (single_default ft d Hd) as Ha.
  destruct (single_on_inv ft _ (default_bus_wf d Hd)) as (Hwf & _ & Hfr).
  assert (Hqm : quiet (io (bus (single_on ft (default_bus d))))) by (intros i; change (sdl_poll d i = []); by rewrite Hq).
  split; [split | exact Ha].
  - apply boot_emu_ok; [intros pc raw; cbn; lia | intros i; apply ir_zero_ok | exact Hwf | exact Hqm].
  - split; discriminate.
  - split; [reflexivity | split; reflexivity].
  - exact Hen.
  - intros k ->. split; [by apply (cached_ram 0x80000000) | apply Hfr].
  - exact (boot_allowed default_code ft (default_bus d) eq_refl).
Qed.

Lemma exec_simulates_witness : exists d e',
  init_devices ∅ (fun _ => 0) (io_static (fun _ => (0, 0)) (fun _ => [])) = Ok d /\
  exec 0 3 (boot_emu plain_options (fun _ _ => []) (fun _ => ir_zero) [] (single_on ftrace_init (default_bus d))) = Ok (Some e') /\
  pc (cpu (emach e')) = 0x8000000c /\ estate e' = NEMU_RUNNING.
Proof.
  destruct (init_devices_ok ∅ (fun _ => 0) (fun _ => (0, 0)) (fun _ => [])) as (d & Ed & Hd).
  { intros i x Hi. rewrite lookup_empty in Hi. discriminate Hi. }
  destruct (boot_ready ftrace_init d Hd (init_devices_poll _ _ _ _ _ Ed) eq_refl) as [Hr Ha].
  destruct (exec_simulates 0 default_code 3 (default_isa 0) (default_isa 3) _
    (default_run 3 0 ltac:(lia) ltac:(lia)) ltac:(lia) Hr Ha) as (e' & E & Heq & Hs & _).
  exists d, e'. split; [exact Ed | split; [exact E | split; [apply (ie_pc _ _ Heq) | exact Hs]]].
Defined.
