(* ===== verification/ExecDual.v ===== *)
(** * The main loop with two functional cores

    [exec] in the dual configuration alternates the cores, two clocks per
    round; it ends within the given number of rounds, and simulates the two
    abstract harts of Dual.v from the machine that [main] builds. *)

From S2P Require Import Prelude Word State Pmp Csr Cache CacheSet CacheSpec CacheRefine Coherence Mmio Mem Ftrace Vmem VmemSpec Decode Ir InstTable IrSpec Exec Isa Image Bpred Pipeline Ringbuf Ooo Expr Watchpoint Core Dual ExecLoop ExecSpec.
From Stdlib Require Import Ascii.

(** ** Rounds *)

Lemma dual_run_app code l1 l2 d d' : dual_run code (l1 ++ l2) d d' ->
  exists d1, dual_run code l1 d d1 /\ dual_run code l2 d1 d'.
Proof.
  revert d. induction l1 as [|i l1 IH]; intros d H; [by exists d; split; [constructor |] |].
  cbn [app] in H. inversion H as [| ? ? ? ? r Hi Hs Hc Hu Hr]; subst. destruct (IH _ Hr) as (d1 & Hr1 & Hr2).
  exists d1. split; [| done]. by econstructor.
Qed.

(** The schedule of [k] rounds. *)
Fixpoint rounds (k : nat) : list Z := match k with O => [] | S k => [0; 1] ++ rounds k end.

(** What the loop needs and keeps. *)
Record dual_emu (code : Z -> Prop) (e : Emu) : Prop := {
  de_wf : dual_wf (cores e) (emach e);
  de_code : code_ok code (cores e) (emach e);
  de_stack : forall n, ir_ok (stack_ir e n);
  de_wp : wp_any_active (wps e) = false;
  de_run : running e = true;
}.

Definition emu_abs (e : Emu) : DualIsa := dual_abs (cores e) (emach e).

Lemma round_sim code ids d d' : dual_run code ids d d' ->
  forall e total, dual_emu code e -> dual_eq (emu_abs e) d -> 0 <= total -> total + Z.of_nat (length ids) < 2 ^ 64 ->
  exists e', dual_round ids total e = Ok (total + Z.of_nat (length ids), e') /\ dual_emu code e' /\ dual_eq (emu_abs e') d'.
Proof.
  induction 1 as [d | i sched d d' r Hi Hr Hcode Hu _ IH]; intros e total [Hwf Hco Hst Hwp Hrun] Heq Ht Hlt.
  { exists e. rewrite Z.add_0_r. done. }
  cbn [length] in Hlt. cbn [dual_round next_ir length].
  change (cores (bump_calls e)) with (cores e). change (ow (bump_calls e)) with (ow e).
  destruct (cycle_core_sim code (cores e) (ow e) i r (stack_ir e (once_calls e)) d) as (cs & w & E & Ew & Es & Heq1 & Hwf1 & Hco1); try done.
  rewrite E. cbn [mbind Res_bind]. set (e1 := put_cores cs (put_ow w (bump_calls e))).
  assert (Hr1 : running e1 = true).
  { unfold running, estate, ebus. change (emach e1) with (omach w). by rewrite Es. }
  unfold wp_stop. change (wps e1) with (wps e). rewrite Hwp. cbn [negb mbind Res_bind]. rewrite Hr1.
  assert (Et : (total + 1)%word = total + 1) by (unfold add64; apply wrap64_small; unfold is_word; lia). rewrite Et.
  destruct (IH e1 (total + 1)) as (e' & E' & He' & Heq'); [by split | done | lia | lia |].
  exists e'. rewrite E'. split; [do 2 f_equal; lia | done].
Qed.

Lemma dual_ids code e : dual_emu code e -> core_ids e = [0; 1].
Proof. intros [Hwf _ _ _ _]. unfold core_ids. by rewrite (dw_num _ _ Hwf). Qed.

(** [k] rounds of the outer loop. *)
Lemma loop_sim code n k fuel : (k <= fuel)%nat -> n < 2 ^ 64 - 1 ->
  forall d d' e total, dual_run code (rounds k) d d' -> dual_emu code e -> dual_eq (emu_abs e) d ->
  0 <= total -> n <= total + 2 * Z.of_nat k -> (k = O \/ total + 2 * Z.of_nat k - 2 < n) ->
  exists e', while_loop fuel (dual_cond n) dual_body (total, e) = Ok (Some (total + 2 * Z.of_nat k, e')) /\
    dual_emu code e' /\ dual_eq (emu_abs e') d'.
Proof.
  revert fuel. induction k as [|k IH]; intros fuel Hfuel Hn d d' e total Hrun He Heq Ht Hle Hlt.
  - inversion Hrun; subst. exists e. replace (total + 2 * Z.of_nat 0) with total in * by lia. split; [| done].
    destruct fuel; cbn [while_loop]; unfold dual_cond; cbn [fst snd];
      by replace (total <? n) with false by lia.
  - destruct fuel as [|fuel]; [lia |]. cbn [rounds] in Hrun.
    destruct (dual_run_app _ _ _ _ _ Hrun) as (d1 & H1 & H2).
    destruct (round_sim code [0; 1] d d1 H1 e total He Heq Ht) as (e1 & E1 & He1 & Heq1); [cbn [length]; lia |].
    cbn [length] in E1. change (Z.of_nat 2) with 2 in E1.
    cbn [while_loop]. unfold dual_cond at 1. cbn [fst snd]. replace (total <? n) with true by lia.
    rewrite (de_run _ _ He). cbn [andb negb].
    assert (Eb : dual_body (total, e) = Ok (total + 2, e1)) by (unfold dual_body; cbn [fst snd]; by rewrite (dual_ids _ _ He)).
    rewrite Eb. cbn [mbind Res_bind].
    destruct (IH fuel ltac:(lia) Hn d1 d' e1 (total + 2) H2 He1 Heq1) as (e' & E' & He' & Heq'); [lia | lia | lia |].
    exists e'. rewrite E'. split; [| done]. do 3 f_equal. lia.
Qed.

(** ** The beginning of exec *)

(** Initialising functional cores installs their contexts and nothing else. *)
Lemma init_core_functional i e : mode (arr (cores e) i) = CORE_MODE_FUNCTIONAL ->
  cores (init_core_at i e) = cores e /\ shared (emach e) (emach (init_core_at i e)) /\
  stack_ir (init_core_at i e) = stack_ir e /\ wps (init_core_at i e) = wps e /\ estate (init_core_at i e) = estate e.
Proof. intros Hm. unfold init_core_at, init_engine. cbv zeta. rewrite Hm. split; [apply upd_same |]. done. Qed.

Lemma init_cores_ok code e : dual_emu code e -> dual_emu code (init_cores e) /\ dual_eq (emu_abs (init_cores e)) (emu_abs e).
Proof.
  intros He. unfold init_cores. case_if; [by split |]. rewrite (dual_ids _ _ He). destruct He as [Hwf Hco Hs Hw Hr].
  set (e0 := {| e with cores_initialised := true |}). cbn [foldl].
  destruct (init_core_functional 0 e0) as (C1 & S1 & T1 & W1 & R1); [by apply (co_mode _ _ _ Hco) |].
  set (e1 := init_core_at 0 e0) in *.
  destruct (init_core_functional 1 e1) as (C2 & S2 & T2 & W2 & R2); [rewrite C1; by apply (co_mode _ _ _ Hco) |].
  set (e2 := init_core_at 1 e1) in *.
  assert (Hsh : shared (emach e) (emach e2)) by (by transitivity (emach e1)).
  destruct (shared_dual code (cores e) _ _ Hsh) as (H1 & H2 & H3). unfold emu_abs. rewrite C2, C1. split; [| exact H3].
  split; rewrite ?C2, ?C1; [by apply H1 | by apply H2 | by rewrite T2, T1 | by rewrite W2, W1 |].
  unfold running in *. by rewrite R2, R1.
Qed.

(** The machine ready for [exec], whatever its run state. *)
Record dual_ready (code : Z -> Prop) (e : Emu) : Prop := {
  dr_wf : dual_wf (cores e) (emach e);
  dr_code : code_ok code (cores e) (emach e);
  dr_stack : forall n, ir_ok (stack_ir e n);
  dr_wp : wp_any_active (wps e) = false;
  dr_idle : idle e;
}.

(** C4. [exec] with two functional cores.  [exec(n)] runs [(n + 1) / 2] rounds
    and therefore returns within that many turns of its loop, having executed
    two instructions per round, core 0 first: an odd [n] is exceeded by one.
    The result is that of the two abstract harts taking turns on one memory,
    and both cores are ready for the next call. *)
Theorem exec_dual_simulates fuel code n d d' e : 0 <= n < 2 ^ 64 - 1 -> (Z.to_nat ((n + 1) / 2) <= fuel)%nat ->
  dual_run code (rounds (Z.to_nat ((n + 1) / 2))) d d' -> dual_ready code e -> dual_eq (emu_abs e) d ->
  exists e', exec fuel n e = Ok (Some e') /\ dual_eq (emu_abs e') d' /\ estate e' = NEMU_RUNNING /\ dual_ready code e'.
Proof.
  intros Hn Hfuel Hrun [Hwf Hco Hs Hw [Hi1 Hi2]] Heq. set (k := Z.to_nat ((n + 1) / 2)) in *.
  assert (Hk : n <= 2 * Z.of_nat k /\ (k = O \/ 2 * Z.of_nat k - 2 < n)).
  { unfold k. pose proof (Z.div_mod (n + 1) 2). pose proof (Z.mod_pos_bound (n + 1) 2). pose proof (Z.div_pos (n + 1) 2). lia. }
  set (e1 := put_state NEMU_RUNNING (put_print_step (n <? MAX_INST_TO_PRINT) e)).
  destruct (shared_dual code (cores e) (emach e) (emach e1)) as (H1 & H2 & H3); [done |].
  assert (He1 : dual_emu code e1) by (split; [by apply H1 | by apply H2 | done | done | done]).
  destruct (init_cores_ok code e1 He1) as [He2 Heq2].
  assert (Heqd : dual_eq (emu_abs (init_cores e1)) d).
  { transitivity (emu_abs e1); [done |]. transitivity (emu_abs e); [exact H3 | exact Heq]. }
  destruct (loop_sim code n k fuel Hfuel ltac:(lia) d d' (init_cores e1) 0 Hrun He2 Heqd) as (e' & E & He' & Heq'); [lia | lia | lia |].
  exists e'. split_and!; [| done | |].
  - unfold exec. change (estate (put_print_step (n <? MAX_INST_TO_PRINT) e)) with (estate e). fold e1.
    change (g_num_cores (emach e1)) with (g_num_cores (emach e)). rewrite (dw_num _ _ Hwf). change (1 <? 2) with true. cbv iota.
    unfold exec_dual. rewrite E. by destruct (estate e).
  - pose proof (de_run _ _ He') as Hr. unfold running in Hr. by apply bool_decide_eq_true in Hr.
  - destruct He' as [? ? ? ? Hr]. split; try done. unfold running in Hr. apply bool_decide_eq_true in Hr.
    split; by rewrite Hr.
Qed.
