(* ===== verification/DualBoot.v ===== *)
(** * Two cores from start-up

    The machine that [main] builds with [--dual] satisfies the hypotheses of
    the two-core theorems: four private caches, a shared second level, nothing
    cached, nothing protected.  The instances run the built-in program on both
    harts. *)

From S2P Require Import Prelude Word State Pmp Csr Cache CacheSet CacheSpec CacheRefine Coherence Mmio Mem Ftrace Elf ElfSpec ElfWrite Vmem VmemSpec Decode Ir InstTable IrSpec Exec Isa Image Bpred Pipeline Ringbuf Ooo Expr Watchpoint Core Dual ExecLoop Engines ExecSpec ExecDual.
From Stdlib Require Import Ascii.

(** ** The machine *)

Definition dual_on (ft : Ftrace) (b : Bus) : Mach :=
  let m := boot_on b in
  {| m with heap := heap m ++ new_l1 ++ new_l1; cores_l1d := [Some 4; Some 6]; g_num_cores := 2; ftrace := ft |}.

(** Core [i] as [core_create] leaves it. *)
Record fresh_core (b : Bus) (i : Z) (c : Core) : Prop := {
  fc_id : core_id c = i;
  fc_mode : mode c = CORE_MODE_FUNCTIONAL;
  fc_cpu : c_cpu c = init_regs;
  fc_csr : c_csr c = csr (csrf b);
  fc_priv : c_priv_level c = priv_level (csrf b);
  fc_cfg : c_pmpcfg c = pmpcfg (pmp (csrf b));
  fc_addr : c_pmpaddr c = pmpaddr (pmp (csrf b));
  fc_l1i : c_l1i c = Some (3 + 2 * i);
  fc_l1d : c_l1d c = Some (4 + 2 * i);
}.

Lemma boot_cores_dual o ft d mem b : o_dual o = true -> o_mode o = CORE_MODE_FUNCTIONAL ->
  b = mkBus sim_init csrfile_init mem d ->
  exists c0 c1, boot_cores o ft d mem = ([c0; c1], dual_on ft b) /\ fresh_core b 0 c0 /\ fresh_core b 1 c1.
Proof.
  intros Hdu Hm Eb. unfold boot_cores, create_cores. rewrite Hdu, Hm, <-Eb. clear.
  change (Z.to_nat 2) with 2%nat. cbn [foldl seqZ_from].
  match goal with |- context [core_create 0 _ _ ?x] => set (m0 := x) end.
  pose proof (core_create_ok 0 CORE_MODE_FUNCTIONAL (o_bpred o) m0) as Hc.
  destruct (core_create 0 _ _ _) as [c0 m1]. destruct Hc as (-> & H1 & H2 & H3 & H4 & H5 & H6 & H7 & H8 & H9).
  match goal with |- context [core_create (0 + 1) _ _ ?x] => set (m1 := x) end.
  pose proof (core_create_ok (0 + 1) CORE_MODE_FUNCTIONAL (o_bpred o) m1) as Hc.
  destruct (core_create (0 + 1) _ _ _) as [c1 m2]. destruct Hc as (-> & G1 & G2 & G3 & G4 & G5 & G6 & G7 & G8 & G9).
  exists c0, c1. split; [| split; by split].
  reflexivity.
Qed.

(** Installing a fresh core leaves the bus alone. *)
Lemma fresh_bus ft b i c : fresh_core b i c -> bus (install c (dual_on ft b)) = b.
Proof.
  intros [_ _ _ Ec Ep Ef Ea _ _]. cbn. unfold install_csrf. rewrite Ec, Ep, Ef, Ea.
  by destruct b as [? [? ? []] ? ?].
Qed.

(** Every cache of the machine is empty. *)
Lemma fresh_caches ft b i c : 0 <= i < 2 -> fresh_core b i c ->
  let m := install c (dual_on ft b) in
  (exists nm, icache m = init_cache 6 8 nm) /\ (exists nm, own m = init_cache L1D_S 8 nm) /\
  (exists nm, other m = Some (init_cache L1D_S 8 nm)) /\ (exists nm, l2c m = init_cache 8 16 nm).
Proof.
  intros Hi [Eid _ _ _ _ _ _ Ei Ed]. cbv zeta. unfold icache, own, other, other_ptr, l2c. cbn [install L1I_cache L1D_cache L2_cache cores_l1d g_num_cores g_current_hartid dual_on].
  rewrite Ei, Ed, Eid. assert (i = 0 \/ i = 1) as [-> | ->] by lia; split_and!; by eexists.
Qed.

Lemma fresh_ptrs ft b i c : 0 <= i < 2 -> fresh_core b i c -> ptrs_ok (install c (dual_on ft b)).
Proof.
  intros Hi [Eid _ _ _ _ _ _ Ei Ed].
  assert (Hp : forall j, 0 <= j < 7 -> ptr_ok (Some j) (install c (dual_on ft b))).
  { intros j Hj. exists j. split; [done |]. unfold in_range. cbn [install heap dual_on].
    change (length (heap (boot_on b) ++ new_l1 ++ new_l1)) with 7%nat. lia. }
  assert (Eo : other_ptr (install c (dual_on ft b)) = Some (6 - 2 * i)).
  { unfold other_ptr. cbn [install cores_l1d g_current_hartid dual_on]. rewrite Eid.
    by assert (i = 0 \/ i = 1) as [-> | ->] by lia. }
  split; cbn [install L1I_cache L1D_cache L2_cache dual_on boot_on]; rewrite ?Eo, ?Ei, ?Ed; try (apply Hp; lia); try (intros [=]; lia).
  intros _. split_and!; try (apply Hp; lia); intros [=]; lia.
Qed.

Lemma fresh_inv ft b i c : bus_wf b -> 0 <= i < 2 -> fresh_core b i c ->
  let m := install c (dual_on ft b) in
  mach_wf m /\ (forall k, dview m k = bus_block b k) /\ (forall k, fresh m k).
Proof.
  intros Hb Hi Hc. pose proof (fresh_ptrs ft b i c Hi Hc) as Hp. pose proof (fresh_bus ft b i c Hc) as Eb.
  destruct (fresh_caches ft b i c Hi Hc) as ([ni Ei] & [nd Ed] & [no Eo] & [n2 E2]).
  cbv zeta. set (m := install c (dual_on ft b)) in *.
  assert (Hh : forall n, hier_inv (init_cache L1D_S 8 n) (l2c m) (bus m) /\
                 forall k, hview (init_cache L1D_S 8 n) (l2c m) (bus m) k = bus_block b k).
  { intros n. rewrite E2, Eb. destruct (hier_init (M := Bus) L1D_S 8 n 8 16 n2 b) as [H1 H2];
      [unfold L1D_S; lia | lia | lia | lia | apply Hb | split; [exact H1 | exact H2]]. }
  assert (Hv : forall k, dview m k = bus_block b k).
  { intros k. unfold dview. rewrite Eo. unfold cview. rewrite init_cache_content, Ed. apply Hh. }
  split_and!; [split | done |].
  - split; [done | by rewrite Eb | |].
    + rewrite Eo, Ed. split; [apply Hh | apply Hh | |]; intros k x; by rewrite init_cache_content.
    + rewrite Ei. split; [apply init_cache_wf; lia | |]; intros k x; by rewrite init_cache_content.
  - cbn. rewrite (fc_cpu _ _ _ Hc). apply init_regs_ok.
  - cbn. rewrite (fc_cpu _ _ _ Hc). apply init_regs_ok.
  - apply is_word_0.
  - apply is_word_0.
  - intros k. split; [rewrite Ei; intros x; by rewrite init_cache_content |].
    rewrite Hv. unfold lower. by rewrite E2, init_cache_content, Eb.
Qed.

(** What the two-core theorems ask for. *)
Lemma dual_on_ok code ft b c0 c1 : g_ftrace_en ft = false -> bus_wf b -> csrf b = csrfile_init ->
  fresh_core b 0 c0 -> fresh_core b 1 c1 -> (forall k, code k -> ram_blk (M := Bus) k) ->
  dual_wf [c0; c1] (dual_on ft b) /\ code_ok code [c0; c1] (dual_on ft b) /\
  dual_eq (dual_abs [c0; c1] (dual_on ft b))
    (mkDual (replicate 2 (0x80000000, replicate 32 0)) (bytes_of (bus_block b))).
Proof.
  intros Hen Hb Ecf H0 H1 Hram.
  assert (Hall : forall i, 0 <= i < 2 -> fresh_core b i (arr [c0; c1] i)).
  { intros i Hi. by assert (i = 0 \/ i = 1) as [-> | ->] by lia. }
  split; [split | split; [split |]]; try done.
  - unfold core_ptrs. change (arr [c0; c1] 0) with c0. change (arr [c0; c1] 1) with c1.
    rewrite (fc_l1i _ _ _ H0), (fc_l1d _ _ _ H0), (fc_l1i _ _ _ H1), (fc_l1d _ _ _ H1). split.
    + change (L2_cache (dual_on ft b)) with (Some 2). apply (bool_decide_unpack _). reflexivity.
    + cbn. repeat constructor; by eexists.
  - intros i Hi. apply (fc_id _ _ _ (Hall i Hi)).
  - intros i Hi. rewrite (fc_l1d _ _ _ (Hall i Hi)). by assert (i = 0 \/ i = 1) as [-> | ->] by lia.
  - intros i Hi. by apply (fresh_inv ft b i _ Hb Hi (Hall i Hi)).
  - intros i Hi. apply (fc_mode _ _ _ (Hall i Hi)).
  - intros i k Hi _. by apply (fresh_inv ft b i _ Hb Hi (Hall i Hi)).
  - intros i a Hi _. unfold fetch_allowed. by rewrite (fresh_bus ft b i _ (Hall i Hi)), Ecf.
  - split.
    + cbn. unfold core_hart. by rewrite (fc_cpu _ _ _ H0), (fc_cpu _ _ _ H1).
    + intros a _. cbn [dual_abs d_mem]. unfold mem_byte, bytes_of.
      by rewrite (proj1 (proj2 (fresh_inv ft b 0 _ Hb ltac:(lia) (Hall 0 ltac:(lia))))).
Qed.

(** ** The built-in program on both harts *)

Definition default_dual (i j : Z) : DualIsa :=
  mkDual [(0x80000000 + 4 * i, upd (replicate 32 0) 10 i); (0x80000000 + 4 * j, upd (replicate 32 0) 10 j)] default_flat.

Lemma default_in_code i : 0 <= i < 15 -> default_code (blk (isa_pc (default_isa i))).
Proof.
  intros Hi. unfold default_code, blk. cbn [default_isa isa_pc].
  replace (0x80000000 + 4 * i) with (4 * i + 33554432 * 64) by lia.
  rewrite Z.div_add, Z.div_small by lia. done.
Qed.

Lemma default_rounds k i : 0 <= i -> i + Z.of_nat k <= 15 ->
  dual_run default_code (rounds k) (default_dual i i) (default_dual (i + Z.of_nat k) (i + Z.of_nat k)).
Proof.
  revert i. induction k as [|k IH]; intros i Hi Hk; [rewrite Z.add_0_r; constructor |].
  destruct (default_step i ltac:(lia)) as (Hr & En & Ht). pose proof (default_in_code i ltac:(lia)) as Hc.
  assert (H0 : hart 0 (default_dual i i) = default_isa i) by reflexivity.
  assert (H1 : hart 1 (default_dual (i + 1) i) = default_isa i) by reflexivity.
  assert (P0 : put_hart 0 (default_isa (i + 1)) (default_dual i i) = default_dual (i + 1) i) by reflexivity.
  assert (P1 : put_hart 1 (default_isa (i + 1)) (default_dual (i + 1) i) = default_dual (i + 1) (i + 1)) by reflexivity.
  cbn [rounds app]. apply (dual_step _ 0 _ _ _ addi_row); [lia | by rewrite H0 | by rewrite H0 | intros x _; rewrite H0; apply Ht |].
  rewrite H0, En, P0. apply (dual_step _ 1 _ _ _ addi_row); [lia | by rewrite H1 | by rewrite H1 | intros x _; rewrite H1; apply Ht |].
  rewrite H1, En, P1. replace (i + Z.of_nat (S k)) with (i + 1 + Z.of_nat k) by lia. apply IH; lia.
Qed.

Definition dual_options : Options := mkOptions false false CORE_MODE_FUNCTIONAL false false true false false.

(** The two cores of [main] before the built-in program. *)
Lemma default_dual_on ft d c0 c1 : g_ftrace_en ft = false -> io_wf d -> fresh_core (default_bus d) 0 c0 -> fresh_core (default_bus d) 1 c1 ->
  dual_wf [c0; c1] (dual_on ft (default_bus d)) /\ code_ok default_code [c0; c1] (dual_on ft (default_bus d)) /\
  dual_eq (dual_abs [c0; c1] (dual_on ft (default_bus d))) (default_dual 0 0).
Proof.
  intros Hen Hd H0 H1. pose proof (default_bus_wf d Hd) as Hb. pose proof (default_bytes d) as Hby.
  assert (Hcf : csrf (default_bus d) = csrfile_init) by reflexivity.
  revert H0 H1 Hb Hby Hcf. generalize (default_bus d). intros b H0 H1 Hb Hby Hcf.
  destruct (dual_on_ok default_code ft b c0 c1 Hen Hb Hcf H0 H1) as (G1 & G2 & [G3 G4]).
  { intros k ->. by apply (cached_ram 0x80000000). }
  split; [exact G1 | split; [exact G2 |]]. split; [exact G3 |]. intros a Ha. rewrite (G4 a Ha). apply Hby.
Qed.

(** ** Instances *)

Lemma exec_dual_simulates_witness : exists d c0 c1 e',
  boot_cores dual_options (loaded sample_symbols) d (init_default_program ∅) = ([c0; c1], dual_on (loaded sample_symbols) (default_bus d)) /\
  exec 3 5 (boot_emu dual_options (fun _ _ => []) (fun _ => ir_zero) [c0; c1] (dual_on (loaded sample_symbols) (default_bus d))) = Ok (Some e') /\
  d_harts (emu_abs e') = d_harts (default_dual 3 3).
Proof.
  destruct (init_devices_ok ∅ (fun _ => 0) (fun _ => (0, 0)) (fun _ => [])) as (d & Ed & Hd).
  { intros i x Hi. rewrite lookup_empty in Hi. discriminate Hi. }
  destruct (boot_cores_dual dual_options (loaded sample_symbols) d (init_default_program ∅) (default_bus d) eq_refl eq_refl eq_refl) as (c0 & c1 & Ec & H0 & H1).
  destruct (default_dual_on (loaded sample_symbols) d c0 c1 eq_refl Hd H0 H1) as (G1 & G2 & G3).
  assert (Hs : sim (bus (dual_on (loaded sample_symbols) (default_bus d))) = sim_init) by reflexivity.
  exists d, c0, c1. revert G1 G2 G3 Hs Ec. generalize (dual_on (loaded sample_symbols) (default_bus d)). intros m G1 G2 G3 Hs Ec.
  destruct (exec_dual_simulates 3 default_code 5 (default_dual 0 0) (default_dual 3 3)
    (boot_emu dual_options (fun _ _ => []) (fun _ => ir_zero) [c0; c1] m)) as (e' & E & [Eh _] & _).
  - lia.
  - vm_compute. lia.
  - change (Z.to_nat ((5 + 1) / 2)) with 3%nat. exact (default_rounds 3 0 ltac:(lia) ltac:(lia)).
  - split; [exact G1 | exact G2 | intros n; apply ir_zero_ok | reflexivity |].
    split; unfold estate, ebus; change (emach _) with m; rewrite Hs; discriminate.
  - exact G3.
  - exists e'. split; [exact Ec | split; [exact E | exact Eh]].
Defined.

Lemma dual_cores_simulate_witness : exists d c0 c1 cs w,
  boot_cores dual_options (loaded sample_symbols) d (init_default_program ∅) = ([c0; c1], dual_on (loaded sample_symbols) (default_bus d)) /\
  run_schedule (fun _ => ir_zero) [0; 1; 0; 1] [c0; c1]
    (static_world dual_options (fun _ _ => []) ir_zero (dual_on (loaded sample_symbols) (default_bus d))) = Ok (cs, w) /\
  d_harts (dual_abs cs (omach w)) = d_harts (default_dual 2 2).
Proof.
  destruct (init_devices_ok ∅ (fun _ => 0) (fun _ => (0, 0)) (fun _ => [])) as (d & Ed & Hd).
  { intros i x Hi. rewrite lookup_empty in Hi. discriminate Hi. }
  destruct (boot_cores_dual dual_options (loaded sample_symbols) d (init_default_program ∅) (default_bus d) eq_refl eq_refl eq_refl) as (c0 & c1 & Ec & H0 & H1).
  destruct (default_dual_on (loaded sample_symbols) d c0 c1 eq_refl Hd H0 H1) as (G1 & G2 & G3).
  exists d, c0, c1. revert G1 G2 G3 Ec. generalize (dual_on (loaded sample_symbols) (default_bus d)). intros m G1 G2 G3 Ec.
  destruct (dual_cores_simulate default_code [0; 1; 0; 1] (default_dual 0 0) (default_dual 2 2)
    (default_rounds 2 0 ltac:(lia) ltac:(lia)) (fun _ => ir_zero) [c0; c1]
    (static_world dual_options (fun _ _ => []) ir_zero m) G1 G2) as (cs & w & E & _ & _ & [Eh _] & _).
  - intros n. apply ir_zero_ok.
  - exact G3.
  - exists cs, w. split; [exact Ec | split; [exact E | exact Eh]].
Defined.

(** ** Two engines *)

(** An out-of-order core and an in-order one, as [core_create] and the
    initialisation in [exec] leave them. *)
Definition mixed_cores (m : Mach) : list Core * OooWorld :=
  let '(c0, m) := core_create 0 CORE_MODE_OOO true m in
  let '(c1, m) := core_create 1 CORE_MODE_INORDER true m in
  let '(c0, w) := init_engine c0 (static_world dual_options (fun _ _ => []) ir_zero m) in
  let '(c1, w) := init_engine c1 w in ([c0; c1], w).

Lemma core_create_slots id md bp m : length (slots (c_pipe (core_create id md bp m).1)) = 4%nat.
Proof. unfold core_create, alloc_cache. by case_bool_decide. Qed.

Lemma mixed_cores_ok m : Forall engine_ok (mixed_cores m).1 /\ length (mixed_cores m).1 = 2%nat.
Proof.
  unfold mixed_cores. pose proof (core_create_slots 0 CORE_MODE_OOO true m) as L0.
  destruct (core_create 0 _ _ m) as [c0 m0]. pose proof (core_create_slots 1 CORE_MODE_INORDER true m0) as L1.
  destruct (core_create 1 _ _ m0) as [c1 m1]. generalize (static_world dual_options (fun _ _ => []) ir_zero m1). intros w.
  destruct (init_engine_ok c0 w L0) as [G0 _]. destruct (init_engine c0 w) as [c0' w0].
  destruct (init_engine_ok c1 w0 L1) as [G1 _]. destruct (init_engine c1 w0) as [c1' w1].
  split; [| done]. by repeat apply Forall_cons_2; [.. | apply Forall_nil_2].
Qed.

(** Ten clocks over the built-in program, after which the in-order core has
    retired an instruction. *)
Definition mixed_start : list Core * OooWorld := mixed_cores (boot_on (default_bus (io_static (fun _ => (0, 0)) (fun _ => [])))).
Definition mixed_clocks : list Z := [0; 1; 0; 1; 1; 0; 0; 1; 0; 1].

Definition mixed_retires (r : Res (list Core * OooWorld)) : bool :=
  match r with Ok (cs, _) => ps_insts (c_pipe_stats (arr cs 1)) =? 1 | Err _ => false end.

Lemma mixed_retires_inv r : mixed_retires r = true -> exists cs w, r = Ok (cs, w) /\ ps_insts (c_pipe_stats (arr cs 1)) = 1.
Proof. unfold mixed_retires. intros H. destruct r as [[cs w]|]; [| done]. apply Z.eqb_eq in H. eauto. Qed.

Lemma core_engines_invariant_witness : exists cs w,
  run_schedule (fun _ => ir_zero) mixed_clocks mixed_start.1 mixed_start.2 = Ok (cs, w) /\
  ps_insts (c_pipe_stats (arr cs 1)) = 1 /\ Forall engine_ok cs.
Proof.
  destruct (mixed_retires_inv (run_schedule (fun _ => ir_zero) mixed_clocks mixed_start.1 mixed_start.2)) as (cs & w & E & Hr).
  { vm_compute. reflexivity. }
  destruct (mixed_cores_ok (boot_on (default_bus (io_static (fun _ => (0, 0)) (fun _ => []))))) as [Hc Hl].
  exists cs, w. split; [exact E | split; [exact Hr |]].
  apply (proj2 core_engines_invariant (fun _ => ir_zero) mixed_clocks mixed_start.1 mixed_start.2 cs w E Hc).
  unfold mixed_start. rewrite Hl. repeat (apply Forall_cons_2; [lia |]). apply Forall_nil_2.
Defined.
