(* ===== verification/Sdb.v ===== *)
(** * The debugger (src/monitor/sdb.c)

    A session reads lines, splits off the command word, looks it up in the
    table and calls its handler.  [readline] is the list of lines it returns
    before end of file; what the handlers print, without the colour codes, is
    collected in [out].  [exec]
    carries the fuel of ExecLoop.v, [None] meaning that it ran out. *)

From S2P Require Import Prelude Word State Pmp Csr Cache CacheSet CacheSpec CacheRefine Coherence Mmio Mem Ringbuf Ftrace Elf Vmem VmemSpec Decode Ir InstTable IrSpec Exec Isa Image Bpred Pipeline Ooo Regex Expr Watchpoint Stdio Mtrace Core Dual ExecLoop.
From Stdlib Require Import Ascii.

Record Sdb := mkSdb {
  emu : Emu;
  mt : Mtrace;
  out : list (list ascii);     (** the lines printed so far *)
}.

Definition put_emu (e : Emu) (s : Sdb) : Sdb := {| s with emu := e |}.
Definition print (ls : list (list ascii)) (s : Sdb) : Sdb := {| s with out := out s ++ ls |}.
Definition smach (s : Sdb) : Mach := emach (emu s).
Definition put_smach (m : Mach) (s : Sdb) : Sdb := put_emu (put_emach m (emu s)) s.

(** ** What the handlers print *)

(** [dump_gpr] and [reg_display] of reg.c *)
Definition gpr_cell (c : CPU_state) (i : Z) : list ascii :=
  right_align 3 (text_of (arr regs i)) ++ text_of " = 0x" ++ left_align 16 (fmt_lx (arr (gpr c) i)) ++ text_of "   ".

Definition dump_gpr (c : CPU_state) : list (list ascii) :=
  (fun r => concat (gpr_cell c <$> seqZ_from (8 * r) 8)) <$> seqZ_from 0 4.

Definition reg_display (m : Mach) : list (list ascii) :=
  let c := csr (csrf (bus m)) in
  [text_of "Now pc is " ++ fmt_lx (pc (cpu m))] ++ dump_gpr (cpu m) ++
  [text_of "mepc: " ++ fmt_lx (mepc c); text_of "mcause: " ++ fmt_lx (mcause c);
   text_of "mtvec: " ++ fmt_lx (mtvec c); text_of "mstatus: " ++ fmt_lx (mstatus c)].

(** [print_wp] of watchpoint.c: the walk along the active list. *)
Fixpoint print_wp_from (fuel : nat) (p : option Z) (s : WatchPool) : Res (list (list ascii)) :=
  match p with
  | None => Ok []
  | Some p =>
      match fuel with
      | O => Err Undefined
      | S fuel =>
          let w := arr (wp_pool s) p in
          ls ← print_wp_from fuel (next w) s;
          Ok ((text_of " NO:" ++ fmt_d (NO w) ++ text_of ",  expr: " ++ wp_expr w ++ text_of " 0x" ++ fmt_lx (value w)) :: ls)
      end
  end.
Definition print_wp (s : WatchPool) : Res (list (list ascii)) :=
  ls ← print_wp_from wp_fuel (head s) s; Ok (text_of "watchpoint list:" :: ls).

(** [print_ringbuf] of ringbuf.c *)
Definition print_ringbuf (r : ringbuf) : list (list ascii) :=
  (fun i => text_of (if i =? pointer r then "---> " else "     ") ++ arr (buf r) i) <$> seqZ_from 0 (Z.to_nat RINGBUFSIZE).

(** ** Handlers

    The argument is where [strtok(NULL, " ")] continues. *)

Definition ret (s : Sdb) : Res (option Sdb) := Ok (Some s).

Definition run_exec (fuel : nat) (n : Z) (s : Sdb) : Res (option Sdb) :=
  e ← exec fuel n (emu s); Ok (option_map (fun e => put_emu e s) e).

(** [exec(-1)] *)
Definition cmd_c (fuel : nat) (s : Sdb) : Res (option Sdb) := run_exec fuel (2 ^ 64 - 1) s.

Definition cmd_q (s : Sdb) : Sdb := put_emu (put_state NEMU_QUIT (emu s)) s.

Definition cmd_si (fuel : nat) (args : list ascii) (s : Sdb) : Res (option Sdb) :=
  match fst (strtok args) with
  | Some arg => n ← scan_ld arg; run_exec fuel n s
  | None => run_exec fuel 1 s
  end.

(** [cache_report] prints floating-point percentages, which [out] leaves out. *)
Definition cmd_info (args : list ascii) (s : Sdb) : Res Sdb :=
  match fst (strtok args) with
  | None => Err Undefined
  | Some arg =>
      if bool_decide (arg = text_of "r") then Ok (print (reg_display (smach s)) s)
      else if bool_decide (arg = text_of "w") then ls ← print_wp (wps (emu s)); Ok (print ls s)
      else Ok s
  end.

(** The loop of [cmd_x] with [i] at its value: the bytes of the current line
    are in [line]. *)
Fixpoint scan_memory (n : nat) (i addr : Z) (line : list ascii) (s : Sdb) : Res Sdb :=
  match n with
  | O => Ok s
  | S n =>
      let a := (addr + i)%word in
      let line := if i mod 4 =? 0 then hex 16 a ++ text_of ": " else line in
      '(v, m) ← vaddr_read a 1 (smach s);
      let line := line ++ zero_align 2 (fmt_lx v) ++ text_of " " in
      let s := put_smach m s in
      scan_memory n (i + 1) addr line (if i mod 4 =? 3 then print [line] s else s)
  end.

(** [n * 4] is an [int] that is compared as an unsigned number; [n] is only read
    when the expression was understood. *)
Definition cmd_x (args : list ascii) (s : Sdb) : Res Sdb :=
  let '(num, args) := strtok args in
  match num, fst (strtok args) with
  | Some num, Some addr =>
      n ← store_d num;
      '(addr_n, success, m) ← expr addr true (smach s);
      let s := put_smach m s in
      if success : bool then
        n ← initialised n;
        _ ← ensure Undefined ((INT_MIN <=? n * 4) && (n * 4 <=? INT_MAX));
        scan_memory (Z.to_nat (wrap64 (n * 4))) 0 addr_n [] s
      else Ok s
  | _, _ => Ok (print [text_of "FORMAT: x n addr"] s)
  end.

Definition cmd_p (args : list ascii) (s : Sdb) : Res Sdb :=
  match fst (strtok args) with
  | None => Err Undefined
  | Some e =>
      '(v, _, m) ← expr e true (smach s);
      Ok (print [e ++ text_of " = 0x" ++ fmt_lx v] (put_smach m s))
  end.

(** Without an argument [strcpy] reads a null pointer, unless the pool is used
    up and [new_wp] does nothing. *)
Definition cmd_w (args : list ascii) (s : Sdb) : Res Sdb :=
  let e := emu s in
  match fst (strtok args), free_ (wps e) with
  | None, None => Ok s
  | None, Some _ => Err Undefined
  | Some w, _ => '(p, m) ← new_wp w (wps e) (emach e); Ok (put_emu (put_wps p (put_emach m e)) s)
  end.

Definition cmd_d (args : list ascii) (s : Sdb) : Res Sdb :=
  match fst (strtok args) with
  | None => Err Undefined
  | Some num => no ← scan_d num; p ← free_wp no (wps (emu s)); Ok (put_emu (put_wps p (emu s)) s)
  end.

Definition cmd_ft (s : Sdb) : Res Sdb := ls ← print_ftrace (ftrace (smach s)); Ok (print ls s).

Definition cmd_mt (args : list ascii) (s : Sdb) : Res Sdb :=
  let '(t1, args) := strtok args in
  let '(t2, args) := strtok args in
  match t1, t2, fst (strtok args) with
  | Some t1, Some t2, Some t3 =>
      type ← scan_s 2 t1; start ← scan_x t2; len ← scan_d t3;
      ls ← print_mtrace type start len (mt s); Ok (print ls s)
  | _, _, _ => Err Undefined
  end.

Definition cmd_rb (s : Sdb) : Sdb := print (print_ringbuf (rb (ow (emu s)))) s.

(** ** The table *)

Inductive handler := H_help | H_c | H_q | H_si | H_info | H_x | H_p | H_w | H_d | H_ft | H_mt | H_rb.

#[export] Instance handler_eq_dec : EqDecision handler.
Proof. solve_decision. Defined.

Definition cmd_table : list (string * string * handler) :=
  [ ("help", "Display informations about all supported commands", H_help);
    ("c", "Continue the execution of the program", H_c);
    ("q", "Exit NEMU", H_q);
    ("si", "Single step", H_si);
    ("info", "information of register and watchpoint", H_info);
    ("x", "scan memory", H_x);
    ("p", "calculate the value", H_p);
    ("w", "set watchpoint", H_w);
    ("d", "delete watchpoint", H_d);
    ("ft", "ftrace", H_ft);
    ("mt", "mtrace", H_mt);
    ("rb", "ringbuf", H_rb)
  ]%string.

Definition find_cmd (cmd : list ascii) : option (string * string * handler) :=
  List.find (fun r => bool_decide (cmd = text_of r.1.1)) cmd_table.

Definition help_line (r : string * string * handler) : list ascii := text_of r.1.1 ++ text_of " - " ++ text_of r.1.2.

Definition cmd_help (args : list ascii) (s : Sdb) : Sdb :=
  match fst (strtok args) with
  | None => print (help_line <$> cmd_table) s
  | Some arg =>
      match find_cmd arg with
      | Some r => print [help_line r] s
      | None => print [text_of "Unknown command '" ++ arg ++ text_of "'"] s
      end
  end.

Definition some (s : Res Sdb) : Res (option Sdb) := Some <$> s.

Definition run_handler (fuel : nat) (h : handler) (args : list ascii) (s : Sdb) : Res (option Sdb) :=
  match h with
  | H_help => ret (cmd_help args s)
  | H_c => cmd_c fuel s
  | H_q => ret (cmd_q s)
  | H_si => cmd_si fuel args s
  | H_info => some (cmd_info args s)
  | H_x => some (cmd_x args s)
  | H_p => some (cmd_p args s)
  | H_w => some (cmd_w args s)
  | H_d => some (cmd_d args s)
  | H_ft => some (cmd_ft s)
  | H_mt => some (cmd_mt args s)
  | H_rb => ret (cmd_rb s)
  end.

(** ** The loop *)

(** [while (SDL_PollEvent(&event));] drops the pending events. *)
Definition drain (s : Sdb) : Sdb :=
  let b := ebus (emu s) in
  let d := io b in
  put_emu (put_ebus {| b with io := {| d with poll_calls := poll_calls d + 1 |} |} (emu s)) s.

(** Every handler returns 0.  A command that is not in the table passes the
    loop without a message: the test for it is inside the loop. *)
Definition sdb_line (fuel : nat) (line : list ascii) (s : Sdb) : Res (option Sdb) :=
  match strtok line with
  | (None, _) => ret s
  | (Some cmd, args) =>
      let s := drain s in
      match find_cmd cmd with
      | Some r => run_handler fuel r.2 args s
      | None => ret s
      end
  end.

(** A blank line is skipped before the run state is looked at. *)
Fixpoint sdb_session (fuel : nat) (lines : list (list ascii)) (s : Sdb) : Res (option Sdb) :=
  match lines with
  | [] => ret s
  | line :: lines =>
      r ← sdb_line fuel line s;
      match r with
      | None => Ok None
      | Some s =>
          if bool_decide (fst (strtok line) <> None) && bool_decide (estate (emu s) = NEMU_QUIT) then ret s
          else sdb_session fuel lines s
      end
  end.

Definition sdbloop (fuel : nat) (batch : bool) (lines : list (list ascii)) (s : Sdb) : Res (option Sdb) :=
  if batch then cmd_c fuel s else sdb_session fuel lines s.

(** [main] after the initialisation: the exit status. *)
Definition main_loop (fuel : nat) (batch : bool) (lines : list (list ascii)) (e : Emu) : Res (option (bool * Sdb)) :=
  r ← sdbloop fuel batch lines (mkSdb e mtrace_static []);
  Ok (option_map (fun s => (status (sim (ebus (emu s))), s)) r).

Arguments put_emu : simpl never.
Arguments print : simpl never.
Arguments put_smach : simpl never.
Arguments drain : simpl never.
