(* ===== verification/SdbSpec.v ===== *)
(** * What a debugger session does

    Commands that only show something leave the program's state alone; a
    session that steps in pieces, with harmless commands in between, runs the
    abstract hart for the sum of the pieces. *)

From S2P Require Import Prelude Word State Pmp Csr Cache CacheSet CacheSpec CacheRefine Coherence Mmio Mem Ringbuf Ftrace Elf ElfSpec ElfWrite Vmem VmemSpec Decode Ir InstTable IrSpec Exec Isa Image Bpred Pipeline Ooo Regex Expr Watchpoint Stdio Mtrace Core Dual ExecLoop ExecSpec Sdb.
From Stdlib Require Import Ascii.

(** ** Looking at memory *)

(** [m'] is [m] after reads: caches and devices may have moved, the program's
    memory and registers have not. *)
Record looks (m m' : Mach) : Prop := {
  lo_inv : mem_inv m';
  lo_frame : mach_frame m m';
  lo_mem : forall a, cached a = true -> mem_byte m' a = mem_byte m a;
  lo_fresh : forall k, ram_blk (M := Bus) k -> fresh m k -> fresh m' k;
}.

Lemma looks_refl m : mem_inv m -> looks m m.
Proof. intros Hm. by split. Qed.

Lemma looks_trans m1 m2 m3 : looks m1 m2 -> looks m2 m3 -> looks m1 m3.
Proof.
  intros [? F1 M1 R1] [? F2 M2 R2]. split; [done | by transitivity m2 | |].
  - intros a Ha. by rewrite M2, M1.
  - intros k Hk Hf. by apply R2, R1.
Qed.

Lemma vaddr_read_looks m addr len v m' : mem_inv m -> 0 <= len <= 8 -> vaddr_read addr len m = Ok (v, m') -> looks m m'.
Proof.
  intros Hm Hl E. destruct (cached addr) eqn:Hc.
  - assert (Hb : in_block addr len).
    { unfold vaddr_read in E. rewrite Hc in E. inv_res. rename select (on_caches _ _ _ _ = _) into Eo.
      apply on_caches_inv in Eo as (? & ? & ? & ?). by eapply cache_read_inv. }
    destruct (vaddr_read_ok m addr len Hm Hc Hb) as (m1 & E1 & [? ? ? ? Hf]). rewrite E1 in E. injection E as <- <-.
    split; try done. intros k Hk Hfr. apply Hf; [done | intros [] | done].
  - unfold vaddr_read in E. rewrite Hc in E. destruct (bus_read_ok m addr len v m' Hm E) as (? & ? & _ & Hv & Hf).
    split; [done | done | | auto]. intros a _. unfold mem_byte, bytes_of. by rewrite Hv.
Qed.

Lemma apply_op_looks t a b m v m' : mem_inv m -> apply_op t a b m = Ok (v, m') -> looks m m'.
Proof.
  intros Hm E. unfold apply_op in E. cbv zeta in E.
  repeat (case_if_in E; [first [by injection E as <- <-; apply looks_refl | (apply bind_Ok_inv in E as (x & _ & E); injection E as <- <-; by apply looks_refl) | (eapply vaddr_read_looks; [done | | exact E]; lia)] |]).
  discriminate E.
Qed.

Lemma eval_looks toks togo : forall p q ok m v ok' m', mem_inv m -> eval toks togo p q ok m = Ok (v, ok', m') -> looks m m'.
Proof.
  induction togo as [|togo IH]; intros p q ok m v ok' m' Hm E; cbn [eval] in E; [simplify_eq/=; by apply looks_refl |].
  case_if_in E; [simplify_eq/=; by apply looks_refl |]. case_if_in E; [simplify_eq/=; by apply looks_refl |].
  case_if_in E. { unfold eval_atom in E. repeat case_if_in E; inv_res; try (by apply looks_refl). destruct (reg_str2val _ _). simplify_eq. by apply looks_refl. }
  case_if_in E; [by eapply IH |]. cbv zeta in E.
  apply bind_Ok_inv in E as ([[v1 ok1] m1] & Ev1 & E). apply bind_Ok_inv in E as ([[v2 ok2] m2] & Ev2 & E).
  pose proof (IH _ _ _ _ _ _ _ Hm Ev1) as L1. pose proof (IH _ _ _ _ _ _ _ (lo_inv _ _ L1) Ev2) as L2.
  pose proof (looks_trans _ _ _ L1 L2) as L. apply bind_Ok_inv in E as (u & _ & E). case_if_in E; [by simplify_eq/= |].
  apply bind_Ok_inv in E as ([v3 m3] & Ev3 & E). simplify_eq/=. eapply looks_trans; [exact L |].
  by eapply apply_op_looks, Ev3; apply L.
Qed.

Lemma expr_looks e ok m v ok' m' : mem_inv m -> expr e ok m = Ok (v, ok', m') -> looks m m'.
Proof.
  intros Hm E. unfold expr in E. apply bind_Ok_inv in E as ([toks|] & _ & E); [by eapply eval_looks |].
  simplify_eq/=. by apply looks_refl.
Qed.

(** ** Commands that only show something *)

(** The debugger state with another machine that reads led to, and more output. *)
Record shows (s s' : Sdb) : Prop := {
  sw_looks : looks (smach s) (smach s');
  sw_emu : emu s' = put_emach (smach s') (emu s);
  sw_mt : mt s' = mt s;
  sw_out : exists ls, out s' = out s ++ ls;
}.

Lemma put_emach_same e : put_emach (emach e) e = e.
Proof. by destruct e as [[[]]]. Qed.

Lemma shows_refl s : mem_inv (smach s) -> shows s s.
Proof. intros Hm. split; [by apply looks_refl | unfold smach; by rewrite put_emach_same | done | exists []; by rewrite app_nil_r]. Qed.

Lemma shows_trans s1 s2 s3 : shows s1 s2 -> shows s2 s3 -> shows s1 s3.
Proof.
  intros [L1 E1 M1 [o1 O1]] [L2 E2 M2 [o2 O2]]. split; [by eapply looks_trans | by rewrite E2, E1 | congruence |].
  exists (o1 ++ o2). by rewrite O2, O1, app_assoc.
Qed.

Lemma shows_print ls s : mem_inv (smach s) -> shows s (print ls s).
Proof. intros Hm. destruct (shows_refl s Hm) as [? ? ? ?]. split; try done. by exists ls. Qed.

Lemma shows_put s m : looks (smach s) m -> shows s (put_smach m s).
Proof. intros L. split; [exact L | done | done | exists []; by rewrite app_nil_r]. Qed.

Lemma shows_put_print s m ls : looks (smach s) m -> shows s (print ls (put_smach m s)).
Proof. intros L. eapply shows_trans; [by apply shows_put | apply shows_print, (lo_inv _ _ L)]. Qed.

Lemma scan_memory_shows n : forall i addr line s s', mem_inv (smach s) -> scan_memory n i addr line s = Ok s' -> shows s s'.
Proof.
  induction n as [|n IH]; intros i addr line s s' Hm E; cbn [scan_memory] in E; [simplify_eq/=; by apply shows_refl |].
  cbv zeta in E. apply bind_Ok_inv in E as ([v m] & E1 & E). pose proof (vaddr_read_looks _ _ 1 _ _ Hm ltac:(lia) E1) as L.
  eapply shows_trans; [| eapply IH, E; case_if; exact (lo_inv _ _ L)].
  case_if; [by apply shows_put_print | by apply shows_put].
Qed.

(** The handlers of this kind. *)
Definition inspects (h : handler) : bool :=
  match h with H_help | H_info | H_x | H_p | H_ft | H_mt | H_rb => true | _ => false end.

Lemma some_Ok r s : some r = Ok (Some s) -> r = Ok s.
Proof. destruct r; cbn; [by intros [= <-] | done]. Qed.

Lemma handler_shows fuel h args s s' : inspects h = true -> mem_inv (smach s) ->
  run_handler fuel h args s = Ok (Some s') -> shows s s'.
Proof.
  intros Hh Hm E. destruct h; try discriminate Hh; cbn [run_handler] in E; try apply some_Ok in E.
  - unfold ret in E. simplify_eq/=. unfold cmd_help. destruct (strtok args).1; [destruct (find_cmd _) |]; by apply shows_print.
  - unfold cmd_info in E. destruct (strtok args).1; [| done]. case_if_in E; [simplify_eq/=; by apply shows_print |].
    case_if_in E; [| simplify_eq/=; by apply shows_refl]. apply bind_Ok_inv in E as (ls & _ & E). simplify_eq/=. by apply shows_print.
  - unfold cmd_x in E. destruct (strtok args) as [[num|] args1]; [| simplify_eq/=; by apply shows_print].
    destruct (strtok args1).1 as [addr|]; [| simplify_eq/=; by apply shows_print].
    apply bind_Ok_inv in E as (n & _ & E). apply bind_Ok_inv in E as ([[a ok] m] & E1 & E). cbv zeta in E.
    pose proof (expr_looks _ _ _ _ _ _ Hm E1) as L. destruct ok; [| simplify_eq/=; by apply shows_put].
    apply bind_Ok_inv in E as (k & _ & E). apply bind_Ok_inv in E as (u & _ & E).
    eapply shows_trans; [by apply shows_put |]. eapply scan_memory_shows, E. exact (lo_inv _ _ L).
  - unfold cmd_p in E. destruct (strtok args).1; [| done]. apply bind_Ok_inv in E as ([[v ok] m] & E1 & E). simplify_eq/=.
    apply shows_put_print. by eapply expr_looks.
  - unfold cmd_ft in E. apply bind_Ok_inv in E as (ls & _ & E). simplify_eq/=. by apply shows_print.
  - unfold cmd_mt in E. destruct (strtok args) as [t1 a1]. destruct (strtok a1) as [t2 a2].
    destruct t1, t2, (strtok a2).1; try done. do 4 apply bind_Ok_inv in E as (? & _ & E). simplify_eq/=. by apply shows_print.
  - unfold ret in E. simplify_eq/=. by apply shows_print.
Qed.

(** Dropping the window events only moves the event counter. *)
Lemma drain_mach s : exists d, smach (drain s) = mach_io d (smach s) /\
  d = (let d := io (ebus (emu s)) in {| d with poll_calls := poll_calls d + 1 |}).
Proof. by eexists. Qed.

Lemma drain_shows s : mem_inv (smach s) -> shows s (drain s).
Proof.
  intros Hm. destruct (drain_mach s) as (d & Ed & Hd).
  assert (Hb : bus_wf (put_io d (bus (smach s)))).
  { destruct (mi_bus _ Hm) as [? Hio ?]. split; [done | | done]. cbn. subst d. destruct Hio as [? ? ? ? ? ? ? [? ? ?]]. by split. }
  destruct (mem_inv_bus (smach s) (put_io d (bus (smach s))) Hm Hb eq_refl eq_refl) as (H1 & H2 & H3 & H4); [done |].
  fold (mach_io d (smach s)) in H1, H2, H3, H4. split.
  - rewrite Ed. split; [done | done | | auto]. intros a _. unfold mem_byte, bytes_of. by rewrite H3.
  - done.
  - done.
  - exists []. by rewrite app_nil_r.
Qed.

(** The line asks for nothing but output: it is blank, its command is unknown or
    one of those above. *)
Definition inspection (line : list ascii) : bool :=
  match fst (strtok line) with
  | None => true
  | Some cmd => match find_cmd cmd with Some r => inspects r.2 | None => true end
  end.

Lemma line_shows fuel line s s' : inspection line = true -> mem_inv (smach s) ->
  sdb_line fuel line s = Ok (Some s') -> shows s s'.
Proof.
  intros Hi Hm E. unfold inspection, sdb_line in *. destruct (strtok line) as [[cmd|] args]; cbn [fst] in Hi.
  - pose proof (drain_shows s Hm) as Hd. destruct (find_cmd cmd) as [r|].
    + eapply shows_trans; [exact Hd |]. eapply handler_shows; [exact Hi | apply (lo_inv _ _ (sw_looks _ _ Hd)) | exact E].
    + unfold ret in E. by simplify_eq/=.
  - unfold ret in E. simplify_eq/=. by apply shows_refl.
Qed.

(** C35. Looking does not disturb.  A line whose command shows something ([help],
    [info], [x], [p], [ft], [mt], [rb]), is not in the table, or is blank leaves
    the program's registers, pc, memory and CSRs, the counters of cycles and of
    instructions, the cores, the watchpoints and the trace list as they were and
    the machine well formed; instruction fetches that agreed with memory still
    do.  What [x] and [p] read goes through the caches and the devices, so cached
    lines, hit counters, device registers and, where a read is refused, the run
    state may move; the output grows, and an unknown command prints nothing at
    all. *)
Theorem sdb_inspection fuel line s s' : inspection line = true -> mach_wf (smach s) -> sdb_line fuel line s = Ok (Some s') ->
  mach_wf (smach s') /\ isa_eq (abs (smach s')) (abs (smach s)) /\ csrf (bus (smach s')) = csrf (bus (smach s)) /\
  g_sim_cycles (smach s') = g_sim_cycles (smach s) /\ g_sim_instret (smach s') = g_sim_instret (smach s) /\
  cores (emu s') = cores (emu s) /\ wps (emu s') = wps (emu s) /\ mt s' = mt s /\
  (forall k, ram_blk (M := Bus) k -> fresh (smach s) k -> fresh (smach s') k) /\
  (exists ls, out s' = out s ++ ls) /\
  (forall cmd args, strtok line = (Some cmd, args) -> find_cmd cmd = None -> out s' = out s).
Proof.
  intros Hi [Hm Hg Hp Hcy Hin] E. pose proof (line_shows _ _ _ _ Hi Hm E) as [[Hm' Hf Hmem Hfr] Ee Hmt Hout].
  split_and!; try done.
  - split; [done | | | |]; by rewrite ?(mf_cpu _ _ Hf), ?(mf_cycles _ _ Hf), ?(mf_instret _ _ Hf).
  - split; cbn; [by rewrite (mf_cpu _ _ Hf) | by rewrite (mf_cpu _ _ Hf) | exact Hmem].
  - apply Hf.
  - apply Hf.
  - apply Hf.
  - by rewrite Ee.
  - by rewrite Ee.
  - intros cmd args Es Ef. unfold sdb_line in E. rewrite Es, Ef in E. unfold ret in E. by simplify_eq/=.
Qed.

(** ** Scripts *)

(** A step of [n] instructions, or a line that cannot fail. *)
Inductive item :=
  | Step (n : Z)
  | Look (line : list ascii).

Definition item_line (i : item) : list ascii :=
  match i with Step n => text_of "si " ++ fmt_d n | Look line => line end.

(** Blank, unknown, [help], [rb], or [info] with an argument other than [w]. *)
Definition harmless (line : list ascii) : bool :=
  match strtok line with
  | (None, _) => true
  | (Some cmd, args) =>
      match find_cmd cmd with
      | None => true
      | Some (_, _, H_help) | Some (_, _, H_rb) => true
      | Some (_, _, H_info) => match fst (strtok args) with
                               | Some a => negb (bool_decide (a = text_of "w"))
                               | None => false
                               end
      | _ => false
      end
  end.

Definition item_ok (i : item) : Prop :=
  match i with Step n => 0 <= n < 2 ^ 63 | Look line => harmless line = true end.

Fixpoint steps (l : list item) : Z :=
  match l with
  | [] => 0
  | Step n :: l => n + steps l
  | Look _ :: l => steps l
  end.

Lemma steps_pos l : Forall item_ok l -> 0 <= steps l.
Proof. induction 1 as [|[n|line] l Hi _ IH]; cbn [steps item_ok] in *; lia. Qed.

Lemma isa_run_split code a b s s' : isa_run code (a + b) s s' -> exists s1, isa_run code a s s1 /\ isa_run code b s1 s'.
Proof.
  revert s. induction a as [|a IH]; intros s H; [exists s; split; [constructor | exact H] |].
  cbn in H. inversion H as [| ? ? ? r Hr Hc Hu Hn]; subst. destruct (IH _ Hn) as (s1 & H1 & H2).
  exists s1. split; [by econstructor | done].
Qed.

(** A hart that is ready stays ready when the debugger looks at it. *)
Lemma drain_ready code s : hart_ready code (emu s) -> hart_ready code (emu (drain s)) /\
  isa_eq (abs (smach (drain s))) (abs (smach s)) /\ g_sim_instret (smach (drain s)) = g_sim_instret (smach s) /\
  estate (emu (drain s)) = estate (emu s).
Proof.
  intros [[Hwf Hq Hst Hdis Hw] Hid Hfn Hft Hc Hal]. pose proof Hwf as [Hm Hg Hp Hcy Hin].
  destruct (drain_shows s Hm) as [[Hm' Hf Hmem Hfr] Ee _ _]. split_and!; try done.
Qed.

(** The harmless lines do nothing else to the emulator. *)
Lemma harmless_line fuel line s : harmless line = true ->
  exists s', sdb_line fuel line s = Ok (Some s') /\ (emu s' = emu s \/ emu s' = emu (drain s)).
Proof.
  unfold harmless, sdb_line, ret. destruct (strtok line) as [[cmd|] args]; [| intros _; exists s; auto].
  destruct (find_cmd cmd) as [[[nm desc] h]|]; [| intros _; exists (drain s); auto]. cbn [snd].
  destruct h; try done; cbn [run_handler]; intros H.
  - eexists. split; [reflexivity |]. right. unfold cmd_help. destruct (strtok args).1; [destruct (find_cmd _) |]; done.
  - unfold cmd_info. destruct (strtok args).1 as [a|]; [| done]. apply negb_true_iff, bool_decide_eq_false in H.
    rewrite (bool_decide_false _ H). destruct (bool_decide _); (eexists; split; [reflexivity | by right]).
  - eexists. split; [reflexivity | by right].
Qed.

(** The line [si n]. *)
Lemma fmt_d_word n : 0 <= n < 2 ^ 63 -> fmt_d n <> [] /\ Forall (fun c => not_blank c = true) (fmt_d n).
Proof.
  intros Hn. unfold fmt_d. replace (n <? 0) with false by lia. destruct (fmt_u_ok 19 n) as (H1 & _ & H3); [cbn; lia |].
  split; [done |]. eapply Forall_impl; [exact H1 |]. intros c Hc. destruct (digit_not_special c Hc) as (Hs & _).
  unfold not_blank. destruct (Ascii.eqb_spec c " "%char) as [->|]; [done | done].
Qed.

Lemma si_line fuel n s : 0 <= n < 2 ^ 63 -> strtok (text_of "si " ++ fmt_d n) = (Some (text_of "si"), fmt_d n) /\
  sdb_line fuel (text_of "si " ++ fmt_d n) s = run_exec fuel n (drain s).
Proof.
  intros Hn. destruct (fmt_d_word n Hn) as [H1 H2].
  assert (E : strtok (text_of "si " ++ fmt_d n) = (Some (text_of "si"), fmt_d n)).
  { apply (strtok_word 0 (text_of "si") (fmt_d n)); [done | by repeat constructor]. }
  split; [done |]. unfold sdb_line. rewrite E. change (find_cmd (text_of "si")) with (Some ("si", "Single step", H_si)%string).
  cbn [snd run_handler]. unfold cmd_si. destruct (strtok_word 0 (fmt_d n) [] H1 H2) as [_ Hs].
  change (blanks 0 ++ fmt_d n) with (fmt_d n) in Hs. rewrite Hs. cbn [fst].
  pose proof (scan_dec_fmt n [] ltac:(lia) ltac:(done)) as Hd. rewrite app_nil_r in Hd.
  unfold scan_ld, scanned, stored. rewrite Hd. replace ((- 2 ^ 63 <=? n) && (n <=? 2 ^ 63 - 1)) with true by lia.
  cbn [ensure mbind Res_bind initialised]. by rewrite wrap64_small by (unfold is_word; lia).
Qed.

Lemma item_sim fuel code i s s0 s1 : item_ok i -> hart_ready code (emu s) -> isa_eq (abs (smach s)) s0 ->
  isa_run code (Z.to_nat (steps [i])) s0 s1 -> estate (emu s) <> NEMU_QUIT ->
  exists s', sdb_line fuel (item_line i) s = Ok (Some s') /\ hart_ready code (emu s') /\ isa_eq (abs (smach s')) s1 /\
    estate (emu s') <> NEMU_QUIT /\ g_sim_instret (smach s') = wrap64 (g_sim_instret (smach s) + steps [i]).
Proof.
  intros Hi Hr Heq Hrun Hq. destruct (drain_ready code s Hr) as (Hr1 & Ha1 & Hin1 & Hs1).
  assert (Hw : wrap64 (g_sim_instret (smach s)) = g_sim_instret (smach s))
    by (apply wrap64_small; apply (eo_mach _ (hr_ok _ _ Hr))).
  destruct i as [n|line]; cbn [item_ok steps item_line] in *.
  - destruct (si_line fuel n s Hi) as [_ ->]. rewrite Z.add_0_r in *.
    destruct (exec_sim fuel code n s0 s1 (emu (drain s)) Hrun ltac:(lia) Hr1) as (e' & E & Heq' & Hst & Hin & Hr'); [by rewrite <-Heq |].
    exists (put_emu e' (drain s)). unfold run_exec. rewrite E. cbn [mbind Res_bind option_map].
    split_and!; [done | done | done | change (estate e' <> NEMU_QUIT); by rewrite Hst |].
    change (g_sim_instret (emach e') = wrap64 (g_sim_instret (smach s) + n)). rewrite Hin. unfold smach in Hin1. by rewrite Hin1.
  - inversion Hrun; subst. destruct (harmless_line fuel line s Hi) as (s' & E & He). exists s'. unfold smach in *.
    rewrite E. destruct He as [He | He]; rewrite He; split_and!; try done; try congruence; rewrite ?Z.add_0_r, ?Hw; try done; by rewrite Ha1.
Qed.

(** [q] leaves the loop. *)
Lemma quit_session fuel rest s : sdb_session fuel (text_of "q" :: rest) s = Ok (Some (cmd_q (drain s))).
Proof. reflexivity. Qed.

Lemma session_next fuel line lines s s' : sdb_line fuel line s = Ok (Some s') -> estate (emu s') <> NEMU_QUIT ->
  sdb_session fuel (line :: lines) s = sdb_session fuel lines s'.
Proof.
  intros E Hq. cbn [sdb_session]. rewrite E. cbn [mbind Res_bind]. by rewrite (bool_decide_false (estate (emu s') = NEMU_QUIT)), andb_false_r.
Qed.

Lemma script_sim fuel code l rest : Forall item_ok l -> forall s s0 sf, hart_ready code (emu s) -> isa_eq (abs (smach s)) s0 ->
  isa_run code (Z.to_nat (steps l)) s0 sf -> estate (emu s) <> NEMU_QUIT ->
  exists s', sdb_session fuel ((item_line <$> l) ++ text_of "q" :: rest) s = Ok (Some s') /\ isa_eq (abs (smach s')) sf /\
    estate (emu s') = NEMU_QUIT /\ g_sim_instret (smach s') = wrap64 (g_sim_instret (smach s) + steps l).
Proof.
  induction 1 as [|i l Hi Hl IH]; intros s s0 sf Hr Heq Hrun Hq.
  - inversion Hrun; subst. destruct (drain_ready code s Hr) as (Hr1 & Ha1 & Hin1 & Hs1).
    exists (cmd_q (drain s)). split_and!; [apply quit_session | | done |].
    + transitivity (abs (smach (drain s))); [| by rewrite Ha1].
      assert (Hsm : same_mem (smach (drain s)) (smach (cmd_q (drain s)))) by (by split).
      destruct (same_mem_view _ _ Hsm) as [Hv _]. split; [done | done |]. intros a _. cbn [isa_mem abs]. unfold mem_byte, bytes_of. by rewrite Hv.
    + change (g_sim_instret (smach (drain s)) = wrap64 (g_sim_instret (smach s) + 0)).
      rewrite Hin1, Z.add_0_r, wrap64_small; [done |]. apply (eo_mach _ (hr_ok _ _ Hr)).
  - assert (Es : steps (i :: l) = steps [i] + steps l) by (destruct i; cbn [steps]; lia).
    pose proof (steps_pos l Hl). assert (0 <= steps [i]) by (apply steps_pos; by constructor).
    rewrite Es, Z2Nat.inj_add in Hrun by lia. destruct (isa_run_split _ _ _ _ _ Hrun) as (s1 & H1 & H2).
    destruct (item_sim fuel code i s s0 s1 Hi Hr Heq H1 Hq) as (s' & E & Hr' & Heq' & Hq' & Hin').
    destruct (IH s' s1 sf Hr' Heq' H2 Hq') as (s'' & E' & Heq'' & Hst & Hin'').
    exists s''. rewrite fmap_cons. cbn [app]. rewrite (session_next _ _ _ _ _ E Hq'). split_and!; try done.
    rewrite Hin'', Hin', Es, wrap64_mod_l. f_equal. lia.
Qed.

(** C5. Stepping in pieces is running.  A session of [si n] lines, with lines in
    between that only print or are not understood, ended by [q], executes
    exactly the sum of its steps: it returns with the abstract hart's pc,
    registers and memory after that many instructions and that many more
    counted, and reads none of the lines after [q]. *)
Theorem sdb_script_simulates fuel code l rest s s0 sf : Forall item_ok l -> hart_ready code (emu s) ->
  estate (emu s) <> NEMU_QUIT -> isa_eq (abs (smach s)) s0 -> isa_run code (Z.to_nat (steps l)) s0 sf ->
  exists s', sdb_session fuel ((item_line <$> l) ++ text_of "q" :: rest) s = Ok (Some s') /\ isa_eq (abs (smach s')) sf /\
    estate (emu s') = NEMU_QUIT /\ g_sim_instret (smach s') = wrap64 (g_sim_instret (smach s) + steps l).
Proof. intros Hl Hr Hq Heq Hrun. by apply (script_sim fuel code l rest Hl s s0). Qed.

(** ** Instances *)

Lemma boot_sdb : exists d, init_devices ∅ (fun _ => 0) (io_static (fun _ => (0, 0)) (fun _ => [])) = Ok d /\
  hart_ready default_code (boot_emu plain_options (fun _ _ => []) (fun _ => ir_zero) [] (single_on ftrace_init (default_bus d))) /\
  isa_eq (abs (single_on ftrace_init (default_bus d))) (default_isa 0).
Proof.
  destruct (init_devices_ok ∅ (fun _ => 0) (fun _ => (0, 0)) (fun _ => [])) as (d & Ed & Hd).
  { intros i x Hi. rewrite lookup_empty in Hi. discriminate Hi. }
  exists d. split; [exact Ed |]. exact (boot_ready ftrace_init d Hd (init_devices_poll _ _ _ _ _ Ed) eq_refl).
Qed.

Lemma sdb_script_simulates_witness : exists d s',
  sdb_session 0 [text_of "si 3"; text_of "info r"; text_of "foo"; text_of "si 2"; text_of "q"; text_of "c"]
    (mkSdb (boot_emu plain_options (fun _ _ => []) (fun _ => ir_zero) [] (single_on ftrace_init (default_bus d))) mtrace_static [])
    = Ok (Some s') /\ pc (cpu (smach s')) = 0x80000014 /\ estate (emu s') = NEMU_QUIT.
Proof.
  destruct boot_sdb as (d & _ & Hr & Ha).
  destruct (sdb_script_simulates 0 default_code [Step 3; Look (text_of "info r"); Look (text_of "foo"); Step 2] [text_of "c"]
    (mkSdb (boot_emu plain_options (fun _ _ => []) (fun _ => ir_zero) [] (single_on ftrace_init (default_bus d))) mtrace_static [])
    (default_isa 0) (default_isa 5)) as (s' & E & Heq & Hq & _).
  - apply Forall_cons; split; [cbn; lia |]. apply Forall_cons; split; [reflexivity |]. apply Forall_cons; split; [reflexivity |].
    apply Forall_cons; split; [cbn; lia | apply Forall_nil; exact I].
  - exact Hr.
  - discriminate.
  - exact Ha.
  - exact (default_run 5 0 ltac:(lia) ltac:(lia)).
  - exists d, s'. split; [exact E | split; [apply (ie_pc _ _ Heq) | exact Hq]].
Defined.

(** The session that the built-in program starts with. *)
Definition boot_io : IO :=
  let d := io_static (fun _ => (0, 0)) (fun _ => []) in match init_devices ∅ (fun _ => 0) d with Ok d => d | Err _ => d end.
Definition boot_session : Sdb :=
  mkSdb (boot_emu plain_options (fun _ _ => []) (fun _ => ir_zero) [] (single_on ftrace_init (default_bus boot_io))) mtrace_static [].

Lemma boot_session_wf : mach_wf (smach boot_session).
Proof.
  destruct boot_sdb as (d & Ed & Hr & _). assert (E : boot_io = d) by (unfold boot_io; by rewrite Ed).
  unfold boot_session. rewrite E. exact (eo_mach _ (hr_ok _ _ Hr)).
Qed.

Definition printed (r : Res (option Sdb)) : option nat := match r with Ok (Some s) => Some (length (out s)) | _ => None end.

Lemma printed_inv r n : printed r = Some n -> exists s, r = Ok (Some s) /\ length (out s) = n.
Proof. unfold printed. intros H. destruct r as [[s|]|]; [| done..]. exists s. by injection H as <-. Qed.

(** [x] over four bytes of the program, [p] with a dereference, an unknown
    command. *)
Lemma sdb_inspection_witness : exists s1 s2 s3,
  sdb_line 0 (text_of "x 4 0x80000000") boot_session = Ok (Some s1) /\ length (out s1) = 4%nat /\
  isa_eq (abs (smach s1)) (abs (smach boot_session)) /\ g_sim_cycles (smach s1) = 0 /\
  sdb_line 0 (text_of "p *0x80000000+1") boot_session = Ok (Some s2) /\ length (out s2) = 1%nat /\
  isa_eq (abs (smach s2)) (abs (smach boot_session)) /\
  sdb_line 0 (text_of "foo 1") boot_session = Ok (Some s3) /\ out s3 = [].
Proof.
  destruct (printed_inv (sdb_line 0 (text_of "x 4 0x80000000") boot_session) 4) as (s1 & E1 & L1); [vm_compute; reflexivity |].
  destruct (printed_inv (sdb_line 0 (text_of "p *0x80000000+1") boot_session) 1) as (s2 & E2 & L2); [vm_compute; reflexivity |].
  assert (E3 : sdb_line 0 (text_of "foo 1") boot_session = Ok (Some (drain boot_session))) by reflexivity.
  pose proof boot_session_wf as Hw.
  destruct (sdb_inspection 0 (text_of "x 4 0x80000000") boot_session s1 eq_refl Hw E1) as (_ & I1 & _ & C1 & _).
  destruct (sdb_inspection 0 (text_of "p *0x80000000+1") boot_session s2 eq_refl Hw E2) as (_ & I2 & _).
  pose proof (sdb_inspection 0 (text_of "foo 1") boot_session (drain boot_session) eq_refl Hw E3) as (_ & _ & _ & _ & _ & _ & _ & _ & _ & _ & O3).
  exists s1, s2, (drain boot_session).
  split; [exact E1 |]. split; [exact L1 |]. split; [exact I1 |]. split; [exact C1 |]. split; [exact E2 |]. split; [exact L2 |].
  split; [exact I2 |]. split; [exact E3 |]. exact (O3 (text_of "foo") (text_of "1") eq_refl eq_refl).
Defined.
