(* ===== verification/Main.v ===== *)
(** * The entry point (src/main.c, src/general/log.c)

    [getopt_long] is a library: the command line is the list of options it
    returns.  [parse_args] is modelled with its early return at the first file
    name, [main] with every initialisation in its order and the exit status.
    The host's files are a function from names to contents. *)

From S2P Require Import Prelude Word State Pmp Csr Cache CacheSet CacheSpec CacheRefine Coherence Mmio Mem Ringbuf Ftrace Elf ElfSpec ElfWrite Vmem VmemSpec Decode Ir InstTable IrSpec Exec Isa Image Bpred Pipeline Ooo Expr Watchpoint Stdio Mtrace Core Dual ExecLoop ExecSpec Sdb SdbSpec.
From Stdlib Require Import Ascii.

(** ** Options *)

(** What [getopt_long] can return: an option of the table or of the short
    string, the flag options that only set a variable, a file name, or
    something that no [case] handles. *)
Inductive opt :=
  | Opt_b
  | Opt_l (file : string)
  | Opt_e (file : string)
  | Opt_t (file : string)
  | Opt_i
  | Opt_p
  | Opt_o
  | Opt_d
  | Opt_D
  | Opt_bpred2
  | Opt_trace
  | Opt_arg (file : string)
  | Opt_other.

Record Args := mkArgs {
  a_opts : Options;
  a_batch : bool;
  a_trace : bool;
  log_file : option string;
  elf_file : option string;
  task_file : option string;
  img_file : option string;
}.

Definition args_static : Args :=
  mkArgs (mkOptions false false CORE_MODE_FUNCTIONAL false false false false false) false false None None None None.

Definition set_opts (o : Options) (a : Args) : Args := {| a with a_opts := o |}.

(** One option of the [switch]. *)
Definition take_opt (x : opt) (a : Args) : Args :=
  let o := a_opts a in
  match x with
  | Opt_b => {| a with a_batch := true |}
  | Opt_l f => {| a with log_file := Some f |}
  | Opt_e f => {| a with elf_file := Some f |}
  | Opt_t f => {| a with task_file := Some f |}
  | Opt_i => set_opts {| o with o_inorder := true; o_mode := CORE_MODE_INORDER |} a
  | Opt_p => set_opts {| o with o_bpred := true |} a
  | Opt_o => set_opts {| o with o_ooo := true; o_mode := CORE_MODE_OOO |} a
  | Opt_d => set_opts {| o with o_dual := true |} a
  | Opt_D => set_opts {| o with o_difftest := true |} a
  | Opt_bpred2 => set_opts {| o with o_bpred2 := true |} a
  | Opt_trace => {| a with a_trace := true |}
  | Opt_arg f => {| a with img_file := Some f |}
  | Opt_other => a
  end.

(** The loop returns at the first file name. *)
Fixpoint parse_args (opts : list opt) (a : Args) : Args :=
  match opts with
  | [] => a
  | Opt_arg f :: _ => take_opt (Opt_arg f) a
  | x :: opts => parse_args opts (take_opt x a)
  end.

(** ** main *)

(** [init_log]: whether [log_fp] is open; [writable] says whether [fopen] with
    ["w+"] succeeds. *)
Definition init_log (writable : string -> bool) (file : option string) : Res bool :=
  match file with
  | None => Ok false
  | Some f => _ ← ensure Assertion (writable f); Ok true
  end.

(** The host: files for reading and for writing, and what the libraries give. *)
Record Host := mkHost {
  readable_file : string -> option (list Z);
  writable : string -> bool;
  h_disassemble : Z -> Z -> list ascii;
  h_junk : Z -> IR_Inst;
  h_io_junk : bytemap;
  h_scancode : string -> Z;
  h_io : IO;
  h_lines : list (list ascii);       (** what [readline] returns *)
}.

Definition with_log (b : bool) (o : Options) : Options := {| o with o_log := b |}.

(** The exit status and the final state. *)
Definition main (fuel : nat) (h : Host) (opts : list opt) : Res (option (bool * Sdb)) :=
  let a := parse_args opts args_static in
  log ← init_log (writable h) (log_file a);
  e ← boot (with_log log (a_opts a)) (h_disassemble h) (h_junk h) (h_io_junk h) (h_scancode h)
        (readable_file h <$> img_file a) (readable_file h <$> elf_file a) (h_io h);
  main_loop fuel (a_batch a) (h_lines h) e.

(** ** Properties of the options *)

Definition is_arg (x : opt) : bool := match x with Opt_arg _ => true | _ => false end.

(** Whether an option occurs. *)
Definition has (x : opt -> bool) (l : list opt) : bool := existsb x l.
Definition is_i (x : opt) : bool := match x with Opt_i => true | _ => false end.
Definition is_o (x : opt) : bool := match x with Opt_o => true | _ => false end.
Definition is_d (x : opt) : bool := match x with Opt_d => true | _ => false end.
Definition is_b (x : opt) : bool := match x with Opt_b => true | _ => false end.

(** The mode that the last [-i] or [-o] selects. *)
Fixpoint last_mode (md : CoreMode) (l : list opt) : CoreMode :=
  match l with
  | [] => md
  | Opt_i :: l => last_mode CORE_MODE_INORDER l
  | Opt_o :: l => last_mode CORE_MODE_OOO l
  | _ :: l => last_mode md l
  end.

Lemma parse_args_flags l a : has is_arg l = false ->
  let r := parse_args l a in
  o_inorder (a_opts r) = o_inorder (a_opts a) || has is_i l /\ o_ooo (a_opts r) = o_ooo (a_opts a) || has is_o l /\
  o_dual (a_opts r) = o_dual (a_opts a) || has is_d l /\ a_batch r = a_batch a || has is_b l /\
  o_mode (a_opts r) = last_mode (o_mode (a_opts a)) l /\ img_file r = img_file a.
Proof.
  revert a. induction l as [|x l IH]; intros a Hn; cbv zeta.
  - cbn. by rewrite !orb_false_r.
  - cbn [has existsb] in Hn. apply orb_false_iff in Hn as [Hx Hn].
    destruct x; try discriminate Hx; cbn [parse_args];
      (match goal with |- context [parse_args l ?y] => destruct (IH y Hn) as (-> & -> & -> & -> & -> & ->) end);
      cbn; rewrite ?orb_true_r, ?orb_true_l, ?orb_false_r, ?orb_assoc; split_and!; try done;
      destruct (o_inorder (a_opts a)), (o_ooo (a_opts a)), (o_dual (a_opts a)), (a_batch a); done.
Qed.

Lemma parse_args_app l f rest a : has is_arg l = false ->
  parse_args (l ++ Opt_arg f :: rest) a = take_opt (Opt_arg f) (parse_args l a).
Proof.
  revert a. induction l as [|x l IH]; intros a Hn; [done |]. cbn [has existsb] in Hn. apply orb_false_iff in Hn as [Hx Hn].
  destruct x; try discriminate Hx; cbn [app parse_args]; by apply IH.
Qed.

(** What the command line selects.  Options count up to the first file name,
    which is the image; whatever follows it is ignored.  Batch mode and the
    dual configuration need one occurrence of their flag.  With both engine
    flags, both engine variables are set, so that one core runs out of order
    whatever their order ([exec] asks for that first), while the cores of the
    dual configuration take the mode of the last flag. *)
Theorem parse_args_selects flags f rest : has is_arg flags = false ->
  let r := parse_args (flags ++ Opt_arg f :: rest) args_static in
  r = parse_args (flags ++ [Opt_arg f]) args_static /\ img_file r = Some f /\
  a_batch r = has is_b flags /\ o_dual (a_opts r) = has is_d flags /\
  o_ooo (a_opts r) = has is_o flags /\ o_inorder (a_opts r) = has is_i flags /\
  o_mode (a_opts r) = last_mode CORE_MODE_FUNCTIONAL flags.
Proof.
  intros Hn. cbv zeta. rewrite !parse_args_app by done.
  destruct (parse_args_flags flags args_static Hn) as (H1 & H2 & H3 & H4 & H5 & _).
  by split_and!.
Qed.

(** C1. From [main] to its exit status.  In batch mode, without an image file and
    without engine flags, with any ELF file that [init_elf] accepts, on a host
    that sends no window events and whatever its clock shows, the program
    terminates: it loads the built-in program, executes exactly sixteen
    instructions of it, ends at its [ebreak] with 15 in [a0], reads no command
    and exits with status 0. *)
Theorem main_runs_default fuel h opts f file ft tod :
  let a := parse_args opts args_static in
  plain (a_opts a) -> a_batch a = true -> img_file a = None -> log_file a = None -> elf_file a = Some f ->
  readable_file h f = Some file -> init_elf (Some (Some file)) ftrace_init = Ok ft ->
  mem_wf (h_io_junk h) -> h_io h = io_static tod (fun _ => []) ->
  (forall pc raw, Z.of_nat (length (h_disassemble h pc raw)) < 70) -> (forall i, ir_ok (h_junk h i)) ->
  exists s, main fuel h opts = Ok (Some (false, s)) /\
    estate (emu s) = NEMU_END /\ arr (gpr (cpu (smach s))) 10 = 15 /\ g_sim_instret (smach s) = 16 /\ out s = [].
Proof.
  cbv zeta. unfold main. generalize (parse_args opts args_static). intros a Ho Hb Hi Hl He Hf Hel Hj Hio Hd Hir.
  rewrite Hl, Hi, He, Hio. cbn [init_log mbind Res_bind fmap option_fmap option_map]. rewrite Hf.
  destruct (boot_default fuel (with_log false (a_opts a)) (h_disassemble h) (h_junk h) (h_io_junk h) (h_scancode h)
    (Some (Some file)) ft tod (2 ^ 64 - 1)) as (e & e' & E1 & E2 & H1 & H2 & H3 & H4); [by destruct Ho as (? & ? & ?) | done | done | done | done | lia |].
  exists (mkSdb e' mtrace_static []). split_and!; try done. rewrite E1. cbn [mbind Res_bind].
  unfold main_loop, sdbloop, cmd_c, run_exec. rewrite Hb. cbn [emu]. rewrite E2. cbn [mbind Res_bind option_map].
  change (emu (put_emu e' _)) with e'. by rewrite H2.
Qed.

(** The simulator does not start without an ELF file.  On a command line
    without [-e], whatever the other options, the files and the host, [main]
    never reaches the debugger: if the log opens and the image loads, it stops
    at the assertion of [init_elf], before any device is initialised. *)
Theorem main_needs_elf fuel h opts : elf_file (parse_args opts args_static) = None ->
  exists err, main fuel h opts = Err err /\
    (forall b r, init_log (writable h) (log_file (parse_args opts args_static)) = Ok b ->
       load_img (readable_file h <$> img_file (parse_args opts args_static)) (init_default_program ∅) = Ok r -> err = Assertion).
Proof.
  intros He. unfold main. generalize dependent (parse_args opts args_static). intros a He.
  destruct (init_log _ _) as [b|err]; [| by exists err]. cbn [mbind Res_bind]. rewrite He. cbn [fmap option_fmap option_map].
  destruct (boot_no_elf (with_log b (a_opts a)) (h_disassemble h) (h_junk h) (h_io_junk h) (h_scancode h)
    (readable_file h <$> img_file a) None (h_io h) I) as (err & E & Hr).
  exists err. rewrite E. split; [done |]. intros b' r _ Hl. by apply (Hr r).
Qed.

(** ** Instances *)

Definition sample_host : Host :=
  mkHost (fun f => if bool_decide (f = "a.elf") then Some (elf_write sample_symbols) else None) (fun _ => true)
    (fun _ _ => []) (fun _ => ir_zero) ∅ (fun _ => 0) (io_static (fun _ => (0, 0)) (fun _ => [])) [].

Lemma parse_args_selects_witness :
  o_mode (a_opts (parse_args [Opt_o; Opt_i; Opt_d; Opt_arg "a.bin"; Opt_b] args_static)) = CORE_MODE_INORDER.
Proof. apply (parse_args_selects [Opt_o; Opt_i; Opt_d] "a.bin" [Opt_b]). reflexivity. Defined.

Lemma main_runs_default_witness : exists s, main 0 sample_host [Opt_b; Opt_e "a.elf"] = Ok (Some (false, s)).
Proof.
  destruct (main_runs_default 0 sample_host [Opt_b; Opt_e "a.elf"] "a.elf" (elf_write sample_symbols) (loaded sample_symbols)
    (fun _ => (0, 0))) as (s & H & _).
  - split; [reflexivity | split; reflexivity].
  - reflexivity.
  - reflexivity.
  - reflexivity.
  - reflexivity.
  - reflexivity.
  - apply init_elf_write, sample_symbols_ok.
  - exact (map_Forall_empty (fun _ b => is_byte b)).
  - reflexivity.
  - intros pc raw. cbn. lia.
  - intros i. apply ir_zero_ok.
  - exact (ex_intro _ s H).
Defined.

Lemma main_needs_elf_witness : exists err, main 0 sample_host [Opt_b] = Err err.
Proof. destruct (main_needs_elf 0 sample_host [Opt_b] eq_refl) as (err & E & _). exact (ex_intro _ err E). Defined.
