(* ===== verification/OrderMachine.v ===== *)
(** * Two harts on one memory: the machine of the ordering labs (labs/order_lab)

    A lab program is a function from the local state of a hart (where it
    stands in the C code, with its local variables) to the memory instruction
    it executes next.  Two harts run such a program on one word memory, under
    sequential consistency ([SC]) or with a FIFO store buffer per hart ([TSO]):
    a store enters the buffer and stalls when [STORE_BUF_SIZE] entries wait, a
    load takes the newest buffered value of its address before memory, and
    [fence rw, rw] waits until the buffer is empty; these are the commit rules
    of the out-of-order engine (Ooo.v).  Any interleaving of instructions and
    drains is an execution.

    [FairTermination] is the interface by which a program promises that it
    halts: a measure that no step increases and an action that lowers it.
    [fair_terminates] discharges it once for every weakly fair schedule.  The
    functions the three labs share, [barrier] and the UART printing, are at
    the end. *)

From S2P Require Import Prelude Word Ooo.

(** ** Instructions, memory, machine state *)

Inductive hart := Hart0 | Hart1.

Definition other (h : hart) : hart := match h with Hart0 => Hart1 | Hart1 => Hart0 end.
Definition hartid (h : hart) : Z := match h with Hart0 => 0 | Hart1 => 1 end.

Inductive model := SC | TSO.

#[export] Instance hart_eq_dec : EqDecision hart.
Proof. solve_decision. Defined.

#[export] Instance model_eq_dec : EqDecision model.
Proof. solve_decision. Defined.

Inductive instr (L : Type) :=
  | Store (a v : Z) (k : L)
  | Load (a : Z) (k : Z -> L)
  | Fence (k : L)
  | Emit (text : string) (k : L)
  | Halt.

Arguments Store {L} a v k.
Arguments Load {L} a k.
Arguments Fence {L} k.
Arguments Emit {L} text k.
Arguments Halt {L}.

(** Words at their offsets from [MEM_BASE]; memory starts as zeroes. *)
Abbreviation Memory := (gmap Z Z).
Definition rd (m : Memory) (a : Z) : Z := default 0 (m !! a).
Definition wr (m : Memory) (a v : Z) : Memory := <[a := v]> m.

Arguments rd : simpl never.
Arguments wr : simpl never.

Lemma rd_wr m a v b : rd (wr m a v) b = if b =? a then v else rd m b.
Proof.
  unfold rd, wr. destruct (Z.eqb_spec b a) as [-> | Hne].
  - by rewrite lookup_insert_eq.
  - by rewrite lookup_insert_ne.
Qed.

Lemma rd_empty a : rd ∅ a = 0.
Proof. unfold rd. by rewrite lookup_empty. Qed.

#[export] Hint Rewrite rd_wr rd_empty : emu.

(** A value per hart. *)
Definition put {A} (h : hart) (x : A) (f : hart -> A) : hart -> A :=
  fun h' => if decide (h' = h) then x else f h'.

Lemma put_eq {A} h (x : A) f : put h x f h = x.
Proof. unfold put. by rewrite decide_True. Qed.

Lemma put_other {A} h (x : A) f : put h x f (other h) = f (other h).
Proof. unfold put. rewrite decide_False; [done | by destruct h]. Qed.

Lemma put_other_2 {A} h (x : A) f : put (other h) x f h = f h.
Proof. unfold put. rewrite decide_False; [done | by destruct h]. Qed.

Lemma other_other h : other (other h) = h.
Proof. by destruct h. Qed.

Lemma two_harts h h' : h' = h \/ h' = other h.
Proof. destruct h, h'; auto. Qed.

#[export] Hint Rewrite @put_eq @put_other @put_other_2 other_other : emu.

Record Machine (L : Type) := mkMachine {
  thr : hart -> L;
  buf : hart -> list (Z * Z);
  mem : Memory;
  out : string }.

Arguments mkMachine {L} thr buf mem out.
Arguments thr {L} _ _.
Arguments buf {L} _ _.
Arguments mem {L} _.
Arguments out {L} _.

Inductive action := Run (h : hart) | Drain (h : hart).

#[export] Instance action_eq_dec : EqDecision action.
Proof. solve_decision. Defined.

(** The newest buffered value of [a]: the buffer is oldest first. *)
Fixpoint forward (b : list (Z * Z)) (a : Z) : option Z :=
  match b with
  | [] => None
  | (a', v) :: b =>
      match forward b a with
      | Some w => Some w
      | None => if a =? a' then Some v else None
      end
  end.

Section Machine.
Context {L : Type} (md : model) (code : hart -> L -> instr L).
Implicit Types (s : Machine L) (h : hart).

Definition sees s h (a : Z) : Z := default (rd (mem s) a) (forward (buf s h) a).

(** One action; [None] when it is not enabled. *)
Definition step (act : action) (s : Machine L) : option (Machine L) :=
  match act with
  | Run h =>
      match code h (thr s h) with
      | Store a v k =>
          match md with
          | SC => Some (mkMachine (put h k (thr s)) (buf s) (wr (mem s) a v) (out s))
          | TSO =>
              if Z.of_nat (length (buf s h)) <? STORE_BUF_SIZE
              then Some (mkMachine (put h k (thr s)) (put h (buf s h ++ [(a, v)]) (buf s)) (mem s) (out s))
              else None
          end
      | Load a k => Some (mkMachine (put h (k (sees s h a)) (thr s)) (buf s) (mem s) (out s))
      | Fence k =>
          match buf s h with
          | [] => Some (mkMachine (put h k (thr s)) (buf s) (mem s) (out s))
          | _ :: _ => None
          end
      | Emit text k => Some (mkMachine (put h k (thr s)) (buf s) (mem s) (out s ++ text)%string)
      | Halt => None
      end
  | Drain h =>
      match buf s h with
      | [] => None
      | (a, v) :: b => Some (mkMachine (thr s) (put h b (buf s)) (wr (mem s) a v) (out s))
      end
  end.

(** An action that is not enabled leaves the machine as it is. *)
Definition act1 (s : Machine L) (act : action) : Machine L := default s (step act s).

Definition run (acts : list action) (s : Machine L) : Machine L := fold_left act1 acts s.

(** An infinite schedule, and the state after [n] of its actions. *)
Fixpoint at_time (sched : nat -> action) (n : nat) (s : Machine L) : Machine L :=
  match n with
  | O => s
  | S n => act1 (at_time sched n s) (sched n)
  end.

Lemma run_ind (P : Machine L -> Prop) acts s :
  P s -> (forall s act s', P s -> step act s = Some s' -> P s') -> P (run acts s).
Proof.
  intros Hs Hstep. revert s Hs. induction acts as [| act acts IH]; intros s Hs; [done |].
  apply IH. unfold act1. destruct (step act s) eqn:E; [by eapply Hstep | done].
Qed.

Lemma at_time_run sched n s : exists acts, at_time sched n s = run acts s.
Proof.
  induction n as [| n [acts IH]]; [by exists [] |]. exists (acts ++ [sched n]).
  unfold run in *. rewrite fold_left_app, <- IH. done.
Qed.
End Machine.

Definition start {L} (l : L) : Machine L := mkMachine (fun _ => l) (fun _ => []) ∅ "".

(** ** Termination under weak fairness *)

(** Every action is scheduled again and again. *)
Definition fair (sched : nat -> action) : Prop := forall act n, exists m, (n <= m)%nat /\ sched m = act.

(** The promise of a program: [ft_measure] never grows; while the program has
    not finished, [ft_helpful] names an action that lowers it, and that stays
    the helpful one until the measure has dropped. *)
Class FairTermination {L} (md : model) (code : hart -> L -> instr L) (final : Machine L -> Prop) := {
  ft_inv : Machine L -> Prop;
  ft_measure : Machine L -> nat;
  ft_helpful : Machine L -> action;
  ft_final_dec s : Decision (final s);
  ft_inv_step s act s' : ft_inv s -> step md code act s = Some s' -> ft_inv s';
  ft_helps s : ft_inv s -> ~ final s ->
    exists s', step md code (ft_helpful s) s = Some s' /\ (ft_measure s' < ft_measure s)%nat;
  ft_mono s act s' : ft_inv s -> step md code act s = Some s' ->
    (ft_measure s' < ft_measure s)%nat \/ (ft_measure s' = ft_measure s /\ ft_helpful s' = ft_helpful s) }.

Section Fairness.
Context {L : Type} {md : model} {code : hart -> L -> instr L} {final : Machine L -> Prop}.
Context `{FT : !FairTermination md code final} (sched : nat -> action) (s0 : Machine L).
Local Abbreviation st n := (at_time md code sched n s0).

Lemma ft_inv_at : ft_inv s0 -> forall n, ft_inv (st n).
Proof.
  intros Hs n. induction n as [| n IH]; [done |]. cbn. unfold act1.
  destruct (step _ _ _ _) eqn:E; cbn; [by eapply ft_inv_step | done].
Qed.

(** Waiting for the helpful action: the measure drops by then. *)
Lemma drops_by n d : ft_inv s0 -> ~ final (st n) -> sched (n + d)%nat = ft_helpful (st n) ->
  exists k, final (st k) \/ (ft_measure (st k) < ft_measure (st n))%nat.
Proof.
  intros Hinv. revert n. induction d as [| d IH]; intros n Hf Hs.
  - rewrite Nat.add_0_r in Hs. exists (S n). right. cbn. unfold act1. rewrite Hs.
    destruct (ft_helps (st n)) as (s' & -> & Hlt); [by apply ft_inv_at | done | done].
  - assert (Hn : (n + S d = S n + d)%nat) by lia. rewrite Hn in Hs.
    destruct (ft_final_dec (st (S n))) as [Hf' | Hf']; [by exists (S n); left |].
    destruct (step md code (sched n) (st n)) as [s' |] eqn:E.
    + assert (Heq : st (S n) = s') by (cbn; unfold act1; by rewrite E).
      destruct (ft_mono _ _ _ (ft_inv_at Hinv n) E) as [Hlt | [Hm Hh]]; [exists (S n); right; by rewrite Heq |].
      destruct (IH (S n)) as [k Hk]; [done | by rewrite Hs, Heq, Hh |]. exists k. by rewrite Heq, Hm in Hk.
    + assert (Heq : st (S n) = st n) by (cbn; unfold act1; by rewrite E).
      destruct (IH (S n)) as [k Hk]; [done | by rewrite Hs, Heq |]. exists k. by rewrite Heq in Hk.
Qed.

Lemma fair_terminates : ft_inv s0 -> fair sched -> exists n, final (st n).
Proof.
  intros Hinv Hfair. assert (H : forall x n, ft_measure (st n) = x -> exists k, final (st k)); [| by eapply (H _ 0%nat)].
  intros x. induction (lt_wf x) as [x _ IH]. intros n Hx.
  destruct (ft_final_dec (st n)) as [Hf | Hf]; [by exists n |].
  destruct (Hfair (ft_helpful (st n)) n) as (m & Hm & Hs).
  destruct (drops_by n (m - n)) as (k & [Hk | Hk]); [done | done | by rewrite Nat.add_comm, Nat.sub_add | by exists k |].
  apply (IH (ft_measure (st k))) with (n := k); [lia | done].
Qed.
End Fairness.

(** The round robin of the simulator's dual-core loop is such a schedule. *)
Definition round_robin (n : nat) : action :=
  match (n mod 4)%nat with
  | 0%nat => Run Hart0 | 1%nat => Drain Hart0 | 2%nat => Run Hart1 | _ => Drain Hart1
  end.

Lemma round_robin_fair : fair round_robin.
Proof.
  intros act n. exists (n * 4 + match act with Run Hart0 => 0 | Drain Hart0 => 1 | Run Hart1 => 2 | Drain Hart1 => 3 end)%nat.
  split; [destruct act as [[] | []]; lia |]. unfold round_robin. rewrite Nat.add_comm, Nat.Div0.mod_add. by destruct act as [[] | []].
Qed.

(** ** What the labs share *)

(** [barrier(hartid, n)]: the hart's own sequence number is [seq hart], the
    three stages are the store, the fence and the waiting loop. *)
Inductive bstage := BSet | BFence | BWait.

#[export] Instance bstage_eq_dec : EqDecision bstage.
Proof. solve_decision. Defined.

Definition barrier {L} (seq : hart -> Z) (h : hart) (n : Z) (b : bstage) (stay : bstage -> L) (k : L) : instr L :=
  match b with
  | BSet => Store (seq h) n (stay BFence)
  | BFence => Fence (stay BWait)
  | BWait => Load (seq (other h)) (fun v => if v <? n then stay BWait else k)
  end.

Definition nl : string := String (Ascii.ascii_of_nat 10) "".

Definition uart_putchar (c : Z) : string := String (Ascii.ascii_of_N (Z.to_N (c mod 256))) "".

(** [uart_putint]; an [int] has at most ten digits. *)
Fixpoint putint_digits (fuel : nat) (v : Z) : string :=
  match fuel with
  | O => ""
  | S fuel =>
      (if 10 <=? v then putint_digits fuel (Z.quot v 10) else "") ++ uart_putchar (48 + Z.rem v 10)
  end.

Definition uart_putint (v : Z) : string :=
  if v <? 0 then "-" ++ putint_digits 10 (- v) else putint_digits 10 v.
