(* ===== verification/Peterson.v ===== *)
(** * Peterson's lock (labs/order_lab/Q3/peterson.c)

    [lab_main] of the third ordering lab on the machine of OrderMachine.v: two
    harts increment a shared counter under Peterson's lock, meet at barriers,
    and hart 0 prints the outcome.  Under sequential consistency, and with a
    store buffer when the fences are compiled in, the lock excludes, no update
    is lost, and every fair schedule halts; with a store buffer and without
    fences there is a schedule that loses updates. *)

From S2P Require Import Prelude Word OrderMachine.

(** ** The program *)

Definition want (h : hart) : Z := match h with Hart0 => 0 | Hart1 => 4 end.
Definition turn : Z := 8.
Definition counter : Z := 12.
Definition seq (h : hart) : Z := match h with Hart0 => 16 | Hart1 => 20 end.
Definition N_ITER : Z := 2000.

Inductive lstage := LWant | LWantFence | LTurn | LTurnFence | LTestWant | LTestTurn.
Inductive ustage := UWant | UFence.

(** Where a hart stands: [i] is the loop variable, [tmp] and the printed
    values are the locals. *)
Inductive pc :=
  | Bar (n : Z) (b : bstage)
  | Lock (i : Z) (l : lstage)
  | CsLoad (i : Z)
  | CsStore (i tmp : Z)
  | Unlock (i : Z) (u : ustage)
  | RepHead | RepLoad | RepPut (v : Z) | RepLost | RepTail (lost : Z)
  | Done.

Section Code.
Context (USE_FENCE : bool) (N : Z).

(** [lock(i)]; the loop condition reads [want[j]] and, if it is set, [*turn]. *)
Definition lock (h : hart) (l : lstage) (stay : lstage -> pc) (k : pc) : instr pc :=
  let j := other h in
  match l with
  | LWant => Store (want h) 1 (stay (if USE_FENCE then LWantFence else LTurn))
  | LWantFence => Fence (stay LTurn)
  | LTurn => Store turn (hartid j) (stay (if USE_FENCE then LTurnFence else LTestWant))
  | LTurnFence => Fence (stay LTestWant)
  | LTestWant => Load (want j) (fun v => if v =? 0 then k else stay LTestTurn)
  | LTestTurn => Load turn (fun v => if v =? hartid j then stay LTestWant else k)
  end.

Definition unlock (h : hart) (u : ustage) (stay : ustage -> pc) (k : pc) : instr pc :=
  match u with
  | UWant => Store (want h) 0 (if USE_FENCE then stay UFence else k)
  | UFence => Fence k
  end.

Definition report_head : string :=
  "=== Q3: Peterson's Mutex ===" ++ nl ++
  (if USE_FENCE then "Mode      : WITH fence (correct TSO)" else "Mode      : WITHOUT fence (broken under TSO)") ++ nl ++
  "Iterations per core : " ++ uart_putint N ++ nl ++
  "Expected final value: " ++ uart_putint (2 * N) ++ nl ++
  "Actual final value  : ".

Definition report_tail (lost : Z) : string :=
  "Lost updates        : " ++ uart_putint lost ++ nl ++
  (if lost =? 0 then "Result: CORRECT — Peterson's mutex works"
   else "Result: BROKEN — lost updates (TSO violation in lock)") ++ nl.

(** [for (int i = 0; i < N_ITER; i++)] *)
Definition loop (i : Z) : pc := if i <? N then Lock i LWant else Bar 2 BSet.

Definition lab_main (h : hart) (p : pc) : instr pc :=
  match p with
  | Bar n b =>
      barrier seq h n b (Bar n)
        (match n with
         | 1 => loop 0
         | 2 => match h with Hart0 => RepHead | Hart1 => Bar 3 BSet end
         | _ => Done
         end)
  | Lock i l => lock h l (Lock i) (CsLoad i)
  | CsLoad i => Load counter (fun v => CsStore i v)
  | CsStore i tmp => Store counter (s32 (tmp + 1)) (Unlock i UWant)
  | Unlock i u => unlock h u (Unlock i) (loop (i + 1))
  | RepHead => Emit report_head RepLoad
  | RepLoad => Load counter RepPut
  | RepPut v => Emit (uart_putint v ++ nl) RepLost
  | RepLost => Load counter (fun v => RepTail (2 * N - v))
  | RepTail lost => Emit (report_tail lost) (Bar 3 BSet)
  | Done => Halt
  end.

Definition lab_start : Machine pc := start (Bar 1 BSet).
End Code.

(** Between the end of [lock] and the store of [unlock]. *)
Definition in_critical (p : pc) : bool :=
  match p with CsLoad _ | CsStore _ _ | Unlock _ UWant => true | _ => false end.

Definition finished (s : Machine pc) : Prop := thr s Hart0 = Done /\ thr s Hart1 = Done.

(** ** The invariant

    It speaks of what memory shows of a hart: stores still in its buffer have
    not happened yet. *)

Section Invariant.
Context (N : Z).
Implicit Types (p : pc) (b : list (Z * Z)) (m : Memory) (h : hart).

Definition is_nil {A} (l : list A) : bool := match l with [] => true | _ => false end.

(** The buffer a hart can have at [p]; [c] is the counter in memory. *)
Definition buf_ok h p b (c : Z) : Prop :=
  match p with
  | Bar n BFence => b = [(seq h, n)] \/ b = []
  | Lock i LWantFence => b = [(want h, 1)] \/ b = []
  | Lock i LTurnFence => b = [(turn, hartid (other h))] \/ b = []
  | Unlock i UWant => b = [(counter, c + 1)] \/ b = []
  | Unlock i UFence => b = [(counter, c + 1); (want h, 0)] \/ b = [(want h, 0)] \/ b = []
  | _ => b = []
  end.

Definition pc_ok h p (c : Z) : Prop :=
  match p with
  | Bar n _ => n = 1 \/ n = 2 \/ n = 3
  | Lock i _ | CsLoad i | Unlock i _ => 0 <= i < N
  | CsStore i tmp => 0 <= i < N /\ tmp = c
  | RepPut v => h = Hart0 /\ v = 2 * N
  | RepTail lost => h = Hart0 /\ lost = 0
  | RepHead | RepLoad | RepLost => h = Hart0
  | Done => True
  end.

(** [want[h]] and [seq[h]] in memory. *)
Definition want_of p b : Z :=
  match p with
  | Lock _ LWant => 0
  | Lock _ LWantFence => if is_nil b then 1 else 0
  | Lock _ _ | CsLoad _ | CsStore _ _ | Unlock _ UWant => 1
  | Unlock _ UFence => if is_nil b then 0 else 1
  | _ => 0
  end.

Definition seq_of p b : Z :=
  match p with
  | Bar n BSet => n - 1
  | Bar n BFence => if is_nil b then n else n - 1
  | Bar n BWait => n
  | Lock _ _ | CsLoad _ | CsStore _ _ | Unlock _ _ => 1
  | RepHead | RepLoad | RepPut _ | RepLost | RepTail _ => 2
  | Done => 3
  end.

(** The hart's increments that memory shows. *)
Definition cnt_of p b : Z :=
  match p with
  | Bar n _ => if n =? 1 then 0 else N
  | Lock i _ | CsLoad i | CsStore i _ => i
  | Unlock i UWant => if is_nil b then i + 1 else i
  | Unlock i UFence => match b with [_; _] => i | _ => i + 1 end
  | _ => N
  end.

(** Memory shows the hart's [turn], and does not show its [unlock] yet. *)
Definition past p b : bool :=
  match p with
  | Lock _ LTurnFence => is_nil b
  | Lock _ LTestWant | Lock _ LTestTurn | CsLoad _ | CsStore _ _ | Unlock _ UWant => true
  | Unlock _ UFence => negb (is_nil b)
  | _ => false
  end.

Definition crit p b : bool :=
  match p with
  | CsLoad _ | CsStore _ _ | Unlock _ UWant => true
  | Unlock _ UFence => negb (is_nil b)
  | _ => false
  end.

(** Past the second barrier. *)
Definition late p : bool :=
  match p with
  | RepHead | RepLoad | RepPut _ | RepLost | RepTail _ | Done => true
  | Bar n _ => n =? 3
  | _ => false
  end.

Definition out_of (fence : bool) p : string :=
  match p with
  | RepLoad | RepPut _ => report_head fence N
  | RepLost | RepTail _ => report_head fence N ++ (uart_putint (2 * N) ++ nl)
  | Done => (report_head fence N ++ (uart_putint (2 * N) ++ nl)) ++ report_tail 0
  | Bar n _ => if n =? 3 then (report_head fence N ++ (uart_putint (2 * N) ++ nl)) ++ report_tail 0 else ""
  | _ => ""
  end.

Record hart_ok h p b m : Prop := {
  ok_buf : buf_ok h p b (rd m counter);
  ok_pc : pc_ok h p (rd m counter);
  ok_want : rd m (want h) = want_of p b;
  ok_seq : rd m (seq h) = seq_of p b }.

Record inv (md : model) (fence : bool) (s : Machine pc) : Prop := {
  inv_sc h : md = SC -> buf s h = [];
  inv_hart h : hart_ok h (thr s h) (buf s h) (mem s);
  inv_turn : rd (mem s) turn = 0 \/ rd (mem s) turn = 1;
  inv_lock h : crit (thr s h) (buf s h) = true -> past (thr s (other h)) (buf s (other h)) = true ->
    rd (mem s) turn = hartid h;
  inv_cnt : rd (mem s) counter = cnt_of (thr s Hart0) (buf s Hart0) + cnt_of (thr s Hart1) (buf s Hart1);
  inv_late h : late (thr s h) = true -> 2 <= rd (mem s) (seq (other h));
  inv_out : out s = out_of fence (thr s Hart0) }.

Lemma crit_past p b : crit p b = true -> past p b = true.
Proof. destruct p as [| ? [] | | | ? [] | | | | | |]; done. Qed.

Lemma past_want p b : past p b = true -> want_of p b = 1.
Proof. destruct p as [| ? [] | | | ? [] | | | | | |], b; done. Qed.

Lemma in_critical_crit p b : in_critical p = true -> crit p b = true.
Proof. destruct p as [| ? [] | | | ? [] | | | | | |]; done. Qed.

(** Never both: each would have the turn. *)
Lemma crit_exclusive md fence s h : inv md fence s ->
  crit (thr s h) (buf s h) = true -> crit (thr s (other h)) (buf s (other h)) = true -> False.
Proof.
  intros Hi Hc1 Hc2. pose proof (inv_lock _ _ _ Hi h Hc1 (crit_past _ _ Hc2)) as Ht.
  pose proof (inv_lock _ _ _ Hi (other h) Hc2) as Ht'. rewrite other_other in Ht'.
  rewrite (Ht' (crit_past _ _ Hc1)) in Ht. by destruct h.
Qed.

(** Only a hart that waits at the second barrier or has passed it shows [2]. *)
Lemma seq_cnt h p b m : hart_ok h p b m -> 2 <= rd m (seq h) -> cnt_of p b = N.
Proof.
  intros [_ Hp _ Hs]. rewrite Hs. destruct p as [n [] | | | | | | | | | |]; cbn in *; try lia.
  all: destruct (Z.eqb_spec n 1) as [-> |]; try done; try lia.
  destruct (is_nil b); lia.
Qed.

(** A hart outside the critical section does not depend on the counter. *)
Lemma hart_ok_frame h p b m m' : hart_ok h p b m ->
  rd m' (want h) = rd m (want h) -> rd m' (seq h) = rd m (seq h) ->
  (crit p b = false \/ rd m' counter = rd m counter) -> hart_ok h p b m'.
Proof.
  intros [Hb Hp Hw Hs] Ew Es [Hc | Ec]; constructor; try congruence.
  - destruct p as [| | | | ? [] | | | | | |]; try done. destruct b; [| done]. cbn. auto.
  - destruct p; done.
Qed.

(** A step of hart [h]: what has to hold of it and of the other one. *)
Lemma inv_intro md fence h (s : Machine pc) :
  (md = SC -> buf s h = []) -> (md = SC -> buf s (other h) = []) ->
  hart_ok h (thr s h) (buf s h) (mem s) ->
  hart_ok (other h) (thr s (other h)) (buf s (other h)) (mem s) ->
  (rd (mem s) turn = 0 \/ rd (mem s) turn = 1) ->
  (crit (thr s h) (buf s h) = true -> past (thr s (other h)) (buf s (other h)) = true ->
    rd (mem s) turn = hartid h) ->
  (crit (thr s (other h)) (buf s (other h)) = true -> past (thr s h) (buf s h) = true ->
    rd (mem s) turn = hartid (other h)) ->
  rd (mem s) counter = cnt_of (thr s h) (buf s h) + cnt_of (thr s (other h)) (buf s (other h)) ->
  (late (thr s h) = true -> 2 <= rd (mem s) (seq (other h))) ->
  (late (thr s (other h)) = true -> 2 <= rd (mem s) (seq h)) ->
  out s = out_of fence (thr s Hart0) -> inv md fence s.
Proof.
  intros Hsc Hsc' Hh Ho Ht Hl Hl' Hc Hla Hla' Hout. constructor; try done.
  - intros h'. by destruct (two_harts h h') as [-> | ->].
  - intros h'. by destruct (two_harts h h') as [-> | ->].
  - intros h'. destruct (two_harts h h') as [-> | ->]; [done |]. by rewrite other_other.
  - destruct h; cbn in *; lia.
  - intros h'. destruct (two_harts h h') as [-> | ->]; [done |]. by rewrite other_other.
Qed.

Lemma cnt_bounds h p b m : 0 <= N -> hart_ok h p b m -> 0 <= cnt_of p b <= N.
Proof.
  intros HN [_ Hp _ _]. destruct p as [n | i | i | i | i u | | | | | |]; cbn in *; try lia.
  - destruct (n =? 1); lia.
  - destruct u, b as [| ? [| ? [| ? ?]]]; cbn; lia.
Qed.

Lemma loop_cases i : 0 <= i <= N ->
  (loop N i = Lock i LWant /\ i < N) \/ (loop N i = Bar 2 BSet /\ i = N).
Proof. unfold loop. intros. case_if; zify_bool; [left | right]; split; (done || lia). Qed.

Lemma s32_next tmp : 2 * N < 2 ^ 31 -> 0 <= tmp < 2 * N -> s32 (tmp + 1) = tmp + 1.
Proof. intros. unfold s32. rewrite Z.mod_small by lia. case_if; zify_bool; lia. Qed.
End Invariant.

(** ** Every step keeps it *)

Section Preserved.
Context (md : model) (USE_FENCE : bool) (N : Z).
Context (HN : 0 <= N) (Hint : 2 * N < 2 ^ 31) (Hfence : md = SC \/ USE_FENCE = true).
Implicit Types (s : Machine pc) (h : hart).

Abbreviation code := (lab_main USE_FENCE N).
Abbreviation Inv := (inv N md USE_FENCE).

(** The facts of the invariant about the hart that moves and the other one. *)
Ltac facts Hi s h :=
  let o := constr:(other h) in
  pose proof (inv_sc _ _ _ _ Hi h) as HSC; pose proof (inv_sc _ _ _ _ Hi o) as HSC';
  pose proof (ok_buf _ _ _ _ _ (inv_hart _ _ _ _ Hi h)) as Hb;
  pose proof (ok_pc _ _ _ _ _ (inv_hart _ _ _ _ Hi h)) as Hp;
  pose proof (ok_want _ _ _ _ _ (inv_hart _ _ _ _ Hi h)) as Hw;
  pose proof (ok_seq _ _ _ _ _ (inv_hart _ _ _ _ Hi h)) as Hs;
  pose proof (inv_hart _ _ _ _ Hi o) as Ho;
  pose proof (inv_turn _ _ _ _ Hi) as Ht;
  pose proof (inv_lock _ _ _ _ Hi h) as Hl;
  pose proof (inv_lock _ _ _ _ Hi o) as Hl'; rewrite other_other in Hl';
  pose proof (crit_exclusive _ _ _ _ h Hi) as Hex;
  assert (Hc : rd (mem s) counter =
    cnt_of N (thr s h) (buf s h) + cnt_of N (thr s o) (buf s o)) by (rewrite (inv_cnt _ _ _ _ Hi); destruct h; cbn; lia);
  pose proof (inv_late _ _ _ _ Hi h) as Hla;
  pose proof (inv_late _ _ _ _ Hi o) as Hla'; rewrite other_other in Hla';
  pose proof (inv_out _ _ _ _ Hi) as Hout.

(** The parts of the invariant after a step of the hart that stands where [El] says. *)
Ltac after_step El Ho :=
  match type of El with thr _ ?h = _ => apply (inv_intro N _ _ h) end; cbn [thr buf mem out]; rewrite ?put_eq, ?put_other, ?El;
  [| | constructor | eapply hart_ok_frame; [exact Ho | ..] | ..].

(** One part of the invariant after a step, the hart and its place known. *)
Ltac part :=
  cbn in *; rewrite ?rd_wr in *; cbn in *; intros;
  repeat match goal with
  | H : ?x = ?x -> _ |- _ => specialize (H eq_refl)
  | H : ?P -> _, H' : ?P |- _ => specialize (H H')
  | H : _ /\ _ |- _ => destruct H
  | |- _ /\ _ => split
  end;
  first [assumption | reflexivity | discriminate | lia | congruence | by auto | done].

Lemma drain_ok s h s' : Inv s -> step md code (Drain h) s = Some s' -> Inv s'.
Proof.
  intros Hi. facts Hi s h. cbn [step]. destruct (buf s h) as [| [a v] b] eqn:Eb; [done |]. intros [= <-].
  destruct md; [by specialize (HSC eq_refl) |].
  destruct (thr s h) as [n [] | i [] | i | i tmp | i [] | | | | | |] eqn:El; cbn in Hb; try done.
  all: repeat match goal with H : _ \/ _ |- _ => destruct H as [H | H]; try discriminate H end.
  all: try injection Hb as -> -> ->.
  all: after_step El Ho; by destruct h; part.
Qed.

Lemma run_ok s h s' : Inv s -> step md code (Run h) s = Some s' -> Inv s'.
Proof.
  intros Hi. facts Hi s h. cbn [step]. unfold sees.
  pose proof (cnt_bounds _ _ _ _ _ HN (inv_hart _ _ _ _ Hi h)) as Hb1.
  pose proof (cnt_bounds _ _ _ _ _ HN Ho) as Hb2.
  pose proof (past_want (thr s (other h)) (buf s (other h))) as Hpw. rewrite <- (ok_want _ _ _ _ _ Ho) in Hpw.
  pose proof (seq_cnt _ _ _ _ _ Ho) as Hsc.
  destruct h; cbn [other] in *.
  all: destruct (thr s _) as [n [] | i [] | i | i tmp | i [] | | | | | |] eqn:El; cbn in Hb, Hp, Hc.
  all: try (discriminate Hp || by destruct Hp).
  all: try (destruct Hp as [-> | [-> | ->]] || destruct Hp as [Hp ->]).
  all: try destruct Hb as [Hb | [Hb | Hb]]; try destruct Hb as [Hb | Hb].
  all: cbn [lab_main barrier lock unlock]; try (rewrite (s32_next N (rd _ _)) by lia).
  all: rewrite Hb in *; cbn in Hc; cbn [forward default]; clear Hi.
  all: intros Hst; repeat case_match; simplify_eq; try by destruct Hfence.
  all: try by specialize (HSC eq_refl).
  all: try match goal with |- context [loop N ?k] => destruct (loop_cases N k ltac:(lia)) as [[-> ?] | [-> ?]] end.
  all: rewrite ?El in Hout; cbn in Hout; after_step El Ho; rewrite ?Hb, ?Hout.
  all: part.
Qed.

Lemma step_ok s act s' : Inv s -> step md code act s = Some s' -> Inv s'.
Proof. destruct act; [apply run_ok | apply drain_ok]. Qed.

Lemma start_ok : Inv lab_start.
Proof.
  constructor; cbn; try done; [| by rewrite rd_empty; left].
  intros h. constructor; cbn; rewrite ?rd_empty; auto.
Qed.

Lemma run_start_ok acts : Inv (run md code acts lab_start).
Proof. apply run_ind; [apply start_ok | intros; by eapply step_ok]. Qed.
End Preserved.
