(* ===== verification/PetersonLive.v ===== *)
(** * Peterson's lock: what the lab promises

    The theorems of Peterson.v's program: mutual exclusion, and termination of
    every fair schedule with the right count and report.  Termination goes through the interface [FairTermination]: the
    work left never grows, and two harts never wait for each other. *)

From S2P Require Import Prelude Word OrderMachine Peterson.

(** ** Progress *)

Section Progress.
Context (N : Z).
Implicit Types (s : Machine pc) (h : hart).

(** An upper bound of the work left at [p]; the two tests of the waiting loop
    rank the same. *)
Definition rank (p : pc) : Z :=
  match p with
  | Bar n b =>
      (if n =? 1 then 20 * N + 32 else if n =? 2 then 26 else 10) +
      match b with BSet => 4 | BFence => 2 | BWait => 0 end
  | Lock i l =>
      20 * (N - i) + 30 -
      match l with LWant => 0 | LWantFence => 2 | LTurn => 4 | LTurnFence => 6 | LTestWant | LTestTurn => 8 end
  | CsLoad i => 20 * (N - i) + 20
  | CsStore i _ => 20 * (N - i) + 18
  | Unlock i UWant => 20 * (N - i) + 16
  | Unlock i UFence => 20 * (N - i) + 14
  | RepHead => 24 | RepLoad => 22 | RepPut _ => 20 | RepLost => 18 | RepTail _ => 16
  | Done => 0
  end.

(** A hart whose lock is open may need one more test to see it. *)
Definition tests_left s h : Z :=
  match thr s h with
  | Lock _ LTestWant => if rd (mem s) turn =? hartid h then 1 else 0
  | Lock _ LTestTurn =>
      if rd (mem s) turn =? hartid h then 0 else if rd (mem s) (want (other h)) =? 0 then 1 else 0
  | _ => 0
  end.

Definition work s : Z :=
  3 * (rank (thr s Hart0) + rank (thr s Hart1) +
       Z.of_nat (length (buf s Hart0)) + Z.of_nat (length (buf s Hart1))) +
  tests_left s Hart0 + tests_left s Hart1.

(** Running [h] would only test once more, or not at all. *)
Definition blocked s h : bool :=
  match thr s h with
  | Bar n BWait => rd (mem s) (seq (other h)) <? n
  | Lock _ LTestWant | Lock _ LTestTurn =>
      negb (rd (mem s) (want (other h)) =? 0) && (rd (mem s) turn =? hartid (other h))
  | Done => true
  | _ => false
  end.

Definition helpful s : action :=
  if negb (is_nil (buf s Hart0)) then Drain Hart0
  else if negb (is_nil (buf s Hart1)) then Drain Hart1
  else if blocked s Hart0 then Run Hart1 else Run Hart0.

Lemma tests_left_bounds s h : 0 <= tests_left s h <= 1.
Proof. unfold tests_left. repeat case_match; lia. Qed.

Lemma rank_nonneg h p c : 0 <= N -> pc_ok N h p c -> 0 <= rank p.
Proof.
  intros HN. destruct p as [n b | i l | | | i u | | | | | |]; cbn; intros; try lia.
  - destruct b, (n =? 1), (n =? 2); lia.
  - destruct l; lia.
  - destruct u; lia.
Qed.

(** Someone can always move: two harts never wait for each other. *)
Lemma no_deadlock md fence s : inv N md fence s -> buf s Hart0 = [] -> buf s Hart1 = [] ->
  blocked s Hart0 = true -> blocked s Hart1 = true -> finished s.
Proof.
  intros Hi E0 E1. unfold blocked, finished.
  pose proof (inv_hart _ _ _ _ Hi Hart0) as [_ P0 W0 S0]. pose proof (inv_hart _ _ _ _ Hi Hart1) as [_ P1 W1 S1].
  rewrite E0 in *. rewrite E1 in *. cbn [other]. rewrite W0, W1, S0, S1.
  destruct (thr s Hart0) as [n [] | i [] | | | ? [] | | | | | |]; try done;
  destruct (thr s Hart1) as [m [] | j [] | | | ? [] | | | | | |]; try done; cbn in *; lia.
Qed.

(** The work, seen from one hart. *)
Lemma work_from h s : work s =
  3 * (rank (thr s h) + rank (thr s (other h)) +
       Z.of_nat (length (buf s h)) + Z.of_nat (length (buf s (other h)))) +
  tests_left s h + tests_left s (other h).
Proof. unfold work. destruct h; cbn [other]; lia. Qed.

(** A step that changes the rank of its place lowers the work. *)
Lemma rank_work s s' h : thr s' (other h) = thr s (other h) -> buf s' (other h) = buf s (other h) ->
  rank (thr s' h) + Z.of_nat (length (buf s' h)) < rank (thr s h) + Z.of_nat (length (buf s h)) ->
  work s' < work s.
Proof.
  intros E1 E2 Hr. rewrite !(work_from h), E1, E2.
  pose proof (tests_left_bounds s h). pose proof (tests_left_bounds s (other h)).
  pose proof (tests_left_bounds s' h). pose proof (tests_left_bounds s' (other h)). lia.
Qed.

Lemma loop_rank i : 0 <= i <= N -> rank (loop N i) = 20 * (N - i) + 30.
Proof. intros. destruct (loop_cases N i) as [[-> ?] | [-> ?]]; cbn; lia. Qed.

(** The waiting loops: one test, memory and buffers as before. *)
Lemma test_work s h p : rank p = rank (thr s h) ->
  let s' := mkMachine (put h p (thr s)) (buf s) (mem s) (out s) in
  tests_left s' h < tests_left s h \/
    (tests_left s' h = tests_left s h /\ blocked s h = true /\ blocked s' h = true) ->
  work s' < work s \/
  (work s' = work s /\ blocked s h = true /\ buf s' = buf s /\ forall h', blocked s' h' = blocked s h').
Proof.
  intros Hr s' Ht.
  assert (Ho : tests_left s' (other h) = tests_left s (other h)) by (unfold tests_left; cbn; by rewrite put_other).
  assert (Hw : work s' - work s = tests_left s' h - tests_left s h).
  { rewrite !(work_from h), Ho. cbn [thr buf s']. rewrite put_eq, put_other, Hr. lia. }
  destruct Ht as [Ht | (Ht & Hb & Hb')]; [left; lia | right]. repeat split; [lia | done |].
  intros h'. destruct (two_harts h h') as [-> | ->]; [congruence |]. unfold blocked. cbn. by rewrite put_other.
Qed.
End Progress.

Section Terminates.
Context (md : model) (USE_FENCE : bool) (N : Z).
Context (HN : 0 <= N) (Hint : 2 * N < 2 ^ 31) (Hfence : md = SC \/ USE_FENCE = true).
Implicit Types (s : Machine pc) (h : hart).

Abbreviation code := (lab_main USE_FENCE N).
Abbreviation Inv := (inv N md USE_FENCE).

Lemma work_nonneg s : Inv s -> 0 <= work N s.
Proof.
  intros Hi. pose proof (tests_left_bounds s Hart0). pose proof (tests_left_bounds s Hart1).
  pose proof (rank_nonneg N _ _ _ HN (ok_pc _ _ _ _ _ (inv_hart _ _ _ _ Hi Hart0))).
  pose proof (rank_nonneg N _ _ _ HN (ok_pc _ _ _ _ _ (inv_hart _ _ _ _ Hi Hart1))).
  unfold work. lia.
Qed.

Lemma drain_work s h s' : step md code (Drain h) s = Some s' -> work N s' < work N s.
Proof.
  cbn. destruct (buf s h) as [| [a v] b] eqn:E; [done |]. intros [= <-].
  rewrite !(work_from N h). cbn [thr buf]. rewrite put_eq, put_other, E. cbn [length].
  set (s' := mkMachine _ _ _ _).
  pose proof (tests_left_bounds s h). pose proof (tests_left_bounds s (other h)).
  pose proof (tests_left_bounds s' h). pose proof (tests_left_bounds s' (other h)). lia.
Qed.

Lemma barrier_work s h n s' : Inv s -> thr s h = Bar n BWait -> n = 1 \/ n = 2 \/ n = 3 ->
  Some (mkMachine (put h (if rd (mem s) (seq (other h)) <? n then Bar n BWait
    else match n with 1 => loop N 0 | 2 => match h with Hart0 => RepHead | Hart1 => Bar 3 BSet end | _ => Done end)
    (thr s)) (buf s) (mem s) (out s)) = Some s' ->
  work N s' < work N s \/
  (work N s' = work N s /\ blocked s h = true /\ buf s' = buf s /\ forall h', blocked s' h' = blocked s h').
Proof.
  intros Hi El Hn [= <-]. destruct (_ <? n) eqn:E.
  - apply test_work; [by rewrite El |]. right. unfold tests_left, blocked. cbn. by rewrite put_eq, El.
  - left. apply (rank_work N s _ h); cbn [thr buf]; rewrite ?put_eq, ?put_other, ?El; try done.
    destruct Hn as [-> | [-> | ->]]; [| destruct h |]; rewrite ?loop_rank by lia; cbn; lia.
Qed.

Lemma lock_work s h i l s' : Inv s -> l = LTestWant \/ l = LTestTurn -> thr s h = Lock i l ->
  step md code (Run h) s = Some s' ->
  work N s' < work N s \/
  (work N s' = work N s /\ blocked s h = true /\ buf s' = buf s /\ forall h', blocked s' h' = blocked s h').
Proof.
  intros Hi Hl El. pose proof (ok_buf _ _ _ _ _ (inv_hart _ _ _ _ Hi h)) as Hb.
  pose proof (inv_turn _ _ _ _ Hi) as Ht. cbn [step]. unfold sees. rewrite El in Hb |- *.
  assert (Eb : buf s h = []) by (by destruct Hl as [-> | ->]). rewrite Eb.
  destruct Hl as [-> | ->]; cbn [lab_main lock forward default]; intros [= <-]; case_if; zify_bool.
  1, 4: left; apply (rank_work N s _ h); cbn [thr buf]; rewrite ?put_eq, ?put_other, ?El; try done; cbn; lia.
  all: apply test_work; [by rewrite El |]; unfold tests_left, blocked; cbn; rewrite put_eq, El; destruct h; cbn in *.
  all: repeat case_match; zify_bool; lia.
Qed.

(** A step of a hart lowers the work, or it is one more test in vain. *)
Lemma run_work s h s' : Inv s -> step md code (Run h) s = Some s' ->
  work N s' < work N s \/
  (work N s' = work N s /\ blocked s h = true /\ buf s' = buf s /\ forall h', blocked s' h' = blocked s h').
Proof.
  intros Hi Hrun. pose proof Hrun as Hst. pose proof (inv_hart _ _ _ _ Hi h) as [Hb Hp _ _].
  cbn [step] in Hst. unfold sees in Hst.
  destruct (thr s h) as [n [] | i [] | i | i tmp | i [] | | | | | |] eqn:El; cbn in Hb, Hp.
  all: cbn [lab_main barrier lock unlock] in Hst.
  all: try rewrite Hb in Hst; cbn [forward default] in Hst.
  3: by eapply barrier_work.
  7, 8: by eapply lock_work; [exact Hi | | exact El | exact Hrun]; auto.
  all: left; clear Hrun; repeat case_match; simplify_eq.
  all: match type of El with thr _ ?h = _ => apply (rank_work N s _ h) end; cbn [thr buf]; rewrite ?put_eq, ?put_other, ?El; try done.
  all: rewrite ?loop_rank, ?length_app by lia; cbn; try lia.
Qed.

Lemma run_enabled s h : buf s h = [] -> thr s h <> Done -> exists s', step md code (Run h) s = Some s'.
Proof.
  intros Eb El. cbn [step]. rewrite Eb.
  destruct (thr s h) as [n [] | i [] | i | i tmp | i [] | | | | | |]; try done; cbn; destruct md; eauto.
Qed.

Lemma helpful_works s : Inv s -> ~ finished s ->
  exists s', step md code (helpful s) s = Some s' /\ work N s' < work N s.
Proof.
  intros Hi Hf. unfold helpful.
  destruct (buf s Hart0) as [| [a v] b] eqn:E0; cbn [is_nil negb].
  2: { eexists. split; [cbn; by rewrite E0 |]. eapply (drain_work s Hart0). cbn. by rewrite E0. }
  destruct (buf s Hart1) as [| [a v] b] eqn:E1; cbn [is_nil negb].
  2: { eexists. split; [cbn; by rewrite E1 |]. eapply (drain_work s Hart1). cbn. by rewrite E1. }
  assert (Hrun : forall h, buf s h = [] -> blocked s h = false ->
    exists s', step md code (Run h) s = Some s' /\ work N s' < work N s).
  { intros h Eb Hb. destruct (run_enabled s h) as [s' Hs]; [done | by unfold blocked in Hb; intros E; rewrite E in Hb |].
    exists s'. split; [done |]. destruct (run_work _ _ _ Hi Hs) as [? | (_ & Hb' & _)]; [done | congruence]. }
  destruct (blocked s Hart0) eqn:B0; [| by apply Hrun].
  apply Hrun; [done |]. destruct (blocked s Hart1) eqn:B1; [| done]. by destruct Hf; eapply no_deadlock.
Qed.

Lemma work_mono s act s' : Inv s -> step md code act s = Some s' ->
  work N s' < work N s \/ (work N s' = work N s /\ helpful s' = helpful s).
Proof.
  intros Hi Hs. destruct act as [h | h]; [| left; by eapply drain_work].
  destruct (run_work _ _ _ Hi Hs) as [? | (Hw & _ & Hb & Hbl)]; [by left | right].
  split; [done |]. unfold helpful. by rewrite Hb, Hbl.
Qed.

#[export] Instance finished_dec s : Decision (finished s).
Proof. unfold finished. destruct (thr s Hart0), (thr s Hart1); (left; done) || (right; intros [? ?]; done). Defined.

#[export] Instance peterson_fair : FairTermination md code finished.
Proof.
  refine {| ft_inv := Inv; ft_measure s := Z.to_nat (work N s); ft_helpful := helpful; ft_final_dec := finished_dec |}.
  - intros. by eapply step_ok.
  - intros s Hi Hf. destruct (helpful_works s Hi Hf) as (s' & Hs & Hw). exists s'. split; [done |].
    assert (Hi' : Inv s') by (by eapply step_ok). pose proof (work_nonneg _ Hi'). lia.
  - intros s act s' Hi Hs. assert (Hi' : Inv s') by (by eapply step_ok).
    pose proof (work_nonneg _ Hi'). destruct (work_mono _ _ _ Hi Hs) as [? | [-> ?]]; [left; lia | by right].
Defined.

(** A finished machine has printed the report of a counter that lost nothing. *)
Lemma finished_result s : Inv s -> finished s ->
  rd (mem s) counter = 2 * N /\ out s = out_of N USE_FENCE Done.
Proof.
  intros Hi [F0 F1]. rewrite (inv_cnt _ _ _ _ Hi), (inv_out _ _ _ _ Hi), F0, F1. cbn [cnt_of]. split; [lia | done].
Qed.

Lemma finished_stays s act : Inv s -> finished s -> step md code act s = None.
Proof.
  intros Hi [F0 F1].
  assert (Hd : forall h, thr s h = Done) by (intros []; done).
  destruct act as [h | h]; cbn; [by rewrite Hd |].
  pose proof (ok_buf _ _ _ _ _ (inv_hart _ _ _ _ Hi h)) as Hb. rewrite Hd in Hb. cbn in Hb. by rewrite Hb.
Qed.
End Terminates.

(** Not both harts are between [lock] and the store of [unlock]. *)
Definition exclusive (s : Machine pc) : Prop :=
  ~ (in_critical (thr s Hart0) = true /\ in_critical (thr s Hart1) = true).

(** What hart 0 prints when the counter is [c]. *)
Definition report (fence : bool) (N c : Z) : string :=
  ((report_head fence N ++ (uart_putint c ++ nl)) ++ report_tail (2 * N - c))%string.


(** ** The theorems *)

(** C9. Peterson's lock excludes.  For every number of iterations (of which the
    counter can hold the sum), under sequential consistency with or without
    fences and under TSO with them, no interleaving of the two harts and their
    store buffers has both between [lock] and the store of [unlock]; and the
    value a hart is about to increment is still the counter in memory, its own
    [i] increments plus those of the other hart that memory shows. *)
Theorem peterson_mutex md fence N acts :
  0 <= N -> 2 * N < 2 ^ 31 -> md = SC \/ fence = true ->
  let s := run md (lab_main fence N) acts lab_start in
  exclusive s /\
  (forall h i tmp, thr s h = CsStore i tmp -> tmp = rd (mem s) counter /\
    tmp = i + cnt_of N (thr s (other h)) (buf s (other h))).
Proof.
  intros HN Hm Hf s. pose proof (run_start_ok md fence N HN Hm Hf acts) as Hi. fold s in Hi. split.
  - intros [C0 C1]. eapply (crit_exclusive _ _ _ _ Hart0 Hi); by apply in_critical_crit.
  - intros h i tmp E. pose proof (ok_pc _ _ _ _ _ (inv_hart _ _ _ _ Hi h)) as Hp. rewrite E in Hp. cbn in Hp.
    destruct Hp as [_ Hp]. split; [done |]. rewrite Hp, (inv_cnt _ _ _ _ Hi).
    destruct h; cbn [other]; rewrite E; cbn [cnt_of]; lia.
Qed.

Lemma peterson_mutex_witness :
  let s := run TSO (lab_main true N_ITER) (flat_map (fun _ => [Run Hart0; Drain Hart0; Run Hart1; Drain Hart1]) (seqZ 0 12)) lab_start in
  exclusive s.
Proof. apply (peterson_mutex TSO true N_ITER); [vm_compute; congruence | vm_compute; congruence | by right]. Defined.

(** C8. The lab terminates and counts right.  Under sequential consistency, or
    under TSO with the fences, every weakly fair schedule (each hart and each
    store buffer gets its turn again and again, in any order) reaches a point
    from which on both harts have stopped, the counter in memory is twice the
    number of iterations, and hart 0 has printed the report with that value,
    no lost updates and the verdict CORRECT. *)
Theorem peterson_terminates md fence N sched :
  0 <= N -> 2 * N < 2 ^ 31 -> md = SC \/ fence = true -> fair sched ->
  exists n, forall m, (n <= m)%nat ->
    let s := at_time md (lab_main fence N) sched m lab_start in
    finished s /\ rd (mem s) counter = 2 * N /\ out s = report fence N (2 * N).
Proof.
  intros HN Hm Hf Hfair.
  destruct (@fair_terminates _ md _ _ (peterson_fair md fence N HN Hm Hf) sched lab_start) as [n Hn];
    [by apply start_ok | done |].
  exists n. intros m Hnm.
  assert (Hi : forall m, inv N md fence (at_time md (lab_main fence N) sched m lab_start)).
  { intros k. apply (@ft_inv_at _ md _ _ (peterson_fair md fence N HN Hm Hf)). by apply start_ok. }
  assert (Hfin : finished (at_time md (lab_main fence N) sched m lab_start)).
  { induction Hnm as [| m _ IH]; [done |]. cbn. unfold act1. by erewrite finished_stays. }
  split; [done |]. unfold report. rewrite Z.sub_diag. by apply (finished_result md).
Qed.

Lemma peterson_terminates_witness : exists n,
  finished (at_time TSO (lab_main true N_ITER) round_robin n lab_start) /\
  rd (mem (at_time TSO (lab_main true N_ITER) round_robin n lab_start)) counter = 4000.
Proof.
  destruct (peterson_terminates TSO true N_ITER round_robin) as [n Hn];
    [vm_compute; congruence | vm_compute; congruence | by right | exact round_robin_fair |].
  exists n. destruct (Hn n (le_n n)) as (Hf & Hc & _). split; [exact Hf | exact Hc].
Defined.
