(* ===== verification/PetersonTso.v ===== *)
(** * Peterson's lock without fences

    What the lab wants to show: under TSO and without its fences the lock of
    Peterson.v does not exclude.  Schedules are built an iteration at a time:
    [duel] lets both harts run a whole iteration into their store buffers before
    any of it drains, so one of the two increments is lost; [solo] runs one
    hart's iteration and drains it. *)

From S2P Require Import Prelude Word OrderMachine Peterson PetersonLive.

(** ** Machines up to extensionality *)

Definition sel {A} (x y : A) (h : hart) : A := match h with Hart0 => x | Hart1 => y end.

(** The harts and buffers are functions: what counts is their values. *)
Record same (s s' : Machine pc) : Prop := {
  same_thr h : thr s h = thr s' h;
  same_buf h : buf s h = buf s' h;
  same_mem : mem s = mem s';
  same_out : out s = out s' }.

#[export] Instance same_equiv : Equivalence same.
Proof.
  split; [done | |].
  - intros s s' [? ? ? ?]. by split.
  - intros s1 s2 s3 [T1 B1 M1 O1] [T2 B2 M2 O2]. split; try congruence; intros h; by rewrite ?T1, ?B1.
Qed.

Lemma put_ext {A} h (x : A) f g : (forall k, f k = g k) -> forall k, put h x f k = put h x g k.
Proof. intros E k. unfold put. by rewrite E. Qed.

#[export] Instance act1_same md code : Proper (same ==> eq ==> same) (act1 md code).
Proof.
  intros s s' [T B M O] act _ <-. unfold act1, step, sees. destruct act as [h | h].
  - rewrite <- T, <- B, <- M. destruct (code h (thr s h)), md; try destruct (buf s h); repeat case_if; split; cbn;
      auto using @put_ext; by rewrite ?O.
  - rewrite <- B, <- M. destruct (buf s h) as [| [a v] b]; split; cbn; auto using @put_ext.
Qed.

#[export] Instance run_same md code acts : Proper (same ==> same) (run md code acts).
Proof. induction acts as [| act acts IH]; intros s s' E; [done |]. cbn. apply IH. by rewrite E. Qed.

(** A machine with its values written out. *)
Definition mach p0 p1 b0 b1 m o : Machine pc := mkMachine (sel p0 p1) (sel b0 b1) m o.
Definition norm (s : Machine pc) : Machine pc := mach (thr s Hart0) (thr s Hart1) (buf s Hart0) (buf s Hart1) (mem s) (out s).

Lemma norm_same s : same s (norm s).
Proof. split; try done; by intros []. Qed.

Lemma run_app md (code : hart -> pc -> instr pc) l1 l2 s : run md code (l1 ++ l2) s = run md code l2 (run md code l1 s).
Proof. apply fold_left_app. Qed.

(** ** One iteration *)

Section Unfenced.
Context (N : Z) (Hint : 2 * N < 2 ^ 31).
Abbreviation code := (lab_main false N).
Abbreviation runs := (run TSO code).

Lemma runs_step act acts s p0 p1 b0 b1 m o : let s' := act1 TSO code s act in
  thr s' Hart0 = p0 -> thr s' Hart1 = p1 -> buf s' Hart0 = b0 -> buf s' Hart1 = b1 -> mem s' = m -> out s' = o ->
  same (runs (act :: acts) s) (runs acts (mach p0 p1 b0 b1 m o)).
Proof. intros s' <- <- <- <- <- <-. change (runs (act :: acts) s) with (runs acts s'). by rewrite (norm_same s') at 1. Qed.

Lemma runs_nil s s' : s = s' -> same (runs [] s) s'.
Proof. by intros ->. Qed.

(** The harts execute, the buffers drain. *)
Definition both (f : hart -> action) : list action := [f Hart0; f Hart1].
Definition many (n : nat) (l : list action) : list action := concat (replicate n l).
Definition duel : list action := many 6 (both Run) ++ many 4 (both Drain).
Definition solo (h : hart) : list action := many 6 [Run h] ++ many 4 [Drain h].

(** What memory shows between two iterations; [c] is the counter. *)
Definition idle (m : Memory) (c : Z) : Prop :=
  rd m (want Hart0) = 0 /\ rd m (want Hart1) = 0 /\ rd m counter = c /\ rd m (seq Hart0) = 1 /\ rd m (seq Hart1) = 1.

Ltac eval_step :=
  lazy -[rd wr s32 loop Z.add Z.sub Z.mul report_head report_tail uart_putint String.append nl].
Ltac eval_mem := repeat (rewrite rd_wr; cbn [Z.eqb Pos.eqb]);
  repeat match goal with H : rd _ _ = _ |- _ => rewrite H end.

(** One action of a machine whose values are written out. *)
Ltac tick := etransitivity; [eapply runs_step; eval_step; eval_mem; eval_step; eval_mem; reflexivity |].


Ltac play := unfold many, both; cbn [concat replicate app]; repeat tick; apply runs_nil; reflexivity.
Ltac known H := destruct H as (?W0 & ?W1 & ?Ec & ?S0 & ?S1); unfold counter in *; cbn [want seq] in *.
Ltac idle_now := split_and!; unfold counter; cbn [want seq]; eval_mem; try reflexivity.

(** The schedule [acts] takes both harts through an iteration and adds [d] to the counter. *)
Definition iterates (acts : list action) (d : Z) : Prop := forall i m c, idle m c -> 0 <= c -> c + d <= 2 * N ->
  exists m', idle m' (c + d) /\
    same (runs acts (mach (Lock i LWant) (Lock i LWant) [] [] m "")) (mach (loop N (i + 1)) (loop N (i + 1)) [] [] m' "").

(** Both enter, both read the same value, both store its successor. *)
Lemma duel_loses : iterates duel 1.
Proof.
  intros i m c H Hc Hd. pose proof (s32_next N c Hint ltac:(lia)) as Hs. known H. eexists. split; [| unfold duel; play].
  idle_now. exact Hs.
Qed.

(** Half way both are past [lock]. *)
Lemma duel_enters i m c : idle m c ->
  same (runs (many 3 (both Run)) (mach (Lock i LWant) (Lock i LWant) [] [] m ""))
    (mach (CsLoad i) (CsLoad i) [(want Hart0, 1); (turn, 1)] [(want Hart1, 1); (turn, 0)] m "").
Proof. intros H. known H. play. Qed.

Lemma solos_keep : iterates (solo Hart0 ++ solo Hart1) 2.
Proof.
  intros i m c H Hc Hd. pose proof (s32_next N c Hint ltac:(lia)) as Hs. pose proof (s32_next N (c + 1) Hint ltac:(lia)) as Hs'.
  known H. eexists. split; [| unfold solo; play].
  idle_now. rewrite Hs, Hs'. lia.
Qed.

Lemma iterations acts d n : iterates acts d -> 0 <= d -> forall i m c, idle m c -> 0 <= c -> c + d * Z.of_nat n <= 2 * N ->
  0 <= i -> i + Z.of_nat n <= N -> exists m', idle m' (c + d * Z.of_nat n) /\
    same (runs (many n acts) (mach (loop N i) (loop N i) [] [] m "")) (mach (loop N (i + Z.of_nat n)) (loop N (i + Z.of_nat n)) [] [] m' "").
Proof.
  intros Ha Hd. induction n as [| n IH]; intros i m c Hi Hc Hn H0 HN.
  { exists m. rewrite Z.mul_0_r, !Z.add_0_r. by split. }
  destruct (loop_cases N i ltac:(lia)) as [[El _] | [_ ?]]; [| lia]. rewrite El.
  destruct (Ha i m c Hi Hc ltac:(nia)) as (m1 & I1 & E1).
  destruct (IH (i + 1) m1 (c + d) I1 ltac:(lia) ltac:(lia) ltac:(lia) ltac:(lia)) as (m2 & I2 & E2).
  exists m2. replace (c + d * Z.of_nat (S n)) with (c + d + d * Z.of_nat n) by lia.
  replace (i + Z.of_nat (S n)) with (i + 1 + Z.of_nat n) by lia. split; [done |].
  change (many (S n) acts) with (acts ++ many n acts). by rewrite run_app, E1.
Qed.

(** The first barrier, and the two last ones with the report between them. *)
Definition opening : list action := both Run ++ both Drain ++ many 2 (both Run).
Definition closing : list action := many 12 (both Run ++ both Drain).

Lemma opening_ok : exists m, idle m 0 /\ same (runs opening lab_start) (mach (loop N 0) (loop N 0) [] [] m "").
Proof.
  eexists. split; [| rewrite (norm_same lab_start) at 1; unfold opening, norm; cbn [lab_start start thr buf mem out]; play].
  idle_now; apply rd_empty.
Qed.

Lemma closing_ok m c : idle m c -> exists m', rd m' counter = c /\
  same (runs closing (mach (Bar 2 BSet) (Bar 2 BSet) [] [] m "")) (mach Done Done [] [] m' (report false N c)).
Proof. intros H. known H. eexists. split; [| unfold closing; play]. unfold counter. eval_mem. reflexivity. Qed.

(** [k] iterations that lose an update, then [n] that do not. *)
Lemma prefix_ok k n : Z.of_nat k + Z.of_nat n <= N -> exists m, let i := Z.of_nat k + Z.of_nat n in
  idle m (Z.of_nat k + 2 * Z.of_nat n) /\
  same (runs (opening ++ many k duel ++ many n (solo Hart0 ++ solo Hart1)) lab_start) (mach (loop N i) (loop N i) [] [] m "").
Proof.
  intros Hk. destruct opening_ok as (m0 & I0 & E0).
  destruct (iterations duel 1 k duel_loses ltac:(lia) 0 m0 0 I0) as (m1 & I1 & E1); [lia.. |].
  destruct (iterations _ 2 n solos_keep ltac:(lia) (0 + Z.of_nat k) m1 _ I1) as (m2 & I2 & E2); [lia.. |].
  exists m2. cbv zeta. replace (Z.of_nat k + 2 * Z.of_nat n) with (0 + 1 * Z.of_nat k + 2 * Z.of_nat n) by lia.
  split; [done |]. by rewrite !run_app, E0, E1, E2.
Qed.
End Unfenced.

(** ** The lock is broken *)

(** Both harts have passed [lock] in their iteration [i]. *)
Definition both_entered (i : Z) (s : Machine pc) : Prop := thr s Hart0 = CsLoad i /\ thr s Hart1 = CsLoad i.

(** C40. Without fences the lock fails under TSO, whatever the number of
    iterations.  In each iteration [i] both harts can be in the critical section
    at once, and for every number from none to [N], one per iteration, there is
    an execution that runs the lab to its end, loses exactly that many updates
    and reports them. *)
Theorem peterson_unfenced N : 2 * N < 2 ^ 31 ->
  (forall i, 0 <= i < N -> exists acts, both_entered i (run TSO (lab_main false N) acts lab_start)) /\
  (forall lost, 0 <= lost <= N -> exists acts, let s := run TSO (lab_main false N) acts lab_start in
    finished s /\ rd (mem s) counter = 2 * N - lost /\ out s = report false N (2 * N - lost)).
Proof.
  intros HN. split.
  - intros i Hi. destruct (prefix_ok N HN (Z.to_nat i) 0) as (m & Im & E); [lia |]. cbv zeta in E.
    replace (Z.of_nat (Z.to_nat i) + Z.of_nat 0) with i in E by lia.
    destruct (loop_cases N i ltac:(lia)) as [[El _] | [_ ?]]; [| lia]. rewrite El in E.
    eexists (_ ++ many 3 (both Run)). rewrite run_app.
    pose proof (duel_enters N i m _ Im) as E'. rewrite <- E in E'. split; apply E'.
  - intros lost Hl. destruct (prefix_ok N HN (Z.to_nat lost) (Z.to_nat (N - lost))) as (m & Im & E); [lia |]. cbv zeta in E.
    replace (Z.of_nat (Z.to_nat lost) + Z.of_nat (Z.to_nat (N - lost))) with N in E by lia.
    replace (Z.of_nat (Z.to_nat lost) + 2 * Z.of_nat (Z.to_nat (N - lost))) with (2 * N - lost) in Im by lia.
    unfold loop in E. rewrite Z.ltb_irrefl in E. destruct (closing_ok N m _ Im) as (m' & Ec & E').
    rewrite <- E, <- run_app in E'. destruct E' as [T _ M O]. eexists. split; [split; apply T |]. rewrite M, O. by split.
Qed.

Lemma peterson_unfenced_witness : exists acts acts',
  both_entered 1999 (run TSO (lab_main false N_ITER) acts lab_start) /\
  rd (mem (run TSO (lab_main false N_ITER) acts' lab_start)) counter = 2000.
Proof.
  destruct (peterson_unfenced N_ITER) as [He Hl]; [reflexivity |].
  destruct (He 1999) as [acts Ha]; [split; [discriminate | reflexivity] |].
  destruct (Hl 2000) as (acts' & _ & Hc & _); [split; discriminate |].
  exists acts, acts'. split; [exact Ha | exact Hc].
Defined.
