(* ===== verification/Kstring.v ===== *)
(** * The guest's string.h (am/klib/src/string.c)

    Written against [GuestMemory].  [char] is unsigned, as in the RISC-V ABI.
    The memory routines move words where both pointers are aligned; they are
    proved equal to the byte-wise definitions [fill_view] and [move_view].
    String loops end at a NUL; [limit] bounds the steps, and every theorem
    about a string shorter than [limit] shows that the loop returns. *)

From S2P Require Import Prelude Word Mmio Mem GuestMem.

Section Model.
Context {M : Type} `{GuestMemory M} (limit : nat).
Implicit Types (m : M).

(** ** Strings *)

(** [while (s[n] != 0) n++]: the index of the first NUL at or after [n]. *)
Fixpoint strlen_loop (fuel : nat) (s n : Z) m : Res (Z * M) :=
  match fuel with
  | O => Err Undefined
  | S fuel =>
      '(c, m) ← ld (s + n) 1 m;
      if c =? 0 then Ok (n, m) else strlen_loop fuel s (n + 1) m
  end.

Definition strlen (s : Z) m : Res (Z * M) := strlen_loop limit s 0 m.

(** [do dst[i] = src[i]; while (src[i++] != 0)]: [src[i]] is read twice. *)
Fixpoint strcpy_loop (fuel : nat) (dst src i : Z) m : Res M :=
  match fuel with
  | O => Err Undefined
  | S fuel =>
      '(c, m) ← ld (src + i) 1 m;
      m ← st (dst + i) 1 c m;
      '(c', m) ← ld (src + i) 1 m;
      if c' =? 0 then Ok m else strcpy_loop fuel dst src (i + 1) m
  end.

Definition strcpy (dst src : Z) m : Res (Z * M) :=
  m ← strcpy_loop limit dst src 0 m; Ok (dst, m).

(** The two loops of [strncpy], on the number of bytes left. *)
Fixpoint strncpy_copy (rest : nat) (dst src i : Z) m : Res (nat * Z * M) :=
  match rest with
  | O => Ok (O, i, m)
  | S rest' =>
      '(c, m) ← ld (src + i) 1 m;
      if c =? 0 then Ok (rest, i, m)
      else
        '(c, m) ← ld (src + i) 1 m;
        m ← st (dst + i) 1 c m;
        strncpy_copy rest' dst src (i + 1) m
  end.

Fixpoint strncpy_pad (rest : nat) (dst i : Z) m : Res (Z * M) :=
  match rest with
  | O => Ok (i, m)
  | S rest => m ← st (dst + i) 1 0 m; strncpy_pad rest dst (i + 1) m
  end.

Definition strncpy (dst src : Z) (n : nat) m : Res (Z * M) :=
  '(rest, i, m) ← strncpy_copy n dst src 0 m;
  '(i, m) ← strncpy_pad rest dst i m;
  m ← (if (0 <? n)%nat then st (dst + i - 1) 1 0 m else Ok m);
  Ok (dst, m).

Fixpoint strcat_loop (fuel : nat) (dst src n i : Z) m : Res (Z * M) :=
  match fuel with
  | O => Err Undefined
  | S fuel =>
      '(c, m) ← ld (src + i) 1 m;
      if c =? 0 then Ok (i, m)
      else
        '(c, m) ← ld (src + i) 1 m;
        m ← st (dst + n + i) 1 c m;
        strcat_loop fuel dst src n (i + 1) m
  end.

Definition strcat (dst src : Z) m : Res (Z * M) :=
  '(n, m) ← strlen_loop limit dst 0 m;
  '(i, m) ← strcat_loop limit dst src n 0 m;
  m ← st (dst + n + i) 1 0 m;
  Ok (dst, m).

(** [return s1[i] - s2[i]] *)
Definition char_diff (s1 s2 i : Z) m : Res (Z * M) :=
  '(a, m) ← ld (s1 + i) 1 m;
  '(b, m) ← ld (s2 + i) 1 m;
  Ok (a - b, m).

(** The loop of [strcmp] and, with [n], of [strncmp]; [&&] stops at the first
    false operand. *)
Fixpoint strcmp_loop (fuel : nat) (s1 s2 i : Z) m : Res (Z * M) :=
  match fuel with
  | O => Err Undefined
  | S fuel =>
      '(a, m) ← ld (s1 + i) 1 m;
      if a =? 0 then char_diff s1 s2 i m
      else
        '(b, m) ← ld (s2 + i) 1 m;
        if b =? 0 then char_diff s1 s2 i m
        else if a =? b then strcmp_loop fuel s1 s2 (i + 1) m
        else char_diff s1 s2 i m
  end.

Definition strcmp (s1 s2 : Z) m : Res (Z * M) := strcmp_loop limit s1 s2 0 m.

Fixpoint strncmp_loop (rest : nat) (s1 s2 i : Z) m : Res (Z * M) :=
  match rest with
  | O => char_diff s1 s2 i m
  | S rest =>
      '(a, m) ← ld (s1 + i) 1 m;
      if a =? 0 then char_diff s1 s2 i m
      else
        '(b, m) ← ld (s2 + i) 1 m;
        if b =? 0 then char_diff s1 s2 i m
        else if a =? b then strncmp_loop rest s1 s2 (i + 1) m
        else char_diff s1 s2 i m
  end.

Definition strncmp (s1 s2 : Z) (n : nat) m : Res (Z * M) := strncmp_loop n s1 s2 0 m.

(** ** Memory *)

Definition unaligned (p : Z) : bool := negb (Z.land p 7 =? 0).

(** [while (n > 0 && (d & 7)) { *d++ = b; n--; }] *)
Fixpoint memset_head (n : nat) (d b : Z) m : Res (nat * Z * M) :=
  match n with
  | O => Ok (O, d, m)
  | S n' => if unaligned d then m ← st d 1 b m; memset_head n' (d + 1) b m else Ok (n, d, m)
  end.

(** [for (i = 0; i < words; i++) p[i] = w] *)
Fixpoint memset_words (words : nat) (p w : Z) m : Res M :=
  match words with
  | O => Ok m
  | S words => m ← st_word p w m; memset_words words (p + 8) w m
  end.

(** [while (n--) *d++ = b] *)
Fixpoint memset_tail (n : nat) (d b : Z) m : Res M :=
  match n with
  | O => Ok m
  | S n => m ← st d 1 b m; memset_tail n (d + 1) b m
  end.

Definition memset (s c : Z) (n : nat) m : Res (Z * M) :=
  let b := c mod 256 in
  '(n, d, m) ← memset_head n s b m;
  '(n, d, m) ←
    (if (8 <=? n)%nat then
       let w := wrap64 (b * 0x0101010101010101) in
       let words := Z.shiftr (Z.of_nat n) 3 in
       m ← memset_words (Z.to_nat words) d w m;
       Ok (Z.to_nat (Z.land (Z.of_nat n) 7), d + Z.shiftl words 3, m)
     else Ok (n, d, m));
  m ← memset_tail n d b m;
  Ok (s, m).

(** [while (n > 0 && (d & 7)) { *d++ = *s++; n--; }] *)
Fixpoint copy_head (n : nat) (d s : Z) m : Res (nat * Z * Z * M) :=
  match n with
  | O => Ok (O, d, s, m)
  | S n' =>
      if unaligned d then
        '(c, m) ← ld s 1 m; m ← st d 1 c m; copy_head n' (d + 1) (s + 1) m
      else Ok (n, d, s, m)
  end.

(** [while (n >= 8) { *pd++ = *ps++; n -= 8; }]; [fuel] is at least [n / 8]. *)
Fixpoint copy_words (fuel n : nat) (d s : Z) m : Res (nat * Z * Z * M) :=
  if (8 <=? n)%nat then
    match fuel with
    | O => Err Undefined
    | S fuel => '(w, m) ← ld_word s m; m ← st_word d w m; copy_words fuel (n - 8) (d + 8) (s + 8) m
    end
  else Ok (n, d, s, m).

(** [while (n--) *d++ = *s++] *)
Fixpoint copy_tail (n : nat) (d s : Z) m : Res M :=
  match n with
  | O => Ok m
  | S n => '(c, m) ← ld s 1 m; m ← st d 1 c m; copy_tail n (d + 1) (s + 1) m
  end.

(** [while (n--) *--d = *--s] *)
Fixpoint copy_back (n : nat) (d s : Z) m : Res M :=
  match n with
  | O => Ok m
  | S n => '(c, m) ← ld (s - 1) 1 m; m ← st (d - 1) 1 c m; copy_back n (d - 1) (s - 1) m
  end.

(** The forward copy that [memmove] and [memcpy] share. *)
Definition copy_forward (n : nat) (d s : Z) m : Res M :=
  '(n, d, s, m) ← copy_head n d s m;
  '(n, d, s, m) ← (if negb (unaligned s) then copy_words n n d s m else Ok (n, d, s, m));
  copy_tail n d s m.

Definition memmove (dst src : Z) (n : nat) m : Res (Z * M) :=
  if (dst =? src) || (n =? 0)%nat then Ok (dst, m)
  else if (dst <? src) || (src + Z.of_nat n <=? dst) then
    m ← copy_forward n dst src m; Ok (dst, m)
  else
    m ← copy_back n (dst + Z.of_nat n) (src + Z.of_nat n) m; Ok (dst, m).

Definition memcpy (out inp : Z) (n : nat) m : Res (Z * M) :=
  m ← copy_forward n out inp m; Ok (out, m).

Fixpoint memcmp_loop (rest : nat) (s1 s2 i : Z) m : Res (Z * M) :=
  match rest with
  | O => Ok (0, m)
  | S rest =>
      '(a, m) ← ld (s1 + i) 1 m;
      '(b, m) ← ld (s2 + i) 1 m;
      if a =? b then memcmp_loop rest s1 s2 (i + 1) m else char_diff s1 s2 i m
  end.

Definition memcmp (s1 s2 : Z) (n : nat) m : Res (Z * M) := memcmp_loop n s1 s2 0 m.
End Model.

(** ** Reference definitions *)

(** [n] bytes at [s] set to [c]; [n] bytes moved from [s] to [d], all read
    before the first is written. *)
Definition fill_view (f : Z -> Z) (s n c x : Z) : Z := if within s n x then c else f x.
Definition move_view (f : Z -> Z) (d s n x : Z) : Z := if within d n x then f (s + (x - d)) else f x.

Lemma fill_chain f d k n c x : 0 <= k -> 0 <= n ->
  fill_view (fill_view f d k c) (d + k) n c x = fill_view f d (k + n) c x.
Proof.
  intros Hk Hn. unfold fill_view.
  by destruct (within_spec (d + k) n x), (within_spec d (k + n) x), (within_spec d k x); try lia.
Qed.

Lemma move_chain f d s k n x : d <= s \/ s + (k + n) <= d -> 0 <= k -> 0 <= n ->
  move_view (move_view f d s k) (d + k) (s + k) n x = move_view f d s (k + n) x.
Proof.
  intros Hds Hk Hn. unfold move_view.
  destruct (within_spec (d + k) n x), (within_spec d (k + n) x), (within_spec d k x),
    (within_spec d k (s + k + (x - (d + k)))); try lia; try done. f_equal. lia.
Qed.

(** From the top down, with the destination above the source. *)
Lemma move_chain_back f d s n x : s <= d -> 0 <= n ->
  move_view (move_view f (d + n) (s + n) 1) d s n x = move_view f d s (n + 1) x.
Proof.
  intros Hds Hn. unfold move_view.
  destruct (within_spec d n x), (within_spec d (n + 1) x), (within_spec (d + n) 1 x),
    (within_spec (d + n) 1 (s + (x - d))); try lia; try done; f_equal; lia.
Qed.

Lemma move_zero f d s x : move_view f d s 0 x = f x.
Proof. unfold move_view. by destruct (within_spec d 0 x); [lia |]. Qed.

Lemma fill_zero f d c x : fill_view f d 0 c x = f x.
Proof. unfold fill_view. by destruct (within_spec d 0 x); [lia |]. Qed.

Lemma put_one_fill f a c x : put_view f a [c] x = fill_view f a 1 c x.
Proof.
  unfold put_view, fill_view. cbn [length]. change (Z.of_nat 1) with 1.
  destruct (within_spec a 1 x); [| done]. by replace (x - a) with 0 by lia.
Qed.

Lemma put_move f d s n x : put_view f d (view_bytes f s n) x = move_view f d s (Z.of_nat n) x.
Proof.
  unfold put_view, move_view. rewrite length_view_bytes.
  destruct (within_spec d (Z.of_nat n) x); [| done]. by rewrite arr_view_bytes by lia.
Qed.

Lemma put_replicate f a n c x : put_view f a (replicate n c) x = fill_view f a (Z.of_nat n) c x.
Proof.
  unfold put_view, fill_view. rewrite length_replicate.
  destruct (within_spec a (Z.of_nat n) x); [| done]. by rewrite arr_replicate by lia.
Qed.

(** Eight copies of a byte in a word. *)
Lemma splat_bytes b : is_byte b -> le_bytes 8 (wrap64 (b * 0x0101010101010101)) = replicate 8 b.
Proof.
  intros Hb. assert (E : wrap64 (b * 0x0101010101010101) = le_word (replicate 8 b)).
  { rewrite wrap64_small by (unfold is_byte, is_word in *; lia). cbn [replicate le_word]. lia. }
  rewrite E. apply (le_bytes_word (replicate 8 b)). by apply Forall_replicate.
Qed.

Lemma aligned_mod p : Z.land p 7 = p mod 8.
Proof. change 7 with (2 ^ 3 - 1). by rewrite land_ones_mod by lia. Qed.

Lemma aligned_step p : Z.land p 7 = 0 -> Z.land (p + 8) 7 = 0.
Proof.
  rewrite !aligned_mod. intros E. replace (p + 8) with (p + 1 * 8) by lia. by rewrite Z.mod_add by lia.
Qed.

Lemma unaligned_false p : unaligned p = false <-> Z.land p 7 = 0.
Proof. unfold unaligned. rewrite negb_false_iff. apply Z.eqb_eq. Qed.

Section Memory.
Context {M : Type} `{GuestLaws M}.
Implicit Types (m : M) (f : Z -> Z) (n : nat).

(** One byte stored. *)
Lemma st_fill m0 m f d b : settles m0 m f -> plain d -> is_byte b ->
  exists m', st d 1 b m = Ok m' /\ settles m0 m' (fill_view f d 1 b).
Proof.
  intros Hs Hd Hb. destruct (st_byte_view m0 m f d b Hs Hd) as (m' & E & Hs').
  exists m'. split; [done |]. eapply settles_ext; [done |]. intros x _.
  rewrite Z.mod_small by done. apply put_one_fill.
Qed.

(** One byte moved. *)
Lemma move_one m0 m f d s : settles m0 m f -> plain d -> plain s ->
  exists m1 m', ld s 1 m = Ok (f s, m1) /\ st d 1 (f s) m1 = Ok m' /\
    settles m0 m' (move_view f d s 1).
Proof.
  intros Hs Hd Hsrc. destruct (ld_byte_view m0 m f s Hs Hsrc) as (m1 & E1 & Hs1).
  destruct (st_fill m0 m1 f d (f s) Hs1 Hd) as (m' & E2 & Hs2); [by eapply view_byte |].
  exists m1, m'. split; [done |]. split; [done |]. eapply settles_ext; [done |].
  intros x _. unfold fill_view, move_view. destruct (within_spec d 1 x); [| done]. f_equal. lia.
Qed.

(** One word moved. *)
Lemma move_word m0 m f d s : settles m0 m f -> Z.land d 7 = 0 -> Z.land s 7 = 0 ->
  plain_range d 8 -> plain_range s 8 ->
  exists m1 w m', ld_word s m = Ok (w, m1) /\ st_word d w m1 = Ok m' /\
    settles m0 m' (move_view f d s 8).
Proof.
  intros Hs Ad As Hd Hsrc. destruct (ld_word_view m0 m f s Hs As Hsrc) as (m1 & E1 & Hs1).
  destruct (st_word_view m0 m1 f d (le_word (view_bytes f s 8)) Hs1 Ad Hd) as (m' & E2 & Hs2).
  exists m1, (le_word (view_bytes f s 8)), m'. split; [done |]. split; [done |].
  eapply settles_ext; [done |]. intros x _.
  replace (le_bytes 8 (le_word (view_bytes f s 8))) with (view_bytes f s 8); [apply put_move |].
  symmetry. replace 8%nat with (length (view_bytes f s 8)) at 1 by apply length_view_bytes.
  apply le_bytes_word. by eapply view_bytes_byte.
Qed.

(** *** memset *)

Lemma memset_head_ok n m0 m f d b : settles m0 m f -> plain_range d (Z.of_nat n) -> is_byte b ->
  exists n' m', memset_head n d b m = Ok (n', d + Z.of_nat (n - n'), m') /\ (n' <= n)%nat /\
    (n' = O \/ Z.land (d + Z.of_nat (n - n')) 7 = 0) /\
    settles m0 m' (fill_view f d (Z.of_nat (n - n')) b).
Proof.
  revert m f d. induction n as [|n IH]; intros m f d Hs Hp Hb; cbn [memset_head].
  - exists O, m. rewrite Z.add_0_r. split; [done |]. split; [done |]. split; [by left |].
    eapply settles_ext; [done |]. intros x _. symmetry. apply fill_zero.
  - destruct (unaligned d) eqn:Ea.
    + destruct (st_fill m0 m f d b Hs) as (m1 & E1 & Hs1); [in_plain | done |].
      rewrite E1. cbn [mbind Res_bind].
      destruct (IH m1 (fill_view f d 1 b) (d + 1)) as (n' & m' & E & Hle & Hal & Hs'); [done | | done |].
      { in_plain. }
      exists n', m'. replace (d + Z.of_nat (S n - n')) with (d + 1 + Z.of_nat (n - n')) by lia.
      split; [done |]. split; [lia |]. split; [done |].
      eapply settles_ext; [done |]. intros x _. rewrite fill_chain by lia. f_equal. lia.
    + exists (S n), m. rewrite Nat.sub_diag, Z.add_0_r. split; [done |]. split; [done |].
      split; [right; by apply unaligned_false |].
      eapply settles_ext; [done |]. intros x _. symmetry. apply fill_zero.
Qed.

Lemma memset_words_ok k m0 m f d b : settles m0 m f -> Z.land d 7 = 0 ->
  plain_range d (8 * Z.of_nat k) -> is_byte b ->
  runs m0 (memset_words k d (wrap64 (b * 0x0101010101010101)) m) (fill_view f d (8 * Z.of_nat k) b).
Proof.
  intros Hs Ha Hp Hb. revert m f d Hs Ha Hp.
  induction k as [|k IH]; intros m f d Hs Ha Hp; cbn [memset_words].
  - apply runs_ret. eapply settles_ext; [done |]. intros x _. symmetry. apply fill_zero.
  - destruct (st_word_view m0 m f d (wrap64 (b * 0x0101010101010101)) Hs Ha) as (m1 & -> & Hs1).
    { in_plain. }
    cbn [mbind Res_bind]. eapply runs_ext.
    + apply (IH m1 (fill_view f d 8 b) (d + 8)); [| by apply aligned_step |].
      * eapply settles_ext; [done |]. intros x _. rewrite splat_bytes by done. apply put_replicate.
      * in_plain.
    + intros x _. rewrite fill_chain by lia. f_equal. lia.
Qed.

Lemma memset_tail_ok n m0 m f d b : settles m0 m f -> plain_range d (Z.of_nat n) -> is_byte b ->
  runs m0 (memset_tail n d b m) (fill_view f d (Z.of_nat n) b).
Proof.
  intros Hs Hp Hb. revert m f d Hs Hp. induction n as [|n IH]; intros m f d Hs Hp; cbn [memset_tail].
  - apply runs_ret. eapply settles_ext; [done |]. intros x _. symmetry. apply fill_zero.
  - destruct (st_fill m0 m f d b Hs) as (m1 & -> & Hs1); [in_plain | done |].
    cbn [mbind Res_bind]. eapply runs_ext.
    + apply (IH m1 (fill_view f d 1 b) (d + 1)); [done |]. in_plain.
    + intros x _. rewrite fill_chain by lia. f_equal. lia.
Qed.

(** The middle part: whole words while there are any. *)
Lemma words_split (n : Z) : 0 <= n ->
  Z.to_nat (Z.shiftr n 3) = Z.to_nat (n / 8) /\ Z.shiftl (Z.shiftr n 3) 3 = 8 * (n / 8) /\
  Z.land n 7 = n mod 8 /\ n = 8 * (n / 8) + n mod 8 /\ 0 <= n mod 8 < 8 /\ 0 <= n / 8.
Proof.
  intros Hn. rewrite Z.shiftl_mul_pow2, Z.shiftr_div_pow2, aligned_mod by lia.
  change (2 ^ 3) with 8. pose proof (Z.div_mod n 8 ltac:(lia)). pose proof (Z.mod_pos_bound n 8 ltac:(lia)).
  pose proof (Z.div_pos n 8 ltac:(lia)). lia.
Qed.

(** *** Copies *)

(** Forward: the source is not below the destination, or the ranges do not meet. *)
Definition forward_ok (d s : Z) (n : nat) : Prop := d <= s \/ s + Z.of_nat n <= d.

Lemma copy_head_ok n m0 m f d s : settles m0 m f -> plain_range d (Z.of_nat n) ->
  plain_range s (Z.of_nat n) -> forward_ok d s n ->
  exists n' m', copy_head n d s m = Ok (n', d + Z.of_nat (n - n'), s + Z.of_nat (n - n'), m') /\
    (n' <= n)%nat /\ (n' = O \/ Z.land (d + Z.of_nat (n - n')) 7 = 0) /\
    settles m0 m' (move_view f d s (Z.of_nat (n - n'))).
Proof.
  revert m f d s. induction n as [|n IH]; intros m f d s Hs Hd Hsrc Hf; cbn [copy_head].
  - exists O, m. rewrite !Z.add_0_r. split; [done |]. split; [done |]. split; [by left |].
    eapply settles_ext; [done |]. intros x _. symmetry. apply move_zero.
  - destruct (unaligned d) eqn:Ea.
    + destruct (move_one m0 m f d s Hs) as (m1 & m2 & -> & E2 & Hs2);
        [in_plain .. |].
      cbn [mbind Res_bind]. rewrite E2. cbn [mbind Res_bind].
      destruct (IH m2 (move_view f d s 1) (d + 1) (s + 1)) as (n' & m' & E & Hle & Hal & Hs');
        [done | in_plain .. | unfold forward_ok in *; lia |].
      exists n', m'. replace (d + Z.of_nat (S n - n')) with (d + 1 + Z.of_nat (n - n')) by lia.
      replace (s + Z.of_nat (S n - n')) with (s + 1 + Z.of_nat (n - n')) by lia.
      split; [done |]. split; [lia |]. split; [done |].
      eapply settles_ext; [done |]. intros x _.
      rewrite move_chain by (unfold forward_ok in *; lia). f_equal. lia.
    + exists (S n), m. rewrite Nat.sub_diag, !Z.add_0_r. split; [done |]. split; [done |].
      split; [right; by apply unaligned_false |].
      eapply settles_ext; [done |]. intros x _. symmetry. apply move_zero.
Qed.

Lemma copy_words_ok fuel n m0 m f d s : (n <= 8 * fuel + 7)%nat -> settles m0 m f ->
  plain_range d (Z.of_nat n) -> plain_range s (Z.of_nat n) -> forward_ok d s n ->
  (n = O \/ Z.land d 7 = 0) -> Z.land s 7 = 0 ->
  exists n' m', copy_words fuel n d s m = Ok (n', d + Z.of_nat (n - n'), s + Z.of_nat (n - n'), m') /\
    (n' <= n)%nat /\ settles m0 m' (move_view f d s (Z.of_nat (n - n'))).
Proof.
  revert n m f d s. induction fuel as [|fuel IH]; intros n m f d s Hfuel Hs Hd Hsrc Hf Ad As;
    cbn [copy_words]; destruct (Nat.leb_spec 8 n) as [H8|H8]; try lia.
  2: {
    destruct (move_word m0 m f d s Hs) as (m1 & w & m2 & -> & E2 & Hs2);
      [destruct Ad; [lia | done] | done | in_plain .. |].
    cbn [mbind Res_bind]. rewrite E2. cbn [mbind Res_bind].
    destruct (IH (n - 8)%nat m2 (move_view f d s 8) (d + 8) (s + 8)) as (n' & m' & E & Hle & Hs');
      [lia | done | in_plain .. | unfold forward_ok in *; lia | |
       by apply aligned_step |].
    { right. apply aligned_step. destruct Ad; [lia | done]. }
    exists n', m'. replace (d + Z.of_nat (n - n')) with (d + 8 + Z.of_nat (n - 8 - n')) by lia.
    replace (s + Z.of_nat (n - n')) with (s + 8 + Z.of_nat (n - 8 - n')) by lia.
    split; [done |]. split; [lia |]. eapply settles_ext; [done |]. intros x _.
    rewrite move_chain by (unfold forward_ok in *; lia). f_equal. lia. }
  all: exists n, m; rewrite Nat.sub_diag, !Z.add_0_r; split; [done |]; split; [done |];
    eapply settles_ext; [done |]; intros x _; symmetry; apply move_zero.
Qed.

Lemma copy_tail_ok n m0 m f d s : settles m0 m f -> plain_range d (Z.of_nat n) ->
  plain_range s (Z.of_nat n) -> forward_ok d s n ->
  runs m0 (copy_tail n d s m) (move_view f d s (Z.of_nat n)).
Proof.
  revert m f d s. induction n as [|n IH]; intros m f d s Hs Hd Hsrc Hf; cbn [copy_tail].
  - apply runs_ret. eapply settles_ext; [done |]. intros x _. symmetry. apply move_zero.
  - destruct (move_one m0 m f d s Hs) as (m1 & m2 & -> & E2 & Hs2);
      [in_plain .. |].
    cbn [mbind Res_bind]. rewrite E2. cbn [mbind Res_bind]. eapply runs_ext.
    + apply (IH m2 (move_view f d s 1) (d + 1) (s + 1)); [done | | | unfold forward_ok in *; lia];
        in_plain.
    + intros x _. rewrite move_chain by (unfold forward_ok in *; lia). f_equal. lia.
Qed.

Lemma copy_back_ok n m0 m f d s : settles m0 m f -> plain_range d (Z.of_nat n) ->
  plain_range s (Z.of_nat n) -> s <= d ->
  runs m0 (copy_back n (d + Z.of_nat n) (s + Z.of_nat n) m) (move_view f d s (Z.of_nat n)).
Proof.
  revert m f. induction n as [|n IH]; intros m f Hs Hd Hsrc Hle; cbn [copy_back].
  - apply runs_ret. eapply settles_ext; [done |]. intros x _. symmetry. apply move_zero.
  - replace (d + Z.of_nat (S n) - 1) with (d + Z.of_nat n) by lia.
    replace (s + Z.of_nat (S n) - 1) with (s + Z.of_nat n) by lia.
    destruct (move_one m0 m f (d + Z.of_nat n) (s + Z.of_nat n) Hs) as (m1 & m2 & -> & E2 & Hs2);
      [in_plain .. |].
    cbn [mbind Res_bind]. rewrite E2. cbn [mbind Res_bind]. eapply runs_ext.
    + apply (IH m2 (move_view f (d + Z.of_nat n) (s + Z.of_nat n) 1)); [done | | | done];
        in_plain.
    + intros x _. rewrite move_chain_back by lia. f_equal. lia.
Qed.

Lemma copy_forward_ok n m0 m f d s : settles m0 m f -> plain_range d (Z.of_nat n) ->
  plain_range s (Z.of_nat n) -> forward_ok d s n ->
  runs m0 (copy_forward n d s m) (move_view f d s (Z.of_nat n)).
Proof.
  intros Hs Hd Hsrc Hf. unfold copy_forward.
  destruct (copy_head_ok n m0 m f d s Hs Hd Hsrc Hf) as (n1 & m1 & -> & Hle1 & Hal & Hs1).
  cbn [mbind Res_bind]. set (k := Z.of_nat (n - n1)) in *.
  assert (exists n2 m2, (if negb (unaligned (s + k)) then copy_words n1 n1 (d + k) (s + k) m1
      else Ok (n1, d + k, s + k, m1)) = Ok (n2, d + k + Z.of_nat (n1 - n2), s + k + Z.of_nat (n1 - n2), m2) /\
      (n2 <= n1)%nat /\ settles m0 m2 (move_view (move_view f d s k) (d + k) (s + k) (Z.of_nat (n1 - n2))))
    as (n2 & m2 & -> & Hle2 & Hs2).
  { destruct (unaligned (s + k)) eqn:Ea; cbn [negb].
    - exists n1, m1. rewrite Nat.sub_diag, !Z.add_0_r. split; [done |]. split; [done |].
      eapply settles_ext; [done |]. intros x _. symmetry. apply move_zero.
    - apply copy_words_ok; [lia | done | in_plain .. |
        unfold forward_ok in *; lia | done | by apply unaligned_false]. }
  cbn [mbind Res_bind]. eapply runs_ext.
  - apply copy_tail_ok; [exact Hs2 | in_plain .. |
      unfold forward_ok in *; lia].
  - intros x _. unfold forward_ok in *. rewrite !move_chain by lia.
    replace (s + k + Z.of_nat (n1 - n2)) with (s + (k + Z.of_nat (n1 - n2))) by lia.
    f_equal. lia.
Qed.
End Memory.

(** ** Strings in memory

    [cstr f s l]: the bytes [f] hold at [s] the characters [l] and a NUL. *)

Definition cstr (f : Z -> Z) (s : Z) (l : list Z) : Prop :=
  Forall (fun c => c <> 0) l /\ view_bytes f s (S (length l)) = l ++ [0].

(** What [strcmp] computes: the difference of the first characters that differ,
    a NUL standing for the end. *)
Fixpoint lex_diff (l1 l2 : list Z) : Z :=
  match l1, l2 with
  | [], [] => 0
  | [], b :: _ => 0 - b
  | a :: _, [] => a - 0
  | a :: l1, b :: l2 => if a =? b then lex_diff l1 l2 else a - b
  end.

Lemma lex_diff_zero l1 l2 : Forall (fun c => c <> 0) l1 -> Forall (fun c => c <> 0) l2 ->
  lex_diff l1 l2 = 0 <-> l1 = l2.
Proof.
  intros H1. revert l2. induction H1 as [|a l1 Ha _ IH]; intros l2 H2; destruct H2 as [|b l2 Hb H2]; cbn.
  - done.
  - split; [lia | done].
  - split; [lia | done].
  - destruct (Z.eqb_spec a b) as [->|Hne]; [rewrite IH by done; split; congruence |].
    split; [lia | congruence].
Qed.

Lemma cstr_at f s l (i : Z) : cstr f s l -> 0 <= i <= Z.of_nat (length l) -> f (s + i) = arr (l ++ [0]) i.
Proof. intros [_ E] Hi. rewrite <- E, arr_view_bytes by lia. done. Qed.

Lemma arr_app_l (l k : list Z) i : 0 <= i < Z.of_nat (length l) -> arr (l ++ k) i = arr l i.
Proof. intros Hi. unfold arr. rewrite lookup_total_app_l by lia. done. Qed.

Lemma cstr_char f s l i : cstr f s l -> 0 <= i < Z.of_nat (length l) ->
  f (s + i) = arr l i /\ f (s + i) <> 0.
Proof.
  intros Hc Hi. rewrite (cstr_at f s l i Hc) by lia. rewrite arr_app_l by lia. split; [done |].
  apply (Forall_arr (fun c => c <> 0)); [apply Hc | done].
Qed.

Lemma cstr_end f s l : cstr f s l -> f (s + Z.of_nat (length l)) = 0.
Proof.
  intros Hc. rewrite (cstr_at f s l _ Hc) by lia. unfold arr. rewrite Nat2Z.id.
  by rewrite lookup_total_app_r, Nat.sub_diag by lia.
Qed.

Lemma cstr_intro f s l : Forall (fun c => c <> 0) l ->
  (forall i, 0 <= i < Z.of_nat (length l) -> f (s + i) = arr l i) ->
  f (s + Z.of_nat (length l)) = 0 -> cstr f s l.
Proof.
  intros Hl Hch Hend. split; [done |]. apply list_eq_arr.
  - rewrite length_view_bytes, length_app. cbn. lia.
  - rewrite length_view_bytes. intros i Hi. rewrite arr_view_bytes by done.
    destruct (decide (i < Z.of_nat (length l))) as [Hlt|Hge].
    + rewrite arr_app_l by lia. apply Hch. lia.
    + replace i with (Z.of_nat (length l)) by lia. rewrite Hend. unfold arr. rewrite Nat2Z.id.
      by rewrite lookup_total_app_r, Nat.sub_diag by lia.
Qed.

(** The rest of a string is a string. *)
Lemma cstr_cons f s c l : cstr f s (c :: l) <-> f s = c /\ c <> 0 /\ cstr f (s + 1) l.
Proof.
  unfold cstr. cbn [length app].
  change (view_bytes f s (S (S (length l)))) with (f s :: view_bytes f (s + 1) (S (length l))).
  rewrite Forall_cons. split.
  - intros [[Hc Hl] E]. injection E as E1 E2. done.
  - intros (<- & Hc & Hl & E). split; [done | by rewrite E].
Qed.

Lemma cstr_nil f s : cstr f s [] <-> f s = 0.
Proof.
  unfold cstr. change (view_bytes f s (S (length []))) with [f s]. cbn [app]. split.
  - intros [_ E]. by injection E.
  - intros ->. split; [by constructor | done].
Qed.

Section Strings.
Context {M : Type} `{GuestLaws M} (limit : nat).
Implicit Types (m : M) (f : Z -> Z) (n : nat) (l : list Z).

(** The range a string occupies, its NUL included. *)
Definition str_range (s : Z) (l : list Z) : Prop := plain_range s (Z.of_nat (length l) + 1).

(** Loops over a string go from [s + i] to the rest of it.  Reading is all
    [strlen] needs: [I] is any property that reading the string keeps. *)
Lemma strlen_loop_gen (I : M -> Prop) f fuel m s i l :
  (forall m a, I m -> s + i <= a <= s + i + Z.of_nat (length l) ->
     exists m', ld a 1 m = Ok (f a, m') /\ I m') ->
  I m -> cstr f (s + i) l -> (length l < fuel)%nat ->
  exists m', strlen_loop fuel s i m = Ok (i + Z.of_nat (length l), m') /\ I m'.
Proof.
  revert m i l. induction fuel as [|fuel IH]; intros m i l Hrd Hs Hc Hf; [lia |]. cbn [strlen_loop].
  destruct (Hrd m (s + i) Hs) as (m1 & -> & Hs1); [lia |]. cbn [mbind Res_bind].
  destruct l as [|c l].
  - apply cstr_nil in Hc as ->. exists m1. cbn. rewrite Z.add_0_r. done.
  - apply cstr_cons in Hc as (-> & Hne & Hc). destruct (Z.eqb_spec c 0); [done |].
    cbn [length] in *. destruct (IH m1 (i + 1) l) as (m' & -> & Hs'); [| done | | lia |].
    + intros m' a Hm' Ha. apply Hrd; [done | lia].
    + by rewrite Z.add_assoc.
    + exists m'. split; [| done]. do 2 f_equal. lia.
Qed.

Lemma strlen_loop_ok fuel m0 m f s i l : settles m0 m f -> cstr f (s + i) l ->
  str_range (s + i) l -> (length l < fuel)%nat ->
  exists m', strlen_loop fuel s i m = Ok (i + Z.of_nat (length l), m') /\ settles m0 m' f.
Proof.
  intros Hs Hc Hp Hf. unfold str_range in Hp.
  apply (strlen_loop_gen (fun m => settles m0 m f) f); [| done ..].
  intros m' a Hm' Ha. apply ld_byte_view; [done | in_plain].
Qed.

Lemma strlen_ok m0 m f s l : settles m0 m f -> cstr f s l -> str_range s l -> (length l < limit)%nat ->
  exists m', strlen limit s m = Ok (Z.of_nat (length l), m') /\ settles m0 m' f.
Proof.
  intros Hs Hc Hp Hl. unfold strlen. rewrite <- (Z.add_0_r s) in Hc, Hp.
  by apply (strlen_loop_ok limit m0 m f s 0 l).
Qed.

(** A character copied, as a whole-string copy sees it. *)
Lemma strcpy_loop_ok fuel m0 m f dst src i l : settles m0 m f -> cstr f (src + i) l ->
  str_range (src + i) l -> str_range (dst + i) l ->
  forward_ok (dst + i) (src + i) (S (length l)) -> (length l < fuel)%nat ->
  runs m0 (strcpy_loop fuel dst src i m) (move_view f (dst + i) (src + i) (Z.of_nat (length l) + 1)).
Proof.
  revert m f i l. induction fuel as [|fuel IH]; intros m f i l Hs Hc Hsrc Hdst Hf Hfuel; [lia |].
  cbn [strcpy_loop]. unfold str_range, forward_ok in *.
  destruct (move_one m0 m f (dst + i) (src + i) Hs) as (m1 & m2 & -> & E2 & Hs2); [in_plain | in_plain |].
  cbn [mbind Res_bind]. rewrite E2. cbn [mbind Res_bind].
  set (f2 := move_view f (dst + i) (src + i) 1) in *.
  destruct (ld_byte_view m0 m2 f2 (src + i) Hs2) as (m3 & -> & Hs3); [in_plain |]. cbn [mbind Res_bind].
  assert (Ef2 : f2 (src + i) = f (src + i)).
  { unfold f2, move_view. destruct (within_spec (dst + i) 1 (src + i)); [| done]. f_equal. lia. }
  rewrite Ef2. destruct l as [|c l].
  - apply cstr_nil in Hc. rewrite Hc. by apply runs_ret.
  - apply cstr_cons in Hc as (Ec & Hne & Hc). rewrite Ec. destruct (Z.eqb_spec c 0); [done |].
    cbn [length] in *. eapply runs_ext.
    + apply (IH m3 f2 (i + 1) l); [done | | in_plain | in_plain | lia | lia].
      destruct Hc as [Hc1 Hc2]. split; [done |]. rewrite <- Hc2, Z.add_assoc.
      apply view_bytes_ext. intros x Hx. unfold f2, move_view.
      destruct (within_spec (dst + i) 1 x); [| done]. exfalso. lia.
    + intros x _. unfold f2. rewrite !Z.add_assoc, move_chain by lia. f_equal. lia.
Qed.

Lemma char_diff_ok m0 m f s1 s2 i : settles m0 m f -> plain (s1 + i) -> plain (s2 + i) ->
  exists m', char_diff s1 s2 i m = Ok (f (s1 + i) - f (s2 + i), m') /\ settles m0 m' f.
Proof.
  intros Hs H1 H2. unfold char_diff.
  destruct (ld_byte_view m0 m f (s1 + i) Hs H1) as (m1 & -> & Hs1). cbn [mbind Res_bind].
  destruct (ld_byte_view m0 m1 f (s2 + i) Hs1 H2) as (m2 & -> & Hs2). cbn [mbind Res_bind]. by exists m2.
Qed.

(** [strcmp] and [strncmp] compare the strings; the latter looks one character
    further than it is asked to. *)
Lemma strcmp_loop_ok fuel m0 m f s1 s2 i l1 l2 : settles m0 m f ->
  cstr f (s1 + i) l1 -> cstr f (s2 + i) l2 -> str_range (s1 + i) l1 -> str_range (s2 + i) l2 ->
  (length l1 < fuel)%nat ->
  exists m', strcmp_loop fuel s1 s2 i m = Ok (lex_diff l1 l2, m') /\ settles m0 m' f.
Proof.
  revert m i l1 l2. induction fuel as [|fuel IH]; intros m i l1 l2 Hs H1 H2 R1 R2 Hf; [lia |].
  cbn [strcmp_loop]. unfold str_range in *.
  destruct (ld_byte_view m0 m f (s1 + i) Hs) as (m1 & -> & Hs1); [in_plain |]. cbn [mbind Res_bind].
  assert (Hd : forall m' d, settles m0 m' f -> f (s1 + i) - f (s2 + i) = d ->
    exists m'', char_diff s1 s2 i m' = Ok (d, m'') /\ settles m0 m'' f).
  { intros m' d Hs' <-. apply char_diff_ok; [done | in_plain | in_plain]. }
  destruct l1 as [|a l1].
  - apply cstr_nil in H1. rewrite H1. cbn [Z.eqb]. apply Hd; [done |]. rewrite H1. destruct l2 as [|b l2].
    + apply cstr_nil in H2. by rewrite H2.
    + apply cstr_cons in H2 as (-> & _). done.
  - apply cstr_cons in H1 as (E1 & Ha & H1). rewrite E1. destruct (Z.eqb_spec a 0); [done |].
    destruct (ld_byte_view m0 m1 f (s2 + i) Hs1) as (m2 & -> & Hs2); [in_plain |]. cbn [mbind Res_bind].
    destruct l2 as [|b l2].
    + apply cstr_nil in H2. rewrite H2. cbn [Z.eqb]. apply Hd; [done |]. by rewrite E1, H2.
    + apply cstr_cons in H2 as (E2 & Hb & H2). rewrite E2. destruct (Z.eqb_spec b 0); [done |].
      cbn [lex_diff length] in *. destruct (Z.eqb_spec a b) as [->|Hne]; [| apply Hd; [done | by rewrite E1, E2]].
      apply (IH m2 (i + 1) l1 l2); [done | by rewrite Z.add_assoc | by rewrite Z.add_assoc | | | lia];
        unfold str_range; in_plain.
Qed.

Lemma strncmp_loop_ok n m0 m f s1 s2 i l1 l2 : settles m0 m f ->
  cstr f (s1 + i) l1 -> cstr f (s2 + i) l2 -> str_range (s1 + i) l1 -> str_range (s2 + i) l2 ->
  exists m', strncmp_loop n s1 s2 i m = Ok (lex_diff (take (S n) l1) (take (S n) l2), m') /\ settles m0 m' f.
Proof.
  revert m i l1 l2. induction n as [|n IH]; intros m i l1 l2 Hs H1 H2 R1 R2;
    cbn [strncmp_loop]; unfold str_range in *.
  all: assert (Hd : forall m' d, settles m0 m' f -> f (s1 + i) - f (s2 + i) = d ->
      exists m'', char_diff s1 s2 i m' = Ok (d, m'') /\ settles m0 m'' f)
    by (intros m' d Hs' <-; apply char_diff_ok; [done | in_plain | in_plain]).
  - apply Hd; [done |]. destruct l1 as [|a l1]; [apply cstr_nil in H1 | apply cstr_cons in H1 as (H1 & _)];
      (destruct l2 as [|b l2]; [apply cstr_nil in H2 | apply cstr_cons in H2 as (H2 & _)]);
      rewrite H1, H2; cbn [firstn lex_diff]; try done.
    destruct (Z.eqb_spec a b); [subst; rewrite !take_0; cbn; lia | done].
  - destruct (ld_byte_view m0 m f (s1 + i) Hs) as (m1 & -> & Hs1); [in_plain |]. cbn [mbind Res_bind].
    destruct l1 as [|a l1].
    { apply cstr_nil in H1. rewrite H1. cbn [Z.eqb]. apply Hd; [done |]. rewrite H1. destruct l2 as [|b l2].
      - apply cstr_nil in H2. by rewrite H2.
      - apply cstr_cons in H2 as (-> & _). done. }
    apply cstr_cons in H1 as (E1 & Ha & H1). rewrite E1. destruct (Z.eqb_spec a 0); [done |].
    destruct (ld_byte_view m0 m1 f (s2 + i) Hs1) as (m2 & -> & Hs2); [in_plain |]. cbn [mbind Res_bind].
    destruct l2 as [|b l2].
    { apply cstr_nil in H2. rewrite H2. cbn [Z.eqb]. apply Hd; [done |]. by rewrite E1, H2. }
    apply cstr_cons in H2 as (E2 & Hb & H2). rewrite E2. destruct (Z.eqb_spec b 0); [done |].
    cbn [firstn lex_diff length] in *. destruct (Z.eqb_spec a b) as [->|Hne]; [| apply Hd; [done | by rewrite E1, E2]].
    apply (IH m2 (i + 1) l1 l2); [done | by rewrite Z.add_assoc | by rewrite Z.add_assoc | |];
      unfold str_range; in_plain.
Qed.

Lemma memcmp_loop_ok n m0 m f s1 s2 i : settles m0 m f ->
  plain_range (s1 + i) (Z.of_nat n) -> plain_range (s2 + i) (Z.of_nat n) ->
  exists r m', memcmp_loop n s1 s2 i m = Ok (r, m') /\ settles m0 m' f /\
    (r = 0 <-> view_bytes f (s1 + i) n = view_bytes f (s2 + i) n).
Proof.
  revert m i. induction n as [|n IH]; intros m i Hs R1 R2; cbn [memcmp_loop]; [by exists 0, m |].
  change (view_bytes f (s1 + i) (S n)) with (f (s1 + i) :: view_bytes f (s1 + i + 1) n).
  change (view_bytes f (s2 + i) (S n)) with (f (s2 + i) :: view_bytes f (s2 + i + 1) n).
  destruct (ld_byte_view m0 m f (s1 + i) Hs) as (m1 & -> & Hs1); [in_plain |]. cbn [mbind Res_bind].
  destruct (ld_byte_view m0 m1 f (s2 + i) Hs1) as (m2 & -> & Hs2); [in_plain |]. cbn [mbind Res_bind].
  destruct (Z.eqb_spec (f (s1 + i)) (f (s2 + i))) as [E|E].
  - rewrite E, <- !Z.add_assoc. destruct (IH m2 (i + 1)) as (r & m' & -> & Hs' & Hr); [done | in_plain | in_plain |].
    exists r, m'. split; [done |]. split; [done |]. rewrite Hr. split; congruence.
  - destruct (char_diff_ok m0 m2 f s1 s2 i) as (m3 & -> & Hs3); [done | in_plain | in_plain |].
    eexists _, m3. split; [done |]. split; [done |]. split; [intros; exfalso; lia | congruence].
Qed.

Lemma strcat_loop_ok fuel m0 m f dst src (n : Z) i l : settles m0 m f -> cstr f (src + i) l ->
  str_range (src + i) l -> plain_range (dst + n + i) (Z.of_nat (length l)) ->
  (dst + n + i <= src + i \/ src + i + Z.of_nat (length l) < dst + n + i) -> (length l < fuel)%nat ->
  exists m', strcat_loop fuel dst src n i m = Ok (i + Z.of_nat (length l), m') /\
    settles m0 m' (move_view f (dst + n + i) (src + i) (Z.of_nat (length l))).
Proof.
  revert m f i l. induction fuel as [|fuel IH]; intros m f i l Hs Hc Hsrc Hdst Hf Hfuel; [lia |].
  cbn [strcat_loop]. unfold str_range in *.
  destruct (ld_byte_view m0 m f (src + i) Hs) as (m1 & -> & Hs1); [in_plain |]. cbn [mbind Res_bind].
  destruct l as [|c l].
  - apply cstr_nil in Hc as ->. exists m1. cbn. rewrite Z.add_0_r. split; [done |].
    eapply settles_ext; [done |]. intros x _. symmetry. apply move_zero.
  - apply cstr_cons in Hc as (Ec & Hne & Hc). rewrite Ec. destruct (Z.eqb_spec c 0); [done |].
    cbn [length] in *.
    destruct (move_one m0 m1 f (dst + n + i) (src + i) Hs1) as (m2 & m3 & -> & E2 & Hs3); [in_plain | in_plain |].
    cbn [mbind Res_bind]. rewrite E2. cbn [mbind Res_bind].
    destruct (IH m3 (move_view f (dst + n + i) (src + i) 1) (i + 1) l) as (m' & -> & Hs');
      [done | | in_plain | in_plain | lia | lia |].
    + destruct Hc as [Hc1 Hc2]. split; [done |]. rewrite <- Hc2, Z.add_assoc.
      apply view_bytes_ext. intros x Hx. unfold move_view.
      destruct (within_spec (dst + n + i) 1 x); [| done]. exfalso. lia.
    + exists m'. split; [do 2 f_equal; lia |]. eapply settles_ext; [done |].
      intros x _. rewrite !Z.add_assoc, move_chain by lia. f_equal. lia.
Qed.

Lemma strncpy_copy_ok n m0 m f dst src i l : settles m0 m f -> cstr f (src + i) l ->
  str_range (src + i) l -> plain_range (dst + i) (Z.of_nat n) ->
  (dst + i + Z.of_nat n <= src + i \/ src + i + Z.of_nat (length l) < dst + i) ->
  let k := (n `min` length l)%nat in
  exists m', strncpy_copy n dst src i m = Ok ((n - k)%nat, i + Z.of_nat k, m') /\
    settles m0 m' (move_view f (dst + i) (src + i) (Z.of_nat k)).
Proof.
  revert m f i l. induction n as [|n IH]; intros m f i l Hs Hc Hsrc Hdst Hf; cbn [strncpy_copy].
  { exists m. cbn. rewrite Z.add_0_r. split; [done |].
    eapply settles_ext; [done |]. intros x _. symmetry. apply move_zero. }
  unfold str_range in *.
  destruct (ld_byte_view m0 m f (src + i) Hs) as (m1 & -> & Hs1); [in_plain |]. cbn [mbind Res_bind].
  destruct l as [|c l].
  - apply cstr_nil in Hc as ->. exists m1. cbn. rewrite Z.add_0_r. split; [done |].
    eapply settles_ext; [done |]. intros x _. symmetry. apply move_zero.
  - apply cstr_cons in Hc as (Ec & Hne & Hc). rewrite Ec. destruct (Z.eqb_spec c 0); [done |].
    cbn [length] in *.
    destruct (move_one m0 m1 f (dst + i) (src + i) Hs1) as (m2 & m3 & -> & E2 & Hs3); [in_plain | in_plain |].
    cbn [mbind Res_bind]. rewrite E2. cbn [mbind Res_bind].
    destruct (IH m3 (move_view f (dst + i) (src + i) 1) (i + 1) l) as (m' & -> & Hs');
      [done | | in_plain | in_plain | lia |].
    + destruct Hc as [Hc1 Hc2]. split; [done |]. rewrite <- Hc2, Z.add_assoc.
      apply view_bytes_ext. intros x Hx. unfold move_view.
      destruct (within_spec (dst + i) 1 x); [| done]. exfalso. lia.
    + exists m'. split; [do 3 f_equal; lia |]. eapply settles_ext; [done |].
      intros x _. rewrite !Z.add_assoc, move_chain by lia. f_equal. lia.
Qed.

Lemma strncpy_pad_ok n m0 m f dst i : settles m0 m f -> plain_range (dst + i) (Z.of_nat n) ->
  exists m', strncpy_pad n dst i m = Ok (i + Z.of_nat n, m') /\
    settles m0 m' (fill_view f (dst + i) (Z.of_nat n) 0).
Proof.
  revert m f i. induction n as [|n IH]; intros m f i Hs Hp; cbn [strncpy_pad].
  - exists m. rewrite Z.add_0_r. split; [done |].
    eapply settles_ext; [done |]. intros x _. symmetry. apply fill_zero.
  - destruct (st_fill m0 m f (dst + i) 0 Hs) as (m1 & -> & Hs1); [in_plain | unfold is_byte; lia |].
    cbn [mbind Res_bind].
    destruct (IH m1 (fill_view f (dst + i) 1 0) (i + 1)) as (m' & -> & Hs'); [done | in_plain |].
    exists m'. split; [do 2 f_equal; lia |]. eapply settles_ext; [done |]. intros x _.
    rewrite Z.add_assoc, fill_chain by lia. f_equal. lia.
Qed.
Lemma strcpy_ok dst src l m : g_inv m -> cstr (byte_at m) src l -> str_range src l -> str_range dst l ->
  (length l < limit)%nat -> forward_ok dst src (S (length l)) ->
  exists m', strcpy limit dst src m = Ok (dst, m') /\
    settles m m' (move_view (byte_at m) dst src (Z.of_nat (length l) + 1)).
Proof.
  intros Hm Hc Rs Rd Hl Hf. unfold strcpy.
  destruct (strcpy_loop_ok limit m m (byte_at m) dst src 0 l) as (m' & -> & Hs');
    [by apply settles_refl | by rewrite ?Z.add_0_r .. | lia |].
  exists m'. by rewrite !Z.add_0_r in Hs'.
Qed.

(** What a string followed by a moved string looks like. *)
Lemma cstr_append f f' dst src l1 l2 : cstr f dst l1 -> cstr f src l2 ->
  (forall x, dst <= x <= dst + Z.of_nat (length l1 + length l2) ->
     f' x = move_view f (dst + Z.of_nat (length l1)) src (Z.of_nat (length l2) + 1) x) ->
  cstr f' dst (l1 ++ l2).
Proof.
  intros Hc1 Hc Hf. set (n1 := Z.of_nat (length l1)) in *. apply cstr_intro.
  - apply Forall_app. split; [apply Hc1 | apply Hc].
  - rewrite length_app. intros i Hi. rewrite Hf by lia. unfold move_view.
    destruct (within_spec (dst + n1) (Z.of_nat (length l2) + 1) (dst + i)).
    + replace (src + (dst + i - (dst + n1))) with (src + (i - n1)) by lia.
      destruct (cstr_char _ _ _ (i - n1) Hc) as [-> _]; [lia |]. unfold arr.
      rewrite lookup_total_app_r by lia. f_equal. lia.
    + destruct (cstr_char _ _ _ i Hc1) as [-> _]; [lia |]. by rewrite arr_app_l by lia.
  - rewrite length_app, Hf by lia. unfold move_view.
    destruct (within_spec (dst + n1) (Z.of_nat (length l2) + 1) (dst + Z.of_nat (length l1 + length l2))); [| lia].
    rewrite <- (cstr_end _ _ _ Hc). f_equal. lia.
Qed.

Lemma strcat_ok dst src l1 l2 m : g_inv m -> cstr (byte_at m) dst l1 -> cstr (byte_at m) src l2 ->
  str_range src l2 -> str_range dst (l1 ++ l2) -> (length l1 < limit)%nat -> (length l2 < limit)%nat ->
  dst + Z.of_nat (length l1 + length l2) < src \/ src + Z.of_nat (length l2) < dst ->
  exists m', strcat limit dst src m = Ok (dst, m') /\ cstr (byte_at m') dst (l1 ++ l2) /\
    settles m m' (move_view (byte_at m) (dst + Z.of_nat (length l1)) src (Z.of_nat (length l2) + 1)).
Proof.
  intros Hm Hc1 Hc Rs Rd Hl1 Hl2 Hdis. unfold strcat, str_range in *. rewrite length_app in Rd.
  destruct (strlen_loop_ok limit m m (byte_at m) dst 0 l1) as (m1 & -> & Hs1);
    [by apply settles_refl | by rewrite Z.add_0_r | unfold str_range; in_plain | lia |]. cbn [mbind Res_bind].
  set (n1 := Z.of_nat (length l1)) in *. rewrite Z.add_0_l.
  destruct (strcat_loop_ok limit m m1 (byte_at m) dst src n1 0 l2) as (m2 & -> & Hs2);
    [done | by rewrite Z.add_0_r | unfold str_range; in_plain | in_plain | lia | lia |]. cbn [mbind Res_bind].
  rewrite !Z.add_0_l, !Z.add_0_r in *.
  destruct (st_fill m m2 _ (dst + n1 + Z.of_nat (length l2)) 0 Hs2) as (m3 & -> & Hs3);
    [in_plain | unfold is_byte; lia |]. cbn [mbind Res_bind].
  exists m3. split; [done |].
  assert (Hs4 : settles m m3 (move_view (byte_at m) (dst + n1) src (Z.of_nat (length l2) + 1))).
  { eapply settles_ext; [done |]. intros x _. unfold fill_view, move_view.
    destruct (within_spec (dst + n1 + Z.of_nat (length l2)) 1 x), (within_spec (dst + n1) (Z.of_nat (length l2) + 1) x),
      (within_spec (dst + n1) (Z.of_nat (length l2)) x); try lia; try done.
    rewrite <- (cstr_end _ _ _ Hc). f_equal. lia. }
  split; [| done]. eapply cstr_append; [done | exact Hc |]. intros x Hx. apply Hs4. in_plain.
Qed.

Lemma strncpy_ok dst src l n m : g_inv m -> cstr (byte_at m) src l -> str_range src l ->
  plain_range dst (Z.of_nat n) ->
  dst + Z.of_nat n <= src \/ src + Z.of_nat (length l) < dst ->
  let k := ((n - 1) `min` length l)%nat in
  exists m', strncpy dst src n m = Ok (dst, m') /\
    settles m m' (fill_view (move_view (byte_at m) dst src (Z.of_nat k)) (dst + Z.of_nat k) (Z.of_nat (n - k)) 0).
Proof.
  intros Hm Hc Rs Rd Hdis k. unfold strncpy.
  destruct (strncpy_copy_ok n m m (byte_at m) dst src 0 l) as (m1 & -> & Hs1);
    [by apply settles_refl | by rewrite ?Z.add_0_r .. | lia |]. cbn [mbind Res_bind].
  set (k1 := (n `min` length l)%nat) in *.
  destruct (strncpy_pad_ok (n - k1) m m1 _ dst (0 + Z.of_nat k1) Hs1) as (m2 & -> & Hs2); [in_plain |].
  cbn [mbind Res_bind]. rewrite !Z.add_0_l, !Z.add_0_r in *.
  assert (exists m3, (if (0 <? n)%nat then st (dst + (Z.of_nat k1 + Z.of_nat (n - k1)) - 1) 1 0 m2 else Ok m2) = Ok m3 /\
    settles m m3 (fill_view (move_view (byte_at m) dst src (Z.of_nat k)) (dst + Z.of_nat k) (Z.of_nat (n - k)) 0))
    as (m3 & E3 & Hs3).
  { destruct (Nat.ltb_spec 0 n) as [Hn|Hn].
    - destruct (st_fill m m2 _ (dst + (Z.of_nat k1 + Z.of_nat (n - k1)) - 1) 0 Hs2) as (m3 & -> & Hs3);
        [in_plain | unfold is_byte; lia |].
      exists m3. split; [done |]. eapply settles_ext; [done |]. intros x _. unfold fill_view, move_view.
      by repeat match goal with |- context [within ?a ?b x] => destruct (within_spec a b x) end; try lia.
    - exists m2. split; [done |]. eapply settles_ext; [done |]. intros x _. unfold fill_view, move_view.
      by repeat match goal with |- context [within ?a ?b x] => destruct (within_spec a b x) end; try lia. }
  rewrite E3. by exists m3.
Qed.
End Strings.

(** ** Properties *)

Section Properties.
Context {M : Type} `{GuestLaws M}.
Implicit Types (m : M).

(** C21. [memmove] and [memcpy] are the byte-wise copy.  For ranges of plain
    memory, however they overlap and whatever their alignment, [memmove] returns
    [dst] and leaves at [dst] the [n] bytes that were at [src] before the call,
    every other byte unchanged; the words it moves are aligned.  [memcpy] does
    the same whenever the destination starts at or below the source or the two
    ranges do not meet. *)
Theorem memmove_correct dst src n m : g_inv m ->
  plain_range dst (Z.of_nat n) -> plain_range src (Z.of_nat n) ->
  (exists m', memmove dst src n m = Ok (dst, m') /\
     settles m m' (move_view (byte_at m) dst src (Z.of_nat n))) /\
  (dst <= src \/ src + Z.of_nat n <= dst ->
   exists m', memcpy dst src n m = Ok (dst, m') /\
     settles m m' (move_view (byte_at m) dst src (Z.of_nat n))).
Proof.
  intros Hm Hd Hs. pose proof (settles_refl m Hm) as H0m. split.
  - unfold memmove. destruct (Z.eqb_spec dst src) as [->|Hne]; cbn [orb].
    { exists m. split; [done |]. eapply settles_ext; [done |]. intros x _. unfold move_view.
      destruct (within_spec src (Z.of_nat n) x); [f_equal; lia | done]. }
    destruct (Nat.eqb_spec n 0) as [->|Hn]; cbn [orb].
    { exists m. split; [done |]. eapply settles_ext; [done |]. intros x _. symmetry. apply move_zero. }
    case_if; zify_bool.
    + destruct (copy_forward_ok n m m (byte_at m) dst src H0m Hd Hs) as (m' & -> & Hs');
        [unfold forward_ok; lia |]. by exists m'.
    + destruct (copy_back_ok n m m (byte_at m) dst src H0m Hd Hs) as (m' & -> & Hs'); [lia |]. by exists m'.
  - intros Hf. unfold memcpy.
    destruct (copy_forward_ok n m m (byte_at m) dst src H0m Hd Hs Hf) as (m' & -> & Hs'). by exists m'.
Qed.

(** [memset] is the byte-wise fill.  On a range of plain memory of any
    alignment and length it returns [s] and leaves the low byte of [c] in each of
    the [n] bytes at [s] and every other byte unchanged; the words it stores are
    aligned. *)
Theorem memset_correct s c n m : g_inv m -> plain_range s (Z.of_nat n) ->
  exists m', memset s c n m = Ok (s, m') /\
    settles m m' (fill_view (byte_at m) s (Z.of_nat n) (c mod 256)).
Proof.
  intros Hm Hp. unfold memset. set (b := c mod 256).
  assert (Hb : is_byte b) by (apply Z.mod_pos_bound; lia).
  destruct (memset_head_ok n m m (byte_at m) s b) as (n1 & m1 & -> & Hle & Hal & Hs1);
    [by apply settles_refl | done | done |].
  cbn [mbind Res_bind]. set (d1 := s + Z.of_nat (n - n1)) in *.
  set (f1 := fill_view (byte_at m) s (Z.of_nat (n - n1)) b) in *.
  assert (Hp1 : plain_range d1 (Z.of_nat n1)) by in_plain.
  assert (Hend : forall x, fill_view f1 d1 (Z.of_nat n1) b x = fill_view (byte_at m) s (Z.of_nat n) b x).
  { intros x. unfold f1, d1. rewrite fill_chain by lia. f_equal. lia. }
  destruct (Nat.leb_spec 8 n1) as [H8|H8].
  - destruct (words_split (Z.of_nat n1)) as (-> & -> & -> & Hn1 & Hr & Hq); [lia |].
    set (q := Z.of_nat n1 / 8) in *. set (r := Z.of_nat n1 mod 8) in *.
    destruct (memset_words_ok (Z.to_nat q) m m1 f1 d1 b) as (m2 & -> & Hs2);
      [done | destruct Hal; [lia | done] | in_plain | done |].
    cbn [mbind Res_bind].
    destruct (memset_tail_ok (Z.to_nat r) m m2 (fill_view f1 d1 (8 * Z.of_nat (Z.to_nat q)) b) (d1 + 8 * q) b)
      as (m3 & -> & Hs3); [done | in_plain | done |].
    exists m3. split; [done |]. eapply settles_ext; [done |]. intros x _.
    rewrite !Z2Nat.id by lia. rewrite fill_chain by lia. rewrite <- Hn1. apply Hend.
  - cbn [mbind Res_bind]. destruct (memset_tail_ok n1 m m1 f1 d1 b) as (m2 & -> & Hs2); [done .. |].
    exists m2. split; [done |]. eapply settles_ext; [done |]. intros x _. apply Hend.
Qed.

(** The string copies.  For strings shorter than the loop limit, with the
    destination apart from the source: [strcpy] moves the string with its NUL;
    [strcat] appends it to the string at [dst], so that [dst] holds the
    concatenation; [strncpy] leaves in the [n] bytes at [dst] the first [n - 1]
    characters at most and zeros after them (unlike the standard function, which
    copies [n] characters of a longer string and adds no NUL). *)
Theorem string_copies limit dst src l1 l2 n m : g_inv m ->
  cstr (byte_at m) src l2 -> str_range src l2 -> (length l1 + length l2 < limit)%nat ->
  plain_range dst (Z.of_nat (length l1 + length l2 + n) + 1) ->
  dst + Z.of_nat (length l1 + length l2 + n) < src \/ src + Z.of_nat (length l2) < dst ->
  (exists m', strcpy limit dst src m = Ok (dst, m') /\
     settles m m' (move_view (byte_at m) dst src (Z.of_nat (length l2) + 1))) /\
  (cstr (byte_at m) dst l1 ->
   exists m', strcat limit dst src m = Ok (dst, m') /\ cstr (byte_at m') dst (l1 ++ l2) /\
     settles m m' (move_view (byte_at m) (dst + Z.of_nat (length l1)) src (Z.of_nat (length l2) + 1))) /\
  (exists m', strncpy dst src n m = Ok (dst, m') /\
     let k := ((n - 1) `min` length l2)%nat in
     settles m m' (fill_view (move_view (byte_at m) dst src (Z.of_nat k))
       (dst + Z.of_nat k) (Z.of_nat (n - k)) 0)).
Proof.
  intros Hm Hc Rs Hl Rd Hdis. split; [| split].
  - apply strcpy_ok; [done .. | unfold str_range; in_plain | lia | unfold forward_ok; lia].
  - intros Hc1. apply strcat_ok; [done .. | unfold str_range; rewrite length_app; in_plain | lia | lia | lia].
  - apply strncpy_ok; [done .. | in_plain | lia].
Qed.
(** Lengths and comparisons.  For strings shorter than the loop limit,
    [strlen] returns the length; [strcmp] the difference of the first characters
    that differ, which is zero exactly for equal strings; [strncmp(s1, s2, n)]
    compares the first [n + 1] characters, one more than the standard function;
    [memcmp] is zero exactly when the bytes agree.  None of them writes. *)
Theorem string_compare limit s1 s2 l1 l2 n m : g_inv m ->
  cstr (byte_at m) s1 l1 -> cstr (byte_at m) s2 l2 -> str_range s1 l1 -> str_range s2 l2 ->
  (length l1 < limit)%nat ->
  (exists m', strlen limit s1 m = Ok (Z.of_nat (length l1), m') /\ settles m m' (byte_at m)) /\
  (exists r m', strcmp limit s1 s2 m = Ok (r, m') /\ settles m m' (byte_at m) /\
     r = lex_diff l1 l2 /\ (r = 0 <-> l1 = l2)) /\
  (exists m', strncmp s1 s2 n m = Ok (lex_diff (take (S n) l1) (take (S n) l2), m') /\
     settles m m' (byte_at m)) /\
  (forall k, plain_range s1 (Z.of_nat k) -> plain_range s2 (Z.of_nat k) ->
   exists r m', memcmp s1 s2 k m = Ok (r, m') /\ settles m m' (byte_at m) /\
     (r = 0 <-> view_bytes (byte_at m) s1 k = view_bytes (byte_at m) s2 k)).
Proof.
  intros Hm H1 H2 R1 R2 Hl. pose proof (settles_refl m Hm) as Hs.
  assert (Hlex : lex_diff l1 l2 = 0 <-> l1 = l2) by (apply lex_diff_zero; [apply H1 | apply H2]).
  split; [by apply strlen_ok |]. rewrite <- (Z.add_0_r s1) in H1, R1.
  rewrite <- (Z.add_0_r s2) in H2, R2. split; [| split].
  - destruct (strcmp_loop_ok limit m m (byte_at m) s1 s2 0 l1 l2) as (m' & E & Hs'); [done .. |].
    by exists (lex_diff l1 l2), m'.
  - by apply strncmp_loop_ok.
  - intros k P1 P2. rewrite <- (Z.add_0_r s1) in P1. rewrite <- (Z.add_0_r s2) in P2.
    destruct (memcmp_loop_ok k m m (byte_at m) s1 s2 0 Hs P1 P2) as (r & m' & E & Hs' & Hr).
    rewrite !Z.add_0_r in Hr. by exists r, m'.
Qed.
End Properties.

(** ** Instances of the theorems on the simulator's bus *)

(** The machine after the devices are registered, with [bs] at 0x80001000. *)
Definition bus_with (d : IO) (bs : list Z) : Bus :=
  let b := boot_bus d in {| b with pmem := mem_put ∅ 0x1000 bs |}.

Lemma bus_with_ok bs : Forall is_byte bs -> exists d, g_inv (bus_with d bs).
Proof.
  intros Hb. destruct (boot_bus_ok (fun _ => 0) (fun _ => (0, 0)) (fun _ => [])) as (d & _ & [H1 H2 H3]).
  exists d. split; cbn; [| done | done]. by apply mem_put_wf; [apply map_Forall_empty |].
Qed.

Ltac is_bytes := cbn [app replicate]; repeat (apply Forall_cons; split; [unfold is_byte; lia |]); by apply Forall_nil.
Ltac is_cstr := split; [repeat (apply Forall_cons; split; [lia |]); by apply Forall_nil | vm_compute; reflexivity].
Ltac pmem_range := apply bus_plain_pmem; vm_compute; congruence.

(** Twenty bytes moved up by three, over themselves. *)
Lemma memmove_correct_witness :
  exists d m', memmove 0x80001003 0x80001000 20 (bus_with d [1; 2; 3; 4]) = Ok (0x80001003, m') /\
    byte_at m' 0x80001006 = 4.
Proof.
  destruct (bus_with_ok [1; 2; 3; 4]) as (d & Hb); [is_bytes |].
  destruct (memmove_correct 0x80001003 0x80001000 20 (bus_with d [1; 2; 3; 4]) Hb) as [(m' & E & Hs) _];
    [pmem_range | pmem_range |].
  exists d, m'. split; [exact E |]. destruct Hs as (_ & _ & Hf). rewrite Hf; [reflexivity |].
  left. reflexivity.
Defined.

Lemma memset_correct_witness :
  exists d m', memset 0x80001003 0x1ff 20 (bus_with d []) = Ok (0x80001003, m') /\
    byte_at m' 0x80001016 = 0xff /\ byte_at m' 0x80001017 = 0.
Proof.
  destruct (bus_with_ok []) as (d & Hb); [is_bytes |].
  destruct (memset_correct 0x80001003 0x1ff 20 (bus_with d []) Hb) as (m' & E & _ & _ & Hf); [pmem_range |].
  exists d, m'. split; [exact E |]. split; (rewrite Hf; [reflexivity | left; reflexivity]).
Defined.

(** "ab" at the source, "c" at the destination. *)
Lemma string_copies_witness :
  exists d m', strcat 10 0x80001010 0x80001000 (bus_with d ([97; 98] ++ replicate 14 0 ++ [99; 0])) =
    Ok (0x80001010, m') /\ cstr (byte_at m') 0x80001010 [99; 97; 98].
Proof.
  destruct (bus_with_ok ([97; 98] ++ replicate 14 0 ++ [99; 0])) as (d & Hb); [is_bytes |].
  destruct (string_copies 10 0x80001010 0x80001000 [99] [97; 98] 4
    (bus_with d ([97; 98] ++ replicate 14 0 ++ [99; 0])) Hb) as (_ & Hcat & _).
  - is_cstr.
  - pmem_range.
  - cbn. lia.
  - pmem_range.
  - cbn. lia.
  - destruct Hcat as (m' & E & Hc & _); [is_cstr |].
    exists d, m'. split; [exact E | exact Hc].
Defined.

(** "ab" against "ac": equal in the first character, yet [strncmp] of one
    character is not zero. *)
Lemma string_compare_witness :
  exists d m', strncmp 0x80001000 0x80001003 1 (bus_with d [97; 98; 0; 97; 99; 0]) = Ok (-1, m').
Proof.
  destruct (bus_with_ok [97; 98; 0; 97; 99; 0]) as (d & Hb); [is_bytes |].
  destruct (string_compare 10 0x80001000 0x80001003 [97; 98] [97; 99] 1
    (bus_with d [97; 98; 0; 97; 99; 0]) Hb) as (_ & _ & Hn & _).
  - is_cstr.
  - is_cstr.
  - pmem_range.
  - pmem_range.
  - cbn. lia.
  - destruct Hn as (m' & E & _). exists d, m'. exact E.
Defined.
