(* ===== verification/Kstdio.v ===== *)
(** * The guest's stdio.h (am/klib/src/stdio.c) and [putch] of its platform

    [int2str] works in a local array, [printf] writes every character to the
    serial port, [sprintf] into memory.  Their common loop over the format is
    [format_loop], with the way a character leaves as a parameter.  Variadic
    arguments are the 64-bit slots of the RISC-V calling convention. *)

From S2P Require Import Prelude Word State Pmp Mmio Mem GuestMem Ringbuf Expr Stdio Kstring.
From Stdlib Require Import Ascii.

(** ** Console (am/am/src/platform/nemu/trm.c) *)

Definition SERIAL_PORT : Z := 0xa00003f8.

Definition outb {M} `{GuestMemory M} (addr data : Z) (m : M) : Res M := st addr 1 data m.
Definition putch {M} `{GuestMemory M} (c : Z) (m : M) : Res M := outb SERIAL_PORT c m.

(** ** int2str *)

(** [str[i] = c] and [str[i]] on a local array. *)
Definition put_char (str : list Z) (i c : Z) : Res (list Z) :=
  _ ← ensure Undefined (in_range str i); Ok (upd str i c).
Definition get_char (str : list Z) (i : Z) : Res Z :=
  _ ← ensure Undefined (in_range str i); Ok (arr str i).

(** [while (num != 0)]; an [int] has at most ten digits. *)
Fixpoint int2str_digits (fuel : nat) (isNeg : bool) (num index : Z) (str : list Z) : Res (Z * list Z) :=
  if num =? 0 then Ok (index, str)
  else
    match fuel with
    | O => Err Undefined
    | S fuel =>
        str ← put_char str index ((if isNeg then - Z.rem num 10 else Z.rem num 10) + 0x30);
        int2str_digits fuel isNeg (Z.quot num 10) (index + 1) str
    end.

(** [for (i = isNeg; i < (index + isNeg) / 2; i++)]: swap with the mirror image. *)
Fixpoint int2str_swap (fuel : nat) (i stop index appendix : Z) (str : list Z) : Res (list Z) :=
  if i <? stop then
    match fuel with
    | O => Err Undefined
    | S fuel =>
        tmp ← get_char str (index - i - appendix);
        c ← get_char str i;
        str ← put_char str (index - i - appendix) c;
        str ← put_char str i tmp;
        int2str_swap fuel (i + 1) stop index appendix str
    end
  else Ok str.

Definition int2str (num : Z) (str : list Z) : Res (Z * list Z) :=
  '(index, str) ← (if num =? 0 then str ← put_char str 0 0x30; Ok (1, str) else Ok (0, str));
  '(index, str, isNeg, appendix) ←
    (if num <? 0 then str ← put_char str index 0x2d; Ok (index + 1, str, true, 0)
     else Ok (index, str, false, 1));
  '(index, str) ← int2str_digits 10 isNeg num index str;
  str ← int2str_swap 10 (Z.b2z isNeg) (Z.quot (index + Z.b2z isNeg) 2) index appendix str;
  str ← put_char str index 0;
  Ok (index, str).

(** ** The loop over the format *)

Section Format.
Context {M : Type} `{GuestMemory M} (limit : nat).
(** What [char tmp2[500]] holds on entry. *)
Context (tmp2 : list Z).
(** How the character of index [index] leaves, and how much a "%%" counts. *)
Context (emit : Z -> Z -> M -> Res M) (percent : Z).
Implicit Types (m : M).

(** [for (j = 0; j < len; j++) { ...; index++; }] *)
Fixpoint emit_array (k : nat) (str : list Z) (j index : Z) m : Res (Z * M) :=
  match k with
  | O => Ok (index, m)
  | S k => c ← get_char str j; m ← emit c index m; emit_array k str (j + 1) (index + 1) m
  end.

(** [while (tmp[j] != '\0') { ...; j++; index++; }] *)
Fixpoint emit_string (fuel : nat) (tmp j index : Z) m : Res (Z * M) :=
  match fuel with
  | O => Err Undefined
  | S fuel =>
      '(c, m) ← ld (tmp + j) 1 m;
      if c =? 0 then Ok (index, m)
      else '(c, m) ← ld (tmp + j) 1 m; m ← emit c index m; emit_string fuel tmp (j + 1) (index + 1) m
  end.

(** [va_arg]: the next slot. *)
Definition va_arg (ap : list Z) : Res (Z * list Z) :=
  match ap with
  | [] => Err Undefined
  | v :: ap => Ok (v, ap)
  end.

Definition emit_int (ap : list Z) (index : Z) m : Res (list Z * Z * M) :=
  '(v, ap) ← va_arg ap;
  '(len, str) ← int2str (s32 v) tmp2;
  '(index, m) ← emit_array (Z.to_nat len) str 0 index m;
  Ok (ap, index, m).

Definition emit_str (ap : list Z) (index : Z) m : Res (list Z * Z * M) :=
  '(tmp, ap) ← va_arg ap;
  '(index, m) ← emit_string limit tmp 0 index m;
  Ok (ap, index, m).

(** [fmt[i] == '%' && (i + 1) < strlen(fmt)] *)
Definition is_conversion (fmt i : Z) m : Res (bool * M) :=
  '(c, m) ← ld (fmt + i) 1 m;
  if c =? ch "%" then '(n, m) ← strlen limit fmt m; Ok (i + 1 <? n, m) else Ok (false, m).

(** The result is [-1] at an unknown conversion. *)
Fixpoint format_loop (fuel : nat) (fmt len i index : Z) (ap : list Z) m : Res (bool * Z * M) :=
  if i <? len then
    match fuel with
    | O => Err Undefined
    | S fuel =>
        '(conv, m) ← is_conversion fmt i m;
        if conv : bool then
          '(k, m) ← ld (fmt + (i + 1)) 1 m;
          if k =? ch "d" then
            '(ap, index, m) ← emit_int ap index m; format_loop fuel fmt len (i + 2) index ap m
          else
            '(k, m) ← ld (fmt + (i + 1)) 1 m;
            if k =? ch "s" then
              '(ap, index, m) ← emit_str ap index m; format_loop fuel fmt len (i + 2) index ap m
            else
              '(k, m) ← ld (fmt + (i + 1)) 1 m;
              if k =? ch "%" then
                m ← emit (ch "%") index m; format_loop fuel fmt len (i + 2) (index + percent) ap m
              else Ok (false, index, m)
        else
          '(c, m) ← ld (fmt + i) 1 m;
          m ← emit c index m; format_loop fuel fmt len (i + 1) (index + 1) ap m
    end
  else Ok (true, index, m).
End Format.

(** A "%%" is printed but not counted. *)
Definition printf {M} `{GuestMemory M} (limit : nat) (tmp2 : list Z) (fmt : Z) (ap : list Z) (m : M)
    : Res (Z * M) :=
  '(len, m) ← strlen limit fmt m;
  '(ok, index, m) ← format_loop limit tmp2 (fun c _ => putch c) 0 (Z.to_nat len) fmt len 0 0 ap m;
  Ok (if ok : bool then index else -1, m).

Definition sprintf {M} `{GuestMemory M} (limit : nat) (tmp2 : list Z) (out fmt : Z) (ap : list Z) (m : M)
    : Res (Z * M) :=
  '(len, m) ← strlen limit fmt m;
  '(ok, index, m) ←
    format_loop limit tmp2 (fun c index => st (out + index) 1 c) 1 (Z.to_nat len) fmt len 0 0 ap m;
  if ok : bool then m ← st (out + index) 1 0 m; Ok (index, m) else Ok (-1, m).

(** ** int2str writes the decimal text *)

(** The text of [%d] as bytes; it is the text the host's [printf] writes. *)
Definition int_text (v : Z) : list Z := ch <$> fmt_d v.

Lemma arr_mid (l r : list Z) x : arr (l ++ x :: r) (Z.of_nat (length l)) = x.
Proof. unfold arr. rewrite Nat2Z.id. by rewrite lookup_total_app_r, Nat.sub_diag by lia. Qed.

Lemma upd_mid (l r : list Z) x y : upd (l ++ x :: r) (Z.of_nat (length l)) y = l ++ y :: r.
Proof.
  unfold upd. replace (0 <=? Z.of_nat (length l)) with true by lia. rewrite Nat2Z.id.
  by rewrite insert_app_r_alt, Nat.sub_diag by lia.
Qed.

Lemma in_range_mid (l r : list Z) x : in_range (l ++ x :: r) (Z.of_nat (length l)) = true.
Proof. unfold in_range. rewrite length_app. cbn [length]. lia. Qed.

Lemma put_char_mid l r x y k : k = Z.of_nat (length l) -> put_char (l ++ x :: r) k y = Ok (l ++ y :: r).
Proof. intros ->. unfold put_char. by rewrite in_range_mid, upd_mid. Qed.

Lemma get_char_mid l r x k : k = Z.of_nat (length l) -> get_char (l ++ x :: r) k = Ok x.
Proof. intros ->. unfold get_char. by rewrite in_range_mid, arr_mid. Qed.

(** The digits, least significant first. *)
Fixpoint rdigits (fuel : nat) (v : Z) : list Z :=
  match fuel with
  | O => []
  | S fuel => if v =? 0 then [] else v mod 10 + 0x30 :: rdigits fuel (v / 10)
  end.

Lemma length_rdigits fuel v : (length (rdigits fuel v) <= fuel)%nat.
Proof. revert v. induction fuel as [|fuel IH]; intros v; cbn; [done |]. case_if; cbn; [lia |]. specialize (IH (v / 10)). lia. Qed.

Lemma quot_rem_neg v : 0 <= v -> - Z.rem (- v) 10 = v mod 10 /\ Z.quot (- v) 10 = - (v / 10).
Proof.
  intros Hv. rewrite Z.rem_opp_l, Z.quot_opp_l by lia.
  rewrite Z.rem_mod_nonneg, Z.quot_div_nonneg by lia. lia.
Qed.

Lemma int2str_digits_ok fuel neg v pre junk : 0 <= v < 10 ^ Z.of_nat fuel -> (fuel <= length junk)%nat ->
  int2str_digits fuel neg (if neg : bool then - v else v) (Z.of_nat (length pre)) (pre ++ junk) =
  let ds := rdigits fuel v in
  Ok (Z.of_nat (length pre + length ds), pre ++ ds ++ drop (length ds) junk).
Proof.
  revert v pre junk. induction fuel as [|fuel IH]; intros v pre junk Hv Hj; cbn [int2str_digits rdigits].
  - change (10 ^ Z.of_nat 0) with 1 in Hv. replace v with 0 by lia. cbn zeta.
    destruct neg; cbn; by rewrite Nat.add_0_r, drop_0.
  - destruct (Z.eqb_spec v 0) as [->|Hne].
    { destruct neg; cbn; by rewrite Nat.add_0_r, drop_0. }
    replace ((if neg then - v else v) =? 0) with false by (destruct neg; lia).
    destruct junk as [|x junk]; [cbn in Hj; lia |]. cbn [length] in Hj.
    destruct (quot_rem_neg v) as [Hr Hq]; [lia |].
    replace (if neg then - Z.rem (if neg then - v else v) 10 else Z.rem (if neg then - v else v) 10) with (v mod 10).
    2: { destruct neg; [done |]. by rewrite Z.rem_mod_nonneg by lia. }
    rewrite put_char_mid by done. cbn [mbind Res_bind].
    replace (Z.quot (if neg then - v else v) 10) with (if neg then - (v / 10) else v / 10).
    2: { destruct neg; [done |]. by rewrite Z.quot_div_nonneg by lia. }
    replace (pre ++ v mod 10 + 48 :: junk) with ((pre ++ [v mod 10 + 48]) ++ junk) by (by rewrite <- app_assoc).
    replace (Z.of_nat (length pre) + 1) with (Z.of_nat (length (pre ++ [v mod 10 + 48])))
      by (rewrite length_app; cbn; lia).
    rewrite IH; [| | lia].
    + cbn [length drop app]. rewrite <- !app_assoc, length_app. cbn [length app]. do 2 f_equal. lia.
    + split; [apply Z.div_pos; lia |]. apply Z.div_lt_upper_bound; [lia |].
      rewrite Nat2Z.inj_succ, Z.pow_succ_r in Hv by lia. lia.
Qed.

(** The swaps turn a segment around in place. *)
Lemma int2str_swap_ok fuel pre mid post stop index appendix : (length mid <= 2 * fuel + 1)%nat ->
  index - appendix = Z.of_nat (2 * length pre + length mid) - 1 ->
  stop = Z.of_nat (2 * length pre + length mid) / 2 ->
  int2str_swap fuel (Z.of_nat (length pre)) stop index appendix (pre ++ mid ++ post) =
  Ok (pre ++ reverse mid ++ post).
Proof.
  revert pre mid post. induction fuel as [|fuel IH]; intros pre mid post Hf Hk Hstop; cbn [int2str_swap].
  - destruct (Z.ltb_spec (Z.of_nat (length pre)) stop) as [Hlt|_].
    { subst stop. pose proof (Z.mul_div_le (Z.of_nat (2 * length pre + length mid)) 2). lia. }
    destruct mid as [|a [|]]; [done | done | cbn in Hf; lia].
  - pose proof (Z.div_mod (Z.of_nat (2 * length pre + length mid)) 2 ltac:(lia)) as Hdm.
    pose proof (Z.mod_pos_bound (Z.of_nat (2 * length pre + length mid)) 2 ltac:(lia)).
    destruct mid as [|a mid]; [| destruct mid as [|b mid _] using rev_ind].
    1, 2: cbn [length] in *; destruct (Z.ltb_spec (Z.of_nat (length pre)) stop); [lia | done].
    cbn [length] in *. rewrite length_app in *. cbn [length] in *.
    destruct (Z.ltb_spec (Z.of_nat (length pre)) stop); [| lia].
    assert (E1 : pre ++ (a :: mid ++ [b]) ++ post = (pre ++ a :: mid) ++ b :: post)
      by (cbn [app]; by rewrite <- !app_assoc).
    assert (Hidx : index - Z.of_nat (length pre) - appendix = Z.of_nat (length (pre ++ a :: mid)))
      by (rewrite length_app; cbn [length]; lia).
    rewrite E1, (get_char_mid (pre ++ a :: mid) post b _ Hidx). cbn [mbind Res_bind].
    rewrite <- E1. cbn [app]. rewrite (get_char_mid pre _ a _ eq_refl). cbn [mbind Res_bind].
    change (pre ++ a :: (mid ++ [b]) ++ post) with (pre ++ (a :: mid ++ [b]) ++ post).
    rewrite E1, (put_char_mid (pre ++ a :: mid) post b a _ Hidx). cbn [mbind Res_bind].
    rewrite <- app_assoc. cbn [app]. rewrite (put_char_mid pre _ a b _ eq_refl). cbn [mbind Res_bind].
    replace (pre ++ b :: mid ++ a :: post) with ((pre ++ [b]) ++ mid ++ a :: post) by (by rewrite <- !app_assoc).
    replace (Z.of_nat (length pre) + 1) with (Z.of_nat (length (pre ++ [b]))) by (rewrite length_app; cbn; lia).
    rewrite IH.
    + rewrite reverse_cons, reverse_app. cbn. by rewrite <- !app_assoc.
    + lia.
    + rewrite length_app. cbn [length]. lia.
    + rewrite length_app. cbn [length]. subst stop. f_equal. lia.
Qed.

Lemma hex_char_digit d : 0 <= d < 10 -> ch (hex_char d) = d + 0x30.
Proof.
  intros Hd. assert (Hin : d ∈ seqZ_from 0 10) by (apply elem_of_seqZ_from; lia).
  cbn [seqZ_from Z.add Pos.add Pos.succ] in Hin. elem_cases Hin; done.
Qed.

(** The digits pushed are the printed digits, backwards. *)
Lemma reverse_rdigits fuel fuel' v : 0 < v < 10 ^ Z.of_nat fuel -> (fuel <= S fuel')%nat ->
  reverse (rdigits fuel v) = ch <$> (hex_char <$> digits_of fuel' 10 v).
Proof.
  revert fuel' v. induction fuel as [|fuel IH]; intros fuel' v Hv Hf.
  { change (10 ^ Z.of_nat 0) with 1 in Hv. lia. }
  pose proof (Z.mod_pos_bound v 10 ltac:(lia)) as Hm. pose proof (Z.div_mod v 10 ltac:(lia)) as Hdm.
  rewrite Nat2Z.inj_succ, Z.pow_succ_r in Hv by lia.
  cbn [rdigits]. destruct (Z.eqb_spec v 0); [lia |]. rewrite reverse_cons.
  assert (Hlast : v < 10 -> reverse (rdigits fuel (v / 10)) ++ [v mod 10 + 48] = [v + 0x30]).
  { intros Hlt. rewrite Z.div_small, Z.mod_small by lia. by destruct fuel. }
  destruct fuel' as [|fuel']; cbn [digits_of].
  - assert (fuel = O) as -> by lia. change (10 ^ Z.of_nat 0) with 1 in Hv.
    rewrite Hlast by lia. cbn. by rewrite hex_char_digit by lia.
  - destruct (Z.ltb_spec v 10).
    + rewrite Hlast by lia. cbn. by rewrite hex_char_digit by lia.
    + rewrite !fmap_app, (IH fuel' (v / 10)); [| | lia].
      * cbn. by rewrite hex_char_digit by lia.
      * split; [apply Z.div_str_pos; lia |]. apply Z.div_lt_upper_bound; lia.
Qed.

(** From the digits to the end, after the sign [pre]. *)
Lemma int2str_core (neg : bool) a pre junk : 0 < a < 10 ^ 10 -> length pre = Z.to_nat (Z.b2z neg) ->
  (11 <= length junk)%nat ->
  let text := pre ++ (ch <$> fmt_u 10 a) in
  exists rest,
    ('(index, str) ← int2str_digits 10 neg (if neg then - a else a) (Z.b2z neg) (pre ++ junk);
     str ← int2str_swap 10 (Z.b2z neg) (Z.quot (index + Z.b2z neg) 2) index (1 - Z.b2z neg) str;
     str ← put_char str index 0;
     Ok (index, str)) = Ok (Z.of_nat (length text), text ++ 0 :: rest).
Proof.
  intros Ha Hpre Hj text. pose proof (reverse_rdigits 10 19 a Ha ltac:(lia)) as Hrev.
  pose proof (length_rdigits 10 a) as Hlen. set (ds := rdigits 10 a) in *.
  assert (Hdrop : exists y r, drop (length ds) junk = y :: r).
  { destruct (drop (length ds) junk) as [|y r] eqn:E; [| by exists y, r].
    apply (f_equal length) in E. rewrite length_drop in E. cbn [length] in E. lia. }
  destruct Hdrop as (y & r & Hdrop).
  assert (Hn : Z.b2z neg = Z.of_nat (length pre)) by (rewrite Hpre; by destruct neg).
  rewrite Hn, (int2str_digits_ok 10 neg a pre junk) by (lia || (change (10 ^ Z.of_nat 10) with (10 ^ 10); lia)).
  cbn zeta. fold ds. cbn [mbind Res_bind]. rewrite int2str_swap_ok.
  - cbn [mbind Res_bind]. rewrite Hrev, Hdrop, app_assoc. fold (fmt_u 10 a). change (pre ++ (ch <$> fmt_u 10 a)) with text.
    assert (Hk : Z.of_nat (length pre + length ds) = Z.of_nat (length text)).
    { unfold text. rewrite length_app. unfold fmt_u. rewrite <- Hrev, length_reverse. done. }
    rewrite put_char_mid by done. cbn [mbind Res_bind]. rewrite Hk. by exists r.
  - lia.
  - lia.
  - rewrite Z.quot_div_nonneg by lia. f_equal. lia.
Qed.

(** [int2str] for every [int]: the text, a NUL, and the length of the text. *)
Lemma int2str_ok v junk : - 2 ^ 31 <= v < 2 ^ 31 -> (12 <= length junk)%nat ->
  exists rest, int2str v junk = Ok (Z.of_nat (length (int_text v)), int_text v ++ 0 :: rest).
Proof.
  intros Hv Hj. destruct junk as [|x junk]; [cbn in Hj; lia |]. cbn [length] in Hj.
  unfold int2str, int_text, fmt_d. destruct (Z.eqb_spec v 0) as [->|Hne].
  { destruct junk as [|y junk]; [cbn in Hj; lia |]. exists junk.
    pose proof (put_char_mid [] (y :: junk) x 0x30 0 eq_refl) as E0. cbn [app] in E0. rewrite E0.
    exact (f_equal (fun r => str ← r; Ok (1, str)) (put_char_mid [0x30] junk y 0 1 eq_refl)). }
  cbn [mbind Res_bind]. destruct (Z.ltb_spec v 0) as [Hneg|Hpos]; cbn [mbind Res_bind].
  - pose proof (put_char_mid [] junk x 0x2d 0 eq_refl) as E0. cbn [app] in E0. rewrite E0. cbn [mbind Res_bind].
    destruct (int2str_core true (- v) [0x2d] junk) as (rest & E); [lia | done | lia |].
    rewrite Z.opp_involutive in E. exists rest. exact E.
  - destruct (int2str_core false v [] (x :: junk)) as (rest & E); [lia | done | cbn; lia |]. exists rest. exact E.
Qed.

(** ** What a format means *)

(** An argument: an [int], or a string with its characters. *)
Inductive arg :=
  | AInt (v : Z)
  | AStr (l : list Z).

Definition prepend (t : list Z) (p : Z) (r : option (list Z * Z * bool)) : option (list Z * Z * bool) :=
  '(t', p', ok) ← r; Some (t ++ t', p + p', ok).

(** The text, the number of "%%" in it, and whether every conversion was known;
    the text stops at the first that is not.  [None]: an argument is missing or
    of the wrong kind. *)
Fixpoint render (fmt : list Z) (args : list arg) : option (list Z * Z * bool) :=
  match fmt with
  | [] => Some ([], 0, true)
  | c :: fmt1 =>
      if c =? ch "%" then
        match fmt1 with
        | [] => Some ([c], 0, true)
        | k :: fmt2 =>
            if k =? ch "d" then
              match args with AInt v :: args => prepend (int_text v) 0 (render fmt2 args) | _ => None end
            else if k =? ch "s" then
              match args with AStr l :: args => prepend l 0 (render fmt2 args) | _ => None end
            else if k =? ch "%" then prepend [ch "%"] 1 (render fmt2 args)
            else Some ([], 0, false)
        end
      else prepend [c] 0 (render fmt1 args)
  end.

Lemma prepend_Some t p r tx q ok : prepend t p r = Some (tx, q, ok) ->
  exists t' p', r = Some (t', p', ok) /\ tx = t ++ t' /\ q = p + p'.
Proof. unfold prepend. destruct r as [[[t' p'] ok']|]; [| done]. intros [= <- <- <-]. by exists t', p'. Qed.

Section FormatSpec.
Context {M : Type} `{GuestMemory M} (limit : nat) (tmp2 : list Z).
Context (emit : Z -> Z -> M -> Res M) (percent : Z).
(** The memory outside the output: [f] its bytes, [readable] where it may be read. *)
Context (f : Z -> Z) (readable : Z -> Prop).
(** [St t m]: the text [t] has been written; there is room for [cap] characters. *)
Context (St : list Z -> M -> Prop) (cap : nat).
Context (Htmp : (12 <= length tmp2)%nat) (Hpct : percent = 0 \/ percent = 1).
Context (f_byte : forall a, readable a -> is_byte (f a)).
Context (St_ld : forall t m a, St t m -> readable a -> exists m', ld a 1 m = Ok (f a, m') /\ St t m').
Context (St_emit : forall t m c index, St t m -> is_byte c -> (length t < cap)%nat ->
  (percent = 1 -> index = Z.of_nat (length t)) -> exists m', emit c index m = Ok m' /\ St (t ++ [c]) m').

Definition readable_str (s : Z) (l : list Z) : Prop :=
  cstr f s l /\ (length l < limit)%nat /\ forall a, s <= a <= s + Z.of_nat (length l) -> readable a.

(** A slot holds an argument. *)
Definition va_rel (v : Z) (a : arg) : Prop :=
  match a with
  | AInt n => s32 v = n
  | AStr l => readable_str v l
  end.

(** The index counts the characters, unless "%%" is not counted. *)
Definition counts (index : Z) (t : list Z) : Prop := percent = 1 -> index = Z.of_nat (length t).

Lemma emit_array_ok k t m str j index : St t m -> counts index t -> (length t + k <= cap)%nat ->
  0 <= j -> j + Z.of_nat k <= Z.of_nat (length str) ->
  (forall i, j <= i < j + Z.of_nat k -> is_byte (arr str i)) ->
  exists m', emit_array emit k str j index m = Ok (index + Z.of_nat k, m') /\
    St (t ++ take k (drop (Z.to_nat j) str)) m'.
Proof.
  revert t m j index. induction k as [|k IH]; intros t m j index Hs Hc Hcap Hj Hk Hb; cbn [emit_array].
  { exists m. rewrite take_0, app_nil_r, Z.add_0_r. done. }
  unfold get_char, in_range. replace ((0 <=? j) && (j <? Z.of_nat (length str))) with true by lia.
  cbn [ensure mbind Res_bind].
  destruct (St_emit t m (arr str j) index Hs) as (m1 & -> & Hs1);
    [apply Hb; lia | lia | done |]. cbn [mbind Res_bind].
  destruct (IH (t ++ [arr str j]) m1 (j + 1) (index + 1)) as (m' & -> & Hs');
    [done | | rewrite length_app; cbn; lia | lia | lia | intros i Hi; apply Hb; lia |].
  { intros Hp. rewrite length_app, (Hc Hp). cbn. lia. }
  exists m'. split; [do 2 f_equal; lia |].
  replace (Z.to_nat (j + 1)) with (S (Z.to_nat j)) in Hs' by lia. rewrite <- app_assoc in Hs'.
  erewrite (drop_S str); [exact Hs' |]. apply arr_lookup. lia.
Qed.

Lemma emit_string_ok fuel t m s j index l : St t m -> counts index t -> (length t + length l <= cap)%nat ->
  cstr f (s + j) l -> (forall a, s + j <= a <= s + j + Z.of_nat (length l) -> readable a) ->
  (length l < fuel)%nat ->
  exists m', emit_string emit fuel s j index m = Ok (index + Z.of_nat (length l), m') /\ St (t ++ l) m'.
Proof.
  revert t m j index l. induction fuel as [|fuel IH]; intros t m j index l Hs Hc Hcap Hl Hr Hf; [lia |].
  cbn [emit_string]. destruct (St_ld t m (s + j) Hs) as (m1 & -> & Hs1); [apply Hr; lia |]. cbn [mbind Res_bind].
  destruct l as [|c l].
  - apply cstr_nil in Hl as ->. exists m1. cbn. rewrite Z.add_0_r, app_nil_r. done.
  - apply cstr_cons in Hl as (Ec & Hne & Hl). rewrite Ec. destruct (Z.eqb_spec c 0); [done |].
    destruct (St_ld t m1 (s + j) Hs1) as (m2 & -> & Hs2); [apply Hr; lia |]. cbn [mbind Res_bind]. rewrite Ec.
    cbn [length] in *. destruct (St_emit t m2 c index Hs2) as (m3 & -> & Hs3);
      [rewrite <- Ec; apply f_byte, Hr; lia | lia | done |]. cbn [mbind Res_bind].
    destruct (IH (t ++ [c]) m3 (j + 1) (index + 1) l) as (m' & -> & Hs');
      [done | | rewrite length_app; cbn; lia | by rewrite Z.add_assoc | | lia |].
    + intros Hp. rewrite length_app, (Hc Hp). cbn. lia.
    + intros a Ha. apply Hr. lia.
    + exists m'. split; [do 2 f_equal; lia |]. by rewrite <- app_assoc in Hs'.
Qed.

Lemma int_text_byte v : Forall is_byte (int_text v).
Proof.
  apply Forall_fmap, Forall_forall. intros c _. unfold is_byte, ch. cbn.
  pose proof (N_ascii_bounded c). lia.
Qed.

Lemma emit_int_ok v ap t m index : St t m -> counts index t ->
  (length t + length (int_text (s32 v)) <= cap)%nat ->
  exists m', emit_int tmp2 emit (v :: ap) index m =
    Ok (ap, index + Z.of_nat (length (int_text (s32 v))), m') /\ St (t ++ int_text (s32 v)) m'.
Proof.
  intros Hs Hc Hcap. unfold emit_int. cbn [va_arg mbind Res_bind].
  destruct (int2str_ok (s32 v) tmp2 (s32_range v) Htmp) as (rest & ->). cbn [mbind Res_bind].
  rewrite Nat2Z.id. set (tx := int_text (s32 v)) in *.
  destruct (emit_array_ok (length tx) t m (tx ++ 0 :: rest) 0 index) as (m' & -> & Hs');
    [done | done | done | done | rewrite length_app; lia | |].
  - intros i Hi. rewrite arr_app_l by lia. apply Forall_arr; [apply int_text_byte | lia].
  - exists m'. split; [done |]. change (Z.to_nat 0) with O in Hs'.
    by rewrite drop_0, take_app_length in Hs'.
Qed.

Lemma emit_str_ok v l ap t m index : St t m -> counts index t -> (length t + length l <= cap)%nat ->
  readable_str v l ->
  exists m', emit_str limit emit (v :: ap) index m = Ok (ap, index + Z.of_nat (length l), m') /\ St (t ++ l) m'.
Proof.
  intros Hs Hc Hcap (Hl & Hlim & Hr). unfold emit_str. cbn [va_arg mbind Res_bind].
  destruct (emit_string_ok limit t m v 0 index l) as (m' & -> & Hs');
    [done | done | done | by rewrite Z.add_0_r | by rewrite Z.add_0_r | done |]. by exists m'.
Qed.

(** The format itself is a readable string: [pre] has been dealt with, [l] is left. *)
Lemma is_conversion_ok fmt pre l t m : readable_str fmt (pre ++ l) -> St t m -> l <> [] ->
  exists m', is_conversion limit fmt (Z.of_nat (length pre)) m =
    Ok (match l with c :: _ :: _ => c =? ch "%" | _ => false end, m') /\ St t m'.
Proof.
  intros (Hc & Hlim & Hr) Hs Hne. unfold is_conversion. rewrite length_app in *.
  destruct l as [|c l]; [done |]. cbn [length] in *.
  destruct (St_ld t m (fmt + Z.of_nat (length pre)) Hs) as (m1 & -> & Hs1); [apply Hr; lia |].
  cbn [mbind Res_bind].
  destruct (cstr_char _ _ _ (Z.of_nat (length pre)) Hc) as [-> _]; [rewrite length_app; cbn; lia |].
  rewrite arr_mid. destruct (Z.eqb_spec c (ch "%")) as [->|Hn]; [| exists m1; by destruct l].
  destruct (strlen_loop_gen (St t) f limit m1 fmt 0 (pre ++ ch "%" :: l)) as (m2 & E2 & Hs2);
    [| done | by rewrite Z.add_0_r | rewrite length_app; cbn; lia |].
  { intros m' a Hm' Ha. rewrite length_app in Ha. cbn [length] in Ha. apply St_ld; [done |]. apply Hr. lia. }
  unfold strlen. rewrite E2. cbn [mbind Res_bind]. exists m2. split; [| done]. do 2 f_equal.
  rewrite length_app. cbn [length]. destruct l; cbn [length]; lia.
Qed.

Lemma format_ld fmt pre c l t m k : readable_str fmt (pre ++ c :: l) -> St t m -> k = Z.of_nat (length pre) ->
  exists m', ld (fmt + k) 1 m = Ok (c, m') /\ St t m' /\ is_byte c.
Proof.
  intros (Hc & Hlim & Hr) Hs ->. rewrite length_app in *. cbn [length] in *.
  assert (Ha : readable (fmt + Z.of_nat (length pre))) by (apply Hr; lia).
  destruct (St_ld t m (fmt + Z.of_nat (length pre)) Hs Ha) as (m1 & E & Hs1).
  destruct (cstr_char _ _ _ (Z.of_nat (length pre)) Hc) as [Ec _]; [rewrite length_app; cbn; lia |].
  rewrite arr_mid in Ec. exists m1. rewrite <- Ec. split; [done |]. split; [done |]. by apply f_byte.
Qed.

(** The loop from the rest [l] of the format on. *)
Definition format_runs (fuel : nat) (fmt : Z) (F pre l : list Z) (args : list arg) : Prop :=
  forall ap t m index tx p ok, F = pre ++ l -> (length l <= fuel)%nat ->
  Forall2 va_rel ap args -> render l args = Some (tx, p, ok) ->
  St t m -> counts index t -> (length t + length tx <= cap)%nat ->
  exists m', format_loop limit tmp2 emit percent fuel fmt (Z.of_nat (length F)) (Z.of_nat (length pre))
      index ap m = Ok (ok, index + Z.of_nat (length tx) - (1 - percent) * p, m') /\ St (t ++ tx) m'.

(** After [u] has been emitted, [q] of it uncounted, the loop goes on. *)
Lemma format_next fuel fmt F pre l args ap t u q m index index' k tx p ok :
  format_runs fuel fmt F pre l args -> F = pre ++ l -> k = Z.of_nat (length pre) ->
  (length l <= fuel)%nat -> Forall2 va_rel ap args ->
  prepend u q (render l args) = Some (tx, p, ok) -> St (t ++ u) m ->
  counts index t -> index' = index + Z.of_nat (length u) - (1 - percent) * q ->
  (length t + length tx <= cap)%nat ->
  exists m', format_loop limit tmp2 emit percent fuel fmt (Z.of_nat (length F)) k index' ap m =
    Ok (ok, index + Z.of_nat (length tx) - (1 - percent) * p, m') /\ St (t ++ tx) m'.
Proof.
  intros IH HF -> Hf Hap Hr Hs Hc -> Hcap.
  apply prepend_Some in Hr as (t' & p' & Hr & -> & ->). rewrite length_app in *.
  destruct (IH ap (t ++ u) m (index + Z.of_nat (length u) - (1 - percent) * q) t' p' ok)
    as (m' & E & Hs'); [done .. | | |].
  - intros Hp. rewrite length_app, (Hc Hp). lia.
  - rewrite length_app. lia.
  - exists m'. rewrite E. rewrite <- app_assoc in Hs'. split; [| done]. do 3 f_equal. lia.
Qed.

(** A character that is not a conversion. *)
Lemma format_literal fuel fmt F pre c l args ap t m index tx p ok :
  (forall pre l args, format_runs fuel fmt F pre l args) -> readable_str fmt F -> F = pre ++ c :: l ->
  (length l <= fuel)%nat -> Forall2 va_rel ap args ->
  prepend [c] 0 (render l args) = Some (tx, p, ok) -> St t m -> counts index t ->
  (length t + length tx <= cap)%nat ->
  exists m', ('(c, m) ← ld (fmt + Z.of_nat (length pre)) 1 m; m ← emit c index m;
      format_loop limit tmp2 emit percent fuel fmt (Z.of_nat (length F)) (Z.of_nat (length pre) + 1)
        (index + 1) ap m)
    = Ok (ok, index + Z.of_nat (length tx) - (1 - percent) * p, m') /\ St (t ++ tx) m'.
Proof.
  intros IH HF HFe Hf Hap Hr Hs Hc Hcap. rewrite HFe in HF.
  destruct (format_ld fmt pre c l t m _ HF Hs eq_refl) as (m2 & -> & Hs2 & Hb). cbn [mbind Res_bind].
  assert (0 < length tx)%nat by (apply prepend_Some in Hr as (? & ? & _ & -> & _); cbn; lia).
  destruct (St_emit t m2 c index Hs2 Hb) as (m3 & -> & Hs3); [lia | done |]. cbn [mbind Res_bind].
  apply (format_next fuel fmt F (pre ++ [c]) l args ap t [c] 0); try done.
  - by rewrite <- app_assoc.
  - rewrite length_app. cbn. lia.
  - cbn. lia.
Qed.

Lemma format_loop_ok fuel fmt F pre l args : readable_str fmt F -> format_runs fuel fmt F pre l args.
Proof.
  intros HF. revert pre l args. induction fuel as [|fuel IH]; intros pre l args;
    intros ap t m index tx p ok HFe Hf Hap Hr Hs Hc Hcap; cbn [format_loop].
  { destruct l as [|c l]; [| cbn in Hf; lia]. rewrite app_nil_r in HFe. subst pre.
    rewrite Z.ltb_irrefl. injection Hr as <- <- <-. exists m. rewrite app_nil_r.
    split; [do 3 f_equal; cbn; lia | done]. }
  destruct l as [|c l].
  { rewrite app_nil_r in HFe. subst pre. rewrite Z.ltb_irrefl. injection Hr as <- <- <-. exists m.
    rewrite app_nil_r. split; [do 3 f_equal; cbn; lia | done]. }
  assert (Hlen : Z.of_nat (length F) = Z.of_nat (length pre) + 1 + Z.of_nat (length l))
    by (rewrite HFe, length_app; cbn; lia).
  replace (Z.of_nat (length pre) <? Z.of_nat (length F)) with true by lia. cbn [length] in Hf.
  pose proof HF as HF'. rewrite HFe in HF'.
  destruct (is_conversion_ok fmt pre (c :: l) t m HF' Hs ltac:(done)) as (m1 & -> & Hs1). cbn [mbind Res_bind].
  destruct l as [|k l].
  { apply (format_literal fuel fmt F pre c [] args); try done; [lia |]. rewrite <- Hr. cbn.
    by destruct (c =? ch "%"). }
  cbn [render] in Hr. destruct (Z.eqb_spec c (ch "%")) as [->|Hn].
  2: { apply (format_literal fuel fmt F pre c (k :: l) args); try done. lia. }
  assert (Hk : Z.of_nat (length pre) + 1 = Z.of_nat (length (pre ++ [ch "%"])))
    by (rewrite length_app; cbn; lia).
  assert (HF2 : readable_str fmt ((pre ++ [ch "%"]) ++ k :: l)) by (by rewrite <- app_assoc).
  assert (Hpre2 : F = (pre ++ [ch "%"; k]) ++ l) by (by rewrite <- app_assoc).
  assert (Hk2 : Z.of_nat (length pre) + 2 = Z.of_nat (length (pre ++ [ch "%"; k])))
    by (rewrite length_app; cbn; lia).
  destruct (format_ld fmt _ k l t m1 _ HF2 Hs1 Hk) as (m2 & -> & Hs2 & _). cbn [mbind Res_bind length] in *.
  assert (Hroom : forall u q l' args', prepend u q (render l' args') = Some (tx, p, ok) ->
    (length t + length u <= cap)%nat).
  { intros u q l' args' E. apply prepend_Some in E as (? & ? & _ & -> & _). rewrite length_app in Hcap. lia. }
  destruct (Z.eqb_spec k (ch "d")) as [->|Hd].
  { destruct args as [|[v|] args]; try done. inversion Hap as [|w ? ap' ? Hv Hap']; cbn in Hv; subst.
    destruct (emit_int_ok w ap' t m2 index Hs2 Hc) as (m3 & -> & Hs3); [by eapply Hroom |]. cbn [mbind Res_bind].
    by eapply (format_next fuel fmt _ _ l args ap' t); try done; lia. }
  destruct (format_ld fmt _ k l t m2 _ HF2 Hs2 Hk) as (m3 & -> & Hs3 & _). cbn [mbind Res_bind].
  destruct (Z.eqb_spec k (ch "s")) as [->|Hd2].
  { destruct args as [|[|v] args]; try done. inversion Hap as [|w ? ap' ? Hv Hap']; subst.
    destruct (emit_str_ok w v ap' t m3 index Hs3 Hc) as (m4 & -> & Hs4); [by eapply Hroom | done |]. cbn [mbind Res_bind].
    by eapply (format_next fuel fmt _ _ l args ap' t); try done; lia. }
  destruct (format_ld fmt _ k l t m3 _ HF2 Hs3 Hk) as (m4 & -> & Hs4 & _). cbn [mbind Res_bind].
  destruct (Z.eqb_spec k (ch "%")) as [->|Hd3].
  - destruct (St_emit t m4 (ch "%") index Hs4) as (m5 & -> & Hs5);
      [change (ch "%") with 37; unfold is_byte; lia | specialize (Hroom _ _ _ _ Hr); cbn in Hroom; lia | done |]. cbn [mbind Res_bind].
    eapply (format_next fuel fmt F _ l args ap t [ch "%"] 1); try done; [lia |]. cbn. lia.
  - injection Hr as <- <- <-. exists m4. rewrite app_nil_r. split; [do 3 f_equal; cbn; lia | done].
Qed.
End FormatSpec.

(** ** The console *)

(** What the serial port promises: every byte stored to it is appended to what
    has been printed, and no other access is. *)
Class SerialLaws (M : Type) `{GuestLaws M} := {
  console : M -> list Z;
  console_le m m' : g_le m m' -> console m' = console m;
  serial_st m c : g_inv m -> exists m', st SERIAL_PORT 1 c m = Ok m' /\ g_inv m' /\
    console m' = console m ++ [c mod 256] /\ forall x, plain x -> byte_at m' x = byte_at m x;
}.

Lemma bus_serial_st b c : bus_wf b -> exists b', paddr_write SERIAL_PORT 1 c b = Ok b' /\ bus_wf b' /\
  reverse (serial_out (io b')) = reverse (serial_out (io b)) ++ [c mod 256] /\
  forall x, bus_plain x -> bus_byte b' x = bus_byte b x.
Proof.
  intros Hb. pose proof (serial_write_eq (io b) (bw_io _ Hb) c) as Ed.
  destruct (bus_device_write b SERIAL_PORT 1 c _ Hb eq_refl Ed) as (b' & E & Hwf & Hio & Hp & _).
  exists b'. split; [done |]. split; [done |]. rewrite Hio.
  split; [cbn [serial_out]; by rewrite reverse_cons |].
  intros x Hx. unfold bus_byte. rewrite Hio, Hp. destruct (in_pmem x) eqn:Ex; [done |]. cbn [io_space].
  rewrite mem_get_host_write by done. destruct (within_spec 0 1 (fb_space + (x - CONFIG_FB_ADDR))); [| done].
  exfalso. unfold bus_plain, in_fb, fb_space in *. rewrite Ex in Hx. destruct Hx; [done |]. lia.
Qed.

#[export, refine] Instance Bus_serial : SerialLaws Bus := {| console := fun b => reverse (serial_out (io b)) |}.
Proof.
  - intros b b' [_ [-> _]]. done.
  - exact bus_serial_st.
Defined.

(** ** Properties *)

(** A character appended to a text. *)
Lemma put_view_snoc f a t c x :
  put_view (put_view f a t) (a + Z.of_nat (length t)) [c] x = put_view f a (t ++ [c]) x.
Proof.
  unfold put_view. rewrite length_app. cbn [length].
  destruct (within_spec (a + Z.of_nat (length t)) (Z.of_nat 1) x),
    (within_spec a (Z.of_nat (length t + 1)) x), (within_spec a (Z.of_nat (length t)) x); try lia; try done.
  - replace (x - a) with (Z.of_nat (length t)) by lia. rewrite arr_mid.
    by replace (x - (a + Z.of_nat (length t))) with 0 by lia.
  - by rewrite arr_app_l by lia.
Qed.

Section Print.
Context {M : Type} `{SerialLaws M} (limit : nat) (tmp2 : list Z).
Context (Htmp : length tmp2 = 500%nat).
Implicit Types (m : M).

(** Nothing but the console changed since [m]. *)
Definition printed (m : M) (t : list Z) (m' : M) : Prop :=
  g_inv m' /\ console m' = console m ++ t /\ forall x, plain x -> byte_at m' x = byte_at m x.

Lemma printed_ld m t m' a : printed m t m' -> plain a ->
  exists m'', ld a 1 m' = Ok (byte_at m a, m'') /\ printed m t m''.
Proof.
  intros (H1' & H2' & H3') Ha. destruct (ld_byte m' a H1' Ha) as (m'' & -> & Hi & Hle & Hb).
  exists m''. rewrite H3' by done. split; [done |]. split; [done |]. split; [by rewrite (console_le _ _ Hle) |].
  intros x Hx. by rewrite Hb, H3'.
Qed.

Lemma printed_putch m t m' c : printed m t m' -> is_byte c ->
  exists m'', putch c m' = Ok m'' /\ printed m (t ++ [c]) m''.
Proof.
  intros (H1' & H2' & H3') Hb. destruct (serial_st m' c H1') as (m'' & E & Hi & Hcon & Hby).
  exists m''. split; [exact E |]. split; [done |]. split.
  - by rewrite Hcon, H2', Z.mod_small, app_assoc by done.
  - intros x Hx. by rewrite Hby, H3'.
Qed.

Lemma printf_ok fmt ap l args m tx p ok : g_inv m ->
  readable_str limit (byte_at m) plain fmt l ->
  Forall2 (va_rel limit (byte_at m) plain) ap args -> render l args = Some (tx, p, ok) ->
  exists m', printf limit tmp2 fmt ap m =
      Ok (if ok then Z.of_nat (length tx) - p else -1, m') /\ printed m tx m'.
Proof using Htmp.
  intros Hm Hfmt Hap Hr. unfold printf.
  assert (Hs0 : printed m [] m) by (by split; [| split; [rewrite app_nil_r |]]).
  pose proof Hfmt as (Hc & Hlim & Hrd).
  destruct (strlen_loop_gen (printed m []) (byte_at m) limit m fmt 0 l) as (m1 & E1 & Hs1);
    [| done | by rewrite Z.add_0_r | done |].
  { intros m' a Hm' Ha. apply printed_ld; [done |]. apply Hrd. lia. }
  unfold strlen. rewrite E1. cbn [mbind Res_bind]. rewrite Z.add_0_l, Nat2Z.id.
  destruct (format_loop_ok limit tmp2 (fun c _ => putch c) 0 (byte_at m) plain (printed m) (length tx)
    ltac:(lia) (fun a Ha => byte_at_byte m a Hm Ha) (printed_ld m)) with (fuel := length l)
    (fmt := fmt) (F := l) (pre := @nil Z) (l := l) (args := args) (ap := ap) (t := @nil Z) (m := m1)
    (index := 0) (tx := tx) (p := p) (ok := ok) as (m' & E & Hs'); try done.
  - intros t m' c index Hp Hb _ _. by apply printed_putch.
  - cbn [length] in E. change (Z.of_nat 0) with 0 in E. rewrite E. cbn [mbind Res_bind]. exists m'.
    split; [| done]. destruct ok; [| done]. do 2 f_equal. lia.
Qed.

(** The text so far stands at [out]; it will not be longer than [n]. *)
Definition written (m : M) (out : Z) (n : nat) (t : list Z) (m' : M) : Prop :=
  settles m m' (put_view (byte_at m) out t) /\ (length t <= n)%nat.

(** Plain memory apart from the output and its NUL. *)
Definition apart (out : Z) (n : nat) (a : Z) : Prop := plain a /\ within out (Z.of_nat n + 1) a = false.

Lemma written_nil m out n : g_inv m -> written m out n [] m.
Proof.
  intros Hm. split; [| cbn; lia]. eapply settles_ext; [by apply settles_refl |]. intros x _.
  unfold put_view. cbn [length]. by destruct (within_spec out (Z.of_nat 0) x); [lia |].
Qed.

Lemma written_ld m out n t m' a : written m out n t m' -> apart out n a ->
  exists m'', ld a 1 m' = Ok (byte_at m a, m'') /\ written m out n t m''.
Proof.
  intros [Hs Hl] [Ha Hno]. destruct (ld_byte_view m m' _ a Hs Ha) as (m'' & -> & Hs''). exists m''.
  split; [| done]. do 2 f_equal. apply within_false in Hno. unfold put_view.
  by destruct (within_spec out (Z.of_nat (length t)) a); [lia |].
Qed.

Lemma written_st m out t m' c : settles m m' (put_view (byte_at m) out t) ->
  plain (out + Z.of_nat (length t)) -> is_byte c ->
  exists m'', st (out + Z.of_nat (length t)) 1 c m' = Ok m'' /\
    settles m m'' (put_view (byte_at m) out (t ++ [c])).
Proof.
  intros Hs Hp Hb. destruct (st_byte_view m m' _ (out + Z.of_nat (length t)) c Hs Hp) as (m'' & -> & Hs'').
  exists m''. split; [done |]. rewrite Z.mod_small in Hs'' by done.
  eapply settles_ext; [done |]. intros x _. by apply put_view_snoc.
Qed.

Lemma sprintf_ok out fmt ap l args m tx p ok : g_inv m ->
  plain_range out (Z.of_nat (length tx) + 1) ->
  readable_str limit (byte_at m) (apart out (length tx)) fmt l ->
  Forall2 (va_rel limit (byte_at m) (apart out (length tx))) ap args -> render l args = Some (tx, p, ok) ->
  exists m', sprintf limit tmp2 out fmt ap m = Ok (if ok then Z.of_nat (length tx) else -1, m') /\
    settles m m' (put_view (byte_at m) out (if ok then tx ++ [0] else tx)).
Proof using Htmp.
  intros Hm Hout Hfmt Hap Hr. unfold sprintf. pose proof Hfmt as (Hc & Hlim & Hrd).
  destruct (strlen_loop_gen (written m out (length tx) []) (byte_at m) limit m fmt 0 l) as (m1 & E1 & Hs1);
    [| by apply written_nil | by rewrite Z.add_0_r | done |].
  { intros m' a Hm' Ha. apply written_ld; [done |]. apply Hrd. lia. }
  unfold strlen. rewrite E1. cbn [mbind Res_bind]. rewrite Z.add_0_l, Nat2Z.id.
  destruct (format_loop_ok limit tmp2 (fun c index => st (out + index) 1 c) 1 (byte_at m) (apart out (length tx))
    (written m out (length tx)) (length tx)
    ltac:(lia) (fun a Ha => byte_at_byte m a Hm (proj1 Ha)) (written_ld m out (length tx))) with (fuel := length l)
    (fmt := fmt) (F := l) (pre := @nil Z) (l := l) (args := args) (ap := ap) (t := @nil Z) (m := m1)
    (index := 0) (tx := tx) (p := p) (ok := ok) as (m' & E & [Hs' _]); try done.
  - intros t m' c index [Hs Hl] Hb Hlt Hidx. rewrite Hidx by done.
    destruct (written_st m out t m' c Hs) as (m'' & -> & Hs''); [in_plain | done |].
    exists m''. split; [done |]. split; [done | rewrite length_app; cbn; lia].
  - cbn [length] in E. change (Z.of_nat 0) with 0 in E. rewrite E. cbn [mbind Res_bind app] in *.
    replace (0 + Z.of_nat (length tx) - (1 - 1) * p) with (Z.of_nat (length tx)) by lia.
    destruct ok; [| by exists m'].
    destruct (written_st m out tx m' 0 Hs') as (m'' & -> & Hs''); [in_plain | unfold is_byte; lia |]. by exists m''.
Qed.

(** C22. [printf] prints what its format means.  For a format string and
    arguments in plain memory, strings shorter than the loop limit, the bytes
    that reach the serial port are the text of [render], in order, and no plain
    memory changes.  The result is the number of characters without the "%%"
    ones, or -1 after the text before an unknown conversion. *)
Theorem printf_renders fmt ap l args m tx p ok : g_inv m ->
  readable_str limit (byte_at m) plain fmt l ->
  Forall2 (va_rel limit (byte_at m) plain) ap args -> render l args = Some (tx, p, ok) ->
  exists m', printf limit tmp2 fmt ap m = Ok (if ok then Z.of_nat (length tx) - p else -1, m') /\
    g_inv m' /\ console m' = console m ++ tx /\ forall x, plain x -> byte_at m' x = byte_at m x.
Proof using Htmp. intros Hm Hf Ha Hr. by apply (printf_ok fmt ap l args). Qed.

(** [sprintf] writes what its format means.  With room for the text and a
    NUL at [out], apart from the format and the string arguments, [sprintf]
    leaves exactly the text of [render] and a NUL there, changes nothing else
    and returns the length of the text; at an unknown conversion it returns -1
    after the text before it and adds no NUL. *)
Theorem sprintf_renders out fmt ap l args m tx p ok : g_inv m ->
  plain_range out (Z.of_nat (length tx) + 1) ->
  readable_str limit (byte_at m) (apart out (length tx)) fmt l ->
  Forall2 (va_rel limit (byte_at m) (apart out (length tx))) ap args -> render l args = Some (tx, p, ok) ->
  exists m', sprintf limit tmp2 out fmt ap m = Ok (if ok then Z.of_nat (length tx) else -1, m') /\
    settles m m' (put_view (byte_at m) out (if ok then tx ++ [0] else tx)).
Proof using Htmp. intros Hm Ho Hf Ha Hr. by apply (sprintf_ok out fmt ap l args m tx p ok). Qed.
End Print.

(** "%d%%" of -7, on the bus: three characters printed, two counted. *)
Lemma printf_renders_witness :
  exists d m', printf 10 (replicate 500 0) 0x80001000 [-7] (bus_with d [37; 100; 37; 37; 0]) = Ok (2, m') /\
    console m' = console (bus_with d [37; 100; 37; 37; 0]) ++ [45; 55; 37].
Proof.
  destruct (bus_with_ok [37; 100; 37; 37; 0]) as (d & Hb); [is_bytes |].
  destruct (printf_renders 10 (replicate 500 0) eq_refl 0x80001000 [-7] [37; 100; 37; 37] [AInt (-7)]
    (bus_with d [37; 100; 37; 37; 0]) [45; 55; 37] 1 true Hb) as (m' & E & _ & Hc & _).
  - split; [is_cstr |]. split; [cbn; lia |]. intros a Ha. cbn in Ha. left. unfold in_pmem, MBASE, MSIZE. lia.
  - apply Forall2_cons. split; [reflexivity | by apply Forall2_nil].
  - reflexivity.
  - exists d, m'. split; [exact E | exact Hc].
Defined.

Lemma sprintf_renders_witness :
  exists d m', sprintf 10 (replicate 500 0) 0x80002000 0x80001000 [-7] (bus_with d [37; 100; 37; 37; 0]) = Ok (3, m').
Proof.
  destruct (bus_with_ok [37; 100; 37; 37; 0]) as (d & Hb); [is_bytes |].
  destruct (sprintf_renders 10 (replicate 500 0) eq_refl 0x80002000 0x80001000 [-7] [37; 100; 37; 37] [AInt (-7)]
    (bus_with d [37; 100; 37; 37; 0]) [45; 55; 37] 1 true Hb) as (m' & E & _).
  - pmem_range.
  - split; [is_cstr |]. split; [cbn; lia |]. intros a Ha. cbn in Ha.
    split; [left; unfold in_pmem, MBASE, MSIZE; lia | unfold within; cbn; lia].
  - apply Forall2_cons. split; [reflexivity | by apply Forall2_nil].
  - reflexivity.
  - exists d, m'. exact E.
Defined.
