(* ===== verification/Kstdlib.v ===== *)
(** * The guest's stdlib.h (am/klib/src/stdlib.c)

    The random numbers, [abs], [atoi] on a string in memory, and the heap: a
    pointer that moves up and remembers the last block.  Operations on the heap
    form a step relation with the list of live blocks; the invariant is that
    live blocks are aligned, inside the heap and apart from each other. *)

From S2P Require Import Prelude Word State Mmio Mem GuestMem Ringbuf Ftrace Expr Stdio Kstring Kstdio.
From Stdlib Require Import Ascii.

(** ** rand, srand, abs *)

(** [next] is an [unsigned long]. *)
Definition rand (next : Z) : Z * Z :=
  let next := wrap64 (next * 1103515245 + 12345) in
  (s32 (wrap32 (next / 65536) mod 32768), next).

Definition srand (seed : Z) : Z := wrap32 seed.

(** An [int] operation: overflow is undefined. *)
Definition int_op (v : Z) : Res Z := _ ← ensure Undefined ((INT_MIN <=? v) && (v <=? INT_MAX)); Ok v.

Definition abs (x : Z) : Res Z := if x <? 0 then int_op (- x) else Ok x.

(** ** atoi *)

Section Atoi.
Context {M : Type} `{GuestMemory M} (limit : nat).

(** [while ( *nptr == ' ') { nptr ++; }] *)
Fixpoint atoi_blanks (fuel : nat) (nptr : Z) (m : M) : Res (Z * M) :=
  match fuel with
  | O => Err Undefined
  | S fuel => '(c, m) ← ld nptr 1 m; if c =? ch " " then atoi_blanks fuel (nptr + 1) m else Ok (nptr, m)
  end.

(** [x = x * 10 + *nptr - '0'], evaluated from the left. *)
Definition atoi_digit (x c : Z) : Res Z :=
  a ← int_op (x * 10); b ← int_op (a + c); int_op (b - ch "0").

Fixpoint atoi_digits (fuel : nat) (nptr x : Z) (m : M) : Res (Z * M) :=
  match fuel with
  | O => Err Undefined
  | S fuel =>
      '(c, m) ← ld nptr 1 m;
      if c >=? ch "0" then
        '(c, m) ← ld nptr 1 m;
        if c <=? ch "9" then
          '(c, m) ← ld nptr 1 m;
          x ← atoi_digit x c;
          atoi_digits fuel (nptr + 1) x m
        else Ok (x, m)
      else Ok (x, m)
  end.

Definition atoi (nptr : Z) (m : M) : Res (Z * M) :=
  '(nptr, m) ← atoi_blanks limit nptr m; atoi_digits limit nptr 0 m.
End Atoi.

(** ** The heap *)

(** [last]; the null pointer is 0. *)
Record Last := mkLast {
  last_ptr : Z;
  last_size : Z;
}.

Definition last_static : Last := mkLast 0 0.

(** [ROUNDUP(a, sz)] of klib-macros.h. *)
Definition ROUNDUP (a sz : Z) : Z := Z.land (wrap64 (a + sz - 1)) (not64 (sz - 1)).

Section Heap.
Context {M : Type} `{GuestMemory M} (limit : nat) (tmp2 : list Z).
(** The area [heap], and where the string "heap start = %d" lies. *)
Context (heap_start heap_end msg : Z).

Definition malloc (size : Z) (l : Last) (m : M) : Res (Z * Last * M) :=
  '(l, m) ←
    (if last_ptr l =? 0 then
       '(_, m) ← printf limit tmp2 msg [heap_start] m; Ok (mkLast heap_start (last_size l), m)
     else Ok (l, m));
  let size := ROUNDUP size 8 in
  let l := mkLast (wrap64 (last_ptr l + last_size l)) (last_size l) in
  if wrap64 (last_ptr l + size) >=? heap_end then Ok (0, l, m)
  else Ok (last_ptr l, mkLast (last_ptr l) size, m).

Definition free (p : Z) (l : Last) : Last := if p =? last_ptr l then mkLast (last_ptr l) 0 else l.

(** ** Clients of the heap

    [heap_reach n live l m]: after [n] calls, with [live] the blocks handed out
    and not yet released (address and requested size).  A client asks for at
    least one byte and releases only live blocks or NULL. *)

Inductive heap_reach (m0 : M) : nat -> list (Z * Z) -> Last -> M -> Prop :=
  | reach_start : heap_reach m0 0 [] last_static m0
  | reach_malloc n live l m size p l' m' :
      heap_reach m0 n live l m -> 0 < size <= 2 ^ 62 -> malloc size l m = Ok (p, l', m') ->
      heap_reach m0 (S n) (if p =? 0 then live else (p, size) :: live) l' m'
  | reach_free n live1 live2 l m p size :
      heap_reach m0 n (live1 ++ (p, size) :: live2) l m ->
      heap_reach m0 (S n) (live1 ++ live2) (free p l) m
  | reach_free_null n live l m :
      heap_reach m0 n live l m -> heap_reach m0 (S n) live (free 0 l) m.

(** Aligned, inside the heap, and disjoint. *)
Definition block_ok (b : Z * Z) : Prop :=
  b.1 mod 8 = 0 /\ heap_start <= b.1 /\ 0 < b.2 /\ b.1 + b.2 < heap_end.
Definition blocks_apart (b b' : Z * Z) : Prop := b.1 + b.2 <= b'.1 \/ b'.1 + b'.2 <= b.1.
Definition heap_safe (live : list (Z * Z)) : Prop :=
  Forall block_ok live /\ List.ForallOrdPairs blocks_apart live.
End Heap.

(** ** Small properties *)

Lemma rand_range next : 0 <= (rand next).1 <= 32767 /\ is_word (rand next).2.
Proof.
  split; [| apply wrap64_word]. cbn [rand fst].
  pose proof (Z.mod_pos_bound (wrap32 (wrap64 (next * 1103515245 + 12345) / 65536)) 32768 ltac:(lia)).
  unfold s32. rewrite Z.mod_small by lia. case_if; lia.
Qed.

Lemma roundup_8 size : 0 < size <= 2 ^ 62 ->
  ROUNDUP size 8 mod 8 = 0 /\ size <= ROUNDUP size 8 < size + 8.
Proof.
  intros Hs. unfold ROUNDUP. change (8 - 1) with (2 ^ 3 - 1).
  rewrite land_not64_pow2 by (apply wrap64_word || lia). rewrite wrap64_small by (unfold is_word; lia).
  change (2 ^ 3) with 8. split; [apply Z.mod_mul; lia |].
  pose proof (Z.div_mod (size + 8 - 1) 8 ltac:(lia)). pose proof (Z.mod_pos_bound (size + 8 - 1) 8 ltac:(lia)). lia.
Qed.

(** ** The heap is safe *)

Lemma apart_remove {A} (R : A -> A -> Prop) l1 x l2 :
  List.ForallOrdPairs R (l1 ++ x :: l2) -> List.ForallOrdPairs R (l1 ++ l2).
Proof.
  induction l1 as [|y l1 IH]; cbn; intros Hp; inversion Hp; subst; [done |]. constructor; [| by apply IH].
  match goal with H : Forall _ (l1 ++ x :: l2) |- _ => apply Forall_app in H as [? H]; apply Forall_cons in H as [_ H] end.
  by apply Forall_app.
Qed.

Lemma apart_middle {A} (R : A -> A -> Prop) l1 x l2 : Symmetric R ->
  List.ForallOrdPairs R (l1 ++ x :: l2) -> Forall (R x) (l1 ++ l2).
Proof.
  intros Hsym. induction l1 as [|y l1 IH]; cbn; intros Hp; inversion Hp; subst; [done |].
  match goal with H : Forall _ (l1 ++ x :: l2) |- _ => apply Forall_app in H as [? H]; apply Forall_cons in H as [Hx H] end.
  constructor; [by symmetry | by apply IH].
Qed.

#[export] Instance blocks_apart_sym : Symmetric blocks_apart.
Proof. intros b b' [?|?]; [by right | by left]. Qed.

(** "heap start = %d" *)
Definition heap_msg : list Z := ch <$> text_of "heap start = %d".

Section HeapSpec.
Context {M : Type} `{SerialLaws M} (limit : nat) (tmp2 : list Z) (heap_start heap_end msg : Z) (m0 : M).
Context (Htmp : length tmp2 = 500%nat) (Hm0 : g_inv m0).
Context (Hmsg : readable_str limit (byte_at m0) plain msg heap_msg).
Context (Hstart : heap_start mod 8 = 0) (Harea : 0 < heap_start < heap_end) (Hend : heap_end <= 2 ^ 32).

(** Where [last] can be once the heap is in use, after [n] calls: every failed
    call moves the pointer by the size of the last block. *)
Record heap_inv (n : nat) (live : list (Z * Z)) (l : Last) : Prop := {
  hi_safe : heap_safe heap_start heap_end live;
  hi_ptr : heap_start <= last_ptr l <= heap_end + Z.of_nat n * (heap_end - heap_start);
  hi_align : last_ptr l mod 8 = 0 /\ last_size l mod 8 = 0;
  hi_size : 0 <= last_size l <= heap_end - heap_start;
  hi_live : Forall (fun b => b.1 + b.2 <= last_ptr l \/ (b.1 = last_ptr l /\ b.2 <= last_size l)) live;
}.

Definition heap_state (n : nat) (live : list (Z * Z)) (l : Last) (m : M) : Prop :=
  g_inv m /\ (forall x, plain x -> byte_at m x = byte_at m0 x) /\
  ((l = last_static /\ live = []) \/ heap_inv n live l).

Lemma heap_inv_le n n' live l : (n <= n')%nat -> heap_inv n live l -> heap_inv n' live l.
Proof. intros Hn [? ? ? ? ?]. split; try done. nia. Qed.

(** One call of [malloc], first call or not. *)
Lemma malloc_first l m : g_inv m -> (forall x, plain x -> byte_at m x = byte_at m0 x) ->
  exists m', (if last_ptr l =? 0 then
       '(_, m) ← printf limit tmp2 msg [heap_start] m; Ok (mkLast heap_start (last_size l), m)
     else Ok (l, m)) = Ok (if last_ptr l =? 0 then mkLast heap_start (last_size l) else l, m') /\
    g_inv m' /\ forall x, plain x -> byte_at m' x = byte_at m0 x.
Proof.
  intros Hm Hb. destruct (Z.eqb_spec (last_ptr l) 0); [| by exists m].
  destruct (printf_ok limit tmp2 Htmp msg [heap_start] heap_msg [AInt (s32 heap_start)] m
    (take 13 heap_msg ++ int_text (s32 heap_start) ++ []) 0 true) as (m' & -> & Hp & _ & Hb'); [done | | | |].
  - destruct Hmsg as (Hc & Hlim & Hrd). split; [| done]. destruct Hc as [Hc1 Hc2]. split; [done |]. rewrite <- Hc2.
    apply view_bytes_ext. intros x Hx. apply Hb, Hrd. lia.
  - by repeat constructor.
  - reflexivity.
  - exists m'. split; [done |]. split; [done |]. intros x Hx. by rewrite Hb', Hb.
Qed.

Lemma malloc_ok n live l m size : heap_state n live l m -> Z.of_nat n <= 2 ^ 30 -> 0 < size <= 2 ^ 62 ->
  exists p l' m', malloc limit tmp2 heap_start heap_end msg size l m = Ok (p, l', m') /\
    heap_state (S n) (if p =? 0 then live else (p, size) :: live) l' m' /\
    let base := if last_ptr l =? 0 then heap_start else last_ptr l + last_size l in
    p = if base + ROUNDUP size 8 <? heap_end then base else 0.
Proof.
  intros (Hm & Hb & Hl) Hn Hs. destruct (roundup_8 size Hs) as [Hr8 Hr]. unfold malloc.
  destruct (malloc_first l m Hm Hb) as (m' & -> & Hm' & Hb'). cbn [mbind Res_bind].
  set (r := ROUNDUP size 8) in *.
  set (l1 := if last_ptr l =? 0 then mkLast heap_start (last_size l) else l).
  assert (Hl1 : heap_inv n live l1 /\ last_ptr l1 + last_size l1 =
      if last_ptr l =? 0 then heap_start else last_ptr l + last_size l).
  { unfold l1. destruct Hl as [[-> ->]|Hi].
    - cbn. split; [| lia]. split; cbn; try done; try lia; [split; constructor | nia].
    - replace (last_ptr l =? 0) with false by (destruct Hi; lia). done. }
  destruct Hl1 as [[[Hbk Hap] Hp [Ha1 Ha2] Hsz Hlv] Hbase]. cbn zeta. rewrite <- Hbase.
  set (q := last_ptr l1 + last_size l1) in *.
  assert (Hq : heap_start <= q <= heap_end + Z.of_nat (S n) * (heap_end - heap_start)) by (unfold q; nia).
  assert (Hq62 : q <= 2 ^ 63) by (assert (Z.of_nat n <= 2 ^ 30) by lia; nia).
  assert (Hq8 : q mod 8 = 0) by (unfold q; rewrite Z.add_mod, Ha1, Ha2 by lia; done).
  assert (Hlv' : Forall (fun b => b.1 + b.2 <= q) live).
  { eapply Forall_impl; [exact Hlv |]. cbn. intros b. unfold q. lia. }
  cbn [last_ptr last_size]. fold q. rewrite (wrap64_small q), (wrap64_small (q + r)) by (unfold is_word; lia).
  rewrite Z.geb_leb. destruct (Z.leb_spec heap_end (q + r)) as [Hfull|Hfit].
  - eexists 0, _, m'. split; [reflexivity |]. rewrite Z.eqb_refl.
    replace (q + r <? heap_end) with false by lia. split; [| done]. split; [done |]. split; [done |]. right.
    split; cbn; try done; try lia. eapply Forall_impl; [exact Hlv' |]. cbn. intros b. lia.
  - eexists q, _, m'. split; [reflexivity |]. replace (q + r <? heap_end) with true by lia. split; [| done].
    replace (q =? 0) with false by lia. split; [done |]. split; [done |]. right. split; cbn; try done; try lia.
    + split; [apply Forall_cons; split; [| done] |]; [unfold block_ok; cbn; lia |].
      constructor; [| done]. eapply Forall_impl; [exact Hlv' |]. intros b Hbq. right. exact Hbq.
    + apply Forall_cons. split; [cbn; lia |]. eapply Forall_impl; [exact Hlv' |]. cbn. intros b. lia.
Qed.

Lemma free_ok n live1 live2 l m p size : heap_state n (live1 ++ (p, size) :: live2) l m ->
  heap_state (S n) (live1 ++ live2) (free p l) m.
Proof.
  intros (Hm & Hb & [[_ Hnil]|Hi]); [by destruct live1 |]. split; [done |]. split; [done |]. right.
  apply (heap_inv_le n (S n)) in Hi as [[Hbk Hap] Hp Hal Hsz Hlv]; [| lia].
  pose proof (apart_middle _ _ _ _ _ Hap) as Hmid.
  apply Forall_app in Hbk as [Hb1 Hb2]. apply Forall_cons in Hb2 as [Hbp Hb2].
  apply Forall_app in Hlv as [Hv1 Hv2]. apply Forall_cons in Hv2 as [Hvp Hv2].
  assert (Hbk' : Forall (block_ok heap_start heap_end) (live1 ++ live2)) by (by apply Forall_app).
  assert (Hlv' : Forall (fun b => b.1 + b.2 <= last_ptr l \/ (b.1 = last_ptr l /\ b.2 <= last_size l)) (live1 ++ live2))
    by (by apply Forall_app).
  unfold free. destruct (Z.eqb_spec p (last_ptr l)) as [->|Hne].
  - split; cbn [last_ptr last_size]; [split; [done | by eapply apart_remove] | done | by split; [apply Hal |] | lia |].
    apply Forall_forall. intros b Hin. rewrite Forall_forall in Hbk', Hlv', Hmid.
    specialize (Hbk' b Hin). specialize (Hlv' b Hin). specialize (Hmid b Hin).
    unfold block_ok, blocks_apart in *. cbn in *. lia.
  - split; try done. split; [done | by eapply apart_remove].
Qed.

Lemma reach_state n live l m : heap_reach limit tmp2 heap_start heap_end msg m0 n live l m ->
  Z.of_nat n <= 2 ^ 30 -> heap_state n live l m.
Proof.
  induction 1 as [|n live l m size p l' m' _ IH Hs E|n live1 live2 l m p size _ IH|n live l m _ IH]; intros Hn.
  - split; [done |]. split; [done |]. by left.
  - destruct (malloc_ok n live l m size) as (p1 & l1 & m1 & E1 & Hst & _); [apply IH; lia | lia | done |].
    rewrite E1 in E. by injection E as <- <- <-.
  - eapply free_ok, IH. lia.
  - destruct IH as (Hm & Hb & Hl); [lia |]. split; [done |]. split; [done |].
    destruct Hl as [[-> ->]|Hi]; [by left | right]. unfold free.
    replace (0 =? last_ptr l) with false by (destruct Hi; lia). eapply heap_inv_le; [| done]. lia.
Qed.

(** C23. The heap never hands out memory twice.  After any sequence of up to
    [2^30] calls in which the client asks for at least one byte and releases only
    live blocks or NULL, the live blocks are 8-byte aligned, lie inside the heap
    and are pairwise disjoint; and the next [malloc] returns without fault: the
    address after the last block if the rounded size fits strictly below the end
    of the heap, else NULL. *)
Theorem heap_blocks_disjoint n live l m :
  heap_reach limit tmp2 heap_start heap_end msg m0 n live l m -> Z.of_nat n <= 2 ^ 30 ->
  heap_safe heap_start heap_end live /\
  forall size, 0 < size <= 2 ^ 62 ->
    let base := if last_ptr l =? 0 then heap_start else last_ptr l + last_size l in
    exists l' m', malloc limit tmp2 heap_start heap_end msg size l m =
      Ok (if base + ROUNDUP size 8 <? heap_end then base else 0, l', m').
Proof.
  intros Hr Hn. pose proof (reach_state _ _ _ _ Hr Hn) as Hst. split.
  - destruct Hst as (_ & _ & [[_ ->]|[? _ _ _ _]]); [split; constructor | done].
  - intros size Hs. destruct (malloc_ok n live l m size Hst Hn Hs) as (p & l' & m' & E & _ & ->). by exists l', m'.
Qed.
End HeapSpec.

(** The string lies at 0x80001000 and the heap from 0x80100000 to the end of
    memory; one block of ten bytes has been handed out. *)
Lemma heap_blocks_disjoint_witness :
  exists d l m, let b := bus_with d (heap_msg ++ [0]) in
    heap_reach 20 (replicate 500 0) 0x80100000 0x88000000 0x80001000 b 1 [(0x80100000, 10)] l m /\
    heap_safe 0x80100000 0x88000000 [(0x80100000, 10)].
Proof.
  destruct (bus_with_ok (heap_msg ++ [0])) as (d & Hb).
  { change (heap_msg ++ [0]) with [104; 101; 97; 112; 32; 115; 116; 97; 114; 116; 32; 61; 32; 37; 100; 0]. is_bytes. }
  set (b := bus_with d (heap_msg ++ [0])) in *.
  assert (Hmsg : readable_str 20 (byte_at b) plain 0x80001000 heap_msg).
  { split; [split; [| vm_compute; reflexivity] |].
    - change heap_msg with [104; 101; 97; 112; 32; 115; 116; 97; 114; 116; 32; 61; 32; 37; 100].
      repeat (apply Forall_cons; split; [lia |]). by apply Forall_nil.
    - split; [vm_compute; lia |]. intros a Ha. change (Z.of_nat (length heap_msg)) with 15 in Ha.
      left. unfold in_pmem, MBASE, MSIZE. lia. }
  destruct (malloc_ok 20 (replicate 500 0) 0x80100000 0x88000000 0x80001000 b eq_refl Hmsg eq_refl ltac:(lia)
    ltac:(lia) 0 [] last_static b 10) as (p & l & m & E & _ & Hp); [| lia | lia |].
  { split; [exact Hb |]. split; [done |]. by left. }
  change (p = 0x80100000) in Hp. subst p.
  assert (Hr : heap_reach 20 (replicate 500 0) 0x80100000 0x88000000 0x80001000 b 1 [(0x80100000, 10)] l m)
    by (exact (reach_malloc _ _ _ _ _ b 0 [] last_static b 10 _ l m (reach_start _ _ _ _ _ b) ltac:(lia) E)).
  exists d, l, m. split; [exact Hr |].
  apply (heap_blocks_disjoint 20 (replicate 500 0) 0x80100000 0x88000000 0x80001000 b eq_refl Hb Hmsg eq_refl
    ltac:(lia) ltac:(lia) 1 _ l m Hr). lia.
Defined.

Section Unsafe.
Context {M : Type} `{GuestMemory M} (limit : nat) (tmp2 : list Z) (heap_start heap_end msg : Z).
Implicit Types (m : M).

Lemma malloc_used size l m : last_ptr l <> 0 -> is_word (last_ptr l + last_size l) ->
  malloc limit tmp2 heap_start heap_end msg size l m =
  let q := last_ptr l + last_size l in let r := ROUNDUP size 8 in
  Ok (if wrap64 (q + r) >=? heap_end then (0, mkLast q (last_size l), m) else (q, mkLast q r, m)).
Proof.
  intros Hu Hq. unfold malloc. replace (last_ptr l =? 0) with false by lia. cbn [mbind Res_bind last_ptr last_size].
  rewrite (wrap64_small (last_ptr l + last_size l)) by done. cbn zeta. by case_if.
Qed.

(** What the size arithmetic of [malloc] does outside its contract, for a
    heap in use with at least eight bytes left.  A request of [2^64 - 7] bytes or
    more rounds up to zero and gets a non-null pointer to an empty block; and a
    block of zero bytes shares its address with the next one, so that releasing
    it gives the live block away: the call after that returns the same address. *)
Theorem malloc_outside_contract size l m : last_ptr l <> 0 -> is_word (last_ptr l + last_size l) ->
  0 < last_ptr l + last_size l -> last_ptr l + last_size l + 8 < heap_end <= 2 ^ 32 ->
  2 ^ 64 - 7 <= size < 2 ^ 64 ->
  let q := last_ptr l + last_size l in
  malloc limit tmp2 heap_start heap_end msg size l m = Ok (q, mkLast q 0, m) /\
  (l1 ← malloc limit tmp2 heap_start heap_end msg 0 l m;
   l2 ← malloc limit tmp2 heap_start heap_end msg 8 l1.1.2 l1.2;
   l3 ← malloc limit tmp2 heap_start heap_end msg 8 (free l1.1.1 l2.1.2) l2.2;
   Ok (l1.1.1, l2.1.1, l3.1.1)) = Ok (q, q, q).
Proof.
  intros Hu Hw Hpos Hroom Hs q.
  assert (Hr : ROUNDUP size 8 = 0).
  { unfold ROUNDUP. replace (size + 8 - 1) with (size + 7 - 2 ^ 64 + 1 * 2 ^ 64) by lia.
    unfold wrap64. rewrite Z.mod_add, Z.mod_small by lia.
    assert (Hx : (size + 7 - 2 ^ 64) ∈ seqZ_from 0 7) by (apply elem_of_seqZ_from; lia).
    set (x := size + 7 - 2 ^ 64) in *. clearbody x. cbn [seqZ_from Z.add Pos.add Pos.succ] in Hx.
    elem_cases Hx; reflexivity. }
  assert (Hw0 : forall r, 0 <= r <= 8 -> (wrap64 (q + r) >=? heap_end) = false)
    by (intros r Hr'; rewrite wrap64_small by (unfold is_word in *; lia); lia).
  split.
  - rewrite malloc_used by done. cbn zeta. rewrite Hr. fold q. by rewrite Hw0 by lia.
  - rewrite malloc_used by done. cbn zeta. change (ROUNDUP 0 8) with 0. fold q. rewrite Hw0 by lia.
    cbn [mbind Res_bind fst snd]. rewrite malloc_used by (cbn; unfold is_word in *; lia).
    cbn [last_ptr last_size]. cbn zeta. change (ROUNDUP 8 8) with 8. rewrite Z.add_0_r, Hw0 by lia.
    cbn [mbind Res_bind fst snd]. unfold free. cbn [last_ptr]. rewrite Z.eqb_refl.
    rewrite malloc_used by (cbn; unfold is_word in *; lia). cbn [last_ptr last_size]. cbn zeta.
    change (ROUNDUP 8 8) with 8. by rewrite Z.add_0_r, Hw0 by lia.
Qed.
End Unsafe.

Lemma malloc_outside_contract_witness :
  exists d, let b := bus_with d [] in
    malloc 20 (replicate 500 0) 0x80100000 0x88000000 0x80001000 (2 ^ 64 - 1) (mkLast 0x80100000 16) b =
    Ok (0x80100010, mkLast 0x80100010 0, b).
Proof.
  destruct (bus_with_ok []) as (d & _); [is_bytes |]. exists d.
  apply (malloc_outside_contract 20 (replicate 500 0) 0x80100000 0x88000000 0x80001000
    (2 ^ 64 - 1) (mkLast 0x80100000 16) (bus_with d [])); cbn [last_ptr last_size]; unfold is_word; lia.
Defined.

(** ** atoi reads what int2str writes *)

Definition digit_code (c : Z) : Prop := ch "0" <= c <= ch "9".
(** The value of digits after [x]. *)
Definition dec_val (x : Z) (ds : list Z) : Z := foldl (fun x c => x * 10 + (c - ch "0")) x ds.

(** Within range even before the ['0'] is taken off. *)
Lemma atoi_digit_ok x c : 0 <= x -> digit_code c -> x * 10 + c <= INT_MAX ->
  atoi_digit x c = Ok (x * 10 + (c - ch "0")).
Proof.
  unfold digit_code, atoi_digit, int_op, INT_MAX, INT_MIN. change (ch "0") with 48. change (ch "9") with 57.
  intros Hx Hc Hm. replace ((- 2 ^ 31 <=? x * 10) && (x * 10 <=? 2 ^ 31 - 1)) with true by lia.
  cbn [ensure mbind Res_bind]. replace ((- 2 ^ 31 <=? x * 10 + c) && (x * 10 + c <=? 2 ^ 31 - 1)) with true by lia.
  cbn [ensure mbind Res_bind].
  replace ((- 2 ^ 31 <=? x * 10 + c - 48) && (x * 10 + c - 48 <=? 2 ^ 31 - 1)) with true by lia.
  cbn [ensure mbind Res_bind]. f_equal. lia.
Qed.

Lemma dec_val_ge ds x : 0 <= x -> Forall digit_code ds -> x <= dec_val x ds.
Proof.
  intros Hx Hd. revert x Hx. induction Hd as [|c ds Hc _ IH]; intros x Hx; cbn [dec_val foldl]; [lia |].
  unfold digit_code in Hc. specialize (IH (x * 10 + (c - ch "0")) ltac:(lia)). unfold dec_val in *. lia.
Qed.

Section AtoiSpec.
Context {M : Type} `{GuestLaws M} (limit : nat).
Implicit Types (m : M).

(** Digits up to a character that is none; a NUL is none. *)
Lemma atoi_digits_ok fuel m0 m f p x ds rest : settles m0 m f -> cstr f p (ds ++ rest) ->
  str_range p (ds ++ rest) -> Forall digit_code ds -> (forall c r, rest = c :: r -> ~ digit_code c) ->
  0 <= x -> (length ds < fuel)%nat -> (ds = [] \/ dec_val x ds + ch "0" <= INT_MAX) ->
  exists m', atoi_digits fuel p x m = Ok (dec_val x ds, m') /\ settles m0 m' f.
Proof.
  revert m p x ds. induction fuel as [|fuel IH]; intros m p x ds Hs Hc Hr Hd Hrest Hx Hf Hmax; [lia |].
  cbn [atoi_digits]. unfold str_range in Hr. rewrite length_app in Hr.
  destruct (ld_byte_view m0 m f p Hs) as (m1 & -> & Hs1); [in_plain |]. cbn [mbind Res_bind].
  destruct ds as [|c ds].
  - cbn [app dec_val foldl] in *. assert (Hnd : ~ digit_code (f p)).
    { destruct rest as [|c r]; [apply cstr_nil in Hc as -> | apply cstr_cons in Hc as (-> & _); by eapply Hrest].
      unfold digit_code. change (ch "0") with 48. lia. }
    unfold digit_code in Hnd. rewrite Z.geb_leb. destruct (Z.leb_spec (ch "0") (f p)); [| by exists m1].
    destruct (ld_byte_view m0 m1 f p Hs1) as (m2 & -> & Hs2); [in_plain |]. cbn [mbind Res_bind].
    destruct (Z.leb_spec (f p) (ch "9")); [lia | by exists m2].
  - cbn [app] in Hc. apply cstr_cons in Hc as (Ec & _ & Hc). apply Forall_cons in Hd as [Hdc Hd].
    destruct Hmax as [|Hmax]; [done |]. cbn [length] in *.
    pose proof (dec_val_ge ds (x * 10 + (c - ch "0")) ltac:(unfold digit_code in Hdc; lia) Hd) as Hge.
    change (dec_val x (c :: ds)) with (dec_val (x * 10 + (c - ch "0")) ds) in *.
    pose proof Hdc as [Hc0 Hc9]. rewrite Ec, Z.geb_leb. replace (ch "0" <=? c) with true by lia.
    destruct (ld_byte_view m0 m1 f p Hs1) as (m2 & -> & Hs2); [in_plain |]. cbn [mbind Res_bind].
    rewrite Ec. replace (c <=? ch "9") with true by lia.
    destruct (ld_byte_view m0 m2 f p Hs2) as (m3 & -> & Hs3); [in_plain |]. cbn [mbind Res_bind].
    rewrite Ec, atoi_digit_ok by (done || lia). cbn [mbind Res_bind].
    apply (IH m3 (p + 1) (x * 10 + (c - ch "0")) ds); [done | done | | done | done | lia | lia | by right].
    unfold str_range. rewrite length_app. in_plain.
Qed.

Lemma atoi_blanks_ok fuel m0 m f p n l : settles m0 m f -> cstr f p (replicate n (ch " ") ++ l) ->
  str_range p (replicate n (ch " ") ++ l) -> (forall r, l <> ch " " :: r) -> (n < fuel)%nat ->
  exists m', atoi_blanks fuel p m = Ok (p + Z.of_nat n, m') /\ settles m0 m' f.
Proof.
  revert m p n. induction fuel as [|fuel IH]; intros m p n Hs Hc Hr Hl Hf; [lia |]. cbn [atoi_blanks].
  unfold str_range in Hr. rewrite length_app, length_replicate in Hr.
  destruct (ld_byte_view m0 m f p Hs) as (m1 & -> & Hs1); [in_plain |]. cbn [mbind Res_bind].
  destruct n as [|n]; cbn [replicate app] in Hc.
  - rewrite Z.add_0_r. assert (f p <> ch " ").
    { destruct l as [|c l]; [by apply cstr_nil in Hc as -> | apply cstr_cons in Hc as (-> & _)].
      intros ->. by apply (Hl l). }
    replace (f p =? ch " ") with false by lia. by exists m1.
  - apply cstr_cons in Hc as (-> & _ & Hc). rewrite Z.eqb_refl.
    destruct (IH m1 (p + 1) n) as (m' & -> & Hs'); [done | done | | done | lia |].
    + unfold str_range. rewrite length_app, length_replicate. in_plain.
    + exists m'. split; [do 2 f_equal; lia | done].
Qed.
End AtoiSpec.

(** The digits of a number that is not negative. *)
Lemma int_text_digits v : 0 <= v < 2 ^ 31 ->
  Forall digit_code (int_text v) /\ dec_val 0 (int_text v) = v /\ int_text v <> [] /\
  (length (int_text v) <= 20)%nat.
Proof.
  intros Hv. unfold int_text, fmt_d. replace (v <? 0) with false by lia.
  destruct (fmt_u_ok 19 v) as (Hd & Hn & Hne); [cbn; lia |]. fold (fmt_u 10 v) in *.
  assert (Hdec : forall x (s : list ascii), Forall (fun c => digit c = true) s ->
    dec_val x (ch <$> s) = foldl (fun v c => v * 10 + digit_val c) x s).
  { intros x s Hs. revert x. induction Hs as [|c s Hc _ IH]; intros x; [done |]. cbn [fmap list_fmap dec_val foldl].
    unfold dec_val in IH. rewrite IH. f_equal. unfold digit_val. by rewrite Hc. }
  split; [| split; [| split]].
  - apply Forall_fmap. eapply Forall_impl; [exact Hd |]. intros c Hc. unfold digit, between in Hc. cbn.
    unfold digit_code. lia.
  - rewrite Hdec by done. exact Hn.
  - by destruct (fmt_u 10 v).
  - rewrite length_fmap. unfold fmt_u. rewrite length_fmap.
    assert (Hl : forall k b w, (length (digits_of k b w) <= S k)%nat).
    { induction k as [|k IH]; intros b w; cbn [digits_of]; [cbn; lia |]. case_if; [cbn; lia |].
      rewrite length_app. specialize (IH b (w / b)). cbn. lia. }
    apply Hl.
Qed.

(** Numbers survive [int2str] and [atoi].  For every [int] from 0 to
    2147483599, [atoi] of the text that [int2str] writes, after any number of
    blanks, is the number; a minus sign makes [atoi] return 0. *)
Theorem atoi_int2str {M} `{GuestLaws M} limit v s n (m : M) junk :
  - 2 ^ 31 <= v <= INT_MAX - 48 -> length junk = 500%nat -> g_inv m ->
  cstr (byte_at m) s (replicate n (ch " ") ++ int_text v) -> str_range s (replicate n (ch " ") ++ int_text v) ->
  (n < limit)%nat -> (20 < limit)%nat ->
  exists rest m',
    int2str v junk = Ok (Z.of_nat (length (int_text v)), int_text v ++ 0 :: rest) /\
    atoi limit s m = Ok (if v <? 0 then 0 else v, m') /\ settles m m' (byte_at m).
Proof.
  intros Hv Hj Hm Hc Hr Hn Hl. unfold INT_MAX in Hv.
  destruct (int2str_ok v junk ltac:(lia) ltac:(lia)) as (rest & Erest). exists rest.
  assert (Hhd : forall r, int_text v <> ch " " :: r).
  { intros r E. destruct (Z.ltb_spec v 0) as [Hneg|Hpos].
    - unfold int_text, fmt_d in E. by replace (v <? 0) with true in E by lia.
    - destruct (int_text_digits v) as (Hd & _); [lia |]. rewrite E in Hd. by apply Forall_cons in Hd as [[Hd _] _]. }
  unfold atoi. destruct (atoi_blanks_ok limit m m (byte_at m) s n (int_text v)) as (m1 & -> & Hs1);
    [by apply settles_refl | done .. |]. cbn [mbind Res_bind].
  assert (Hc2 : cstr (byte_at m) (s + Z.of_nat n) (int_text v)).
  { clear Hr Hs1. revert s Hc. induction n as [|n IH]; intros s Hc; [by rewrite Z.add_0_r |].
    cbn [replicate app] in Hc. apply cstr_cons in Hc as (_ & _ & Hc).
    replace (s + Z.of_nat (S n)) with (s + 1 + Z.of_nat n) by lia. apply IH; [lia | done]. }
  unfold str_range in Hr. rewrite length_app, length_replicate in Hr.
  destruct (Z.ltb_spec v 0) as [Hneg|Hpos].
  - destruct (atoi_digits_ok limit m m1 (byte_at m) (s + Z.of_nat n) 0 [] (int_text v)) as (m' & E & Hs');
      [done | done | unfold str_range; cbn [app]; in_plain | done | | done | cbn; lia | by left |].
    { intros c r E. unfold int_text, fmt_d in E. replace (v <? 0) with true in E by lia. injection E as <- _.
      unfold digit_code. vm_compute. intros [Hx _]. by apply Hx. }
    by exists m'.
  - destruct (int_text_digits v) as (Hd & Hval & _ & Hlen); [lia |].
    destruct (atoi_digits_ok limit m m1 (byte_at m) (s + Z.of_nat n) 0 (int_text v) []) as (m' & E & Hs');
      [done | by rewrite app_nil_r | rewrite app_nil_r; unfold str_range; in_plain | done | done | done | lia | |].
    { right. rewrite Hval. unfold INT_MAX. change (ch "0") with 48. lia. }
    rewrite Hval in E. by exists m'.
Qed.

(** " 42" *)
Lemma atoi_int2str_witness :
  exists d m', atoi 21 0x80001000 (bus_with d [32; 52; 50; 0]) = Ok (42, m').
Proof.
  destruct (bus_with_ok [32; 52; 50; 0]) as (d & Hb); [is_bytes |].
  destruct (atoi_int2str 21 42 0x80001000 1 (bus_with d [32; 52; 50; 0]) (replicate 500 0)) as (rest & m' & _ & E & _).
  - unfold INT_MAX. lia.
  - reflexivity.
  - exact Hb.
  - change (replicate 1 (ch " ") ++ int_text 42) with [32; 52; 50]. is_cstr.
  - pmem_range.
  - lia.
  - lia.
  - exists d, m'. exact E.
Defined.

(** Above that, the intermediate sum overflows: [atoi("2147483647")]. *)
Example atoi_digit_overflow : atoi_digit 214748364 (ch "7") = Err Undefined.
Proof. reflexivity. Qed.
