(* ===== verification/Am.v ===== *)
(** * The guest's platform layer (am/am/src/platform/nemu)

    Console, clock, keyboard and screen drivers of the AbstractMachine port
    that programs for the simulator are linked with (ARCH=riscv64-nemu), written
    against [GuestMemory], and their composition with the simulator's devices:
    what the drivers return when every access is an access to the bus. *)

From S2P Require Import Prelude Word State Pmp Mmio Mem GuestMem Expr Stdio Kstring Kstdio Kstdlib.
From Stdlib Require Import Ascii.

(** ** include/nemu.h *)

Definition DEVICE_BASE : Z := 0xa0000000.
Definition KBD_ADDR : Z := DEVICE_BASE + 0x0000060.
Definition RTC_ADDR : Z := DEVICE_BASE + 0x0000048.
Definition VGACTL_ADDR : Z := DEVICE_BASE + 0x0000100.
Definition SYNC_ADDR : Z := VGACTL_ADDR + 4.
Definition FB_ADDR : Z := 0xa0000000 + 0x1000000.
Definition PMEM_END : Z := 0x80000000 + 128 * 1024 * 1024.

(** ** include/amdev.h: the abstract device registers *)

Definition AM_UART_CONFIG : Z := 1.
Definition AM_TIMER_CONFIG : Z := 4.
Definition AM_TIMER_RTC : Z := 5.
Definition AM_TIMER_UPTIME : Z := 6.
Definition AM_INPUT_CONFIG : Z := 7.
Definition AM_INPUT_KEYBRD : Z := 8.
Definition AM_GPU_CONFIG : Z := 9.
Definition AM_GPU_STATUS : Z := 10.
Definition AM_GPU_FBDRAW : Z := 11.
Definition AM_AUDIO_CONFIG : Z := 14.
Definition AM_AUDIO_CTRL : Z := 15.
Definition AM_AUDIO_STATUS : Z := 16.
Definition AM_AUDIO_PLAY : Z := 17.
Definition AM_DISK_CONFIG : Z := 18.
Definition AM_DISK_STATUS : Z := 19.
Definition AM_DISK_BLKIO : Z := 20.
Definition AM_NET_CONFIG : Z := 21.

(** The structures [AM_x_T].  Of a structure that a driver leaves alone, only
    the name is kept. *)
Record AM_GPU_FBDRAW_T := mkFbdraw { fb_x : Z; fb_y : Z; fb_pixels : Z; fb_w : Z; fb_h : Z; fb_sync : bool }.

Inductive am_buf :=
  | UartConfig (present : bool)
  | TimerConfig (present has_rtc : bool)
  | TimerRtc (year month day hour minute second : Z)
  | TimerUptime (us : Z)
  | InputConfig (present : bool)
  | InputKeybrd (keydown : bool) (keycode : Z)
  | GpuConfig (present has_accel : bool) (width height vmemsz : Z)
  | GpuStatus (ready : bool)
  | GpuFbdraw (ctl : AM_GPU_FBDRAW_T)
  | AudioConfig (present : bool) (bufsize : Z)
  | AudioCtrl
  | AudioStatus (count : Z)
  | AudioPlay
  | DiskConfig (present : bool) (blksz blkcnt : Z)
  | DiskStatus (ready : bool)
  | DiskBlkio
  | NetConfig (present : bool).

(** The names of [AM_KEYS]; [AM_KEY_x] is the position plus one. *)
Definition AM_KEYS : list string :=
  [ "ESCAPE"; "F1"; "F2"; "F3"; "F4"; "F5"; "F6"; "F7"; "F8"; "F9"; "F10"; "F11"; "F12";
    "GRAVE"; "1"; "2"; "3"; "4"; "5"; "6"; "7"; "8"; "9"; "0"; "MINUS"; "EQUALS"; "BACKSPACE";
    "TAB"; "Q"; "W"; "E"; "R"; "T"; "Y"; "U"; "I"; "O"; "P"; "LEFTBRACKET"; "RIGHTBRACKET"; "BACKSLASH";
    "CAPSLOCK"; "A"; "S"; "D"; "F"; "G"; "H"; "J"; "K"; "L"; "SEMICOLON"; "APOSTROPHE"; "RETURN";
    "LSHIFT"; "Z"; "X"; "C"; "V"; "B"; "N"; "M"; "COMMA"; "PERIOD"; "SLASH"; "RSHIFT";
    "LCTRL"; "APPLICATION"; "LALT"; "SPACE"; "RALT"; "RCTRL";
    "UP"; "DOWN"; "LEFT"; "RIGHT"; "INSERT"; "DELETE"; "HOME"; "END"; "PAGEUP"; "PAGEDOWN" ]%string.

Definition AM_KEY_NONE : Z := 0.
Definition AM_KEY (i : nat) : Z := Z.of_nat i + 1.

(** ** The drivers *)

(** What [lut] points to. *)
Inductive handler :=
  | am_timer_config | am_timer_rtc | am_timer_uptime | am_input_config | am_input_keybrd
  | am_gpu_config | am_gpu_fbdraw | am_gpu_status | am_uart_config
  | am_audio_config | am_audio_ctrl | am_audio_status | am_audio_play
  | am_disk_config | am_disk_status | am_disk_blkio | am_net_config
  | am_fail.

(** The static variables of timer.c, gpu.c and ioe.c. *)
Record Am := mkAm {
  boot_us : Z;                        (** timer.c's [boot_time] *)
  gpu_w : Z;
  gpu_h : Z;
  lut : list (option handler);
}.

Definition lut_static : list (option handler) :=
  foldl (fun l '(i, h) => upd l i (Some h)) (replicate 128 None)
    [ (AM_TIMER_CONFIG, am_timer_config); (AM_TIMER_RTC, am_timer_rtc); (AM_TIMER_UPTIME, am_timer_uptime);
      (AM_INPUT_CONFIG, am_input_config); (AM_INPUT_KEYBRD, am_input_keybrd);
      (AM_GPU_CONFIG, am_gpu_config); (AM_GPU_FBDRAW, am_gpu_fbdraw); (AM_GPU_STATUS, am_gpu_status);
      (AM_UART_CONFIG, am_uart_config); (AM_AUDIO_CONFIG, am_audio_config); (AM_AUDIO_CTRL, am_audio_ctrl);
      (AM_AUDIO_STATUS, am_audio_status); (AM_AUDIO_PLAY, am_audio_play); (AM_DISK_CONFIG, am_disk_config);
      (AM_DISK_STATUS, am_disk_status); (AM_DISK_BLKIO, am_disk_blkio); (AM_NET_CONFIG, am_net_config) ].

Definition am_static : Am := mkAm 0 0 0 lut_static.

Section Drivers.
Context {M : Type} `{GuestMemory M}.
Implicit Types (m : M) (a : Am).

(** timer.c *)
Definition am_get_time m : Res (Z * M) :=
  '(lo, m) ← ld RTC_ADDR 4 m;
  '(hi, m) ← ld (RTC_ADDR + 4) 4 m;
  Ok (Z.lor lo (Z.shiftl hi 32), m).

Definition timer_init a m : Res (Am * M) :=
  '(t, m) ← am_get_time m; Ok ({| a with boot_us := t |}, m).

Definition timer_uptime a m : Res (am_buf * M) :=
  '(t, m) ← am_get_time m; Ok (TimerUptime (wrap64 (t - boot_us a)), m).

(** input.c *)
Definition input_keybrd m : Res (am_buf * M) :=
  '(key, m) ← ld KBD_ADDR 4 m;
  Ok (InputKeybrd (negb (Z.land key 0x8000 =? 0)) (Z.land key 0xff), m).

(** gpu.c *)
Definition gpu_init a m : Res (Am * M) :=
  '(size, m) ← ld VGACTL_ADDR 4 m;
  Ok ({| a with gpu_w := Z.shiftr size 16; gpu_h := Z.land size 0xffff |}, m).

Definition gpu_config m : Res (am_buf * M) :=
  '(size, m) ← ld VGACTL_ADDR 4 m;
  Ok (GpuConfig true false (Z.shiftr size 16) (Z.land size 0xffff) 0, m).

(** One [memcpy] per row; the pointers advance by a screen and a picture row. *)
Fixpoint draw_rows (rows : nat) (w width dest src : Z) m : Res M :=
  match rows with
  | O => Ok m
  | S rows =>
      n ← int_op (width * 4);
      '(_, m) ← memcpy dest src (Z.to_nat (wrap64 n)) m;
      row ← int_op (w * 4);
      draw_rows rows w width (dest + row) (src + n) m
  end.

Definition gpu_fbdraw a (ctl : AM_GPU_FBDRAW_T) m : Res M :=
  yw ← int_op (fb_y ctl * gpu_w a);
  yx ← int_op (yw + fb_x ctl);
  off ← int_op (yx * 4);
  m ← draw_rows (Z.to_nat (fb_h ctl)) (gpu_w a) (fb_w ctl) (FB_ADDR + off) (fb_pixels ctl) m;
  if fb_sync ctl then st SYNC_ADDR 4 1 m else Ok m.

(** A call through [lut]; a structure of another register is undefined. *)
Definition call_handler (h : handler) a (buf : am_buf) m : Res (am_buf * M) :=
  match h, buf with
  | am_timer_config, TimerConfig _ _ => Ok (TimerConfig true true, m)
  | am_timer_rtc, TimerRtc _ _ _ _ _ _ => Ok (TimerRtc 1900 0 0 0 0 0, m)
  | am_timer_uptime, TimerUptime _ => timer_uptime a m
  | am_input_config, InputConfig _ => Ok (InputConfig true, m)
  | am_input_keybrd, InputKeybrd _ _ => input_keybrd m
  | am_gpu_config, GpuConfig _ _ _ _ _ => gpu_config m
  | am_gpu_fbdraw, GpuFbdraw ctl => m ← gpu_fbdraw a ctl m; Ok (buf, m)
  | am_gpu_status, GpuStatus _ => Ok (GpuStatus true, m)
  | am_uart_config, UartConfig _ => Ok (UartConfig false, m)
  | am_audio_config, AudioConfig _ n => Ok (AudioConfig false n, m)
  | am_audio_ctrl, AudioCtrl => Ok (buf, m)
  | am_audio_status, AudioStatus _ => Ok (AudioStatus 0, m)
  | am_audio_play, AudioPlay => Ok (buf, m)
  | am_disk_config, DiskConfig _ n k => Ok (DiskConfig false n k, m)
  | am_disk_status, DiskStatus _ => Ok (buf, m)
  | am_disk_blkio, DiskBlkio => Ok (buf, m)
  | am_net_config, NetConfig _ => Ok (NetConfig false, m)
  | am_fail, _ => Err Assertion
  | _, _ => Err Undefined
  end.

(** ioe.c: [__am_audio_init] is empty. *)
Definition fill_lut (l : list (option handler)) : list (option handler) :=
  (fun h => match h with Some h => Some h | None => Some am_fail end) <$> l.

Definition ioe_init a m : Res (bool * Am * M) :=
  let a := {| a with lut := fill_lut (lut a) |} in
  '(a, m) ← gpu_init a m;
  '(a, m) ← timer_init a m;
  Ok (true, a, m).

(** [ioe_read] and [ioe_write] have the same body. *)
Definition ioe_access (reg : Z) a (buf : am_buf) m : Res (am_buf * M) :=
  _ ← ensure Undefined (in_range (lut a) reg);
  match arr (lut a) reg with
  | Some h => call_handler h a buf m
  | None => Err Undefined
  end.
End Drivers.

(** ** Keyboard: from a key press to the guest *)

(** Simulator and guest number the keys alike. *)
Lemma am_keys_agree : AM_KEYS = KEYS.
Proof. reflexivity. Qed.

Lemma keymap_fold (sc : string -> Z) (ps : list (nat * string)) km i k :
  NoDup ((fun p => sc p.2) <$> ps) -> Forall (fun p => 0 <= sc p.2 < Z.of_nat (length km)) ps ->
  (i, k) ∈ ps -> arr (foldl (fun km '(i, k) => upd km (sc k) (Z.of_nat i + 1)) km ps) (sc k) = Z.of_nat i + 1.
Proof.
  revert km. induction ps as [|[j h] ps IH]; intros km Hnd Hr Hin; [by apply elem_of_nil in Hin |].
  apply Forall_cons in Hr as [Hj Hr]. cbn [fmap list_fmap snd] in Hnd. apply NoDup_cons in Hnd as [Hnot Hnd].
  cbn [foldl]. apply elem_of_cons in Hin as [[= <- <-]|Hin].
  - assert (Hkeep : forall km, 0 <= sc k -> arr (foldl (fun km '(i, k) => upd km (sc k) (Z.of_nat i + 1)) km ps) (sc k) =
      arr km (sc k)).
    { clear IH Hr Hnd Hj km. induction ps as [|[j h] ps IH]; intros km Hk; [done |]. cbn [foldl].
      cbn [fmap list_fmap snd] in Hnot. apply not_elem_of_cons in Hnot as [Hne Hnot].
      rewrite IH by done. by apply arr_upd_ne. }
    cbn in Hj. rewrite Hkeep by lia. by apply arr_upd_eq.
  - apply IH; [done | by rewrite length_upd | done].
Qed.

Section Keyboard.
(** SDL's scan codes: distinct, and below 256. *)
Context (scancode_of : string -> Z).
Context (sc_range : forall k, k ∈ KEYS -> 0 <= scancode_of k < 256).
Context (sc_inj : forall k k', k ∈ KEYS -> k' ∈ KEYS -> scancode_of k = scancode_of k' -> k = k').

Lemma keys_NoDup : NoDup KEYS.
Proof. apply (bool_decide_unpack _). vm_compute. exact I. Qed.

Lemma imap_pair_snd {A} (l : list A) : (imap pair l).*2 = l.
Proof. rewrite fmap_imap. apply list_eq. intros i. rewrite list_lookup_imap. by destruct (l !! i). Qed.

Lemma init_keymap_code km i k : length km = 256%nat -> KEYS !! i = Some k ->
  arr (init_keymap scancode_of km) (scancode_of k) = AM_KEY i.
Proof using sc_range sc_inj.
  intros Hl Hi. unfold init_keymap. apply (keymap_fold scancode_of (imap pair KEYS)).
  - assert (E : (fun p => scancode_of p.2) <$> imap pair KEYS = scancode_of <$> KEYS)
      by (rewrite <- (imap_pair_snd KEYS) at 2; by rewrite <- list_fmap_compose).
    rewrite E. apply NoDup_fmap_2_strong; [| apply keys_NoDup]. intros x y Hx Hy Exy. by apply sc_inj.
  - rewrite Hl. apply Forall_forall. intros [j h] Hin. apply sc_range. rewrite <- (imap_pair_snd KEYS).
    apply list_elem_of_fmap. by exists (j, h).
  - apply list_elem_of_lookup. exists i. rewrite list_lookup_imap, Hi. done.
Qed.

(** A key code in sixteen bits and back. *)
Lemma key_word_split k down : 0 < k < 256 ->
  let w := Z.lor k (if down : bool then KEYDOWN_MASK else 0) in
  w mod 2 ^ 32 = w /\ negb (Z.land w 0x8000 =? 0) = down /\ Z.land w 0xff = k.
Proof using.
  intros Hk. assert (Hin : k ∈ seqZ_from 1 255) by (apply elem_of_seqZ_from; lia).
  assert (Hall : forallb (fun k => forallb (fun down : bool => let w := Z.lor k (if down then KEYDOWN_MASK else 0) in
    (w mod 2 ^ 32 =? w) && Bool.eqb (negb (Z.land w 0x8000 =? 0)) down && (Z.land w 0xff =? k)) [true; false])
    (seqZ_from 1 255) = true) by (vm_compute; reflexivity).
  rewrite forallb_forall in Hall. specialize (Hall k (proj1 (list_elem_of_In _ _) Hin)).
  rewrite forallb_forall in Hall. specialize (Hall down ltac:(destruct down; cbn; tauto)). cbn zeta in Hall.
  zify_bool. by rewrite eqb_true_iff in *.
Qed.

Lemma keybrd_read b : bus_wf b ->
  let key := default KEY_NONE (head (queue_of (io b))) mod 2 ^ 32 in
  exists b', input_keybrd b = Ok (InputKeybrd (negb (Z.land key 0x8000 =? 0)) (Z.land key 0xff), b') /\
    bus_wf b' /\ queue_of (io b') = tail (queue_of (io b)) /\ pmem b' = pmem b.
Proof using.
  intros Hb key. destruct (keyboard_read_ok (io b) (bw_io _ Hb)) as (d & E & Hq).
  destruct (bus_device_read b KBD_ADDR 4 key d Hb eq_refl E) as (b' & Eb & Hwf & Hio & Hp & _).
  exists b'. unfold input_keybrd. change (ld KBD_ADDR 4 b) with (paddr_read KBD_ADDR 4 b). rewrite Eb.
  split; [done |]. split; [done |]. by rewrite Hio.
Qed.

(** C25. A key press reaches the guest.  With the devices registered and no key
    waiting, when the window reports that key number [i] of the key table goes
    down or up while the program runs, the guest's next read of
    [AM_INPUT_KEYBRD] returns that direction and the guest's own code
    [AM_KEY] of the same key, and the read after it returns [AM_KEY_NONE]. *)
Theorem key_press_reaches_guest s b km i name down : bus_wf b -> state s = NEMU_RUNNING ->
  keymap (io b) = init_keymap scancode_of km -> length km = 256%nat ->
  queue_of (io b) = [] -> AM_KEYS !! i = Some name ->
  exists d b' b'', send_key s (scancode_of name) down (io b) = Ok d /\
    input_keybrd {| b with io := d |} = Ok (InputKeybrd down (AM_KEY i), b') /\
    input_keybrd b' = Ok (InputKeybrd false AM_KEY_NONE, b'').
Proof using sc_range sc_inj.
  intros Hb Hrun Hkm Hlen Hq Hi. rewrite am_keys_agree in Hi.
  assert (Hin : name ∈ KEYS) by (apply list_elem_of_lookup; by exists i).
  pose proof (init_keymap_code km i name Hlen Hi) as Hcode. pose proof (sc_range name Hin) as Hsc.
  assert (Hk : 0 < AM_KEY i < 256) by (apply lookup_lt_Some in Hi; cbn in Hi; unfold AM_KEY; lia).
  unfold send_key. rewrite Z.mod_small, Hkm, Hcode by done. rewrite bool_decide_true by done.
  replace (AM_KEY i =? KEY_NONE) with false by (unfold KEY_NONE; lia). cbn [negb andb].
  set (w := Z.lor (AM_KEY i) (if down then KEYDOWN_MASK else 0)).
  pose proof (key_enqueue_spec w (io b) (iw_queue _ (bw_io _ Hb))) as He.
  replace (queue_len (io b) =? KEY_QUEUE_LEN - 1) with false in He
    by (rewrite <- length_queue_of, Hq; done).
  destruct He as (d & E & Hqw & Hqd). rewrite Hq in Hqd. exists d.
  assert (Hd : io_wf d).
  { unfold key_enqueue in E. inv_res. destruct (bw_io _ Hb). by split. }
  assert (Hb1 : bus_wf {| b with io := d |}) by (destruct Hb; by split).
  destruct (keybrd_read {| b with io := d |} Hb1) as (b1 & E1 & Hb2 & Hq1 & _). cbn [io] in *. rewrite Hqd in *.
  destruct (keybrd_read b1 Hb2) as (b2 & E2 & _). rewrite Hq1 in E2. exists b1, b2. split; [exact E |].
  destruct (key_word_split (AM_KEY i) down Hk) as (Hw & Hdown & Hcode'). fold w in Hw, Hdown, Hcode'.
  change (default KEY_NONE (head ([] ++ [w]))) with w in E1. rewrite Hw, Hdown, Hcode' in E1.
  split; [exact E1 | exact E2].
Qed.
End Keyboard.

(** ** Clock *)

(** The value of the clock at the [n]-th reading from now. *)
Definition clock_at (d : IO) (n : Z) : Z := (get_time {| d with time_calls := time_calls d + n |}).1.

Lemma clock_next_at d d' n : clock_next d d' -> clock_at d' n = clock_at d (n + 1).
Proof.
  intros (H1 & H2 & H3 & _). unfold clock_at, get_time. cbn. rewrite H1, H2, H3.
  by replace (time_calls d + 1 + n) with (time_calls d + (n + 1)) by lia.
Qed.

Lemma clock_at_0 d : clock_at d 0 = (get_time d).1.
Proof. unfold clock_at. rewrite Z.add_0_r. by destruct d. Qed.

(** The guest's clock.  [get_time] of the driver reads the clock twice, the
    low word of the first reading and the high word of the second.  If both
    readings have the same high word it returns the first; if the clock passes a
    multiple of [2^32] microseconds in between, by less than [2^32], it returns a
    time later than both readings. *)
Theorem guest_clock b : bus_wf b ->
  let t1 := clock_at (io b) 0 in let t2 := clock_at (io b) 1 in
  exists t b', am_get_time b = Ok (t, b') /\ bus_wf b' /\ clock_at (io b') 0 = clock_at (io b) 2 /\
    (t1 / 2 ^ 32 = t2 / 2 ^ 32 -> t = t1) /\
    (t1 / 2 ^ 32 < t2 / 2 ^ 32 -> t2 - t1 < 2 ^ 32 -> t = t1 + 2 ^ 32 /\ t2 < t).
Proof.
  intros Hb t1 t2. destruct (timer_read_ok (io b) (bw_io _ Hb)) as [(d1 & E1 & Hn1) _].
  destruct (bus_device_read b RTC_ADDR 4 _ d1 Hb eq_refl E1) as (b1 & Eb1 & Hwf1 & Hio1 & _).
  destruct (timer_read_ok (io b1) (bw_io _ Hwf1)) as [_ (d2 & E2 & Hn2)].
  destruct (bus_device_read b1 (RTC_ADDR + 4) 4 _ d2 Hwf1 eq_refl E2) as (b2 & Eb2 & Hwf2 & Hio2 & _).
  unfold am_get_time. change (ld RTC_ADDR 4 b) with (paddr_read RTC_ADDR 4 b). rewrite Eb1. cbn [mbind Res_bind].
  change (ld (RTC_ADDR + 4) 4 b1) with (paddr_read (RTC_ADDR + 4) 4 b1). rewrite Eb2. cbn [mbind Res_bind].
  rewrite <- !clock_at_0. fold t1. rewrite Hio1 in Hn2 |- *. rewrite (clock_next_at _ _ 0 Hn1). change (0 + 1) with 1. fold t2.
  assert (Hw1 : is_word t1) by apply wrap64_word. assert (Hw2 : is_word t2) by apply wrap64_word.
  pose proof (Z.mod_pos_bound t1 (2 ^ 32) ltac:(lia)). pose proof (Z.div_mod t1 (2 ^ 32) ltac:(lia)).
  pose proof (Z.mod_pos_bound t2 (2 ^ 32) ltac:(lia)). pose proof (Z.div_mod t2 (2 ^ 32) ltac:(lia)).
  rewrite Z.shiftl_mul_pow2, Z.lor_comm, lor_disjoint_add by lia.
  eexists _, b2. split; [reflexivity |]. split; [done |]. split.
  { rewrite Hio2, (clock_next_at _ _ 0 Hn2), (clock_next_at _ _ _ Hn1). done. }
  split; intros; lia.
Qed.

(** ** Screen *)

(** The bytes after the first [rows] rows: row [j] of the picture at row [j]
    of the destination. *)
Fixpoint rows_view (rows : nat) (f : Z -> Z) (n dest src screen_row : Z) : Z -> Z :=
  match rows with
  | O => f
  | S rows => rows_view rows (move_view f dest src n) n (dest + screen_row) (src + n) screen_row
  end.

Lemma rows_view_out rows f n dest src sr x :
  (forall j, 0 <= j < Z.of_nat rows -> within (dest + j * sr) n x = false) ->
  rows_view rows f n dest src sr x = f x.
Proof.
  revert f dest src. induction rows as [|rows IH]; intros f dest src Hout; cbn [rows_view]; [done |].
  rewrite IH.
  - unfold move_view. pose proof (Hout 0 ltac:(lia)) as H0. rewrite Z.add_0_r in H0. by rewrite H0.
  - intros j Hj. rewrite <- (Hout (j + 1)) by lia. f_equal. lia.
Qed.

(** With the picture apart from the screen and rows that do not overlap. *)
Lemma rows_view_in rows f n dest src sr j i : 0 <= n <= sr -> 0 <= j < Z.of_nat rows -> 0 <= i < n ->
  src + Z.of_nat rows * n <= dest ->
  rows_view rows f n dest src sr (dest + j * sr + i) = f (src + j * n + i).
Proof.
  intros Hn. revert f dest src j. induction rows as [|rows IH]; intros f dest src j Hj Hi Hap; [lia |].
  cbn [rows_view]. destruct (Z.eq_dec j 0) as [->|Hne].
  - rewrite rows_view_out.
    + unfold move_view. destruct (within_spec dest n (dest + 0 * sr + i)); [f_equal; lia | lia].
    + intros k Hk. apply within_false. nia.
  - replace (dest + j * sr + i) with (dest + sr + (j - 1) * sr + i) by lia.
    rewrite IH by nia. unfold move_view.
    destruct (within_spec dest n (src + n + (j - 1) * n + i)); [nia | f_equal; lia].
Qed.

(** An [int] far from overflow. *)
Lemma int_op_small v : 0 <= v <= 2 ^ 30 -> int_op v = Ok v.
Proof.
  intros Hv. unfold int_op, Ftrace.INT_MIN, Ftrace.INT_MAX.
  by replace ((- 2 ^ 31 <=? v) && (v <=? 2 ^ 31 - 1)) with true by lia.
Qed.

Section Draw.
Context {M : Type} `{GuestLaws M}.
Implicit Types (m : M).

Lemma draw_rows_ok rows m0 m f w width dest src : settles m0 m f -> 0 <= width <= w -> w <= 2 ^ 20 ->
  let n := width * 4 in let sr := w * 4 in
  (forall j, 0 <= j < Z.of_nat rows -> plain_range (dest + j * sr) n) ->
  plain_range src (Z.of_nat rows * n) -> src + Z.of_nat rows * n <= dest ->
  runs m0 (draw_rows rows w width dest src m) (rows_view rows f n dest src sr).
Proof.
  intros Hs Hw Hw20 n sr. revert m f dest src Hs.
  induction rows as [|rows IH]; intros m f dest src Hs Hd Hp Hap; cbn [draw_rows rows_view].
  { by apply runs_ret. }
  rewrite (int_op_small (width * 4)), (int_op_small (w * 4)) by lia. fold n sr. cbn [mbind Res_bind].
  assert (Hn' : Z.of_nat (Z.to_nat (wrap64 n)) = n) by (rewrite wrap64_small by (unfold is_word; lia); lia).
  unfold memcpy. destruct (copy_forward_ok (Z.to_nat (wrap64 n)) m0 m f dest src Hs) as (m1 & -> & Hs1).
  - rewrite Hn'. pose proof (Hd 0 ltac:(lia)) as H0d. by rewrite Z.add_0_r in H0d.
  - rewrite Hn'. eapply plain_range_sub; [exact Hp | lia | nia].
  - right. rewrite Hn'. nia.
  - cbn [mbind Res_bind]. rewrite Hn' in Hs1. apply IH; [done | | | nia].
    + intros j Hj. replace (dest + sr + j * sr) with (dest + (j + 1) * sr) by lia. apply Hd. lia.
    + eapply plain_range_sub; [exact Hp | lia | nia].
Qed.
End Draw.

(** Setting the sync register, which is not plain memory. *)
Lemma bus_sync b : bus_wf b -> exists b', paddr_write SYNC_ADDR 4 1 b = Ok b' /\ bus_wf b' /\
  (forall x, bus_plain x -> bus_byte b' x = bus_byte b x) /\
  exists d, vga_update_screen (io b') = Ok d /\ screen_updates d = screen_updates (io b) + 1.
Proof.
  intros Hb. pose proof (bw_io _ Hb) as Hw.
  assert (Ed : exists d, mmio_write SYNC_ADDR 4 1 (io b) = Ok d /\
    io_space d = host_write (io_space (io b)) 8196 4 1 /\ screen_updates d = screen_updates (io b)).
  { unfold mmio_write. rewrite (fetch_mmio_boot (io b) SYNC_ADDR _ 2 Hw eq_refl eq_refl).
    unfold map_write. cbn [space callback low invoke_callback]. change (wrap64 _) with 4.
    rewrite io_put_ok by done. cbn [mbind Res_bind]. eexists. split; [reflexivity | done]. }
  destruct Ed as (d & Ed & Hsp & Hsu).
  destruct (bus_device_write b SYNC_ADDR 4 1 d Hb eq_refl Ed) as (b' & E & Hwf & <- & Hp & _).
  exists b'. split; [done |]. split; [done |]. split.
  - intros x Hx. unfold bus_byte. rewrite Hp, Hsp. destruct (in_pmem x) eqn:Ex; [done |].
    rewrite mem_get_host_write by done.
    destruct (within_spec 8196 4 (fb_space + (x - CONFIG_FB_ADDR))); [| done].
    exfalso. unfold bus_plain, in_fb, fb_space in *. rewrite Ex in Hx. destruct Hx; [done | lia].
  - unfold vga_update_screen. rewrite (iw_vgactl _ (bw_io _ Hwf)). change (8192 + 4) with 8196.
    erewrite io_get_written; [| reflexivity | reflexivity | exact Hsp].
    change (1 mod 256 ^ 4 =? 1) with true. cbn [mbind Res_bind]. cbv iota. rewrite io_put_ok by done.
    eexists. split; [reflexivity |]. cbn [screen_updates]. by rewrite Hsu.
Qed.

(** The rows of a picture inside the screen, before the sync register. *)
Definition screen_row (x y j : Z) : Z := CONFIG_FB_ADDR + ((y + j) * SCREEN_W + x) * 4.

Lemma screen_rows b x y w h pixels : bus_wf b -> 0 <= x -> 0 <= w -> x + w <= SCREEN_W ->
  0 <= y -> 0 <= h -> y + h <= SCREEN_H ->
  MBASE <= pixels -> pixels + h * (w * 4) <= MBASE + MSIZE ->
  exists b', draw_rows (Z.to_nat h) SCREEN_W w (FB_ADDR + (y * SCREEN_W + x) * 4) pixels b = Ok b' /\
    bus_wf b' /\ screen_updates (io b') = screen_updates (io b) /\
    (forall j i, 0 <= j < h -> 0 <= i < w * 4 ->
       bus_byte b' (screen_row x y j + i) = bus_byte b (pixels + j * (w * 4) + i)) /\
    (forall a, bus_plain a -> (forall j, 0 <= j < h -> within (screen_row x y j) (w * 4) a = false) ->
       bus_byte b' a = bus_byte b a).
Proof.
  intros Hb Hx Hcw Hxw Hy Hch Hyh Hp1 Hp2. unfold SCREEN_W, SCREEN_H, MBASE, MSIZE in *. set (n := w * 4) in *.
  assert (Hrow : forall j, screen_row x y j = FB_ADDR + (y * 400 + x) * 4 + j * (400 * 4))
    by (intros j; unfold screen_row, SCREEN_W, CONFIG_FB_ADDR, FB_ADDR; lia).
  assert (Hhn : h * n <= 300 * 1600) by nia.
  destruct (draw_rows_ok (Z.to_nat h) b b (byte_at b) 400 w (FB_ADDR + (y * 400 + x) * 4) pixels)
    as (b1 & -> & Hwf1 & [_ Hio1] & Hf1).
  { apply (settles_refl b). exact Hb. }
  { lia. }
  { lia. }
  { intros j Hj. apply bus_plain_fb; unfold CONFIG_FB_ADDR, FB_ADDR, FB_SIZE, SCREEN_W, SCREEN_H; lia. }
  { rewrite Z2Nat.id by lia. apply bus_plain_pmem; unfold MBASE, MSIZE; lia. }
  { rewrite Z2Nat.id by lia. unfold FB_ADDR. lia. }
  cbn [g_inv byte_at plain Bus_guest_laws] in Hwf1, Hf1. exists b1. split; [done |]. split; [done |].
  split; [by destruct Hio1 as [-> _] |]. split.
  - intros j i Hj Hi. rewrite Hf1.
    + rewrite Hrow. apply rows_view_in; try lia. rewrite Z2Nat.id by lia. unfold FB_ADDR. lia.
    + right. rewrite Hrow. unfold in_fb, FB_ADDR, CONFIG_FB_ADDR, FB_SIZE, SCREEN_W, SCREEN_H. lia.
  - intros a Hpx Ho. rewrite Hf1 by done. apply rows_view_out. intros j Hj. rewrite <- Hrow. apply Ho. lia.
Qed.

(** C24. Drawing reaches the screen.  For a picture in memory and a rectangle
    inside the 400 by 300 screen, [__am_gpu_fbdraw] leaves row [j] of the picture
    in row [y + j] of the frame buffer from column [x] on, changes no other byte
    of memory or frame buffer, and with [sync] makes the simulator redraw the
    window at its next look at the device. *)
Theorem picture_reaches_screen a ctl b : bus_wf b -> gpu_w a = SCREEN_W ->
  0 <= fb_x ctl -> 0 <= fb_w ctl -> fb_x ctl + fb_w ctl <= SCREEN_W ->
  0 <= fb_y ctl -> 0 <= fb_h ctl -> fb_y ctl + fb_h ctl <= SCREEN_H ->
  MBASE <= fb_pixels ctl -> fb_pixels ctl + fb_h ctl * (fb_w ctl * 4) <= MBASE + MSIZE ->
  let row := screen_row (fb_x ctl) (fb_y ctl) in
  exists b', gpu_fbdraw a ctl b = Ok b' /\ bus_wf b' /\
    (forall j i, 0 <= j < fb_h ctl -> 0 <= i < fb_w ctl * 4 ->
       bus_byte b' (row j + i) = bus_byte b (fb_pixels ctl + j * (fb_w ctl * 4) + i)) /\
    (forall x, bus_plain x -> (forall j, 0 <= j < fb_h ctl -> within (row j) (fb_w ctl * 4) x = false) ->
       bus_byte b' x = bus_byte b x) /\
    (fb_sync ctl = true ->
       exists d, vga_update_screen (io b') = Ok d /\ screen_updates d = screen_updates (io b) + 1).
Proof.
  intros Hb Hw Hx Hcw Hxw Hy Hch Hyh Hp1 Hp2 row.
  destruct (screen_rows b (fb_x ctl) (fb_y ctl) (fb_w ctl) (fb_h ctl) (fb_pixels ctl))
    as (b1 & E1 & Hwf1 & Hsu1 & Hin & Hout); [done .. |].
  unfold gpu_fbdraw. rewrite Hw.
  rewrite (int_op_small (fb_y ctl * SCREEN_W)) by (unfold SCREEN_W, SCREEN_H in *; lia). cbn [mbind Res_bind].
  rewrite (int_op_small (fb_y ctl * SCREEN_W + fb_x ctl)) by (unfold SCREEN_W, SCREEN_H in *; lia). cbn [mbind Res_bind].
  rewrite (int_op_small ((fb_y ctl * SCREEN_W + fb_x ctl) * 4)) by (unfold SCREEN_W, SCREEN_H in *; lia). cbn [mbind Res_bind].
  rewrite E1. cbn [mbind Res_bind]. destruct (fb_sync ctl).
  - destruct (bus_sync b1 Hwf1) as (b2 & E2 & Hwf2 & Hby & d & Ed & Hsu).
    change (st SYNC_ADDR 4 1 b1) with (paddr_write SYNC_ADDR 4 1 b1). exists b2. split; [done |]. split; [done |].
    split; [| split].
    + intros j i Hj Hi. rewrite Hby; [by apply Hin |]. right.
      unfold in_fb, row, screen_row, CONFIG_FB_ADDR, FB_SIZE, SCREEN_W, SCREEN_H in *. lia.
    + intros x Hpx Ho. rewrite Hby by done. by apply Hout.
    + intros _. exists d. split; [done |]. by rewrite Hsu, Hsu1.
  - exists b1. split; [done |]. split; [done |]. split; [done |]. by split.
Qed.

(** ** Start-up of the platform layer *)

Definition screen_word : Z := Z.lor (Z.shiftl SCREEN_W 16) SCREEN_H.

(** The registers that have a driver. *)
Definition am_registers : list Z :=
  [ AM_UART_CONFIG; AM_TIMER_CONFIG; AM_TIMER_RTC; AM_TIMER_UPTIME; AM_INPUT_CONFIG; AM_INPUT_KEYBRD;
    AM_GPU_CONFIG; AM_GPU_STATUS; AM_GPU_FBDRAW; AM_AUDIO_CONFIG; AM_AUDIO_CTRL; AM_AUDIO_STATUS; AM_AUDIO_PLAY;
    AM_DISK_CONFIG; AM_DISK_STATUS; AM_DISK_BLKIO; AM_NET_CONFIG ].

Lemma vgactl_read b : bus_wf b -> io_get (io b) 8192 4 = Ok screen_word ->
  exists b', paddr_read VGACTL_ADDR 4 b = Ok (screen_word, b') /\ bus_wf b' /\ io b' = io b.
Proof.
  intros Hb Hs. assert (Ed : mmio_read VGACTL_ADDR 4 (io b) = Ok (screen_word, io b)).
  { unfold mmio_read. rewrite (fetch_mmio_boot (io b) VGACTL_ADDR _ 2 (bw_io _ Hb) eq_refl eq_refl).
    unfold map_read. cbn [space callback low invoke_callback mbind Res_bind]. change (wrap64 _) with 0.
    change (8192 + 0) with 8192. by rewrite Hs. }
  destruct (bus_device_read b VGACTL_ADDR 4 _ _ Hb eq_refl Ed) as (b' & E & Hwf & Hio & _). by exists b'.
Qed.

(** Reading the clock leaves the screen register alone. *)
Lemma clock_next_vgactl d d' : clock_next d d' -> io_get d' 8192 4 = io_get d 8192 4.
Proof.
  intros (_ & _ & _ & Hm). unfold io_get. case_if; [| done]. f_equal. apply host_read_ext.
  intros x Hx. apply Hm. lia.
Qed.

(** Start-up of the guest's devices.  When the screen register holds what the
    simulator stored at start-up, [ioe_init] succeeds; afterwards the driver knows
    the screen as 400 by 300, [AM_GPU_CONFIG] reports that size, and accessing any
    of the 128 registers without a driver stops the program with a panic. *)
Theorem ioe_init_ok b : bus_wf b -> io_get (io b) 8192 4 = Ok screen_word ->
  exists a b', ioe_init am_static b = Ok (true, a, b') /\ bus_wf b' /\
    gpu_w a = SCREEN_W /\ gpu_h a = SCREEN_H /\
    (forall reg buf, 0 <= reg < 128 -> reg ∉ am_registers -> ioe_access reg a buf b' = Err Assertion) /\
    exists b'', ioe_access AM_GPU_CONFIG a (GpuConfig false false 0 0 0) b' =
      Ok (GpuConfig true false SCREEN_W SCREEN_H 0, b'').
Proof.
  intros Hb Hs. destruct (vgactl_read b Hb Hs) as (b1 & E1 & Hwf1 & Hio1).
  destruct (timer_read_ok (io b1) (bw_io _ Hwf1)) as [(d1 & Ed1 & Hn1) _].
  destruct (bus_device_read b1 RTC_ADDR 4 _ d1 Hwf1 eq_refl Ed1) as (b2 & Eb2 & Hwf2 & <- & _).
  destruct (timer_read_ok (io b2) (bw_io _ Hwf2)) as [_ (d2 & Ed2 & Hn2)].
  destruct (bus_device_read b2 (RTC_ADDR + 4) 4 _ d2 Hwf2 eq_refl Ed2) as (b3 & Eb3 & Hwf3 & <- & _).
  assert (Hs3 : io_get (io b3) 8192 4 = Ok screen_word)
    by (by rewrite (clock_next_vgactl _ _ Hn2), (clock_next_vgactl _ _ Hn1), Hio1).
  unfold ioe_init, gpu_init, timer_init, am_get_time.
  change (ld VGACTL_ADDR 4 b) with (paddr_read VGACTL_ADDR 4 b). rewrite E1. cbn [mbind Res_bind].
  change (ld RTC_ADDR 4 b1) with (paddr_read RTC_ADDR 4 b1). rewrite Eb2. cbn [mbind Res_bind].
  change (ld (RTC_ADDR + 4) 4 b2) with (paddr_read (RTC_ADDR + 4) 4 b2). rewrite Eb3. cbn [mbind Res_bind].
  eexists _, b3. split; [reflexivity |]. split; [done |]. split; [reflexivity |]. split; [reflexivity |]. split.
  - intros reg buf Hr Hnot. assert (Hin : reg ∈ seqZ_from 0 128) by (apply elem_of_seqZ_from; lia).
    unfold ioe_access. cbn [lut am_static].
    assert (Hl : in_range (fill_lut lut_static) reg = true) by (unfold in_range; change (length (fill_lut lut_static)) with 128%nat; lia).
    rewrite Hl. cbn [ensure mbind Res_bind].
    assert (Hall : forallb (fun r => bool_decide (r ∈ am_registers) ||
      match arr (fill_lut lut_static) r with Some am_fail => true | _ => false end) (seqZ_from 0 128) = true)
      by (vm_compute; reflexivity).
    rewrite forallb_forall in Hall. specialize (Hall reg (proj1 (list_elem_of_In _ _) Hin)).
    rewrite bool_decide_false in Hall by done. cbn [orb] in Hall.
    by destruct (arr (fill_lut lut_static) reg) as [[]|].
  - destruct (vgactl_read b3 Hwf3 Hs3) as (b4 & E4 & _). exists b4.
    change (gpu_config b3 = Ok (GpuConfig true false SCREEN_W SCREEN_H 0, b4)). unfold gpu_config.
    change (ld VGACTL_ADDR 4 b3) with (paddr_read VGACTL_ADDR 4 b3). by rewrite E4.
Qed.

(** ** Instances on the machine after start-up *)

Lemma boot_screen scancode_of tod poll d :
  init_devices ∅ scancode_of (io_static tod poll) = Ok d -> io_get d 8192 4 = Ok screen_word.
Proof.
  intros E. cbv -[host_write mem_zero init_keymap replicate host_read] in E. injection E as <-.
  unfold io_get. cbn [io_space]. change (host_ok IO_SPACE_MAX 8192 4) with true. cbv iota. reflexivity.
Qed.

Lemma boot_keyboard scancode_of tod poll d : init_devices ∅ scancode_of (io_static tod poll) = Ok d ->
  keymap d = init_keymap scancode_of (replicate 256 0) /\ queue_of d = [].
Proof.
  intros E. cbv -[host_write mem_zero init_keymap replicate] in E. by injection E as <-.
Qed.

(** A numbering of the keys for the instances: their positions. *)
Definition key_position (k : string) : Z :=
  match list_find (fun k' => k' = k) KEYS with Some (i, _) => Z.of_nat i | None => 0 end.

Lemma key_position_at k : k ∈ KEYS -> exists i, key_position k = Z.of_nat i /\ KEYS !! i = Some k.
Proof.
  intros Hk. unfold key_position. destruct (list_find_elem_of (fun k' => k' = k) KEYS k Hk eq_refl) as [[i k'] E].
  rewrite E. apply list_find_Some in E as (Hi & -> & _). by exists i.
Qed.

Lemma key_position_range k : k ∈ KEYS -> 0 <= key_position k < 256.
Proof. intros (i & -> & Hi)%key_position_at. apply lookup_lt_Some in Hi. cbn in Hi. lia. Qed.

Lemma key_position_inj k k' : k ∈ KEYS -> k' ∈ KEYS -> key_position k = key_position k' -> k = k'.
Proof. intros (i & -> & Hi)%key_position_at (j & -> & Hj)%key_position_at E. replace j with i in Hj by lia. congruence. Qed.

Definition boot_guest (scancode_of : string -> Z) (tod : Z -> Z * Z) : exists d,
  init_devices ∅ scancode_of (io_static tod (fun _ => [])) = Ok d /\ bus_wf (boot_bus d) :=
  boot_bus_ok scancode_of tod (fun _ => []).

(** The key A, 43rd of the table. *)
Lemma key_press_reaches_guest_witness :
  exists b d b', send_key {| sim_init with state := NEMU_RUNNING |} (key_position "A") true (io b) = Ok d /\
    input_keybrd {| b with io := d |} = Ok (InputKeybrd true 43, b').
Proof.
  destruct (boot_guest key_position (fun _ => (0, 0))) as (d & E & Hb). destruct (boot_keyboard _ _ _ _ E) as [Hk Hq].
  destruct (key_press_reaches_guest key_position key_position_range key_position_inj
    {| sim_init with state := NEMU_RUNNING |} (boot_bus d) (replicate 256 0) 42 "A" true Hb) as (d' & b' & b'' & E1 & E2 & _).
  - reflexivity.
  - exact Hk.
  - reflexivity.
  - exact Hq.
  - reflexivity.
  - exists (boot_bus d), d', b'. split; [exact E1 | exact E2].
Defined.

(** A clock that passes [2^32] microseconds between two readings (the first
    reading is the one at start-up). *)
Lemma guest_clock_witness :
  exists b t b', am_get_time b = Ok (t, b') /\ t = 2 ^ 33 - 1.
Proof.
  pose (tod := fun n => if n <? 2 then (if n =? 0 then 0 else 4294, if n =? 0 then 0 else 966795) else (4294, 966796)).
  destruct (boot_guest (fun _ => 0) tod) as (d & E & Hb).
  assert (Hc : clock_at d 0 = 2 ^ 32 - 1 /\ clock_at d 1 = 2 ^ 32).
  { cbv -[host_write mem_zero init_keymap replicate] in E. injection E as <-. split; vm_compute; reflexivity. }
  destruct (guest_clock (boot_bus d) Hb) as (t & b' & Et & _ & _ & _ & Ht). cbn [io boot_bus] in *.
  destruct Hc as [H1 H2]. rewrite H1, H2 in Ht. destruct Ht as [Ht _]; [reflexivity | reflexivity |].
  exists (boot_bus d), t, b'. split; [exact Et | rewrite Ht; reflexivity].
Defined.

(** Two pixels by one, at the last row and the last two columns. *)
Lemma picture_reaches_screen_witness :
  exists d b', gpu_fbdraw (mkAm 0 400 300 []) (mkFbdraw 398 299 0x80001000 2 1 true) (bus_with d [1; 2; 3; 4; 5; 6; 7; 8])
      = Ok b' /\ bus_byte b' (0xa1000000 + 400 * 300 * 4 - 1) = 8.
Proof.
  destruct (bus_with_ok [1; 2; 3; 4; 5; 6; 7; 8]) as (d & Hb); [is_bytes |].
  destruct (picture_reaches_screen (mkAm 0 400 300 []) (mkFbdraw 398 299 0x80001000 2 1 true)
    (bus_with d [1; 2; 3; 4; 5; 6; 7; 8]) Hb) as (b' & E & _ & Hin & _);
    cbn [fb_x fb_y fb_w fb_h fb_pixels]; unfold SCREEN_W, SCREEN_H, MBASE, MSIZE; try lia; [reflexivity |].
  exists d, b'. split; [exact E |]. specialize (Hin 0 7). cbn [fb_x fb_y fb_w fb_h fb_pixels] in Hin.
  specialize (Hin ltac:(lia) ltac:(lia)). etransitivity; [| etransitivity; [exact Hin |]]; vm_compute; reflexivity.
Defined.

Lemma ioe_init_ok_witness :
  exists d a b', ioe_init am_static (boot_bus d) = Ok (true, a, b') /\ gpu_w a = 400.
Proof.
  destruct (boot_guest (fun _ => 0) (fun _ => (0, 0))) as (d & E & Hb).
  destruct (ioe_init_ok (boot_bus d) Hb (boot_screen _ _ _ _ E)) as (a & b' & Ea & _ & Hw & _).
  exists d, a, b'. split; [exact Ea | exact Hw].
Defined.
