(* ===== verification/Nes.v ===== *)
(** * LiteNES: state and memory (litenes/src: common, ppu registers, mmc, psg, memory)

    The guest's NES emulator keeps its state in global variables; here they are
    one record [Nes], and a C function is a computation [nesM] that passes the
    record on or stops ([Undefined]: an index outside an array, an [int] that
    overflows).  The file holds the bit operations of common.c, the registers
    and memory of the PPU, the cartridge (mmc.c), the joystick port (psg.c) and
    the CPU's view of all of them (memory.c).

    [triple] is the development's specification of such a computation: from a
    well-formed state it returns, leaves a well-formed state, and moves the
    joystick counter, the only unbounded [int], by at most [k]. *)

From S2P Require Import Prelude Word Kstdlib Am.

(** ** State *)

(** Static arrays start as zeroes. *)
Abbreviation array := (gmap Z Z).
Definition aget (a : array) (i : Z) : Z := default 0 (a !! i).
Definition aset (a : array) (i v : Z) : array := <[i := v]> a.
Arguments aget : simpl never.
Arguments aset : simpl never.

Record CPU_STATE := mkCpu { rPC : Z; rSP : Z; rA : Z; rX : Z; rY : Z; rP : Z }.

Record PPU_STATE := mkPpu {
  PPUCTRL : Z; PPUMASK : Z; PPUSTATUS : Z; OAMADDR : Z; OAMDATA : Z; PPUSCROLL : Z;
  PPUSCROLL_X : Z; PPUSCROLL_Y : Z; PPUADDR : Z; PPUDATA : Z;
  scroll_received_x : bool; addr_received_high_byte : bool; ppu_ready : bool;
  mirroring : Z; mirroring_xor : Z; scanline : Z }.

Record Nes := mkNes {
  (* cpu.c *)
  cpu : CPU_STATE; CPU_RAM : array; op_value : Z; op_address : Z; op_cycles : Z; cpu_cycles : Z;
  (* ppu.c *)
  ppu : PPU_STATE; ppu_2007_first_read : bool; ppu_addr_latch : Z; PPU_SPRRAM : array; PPU_RAM : array;
  ppu_sprite_hit_occured : bool; ppu_latch : Z;
  ppu_screen_background : gmap (Z * Z) Z;
  ppu_l_h_addition_table : Z -> Z -> Z -> Z; ppu_l_h_addition_flip_table : Z -> Z -> Z -> Z;
  (* mmc.c *)
  mmc_id : Z; mmc_chr_pages : array; mmc_chr_pages_number : Z; memory : array;
  (* psg.c *)
  joy_p : Z; key_state : array; prev_write : Z;
  (* fce.c *)
  frame_cnt : Z; canvas : Z -> Z; rom_type : Z;
  (* what the io registers still have to say, and what they were told *)
  key_events : list (Z * bool); frames : list (Z * Z * (Z -> Z)) }.

Definition cpu_zero : CPU_STATE := mkCpu 0 0 0 0 0 0.
Definition ppu_zero : PPU_STATE := mkPpu 0 0 0 0 0 0 0 0 0 0 false false false 0 0 0.

(** The emulator before [main]. *)
Definition nes_zero (keys : list (Z * bool)) : Nes :=
  mkNes cpu_zero ∅ 0 0 0 0 ppu_zero false 0 ∅ ∅ false 0 ∅ (fun _ _ _ => 0) (fun _ _ _ => 0)
    0 ∅ 0 ∅ 10 ∅ 0 0 (fun _ => 0) 0 keys [].

(** ** Computations *)

Definition nesM (A : Type) := Nes -> Res (A * Nes).

#[export] Instance nesM_ret : MRet nesM := fun A a s => Ok (a, s).
#[export] Instance nesM_bind : MBind nesM := fun A B f m s =>
  match m s with
  | Ok (a, s) => f a s
  | Err e => Err e
  end.

Definition gets {A} (f : Nes -> A) : nesM A := fun s => Ok (f s, s).
Definition modify (f : Nes -> Nes) : nesM () := fun s => Ok ((), f s).
Definition lift {A} (r : Res A) : nesM A := fun s => match r with Ok a => Ok (a, s) | Err e => Err e end.
Definition nes_ensure (b : bool) : nesM () := lift (ensure Undefined b).

Definition set_cpu (c : CPU_STATE) : nesM () := modify (fun s => {| s with cpu := c |}).
Definition set_ppu (p : PPU_STATE) : nesM () := modify (fun s => {| s with ppu := p |}).

Definition byte (x : Z) : Z := x mod 256.
Definition word (x : Z) : Z := x mod 65536.

(** ** common.c *)

Definition common_bit_set (value position : Z) : bool := negb (Z.land value (Z.shiftl 1 position) =? 0).
Definition common_set_bitb (v position : Z) : Z := byte (Z.lor v (Z.shiftl 1 position)).
Definition common_unset_bitb (v position : Z) : Z := byte (Z.land v (Z.lnot (Z.shiftl 1 position))).
Definition common_toggle_bitb (v position : Z) : Z := byte (Z.lxor v (Z.shiftl 1 position)).
Definition common_modify_bitb (v position : Z) (set : bool) : Z :=
  if set then common_set_bitb v position else common_unset_bitb v position.

(** ** The PPU's registers and memory (ppu.c) *)

Section PpuRegisters.
Implicit Types (p : PPU_STATE).

Definition ppu_base_nametable_addresses : list Z := [0x2000; 0x2400; 0x2800; 0x2C00].
Definition ppu_base_nametable_address p : Z := arr ppu_base_nametable_addresses (Z.land (PPUCTRL p) 0x3).
Definition ppu_vram_address_increment p : Z := if common_bit_set (PPUCTRL p) 2 then 32 else 1.
Definition ppu_sprite_pattern_table_address p : Z := if common_bit_set (PPUCTRL p) 3 then 0x1000 else 0.
Definition ppu_background_pattern_table_address p : Z := if common_bit_set (PPUCTRL p) 4 then 0x1000 else 0.
Definition ppu_sprite_height p : Z := if common_bit_set (PPUCTRL p) 5 then 16 else 8.
Definition ppu_generates_nmi p : bool := common_bit_set (PPUCTRL p) 7.

Definition ppu_renders_grayscale p : bool := common_bit_set (PPUMASK p) 0.
Definition ppu_shows_background_in_leftmost_8px p : bool := common_bit_set (PPUMASK p) 1.
Definition ppu_shows_sprites_in_leftmost_8px p : bool := common_bit_set (PPUMASK p) 2.
Definition ppu_shows_background p : bool := common_bit_set (PPUMASK p) 3.
Definition ppu_shows_sprites p : bool := common_bit_set (PPUMASK p) 4.

Definition ppu_intensifies_reds p : bool := common_bit_set (PPUMASK p) 5.
Definition ppu_intensifies_greens p : bool := common_bit_set (PPUMASK p) 6.
Definition ppu_intensifies_blues p : bool := common_bit_set (PPUMASK p) 7.

Definition ppu_sprite_overflow p : bool := common_bit_set (PPUSTATUS p) 5.
Definition ppu_sprite_0_hit p : bool := common_bit_set (PPUSTATUS p) 6.
Definition ppu_in_vblank p : bool := common_bit_set (PPUSTATUS p) 7.

Definition ppu_set_sprite_overflow (b : bool) p : PPU_STATE := {| p with PPUSTATUS := common_modify_bitb (PPUSTATUS p) 5 b |}.
Definition ppu_set_sprite_0_hit (b : bool) p : PPU_STATE := {| p with PPUSTATUS := common_modify_bitb (PPUSTATUS p) 6 b |}.
Definition ppu_set_in_vblank (b : bool) p : PPU_STATE := {| p with PPUSTATUS := common_modify_bitb (PPUSTATUS p) 7 b |}.
End PpuRegisters.

Definition ppu_get_real_ram_address (address : Z) : Z :=
  if address <? 0x2000 then address
  else if address <? 0x3F00 then address
  else if address <? 0x4000 then
    let address := Z.lor 0x3F00 (Z.land address 0x1F) in
    if (address =? 0x3F10) || (address =? 0x3F14) || (address =? 0x3F18) || (address =? 0x3F1C)
    then address - 0x10 else address
  else 0xFFFF.

(** [PPU_RAM[0x4000]]; both take a [word]. *)
Definition ppu_ram_read (address : Z) : nesM Z :=
  let i := ppu_get_real_ram_address (word address) in
  _ ← nes_ensure (i <? 0x4000); gets (fun s => aget (PPU_RAM s) i).

Definition ppu_ram_write (address data : Z) : nesM () :=
  let i := ppu_get_real_ram_address (word address) in
  _ ← nes_ensure (i <? 0x4000); modify (fun s => {| s with PPU_RAM := aset (PPU_RAM s) i (byte data) |}).

(** [memcpy(&PPU_RAM[address], source, length)], the source a list of bytes. *)
Fixpoint copy_in (a : array) (i : Z) (bs : list Z) : array :=
  match bs with
  | [] => a
  | b :: bs => copy_in (aset a i b) (i + 1) bs
  end.

Definition ppu_copy (address : Z) (source : list Z) : nesM () :=
  _ ← nes_ensure (address + Z.of_nat (length source) <=? 0x4000);
  modify (fun s => {| s with PPU_RAM := copy_in (PPU_RAM s) address source |}).

Definition ppu_sprram_write (data : Z) : nesM () :=
  modify (fun s =>
    let p := ppu s in
    {| s with PPU_SPRRAM := aset (PPU_SPRRAM s) (OAMADDR p) (byte data);
              ppu := {| p with OAMADDR := byte (OAMADDR p + 1) |} |}).

Definition ppuio_read (address : Z) : nesM Z :=
  _ ← modify (fun s => let p := ppu s in {| s with ppu := {| p with PPUADDR := Z.land (PPUADDR p) 0x3FFF |} |});
  match Z.land address 7 with
  | 2 =>
      value ← gets (fun s => PPUSTATUS (ppu s));
      _ ← modify (fun s =>
        let p := ppu_set_sprite_0_hit false (ppu_set_in_vblank false (ppu s)) in
        {| s with ppu := {| p with scroll_received_x := false; PPUSCROLL := 0; addr_received_high_byte := false |};
                  ppu_latch := value; ppu_addr_latch := 0; ppu_2007_first_read := true |});
      mret value
  | 4 =>
      v ← gets (fun s => aget (PPU_SPRRAM s) (OAMADDR (ppu s)));
      _ ← modify (fun s => {| s with ppu_latch := v |});
      mret v
  | 7 =>
      a ← gets (fun s => PPUADDR (ppu s));
      data ← ppu_ram_read a;
      _ ← modify (fun s => {| s with ppu_latch := if a <? 0x3F00 then data else 0 |});
      _ ← modify (fun s =>
        if ppu_2007_first_read s then {| s with ppu_2007_first_read := false |}
        else let p := ppu s in
          {| s with ppu := {| p with PPUADDR := word (PPUADDR p + ppu_vram_address_increment p) |} |});
      mret data
  | _ => mret 0xFF
  end.

Definition ppuio_write (address data : Z) : nesM () :=
  _ ← modify (fun s => let p := ppu s in
    {| s with ppu_latch := data; ppu := {| p with PPUADDR := Z.land (PPUADDR p) 0x3FFF |} |});
  p ← gets ppu;
  _ ← match Z.land address 7 with
      | 0 => if ppu_ready p then set_ppu {| p with PPUCTRL := data |} else mret ()
      | 1 => if ppu_ready p then set_ppu {| p with PPUMASK := data |} else mret ()
      | 3 => set_ppu {| p with OAMADDR := data |}
      | 4 => ppu_sprram_write data
      | 5 =>
          if scroll_received_x p
          then set_ppu {| p with PPUSCROLL_Y := data; scroll_received_x := false |}
          else set_ppu {| p with PPUSCROLL_X := data; scroll_received_x := true |}
      | 6 =>
          if negb (ppu_ready p) then mret ()
          else
            _ ← (if addr_received_high_byte p
                 then modify (fun s => {| s with ppu := {| p with
                        PPUADDR := word (Z.shiftl (ppu_addr_latch s) 8 + data); addr_received_high_byte := false |} |})
                 else modify (fun s => {| s with ppu_addr_latch := data; ppu := {| p with addr_received_high_byte := true |} |}));
            modify (fun s => {| s with ppu_2007_first_read := true |})
      | 7 =>
          if (0x1FFF <? PPUADDR p) || (PPUADDR p <? 0x4000) then
            _ ← ppu_ram_write (Z.lxor (PPUADDR p) (mirroring_xor p)) data;
            ppu_ram_write (PPUADDR p) data
          else ppu_ram_write (PPUADDR p) data
      | _ => mret ()
      end;
  modify (fun s => {| s with ppu_latch := data |}).

(** [0x400 << mirroring]; the argument is a [byte]. *)
Definition ppu_set_mirroring (m : Z) : nesM () :=
  _ ← nes_ensure (m <=? 20);
  modify (fun s => let p := ppu s in {| s with ppu := {| p with mirroring := m; mirroring_xor := Z.shiftl 0x400 m |} |}).

(** The two tables as [ppu_init] fills them. *)
Definition l_h_addition (l h x : Z) : Z :=
  Z.lor (Z.shiftl (Z.land (Z.shiftr h (7 - x)) 1) 1) (Z.land (Z.shiftr l (7 - x)) 1).
Definition l_h_addition_flip (l h x : Z) : Z :=
  Z.lor (Z.shiftl (Z.land (Z.shiftr h x) 1) 1) (Z.land (Z.shiftr l x) 1).

Definition ppu_init : nesM () :=
  modify (fun s =>
    let p := ppu s in
    {| s with ppu := {| p with PPUCTRL := 0; PPUMASK := 0; PPUSTATUS := 0xA0; OAMADDR := 0;
                               PPUSCROLL_X := 0; PPUSCROLL_Y := 0; PPUADDR := 0; PPUDATA := 0 |};
              ppu_2007_first_read := true;
              ppu_l_h_addition_table := l_h_addition;
              ppu_l_h_addition_flip_table := l_h_addition_flip |}).

(** ** The cartridge (mmc.c) *)

Definition MMC_MAX_PAGE_COUNT : Z := 1.

Definition mmc_read (address : Z) : nesM Z := gets (fun s => aget (memory s) address).

(** The bytes [i .. i + n) of an array. *)
Definition slice (a : array) (i : Z) (n : nat) : list Z := map (fun k => aget a (i + Z.of_nat k)) (seq 0 n).

Definition mmc_write (address data : Z) : nesM () :=
  id ← gets mmc_id;
  _ ← (if id =? 3 then
         _ ← nes_ensure (Z.land data 3 <? MMC_MAX_PAGE_COUNT);
         page ← gets (fun s => slice (mmc_chr_pages s) (0x2000 * Z.land data 3) (Z.to_nat 0x2000));
         ppu_copy 0 page
       else mret ());
  modify (fun s => {| s with memory := aset (memory s) address data |}).

Definition mmc_copy (address : Z) (source : list Z) : nesM () :=
  _ ← nes_ensure (address + Z.of_nat (length source) <=? 0x10000);
  modify (fun s => {| s with memory := copy_in (memory s) address source |}).

Definition mmc_append_chr_rom_page (source : list Z) : nesM () :=
  n ← gets mmc_chr_pages_number;
  _ ← lift (ensure Assertion (n <? MMC_MAX_PAGE_COUNT));
  modify (fun s => {| s with mmc_chr_pages := copy_in (mmc_chr_pages s) (0x2000 * n) source;
                             mmc_chr_pages_number := n + 1 |}).

(** ** The joystick (psg.c) *)

(** [AM_KEY_x] by its name. *)
Definition AM_KEY_named (name : string) : Z :=
  match list_find (fun n => n = name) AM_KEYS with Some (i, _) => AM_KEY i | None => 0 end.

(** A, B, select, start, up, down, left, right. *)
Definition KEYS : list Z := map AM_KEY_named ["J"; "K"; "U"; "I"; "W"; "S"; "A"; "D"]%string.

(** The rest of [MAP[256]] is zero. *)
Definition MAP : list Z := 0 :: KEYS ++ [255].

Definition psgio_read (address : Z) : nesM Z :=
  if address =? 0x4016 then
    p ← gets joy_p;
    p' ← lift (int_op (p + 1));
    _ ← modify (fun s => {| s with joy_p := p' |});
    if p <? 9 then
      _ ← nes_ensure ((0 <=? p') && (p' <? 256));
      gets (fun s => byte (aget (key_state s) (arr MAP p')))
    else mret 0
  else mret 0.

Definition psgio_write (address data : Z) : nesM () :=
  modify (fun s =>
    let s := if (address =? 0x4016) && (Z.land data 1 =? 0) && (prev_write s =? 1)
             then {| s with joy_p := 0 |} else s in
    {| s with prev_write := Z.land data 1 |}).

(** Key events are taken from the input until it reports none. *)
Fixpoint detect_keys (evs : list (Z * bool)) (keys : array) : Res (array * list (Z * bool)) :=
  match evs with
  | [] => Ok (keys, [])
  | (code, down) :: evs =>
      if code =? AM_KEY_NONE then Ok (keys, evs)
      else
        _ ← ensure Undefined ((0 <=? code) && (code <? 256));
        detect_keys evs (aset keys code (Z.b2z down))
  end.

Definition psg_detect_key : nesM () := fun s =>
  '(keys, evs) ← detect_keys (key_events s) (key_state s);
  Ok ((), {| s with key_state := keys; key_events := evs |}).

Definition psg_init : nesM () := modify (fun s => {| s with key_state := aset (key_state s) 0 1 |}).

(** ** The CPU's address space (memory.c, cpu.c) *)

Definition cpu_ram_read (address : Z) : nesM Z := gets (fun s => aget (CPU_RAM s) (Z.land address 0x7FF)).
Definition cpu_ram_write (address data : Z) : nesM () :=
  modify (fun s => {| s with CPU_RAM := aset (CPU_RAM s) (Z.land address 0x7FF) data |}).

(** The callers' addresses and data are [int]s that the parameters cut to
    [word] and [byte]. *)
Definition memory_readb (addr : Z) : nesM Z :=
  let address := word addr in
  match Z.shiftr address 13 with
  | 0 => cpu_ram_read (Z.land address 0x07FF)
  | 1 => ppuio_read address
  | 2 => psgio_read address
  | 3 => cpu_ram_read (Z.land address 0x1FFF)
  | _ => mmc_read address
  end.

Fixpoint sprite_dma (n : nat) (address : Z) : nesM () :=
  match n with
  | O => mret ()
  | S n => v ← cpu_ram_read (word address); _ ← ppu_sprram_write v; sprite_dma n (address + 1)
  end.

Definition memory_writeb (addr d : Z) : nesM () :=
  let address := word addr in
  let data := byte d in
  if address =? 0x4014 then sprite_dma 256 (0x100 * data)
  else match Z.shiftr address 13 with
       | 0 => cpu_ram_write (Z.land address 0x07FF) data
       | 1 => ppuio_write address data
       | 2 => psgio_write address data
       | 3 => cpu_ram_write (Z.land address 0x1FFF) data
       | _ => mmc_write address data
       end.

Definition memory_readw (addr : Z) : nesM Z :=
  let address := word addr in
  lo ← memory_readb address; hi ← memory_readb (address + 1); mret (word (lo + Z.shiftl hi 8)).

Definition memory_writew (addr d : Z) : nesM () :=
  let address := word addr in
  let data := word d in
  _ ← memory_writeb address (Z.land data 0xFF); memory_writeb (address + 1) (Z.shiftr data 8).
