(* ===== verification/NesCpu.v ===== *)
(** * LiteNES: the 6502 (litenes/src/cpu-addressing.c, cpu.c)

    The addressing modes, every instruction handler, the opcode table that
    [cpu_init] fills, interrupts, and the execution loop [cpu_run].  The
    operands of the current instruction are the globals [op_value],
    [op_address] and [op_cycles] of the source. *)

From S2P Require Import Prelude Word Kstdlib Am Nes.

(** ** Flags *)

Definition carry_flag : Z := 0x01.
Definition zero_flag : Z := 0x02.
Definition interrupt_flag : Z := 0x04.
Definition decimal_flag : Z := 0x08.
Definition break_flag : Z := 0x10.
Definition unused_flag : Z := 0x20.
Definition overflow_flag : Z := 0x40.
Definition negative_flag : Z := 0x80.

Definition carry_bp : Z := 0.
Definition zero_bp : Z := 1.
Definition interrupt_bp : Z := 2.
Definition decimal_bp : Z := 3.
Definition break_bp : Z := 4.
Definition unused_bp : Z := 5.
Definition overflow_bp : Z := 6.
Definition negative_bp : Z := 7.

Definition cpu_zn_flag_table : list Z := zero_flag :: replicate 127 0 ++ replicate 128 negative_flag.

Section Registers.
Implicit Types (c : CPU_STATE).

Definition cpu_flag_set c (flag : Z) : bool := common_bit_set (rP c) flag.
Definition cpu_modify_flag (flag : Z) (value : bool) c : CPU_STATE :=
  {| c with rP := common_modify_bitb (rP c) flag value |}.
Definition cpu_set_flag (flag : Z) c : CPU_STATE := {| c with rP := common_set_bitb (rP c) flag |}.
Definition cpu_unset_flag (flag : Z) c : CPU_STATE := {| c with rP := common_unset_bitb (rP c) flag |}.

(** The index is a [byte] wherever the macro is used. *)
Definition cpu_update_zn_flags (value : Z) c : CPU_STATE :=
  {| c with rP := byte (Z.lor (Z.land (rP c) (Z.lnot (Z.lor zero_flag negative_flag))) (arr cpu_zn_flag_table value)) |}.

Definition set_A (v : Z) c : CPU_STATE := {| c with rA := byte v |}.
Definition set_X (v : Z) c : CPU_STATE := {| c with rX := byte v |}.
Definition set_Y (v : Z) c : CPU_STATE := {| c with rY := byte v |}.
Definition set_SP (v : Z) c : CPU_STATE := {| c with rSP := byte v |}.
Definition set_P (v : Z) c : CPU_STATE := {| c with rP := byte v |}.
Definition set_PC (v : Z) c : CPU_STATE := {| c with rPC := word v |}.

(** Assign a register and set the flags by what it then holds. *)
Definition zn_A (v : Z) c : CPU_STATE := let c := set_A v c in cpu_update_zn_flags (rA c) c.
Definition zn_X (v : Z) c : CPU_STATE := let c := set_X v c in cpu_update_zn_flags (rX c) c.
Definition zn_Y (v : Z) c : CPU_STATE := let c := set_Y v c in cpu_update_zn_flags (rY c) c.
End Registers.

(** A change of the registers that reads the operand. *)
Definition regs (f : Z -> CPU_STATE -> CPU_STATE) : nesM () :=
  modify (fun s => {| s with cpu := f (op_value s) (cpu s) |}).
Definition regs_ (f : CPU_STATE -> CPU_STATE) : nesM () := regs (fun _ => f).
Definition set_op_value (v : Z) : nesM () := modify (fun s => {| s with op_value := v |}).
Definition set_op_address (a : Z) : nesM () := modify (fun s => {| s with op_address := a |}).
Definition advance (n : Z) : nesM () := regs_ (fun c => set_PC (rPC c + n) c).

(** ** Addressing modes *)

Definition page_cycle : nesM () :=
  modify (fun s =>
    if Z.shiftr (op_address s) 8 =? Z.shiftr (rPC (cpu s)) 8 then s
    else {| s with op_cycles := op_cycles s + 1 |}).

(** [op_value = CPU_RAM[op_address]], the address below 256. *)
Definition zero_page_value : nesM () :=
  a ← gets op_address; v ← gets (fun s => aget (CPU_RAM s) a); set_op_value v.

Definition memory_value : nesM () := a ← gets op_address; v ← memory_readb a; set_op_value v.

Definition cpu_address_implied : nesM () := mret ().

Definition cpu_address_immediate : nesM () :=
  c ← gets cpu; v ← memory_readb (rPC c); _ ← set_op_value v; advance 1.

Definition cpu_address_zero_page : nesM () :=
  c ← gets cpu; a ← memory_readb (rPC c); _ ← set_op_address a; _ ← zero_page_value; advance 1.

Definition cpu_address_zero_page_x : nesM () :=
  c ← gets cpu; a ← memory_readb (rPC c); _ ← set_op_address (Z.land (a + rX c) 0xFF); _ ← zero_page_value; advance 1.

Definition cpu_address_zero_page_y : nesM () :=
  c ← gets cpu; a ← memory_readb (rPC c); _ ← set_op_address (Z.land (a + rY c) 0xFF); _ ← zero_page_value; advance 1.

Definition cpu_address_absolute : nesM () :=
  c ← gets cpu; a ← memory_readw (rPC c); _ ← set_op_address a; _ ← memory_value; advance 2.

Definition cpu_address_absolute_x : nesM () :=
  c ← gets cpu; a ← memory_readw (rPC c); _ ← set_op_address (a + rX c); _ ← memory_value; _ ← advance 2; page_cycle.

Definition cpu_address_absolute_y : nesM () :=
  c ← gets cpu; a ← memory_readw (rPC c); _ ← set_op_address (Z.land (a + rY c) 0xFFFF);
  _ ← memory_value; _ ← advance 2; page_cycle.

Definition cpu_address_relative : nesM () :=
  c ← gets cpu; a ← memory_readb (rPC c); _ ← advance 1; c ← gets cpu;
  let a := if negb (Z.land a 0x80 =? 0) then a - 0x100 else a in
  _ ← set_op_address (a + rPC c); page_cycle.

Definition cpu_address_indirect : nesM () :=
  c ← gets cpu; arg_addr ← memory_readw (rPC c);
  _ ← (if Z.land arg_addr 0xFF =? 0xFF then
         hi ← memory_readb (Z.land arg_addr 0xFF00); lo ← memory_readb arg_addr;
         set_op_address (Z.shiftl hi 8 + lo)
       else a ← memory_readw arg_addr; set_op_address a);
  advance 2.

Definition cpu_address_indirect_x : nesM () :=
  c ← gets cpu; arg_addr ← memory_readb (rPC c);
  hi ← memory_readb (Z.land (arg_addr + rX c + 1) 0xFF); lo ← memory_readb (Z.land (arg_addr + rX c) 0xFF);
  _ ← set_op_address (Z.lor (Z.shiftl hi 8) lo); _ ← memory_value; advance 1.

Definition cpu_address_indirect_y : nesM () :=
  c ← gets cpu; arg_addr ← memory_readb (rPC c);
  hi ← memory_readb (Z.land (arg_addr + 1) 0xFF); lo ← memory_readb arg_addr;
  _ ← set_op_address (Z.land (Z.lor (Z.shiftl hi 8) lo + rY c) 0xFFFF); _ ← memory_value; _ ← advance 1; page_cycle.

(** ** Interrupt vectors and the stack *)

Definition cpu_nmi_interrupt_address : nesM Z := memory_readw 0xFFFA.
Definition cpu_reset_interrupt_address : nesM Z := memory_readw 0xFFFC.
Definition cpu_irq_interrupt_address : nesM Z := memory_readw 0xFFFE.

Definition cpu_stack_pushb (data : Z) : nesM () :=
  c ← gets cpu; _ ← regs_ (set_SP (rSP c - 1)); memory_writeb (0x100 + rSP c) data.
Definition cpu_stack_pushw (data : Z) : nesM () :=
  c ← gets cpu; _ ← memory_writew (0xFF + rSP c) data; regs_ (fun c => set_SP (rSP c - 2) c).
Definition cpu_stack_popb : nesM Z :=
  _ ← regs_ (fun c => set_SP (rSP c + 1) c); c ← gets cpu; memory_readb (0x100 + rSP c).
Definition cpu_stack_popw : nesM Z :=
  _ ← regs_ (fun c => set_SP (rSP c + 2) c); c ← gets cpu; memory_readw (0xFF + rSP c).

(** ** Instructions *)

Definition write_op (v : Z) : nesM () := a ← gets op_address; memory_writeb a v.

Definition cpu_op_nop : nesM () := mret ().

Definition adc (v : Z) (c : CPU_STATE) : CPU_STATE :=
  let result := rA c + v + (if cpu_flag_set c carry_bp then 1 else 0) in
  let a := rA c in
  let c := cpu_modify_flag carry_bp (negb (Z.land result 0x100 =? 0)) c in
  let c := cpu_modify_flag overflow_bp
    (negb (Z.land (Z.land (Z.lnot (Z.lxor a v)) (Z.lxor a result)) 0x80 =? 0)) c in
  zn_A (Z.land result 0xFF) c.
Definition cpu_op_adc : nesM () := regs adc.

Definition sbc (v : Z) (c : CPU_STATE) : CPU_STATE :=
  let result := rA c - v - (if cpu_flag_set c carry_bp then 0 else 1) in
  let a := rA c in
  let c := cpu_modify_flag carry_bp (Z.land result 0x100 =? 0) c in
  let c := cpu_modify_flag overflow_bp
    (negb (Z.land (Z.land (Z.lxor a v) (Z.lxor a result)) 0x80 =? 0)) c in
  zn_A (Z.land result 0xFF) c.
Definition cpu_op_sbc : nesM () := regs sbc.

Definition op_bit (v : Z) (c : CPU_STATE) : CPU_STATE :=
  let c := cpu_modify_flag zero_bp (Z.land (rA c) v =? 0) c in
  set_P (Z.lor (Z.land (rP c) 0x3F) (Z.land 0xC0 v)) c.
Definition cpu_op_and : nesM () := regs (fun v c => zn_A (Z.land (rA c) v) c).
Definition cpu_op_bit : nesM () := regs op_bit.
Definition cpu_op_eor : nesM () := regs (fun v c => zn_A (Z.lxor (rA c) v) c).
Definition cpu_op_ora : nesM () := regs (fun v c => zn_A (Z.lor (rA c) v) c).

Definition asla (c : CPU_STATE) : CPU_STATE :=
  let a := rA c in
  zn_A (Z.shiftl a 1) (cpu_modify_flag carry_bp (negb (Z.land a 0x80 =? 0)) c).
Definition cpu_op_asla : nesM () := regs_ asla.

Definition cpu_op_asl : nesM () :=
  v ← gets op_value;
  _ ← regs_ (cpu_modify_flag carry_bp (negb (Z.land v 0x80 =? 0)));
  let v := Z.land (Z.shiftl v 1) 0xFF in
  _ ← set_op_value v; _ ← regs_ (cpu_update_zn_flags v); write_op v.

Definition lsra (c : CPU_STATE) : CPU_STATE :=
  let value := Z.shiftr (rA c) 1 in
  let c := cpu_modify_flag carry_bp (negb (Z.land (rA c) 0x01 =? 0)) c in
  cpu_update_zn_flags value (set_A (Z.land value 0xFF) c).
Definition cpu_op_lsra : nesM () := regs_ lsra.

Definition cpu_op_lsr : nesM () :=
  v ← gets op_value;
  _ ← regs_ (cpu_modify_flag carry_bp (negb (Z.land v 0x01 =? 0)));
  let v := Z.land (Z.shiftr v 1) 0xFF in
  _ ← set_op_value v; _ ← write_op v; regs_ (cpu_update_zn_flags v).

Definition rola (c : CPU_STATE) : CPU_STATE :=
  let value := Z.lor (Z.shiftl (rA c) 1) (if cpu_flag_set c carry_bp then 1 else 0) in
  zn_A (Z.land value 0xFF) (cpu_modify_flag carry_bp (0xFF <? value) c).
Definition cpu_op_rola : nesM () := regs_ rola.

Definition cpu_op_rol : nesM () :=
  v ← gets op_value; c ← gets cpu;
  let v := Z.lor (Z.shiftl v 1) (if cpu_flag_set c carry_bp then 1 else 0) in
  _ ← regs_ (cpu_modify_flag carry_bp (0xFF <? v));
  let v := Z.land v 0xFF in
  _ ← set_op_value v; _ ← write_op v; regs_ (cpu_update_zn_flags v).

Definition rora (c : CPU_STATE) : CPU_STATE :=
  let carry := cpu_flag_set c carry_bp in
  let c := cpu_modify_flag carry_bp (negb (Z.land (rA c) 0x01 =? 0)) c in
  let c := set_A (Z.lor (Z.shiftr (rA c) 1) (Z.shiftl (Z.b2z carry) 7)) c in
  cpu_modify_flag negative_bp carry (cpu_modify_flag zero_bp (rA c =? 0) c).
Definition cpu_op_rora : nesM () := regs_ rora.

Definition cpu_op_ror : nesM () :=
  v ← gets op_value; c ← gets cpu;
  let carry := cpu_flag_set c carry_bp in
  _ ← regs_ (cpu_modify_flag carry_bp (negb (Z.land v 0x01 =? 0)));
  let v := Z.land (Z.lor (Z.shiftr v 1) (Z.shiftl (Z.b2z carry) 7)) 0xFF in
  _ ← set_op_value v;
  _ ← regs_ (fun c => cpu_modify_flag negative_bp carry (cpu_modify_flag zero_bp (v =? 0) c));
  write_op v.

Definition cpu_op_lda : nesM () := regs zn_A.
Definition cpu_op_ldx : nesM () := regs zn_X.
Definition cpu_op_ldy : nesM () := regs zn_Y.

Definition cpu_op_sta : nesM () := c ← gets cpu; write_op (rA c).
Definition cpu_op_stx : nesM () := c ← gets cpu; write_op (rX c).
Definition cpu_op_sty : nesM () := c ← gets cpu; write_op (rY c).

Definition cpu_op_tax : nesM () := regs_ (fun c => zn_X (rA c) c).
Definition cpu_op_txa : nesM () := regs_ (fun c => zn_A (rX c) c).
Definition cpu_op_tay : nesM () := regs_ (fun c => zn_Y (rA c) c).
Definition cpu_op_tya : nesM () := regs_ (fun c => zn_A (rY c) c).
Definition cpu_op_tsx : nesM () := regs_ (fun c => zn_X (rSP c) c).
Definition cpu_op_txs : nesM () := regs_ (fun c => set_SP (rX c) c).

Definition cpu_branch (taken : CPU_STATE -> bool) : nesM () :=
  a ← gets op_address; regs_ (fun c => if taken c then set_PC a c else c).
Definition cpu_op_bcs : nesM () := cpu_branch (fun c => cpu_flag_set c carry_bp).
Definition cpu_op_beq : nesM () := cpu_branch (fun c => cpu_flag_set c zero_bp).
Definition cpu_op_bmi : nesM () := cpu_branch (fun c => cpu_flag_set c negative_bp).
Definition cpu_op_bvs : nesM () := cpu_branch (fun c => cpu_flag_set c overflow_bp).
Definition cpu_op_bne : nesM () := cpu_branch (fun c => negb (cpu_flag_set c zero_bp)).
Definition cpu_op_bcc : nesM () := cpu_branch (fun c => negb (cpu_flag_set c carry_bp)).
Definition cpu_op_bpl : nesM () := cpu_branch (fun c => negb (cpu_flag_set c negative_bp)).
Definition cpu_op_bvc : nesM () := cpu_branch (fun c => negb (cpu_flag_set c overflow_bp)).

Definition cpu_op_jmp : nesM () := a ← gets op_address; regs_ (set_PC a).

Definition cpu_op_jsr : nesM () :=
  c ← gets cpu; _ ← cpu_stack_pushw (rPC c - 1); a ← gets op_address; regs_ (set_PC a).
Definition cpu_op_rts : nesM () := a ← cpu_stack_popw; regs_ (set_PC (a + 1)).

Definition cpu_op_brk : nesM () :=
  c ← gets cpu; _ ← cpu_stack_pushw (rPC c - 1);
  c ← gets cpu; _ ← cpu_stack_pushb (rP c);
  _ ← regs_ (fun c => set_P (Z.lor (rP c) (Z.lor unused_flag break_flag)) c);
  a ← cpu_nmi_interrupt_address; regs_ (set_PC a).
Definition cpu_op_rti : nesM () :=
  p ← cpu_stack_popb; _ ← regs_ (set_P (Z.lor p unused_flag));
  a ← cpu_stack_popw; regs_ (set_PC a).

Definition cpu_op_clc : nesM () := regs_ (cpu_unset_flag carry_bp).
Definition cpu_op_cld : nesM () := regs_ (cpu_unset_flag decimal_bp).
Definition cpu_op_cli : nesM () := regs_ (cpu_unset_flag interrupt_bp).
Definition cpu_op_clv : nesM () := regs_ (cpu_unset_flag overflow_bp).
Definition cpu_op_sec : nesM () := regs_ (cpu_set_flag carry_bp).
Definition cpu_op_sed : nesM () := regs_ (cpu_set_flag decimal_bp).
Definition cpu_op_sei : nesM () := regs_ (cpu_set_flag interrupt_bp).

Definition cpu_compare (reg : CPU_STATE -> Z) (v : Z) (c : CPU_STATE) : CPU_STATE :=
  let result := reg c - v in
  let c := cpu_modify_flag carry_bp (0 <=? result) c in
  let c := cpu_modify_flag zero_bp (result =? 0) c in
  cpu_modify_flag negative_bp (negb (Z.land (Z.shiftr result 7) 1 =? 0)) c.
Definition cpu_op_cmp : nesM () := regs (cpu_compare rA).
Definition cpu_op_cpx : nesM () := regs (cpu_compare rX).
Definition cpu_op_cpy : nesM () := regs (cpu_compare rY).

Definition cpu_op_inc : nesM () :=
  v ← gets op_value; let result := byte (v + 1) in _ ← write_op result; regs_ (cpu_update_zn_flags result).
Definition cpu_op_inx : nesM () := regs_ (fun c => zn_X (rX c + 1) c).
Definition cpu_op_iny : nesM () := regs_ (fun c => zn_Y (rY c + 1) c).

Definition cpu_op_dec : nesM () :=
  v ← gets op_value; let result := byte (v - 1) in _ ← write_op result; regs_ (cpu_update_zn_flags result).
Definition cpu_op_dex : nesM () := regs_ (fun c => zn_X (rX c - 1) c).
Definition cpu_op_dey : nesM () := regs_ (fun c => zn_Y (rY c - 1) c).

Definition cpu_op_php : nesM () := c ← gets cpu; cpu_stack_pushb (Z.lor (rP c) 0x30).
Definition cpu_op_pha : nesM () := c ← gets cpu; cpu_stack_pushb (rA c).
Definition cpu_op_pla : nesM () := v ← cpu_stack_popb; regs_ (zn_A v).
Definition cpu_op_plp : nesM () := v ← cpu_stack_popb; regs_ (set_P (Z.lor (Z.land v 0xEF) 0x20)).

Definition cpu_op_aso : nesM () := _ ← cpu_op_asl; cpu_op_ora.
Definition cpu_op_axa : nesM () :=
  c ← gets cpu; a ← gets op_address; memory_writeb a (Z.land (Z.land (rA c) (rX c)) (Z.shiftr a 8)).
Definition cpu_op_axs : nesM () := c ← gets cpu; write_op (Z.land (rA c) (rX c)).
Definition cpu_op_dcm : nesM () :=
  v ← gets op_value; let v := Z.land (v - 1) 0xFF in _ ← set_op_value v; _ ← write_op v; cpu_op_cmp.
Definition cpu_op_ins : nesM () :=
  v ← gets op_value; let v := Z.land (v + 1) 0xFF in _ ← set_op_value v; _ ← write_op v; cpu_op_sbc.
Definition cpu_op_lax : nesM () := regs (fun v c => let c := set_X v c in zn_A (rX c) c).
Definition cpu_op_lse : nesM () := _ ← cpu_op_lsr; cpu_op_eor.
Definition cpu_op_rla : nesM () := _ ← cpu_op_rol; cpu_op_and.
Definition cpu_op_rra : nesM () := _ ← cpu_op_ror; cpu_op_adc.

Definition FE_op : nesM () := mret ().

(** ** The opcode table *)

Inductive mode :=
  | Addr_implied | Addr_immediate | Addr_zero_page | Addr_zero_page_x | Addr_zero_page_y | Addr_absolute
  | Addr_absolute_x | Addr_absolute_y | Addr_relative | Addr_indirect | Addr_indirect_x | Addr_indirect_y.

Inductive op :=
  | Op_nop | Op_adc | Op_sbc | Op_and | Op_bit | Op_eor | Op_ora | Op_asla | Op_asl | Op_lsra | Op_lsr
  | Op_rola | Op_rol | Op_rora | Op_ror | Op_lda | Op_ldx | Op_ldy | Op_sta | Op_stx | Op_sty | Op_tax
  | Op_txa | Op_tay | Op_tya | Op_tsx | Op_txs | Op_bcs | Op_beq | Op_bmi | Op_bvs | Op_bne | Op_bcc
  | Op_bpl | Op_bvc | Op_jmp | Op_jsr | Op_rts | Op_brk | Op_rti | Op_clc | Op_cld | Op_cli | Op_clv
  | Op_sec | Op_sed | Op_sei | Op_cmp | Op_cpx | Op_cpy | Op_inc | Op_inx | Op_iny | Op_dec | Op_dex
  | Op_dey | Op_php | Op_pha | Op_pla | Op_plp | Op_aso | Op_axa | Op_axs | Op_dcm | Op_ins | Op_lax
  | Op_lse | Op_rla | Op_rra | FE.

Definition address_mode (m : mode) : nesM () :=
  match m with
  | Addr_implied => cpu_address_implied
  | Addr_immediate => cpu_address_immediate
  | Addr_zero_page => cpu_address_zero_page
  | Addr_zero_page_x => cpu_address_zero_page_x
  | Addr_zero_page_y => cpu_address_zero_page_y
  | Addr_absolute => cpu_address_absolute
  | Addr_absolute_x => cpu_address_absolute_x
  | Addr_absolute_y => cpu_address_absolute_y
  | Addr_relative => cpu_address_relative
  | Addr_indirect => cpu_address_indirect
  | Addr_indirect_x => cpu_address_indirect_x
  | Addr_indirect_y => cpu_address_indirect_y
  end.

Definition handler (o : op) : nesM () :=
  match o with
  | Op_nop => cpu_op_nop
  | Op_adc => cpu_op_adc
  | Op_sbc => cpu_op_sbc
  | Op_and => cpu_op_and
  | Op_bit => cpu_op_bit
  | Op_eor => cpu_op_eor
  | Op_ora => cpu_op_ora
  | Op_asla => cpu_op_asla
  | Op_asl => cpu_op_asl
  | Op_lsra => cpu_op_lsra
  | Op_lsr => cpu_op_lsr
  | Op_rola => cpu_op_rola
  | Op_rol => cpu_op_rol
  | Op_rora => cpu_op_rora
  | Op_ror => cpu_op_ror
  | Op_lda => cpu_op_lda
  | Op_ldx => cpu_op_ldx
  | Op_ldy => cpu_op_ldy
  | Op_sta => cpu_op_sta
  | Op_stx => cpu_op_stx
  | Op_sty => cpu_op_sty
  | Op_tax => cpu_op_tax
  | Op_txa => cpu_op_txa
  | Op_tay => cpu_op_tay
  | Op_tya => cpu_op_tya
  | Op_tsx => cpu_op_tsx
  | Op_txs => cpu_op_txs
  | Op_bcs => cpu_op_bcs
  | Op_beq => cpu_op_beq
  | Op_bmi => cpu_op_bmi
  | Op_bvs => cpu_op_bvs
  | Op_bne => cpu_op_bne
  | Op_bcc => cpu_op_bcc
  | Op_bpl => cpu_op_bpl
  | Op_bvc => cpu_op_bvc
  | Op_jmp => cpu_op_jmp
  | Op_jsr => cpu_op_jsr
  | Op_rts => cpu_op_rts
  | Op_brk => cpu_op_brk
  | Op_rti => cpu_op_rti
  | Op_clc => cpu_op_clc
  | Op_cld => cpu_op_cld
  | Op_cli => cpu_op_cli
  | Op_clv => cpu_op_clv
  | Op_sec => cpu_op_sec
  | Op_sed => cpu_op_sed
  | Op_sei => cpu_op_sei
  | Op_cmp => cpu_op_cmp
  | Op_cpx => cpu_op_cpx
  | Op_cpy => cpu_op_cpy
  | Op_inc => cpu_op_inc
  | Op_inx => cpu_op_inx
  | Op_iny => cpu_op_iny
  | Op_dec => cpu_op_dec
  | Op_dex => cpu_op_dex
  | Op_dey => cpu_op_dey
  | Op_php => cpu_op_php
  | Op_pha => cpu_op_pha
  | Op_pla => cpu_op_pla
  | Op_plp => cpu_op_plp
  | Op_aso => cpu_op_aso
  | Op_axa => cpu_op_axa
  | Op_axs => cpu_op_axs
  | Op_dcm => cpu_op_dcm
  | Op_ins => cpu_op_ins
  | Op_lax => cpu_op_lax
  | Op_lse => cpu_op_lse
  | Op_rla => cpu_op_rla
  | Op_rra => cpu_op_rra
  | FE => FE_op
  end.

Record entry := mkEntry {
  e_opcode : Z; e_cycles : Z; e_handler : op; e_name : string; e_mode : mode; e_base : bool }.

Definition CPU_OP_BIS (o c : Z) (f : op) (n : string) (a : mode) : entry := mkEntry o c f n a true.
Definition CPU_OP_NII (o : Z) (a : mode) : entry := mkEntry o 1 FE "NOP" a false.
Definition CPU_OP_EIS (o c : Z) (f : op) (n : string) (a : mode) : entry := mkEntry o c f n a false.

Definition base_set : list entry :=
  [ CPU_OP_BIS 0x00 7 Op_brk "BRK" Addr_implied; CPU_OP_BIS 0x01 6 Op_ora "ORA" Addr_indirect_x;
    CPU_OP_BIS 0x05 3 Op_ora "ORA" Addr_zero_page; CPU_OP_BIS 0x06 5 Op_asl "ASL" Addr_zero_page;
    CPU_OP_BIS 0x08 3 Op_php "PHP" Addr_implied; CPU_OP_BIS 0x09 2 Op_ora "ORA" Addr_immediate;
    CPU_OP_BIS 0x0A 2 Op_asla "ASL" Addr_implied; CPU_OP_BIS 0x0D 4 Op_ora "ORA" Addr_absolute;
    CPU_OP_BIS 0x0E 6 Op_asl "ASL" Addr_absolute; CPU_OP_BIS 0x10 2 Op_bpl "BPL" Addr_relative;
    CPU_OP_BIS 0x11 5 Op_ora "ORA" Addr_indirect_y; CPU_OP_BIS 0x15 4 Op_ora "ORA" Addr_zero_page_x;
    CPU_OP_BIS 0x16 6 Op_asl "ASL" Addr_zero_page_x; CPU_OP_BIS 0x18 2 Op_clc "CLC" Addr_implied;
    CPU_OP_BIS 0x19 4 Op_ora "ORA" Addr_absolute_y; CPU_OP_BIS 0x1D 4 Op_ora "ORA" Addr_absolute_x;
    CPU_OP_BIS 0x1E 7 Op_asl "ASL" Addr_absolute_x; CPU_OP_BIS 0x20 6 Op_jsr "JSR" Addr_absolute;
    CPU_OP_BIS 0x21 6 Op_and "AND" Addr_indirect_x; CPU_OP_BIS 0x24 3 Op_bit "BIT" Addr_zero_page;
    CPU_OP_BIS 0x25 3 Op_and "AND" Addr_zero_page; CPU_OP_BIS 0x26 5 Op_rol "ROL" Addr_zero_page;
    CPU_OP_BIS 0x28 4 Op_plp "PLP" Addr_implied; CPU_OP_BIS 0x29 2 Op_and "AND" Addr_immediate;
    CPU_OP_BIS 0x2A 2 Op_rola "ROL" Addr_implied; CPU_OP_BIS 0x2C 4 Op_bit "BIT" Addr_absolute;
    CPU_OP_BIS 0x2D 2 Op_and "AND" Addr_absolute; CPU_OP_BIS 0x2E 6 Op_rol "ROL" Addr_absolute;
    CPU_OP_BIS 0x30 2 Op_bmi "BMI" Addr_relative; CPU_OP_BIS 0x31 5 Op_and "AND" Addr_indirect_y;
    CPU_OP_BIS 0x35 4 Op_and "AND" Addr_zero_page_x; CPU_OP_BIS 0x36 6 Op_rol "ROL" Addr_zero_page_x;
    CPU_OP_BIS 0x38 2 Op_sec "SEC" Addr_implied; CPU_OP_BIS 0x39 4 Op_and "AND" Addr_absolute_y;
    CPU_OP_BIS 0x3D 4 Op_and "AND" Addr_absolute_x; CPU_OP_BIS 0x3E 7 Op_rol "ROL" Addr_absolute_x;
    CPU_OP_BIS 0x40 6 Op_rti "RTI" Addr_implied; CPU_OP_BIS 0x41 6 Op_eor "EOR" Addr_indirect_x;
    CPU_OP_BIS 0x45 3 Op_eor "EOR" Addr_zero_page; CPU_OP_BIS 0x46 5 Op_lsr "LSR" Addr_zero_page;
    CPU_OP_BIS 0x48 3 Op_pha "PHA" Addr_implied; CPU_OP_BIS 0x49 2 Op_eor "EOR" Addr_immediate;
    CPU_OP_BIS 0x4A 2 Op_lsra "LSR" Addr_implied; CPU_OP_BIS 0x4C 3 Op_jmp "JMP" Addr_absolute;
    CPU_OP_BIS 0x4D 4 Op_eor "EOR" Addr_absolute; CPU_OP_BIS 0x4E 6 Op_lsr "LSR" Addr_absolute;
    CPU_OP_BIS 0x50 2 Op_bvc "BVC" Addr_relative; CPU_OP_BIS 0x51 5 Op_eor "EOR" Addr_indirect_y;
    CPU_OP_BIS 0x55 4 Op_eor "EOR" Addr_zero_page_x; CPU_OP_BIS 0x56 6 Op_lsr "LSR" Addr_zero_page_x;
    CPU_OP_BIS 0x58 2 Op_cli "CLI" Addr_implied; CPU_OP_BIS 0x59 4 Op_eor "EOR" Addr_absolute_y;
    CPU_OP_BIS 0x5D 4 Op_eor "EOR" Addr_absolute_x; CPU_OP_BIS 0x5E 7 Op_lsr "LSR" Addr_absolute_x;
    CPU_OP_BIS 0x60 6 Op_rts "RTS" Addr_implied; CPU_OP_BIS 0x61 6 Op_adc "ADC" Addr_indirect_x;
    CPU_OP_BIS 0x65 3 Op_adc "ADC" Addr_zero_page; CPU_OP_BIS 0x66 5 Op_ror "ROR" Addr_zero_page;
    CPU_OP_BIS 0x68 4 Op_pla "PLA" Addr_implied; CPU_OP_BIS 0x69 2 Op_adc "ADC" Addr_immediate;
    CPU_OP_BIS 0x6A 2 Op_rora "ROR" Addr_implied; CPU_OP_BIS 0x6C 5 Op_jmp "JMP" Addr_indirect;
    CPU_OP_BIS 0x6D 4 Op_adc "ADC" Addr_absolute; CPU_OP_BIS 0x6E 6 Op_ror "ROR" Addr_absolute;
    CPU_OP_BIS 0x70 2 Op_bvs "BVS" Addr_relative; CPU_OP_BIS 0x71 5 Op_adc "ADC" Addr_indirect_y;
    CPU_OP_BIS 0x75 4 Op_adc "ADC" Addr_zero_page_x; CPU_OP_BIS 0x76 6 Op_ror "ROR" Addr_zero_page_x;
    CPU_OP_BIS 0x78 2 Op_sei "SEI" Addr_implied; CPU_OP_BIS 0x79 4 Op_adc "ADC" Addr_absolute_y;
    CPU_OP_BIS 0x7D 4 Op_adc "ADC" Addr_absolute_x; CPU_OP_BIS 0x7E 7 Op_ror "ROR" Addr_absolute_x;
    CPU_OP_BIS 0x81 6 Op_sta "STA" Addr_indirect_x; CPU_OP_BIS 0x84 3 Op_sty "STY" Addr_zero_page;
    CPU_OP_BIS 0x85 3 Op_sta "STA" Addr_zero_page; CPU_OP_BIS 0x86 3 Op_stx "STX" Addr_zero_page;
    CPU_OP_BIS 0x88 2 Op_dey "DEY" Addr_implied; CPU_OP_BIS 0x8A 2 Op_txa "TXA" Addr_implied;
    CPU_OP_BIS 0x8C 4 Op_sty "STY" Addr_absolute; CPU_OP_BIS 0x8D 4 Op_sta "STA" Addr_absolute;
    CPU_OP_BIS 0x8E 4 Op_stx "STX" Addr_absolute; CPU_OP_BIS 0x90 2 Op_bcc "BCC" Addr_relative;
    CPU_OP_BIS 0x91 6 Op_sta "STA" Addr_indirect_y; CPU_OP_BIS 0x94 4 Op_sty "STY" Addr_zero_page_x;
    CPU_OP_BIS 0x95 4 Op_sta "STA" Addr_zero_page_x; CPU_OP_BIS 0x96 4 Op_stx "STX" Addr_zero_page_y;
    CPU_OP_BIS 0x98 2 Op_tya "TYA" Addr_implied; CPU_OP_BIS 0x99 5 Op_sta "STA" Addr_absolute_y;
    CPU_OP_BIS 0x9A 2 Op_txs "TXS" Addr_implied; CPU_OP_BIS 0x9D 5 Op_sta "STA" Addr_absolute_x;
    CPU_OP_BIS 0xA0 2 Op_ldy "LDY" Addr_immediate; CPU_OP_BIS 0xA1 6 Op_lda "LDA" Addr_indirect_x;
    CPU_OP_BIS 0xA2 2 Op_ldx "LDX" Addr_immediate; CPU_OP_BIS 0xA4 3 Op_ldy "LDY" Addr_zero_page;
    CPU_OP_BIS 0xA5 3 Op_lda "LDA" Addr_zero_page; CPU_OP_BIS 0xA6 3 Op_ldx "LDX" Addr_zero_page;
    CPU_OP_BIS 0xA8 2 Op_tay "TAY" Addr_implied; CPU_OP_BIS 0xA9 2 Op_lda "LDA" Addr_immediate;
    CPU_OP_BIS 0xAA 2 Op_tax "TAX" Addr_implied; CPU_OP_BIS 0xAC 4 Op_ldy "LDY" Addr_absolute;
    CPU_OP_BIS 0xAD 4 Op_lda "LDA" Addr_absolute; CPU_OP_BIS 0xAE 4 Op_ldx "LDX" Addr_absolute;
    CPU_OP_BIS 0xB0 2 Op_bcs "BCS" Addr_relative; CPU_OP_BIS 0xB1 5 Op_lda "LDA" Addr_indirect_y;
    CPU_OP_BIS 0xB4 4 Op_ldy "LDY" Addr_zero_page_x; CPU_OP_BIS 0xB5 4 Op_lda "LDA" Addr_zero_page_x;
    CPU_OP_BIS 0xB6 4 Op_ldx "LDX" Addr_zero_page_y; CPU_OP_BIS 0xB8 2 Op_clv "CLV" Addr_implied;
    CPU_OP_BIS 0xB9 4 Op_lda "LDA" Addr_absolute_y; CPU_OP_BIS 0xBA 2 Op_tsx "TSX" Addr_implied;
    CPU_OP_BIS 0xBC 4 Op_ldy "LDY" Addr_absolute_x; CPU_OP_BIS 0xBD 4 Op_lda "LDA" Addr_absolute_x;
    CPU_OP_BIS 0xBE 4 Op_ldx "LDX" Addr_absolute_y; CPU_OP_BIS 0xC0 2 Op_cpy "CPY" Addr_immediate;
    CPU_OP_BIS 0xC1 6 Op_cmp "CMP" Addr_indirect_x; CPU_OP_BIS 0xC4 3 Op_cpy "CPY" Addr_zero_page;
    CPU_OP_BIS 0xC5 3 Op_cmp "CMP" Addr_zero_page; CPU_OP_BIS 0xC6 5 Op_dec "DEC" Addr_zero_page;
    CPU_OP_BIS 0xC8 2 Op_iny "INY" Addr_implied; CPU_OP_BIS 0xC9 2 Op_cmp "CMP" Addr_immediate;
    CPU_OP_BIS 0xCA 2 Op_dex "DEX" Addr_implied; CPU_OP_BIS 0xCC 4 Op_cpy "CPY" Addr_absolute;
    CPU_OP_BIS 0xCD 4 Op_cmp "CMP" Addr_absolute; CPU_OP_BIS 0xCE 6 Op_dec "DEC" Addr_absolute;
    CPU_OP_BIS 0xD0 2 Op_bne "BNE" Addr_relative; CPU_OP_BIS 0xD1 5 Op_cmp "CMP" Addr_indirect_y;
    CPU_OP_BIS 0xD5 4 Op_cmp "CMP" Addr_zero_page_x; CPU_OP_BIS 0xD6 6 Op_dec "DEC" Addr_zero_page_x;
    CPU_OP_BIS 0xD8 2 Op_cld "CLD" Addr_implied; CPU_OP_BIS 0xD9 4 Op_cmp "CMP" Addr_absolute_y;
    CPU_OP_BIS 0xDD 4 Op_cmp "CMP" Addr_absolute_x; CPU_OP_BIS 0xDE 7 Op_dec "DEC" Addr_absolute_x;
    CPU_OP_BIS 0xE0 2 Op_cpx "CPX" Addr_immediate; CPU_OP_BIS 0xE1 6 Op_sbc "SBC" Addr_indirect_x;
    CPU_OP_BIS 0xE4 3 Op_cpx "CPX" Addr_zero_page; CPU_OP_BIS 0xE5 3 Op_sbc "SBC" Addr_zero_page;
    CPU_OP_BIS 0xE6 5 Op_inc "INC" Addr_zero_page; CPU_OP_BIS 0xE8 2 Op_inx "INX" Addr_implied;
    CPU_OP_BIS 0xE9 2 Op_sbc "SBC" Addr_immediate; CPU_OP_BIS 0xEA 2 Op_nop "NOP" Addr_implied;
    CPU_OP_BIS 0xEC 4 Op_cpx "CPX" Addr_absolute; CPU_OP_BIS 0xED 4 Op_sbc "SBC" Addr_absolute;
    CPU_OP_BIS 0xEE 6 Op_inc "INC" Addr_absolute; CPU_OP_BIS 0xF0 2 Op_beq "BEQ" Addr_relative;
    CPU_OP_BIS 0xF1 5 Op_sbc "SBC" Addr_indirect_y; CPU_OP_BIS 0xF5 4 Op_sbc "SBC" Addr_zero_page_x;
    CPU_OP_BIS 0xF6 6 Op_inc "INC" Addr_zero_page_x; CPU_OP_BIS 0xF8 2 Op_sed "SED" Addr_implied;
    CPU_OP_BIS 0xF9 4 Op_sbc "SBC" Addr_absolute_y; CPU_OP_BIS 0xFD 4 Op_sbc "SBC" Addr_absolute_x;
    CPU_OP_BIS 0xFE 7 Op_inc "INC" Addr_absolute_x ]%string.

Definition extended_set : list entry :=
  [ CPU_OP_EIS 0x03 8 Op_aso "SLO" Addr_indirect_x; CPU_OP_EIS 0x07 5 Op_aso "SLO" Addr_zero_page;
    CPU_OP_EIS 0x0F 6 Op_aso "SLO" Addr_absolute; CPU_OP_EIS 0x13 8 Op_aso "SLO" Addr_indirect_y;
    CPU_OP_EIS 0x17 6 Op_aso "SLO" Addr_zero_page_x; CPU_OP_EIS 0x1B 7 Op_aso "SLO" Addr_absolute_y;
    CPU_OP_EIS 0x1F 7 Op_aso "SLO" Addr_absolute_x; CPU_OP_EIS 0x23 8 Op_rla "RLA" Addr_indirect_x;
    CPU_OP_EIS 0x27 5 Op_rla "RLA" Addr_zero_page; CPU_OP_EIS 0x2F 6 Op_rla "RLA" Addr_absolute;
    CPU_OP_EIS 0x33 8 Op_rla "RLA" Addr_indirect_y; CPU_OP_EIS 0x37 6 Op_rla "RLA" Addr_zero_page_x;
    CPU_OP_EIS 0x3B 7 Op_rla "RLA" Addr_absolute_y; CPU_OP_EIS 0x3F 7 Op_rla "RLA" Addr_absolute_x;
    CPU_OP_EIS 0x43 8 Op_lse "SRE" Addr_indirect_x; CPU_OP_EIS 0x47 5 Op_lse "SRE" Addr_zero_page;
    CPU_OP_EIS 0x4F 6 Op_lse "SRE" Addr_absolute; CPU_OP_EIS 0x53 8 Op_lse "SRE" Addr_indirect_y;
    CPU_OP_EIS 0x57 6 Op_lse "SRE" Addr_zero_page_x; CPU_OP_EIS 0x5B 7 Op_lse "SRE" Addr_absolute_y;
    CPU_OP_EIS 0x5F 7 Op_lse "SRE" Addr_absolute_x; CPU_OP_EIS 0x63 8 Op_rra "RRA" Addr_indirect_x;
    CPU_OP_EIS 0x67 5 Op_rra "RRA" Addr_zero_page; CPU_OP_EIS 0x6F 6 Op_rra "RRA" Addr_absolute;
    CPU_OP_EIS 0x73 8 Op_rra "RRA" Addr_indirect_y; CPU_OP_EIS 0x77 6 Op_rra "RRA" Addr_zero_page_x;
    CPU_OP_EIS 0x7B 7 Op_rra "RRA" Addr_absolute_y; CPU_OP_EIS 0x7F 7 Op_rra "RRA" Addr_absolute_x;
    CPU_OP_EIS 0x83 6 Op_axs "SAX" Addr_indirect_x; CPU_OP_EIS 0x87 3 Op_axs "SAX" Addr_zero_page;
    CPU_OP_EIS 0x8F 4 Op_axs "SAX" Addr_absolute; CPU_OP_EIS 0x93 6 Op_axa "SAX" Addr_indirect_y;
    CPU_OP_EIS 0x97 4 Op_axs "SAX" Addr_zero_page_y; CPU_OP_EIS 0x9F 5 Op_axa "SAX" Addr_absolute_y;
    CPU_OP_EIS 0xA3 6 Op_lax "LAX" Addr_indirect_x; CPU_OP_EIS 0xA7 3 Op_lax "LAX" Addr_zero_page;
    CPU_OP_EIS 0xAF 4 Op_lax "LAX" Addr_absolute; CPU_OP_EIS 0xB3 5 Op_lax "LAX" Addr_indirect_y;
    CPU_OP_EIS 0xB7 4 Op_lax "LAX" Addr_zero_page_y; CPU_OP_EIS 0xBF 4 Op_lax "LAX" Addr_absolute_y;
    CPU_OP_EIS 0xC3 8 Op_dcm "DCP" Addr_indirect_x; CPU_OP_EIS 0xC7 5 Op_dcm "DCP" Addr_zero_page;
    CPU_OP_EIS 0xCF 6 Op_dcm "DCP" Addr_absolute; CPU_OP_EIS 0xD3 8 Op_dcm "DCP" Addr_indirect_y;
    CPU_OP_EIS 0xD7 6 Op_dcm "DCP" Addr_zero_page_x; CPU_OP_EIS 0xDB 7 Op_dcm "DCP" Addr_absolute_y;
    CPU_OP_EIS 0xDF 7 Op_dcm "DCP" Addr_absolute_x; CPU_OP_EIS 0xE3 8 Op_ins "ISB" Addr_indirect_x;
    CPU_OP_EIS 0xE7 5 Op_ins "ISB" Addr_zero_page; CPU_OP_EIS 0xEB 2 Op_sbc "SBC" Addr_immediate;
    CPU_OP_EIS 0xEF 6 Op_ins "ISB" Addr_absolute; CPU_OP_EIS 0xF3 8 Op_ins "ISB" Addr_indirect_y;
    CPU_OP_EIS 0xF7 6 Op_ins "ISB" Addr_zero_page_x; CPU_OP_EIS 0xFB 7 Op_ins "ISB" Addr_absolute_y;
    CPU_OP_EIS 0xFF 7 Op_ins "ISB" Addr_absolute_x ]%string.

Definition not_implemented : list entry :=
  [ CPU_OP_NII 0x04 Addr_zero_page; CPU_OP_NII 0x0C Addr_absolute; CPU_OP_NII 0x14 Addr_zero_page_x;
    CPU_OP_NII 0x1A Addr_implied; CPU_OP_NII 0x1C Addr_absolute_x; CPU_OP_NII 0x34 Addr_zero_page_x;
    CPU_OP_NII 0x3A Addr_implied; CPU_OP_NII 0x3C Addr_absolute_x; CPU_OP_NII 0x44 Addr_zero_page;
    CPU_OP_NII 0x54 Addr_zero_page_x; CPU_OP_NII 0x5A Addr_implied; CPU_OP_NII 0x5C Addr_absolute_x;
    CPU_OP_NII 0x64 Addr_zero_page; CPU_OP_NII 0x74 Addr_zero_page_x; CPU_OP_NII 0x7A Addr_implied;
    CPU_OP_NII 0x7C Addr_absolute_x; CPU_OP_NII 0x80 Addr_immediate; CPU_OP_NII 0xD4 Addr_zero_page_x;
    CPU_OP_NII 0xDA Addr_implied; CPU_OP_NII 0xDC Addr_absolute_x; CPU_OP_NII 0xF4 Addr_zero_page_x;
    CPU_OP_NII 0xFA Addr_implied; CPU_OP_NII 0xFC Addr_absolute_x ]%string.

Definition op_table : list entry := base_set ++ extended_set ++ not_implemented.

(** The arrays [cpu_op_address_mode], [cpu_op_handler] and [cpu_op_cycles] after
    [cpu_init]: [None] is the null pointer, with zero cycles. *)
Definition lookup_op (o : Z) : option entry := List.find (fun e => e_opcode e =? o) op_table.
Definition op_cycles_of (o : Z) : Z := match lookup_op o with Some e => e_cycles e | None => 0 end.

Definition cpu_init : nesM () := regs_ (fun c => mkCpu (rPC c) 0 0 0 0 0x24).

(** ** Running *)

Definition cpu_reset : nesM () :=
  a ← cpu_reset_interrupt_address;
  regs_ (fun c => let c := set_SP (rSP c - 3) (set_PC a c) in set_P (Z.lor (rP c) interrupt_flag) c).

Definition cpu_interrupt : nesM () :=
  p ← gets ppu;
  if ppu_generates_nmi p then
    _ ← regs_ (fun c => cpu_unset_flag unused_bp (set_P (Z.lor (rP c) interrupt_flag) c));
    c ← gets cpu; _ ← cpu_stack_pushw (rPC c);
    c ← gets cpu; _ ← cpu_stack_pushb (rP c);
    a ← cpu_nmi_interrupt_address; regs_ (set_PC a)
  else mret ().

Definition cpu_clock : nesM Z := gets cpu_cycles.

(** One round of the loop of [cpu_run]; it returns the cycles that are left. *)
Definition cpu_step (cycles : Z) : nesM Z :=
  c ← gets cpu; _ ← advance 1; op_code ← memory_readb (rPC c);
  _ ← match lookup_op op_code with
      | None => mret ()
      | Some e => _ ← address_mode (e_mode e); handler (e_handler e)
      end;
  used ← gets (fun s => op_cycles_of op_code + op_cycles s);
  _ ← modify (fun s => {| s with cpu_cycles := wrap64 (cpu_cycles s - used); op_cycles := 0 |});
  mret (cycles - used).

(** [None]: not done after [fuel] rounds. *)
Fixpoint cpu_loop (fuel : nat) (cycles : Z) : nesM (option ()) :=
  if cycles <=? 0 then mret (Some ())
  else match fuel with
       | O => mret None
       | S fuel => left_ ← cpu_step cycles; cpu_loop fuel left_
       end.

Definition cpu_run (fuel : nat) (cycles : Z) : nesM (option ()) := cpu_loop fuel (Z.quot cycles 3).
