(* ===== verification/NesSafe.v ===== *)
(** * LiteNES: no instruction goes wrong

    The invariant of the emulator's state: registers and memories hold bytes
    and words, the mapper is one without bank switching.  [triple] says that a
    computation returns from every such state and keeps the invariant; the
    memory operations, the addressing modes and the handlers are proved against
    it one by one, and an instruction is their composition. *)

From S2P Require Import Prelude Word Ftrace Kstdlib Am Nes NesCpu.

(** ** The invariant *)

Definition is_byte (x : Z) : Prop := 0 <= x < 256.
Definition bytes (a : array) : Prop := forall i, is_byte (aget a i).

Record cpu_wf (c : CPU_STATE) : Prop := {
  wf_PC : 0 <= rPC c < 65536; wf_SP : is_byte (rSP c); wf_A : is_byte (rA c);
  wf_X : is_byte (rX c); wf_Y : is_byte (rY c); wf_P : is_byte (rP c) }.

Record ppu_wf (p : PPU_STATE) : Prop := {
  wf_CTRL : is_byte (PPUCTRL p); wf_MASK : is_byte (PPUMASK p); wf_STATUS : is_byte (PPUSTATUS p);
  wf_OAMADDR : is_byte (OAMADDR p); wf_SX : is_byte (PPUSCROLL_X p); wf_SY : is_byte (PPUSCROLL_Y p);
  wf_ADDR : 0 <= PPUADDR p < 65536; wf_xor : mirroring_xor p ∈ [0; 0x400; 0x800];
  wf_line : -1 <= scanline p <= 262 }.

Record nes_wf (s : Nes) : Prop := {
  wf_cpu : cpu_wf (cpu s);
  wf_ppu : ppu_wf (ppu s);
  wf_ram : bytes (CPU_RAM s);
  wf_value : is_byte (op_value s);
  wf_cycles : 0 <= op_cycles s;
  wf_latches : is_byte (ppu_addr_latch s) /\ is_byte (ppu_latch s);
  wf_spr : bytes (PPU_SPRRAM s);
  wf_vram : bytes (PPU_RAM s);
  wf_memory : bytes (memory s);
  wf_mapper : mmc_id s <> 3;
  wf_joy : 0 <= joy_p s }.

(** From every well-formed state [m] returns a [Q], the state stays well formed,
    and the joystick counter moves up by [k] at most or is reset. *)
Definition triple {A} (k : Z) (m : nesM A) (Q : A -> Prop) : Prop :=
  forall s, nes_wf s -> joy_p s + k <= INT_MAX ->
  exists a s', m s = Ok (a, s') /\ nes_wf s' /\ joy_p s' <= joy_p s + k /\ Q a.

Definition any {A} (_ : A) : Prop := True.

Lemma triple_bind {A B} k1 k2 k (m : nesM A) (f : A -> nesM B) P Q : 0 <= k1 -> 0 <= k2 ->
  triple k1 m P -> (forall a, P a -> triple k2 (f a) Q) -> k1 + k2 <= k -> triple k (m ≫= f) Q.
Proof.
  intros Hk1 Hk2 Hm Hf Hk s Hw Hj. destruct (Hm s Hw) as (a & s1 & E & Hw1 & Hj1 & Ha); [lia |].
  destruct (Hf a Ha s1 Hw1) as (b & s2 & E2 & Hw2 & Hj2 & Hb); [lia |].
  exists b, s2. split; [unfold mbind, nesM_bind; by rewrite E |]. split_and!; [done | lia | done].
Qed.

Lemma triple_weaken {A} k k' (m : nesM A) (P Q : A -> Prop) :
  triple k m P -> k <= k' -> (forall a, P a -> Q a) -> triple k' m Q.
Proof.
  intros Hm Hk HPQ s Hw Hj. destruct (Hm s Hw) as (a & s1 & E & Hw1 & Hj1 & Ha); [lia |].
  exists a, s1. split_and!; auto; lia.
Qed.

Lemma triple_ret {A} k (a : A) (Q : A -> Prop) : 0 <= k -> Q a -> triple k (mret a) Q.
Proof. intros Hk Ha s Hw Hj. exists a, s. split_and!; auto; lia. Qed.

Lemma triple_gets {A} k (f : Nes -> A) (Q : A -> Prop) :
  0 <= k -> (forall s, nes_wf s -> Q (f s)) -> triple k (gets f) Q.
Proof. intros Hk Hf s Hw Hj. exists (f s), s. split_and!; auto; lia. Qed.

Lemma triple_modify k f : 0 <= k ->
  (forall s, nes_wf s -> nes_wf (f s) /\ joy_p (f s) = joy_p s) -> triple k (modify f) any.
Proof.
  intros Hk Hf s Hw Hj. destruct (Hf s Hw) as [Hw' Ej]. exists (), (f s). split_and!; try done; lia.
Qed.

Lemma triple_if {A} k (b : bool) (m1 m2 : nesM A) Q :
  (b = true -> triple k m1 Q) -> (b = false -> triple k m2 Q) -> triple k (if b then m1 else m2) Q.
Proof. destruct b; auto. Qed.

Lemma triple_ensure k b : 0 <= k -> b = true -> triple k (nes_ensure b) any.
Proof. intros Hk -> s Hw Hj. exists (), s. split_and!; try done; lia. Qed.

(** ** Bytes *)

Lemma byte_is x : is_byte (byte x).
Proof. apply Z.mod_pos_bound. lia. Qed.

Lemma word_is x : 0 <= word x < 65536.
Proof. apply Z.mod_pos_bound. lia. Qed.

Lemma word_id x : 0 <= x < 65536 -> word x = x.
Proof. intros. apply Z.mod_small. lia. Qed.

Lemma byte_id x : is_byte x -> byte x = x.
Proof. intros. apply Z.mod_small. unfold is_byte in *. lia. Qed.

Lemma land_byte x : is_byte (Z.land x 0xFF).
Proof. change 0xFF with (Z.ones 8). rewrite Z.land_ones by lia. apply Z.mod_pos_bound. lia. Qed.

Lemma bytes_aset a i v : bytes a -> is_byte v -> bytes (aset a i v).
Proof.
  intros Ha Hv j. unfold aget, aset. destruct (decide (i = j)) as [-> | Hne].
  - by rewrite lookup_insert_eq.
  - rewrite lookup_insert_ne by done. apply Ha.
Qed.

Lemma bytes_copy_in bs a i : bytes a -> Forall is_byte bs -> bytes (copy_in a i bs).
Proof. intros Ha Hbs. revert a i Ha. induction Hbs; intros a i Ha; cbn; auto using bytes_aset. Qed.

Lemma bytes_empty : bytes ∅.
Proof. intros i. unfold aget. rewrite lookup_empty. unfold is_byte. cbn. lia. Qed.

#[export] Hint Resolve byte_is word_is land_byte bytes_aset bytes_copy_in bytes_empty : emu.

(** A property of the numbers below [n], by looking at each. *)
Definition below (n : nat) (f : Z -> bool) : bool := forallb f (seqZ_from 0 n).

Lemma below_spec n f : below n f = true -> forall x, 0 <= x < Z.of_nat n -> f x = true.
Proof.
  intros H x Hx. unfold below in H. rewrite forallb_forall in H. apply H.
  apply list_elem_of_In, elem_of_seqZ_from. lia.
Qed.

(** ** The memories *)

Lemma land_bound x n : 0 <= n -> 0 <= Z.land x (Z.ones n) < 2 ^ n.
Proof. intros. rewrite Z.land_ones by done. apply Z.mod_pos_bound. lia. Qed.

Lemma real_address_range a : 0 <= a < 0x4000 -> 0 <= ppu_get_real_ram_address a < 0x4000.
Proof.
  intros Ha. unfold ppu_get_real_ram_address.
  pose proof (land_bound a 5 ltac:(lia)) as Hl. change (Z.ones 5) with 0x1F in Hl.
  assert (Hor : Z.lor 0x3F00 (Z.land a 0x1F) = 0x3F00 + Z.land a 0x1F).
  { apply Z.eqb_eq. revert Hl. generalize (Z.land a 0x1F).
    apply (below_spec 32 (fun x => Z.lor 0x3F00 x =? 0x3F00 + x)). vm_compute. reflexivity. }
  rewrite Hor. repeat case_if; zify_bool; lia.
Qed.

#[export] Hint Resolve wf_cpu wf_ppu wf_ram wf_value wf_cycles wf_latches wf_spr wf_vram wf_memory wf_mapper wf_joy : emu.
#[export] Hint Resolve wf_PC wf_SP wf_A wf_X wf_Y wf_P : emu.
#[export] Hint Resolve wf_CTRL wf_MASK wf_STATUS wf_OAMADDR wf_SX wf_SY wf_ADDR wf_xor wf_line : emu.

(** The state after some fields have been assigned. *)
Ltac wf := repeat (constructor || done); cbn; auto with emu.

Lemma bit_byte v position b : is_byte (common_modify_bitb v position b).
Proof. unfold common_modify_bitb, common_set_bitb, common_unset_bitb. case_if; auto with emu. Qed.

Lemma ppu_set_sprite_overflow_wf b p : ppu_wf p -> ppu_wf (ppu_set_sprite_overflow b p).
Proof. intros []. constructor; cbn; auto using bit_byte. Qed.
Lemma ppu_set_sprite_0_hit_wf b p : ppu_wf p -> ppu_wf (ppu_set_sprite_0_hit b p).
Proof. intros []. constructor; cbn; auto using bit_byte. Qed.
Lemma ppu_set_in_vblank_wf b p : ppu_wf p -> ppu_wf (ppu_set_in_vblank b p).
Proof. intros []. constructor; cbn; auto using bit_byte. Qed.
#[export] Hint Resolve ppu_set_sprite_overflow_wf ppu_set_sprite_0_hit_wf ppu_set_in_vblank_wf : emu.

Lemma nes_wf_ppu s p : nes_wf s -> ppu_wf p -> nes_wf {| s with ppu := p |}.
Proof. intros [] Hp. by constructor. Qed.

Lemma nes_wf_cpu s c : nes_wf s -> cpu_wf c -> nes_wf {| s with cpu := c |}.
Proof. intros [] Hp. by constructor. Qed.

Lemma ppu_masked_wf p : ppu_wf p -> ppu_wf {| p with PPUADDR := Z.land (PPUADDR p) 0x3FFF |}.
Proof.
  intros []. constructor; cbn; try done. change 0x3FFF with (Z.ones 14).
  pose proof (land_bound (PPUADDR p) 14 ltac:(lia)). lia.
Qed.

Lemma triple_ram_read k a : 0 <= k -> 0 <= a < 0x4000 -> triple k (ppu_ram_read a) is_byte.
Proof.
  intros Hk Ha. unfold ppu_ram_read. pose proof (real_address_range a Ha). rewrite word_id by lia.
  eapply (triple_bind 0 k); [lia | lia | apply triple_ensure; lia | | lia].
  intros _ _. apply triple_gets; [done |]. intros s Hw. apply wf_vram, Hw.
Qed.

Lemma triple_ram_write k a d : 0 <= k -> 0 <= a < 0x4000 -> triple k (ppu_ram_write a d) any.
Proof.
  intros Hk Ha. unfold ppu_ram_write. pose proof (real_address_range a Ha). rewrite word_id by lia.
  eapply (triple_bind 0 k); [lia | lia | apply triple_ensure; lia | | lia].
  intros _ _. apply triple_modify; [done |]. intros s []. split; [| done]. constructor; cbn; auto with emu.
Qed.

(** A computation that starts by an assignment, run from a known state. *)
Lemma triple_from {A} k f (m : nesM A) (P : Nes -> Prop) Q :
  (forall s, nes_wf s -> nes_wf (f s) /\ joy_p (f s) = joy_p s /\ P (f s)) ->
  (forall s, nes_wf s -> P s -> joy_p s + k <= INT_MAX ->
     exists a s', m s = Ok (a, s') /\ nes_wf s' /\ joy_p s' <= joy_p s + k /\ Q a) ->
  triple k (_ ← modify f; m) Q.
Proof.
  intros Hf Hm s Hw Hj. destruct (Hf s Hw) as (Hw' & Ej & HP).
  destruct (Hm _ Hw' HP) as (a & s' & E & H'); [lia |]. exists a, s'. rewrite Ej in H'. done.
Qed.

(** Reading a value that the state bounds. *)
Lemma triple_read_at {A B} k (f : Nes -> A) (P : A -> Prop) (m : A -> nesM B) Q :
  (forall a, P a -> triple k (m a) Q) ->
  forall s, nes_wf s -> P (f s) -> joy_p s + k <= INT_MAX -> ppu_wf (ppu s) ->
  exists b s', (a ← gets f; m a) s = Ok (b, s') /\ nes_wf s' /\ joy_p s' <= joy_p s + k /\ Q b.
Proof. intros Hm s Hw HP Hj _. exact (Hm _ HP s Hw Hj). Qed.

Lemma triple_sprram_write k d : 0 <= k -> triple k (ppu_sprram_write d) any.
Proof.
  intros Hk. apply triple_modify; [done |]. intros s Hw. pose proof (wf_ppu _ Hw) as []. destruct Hw.
  split; [| done]. constructor; cbn; auto with emu. by constructor; cbn; auto with emu.
Qed.

Lemma masked_start s : nes_wf s ->
  let s' := let p := ppu s in {| s with ppu := {| p with PPUADDR := Z.land (PPUADDR p) 0x3FFF |} |} in
  nes_wf s' /\ joy_p s' = joy_p s /\ 0 <= PPUADDR (ppu s') < 0x4000.
Proof.
  intros Hw. split; [by apply nes_wf_ppu, ppu_masked_wf; auto with emu | split; [done |]].
  cbn. apply (land_bound _ 14). lia.
Qed.

(** Run a straight-line computation in the goal. *)
Ltac run_nes := unfold mbind, nesM_bind, mret, nesM_ret, gets, modify, set_ppu, lift, nes_ensure, ensure; cbn.

(** The eight registers. *)
Lemma register_cases a : Z.land a 7 = 0 \/ Z.land a 7 = 1 \/ Z.land a 7 = 2 \/ Z.land a 7 = 3 \/ Z.land a 7 = 4 \/
  Z.land a 7 = 5 \/ Z.land a 7 = 6 \/ Z.land a 7 = 7.
Proof. pose proof (land_bound a 3 ltac:(lia)) as Hb. change (Z.ones 3) with 7 in Hb. lia. Qed.

Lemma nes_wf_latched s p v l b : nes_wf s -> ppu_wf p -> is_byte v -> is_byte l ->
  nes_wf {| s with ppu := p; ppu_latch := v; ppu_addr_latch := l; ppu_2007_first_read := b |}.
Proof. intros [] Hp Hv Hl. by constructor. Qed.

Lemma triple_ppuio_read k a : 0 <= k -> triple k (ppuio_read a) is_byte.
Proof.
  intros Hk. apply (triple_from _ _ _ (fun s => 0 <= PPUADDR (ppu s) < 0x4000)); [apply masked_start |].
  intros s Hw Ha Hj. pose proof (wf_ppu _ Hw) as Hp.
  destruct (register_cases a) as [-> | [-> | [-> | [-> | [-> | [-> | [-> | ->]]]]]]].
  1, 2, 4, 6, 7: exists 0xFF, s; split_and!; [done | done | lia | by split].
  - eexists _, _. split; [reflexivity |]. cbn. split_and!; [| lia | auto with emu].
    apply (nes_wf_latched s); [done | | auto with emu | by split].
    pose proof (ppu_set_sprite_0_hit_wf false _ (ppu_set_in_vblank_wf false _ Hp)) as []. by constructor.
  - eexists _, _. split; [reflexivity |]. cbn. split_and!; [| lia | apply wf_spr, Hw].
    destruct Hw as [? ? ? ? ? [] ? ? ? ? ?]. constructor; cbn; auto.
  - revert s Hw Ha Hj Hp. apply (triple_read_at _ (fun s => PPUADDR (ppu s)) (fun a => 0 <= a < 0x4000)).
    intros v Hv. eapply (triple_bind 0 k); [lia | lia | by apply triple_ram_read | | lia].
    intros d Hd. eapply (triple_bind 0 k); [lia | lia | | | lia].
    { apply triple_modify; [done |]. intros s Hw. split; [| done].
      destruct Hw as [? ? ? ? ? [] ? ? ? ? ?]. constructor; cbn; auto. split; [done |]. case_if; [done | by split]. }
    intros _ _. eapply (triple_bind 0 k); [lia | lia | | intros; by apply triple_ret | lia].
    apply triple_modify; [done |]. intros s Hw. pose proof (wf_ppu _ Hw) as [].
    destruct Hw. case_if; (split; [| done]); constructor; cbn; auto; constructor; cbn; auto with emu.
Qed.

Lemma xor_range a x : 0 <= a < 0x4000 -> x ∈ [0; 0x400; 0x800] -> 0 <= Z.lxor a x < 0x4000.
Proof.
  intros Ha Hx. assert (Hb : 0 <= x < 2 ^ 14) by (elem_cases Hx; lia).
  split; [rewrite Z.lxor_nonneg; lia |]. apply (Z.log2_lt_cancel _ (2 ^ 14)). rewrite Z.log2_pow2 by lia.
  pose proof (Z.log2_lxor a x ltac:(lia) ltac:(lia)).
  assert (Z.log2 a < 14 \/ a = 0) by (destruct (decide (a = 0)); [by right | left; apply Z.log2_lt_pow2; lia]).
  assert (Z.log2 x < 14 \/ x = 0) by (destruct (decide (x = 0)); [by right | left; apply Z.log2_lt_pow2; lia]).
  assert (Z.log2 0 = 0) by done. intuition (subst; lia).
Qed.

Lemma triple_set_ppu k p : 0 <= k -> ppu_wf p -> triple k (set_ppu p) any.
Proof. intros Hk Hp. apply triple_modify; [done |]. intros s Hw. split; [by apply nes_wf_ppu | done]. Qed.

Lemma latched_wf s d : nes_wf s -> is_byte d -> nes_wf {| s with ppu_latch := d |}.
Proof. intros [? ? ? ? ? [] ? ? ? ? ?] Hd. by constructor. Qed.

Lemma triple_ppuio_write k a d : 0 <= k -> is_byte d -> triple k (ppuio_write a d) any.
Proof.
  intros Hk Hd. unfold ppuio_write.
  apply (triple_from _ _ _ (fun s => 0 <= PPUADDR (ppu s) < 0x4000)).
  { intros s Hw. pose proof (latched_wf s d Hw Hd) as Hw'. by apply (masked_start {| s with ppu_latch := d |}). }
  intros s Hw Ha Hj. apply (triple_read_at k ppu (fun p => 0 <= PPUADDR p < 0x4000 /\ ppu_wf p)); auto with emu.
  clear s Hw Ha Hj.
  intros p [Ha Hp]. eapply (triple_bind k 0 k _ _ any); [done | done | | | lia].
  2: { intros _ _. apply triple_modify; [done |]. intros s Hw. split; [by apply latched_wf | done]. }
  destruct (register_cases a) as [-> | [-> | [-> | [-> | [-> | [-> | [-> | ->]]]]]]].
  - case_if; [| by apply triple_ret]. apply triple_set_ppu; [done |]. destruct Hp. by constructor.
  - case_if; [| by apply triple_ret]. apply triple_set_ppu; [done |]. destruct Hp. by constructor.
  - by apply triple_ret.
  - apply triple_set_ppu; [done |]. destruct Hp. by constructor.
  - by apply triple_sprram_write.
  - destruct Hp. case_if; (apply triple_set_ppu; [done |]); by constructor.
  - case_if; [by apply triple_ret |]. eapply (triple_bind k 0 k _ _ any); [done | done | | | lia].
    2: { intros _ _. apply triple_modify; [done |]. intros s []. by split. }
    destruct Hp. case_if; (apply triple_modify; [done |]; intros s [? ? ? ? ? [] ? ? ? ? ?]; split; [| done]);
      constructor; cbn; auto; constructor; cbn; auto with emu.
  - case_if; [| by apply triple_ram_write].
    eapply (triple_bind k 0 k _ _ any); [done | done | | intros; by apply triple_ram_write | lia].
    apply triple_ram_write; [done |]. apply xor_range; [done | apply Hp].
Qed.

Lemma triple_mmc_write k a d : 0 <= k -> is_byte d -> triple k (mmc_write a d) any.
Proof.
  intros Hk Hd. unfold mmc_write. eapply (triple_bind 0 k); [done | done | | | lia].
  { apply (triple_gets _ _ (fun i => i <> 3)); [done |]. auto with emu. }
  intros i Hi. rewrite (proj2 (Z.eqb_neq i 3) Hi).
  eapply (triple_bind 0 k); [done | done | by apply (triple_ret _ _ any) | | lia].
  intros _ _. apply triple_modify; [done |]. intros s []. split; [| done]. constructor; cbn; auto with emu.
Qed.

Lemma triple_psgio_read k a : 1 <= k -> triple k (psgio_read a) is_byte.
Proof.
  intros Hk. unfold psgio_read. case_if; [| apply triple_ret; [lia | by split]].
  intros s Hw Hj. pose proof (wf_joy _ Hw). unfold mbind, nesM_bind, gets, lift, int_op, nes_ensure.
  replace (INT_MIN <=? joy_p s + 1) with true by (unfold INT_MIN; lia).
  replace (joy_p s + 1 <=? INT_MAX) with true by lia. cbn -[arr].
  assert (Hw' : nes_wf {| s with joy_p := joy_p s + 1 |}) by (destruct Hw; constructor; cbn; auto; lia).
  case_if; zify_bool.
  - replace ((0 <=? joy_p s + 1) && (joy_p s + 1 <? 256)) with true by lia. cbn -[arr].
    eexists _, _. split_and!; [reflexivity | done | cbn; lia | auto with emu].
  - eexists _, _. split_and!; [reflexivity | done | cbn; lia | by split].
Qed.

Lemma triple_psgio_write k a d : 0 <= k -> triple k (psgio_write a d) any.
Proof.
  intros Hk s Hw Hj. eexists _, _. split; [reflexivity |]. pose proof (wf_joy _ Hw). cbn.
  case_if; cbn; (split_and!; [| lia | done]); destruct Hw; constructor; cbn; auto; lia.
Qed.

Lemma triple_cpu_ram_read k a : 0 <= k -> triple k (cpu_ram_read a) is_byte.
Proof. intros Hk. apply triple_gets; [done |]. intros s Hw. apply wf_ram, Hw. Qed.

Lemma triple_cpu_ram_write k a d : 0 <= k -> is_byte d -> triple k (cpu_ram_write a d) any.
Proof.
  intros Hk Hd. apply triple_modify; [done |]. intros s []. split; [| done]. constructor; cbn; auto with emu.
Qed.

(** ** The address space *)

Lemma triple_memory_readb k a : 1 <= k -> triple k (memory_readb a) is_byte.
Proof.
  intros Hk. unfold memory_readb. destruct (Z.shiftr _ 13) as [| [[[] | [] |] | [[] | [] |] |] |].
  all: try (apply triple_gets; [lia | intros s Hw; apply wf_memory, Hw]).
  - apply triple_cpu_ram_read. lia.
  - apply triple_cpu_ram_read. lia.
  - by apply triple_psgio_read.
  - apply triple_ppuio_read. lia.
Qed.

Lemma triple_sprite_dma k n a : 0 <= k -> triple k (sprite_dma n a) any.
Proof.
  intros Hk. revert a. induction n as [| n IH]; intros a; [by apply triple_ret |]. cbn.
  eapply (triple_bind 0 k); [done | done | by apply triple_cpu_ram_read | | lia]. intros v _.
  eapply (triple_bind 0 k); [done | done | by apply triple_sprram_write | | lia]. intros _ _. apply IH.
Qed.

Lemma triple_memory_writeb k a d : 0 <= k -> triple k (memory_writeb a d) any.
Proof.
  intros Hk. unfold memory_writeb. case_if; [by apply triple_sprite_dma |].
  destruct (Z.shiftr _ 13) as [| [[[] | [] |] | [[] | [] |] |] |].
  all: auto using triple_mmc_write, triple_cpu_ram_write, triple_psgio_write, triple_ppuio_write, byte_is.
Qed.

Lemma triple_memory_readw k a : 2 <= k -> triple k (memory_readw a) (fun v => 0 <= v < 65536).
Proof.
  intros Hk. unfold memory_readw.
  eapply (triple_bind 1 1); [lia | lia | apply triple_memory_readb; lia | | lia]. intros lo _.
  eapply (triple_bind 1 0); [lia | lia | apply triple_memory_readb; lia | | lia]. intros hi _.
  apply triple_ret; [done | auto with emu].
Qed.

Lemma triple_memory_writew k a d : 0 <= k -> triple k (memory_writew a d) any.
Proof.
  intros Hk. unfold memory_writew.
  eapply (triple_bind 0 k); [lia | lia | by apply triple_memory_writeb | | lia]. intros _ _. by apply triple_memory_writeb.
Qed.

(** ** Registers *)

Section RegisterLemmas.
Implicit Types (c : CPU_STATE).

Lemma set_A_wf v c : cpu_wf c -> cpu_wf (set_A v c).
Proof. intros []. constructor; cbn; auto with emu. Qed.
Lemma set_X_wf v c : cpu_wf c -> cpu_wf (set_X v c).
Proof. intros []. constructor; cbn; auto with emu. Qed.
Lemma set_Y_wf v c : cpu_wf c -> cpu_wf (set_Y v c).
Proof. intros []. constructor; cbn; auto with emu. Qed.
Lemma set_SP_wf v c : cpu_wf c -> cpu_wf (set_SP v c).
Proof. intros []. constructor; cbn; auto with emu. Qed.
Lemma set_P_wf v c : cpu_wf c -> cpu_wf (set_P v c).
Proof. intros []. constructor; cbn; auto with emu. Qed.
Lemma set_PC_wf v c : cpu_wf c -> cpu_wf (set_PC v c).
Proof. intros []. constructor; cbn; auto with emu. Qed.
Lemma cpu_modify_flag_wf f b c : cpu_wf c -> cpu_wf (cpu_modify_flag f b c).
Proof. intros []. constructor; cbn; auto using bit_byte. Qed.
Lemma cpu_set_flag_wf f c : cpu_wf c -> cpu_wf (cpu_set_flag f c).
Proof. apply (cpu_modify_flag_wf f true). Qed.
Lemma cpu_unset_flag_wf f c : cpu_wf c -> cpu_wf (cpu_unset_flag f c).
Proof. apply (cpu_modify_flag_wf f false). Qed.
Lemma cpu_update_zn_flags_wf v c : cpu_wf c -> cpu_wf (cpu_update_zn_flags v c).
Proof. intros []. constructor; cbn; auto with emu. Qed.
End RegisterLemmas.

#[export] Hint Resolve set_A_wf set_X_wf set_Y_wf set_SP_wf set_P_wf set_PC_wf cpu_modify_flag_wf
  cpu_set_flag_wf cpu_unset_flag_wf cpu_update_zn_flags_wf : emu.

Lemma zn_A_wf v c : cpu_wf c -> cpu_wf (zn_A v c).
Proof. unfold zn_A. auto with emu. Qed.
Lemma zn_X_wf v c : cpu_wf c -> cpu_wf (zn_X v c).
Proof. unfold zn_X. auto with emu. Qed.
Lemma zn_Y_wf v c : cpu_wf c -> cpu_wf (zn_Y v c).
Proof. unfold zn_Y. auto with emu. Qed.
#[export] Hint Resolve zn_A_wf zn_X_wf zn_Y_wf : emu.

Lemma triple_regs k f : 0 <= k -> (forall v c, cpu_wf c -> cpu_wf (f v c)) -> triple k (regs f) any.
Proof.
  intros Hk Hf. apply triple_modify; [done |]. intros s Hw. split; [| done].
  apply nes_wf_cpu; auto with emu.
Qed.

Lemma triple_regs_ k f : 0 <= k -> (forall c, cpu_wf c -> cpu_wf (f c)) -> triple k (regs_ f) any.
Proof. intros Hk Hf. apply triple_regs; auto. Qed.

Lemma triple_set_op_value k v : 0 <= k -> is_byte v -> triple k (set_op_value v) any.
Proof. intros Hk Hv. apply triple_modify; [done |]. intros s []. split; [by constructor | done]. Qed.

Lemma triple_set_op_address k a : 0 <= k -> triple k (set_op_address a) any.
Proof. intros Hk. apply triple_modify; [done |]. intros s []. split; [by constructor | done]. Qed.

Lemma triple_advance k n : 0 <= k -> triple k (advance n) any.
Proof. intros Hk. apply triple_regs_; auto with emu. Qed.

Lemma triple_page_cycle k : 0 <= k -> triple k page_cycle any.
Proof.
  intros Hk. apply triple_modify; [done |]. intros s Hw. case_if; (split; [| done]); [done |].
  destruct Hw. constructor; cbn; auto; lia.
Qed.

(** Sequencing with the bound that is left for the rest. *)
Lemma triple_seq {A B} k1 k (m : nesM A) (f : A -> nesM B) P Q :
  triple k1 m P -> 0 <= k1 <= k -> (forall a, P a -> triple (k - k1) (f a) Q) -> triple k (m ≫= f) Q.
Proof. intros Hm Hk Hf. eapply (triple_bind k1 (k - k1)); eauto; lia. Qed.

Lemma triple_get {A B} k (f : Nes -> A) (m : A -> nesM B) (P : A -> Prop) Q :
  (forall s, nes_wf s -> P (f s)) -> (forall a, P a -> triple k (m a) Q) -> 0 <= k -> triple k (gets f ≫= m) Q.
Proof.
  intros Hf Hm Hk. apply (triple_bind 0 k k _ _ P); [done | done | by apply triple_gets | done | lia].
Qed.

Lemma triple_memory_value k : 1 <= k -> triple k memory_value any.
Proof.
  intros Hk. apply (triple_get _ _ _ any); [done | | lia]. intros a _.
  eapply (triple_seq 1); [by apply triple_memory_readb | lia |]. intros v Hv. apply triple_set_op_value; [lia | done].
Qed.

Lemma triple_zero_page_value k : 0 <= k -> triple k zero_page_value any.
Proof.
  intros Hk. apply (triple_get _ _ _ any); [done | | lia]. intros a _.
  apply (triple_get _ _ _ is_byte); [| | lia]; [intros s Hw; by apply wf_ram |]. intros v Hv. by apply triple_set_op_value.
Qed.

(** Step through a handler: every memory access and assignment by its lemma. *)
Ltac nes_step :=
  lazymatch goal with
  | |- triple _ (gets cpu ≫= _) _ => apply (triple_get _ cpu _ cpu_wf); [by auto with emu | intros ? ? | lia]
  | |- triple _ (gets op_value ≫= _) _ => apply (triple_get _ op_value _ is_byte); [by auto with emu | intros ? ? | lia]
  | |- triple _ (gets ppu ≫= _) _ => apply (triple_get _ ppu _ ppu_wf); [by auto with emu | intros ? ? | lia]
  | |- triple _ (gets (fun s => aget (CPU_RAM s) _) ≫= _) _ =>
      apply (triple_get _ _ _ is_byte); [intros; by apply wf_ram | intros ? ? | lia]
  | |- triple _ (gets _ ≫= _) _ => apply (triple_get _ _ _ any); [done | intros ? _ | lia]
  | |- triple _ (memory_readb _ ≫= _) _ => eapply (triple_seq 1); [by apply triple_memory_readb | lia | intros ? ?]
  | |- triple _ (memory_readw _ ≫= _) _ => eapply (triple_seq 2); [by apply triple_memory_readw | lia | intros ? ?]
  | |- triple _ (mret _) _ => apply triple_ret; [lia | done]
  | |- triple _ (if _ then _ else _) _ => apply triple_if; intros ?
  | |- triple _ (memory_value ≫= _) _ => apply (triple_seq 1 _ _ _ any); [by apply triple_memory_value | lia | intros ? _]
  | |- triple _ (zero_page_value ≫= _) _ => apply (triple_seq 0 _ _ _ any); [by apply triple_zero_page_value | lia | intros ? _]
  | |- triple _ ((if _ then _ else _) ≫= _) _ => apply (triple_seq 2 _ _ _ any); [| lia | intros ? _]
  | |- triple _ (_ ≫= _) _ => apply (triple_seq 0 _ _ _ any); [| lia | intros ? _]
  | |- triple _ (memory_writeb _ _) _ => apply triple_memory_writeb; lia
  | |- triple _ (memory_writew _ _) _ => apply triple_memory_writew; lia
  | |- triple _ (set_op_value _) _ => apply triple_set_op_value; [lia | by auto with emu]
  | |- triple _ (set_op_address _) _ => apply triple_set_op_address; lia
  | |- triple _ (advance _) _ => apply triple_advance; lia
  | |- triple _ page_cycle _ => apply triple_page_cycle; lia
  | |- triple _ (regs_ _) _ => apply triple_regs_; [lia | intros ? ?; by auto with emu]
  | |- triple _ (regs _) _ => apply triple_regs; [lia | intros ? ? ?; by auto with emu]
  end.

(** ** Addressing modes *)

Lemma triple_address_mode m k : 6 <= k -> triple k (address_mode m) any.
Proof.
  intros Hk. apply (triple_weaken 6 _ _ any); [| done | done].
  destruct m; cbn [address_mode].
  all: match goal with |- triple _ ?m _ => unfold m end.
  all: cbv zeta; repeat nes_step.
Qed.

(** ** Handlers *)

Lemma triple_pushb k d : 0 <= k -> triple k (cpu_stack_pushb d) any.
Proof. intros Hk. unfold cpu_stack_pushb. repeat nes_step. Qed.

Lemma triple_pushw k d : 0 <= k -> triple k (cpu_stack_pushw d) any.
Proof. intros Hk. unfold cpu_stack_pushw. repeat nes_step. Qed.

Lemma triple_popb k : 1 <= k -> triple k cpu_stack_popb is_byte.
Proof. intros Hk. unfold cpu_stack_popb. repeat nes_step. apply triple_memory_readb. lia. Qed.

Lemma triple_popw k : 2 <= k -> triple k cpu_stack_popw any.
Proof.
  intros Hk. unfold cpu_stack_popw. repeat nes_step.
  eapply triple_weaken; [by apply triple_memory_readw | lia | done].
Qed.

Ltac op_step :=
  match goal with
  | |- triple _ (cpu_stack_popb ≫= _) _ => eapply (triple_seq 1); [by apply triple_popb | lia | intros ? ?]
  | |- triple _ (cpu_stack_popw ≫= _) _ => eapply (triple_seq 2); [by apply triple_popw | lia | intros ? ?]
  | |- triple _ (cpu_stack_pushb _) _ => apply triple_pushb; lia
  | |- triple _ (cpu_stack_pushw _) _ => apply triple_pushw; lia
  | |- triple _ (cpu_branch _) _ => unfold cpu_branch
  | |- triple _ (write_op _) _ => unfold write_op
  | |- triple _ (regs_ (fun c => if _ then _ else _)) _ => apply triple_regs_; [lia | intros ? ?; case_if; by auto with emu]
  | |- triple _ (cpu_nmi_interrupt_address ≫= _) _ => unfold cpu_nmi_interrupt_address
  | |- triple _ (cpu_reset_interrupt_address ≫= _) _ => unfold cpu_reset_interrupt_address
  | _ => nes_step
  end.

Lemma adc_wf v c : cpu_wf c -> cpu_wf (adc v c).
Proof. intros. unfold adc. auto with emu. Qed.
Lemma sbc_wf v c : cpu_wf c -> cpu_wf (sbc v c).
Proof. intros. unfold sbc. auto with emu. Qed.
Lemma op_bit_wf v c : cpu_wf c -> cpu_wf (op_bit v c).
Proof. intros. unfold op_bit. auto with emu. Qed.
Lemma asla_wf c : cpu_wf c -> cpu_wf (asla c).
Proof. intros. unfold asla. auto with emu. Qed.
Lemma lsra_wf c : cpu_wf c -> cpu_wf (lsra c).
Proof. intros. unfold lsra. auto with emu. Qed.
Lemma rola_wf c : cpu_wf c -> cpu_wf (rola c).
Proof. intros. unfold rola. auto with emu. Qed.
Lemma rora_wf c : cpu_wf c -> cpu_wf (rora c).
Proof. intros. unfold rora. auto with emu. Qed.
Lemma cpu_compare_wf r v c : cpu_wf c -> cpu_wf (cpu_compare r v c).
Proof. intros. unfold cpu_compare. auto with emu. Qed.
#[export] Hint Resolve adc_wf sbc_wf op_bit_wf asla_wf lsra_wf rola_wf rora_wf cpu_compare_wf : emu.

Lemma triple_handler o k : 5 <= k -> triple k (handler o) any.
Proof.
  intros Hk. apply (triple_weaken 5 _ _ any); [| done | done].
  destruct o; cbn [handler].
  all: match goal with |- triple _ ?m _ => unfold m end.
  all: cbv zeta; repeat op_step.
  all: match goal with |- triple _ ?m _ => unfold m end; cbv zeta; repeat op_step.
Qed.

(** ** One instruction *)

(** Reading never touches the registers. *)
Definition keeps {A B} (f : Nes -> B) (m : nesM A) : Prop := forall s a s', m s = Ok (a, s') -> f s' = f s.

Section Keeps.
Context {B : Type} (f : Nes -> B).

Lemma keeps_bind {A C} (m : nesM A) (g : A -> nesM C) : keeps f m -> (forall a, keeps f (g a)) -> keeps f (m ≫= g).
Proof.
  intros Hm Hg s c s'. unfold mbind, nesM_bind. destruct (m s) as [[a s1] |] eqn:E; [| done].
  intros E'. rewrite (Hg _ _ _ _ E'). by apply (Hm _ _ _ E).
Qed.

Lemma keeps_ret {A} (a : A) : keeps f (mret a).
Proof. intros s a' s' [= _ <-]. done. Qed.

Lemma keeps_gets {A} (g : Nes -> A) : keeps f (gets g).
Proof. intros s a' s' [= _ <-]. done. Qed.

Lemma keeps_lift {A} (r : Res A) : keeps f (lift r).
Proof. intros s a' s'. unfold lift. destruct r; [| done]. intros [= _ <-]. done. Qed.

Lemma keeps_modify g : (forall s, f (g s) = f s) -> keeps f (modify g).
Proof. intros Hg s a s' [= _ <-]. apply Hg. Qed.
End Keeps.

Ltac keeps_tac :=
  repeat first
    [ apply keeps_bind; [| intros ?] | apply keeps_ret | apply keeps_gets | apply keeps_lift
    | apply keeps_modify; intros ?; first [reflexivity | case_if; reflexivity]
    | progress case_if ].

Lemma readb_cpu a s v s' : memory_readb a s = Ok (v, s') -> cpu s' = cpu s.
Proof.
  revert s v s'. change (keeps cpu (memory_readb a)).
  unfold memory_readb, psgio_read, ppuio_read, cpu_ram_read, mmc_read, ppu_ram_read, nes_ensure.
  destruct (Z.shiftr _ 13) as [| [[[] | [] |] | [[] | [] |] |] |]; keeps_tac.
  destruct (register_cases (word a)) as [-> | [-> | [-> | [-> | [-> | [-> | [-> | ->]]]]]]]; keeps_tac.
Qed.

Lemma readb_ppuctrl s : exists s', memory_readb 0x2000 s = Ok (0xFF, s').
Proof. eexists. reflexivity. Qed.

Definition known (o : Z) : bool := match lookup_op o with Some _ => true | None => false end.

Lemma op_cycles_pos o e : lookup_op o = Some e -> 1 <= e_cycles e.
Proof.
  intros H. apply find_some in H as [H _].
  assert (Hall : forallb (fun e => 1 <=? e_cycles e) op_table = true) by (vm_compute; reflexivity).
  rewrite forallb_forall in Hall. apply Hall in H. lia.
Qed.

Lemma triple_execute o k : 11 <= k -> triple k (match lookup_op o with
  | None => mret () | Some e => _ ← address_mode (e_mode e); handler (e_handler e) end) any.
Proof.
  intros Hk. destruct (lookup_op o) as [e |]; [| apply triple_ret; [lia | done]].
  apply (triple_seq 6 _ _ _ any); [by apply triple_address_mode | lia |]. intros _ _. apply triple_handler. lia.
Qed.

(** A round of [cpu_run] returns, and uses cycles or leaves everything to the
    next byte. *)
Lemma cpu_step_ok cycles s : nes_wf s -> joy_p s + 12 <= INT_MAX ->
  exists rest s', cpu_step cycles s = Ok (rest, s') /\ nes_wf s' /\ joy_p s' <= joy_p s + 12 /\ rest <= cycles /\
    (rest < cycles \/ (rPC (cpu s') = word (rPC (cpu s) + 1) /\ rPC (cpu s) <> 0x2000)).
Proof.
  intros Hw Hj. unfold cpu_step.
  destruct (triple_advance 0 1 ltac:(lia) s Hw) as ([] & s1 & E1 & Hw1 & Hj1 & _); [lia |].
  assert (Ec : rPC (cpu s1) = word (rPC (cpu s) + 1)) by (injection E1 as <-; done).
  destruct (triple_memory_readb 1 (rPC (cpu s)) ltac:(lia) s1 Hw1) as (o & s2 & E2 & Hw2 & Hj2 & _); [lia |].
  destruct (triple_execute o 11 ltac:(lia) s2 Hw2) as ([] & s3 & E3 & Hw3 & Hj3 & _); [lia |].
  unfold mbind, nesM_bind. unfold gets at 1. rewrite E1, E2.
  unfold mbind, nesM_bind in E3. rewrite E3. cbn. pose proof (wf_cycles _ Hw3).
  eexists _, _. split; [reflexivity |]. cbn. split; [destruct Hw3; by constructor |].
  split; [lia |]. unfold op_cycles_of. destruct (lookup_op o) as [e |] eqn:El.
  - pose proof (op_cycles_pos _ _ El). split; [lia | left; lia].
  - split; [lia |]. right. injection E3 as ->. split; [by rewrite (readb_cpu _ _ _ _ E2) |].
    intros Epc. rewrite Epc in E2. destruct (readb_ppuctrl s1) as [s' E']. rewrite E' in E2. injection E2 as <- _.
    by vm_compute in El.
Qed.

(** ** The loop *)

(** Bytes to go until the program counter meets the PPU's control register. *)
Definition to_ppuctrl (pc : Z) : Z := (0x2000 - pc) mod 65536.

Lemma to_ppuctrl_next pc : 0 <= pc < 65536 -> pc <> 0x2000 -> to_ppuctrl (word (pc + 1)) = to_ppuctrl pc - 1.
Proof. intros. unfold to_ppuctrl, word. Z.div_mod_to_equations. lia. Qed.

Lemma cpu_loop_ok n : forall fuel cycles s, nes_wf s ->
  cycles * 65536 + to_ppuctrl (rPC (cpu s)) < Z.of_nat n -> (n <= fuel)%nat ->
  joy_p s + 12 * Z.of_nat n <= INT_MAX ->
  exists s', cpu_loop fuel cycles s = Ok (Some (), s') /\ nes_wf s' /\ joy_p s' <= joy_p s + 12 * Z.of_nat n.
Proof.
  induction n as [n IH] using lt_wf_ind. intros fuel cycles s Hw Hn Hf Hj.
  assert (Ht : forall pc, 0 <= to_ppuctrl pc < 65536) by (intros; apply Z.mod_pos_bound; lia).
  pose proof (Ht (rPC (cpu s))) as Ht0.
  destruct fuel as [| fuel]; cbn; (case_if; zify_bool; [exists s; split_and!; [done | done | lia] |]).
  { lia. }
  destruct (cpu_step_ok cycles s Hw) as (rest & s1 & Es & Hw1 & Hj1 & Hr & Hp); [lia |].
  unfold mbind, nesM_bind. rewrite Es.
  assert (Hlt : rest * 65536 + to_ppuctrl (rPC (cpu s1)) < cycles * 65536 + to_ppuctrl (rPC (cpu s))).
  { destruct Hp as [Hlt | [-> Hne]]; [pose proof (Ht (rPC (cpu s1))); lia |].
    rewrite to_ppuctrl_next; [lia | apply Hw | done]. }
  destruct (IH (pred n) ltac:(lia) fuel rest s1 Hw1) as (s' & E' & Hw' & Hj');
    [lia | lia | lia |].
  exists s'. split_and!; [done | done | lia].
Qed.

(** C26. No state makes an instruction go wrong, and the CPU loop ends.  From
    every well-formed state (registers and memories of bytes and words, any
    program in them, a mapper without bank switching) and as long as the
    joystick's [int] cannot overflow, [cpu_run(cycles)] returns within
    [65536 * (cycles / 3 + 1)] rounds, in a well-formed state: no index leaves
    an array, and although 27 opcodes take no cycles at all, a run of them
    cannot last longer than the address space, because the byte read at 0x2000
    is an instruction that does. *)
Theorem cpu_run_returns cycles fuel s :
  let n := 65536 * (Z.quot cycles 3 + 1) in
  0 <= cycles -> nes_wf s -> joy_p s + 12 * n <= INT_MAX -> n <= Z.of_nat fuel ->
  exists s', cpu_run fuel cycles s = Ok (Some (), s') /\ nes_wf s' /\ joy_p s' <= joy_p s + 12 * n.
Proof.
  intros n Hc Hw Hj Hf. assert (0 <= Z.quot cycles 3) by (apply Z.quot_pos; lia).
  pose proof (Z.mod_pos_bound (0x2000 - rPC (cpu s)) 65536 ltac:(lia)) as Ht.
  destruct (cpu_loop_ok (Z.to_nat n) fuel (Z.quot cycles 3) s Hw) as (s' & E & Hw' & Hj').
  - unfold to_ppuctrl. lia.
  - lia.
  - lia.
  - exists s'. split_and!; [done | done | lia].
Qed.

Lemma nes_zero_wf keys : nes_wf (nes_zero keys).
Proof.
  constructor; cbn; auto with emu; try (unfold is_byte; lia).
  - constructor; cbn; unfold is_byte; lia.
  - constructor; cbn; unfold is_byte; try lia. by left.
Qed.

Lemma cpu_run_returns_witness : exists s',
  cpu_run (Z.to_nat (65536 * 86)) 256 (nes_zero []) = Ok (Some (), s') /\ nes_wf s'.
Proof.
  destruct (cpu_run_returns 256 (Z.to_nat (65536 * 86)) (nes_zero [])) as (s' & E & Hw & _).
  - lia.
  - apply nes_zero_wf.
  - vm_compute. congruence.
  - rewrite Z2Nat.id; [vm_compute; congruence | lia].
  - exists s'. exact (conj E Hw).
Defined.
