(* ===== verification/NesAlu.v ===== *)
(** * LiteNES: arithmetic and flags of the 6502

    The handlers of cpu.c compute flags with masks, table look-ups and tests of
    [int] intermediate results.  Here they are compared with the arithmetic
    definition of the instructions: sums and differences of the operands, the
    signed range for overflow, and the flags an instruction must leave alone. *)

From S2P Require Import Prelude Word Ftrace Kstdlib Am Nes NesCpu NesSafe.

(** Bit [i] of the flag register. *)
Definition flag (c : CPU_STATE) (i : Z) : bool := Z.testbit (rP c) i.
Arguments flag : simpl never.

(** The two's complement value of a byte. *)
Definition signed (x : Z) : Z := if x <? 128 then x else x - 256.

(** [c'] has the given C, Z, V and N, everything else of [c] but A, X and Y. *)
Record sets (c c' : CPU_STATE) (cf zf vf nf : bool) : Prop := {
  sets_C : flag c' carry_bp = cf;
  sets_Z : flag c' zero_bp = zf;
  sets_V : flag c' overflow_bp = vf;
  sets_N : flag c' negative_bp = nf;
  sets_rest i : i ∈ [interrupt_bp; decimal_bp; break_bp; unused_bp] -> flag c' i = flag c i;
  sets_PC : rPC c' = rPC c;
  sets_SP : rSP c' = rSP c }.

Definition regs_of (c : CPU_STATE) : Z * Z * Z := (rA c, rX c, rY c).

(** ** Bits *)

Lemma byte_testbit x i : 0 <= i < 8 -> Z.testbit (byte x) i = Z.testbit x i.
Proof. intros. unfold byte. change 256 with (2 ^ 8). rewrite Z.mod_pow2_bits_low; [done | lia]. Qed.

Lemma bit_set_testbit v i : 0 <= i -> common_bit_set v i = Z.testbit v i.
Proof.
  intros Hi. unfold common_bit_set. rewrite Z.shiftl_1_l.
  destruct (Z.testbit v i) eqn:E.
  - apply negb_true_iff, Z.eqb_neq. intros H. apply (f_equal (fun x => Z.testbit x i)) in H.
    rewrite Z.land_spec, Z.pow2_bits_true, E, Z.bits_0 in H by done. done.
  - apply negb_false_iff, Z.eqb_eq, Z.bits_inj'. intros j Hj. rewrite Z.land_spec, Z.bits_0.
    destruct (decide (i = j)) as [<- | Hne]; [by rewrite E |]. rewrite Z.pow2_bits_false by done. apply andb_false_r.
Qed.

Lemma modify_testbit v i b j : 0 <= i < 8 -> 0 <= j < 8 ->
  Z.testbit (common_modify_bitb v i b) j = if i =? j then b else Z.testbit v j.
Proof.
  intros Hi Hj. unfold common_modify_bitb, common_set_bitb, common_unset_bitb. rewrite Z.shiftl_1_l.
  destruct (Z.eqb_spec i j) as [<- | Hne].
  - destruct b; rewrite byte_testbit by done.
    + rewrite Z.lor_spec, Z.pow2_bits_true by lia. apply orb_true_r.
    + rewrite Z.land_spec, Z.lnot_spec, Z.pow2_bits_true by lia. apply andb_false_r.
  - destruct b; rewrite byte_testbit by done.
    + rewrite Z.lor_spec, Z.pow2_bits_false by lia. apply orb_false_r.
    + rewrite Z.land_spec, Z.lnot_spec, Z.pow2_bits_false by lia. apply andb_true_r.
Qed.

(** Evaluate the bits of numbers that are known. *)
Ltac closed_bits :=
  repeat match goal with
  | |- context [Z.testbit ?x ?i] =>
      lazymatch x with context [rP] => fail | context [rA] => fail | _ => idtac end;
      let b := eval vm_compute in (Z.testbit x i) in
      lazymatch b with true => idtac | false => idtac end;
      change (Z.testbit x i) with b
  end.

Lemma zn_table v : is_byte v -> arr cpu_zn_flag_table v = (if v =? 0 then 2 else 0) + (if v <? 128 then 0 else 128).
Proof.
  intros Hv. apply Z.eqb_eq. revert v Hv.
  apply (below_spec 256 (fun v => arr cpu_zn_flag_table v =? (if v =? 0 then 2 else 0) + (if v <? 128 then 0 else 128))).
  vm_compute. reflexivity.
Qed.

(** The table of zero and negative flags is right for every byte: after
    [cpu_update_zn_flags(value)] Z says whether the value is zero, N is its
    sign bit, and the other flags and registers are as before. *)
Lemma zn_flags v c : is_byte v ->
  sets c (cpu_update_zn_flags v c) (flag c carry_bp) (v =? 0) (flag c overflow_bp) (128 <=? v) /\
  regs_of (cpu_update_zn_flags v c) = regs_of c.
Proof.
  intros Hv. split; [| done].
  assert (Hbit : forall i, 0 <= i < 8 -> flag (cpu_update_zn_flags v c) i =
    if i =? 1 then v =? 0 else if i =? 7 then 128 <=? v else flag c i).
  { intros i Hi. unfold flag, cpu_update_zn_flags. cbn [rP]. rewrite byte_testbit by done.
    rewrite Z.lor_spec, Z.land_spec, zn_table by done.
    assert (i ∈ [0; 1; 2; 3; 4; 5; 6; 7]) as Hin by (rewrite !elem_of_cons; lia).
    unfold is_byte in Hv. elem_cases Hin; cbn [Z.eqb Pos.eqb].
    all: destruct (Z.eqb_spec v 0), (Z.ltb_spec v 128), (Z.leb_spec 128 v); try lia; closed_bits.
    all: rewrite ?andb_false_r, ?andb_true_r, ?orb_false_r; done. }
  constructor; try done; rewrite ?Hbit; try (split; done); try done.
  intros i Hi. rewrite Hbit; elem_cases Hi; done.
Qed.

(** ** Composing *)

Lemma flag_set c i : 0 <= i -> cpu_flag_set c i = flag c i.
Proof. apply bit_set_testbit. Qed.

Ltac unfold_bp :=
  unfold carry_bp, zero_bp, overflow_bp, negative_bp, interrupt_bp, decimal_bp, break_bp, unused_bp in *.

Lemma modify_sets f b c : f ∈ [carry_bp; zero_bp; overflow_bp; negative_bp] ->
  sets c (cpu_modify_flag f b c)
    (if f =? carry_bp then b else flag c carry_bp) (if f =? zero_bp then b else flag c zero_bp)
    (if f =? overflow_bp then b else flag c overflow_bp) (if f =? negative_bp then b else flag c negative_bp) /\
  regs_of (cpu_modify_flag f b c) = regs_of c.
Proof.
  intros Hf. split; [| done]. unfold_bp.
  assert (Hr : 0 <= f < 8) by (elem_cases Hf; lia).
  constructor; try done; unfold flag, cpu_modify_flag; cbn [rP]; unfold_bp.
  5: { intros i Hi. rewrite modify_testbit; [| done | elem_cases Hi; lia]. elem_cases Hi; elem_cases Hf; done. }
  all: rewrite modify_testbit; [done | done | lia].
Qed.

Lemma sets_trans c1 c2 c3 a b c d a' b' c' d' : sets c1 c2 a b c d -> sets c2 c3 a' b' c' d' -> sets c1 c3 a' b' c' d'.
Proof. intros [] []. constructor; try congruence. intros i Hi. by rewrite sets_rest1, sets_rest0. Qed.

(** Where the accumulator gets a result, with its Z and N. *)
Lemma zn_A_sets r c : is_byte r ->
  sets c (zn_A r c) (flag c carry_bp) (r =? 0) (flag c overflow_bp) (128 <=? r) /\ regs_of (zn_A r c) = (r, rX c, rY c).
Proof.
  intros Hr. destruct (zn_flags r (set_A r c) Hr) as [Hs Hg].
  replace (zn_A r c) with (cpu_update_zn_flags r (set_A r c)) by (unfold zn_A; cbn [rA set_A]; by rewrite byte_id).
  split; [destruct Hs; by constructor |]. rewrite Hg. unfold regs_of. cbn. by rewrite byte_id.
Qed.

(** ** Sums, differences and comparisons *)

Definition adc_ok (a v k : Z) : bool :=
  let r := a + v + k in
  let t := signed a + signed v + k in
  (Z.land r 0xFF =? r mod 256) && Bool.eqb (negb (Z.land r 0x100 =? 0)) (256 <=? r) &&
  Bool.eqb (negb (Z.land (Z.land (Z.lnot (Z.lxor a v)) (Z.lxor a r)) 0x80 =? 0)) ((t <? -128) || (127 <? t)).

Definition sbc_ok (a v k : Z) : bool :=
  let r := a - v - (1 - k) in
  let t := signed a - signed v - (1 - k) in
  (Z.land r 0xFF =? r mod 256) && Bool.eqb (Z.land r 0x100 =? 0) (0 <=? r) &&
  Bool.eqb (negb (Z.land (Z.land (Z.lxor a v) (Z.lxor a r)) 0x80 =? 0)) ((t <? -128) || (127 <? t)).

Definition cmp_ok (a v : Z) : bool :=
  Bool.eqb (negb (Z.land (Z.shiftr (a - v) 7) 1 =? 0)) (128 <=? (a - v) mod 256).

Lemma below2_spec n m f : below n (fun x => below m (f x)) = true ->
  forall x y, 0 <= x < Z.of_nat n -> 0 <= y < Z.of_nat m -> f x y = true.
Proof. intros H x y Hx Hy. exact (below_spec m (f x) (below_spec n _ H x Hx) y Hy). Qed.

Lemma adc_all a v (k : bool) : is_byte a -> is_byte v -> adc_ok a v (Z.b2z k) = true.
Proof.
  intros Ha Hv. revert a v Ha Hv.
  destruct k; apply (below2_spec 256 256); vm_compute; reflexivity.
Qed.

Lemma sbc_all a v (k : bool) : is_byte a -> is_byte v -> sbc_ok a v (Z.b2z k) = true.
Proof.
  intros Ha Hv. revert a v Ha Hv.
  destruct k; apply (below2_spec 256 256); vm_compute; reflexivity.
Qed.

Lemma cmp_all a v : is_byte a -> is_byte v -> cmp_ok a v = true.
Proof. revert a v. apply (below2_spec 256 256). vm_compute. reflexivity. Qed.

Definition overflows (t : Z) : bool := (t <? -128) || (127 <? t).

Lemma mod_is_byte x : is_byte (x mod 256).
Proof. apply byte_is. Qed.

(** Carry and overflow set, then the accumulator: the flags of an addition. *)
Lemma arith_sets c r cf vf : is_byte r ->
  let c' := zn_A r (cpu_modify_flag overflow_bp vf (cpu_modify_flag carry_bp cf c)) in
  sets c c' cf (r =? 0) vf (128 <=? r) /\ regs_of c' = (r, rX c, rY c).
Proof.
  intros Hr c'. destruct (modify_sets carry_bp cf c ltac:(set_solver)) as [S1 _].
  destruct (modify_sets overflow_bp vf (cpu_modify_flag carry_bp cf c) ltac:(set_solver)) as [S2 _].
  destruct (zn_A_sets r (cpu_modify_flag overflow_bp vf (cpu_modify_flag carry_bp cf c)) Hr) as [S3 Hg].
  split; [| exact Hg]. fold c' in S3. pose proof (sets_trans _ _ _ _ _ _ _ _ _ _ _ S1 (sets_trans _ _ _ _ _ _ _ _ _ _ _ S2 S3)) as S.
  pose proof (sets_C _ _ _ _ _ _ S2) as C2. pose proof (sets_V _ _ _ _ _ _ S2) as V2.
  pose proof (sets_C _ _ _ _ _ _ S1) as C1. cbn in C1, C2, V2. by rewrite C2, V2, C1 in S.
Qed.

(** Carry set, then the accumulator: the flags of a shift. *)
Lemma shift_sets c r cf : is_byte r ->
  let c' := zn_A r (cpu_modify_flag carry_bp cf c) in
  sets c c' cf (r =? 0) (flag c overflow_bp) (128 <=? r) /\ regs_of c' = (r, rX c, rY c).
Proof.
  intros Hr c'. destruct (modify_sets carry_bp cf c ltac:(set_solver)) as [S1 _].
  destruct (zn_A_sets r (cpu_modify_flag carry_bp cf c) Hr) as [S3 Hg].
  split; [| exact Hg]. fold c' in S3. pose proof (sets_trans _ _ _ _ _ _ _ _ _ _ _ S1 S3) as S.
  pose proof (sets_C _ _ _ _ _ _ S1) as C1. pose proof (sets_V _ _ _ _ _ _ S1) as V1. cbn in C1, V1. by rewrite C1, V1 in S.
Qed.

Lemma adc_correct v c : cpu_wf c -> is_byte v ->
  let r := rA c + v + Z.b2z (flag c carry_bp) in
  sets c (adc v c) (256 <=? r) (r mod 256 =? 0)
    (overflows (signed (rA c) + signed v + Z.b2z (flag c carry_bp))) (128 <=? r mod 256) /\
  regs_of (adc v c) = (r mod 256, rX c, rY c).
Proof.
  intros Hc Hv r. pose proof (adc_all (rA c) v (flag c carry_bp) (wf_A _ Hc) Hv) as H.
  unfold adc_ok in H. cbv zeta in H. apply andb_true_iff in H as [H Ho]. apply andb_true_iff in H as [Hr Hcar].
  apply Z.eqb_eq in Hr. apply eqb_prop in Hcar, Ho. fold r in Hr, Hcar, Ho.
  unfold adc. rewrite flag_set by done.
  replace (rA c + v + (if flag c carry_bp then 1 else 0)) with r by (unfold r; by destruct (flag c carry_bp)).
  rewrite Hr, Hcar, Ho. apply arith_sets, mod_is_byte.
Qed.

Lemma sbc_correct v c : cpu_wf c -> is_byte v ->
  let r := rA c - v - (1 - Z.b2z (flag c carry_bp)) in
  sets c (sbc v c) (0 <=? r) (r mod 256 =? 0)
    (overflows (signed (rA c) - signed v - (1 - Z.b2z (flag c carry_bp)))) (128 <=? r mod 256) /\
  regs_of (sbc v c) = (r mod 256, rX c, rY c).
Proof.
  intros Hc Hv r. pose proof (sbc_all (rA c) v (flag c carry_bp) (wf_A _ Hc) Hv) as H.
  unfold sbc_ok in H. cbv zeta in H. apply andb_true_iff in H as [H Ho]. apply andb_true_iff in H as [Hr Hcar].
  apply Z.eqb_eq in Hr. apply eqb_prop in Hcar, Ho. fold r in Hr, Hcar, Ho.
  unfold sbc. rewrite flag_set by done.
  replace (rA c - v - (if flag c carry_bp then 0 else 1)) with r by (unfold r; by destruct (flag c carry_bp)).
  rewrite Hr, Hcar, Ho. apply arith_sets, mod_is_byte.
Qed.

Lemma compare_correct reg v c : is_byte (reg c) -> is_byte v ->
  sets c (cpu_compare reg v c) (v <=? reg c) (reg c =? v) (flag c overflow_bp) (128 <=? (reg c - v) mod 256) /\
  regs_of (cpu_compare reg v c) = regs_of c.
Proof.
  intros Hr Hv. pose proof (cmp_all (reg c) v Hr Hv) as H. apply eqb_prop in H. unfold cpu_compare. rewrite H.
  replace (0 <=? reg c - v) with (v <=? reg c) by lia. replace (reg c - v =? 0) with (reg c =? v) by lia.
  set (c1 := cpu_modify_flag carry_bp _ c). set (c2 := cpu_modify_flag zero_bp _ c1).
  destruct (modify_sets carry_bp (v <=? reg c) c ltac:(set_solver)) as [S1 _]. fold c1 in S1.
  destruct (modify_sets zero_bp (reg c =? v) c1 ltac:(set_solver)) as [S2 _]. fold c2 in S2.
  destruct (modify_sets negative_bp (128 <=? (reg c - v) mod 256) c2 ltac:(set_solver)) as [S3 _].
  split; [| done]. cbn in S1, S2, S3. destruct S1, S2, S3. constructor; try congruence.
  intros i Hi. by rewrite sets_rest2, sets_rest1, sets_rest0.
Qed.

(** ** Shifts *)

Definition shifts_ok (a k : Z) : bool :=
  Bool.eqb (negb (Z.land a 0x80 =? 0)) (128 <=? a) && Bool.eqb (negb (Z.land a 0x01 =? 0)) (Z.odd a) &&
  (byte (Z.shiftl a 1) =? (2 * a) mod 256) && (Z.land (Z.shiftl a 1) 0xFF =? (2 * a) mod 256) &&
  (Z.shiftr a 1 =? a / 2) && (Z.land (Z.shiftr a 1) 0xFF =? a / 2) &&
  (Z.land (Z.lor (Z.shiftl a 1) k) 0xFF =? (2 * a + k) mod 256) &&
  Bool.eqb (0xFF <? Z.lor (Z.shiftl a 1) k) (128 <=? a) &&
  (Z.lor (Z.shiftr a 1) (Z.shiftl k 7) =? a / 2 + 128 * k) &&
  (Z.land (Z.lor (Z.shiftr a 1) (Z.shiftl k 7)) 0xFF =? a / 2 + 128 * k) &&
  Bool.eqb (k =? 1) (128 <=? a / 2 + 128 * k) && (a / 2 + 128 * k <? 256).

Record shift_facts (a k : Z) : Prop := {
  sh_high : negb (Z.land a 0x80 =? 0) = (128 <=? a);
  sh_low : negb (Z.land a 0x01 =? 0) = Z.odd a;
  sh_asl : byte (Z.shiftl a 1) = (2 * a) mod 256;
  sh_asl_m : Z.land (Z.shiftl a 1) 0xFF = (2 * a) mod 256;
  sh_lsr : Z.shiftr a 1 = a / 2;
  sh_lsr_m : Z.land (Z.shiftr a 1) 0xFF = a / 2;
  sh_rol : Z.land (Z.lor (Z.shiftl a 1) k) 0xFF = (2 * a + k) mod 256;
  sh_rol_c : (0xFF <? Z.lor (Z.shiftl a 1) k) = (128 <=? a);
  sh_ror : Z.lor (Z.shiftr a 1) (Z.shiftl k 7) = a / 2 + 128 * k;
  sh_ror_m : Z.land (Z.lor (Z.shiftr a 1) (Z.shiftl k 7)) 0xFF = a / 2 + 128 * k;
  sh_ror_n : (k =? 1) = (128 <=? a / 2 + 128 * k);
  sh_ror_b : a / 2 + 128 * k < 256 }.

Lemma shifts_all a (k : bool) : is_byte a -> shift_facts a (Z.b2z k).
Proof.
  intros Ha. assert (H : shifts_ok a (Z.b2z k) = true).
  { revert a Ha. destruct k; apply (below_spec 256); vm_compute; reflexivity. }
  unfold shifts_ok in H. repeat rewrite andb_true_iff in H.
  repeat match goal with H : _ /\ _ |- _ => destruct H end.
  constructor; first [by apply Z.eqb_eq | by apply eqb_prop | by apply Z.ltb_lt].
Qed.

Lemma zn_A_byte v c : zn_A v c = zn_A (byte v) c.
Proof. unfold zn_A, set_A. cbn [rA]. by rewrite (byte_id (byte v)) by auto with emu. Qed.

Lemma zn_twice v c : is_byte v -> cpu_update_zn_flags v (set_A v c) = zn_A v c.
Proof. intros Hv. unfold zn_A. cbn [rA set_A]. by rewrite byte_id. Qed.

Lemma carry_01 c : (if cpu_flag_set c carry_bp then 1 else 0) = Z.b2z (flag c carry_bp).
Proof. rewrite flag_set by done. by destruct (flag c carry_bp). Qed.

Lemma half_byte a : is_byte a -> is_byte (a / 2).
Proof. unfold is_byte. intros. Z.div_mod_to_equations. lia. Qed.

(** The flags that ROR sets one by one. *)
Lemma ror_sets c c' cf r n : n = (128 <=? r) -> rP c' = rP (cpu_modify_flag carry_bp cf c) -> rPC c' = rPC c -> rSP c' = rSP c ->
  sets c (cpu_modify_flag negative_bp n (cpu_modify_flag zero_bp (r =? 0) c')) cf (r =? 0) (flag c overflow_bp) (128 <=? r).
Proof.
  intros -> Hp Hpc Hsp. destruct (modify_sets carry_bp cf c ltac:(set_solver)) as [S1 _].
  destruct (modify_sets zero_bp (r =? 0) c' ltac:(set_solver)) as [S2 _].
  destruct (modify_sets negative_bp (128 <=? r) (cpu_modify_flag zero_bp (r =? 0) c') ltac:(set_solver)) as [S3 _].
  cbn in S1, S2, S3. assert (Hf : forall i, flag c' i = flag (cpu_modify_flag carry_bp cf c) i) by (intros; unfold flag; by rewrite Hp).
  destruct S1, S2, S3. constructor; try congruence.
  intros i Hi. by rewrite sets_rest2, sets_rest1, Hf, sets_rest0.
Qed.

Lemma shifts_correct c : cpu_wf c ->
  let a := rA c in let k := Z.b2z (flag c carry_bp) in
  let shifted c' r cf := sets c c' cf (r =? 0) (flag c overflow_bp) (128 <=? r) /\ regs_of c' = (r, rX c, rY c) in
  shifted (asla c) ((2 * a) mod 256) (128 <=? a) /\ shifted (lsra c) (a / 2) (Z.odd a) /\
  shifted (rola c) ((2 * a + k) mod 256) (128 <=? a) /\ shifted (rora c) (a / 2 + 128 * k) (Z.odd a).
Proof.
  intros Hc a k shifted. pose proof (wf_A _ Hc) as Ha. destruct (shifts_all a (flag c carry_bp) Ha : shift_facts a k).
  pose proof (half_byte a Ha) as Hh. unfold shifted, asla, lsra, rola, rora. rewrite carry_01. fold a k.
  refine (conj _ (conj _ (conj _ _))).
  - rewrite zn_A_byte, sh_asl0, sh_high0. apply shift_sets, mod_is_byte.
  - rewrite sh_lsr_m0, sh_lsr0, sh_low0, zn_twice by done. by apply shift_sets.
  - rewrite sh_rol0, sh_rol_c0. apply shift_sets, mod_is_byte.
  - rewrite flag_set by done. cbn [rA cpu_modify_flag set_A]. fold a k. rewrite sh_ror0, sh_low0.
    assert (Hb : byte (a / 2 + 128 * k) = a / 2 + 128 * k).
    { apply byte_id. unfold is_byte in *. split; [| done]. unfold k. destruct (flag c carry_bp); cbn; lia. }
    rewrite Hb. split.
    + apply ror_sets; try done. rewrite <- sh_ror_n0. unfold k. by destruct (flag c carry_bp).
    + unfold regs_of. cbn [rA rX rY cpu_modify_flag set_A]. by rewrite Hb.
Qed.

Lemma bit_correct v c : cpu_wf c -> is_byte v ->
  sets c (op_bit v c) (flag c carry_bp) (Z.land (rA c) v =? 0) (Z.testbit v 6) (Z.testbit v 7) /\
  regs_of (op_bit v c) = regs_of c.
Proof.
  intros Hc Hv. split; [| done]. unfold op_bit.
  destruct (modify_sets zero_bp (Z.land (rA c) v =? 0) c ltac:(set_solver)) as [S1 _].
  set (c1 := cpu_modify_flag zero_bp _ c) in *. cbn in S1.
  assert (Hbit : forall i, 0 <= i < 8 -> flag (set_P (Z.lor (Z.land (rP c1) 0x3F) (Z.land 0xC0 v)) c1) i =
    if i <? 6 then flag c1 i else Z.testbit v i).
  { intros i Hi. unfold flag. cbn [rP set_P]. rewrite byte_testbit by done. rewrite Z.lor_spec, !Z.land_spec.
    assert (i ∈ [0; 1; 2; 3; 4; 5; 6; 7]) as Hin by (rewrite !elem_of_cons; lia).
    elem_cases Hin; cbn; rewrite ?andb_false_r, ?andb_true_r, ?orb_false_r; done. }
  destruct S1. unfold_bp. constructor; rewrite ?Hbit; try done; unfold_bp; try (cbn; done).
  intros i Hi. rewrite Hbit by (elem_cases Hi; unfold_bp; lia). rewrite <- sets_rest0 by done. by elem_cases Hi.
Qed.

Lemma land_is_byte a v : is_byte a -> is_byte (Z.land a v).
Proof.
  unfold is_byte. intros Ha. split; [apply Z.land_nonneg; lia |].
  replace a with (Z.land a (Z.ones 8)) by (rewrite Z.land_ones, Z.mod_small by lia; done).
  rewrite <- Z.land_assoc, (Z.land_comm _ v), Z.land_assoc. apply (land_bound (Z.land a v) 8). lia.
Qed.

Lemma lor_is_byte a v : is_byte a -> is_byte v -> is_byte (Z.lor a v).
Proof.
  intros Ha Hv. assert (H : (0 <=? Z.lor a v) && (Z.lor a v <? 256) = true); [| unfold is_byte; lia].
  revert a v Ha Hv. apply (below2_spec 256 256 (fun a v => (0 <=? Z.lor a v) && (Z.lor a v <? 256))). vm_compute. reflexivity.
Qed.

Lemma lxor_is_byte a v : is_byte a -> is_byte v -> is_byte (Z.lxor a v).
Proof.
  intros Ha Hv. assert (H : (0 <=? Z.lxor a v) && (Z.lxor a v <? 256) = true); [| unfold is_byte; lia].
  revert a v Ha Hv. apply (below2_spec 256 256 (fun a v => (0 <=? Z.lxor a v) && (Z.lxor a v <? 256))). vm_compute. reflexivity.
Qed.

(** C27. The arithmetic of the emulated 6502 is the processor's.  For every
    operand and every register contents: ADC and SBC leave the sum and the
    difference with carry modulo 256, carry and borrow, overflow exactly when
    the signed result does not fit, zero and sign; the comparisons set carry,
    zero and sign as the subtraction would and leave V alone; AND, ORA, EOR
    leave the combination with zero and sign; BIT shows the operand's bits 6
    and 7; the four shifts of the accumulator move the bit that falls out into
    the carry and, for the rotations, the old carry in.  No other flag or
    register changes. *)
Theorem alu_6502 c v : cpu_wf c -> is_byte v ->
  let k := Z.b2z (flag c carry_bp) in
  let old_V := flag c overflow_bp in
  let leaves c' r cf vf := sets c c' cf (r =? 0) vf (128 <=? r) /\ regs_of c' = (r, rX c, rY c) in
  let sum := rA c + v + k in
  let diff := rA c - v - (1 - k) in
  leaves (adc v c) (sum mod 256) (256 <=? sum) (overflows (signed (rA c) + signed v + k)) /\
  leaves (sbc v c) (diff mod 256) (0 <=? diff) (overflows (signed (rA c) - signed v - (1 - k))) /\
  (forall reg, reg ∈ [rA; rX; rY] ->
    sets c (cpu_compare reg v c) (v <=? reg c) (reg c =? v) old_V (128 <=? (reg c - v) mod 256) /\
    regs_of (cpu_compare reg v c) = regs_of c) /\
  leaves (zn_A (Z.land (rA c) v) c) (Z.land (rA c) v) (flag c carry_bp) old_V /\
  leaves (zn_A (Z.lor (rA c) v) c) (Z.lor (rA c) v) (flag c carry_bp) old_V /\
  leaves (zn_A (Z.lxor (rA c) v) c) (Z.lxor (rA c) v) (flag c carry_bp) old_V /\
  (sets c (op_bit v c) (flag c carry_bp) (Z.land (rA c) v =? 0) (Z.testbit v 6) (Z.testbit v 7) /\
   regs_of (op_bit v c) = regs_of c) /\
  leaves (asla c) ((2 * rA c) mod 256) (128 <=? rA c) old_V /\
  leaves (lsra c) (rA c / 2) (Z.odd (rA c)) old_V /\
  leaves (rola c) ((2 * rA c + k) mod 256) (128 <=? rA c) old_V /\
  leaves (rora c) (rA c / 2 + 128 * k) (Z.odd (rA c)) old_V.
Proof.
  intros Hc Hv k old_V leaves sum diff. pose proof (wf_A _ Hc). pose proof (wf_X _ Hc). pose proof (wf_Y _ Hc).
  refine (conj (adc_correct v c Hc Hv) (conj (sbc_correct v c Hc Hv) (conj _ _))).
  { intros reg Hreg. apply compare_correct; [elem_cases Hreg; done | done]. }
  refine (conj _ (conj _ (conj _ (conj (bit_correct v c Hc Hv) (shifts_correct c Hc))))); apply zn_A_sets.
  - by apply land_is_byte.
  - by apply lor_is_byte.
  - by apply lxor_is_byte.
Qed.

Lemma alu_6502_witness :
  let c := mkCpu 0x8000 0xFD 0x50 0 0 0x25 in
  rA (adc 0x50 c) = 0xA1 /\ flag (adc 0x50 c) overflow_bp = true /\ flag (adc 0x50 c) carry_bp = false.
Proof.
  cbv zeta. set (c := mkCpu _ _ _ _ _ _).
  destruct (alu_6502 c 0x50) as [[S R] _]; [by constructor; cbn; unfold is_byte | by unfold is_byte |].
  split; [exact (f_equal (fun t => fst (fst t)) R) |].
  split; [rewrite (sets_V _ _ _ _ _ _ S) | rewrite (sets_C _ _ _ _ _ _ S)]; reflexivity.
Defined.

(** ** Read-modify-write instructions on RAM *)

Lemma writeb_ram a v s : 0 <= a < 0x2000 -> is_byte v ->
  memory_writeb a v s = Ok ((), {| s with CPU_RAM := aset (CPU_RAM s) (Z.land a 0x7FF) v |}).
Proof.
  intros Ha Hv. unfold memory_writeb. rewrite word_id, byte_id by (done || lia).
  replace (a =? 0x4014) with false by lia.
  replace (Z.shiftr a 13) with 0 by (rewrite Z.shiftr_div_pow2 by lia; symmetry; apply Z.div_small; lia).
  unfold cpu_ram_write, modify. change 0x7FF with (Z.ones 11). rewrite <- Z.land_assoc, Z.land_diag. done.
Qed.

Lemma write_op_ram v s : 0 <= op_address s < 0x2000 -> is_byte v ->
  write_op v s = Ok ((), {| s with CPU_RAM := aset (CPU_RAM s) (Z.land (op_address s) 0x7FF) v |}).
Proof. intros. by apply writeb_ram. Qed.

(** The state after the operand, its cell in RAM and the registers have changed. *)
Definition rmw_state (r v : Z) (c : CPU_STATE) (s : Nes) : Nes :=
  {| s with cpu := c; op_value := v; CPU_RAM := aset (CPU_RAM s) (Z.land (op_address s) 0x7FF) r |}.

Section RmwRuns.
Context (s : Nes) (Ha : 0 <= op_address s < 0x2000) (Hv : is_byte (op_value s)).
Let v := op_value s.
Let c := cpu s.

Ltac rmw_run := unfold regs_, regs, set_op_value, modify, gets, mbind, nesM_bind; cbn -[write_op]; rewrite write_op_ram; [reflexivity | done | auto with emu].

Lemma asl_run : let r := Z.land (Z.shiftl v 1) 0xFF in
  cpu_op_asl s = Ok ((), rmw_state r r (cpu_update_zn_flags r (cpu_modify_flag carry_bp (negb (Z.land v 0x80 =? 0)) c)) s).
Proof. unfold cpu_op_asl. rmw_run. Qed.

Lemma lsr_run : let r := Z.land (Z.shiftr v 1) 0xFF in
  cpu_op_lsr s = Ok ((), rmw_state r r (cpu_update_zn_flags r (cpu_modify_flag carry_bp (negb (Z.land v 0x01 =? 0)) c)) s).
Proof. unfold cpu_op_lsr. rmw_run. Qed.

Lemma rol_run : let w := Z.lor (Z.shiftl v 1) (if cpu_flag_set c carry_bp then 1 else 0) in let r := Z.land w 0xFF in
  cpu_op_rol s = Ok ((), rmw_state r r (cpu_update_zn_flags r (cpu_modify_flag carry_bp (0xFF <? w) c)) s).
Proof. unfold cpu_op_rol. rmw_run. Qed.

Lemma ror_run : let k := cpu_flag_set c carry_bp in let r := Z.land (Z.lor (Z.shiftr v 1) (Z.shiftl (Z.b2z k) 7)) 0xFF in
  cpu_op_ror s = Ok ((), rmw_state r r (cpu_modify_flag negative_bp k (cpu_modify_flag zero_bp (r =? 0)
    (cpu_modify_flag carry_bp (negb (Z.land v 0x01 =? 0)) c))) s).
Proof. unfold cpu_op_ror. rmw_run. Qed.

Lemma inc_run : let r := byte (v + 1) in cpu_op_inc s = Ok ((), rmw_state r v (cpu_update_zn_flags r c) s).
Proof. unfold cpu_op_inc. rmw_run. Qed.

Lemma dec_run : let r := byte (v - 1) in cpu_op_dec s = Ok ((), rmw_state r v (cpu_update_zn_flags r c) s).
Proof. unfold cpu_op_dec. rmw_run. Qed.
End RmwRuns.

(** Shifts, rotations, increments and decrements of memory: with an operand
    address in RAM (mirrors included) they write the result, and nothing else,
    to that cell and set the flags as their accumulator forms do; INC and DEC
    leave the carry. *)
Theorem rmw_6502 s : nes_wf s -> 0 <= op_address s < 0x2000 ->
  let c := cpu s in let v := op_value s in let k := Z.b2z (flag c carry_bp) in
  let writes (m : nesM ()) r cf := exists s', m s = Ok ((), s') /\
    CPU_RAM s' = aset (CPU_RAM s) (Z.land (op_address s) 0x7FF) r /\
    sets c (cpu s') cf (r =? 0) (flag c overflow_bp) (128 <=? r) /\ regs_of (cpu s') = regs_of c /\
    memory s' = memory s /\ PPU_RAM s' = PPU_RAM s /\ ppu s' = ppu s in
  writes cpu_op_asl ((2 * v) mod 256) (128 <=? v) /\
  writes cpu_op_lsr (v / 2) (Z.odd v) /\
  writes cpu_op_rol ((2 * v + k) mod 256) (128 <=? v) /\
  writes cpu_op_ror (v / 2 + 128 * k) (Z.odd v) /\
  writes cpu_op_inc ((v + 1) mod 256) (flag c carry_bp) /\
  writes cpu_op_dec ((v - 1) mod 256) (flag c carry_bp).
Proof.
  intros Hw Ha c v k writes. pose proof (wf_value _ Hw) as Hv. fold v in Hv.
  destruct (shifts_all v (flag c carry_bp) Hv : shift_facts v k).
  pose proof (half_byte v Hv) as Hh. pose proof (mod_is_byte (2 * v)). pose proof (mod_is_byte (2 * v + k)).
  pose proof (mod_is_byte (v + 1)). pose proof (mod_is_byte (v - 1)).
  assert (Hror : is_byte (v / 2 + 128 * k)).
  { unfold is_byte in *. split; [| done]. unfold k. destruct (flag c carry_bp); cbn; lia. }
  assert (Hcz : forall r cf, is_byte r -> let c' := cpu_update_zn_flags r (cpu_modify_flag carry_bp cf c) in
    sets c c' cf (r =? 0) (flag c overflow_bp) (128 <=? r) /\ regs_of c' = regs_of c).
  { intros r cf Hr c'. destruct (modify_sets carry_bp cf c ltac:(set_solver)) as [S1 _].
    destruct (zn_flags r (cpu_modify_flag carry_bp cf c) Hr) as [S2 Hg]. split; [| exact Hg]. cbn in S1.
    pose proof (sets_trans _ _ _ _ _ _ _ _ _ _ _ S1 S2) as S. destruct S1. by rewrite sets_C0, sets_V0 in S. }
  assert (Hwr : forall m r w c' cf, m s = Ok ((), rmw_state r w c' s) ->
    sets c c' cf (r =? 0) (flag c overflow_bp) (128 <=? r) /\ regs_of c' = regs_of c -> writes m r cf).
  { intros m r w c' cf E [S R]. exists (rmw_state r w c' s). split_and!; done. }
  refine (conj _ (conj _ (conj _ (conj _ (conj _ _))))).
  - eapply Hwr; [rewrite (asl_run s Ha); fold v c; rewrite sh_asl_m0, sh_high0; reflexivity | by apply Hcz].
  - eapply Hwr; [rewrite (lsr_run s Ha); fold v c; rewrite sh_lsr_m0, sh_low0; reflexivity | by apply Hcz].
  - eapply Hwr; [rewrite (rol_run s Ha); fold v c; rewrite carry_01; fold k; rewrite sh_rol0, sh_rol_c0; reflexivity | by apply Hcz].
  - eapply Hwr; [rewrite (ror_run s Ha); fold v c; rewrite flag_set by done; fold k; rewrite sh_ror_m0, sh_low0; reflexivity |].
    split; [| done]. apply ror_sets; try done. rewrite <- sh_ror_n0. unfold k. by destruct (flag c carry_bp).
  - eapply Hwr; [rewrite (inc_run s Ha); reflexivity |]. by apply zn_flags.
  - eapply Hwr; [rewrite (dec_run s Ha); reflexivity |]. by apply zn_flags.
Qed.

Lemma rmw_6502_witness :
  let s0 := nes_zero [] in let s := {| s0 with op_value := 0x81; op_address := 0x0810 |} in
  exists s', cpu_op_asl s = Ok ((), s') /\ aget (CPU_RAM s') 0x10 = 2 /\ flag (cpu s') carry_bp = true.
Proof.
  intros s0 s.
  assert (Hw : nes_wf s) by (destruct (nes_zero_wf []); constructor; auto; by cbn).
  destruct (rmw_6502 s Hw) as [(s' & E & Hr & S & _) _]; [by cbn |].
  exists s'. split; [exact E |]. split; [rewrite Hr; vm_compute; reflexivity |].
  rewrite (sets_C _ _ _ _ _ _ S). reflexivity.
Defined.
