(* ===== verification/NesStack.v ===== *)
(** * LiteNES: the stack, subroutines and interrupts

    The stack is page 1 of RAM.  What is pushed is popped again, so a
    subroutine returns behind its call and an interrupt handler to where the
    program was; what the code does differently from a 6502 is part of the
    statements. *)

From S2P Require Import Prelude Word Ftrace Kstdlib Am Nes NesCpu NesSafe NesAlu.

Lemma readb_ram a s : 0 <= a < 0x2000 -> memory_readb a s = Ok (aget (CPU_RAM s) (Z.land a 0x7FF), s).
Proof.
  intros Ha. unfold memory_readb. rewrite word_id by lia.
  replace (Z.shiftr a 13) with 0 by (rewrite Z.shiftr_div_pow2 by lia; symmetry; apply Z.div_small; lia).
  unfold cpu_ram_read, gets. change 0x7FF with (Z.ones 11). by rewrite <- Z.land_assoc, Z.land_diag.
Qed.

Lemma ram_index a : 0 <= a < 0x800 -> Z.land a 0x7FF = a.
Proof. intros. change 0x7FF with (Z.ones 11). rewrite Z.land_ones by lia. apply Z.mod_small. lia. Qed.

Lemma aget_aset a i v j : aget (aset a i v) j = if j =? i then v else aget a j.
Proof.
  unfold aget, aset. destruct (Z.eqb_spec j i) as [-> | Hne]; [by rewrite lookup_insert_eq | by rewrite lookup_insert_ne].
Qed.

(** The cells that a word pushed with stack pointer [sp] takes. *)
Definition holds (s : Nes) (a w : Z) : Prop :=
  aget (CPU_RAM s) a = w mod 256 /\ aget (CPU_RAM s) (a + 1) = w / 256.

Lemma pushw_run d s : cpu_wf (cpu s) -> 0 <= d < 65536 ->
  exists s', cpu_stack_pushw d s = Ok ((), s') /\ holds s' (0xFF + rSP (cpu s)) d /\
    cpu s' = set_SP (rSP (cpu s) - 2) (cpu s) /\
    (forall i, i <> 0xFF + rSP (cpu s) -> i <> 0x100 + rSP (cpu s) -> aget (CPU_RAM s') i = aget (CPU_RAM s) i) /\
    memory s' = memory s /\ op_address s' = op_address s /\ ppu s' = ppu s.
Proof.
  intros Hc Hd. pose proof (wf_SP _ Hc) as Hsp. unfold is_byte in Hsp. set (sp := rSP (cpu s)) in *.
  assert (Hlo : Z.land d 0xFF = d mod 256) by (change 0xFF with (Z.ones 8); by rewrite Z.land_ones by lia).
  assert (Hhi : Z.shiftr d 8 = d / 256) by (by rewrite Z.shiftr_div_pow2 by lia).
  assert (is_byte (d mod 256)) by apply mod_is_byte.
  assert (is_byte (d / 256)) by (unfold is_byte; Z.div_mod_to_equations; lia).
  unfold cpu_stack_pushw, memory_writew. rewrite (word_id d) by done.
  eexists. split.
  { unfold mbind, nesM_bind. unfold gets. fold sp. rewrite (word_id (0xFF + sp)), Hlo, Hhi by lia.
    rewrite writeb_ram by (done || lia). rewrite writeb_ram by (done || lia). reflexivity. }
  cbn. rewrite !ram_index by lia. unfold holds. cbn. rewrite !aget_aset.
  replace (0xFF + sp + 1 =? 0xFF + sp + 1) with true by lia. replace (0xFF + sp =? 0xFF + sp + 1) with false by lia.
  replace (0xFF + sp =? 0xFF + sp) with true by lia. split_and!; try done.
  intros i H1 H2. rewrite !aget_aset. replace (i =? 0xFF + sp + 1) with false by lia.
  by replace (i =? 0xFF + sp) with false by lia.
Qed.

Lemma popw_run w s : cpu_wf (cpu s) -> 0 <= w < 65536 ->
  let sp := byte (rSP (cpu s) + 2) in holds s (0xFF + sp) w ->
  exists s', cpu_stack_popw s = Ok (w, s') /\ cpu s' = set_SP (rSP (cpu s) + 2) (cpu s) /\
    CPU_RAM s' = CPU_RAM s /\ memory s' = memory s /\ ppu s' = ppu s.
Proof.
  intros Hc Hw sp [H1 H2]. pose proof (byte_is (rSP (cpu s) + 2)) as Hsp. fold sp in Hsp. unfold is_byte in Hsp.
  eexists. split.
  { unfold cpu_stack_popw, regs_, regs, modify, mbind, nesM_bind, gets. cbn [cpu rSP set_SP]. fold sp.
    unfold memory_readw, mbind, nesM_bind. rewrite (word_id (0xFF + sp)) by lia.
    rewrite readb_ram by lia. rewrite readb_ram by lia. cbn [CPU_RAM]. rewrite !ram_index, H1, H2 by lia.
    unfold mret, nesM_ret. rewrite Z.shiftl_mul_pow2 by lia.
    replace (word (w mod 256 + w / 256 * 2 ^ 8)) with w; [reflexivity |].
    rewrite word_id; Z.div_mod_to_equations; lia. }
  cbn. done.
Qed.

Lemma nes_bind {A B} (m : nesM A) (f : A -> nesM B) s a s' : m s = Ok (a, s') -> (m ≫= f) s = f a s'.
Proof. intros E. unfold mbind, nesM_bind. by rewrite E. Qed.

Lemma pushw_word d s : cpu_stack_pushw d s = cpu_stack_pushw (word d) s.
Proof. unfold cpu_stack_pushw, memory_writew. by rewrite (word_id (word d)) by apply word_is. Qed.

(** A subroutine returns behind its call.  Whatever the stack pointer, JSR
    leaves the return address in RAM and goes to its target; and RTS, in any
    later state in which that address and the stack pointer are what JSR left,
    continues at the instruction after the JSR, with the stack pointer of the
    call restored.  (A push with the stack pointer at 0 reaches down to
    address 0xFF instead of wrapping inside page 1; the pop reads it back from
    there.) *)
Theorem subroutine_returns s : cpu_wf (cpu s) ->
  exists s1, cpu_op_jsr s = Ok ((), s1) /\ rPC (cpu s1) = word (op_address s) /\
  let a := 0xFF + rSP (cpu s) in
  forall s2, cpu_wf (cpu s2) -> rSP (cpu s2) = rSP (cpu s1) ->
    aget (CPU_RAM s2) a = aget (CPU_RAM s1) a -> aget (CPU_RAM s2) (a + 1) = aget (CPU_RAM s1) (a + 1) ->
    exists s3, cpu_op_rts s2 = Ok ((), s3) /\ rPC (cpu s3) = rPC (cpu s) /\ rSP (cpu s3) = rSP (cpu s) /\
      regs_of (cpu s3) = regs_of (cpu s2) /\ rP (cpu s3) = rP (cpu s2) /\ CPU_RAM s3 = CPU_RAM s2.
Proof.
  intros Hc. pose proof (wf_PC _ Hc) as Hpc. pose proof (wf_SP _ Hc) as Hsp.
  set (d := word (rPC (cpu s) - 1)).
  destruct (pushw_run d s Hc (word_is _)) as (s1 & E1 & [Hl Hh] & Ec & Hfr & _ & Ea & _).
  assert (Epush : cpu_stack_pushw (rPC (cpu s) - 1) s = Ok ((), s1)) by (by rewrite pushw_word).
  eexists. split.
  { unfold cpu_op_jsr, mbind, nesM_bind. unfold gets at 1. rewrite Epush. unfold gets, regs_, regs, modify. reflexivity. }
  cbn. split; [by rewrite Ea |]. intros s2 Hc2 Esp E2l E2h. rewrite Ec in Esp. cbn in Esp.
  assert (Hback : byte (rSP (cpu s2) + 2) = rSP (cpu s)).
  { rewrite Esp. unfold byte. rewrite Zplus_mod_idemp_l. replace (rSP (cpu s) - 2 + 2) with (rSP (cpu s)) by lia. by apply byte_id. }
  destruct (popw_run d s2 Hc2 (word_is _)) as (s3 & E3 & Ec3 & Er3 & _).
  { rewrite Hback. split; congruence. }
  eexists. split.
  { unfold cpu_op_rts, mbind, nesM_bind. rewrite E3. unfold regs_, regs, modify. reflexivity. }
  cbn. rewrite Ec3, Er3. cbn. rewrite Hback. split_and!; try done.
  unfold d, word. rewrite Zplus_mod_idemp_l. replace (rPC (cpu s) - 1 + 1) with (rPC (cpu s)) by lia. by apply Z.mod_small.
Qed.

Lemma subroutine_returns_witness :
  let c := mkCpu 0x8003 0x00 1 2 3 0x24 in
  let s0 := nes_zero [] in let s := {| s0 with cpu := c; op_address := 0x9000 |} in
  exists s1 s3, cpu_op_jsr s = Ok ((), s1) /\ cpu_op_rts s1 = Ok ((), s3) /\ rPC (cpu s3) = 0x8003 /\ rSP (cpu s3) = 0.
Proof.
  intros c s0 s. assert (Hc : cpu_wf (cpu s)) by (constructor; cbn; unfold is_byte; lia).
  destruct (subroutine_returns s Hc) as (s1 & E1 & _ & Hret).
  assert (Hc1 : cpu_wf (cpu s1)).
  { vm_compute in E1. injection E1 as <-. constructor; cbn; unfold is_byte; lia. }
  destruct (Hret s1 Hc1 eq_refl eq_refl eq_refl) as (s3 & E3 & Hpc & Hsp & _).
  exists s1, s3. split; [exact E1 |]. split; [exact E3 |]. split; [exact Hpc | exact Hsp].
Defined.

(** ** Interrupts *)

Lemma pushb_run d s : cpu_wf (cpu s) -> is_byte d ->
  exists s', cpu_stack_pushb d s = Ok ((), s') /\ cpu s' = set_SP (rSP (cpu s) - 1) (cpu s) /\
    CPU_RAM s' = aset (CPU_RAM s) (0x100 + rSP (cpu s)) d /\ memory s' = memory s /\ ppu s' = ppu s.
Proof.
  intros Hc Hd. pose proof (wf_SP _ Hc) as Hsp. unfold is_byte in Hsp.
  eexists. split.
  { unfold cpu_stack_pushb, regs_, regs, modify, mbind, nesM_bind, gets. rewrite writeb_ram by (done || lia). reflexivity. }
  cbn. by rewrite ram_index by lia.
Qed.

Lemma popb_run s : cpu_wf (cpu s) ->
  exists s', cpu_stack_popb s = Ok (aget (CPU_RAM s) (0x100 + byte (rSP (cpu s) + 1)), s') /\
    cpu s' = set_SP (rSP (cpu s) + 1) (cpu s) /\ CPU_RAM s' = CPU_RAM s.
Proof.
  intros Hc. pose proof (byte_is (rSP (cpu s) + 1)) as Hsp. unfold is_byte in Hsp.
  eexists. split.
  { unfold cpu_stack_popb, regs_, regs, modify, mbind, nesM_bind, gets. cbn [cpu rSP set_SP].
    rewrite readb_ram by lia. cbn [CPU_RAM]. rewrite ram_index by lia. reflexivity. }
  done.
Qed.

Definition nmi_vector (s : Nes) : Z := word (aget (memory s) 0xFFFA + Z.shiftl (aget (memory s) 0xFFFB) 8).

Lemma nmi_vector_run s : cpu_nmi_interrupt_address s = Ok (nmi_vector s, s).
Proof. reflexivity. Qed.

(** What an interrupt leaves on the stack: return address and flags, below the
    stack pointer [sp] of the program. *)
Definition saved (s : Nes) (sp pc p : Z) : Prop :=
  holds s (0xFF + sp) pc /\ aget (CPU_RAM s) (0x100 + byte (sp - 2)) = p.

(** Push [pc] and then [p]. *)
Lemma save_run pc p s : cpu_wf (cpu s) -> 0 <= pc < 65536 -> is_byte p ->
  exists s1 s2, cpu_stack_pushw pc s = Ok ((), s1) /\ cpu s1 = set_SP (rSP (cpu s) - 2) (cpu s) /\
    cpu_stack_pushb p s1 = Ok ((), s2) /\ saved s2 (rSP (cpu s)) pc p /\
    cpu s2 = set_SP (rSP (cpu s1) - 1) (cpu s1) /\ memory s2 = memory s.
Proof.
  intros Hc Hpc Hp. pose proof (wf_SP _ Hc) as Hsp. unfold is_byte in Hsp.
  destruct (pushw_run pc s Hc Hpc) as (s1 & E1 & Hh & Ec1 & _ & Em1 & _).
  assert (Hc1 : cpu_wf (cpu s1)) by (rewrite Ec1; auto with emu).
  destruct (pushb_run p s1 Hc1 Hp) as (s2 & E2 & Ec2 & Er2 & Em2 & _).
  exists s1, s2. split_and!; try done; [| congruence]. unfold saved, holds. rewrite Er2, Ec1. cbn [rSP set_SP].
  pose proof (byte_is (rSP (cpu s) - 2)) as Hb. unfold is_byte in Hb.
  assert (Hne : 0x100 + byte (rSP (cpu s) - 2) <> 0xFF + rSP (cpu s) /\ 0x100 + byte (rSP (cpu s) - 2) <> 0x100 + rSP (cpu s)).
  { unfold byte. Z.div_mod_to_equations. lia. }
  rewrite !aget_aset. destruct Hh as [Hl Hh].
  replace (0xFF + rSP (cpu s) =? _) with false by lia. replace (0xFF + rSP (cpu s) + 1 =? _) with false by lia.
  by rewrite Z.eqb_refl.
Qed.

Lemma rti_run s sp pc p : cpu_wf (cpu s) -> 0 <= pc < 65536 -> is_byte sp -> rSP (cpu s) = byte (byte (sp - 2) - 1) ->
  saved s sp pc p ->
  exists s', cpu_op_rti s = Ok ((), s') /\ rPC (cpu s') = pc /\ rSP (cpu s') = sp /\
    rP (cpu s') = byte (Z.lor p unused_flag) /\ regs_of (cpu s') = regs_of (cpu s) /\ CPU_RAM s' = CPU_RAM s.
Proof.
  intros Hc Hpc Hsp Esp [Hh Hp].
  assert (E1 : byte (rSP (cpu s) + 1) = byte (sp - 2)).
  { rewrite Esp. unfold byte. rewrite Zminus_mod_idemp_l, Zplus_mod_idemp_l. f_equal. lia. }
  destruct (popb_run s Hc) as (s1 & P1 & Ec1 & Er1). rewrite E1, Hp in P1.
  set (s1' := {| s1 with cpu := set_P (Z.lor p unused_flag) (cpu s1) |}).
  assert (Hc1 : cpu_wf (cpu s1')) by (cbn; rewrite Ec1; auto with emu).
  destruct (popw_run pc s1' Hc1 Hpc) as (s2 & P2 & Ec2 & Er2 & _).
  { cbn. rewrite Ec1. cbn. rewrite E1. replace (byte (byte (sp - 2) + 2)) with sp.
    - unfold holds in *. cbn. by rewrite Er1.
    - unfold byte. rewrite Zplus_mod_idemp_l. replace (sp - 2 + 2) with sp by lia. symmetry. by apply byte_id. }
  eexists. split.
  { unfold cpu_op_rti, mbind, nesM_bind. rewrite P1. unfold regs_ at 1, regs at 1, modify. fold s1'. rewrite P2.
    unfold regs_, regs, modify. reflexivity. }
  cbn. rewrite Ec2, Er2. cbn. rewrite Er1, Ec1. cbn. rewrite E1.
  split_and!; try done; [by apply word_id |]. unfold byte. rewrite Zplus_mod_idemp_l.
  replace (sp - 2 + 2) with sp by lia. by apply byte_id.
Qed.

(** The handler at [s1] runs for the program at [s]: RTI, in any later state with
    the stack that the handler found, goes on at [pc] with the program's stack
    pointer and flags, the interrupt flag being [i_flag]. *)
Definition comes_back (s s1 : Nes) (pc : Z) (i_flag : bool) : Prop :=
  rPC (cpu s1) = nmi_vector s /\
  forall s2, cpu_wf (cpu s2) -> rSP (cpu s2) = rSP (cpu s1) ->
    (forall k, aget (CPU_RAM s2) k = aget (CPU_RAM s1) k) ->
    exists s3, cpu_op_rti s2 = Ok ((), s3) /\ rPC (cpu s3) = pc /\ rSP (cpu s3) = rSP (cpu s) /\
      regs_of (cpu s3) = regs_of (cpu s2) /\ flag (cpu s3) interrupt_bp = i_flag /\
      flag (cpu s3) unused_bp = true /\
      forall b, b ∈ [carry_bp; zero_bp; decimal_bp; break_bp; overflow_bp; negative_bp] ->
        flag (cpu s3) b = flag (cpu s) b.

Lemma saved_comes_back s sA s1 pc p i_flag : cpu_wf (cpu s) -> saved sA (rSP (cpu s)) pc p -> 0 <= pc < 65536 ->
  CPU_RAM s1 = CPU_RAM sA -> rSP (cpu s1) = byte (byte (rSP (cpu s) - 2) - 1) -> rPC (cpu s1) = nmi_vector s ->
  Z.testbit p 2 = i_flag -> (forall b, 0 <= b < 8 -> b <> 2 -> b <> 5 -> Z.testbit p b = flag (cpu s) b) ->
  comes_back s s1 pc i_flag.
Proof.
  intros Hc [[Sl Sh] Sp] Hp Er Esp Ev Hi Hb. split; [done |]. intros s2 Hc2 Esp2 E2.
  destruct (rti_run s2 (rSP (cpu s)) pc p Hc2 Hp (wf_SP _ Hc)) as (s3 & E3 & ? & ? & Ep & ? & _); [congruence | |].
  { unfold saved, holds. rewrite !E2, Er. done. }
  assert (Hbit : forall b, 0 <= b < 8 -> flag (cpu s3) b = if b =? 5 then true else Z.testbit p b).
  { intros b Hb8. unfold flag. rewrite Ep, byte_testbit, Z.lor_spec by done.
    assert (b ∈ [0; 1; 2; 3; 4; 5; 6; 7]) as Hin by (rewrite !elem_of_cons; lia).
    elem_cases Hin; cbn -[Z.testbit]; closed_bits; rewrite ?orb_false_r, ?orb_true_r; done. }
  exists s3. unfold_bp. rewrite !Hbit by lia. split_and!; try done.
  intros b Hin. rewrite Hbit by (elem_cases Hin; lia). elem_cases Hin; cbn -[Z.testbit]; apply Hb; lia.
Qed.

(** C30. Interrupts return.  When the PPU raises its interrupt, the emulated CPU
    continues at the address in 0xFFFA; and RTI, in any later state with
    the RAM and the stack pointer of the interrupt's entry, continues exactly where the
    program was, with its stack pointer.  The flags come back except two: the
    interrupt flag is set, because it is set before the flags are pushed, and
    bit 5 is.  BRK is not such an interrupt: it also goes through 0xFFFA (the
    NMI vector, not 0xFFFE), and the RTI after it comes back to one before the
    program counter BRK had, that is to the BRK itself. *)
Theorem interrupt_returns s : nes_wf s ->
  (if ppu_generates_nmi (ppu s)
   then exists s1, cpu_interrupt s = Ok ((), s1) /\ comes_back s s1 (rPC (cpu s)) true
   else cpu_interrupt s = Ok ((), s)) /\
  exists s1, cpu_op_brk s = Ok ((), s1) /\ comes_back s s1 (word (rPC (cpu s) - 1)) (flag (cpu s) interrupt_bp).
Proof.
  intros Hw. pose proof (wf_cpu _ Hw) as Hc. pose proof (wf_PC _ Hc) as Hpc. split.
  - destruct (ppu_generates_nmi (ppu s)) eqn:E.
    + set (p := common_modify_bitb (byte (Z.lor (rP (cpu s)) interrupt_flag)) unused_bp false).
      set (c0 := cpu_unset_flag unused_bp (set_P (Z.lor (rP (cpu s)) interrupt_flag) (cpu s))).
      set (s0 := {| s with cpu := c0 |}).
      assert (Hp : is_byte p) by apply bit_byte.
      assert (Hc0 : cpu_wf (cpu s0)) by (cbn; unfold c0; auto with emu).
      destruct (save_run (rPC (cpu s)) p s0 Hc0 Hpc Hp) as (s1 & s2 & E1 & Ec1 & E2 & Hsv & Ec2 & Em).
      exists {| s2 with cpu := set_PC (nmi_vector s2) (cpu s2) |}. split.
      { unfold cpu_interrupt. rewrite (nes_bind _ _ s (ppu s) s), E by done.
        rewrite (nes_bind _ _ s () s0), (nes_bind _ _ s0 (cpu s0) s0), (nes_bind _ _ s0 () s1), (nes_bind _ _ s1 (cpu s1) s1) by done.
        rewrite (nes_bind _ _ s1 () s2); [by rewrite (nes_bind _ _ s2 (nmi_vector s2) s2) |].
        by rewrite Ec1. }
      apply (saved_comes_back s s2 _ _ p); try done.
      * cbn. by rewrite Ec2, Ec1.
      * cbn. unfold nmi_vector. rewrite Em. apply word_id, word_is.
      * unfold p. rewrite modify_testbit by (unfold unused_bp; lia). cbn -[Z.testbit].
        rewrite byte_testbit, Z.lor_spec by lia. apply orb_true_r.
      * intros b Hb H2 H5. unfold p. rewrite modify_testbit by (unfold unused_bp; lia).
        replace (unused_bp =? b) with false by (unfold unused_bp; lia). rewrite byte_testbit, Z.lor_spec by lia.
        unfold flag. assert (b ∈ [0; 1; 3; 4; 6; 7]) as Hin by (rewrite !elem_of_cons; lia).
        elem_cases Hin; closed_bits; apply orb_false_r.
    + unfold cpu_interrupt. by rewrite (nes_bind _ _ s (ppu s) s), E by done.
  - destruct (save_run (word (rPC (cpu s) - 1)) (rP (cpu s)) s Hc (word_is _) (wf_P _ Hc)) as (s1 & s2 & E1 & Ec1 & E2 & Hsv & Ec2 & Em).
    set (c2 := set_P (Z.lor (rP (cpu s2)) (Z.lor unused_flag break_flag)) (cpu s2)).
    set (s2' := {| s2 with cpu := c2 |}).
    exists {| s2 with cpu := set_PC (nmi_vector s2) c2 |}. split.
    { unfold cpu_op_brk. rewrite (nes_bind _ _ s (cpu s) s), (nes_bind _ _ s () s1), (nes_bind _ _ s1 (cpu s1) s1) by (done || by rewrite <- E1; apply pushw_word).
      rewrite (nes_bind _ _ s1 () s2) by (by rewrite Ec1).
      rewrite (nes_bind _ _ s2 () s2'), (nes_bind _ _ s2' (nmi_vector s2) s2') by done. done. }
    apply (saved_comes_back s s2 _ _ (rP (cpu s))); try done; cbn; [apply word_is | by rewrite Ec2, Ec1 |].
    unfold nmi_vector. rewrite Em. apply word_id, word_is.
Qed.

Lemma interrupt_returns_witness :
  let p := ppu_zero in let s0 := nes_zero [] in
  let s := {| s0 with ppu := {| p with PPUCTRL := 0x80 |} |} in
  exists s1, cpu_interrupt s = Ok ((), s1) /\ comes_back s s1 0 true.
Proof.
  intros p s0 s. assert (Hw : nes_wf s).
  { apply (nes_wf_ppu s0); [apply nes_zero_wf |]. destruct (wf_ppu _ (nes_zero_wf [])). by constructor; cbn; unfold is_byte. }
  exact (proj1 (interrupt_returns s Hw)).
Defined.
