(* ===== verification/NesRender.v ===== *)
(** * LiteNES: drawing and the life cycle (litenes/src/ppu.c, fce.c)

    The scan line renderers, the PPU's cycle that drives CPU and screen, the
    frame on the canvas, the ROM loader and start-up. *)

From S2P Require Import Prelude Word Ftrace Kstdlib Am Nes NesCpu.

Definition SCR_W : Z := 256.
Definition SCR_H : Z := 240.
Definition FRAME_SKIP : Z := 1.

Definition palette : list Z :=
  [ 0x808080; 0x0000BB; 0x3700BF; 0x8400A6; 0xBB006A; 0xB7001E; 0xB30000; 0x912600;
    0x7B2B00; 0x003E00; 0x00480D; 0x003C22; 0x002F66; 0x000000; 0x050505; 0x050505;
    0xC8C8C8; 0x0059FF; 0x443CFF; 0xB733CC; 0xFF33AA; 0xFF375E; 0xFF371A; 0xD54B00;
    0xC46200; 0x3C7B00; 0x1E8415; 0x009566; 0x0084C4; 0x111111; 0x090909; 0x090909;
    0xFFFFFF; 0x0095FF; 0x6F84FF; 0xD56FFF; 0xFF77CC; 0xFF6F99; 0xFF7B59; 0xFF915F;
    0xFFA233; 0xA6BF00; 0x51D96A; 0x4DD5AE; 0x00D9FF; 0x666666; 0x0D0D0D; 0x0D0D0D;
    0xFFFFFF; 0x84BFFF; 0xBBBBFF; 0xD0BBFF; 0xFFBFEA; 0xFFBFCC; 0xFFC4B7; 0xFFCCAE;
    0xFFD9A2; 0xCCE199; 0xAEEEB7; 0xAAF7EE; 0xB3EEFF; 0xDDDDDD; 0x111111; 0x111111 ].

(** ** The canvas *)

Definition candraw (s : Nes) : bool := Z.rem (frame_cnt s) (1 + FRAME_SKIP) =? 0.

Definition fn_upd (f : Z -> Z) (i v : Z) : Z -> Z := fun j => if j =? i then v else f j.

Definition draw (x y idx : Z) : nesM () :=
  ok ← gets candraw;
  if (0 <=? x) && (x <? SCR_W) && (0 <=? y) && (y <? SCR_H) && ok then
    _ ← nes_ensure (in_range palette idx);
    modify (fun s => {| s with canvas := fn_upd (canvas s) (y * SCR_W + x) (arr palette idx) |})
  else mret ().

(** [for] over the values of the loop variable. *)
Fixpoint for_each (l : list Z) (body : Z -> nesM ()) : nesM () :=
  match l with
  | [] => mret ()
  | x :: l => _ ← body x; for_each l body
  end.

Definition zseq (i n : Z) : list Z := seqZ_from i (Z.to_nat n).

(** ** Background *)

Definition bg_pixel (mirror : bool) (tile_x l h x : Z) : nesM () :=
  p ← gets ppu;
  color ← gets (fun s => ppu_l_h_addition_table s l h x);
  if color =? 0 then mret ()
  else
    let attribute_address := word (ppu_base_nametable_address p + (if mirror then 0x400 else 0) + 0x3C0 +
                                   Z.shiftr tile_x 2 + Z.shiftr (scanline p) 5 * 8) in
    let top := Z.rem (scanline p) 32 <? 16 in
    let left_ := Z.rem tile_x 4 <? 2 in
    palette_attribute ← ppu_ram_read attribute_address;
    let palette_attribute := if top then palette_attribute else Z.shiftr palette_attribute 4 in
    let palette_attribute := if left_ then palette_attribute else Z.shiftr palette_attribute 2 in
    let palette_attribute := Z.land palette_attribute 3 in
    let palette_address := word (0x3F00 + Z.shiftl palette_attribute 2) in
    idx ← ppu_ram_read (palette_address + color);
    let column := Z.shiftl tile_x 3 + x in
    _ ← nes_ensure ((0 <=? column) && (column <? 264) && (0 <=? scanline p) && (scanline p <? 248));
    _ ← modify (fun s => {| s with ppu_screen_background := <[(column, scanline p) := color]> (ppu_screen_background s) |});
    draw (column - PPUSCROLL_X p + (if mirror then 256 else 0)) (scanline p + 1) idx.

Definition bg_tile (mirror : bool) (tile_x : Z) : nesM () :=
  p ← gets ppu;
  if 256 <? Z.shiftl tile_x 3 - PPUSCROLL_X p + (if mirror then 256 else 0) then mret ()
  else
    let tile_y := Z.shiftr (scanline p) 3 in
    tile_index ← ppu_ram_read (ppu_base_nametable_address p + tile_x + Z.shiftl tile_y 5 + (if mirror then 0x400 else 0));
    let tile_address := word (ppu_background_pattern_table_address p + 16 * tile_index) in
    let y_in_tile := Z.land (scanline p) 0x7 in
    l ← ppu_ram_read (tile_address + y_in_tile);
    h ← ppu_ram_read (tile_address + y_in_tile + 8);
    for_each (zseq 0 8) (bg_pixel mirror tile_x l h).

Definition ppu_draw_background_scanline (mirror : bool) : nesM () :=
  p ← gets ppu;
  let first := if ppu_shows_background_in_leftmost_8px p then 0 else 1 in
  for_each (zseq first (32 - first)) (bg_tile mirror).

(** ** Sprites *)

Definition spr (n : Z) : nesM Z := gets (fun s => aget (PPU_SPRRAM s) n).

Definition sprite_pixel (n sprite_x sprite_y y_in_tile palette_address l h : Z) (hflip : bool) (x : Z) : nesM () :=
  p ← gets ppu;
  color ← gets (fun s => if hflip then ppu_l_h_addition_flip_table s l h x else ppu_l_h_addition_table s l h x);
  if color =? 0 then mret ()
  else
    let screen_x := sprite_x + x in
    idx ← ppu_ram_read (palette_address + color);
    _ ← draw screen_x (sprite_y + y_in_tile + 1) idx;
    hit ← gets ppu_sprite_hit_occured;
    if ppu_shows_background p && negb hit && (n =? 0) then
      let row := sprite_y + y_in_tile in
      _ ← nes_ensure ((0 <=? screen_x) && (screen_x <? 264) && (0 <=? row) && (row <? 248));
      bg ← gets (fun s => default 0 (ppu_screen_background s !! (screen_x, row)));
      if bg =? color then
        modify (fun s => {| s with ppu := ppu_set_sprite_0_hit true (ppu s); ppu_sprite_hit_occured := true |})
      else mret ()
    else mret ().

(** One sprite; the argument and result count the sprites of the line. *)
Definition sprite (n count : Z) : nesM Z :=
  p ← gets ppu;
  sprite_x ← spr (n + 3); sprite_y ← spr n;
  if (scanline p <? sprite_y) || (sprite_y + ppu_sprite_height p <? scanline p) then mret count
  else
    let count := count + 1 in
    _ ← (if 8 <? count then modify (fun s => {| s with ppu := ppu_set_sprite_overflow true (ppu s) |}) else mret ());
    attributes ← spr (n + 2); tile ← spr (n + 1);
    let vflip := negb (Z.land attributes 0x80 =? 0) in
    let hflip := negb (Z.land attributes 0x40 =? 0) in
    let tile_address := word (ppu_sprite_pattern_table_address p + 16 * tile) in
    let y_in_tile := Z.land (scanline p) 0x7 in
    let row := if vflip then 7 - y_in_tile else y_in_tile in
    l ← ppu_ram_read (tile_address + row);
    h ← ppu_ram_read (tile_address + row + 8);
    let palette_attribute := Z.land attributes 0x3 in
    let palette_address := word (0x3F10 + Z.shiftl palette_attribute 2) in
    _ ← for_each (zseq 0 8) (sprite_pixel n sprite_x sprite_y y_in_tile palette_address l h hflip);
    mret count.

Fixpoint sprites (ns : list Z) (count : Z) : nesM () :=
  match ns with
  | [] => mret ()
  | n :: ns => count ← sprite n count; sprites ns count
  end.

Definition ppu_draw_sprite_scanline : nesM () := sprites (map (fun i => 4 * i) (zseq 0 64)) 0.

(** ** A frame *)

Section Frame.
(** The size of the screen, as [AM_GPU_CONFIG] reports it, and fuel for
    [cpu_run], which [cpu_run_returns] bounds. *)
Context (width height : Z) (fuel : nat).

Definition run_cpu (cycles : Z) : nesM () :=
  r ← cpu_run fuel cycles; match r with Some _ => mret () | None => lift (Err Undefined) end.

Definition fce_update_screen : nesM () :=
  _ ← modify (fun s => {| s with frame_cnt := frame_cnt s + 1 |});
  ok ← gets candraw;
  if negb ok then mret ()
  else
    idx ← ppu_ram_read 0x3F00;
    _ ← nes_ensure (in_range palette idx);
    let bgc := arr palette idx in
    let xpad := Z.quot (width - SCR_W) 2 in
    let ypad := Z.quot (height - SCR_H) 2 in
    _ ← lift (ensure Assertion (negb ((xpad <? 0) || (ypad <? 0))));
    modify (fun s => {| s with frames := (xpad, ypad, canvas s) :: frames s;
                               canvas := fun i => if (0 <=? i) && (i <? SCR_W * SCR_H) then bgc else canvas s i |}).

Definition ppu_cycle : nesM () :=
  _ ← modify (fun s => if negb (ppu_ready (ppu s)) && (29658 <? cpu_cycles s)
                       then let p := ppu s in {| s with ppu := {| p with ppu_ready := true |} |} else s);
  _ ← run_cpu 256;
  _ ← modify (fun s => let p := ppu s in {| s with ppu := {| p with scanline := scanline p + 1 |} |});
  p ← gets ppu;
  _ ← (if (scanline p <? SCR_H) && ppu_shows_background p
       then _ ← ppu_draw_background_scanline false; ppu_draw_background_scanline true else mret ());
  _ ← run_cpu (85 - 16);
  p ← gets ppu;
  _ ← (if (scanline p <? SCR_H) && ppu_shows_sprites p then ppu_draw_sprite_scanline else mret ());
  _ ← run_cpu 16;
  p ← gets ppu;
  if scanline p =? 241 then
    _ ← set_ppu (ppu_set_sprite_0_hit false (ppu_set_in_vblank true p)); cpu_interrupt
  else if scanline p =? 262 then
    let p := ppu_set_in_vblank false p in
    _ ← modify (fun s => {| s with ppu := {| p with scanline := -1 |}; ppu_sprite_hit_occured := false |});
    fce_update_screen
  else mret ().

(** [while (cycles-- > 0) ppu_cycle()] *)
Fixpoint ppu_run (cycles : nat) : nesM () :=
  match cycles with
  | O => mret ()
  | S cycles => _ ← ppu_cycle; ppu_run cycles
  end.

(** The scan lines of one round of [fce_run]. *)
Fixpoint fce_scanlines (n : nat) : nesM () :=
  match n with
  | O => mret ()
  | S n => _ ← ppu_cycle; _ ← psg_detect_key; fce_scanlines n
  end.

Definition fce_frame : nesM () := fce_scanlines 262.
End Frame.

(** ** Loading and starting *)

(** [n] bytes of the ROM from [i] on; reading past its end is undefined. *)
Definition rom_bytes (rom : list Z) (i n : Z) : nesM (list Z) :=
  _ ← nes_ensure ((0 <=? i) && (i + n <=? Z.of_nat (length rom)));
  mret (take (Z.to_nat n) (drop (Z.to_nat i) rom)).

Fixpoint load_chr (rom : list Z) (i blocks : nat) (buf : Z) : nesM () :=
  match blocks with
  | O => mret ()
  | S blocks =>
      blk ← rom_bytes rom buf 0x2000;
      _ ← mmc_append_chr_rom_page blk;
      _ ← (if (i =? 0)%nat then ppu_copy 0 blk else mret ());
      load_chr rom (S i) blocks (buf + 0x2000)
  end.

Definition fce_load_rom (rom : list Z) : nesM Z :=
  header ← rom_bytes rom 0 16;
  let type := arr header 6 + 256 * arr header 7 in
  _ ← modify (fun s => {| s with rom_type := type |});
  if bool_decide (take 4 header = [0x4E; 0x45; 0x53; 0x1A]) then
    let prg := arr header 4 in
    let chr := arr header 5 in
    let id := Z.shiftr (Z.land type 0xF0) 4 in
    _ ← modify (fun s => {| s with mmc_id := id |});
    let prg_size := prg * 0x4000 in
    if (id =? 0) || (id =? 3) then
      _ ← (if prg =? 1 then
             blk ← rom_bytes rom 16 0x4000; _ ← mmc_copy 0x8000 blk; mmc_copy 0xC000 blk
           else blk ← rom_bytes rom 16 0x8000; mmc_copy 0x8000 blk);
      _ ← load_chr rom 0 (Z.to_nat chr) (16 + prg_size);
      mret 0
    else mret (-1)
  else mret (-1).

Definition fce_init : nesM () :=
  _ ← cpu_init; _ ← ppu_init; t ← gets rom_type; _ ← ppu_set_mirroring (Z.land t 1); cpu_reset.
