(* ===== verification/NesScroll.v ===== *)
(** * LiteNES: what a scan line shows

    The renderer walks over tiles and pixels, twice, with masks and shifts.  The
    reference here is the picture: the two name tables side by side are a world
    512 pixels wide, and the screen is a window into it at the scroll position. *)

From S2P Require Import Prelude Word Ftrace Kstdlib Am Nes NesCpu NesSafe NesAlu NesStack NesRender.

(** ** The picture *)

Section Picture.
Context (p : PPU_STATE) (ram : array).

Definition vram (a : Z) : Z := aget ram (ppu_get_real_ram_address a).

(** Column [c] of the world, at the line of the PPU. *)
Definition name_table (c : Z) : Z := ppu_base_nametable_address p + 0x400 * (c / 256).

Definition tile_at (c : Z) : Z := vram (name_table c + (c mod 256) / 8 + 32 * (scanline p / 8)).

Definition pattern_address (c : Z) : Z :=
  ppu_background_pattern_table_address p + 16 * tile_at c + scanline p mod 8.

(** The two bits of the pixel: 0 is transparent. *)
Definition color_at (c : Z) : Z :=
  let bit := 7 - c mod 8 in
  2 * Z.b2z (Z.testbit (vram (pattern_address c + 8)) bit) + Z.b2z (Z.testbit (vram (pattern_address c)) bit).

(** The attribute byte of the pixel's block of 32 by 32, and its quarter. *)
Definition attribute_at (c : Z) : Z :=
  let a := vram (name_table c + 0x3C0 + (c mod 256) / 32 + 8 * (scanline p / 32)) in
  (a / 2 ^ (2 * ((c mod 256) / 16 mod 2) + 4 * (scanline p / 16 mod 2))) mod 4.

Definition index_at (c : Z) : Z := vram (0x3F00 + 4 * attribute_at c + color_at c).

(** The first tile of a name table is left out unless the mask shows it. *)
Definition shown_at (c : Z) : bool := ppu_shows_background_in_leftmost_8px p || (8 <=? c mod 256).
End Picture.

(** What the renderer reads and does not change. *)
Definition view (s : Nes) : PPU_STATE * array * (Z -> Z -> Z -> Z) * Z :=
  (ppu s, PPU_RAM s, ppu_l_h_addition_table s, frame_cnt s).

(** Column [c] goes to the screen, or not. *)
Definition put_column (s : Nes) (c : Z) (cv : Z -> Z) : Z -> Z :=
  let x := c - PPUSCROLL_X (ppu s) in
  if negb (color_at (ppu s) (PPU_RAM s) c =? 0) && (0 <=? x) && (x <? SCR_W)
  then fn_upd cv ((scanline (ppu s) + 1) * SCR_W + x) (arr palette (index_at (ppu s) (PPU_RAM s) c))
  else cv.

Lemma put_column_view s s' c : view s' = view s -> put_column s' c = put_column s c.
Proof. intros [= E1 E2 _ _]. unfold put_column. by rewrite E1, E2. Qed.

(** A state in which a line can be drawn. *)
Record drawable (s : Nes) : Prop := {
  dr_ppu : ppu_wf (ppu s);
  dr_ram : bytes (PPU_RAM s);
  dr_line : 0 <= scanline (ppu s) < SCR_H - 1;
  dr_tables : ppu_l_h_addition_table s = l_h_addition;
  dr_frame : candraw s = true;
  dr_palette i : 0x3F00 <= i < 0x3F20 -> aget (PPU_RAM s) i < 64 }.

Lemma drawable_view s s' : view s' = view s -> drawable s -> drawable s'.
Proof.
  intros [= E1 E2 E3 E4] []. constructor; rewrite ?E1, ?E2, ?E3; try done.
  unfold candraw in *. by rewrite E4.
Qed.

(** ** Addresses *)

Lemma ensure_bind {A} (b : bool) (k : () -> nesM A) s : b = true -> (nes_ensure b ≫= k) s = k () s.
Proof. by intros ->. Qed.

Lemma ram_read_run a s : 0 <= a < 0x4000 -> ppu_ram_read a s = Ok (vram (PPU_RAM s) a, s).
Proof.
  intros Ha. pose proof (real_address_range a Ha). unfold ppu_ram_read. rewrite word_id by lia.
  by rewrite ensure_bind by lia.
Qed.

Lemma ram_bind {A} a (k : Z -> nesM A) s : 0 <= a < 0x4000 -> (ppu_ram_read a ≫= k) s = k (vram (PPU_RAM s) a) s.
Proof. intros Ha. apply nes_bind, ram_read_run, Ha. Qed.

Lemma vram_byte s a : bytes (PPU_RAM s) -> is_byte (vram (PPU_RAM s) a).
Proof. intros H. apply H. Qed.

Lemma nametable_bounds p : 0x2000 <= ppu_base_nametable_address p <= 0x2C00.
Proof.
  unfold ppu_base_nametable_address. pose proof (land_bound (PPUCTRL p) 2 ltac:(lia)) as H. change (Z.ones 2) with 3 in H.
  assert (Z.land (PPUCTRL p) 3 = 0 \/ Z.land (PPUCTRL p) 3 = 1 \/ Z.land (PPUCTRL p) 3 = 2 \/ Z.land (PPUCTRL p) 3 = 3) as E by lia.
  destruct E as [-> | [-> | [-> | ->]]]; by vm_compute.
Qed.

(** ** One pixel *)

(** The column of pixel [x] of tile [t]. *)
Definition column (mirror : bool) (t x : Z) : Z := (if mirror then 256 else 0) + 8 * t + x.

Record column_facts (mirror : bool) (t x : Z) : Prop := {
  col_table : column mirror t x / 256 = Z.b2z mirror;
  col_mod : column mirror t x mod 256 = 8 * t + x;
  col_bit : column mirror t x mod 8 = x;
  col_tile : (8 * t + x) / 8 = t;
  col_block : (8 * t + x) / 32 = t / 4;
  col_half : (8 * t + x) / 16 mod 2 = if t mod 4 <? 2 then 0 else 1 }.

Lemma column_of mirror t x : 0 <= t < 32 -> 0 <= x < 8 -> column_facts mirror t x.
Proof.
  intros Ht Hx. constructor; unfold column; destruct mirror; cbn -[Z.mul Z.add Z.div Z.modulo];
    try destruct (Z.ltb_spec (t mod 4) 2); Z.div_mod_to_equations; lia.
Qed.

Lemma low_bit a n : 0 <= n -> Z.land (Z.shiftr a n) 1 = Z.b2z (Z.testbit a n).
Proof.
  intros Hn. rewrite Z.testbit_spec', Z.shiftr_div_pow2 by done. change 1 with (Z.ones 1) at 1.
  by rewrite Z.land_ones by lia.
Qed.

Lemma l_h_color l h x : 0 <= x < 8 ->
  l_h_addition l h x = 2 * Z.b2z (Z.testbit h (7 - x)) + Z.b2z (Z.testbit l (7 - x)).
Proof.
  intros Hx. unfold l_h_addition. rewrite !low_bit by lia.
  by destruct (Z.testbit h (7 - x)), (Z.testbit l (7 - x)).
Qed.

Lemma draw_run x y idx s : candraw s = true -> 0 <= idx < 64 -> 0 <= y < SCR_H ->
  exists s', draw x y idx s = Ok ((), s') /\ view s' = view s /\
    canvas s' = if (0 <=? x) && (x <? SCR_W) then fn_upd (canvas s) (y * SCR_W + x) (arr palette idx) else canvas s.
Proof.
  intros Hd Hi Hy. unfold draw. rewrite (nes_bind _ _ s true s) by (unfold gets; by rewrite Hd).
  replace (0 <=? y) with true by lia. replace (y <? SCR_H) with true by lia. rewrite !andb_true_r.
  case_if; [| by exists s].
  eexists. split; [rewrite ensure_bind; [reflexivity |] | done]. unfold in_range. change (Z.of_nat (length palette)) with 64. lia.
Qed.

(** Code that leaves the picture alone and does [f] to the canvas. *)
Definition draws (s : Nes) (m : nesM ()) (f : (Z -> Z) -> Z -> Z) : Prop :=
  exists s', m s = Ok ((), s') /\ view s' = view s /\ canvas s' = f (canvas s).

Section Pixel.
Context (s : Nes) (Hs : drawable s) (mirror : bool) (t x : Z) (Ht : 0 <= t < 32) (Hx : 0 <= x < 8).
Let p := ppu s.
Let c := column mirror t x.
Let pic := PPU_RAM s.

Lemma color_column : l_h_addition (vram pic (pattern_address p pic c)) (vram pic (pattern_address p pic c + 8)) x =
  color_at p pic c.
Proof. rewrite l_h_color by done. unfold color_at. destruct (column_of mirror t x Ht Hx). fold c in col_bit0. by rewrite col_bit0. Qed.

Lemma attribute_address_ok :
  word (ppu_base_nametable_address p + (if mirror then 0x400 else 0) + 0x3C0 + Z.shiftr t 2 + Z.shiftr (scanline p) 5 * 8) =
  name_table p c + 0x3C0 + (c mod 256) / 32 + 8 * (scanline p / 32) /\
  0 <= name_table p c + 0x3C0 + (c mod 256) / 32 + 8 * (scanline p / 32) < 0x3F00.
Proof.
  pose proof (nametable_bounds p). pose proof (dr_line _ Hs) as Hl. fold p in Hl. unfold SCR_H in Hl.
  destruct (column_of mirror t x Ht Hx). fold c in col_table0, col_mod0.
  unfold name_table. rewrite col_table0, col_mod0, col_block0, !Z.shiftr_div_pow2 by lia.
  change (2 ^ 2) with 4. change (2 ^ 5) with 32.
  assert (0 <= t / 4 < 8) by (Z.div_mod_to_equations; lia). assert (0 <= scanline p / 32 < 8) by (Z.div_mod_to_equations; lia).
  split; [| destruct mirror; cbn [Z.b2z]; lia]. rewrite word_id; destruct mirror; cbn [Z.b2z]; lia.
Qed.

Lemma attribute_bits_ok a : 0 <= a ->
  let a1 := if Z.rem (scanline p) 32 <? 16 then a else Z.shiftr a 4 in
  let a2 := if Z.rem t 4 <? 2 then a1 else Z.shiftr a1 2 in
  Z.land a2 3 = (a / 2 ^ (2 * ((c mod 256) / 16 mod 2) + 4 * (scanline p / 16 mod 2))) mod 4.
Proof.
  intros Ha a1 a2. pose proof (dr_line _ Hs) as Hl. fold p in Hl.
  destruct (column_of mirror t x Ht Hx). fold c in col_mod0. rewrite col_mod0, col_half0.
  change 3 with (Z.ones 2). rewrite Z.land_ones by lia. change (2 ^ 2) with 4. f_equal.
  unfold a2, a1. rewrite !Z.rem_mod_nonneg by lia.
  assert (Hy : scanline p / 16 mod 2 = if scanline p mod 32 <? 16 then 0 else 1).
  { destruct (Z.ltb_spec (scanline p mod 32) 16); Z.div_mod_to_equations; lia. }
  rewrite Hy. destruct (t mod 4 <? 2), (scanline p mod 32 <? 16); rewrite ?Z.shiftr_div_pow2 by lia; cbn [Z.mul Z.add];
    rewrite ?Z.div_1_r; try done. rewrite Z.div_div by lia. done.
Qed.

Lemma palette_entry a k : 0 <= a < 4 -> 0 <= k < 4 ->
  ppu_get_real_ram_address (0x3F00 + 4 * a + k) = 0x3F00 + 4 * a + k.
Proof.
  intros Ha Hk. assert (a = 0 \/ a = 1 \/ a = 2 \/ a = 3) as Ea by lia.
  assert (k = 0 \/ k = 1 \/ k = 2 \/ k = 3) as Ek by lia.
  destruct Ea as [-> | [-> | [-> | ->]]], Ek as [-> | [-> | [-> | ->]]]; reflexivity.
Qed.

Lemma color_range : 0 <= color_at p pic c < 4.
Proof. unfold color_at. destruct (Z.testbit _ _), (Z.testbit _ _); cbn; lia. Qed.

Lemma attribute_range : 0 <= attribute_at p pic c < 4.
Proof. apply Z.mod_pos_bound. lia. Qed.

Lemma index_range : 0 <= index_at p pic c < 64.
Proof.
  pose proof color_range. pose proof attribute_range. unfold index_at, vram. rewrite palette_entry by done. split.
  - apply (dr_ram _ Hs).
  - apply (dr_palette _ Hs). lia.
Qed.

(** A pixel of a tile is one column of the picture. *)
Lemma bg_pixel_run :
  draws s (bg_pixel mirror t (vram pic (pattern_address p pic c)) (vram pic (pattern_address p pic c + 8)) x) (put_column s c).
Proof.
  unfold draws, bg_pixel. pose proof color_range. pose proof attribute_range. pose proof index_range.
  pose proof (dr_line _ Hs) as Hl. fold p in Hl. unfold SCR_H in Hl.
  rewrite (nes_bind _ _ s (ppu s) s), (nes_bind _ _ s (color_at p pic c) s) by
    (unfold gets; rewrite ?(dr_tables _ Hs), ?color_column; done).
  unfold put_column. fold p pic. destruct (color_at p pic c =? 0) eqn:Ec; cbn [negb andb]; [by exists s |].
  destruct attribute_address_ok as [-> Hr].
  rewrite ram_bind by lia. fold pic.
  rewrite attribute_bits_ok by apply (vram_byte s), (dr_ram _ Hs). fold (attribute_at p pic c).
  rewrite (Z.shiftl_mul_pow2 _ 2), (Z.mul_comm _ (2 ^ 2)) by lia. change (2 ^ 2) with 4.
  rewrite (word_id (0x3F00 + 4 * attribute_at p pic c)) by lia.
  rewrite ram_bind by lia. fold pic. fold (index_at p pic c).
  rewrite Z.shiftl_mul_pow2 by lia. change (2 ^ 3) with 8.
  rewrite ensure_bind by lia.
  rewrite (nes_bind _ _ s () _ eq_refl).
  edestruct draw_run as (s' & -> & Hv & Hc); [apply (dr_frame _ Hs) | exact index_range | | exists s'; split; [done |]].
  { fold p. unfold SCR_H. lia. }
  split; [exact Hv |]. rewrite Hc. fold p. unfold c, column. cbn [canvas].
  replace (t * 8 + x - PPUSCROLL_X p + _) with ((if mirror then 256 else 0) + 8 * t + x - PPUSCROLL_X p) by (destruct mirror; lia).
  done.
Qed.
End Pixel.

(** ** Loops *)

Definition puts (s : Nes) (cols : list Z) (cv : Z -> Z) : Z -> Z := fold_left (fun cv c => put_column s c cv) cols cv.

Lemma puts_app s l1 l2 cv : puts s (l1 ++ l2) cv = puts s l2 (puts s l1 cv).
Proof. apply fold_left_app. Qed.

Lemma puts_view s s' cols cv : view s' = view s -> puts s' cols cv = puts s cols cv.
Proof.
  intros Hv. revert cv. induction cols as [| c cols IH]; intros cv; [done |]. cbn. rewrite (put_column_view s s') by done. apply IH.
Qed.

Lemma draws_seq s m1 m2 l1 l2 : draws s m1 (puts s l1) ->
  (forall s1, view s1 = view s -> draws s1 m2 (puts s1 l2)) -> draws s (_ ← m1; m2) (puts s (l1 ++ l2)).
Proof.
  intros (s1 & E1 & V1 & C1) H2. destruct (H2 s1 V1) as (s2 & E2 & V2 & C2). exists s2. split_and!.
  - by rewrite (nes_bind _ _ s () s1).
  - by rewrite V2.
  - by rewrite C2, C1, puts_app, (puts_view s s1).
Qed.

Lemma map_map_flat {A B} (f : A -> B) l : map f l = flat_map (fun x => [f x]) l.
Proof. induction l as [| x l IH]; [done |]. cbn. by rewrite IH. Qed.

(** A loop whose rounds put columns puts them all. *)
Lemma draws_for (cols : Z -> list Z) body l : forall s,
  (forall z s1, z ∈ l -> view s1 = view s -> draws s1 (body z) (puts s1 (cols z))) ->
  draws s (for_each l body) (puts s (flat_map cols l)).
Proof.
  induction l as [| z l IH]; intros s H; cbn [for_each flat_map]; [by exists s |].
  apply draws_seq; [apply H; [set_solver | done] |]. intros s1 V1. apply IH. intros y s2 Hy V2.
  apply H; [set_solver | by rewrite V2].
Qed.

(** Columns to the right of the screen are not put. *)
Lemma puts_right s cols cv : Forall (fun c => SCR_W <= c - PPUSCROLL_X (ppu s)) cols -> puts s cols cv = cv.
Proof.
  induction 1 as [| c cols Hc _ IH]; [done |]. cbn. fold (puts s cols). unfold put_column.
  replace (_ <? SCR_W) with false by lia. by rewrite andb_false_r.
Qed.

Definition tile_columns (mirror : bool) (t : Z) : list Z := map (column mirror t) (zseq 0 8).

Lemma elem_zseq i n z : 0 <= n -> z ∈ zseq i n <-> i <= z < i + n.
Proof. intros Hn. unfold zseq. rewrite elem_of_seqZ_from. lia. Qed.

(** The addresses the tile loop computes are those of its columns. *)
Lemma tile_column p ram mirror t x : 0 <= t < 32 -> 0 <= x < 8 -> tile_at p ram (column mirror t x) =
  vram ram (ppu_base_nametable_address p + t + scanline p / 8 * 32 + (if mirror then 0x400 else 0)).
Proof.
  intros Ht Hx. unfold tile_at, name_table. destruct (column_of mirror t x Ht Hx). rewrite col_table0, col_mod0, col_tile0.
  f_equal. destruct mirror; cbn [Z.b2z]; lia.
Qed.

Lemma pattern_bounds p ram c : bytes ram -> 0 <= ppu_background_pattern_table_address p + 16 * tile_at p ram c < 0x2000.
Proof.
  intros Hb. pose proof (Hb (ppu_get_real_ram_address (name_table p c + c mod 256 / 8 + 32 * (scanline p / 8)))) as Hi.
  unfold is_byte in Hi. unfold tile_at, vram, ppu_background_pattern_table_address. case_match; lia.
Qed.

Lemma bg_tile_run s mirror t : drawable s -> 0 <= t < 32 ->
  draws s (bg_tile mirror t) (puts s (tile_columns mirror t)).
Proof.
  intros Hs Ht. pose proof (dr_line _ Hs) as Hl. unfold SCR_H in Hl. pose proof (nametable_bounds (ppu s)) as Hn.
  unfold bg_tile, draws. rewrite (nes_bind _ _ s (ppu s) s), !Z.shiftl_mul_pow2, Z.shiftr_div_pow2 by done || lia.
  destruct (Z.ltb_spec 256 (t * 2 ^ 3 - PPUSCROLL_X (ppu s) + (if mirror then 256 else 0))) as [Hr | Hr].
  { exists s. split_and!; [done | done |]. rewrite puts_right; [done |]. apply List.Forall_map, Forall_forall.
    intros x Hx%elem_zseq; [| lia]. unfold column, SCR_W. destruct mirror; lia. }
  change (2 ^ 3) with 8. change (2 ^ 5) with 32.
  assert (0 <= scanline (ppu s) / 8 < 30) by (Z.div_mod_to_equations; lia).
  rewrite ram_bind, <- (tile_column _ _ mirror t 0) by (destruct mirror; lia).
  pose proof (pattern_bounds (ppu s) (PPU_RAM s) (column mirror t 0) (dr_ram _ Hs)).
  change 7 with (Z.ones 3). rewrite Z.land_ones by lia. change (2 ^ 3) with 8.
  pose proof (Z.mod_pos_bound (scanline (ppu s)) 8 ltac:(lia)).
  rewrite word_id by lia. rewrite !ram_bind by lia. fold (pattern_address (ppu s) (PPU_RAM s) (column mirror t 0)).
  unfold tile_columns. rewrite map_map_flat. apply draws_for. intros x s1 Hx%elem_zseq V1; [| lia].
  assert (Hp : pattern_address (ppu s) (PPU_RAM s) (column mirror t 0) = pattern_address (ppu s1) (PPU_RAM s1) (column mirror t x)).
  { injection V1 as -> -> _ _. unfold pattern_address. by rewrite !tile_column by lia. }
  rewrite Hp. replace (PPU_RAM s) with (PPU_RAM s1) by (by injection V1).
  apply (bg_pixel_run s1 (drawable_view _ _ V1 Hs) mirror t x Ht ltac:(lia)).
Qed.

Definition line_columns (p : PPU_STATE) (mirror : bool) : list Z :=
  let first := if ppu_shows_background_in_leftmost_8px p then 0 else 1 in
  flat_map (tile_columns mirror) (zseq first (32 - first)).

Lemma background_run s mirror : drawable s ->
  draws s (ppu_draw_background_scanline mirror) (puts s (line_columns (ppu s) mirror)).
Proof.
  intros Hs. unfold ppu_draw_background_scanline, draws. rewrite (nes_bind _ _ s (ppu s) s) by done.
  apply draws_for. intros t s1 Ht V1. apply bg_tile_run; [by apply (drawable_view s) |].
  destruct (ppu_shows_background_in_leftmost_8px (ppu s)); apply elem_zseq in Ht; lia.
Qed.

(** Both passes cover the world, but for the tiles the mask leaves out. *)
Lemma line_columns_elem p c : 0 <= c < 512 ->
  c ∈ line_columns p false ++ line_columns p true <-> shown_at p c = true.
Proof.
  intros Hc. unfold shown_at.
  assert (E : forall m, c ∈ line_columns p m <->
    c / 256 = Z.b2z m /\ ppu_shows_background_in_leftmost_8px p || (8 <=? c mod 256) = true).
  { intros m. unfold line_columns, tile_columns. rewrite list_elem_of_In, in_flat_map. split.
    - intros (t & Ht & (x & <- & Hx)%in_map_iff). apply list_elem_of_In, elem_zseq in Hx; [| lia].
      apply list_elem_of_In in Ht.
      assert (Hr : 0 <= t < 32 /\ (ppu_shows_background_in_leftmost_8px p = true \/ 1 <= t)).
      { destruct (ppu_shows_background_in_leftmost_8px p); apply elem_zseq in Ht; lia. }
      destruct Hr as [Hr Hf], (column_of m t x Hr ltac:(lia)). rewrite col_table0, col_mod0.
      split; [done |]. destruct Hf as [-> | Hf]; [done |]. apply orb_true_iff. right. lia.
    - intros [Ec Es]. exists (c mod 256 / 8). rewrite <- list_elem_of_In, in_map_iff. split.
      + destruct (ppu_shows_background_in_leftmost_8px p); cbn [orb] in Es; apply elem_zseq; try lia; Z.div_mod_to_equations; lia.
      + exists (c mod 8). rewrite <- list_elem_of_In, elem_zseq by lia. unfold column.
        destruct m; cbn [Z.b2z] in Ec; Z.div_mod_to_equations; lia. }
  rewrite elem_of_app, !E. cbn [Z.b2z]. assert (c / 256 = 0 \/ c / 256 = 1) by (Z.div_mod_to_equations; lia). tauto.
Qed.

(** What the columns leave at a pixel of the line, and elsewhere. *)
Lemma puts_at s cols cv x : 0 <= x < SCR_W ->
  puts s cols cv ((scanline (ppu s) + 1) * SCR_W + x) =
  if bool_decide (x + PPUSCROLL_X (ppu s) ∈ cols) && negb (color_at (ppu s) (PPU_RAM s) (x + PPUSCROLL_X (ppu s)) =? 0)
  then arr palette (index_at (ppu s) (PPU_RAM s) (x + PPUSCROLL_X (ppu s)))
  else cv ((scanline (ppu s) + 1) * SCR_W + x).
Proof.
  intros Hx. revert cv. induction cols as [| c cols IH]; intros cv; [done |].
  change (puts s (c :: cols) cv) with (puts s cols (put_column s c cv)). rewrite IH. set (d := x + PPUSCROLL_X (ppu s)).
  destruct (decide (c = d)) as [-> | Hne].
  - rewrite (bool_decide_true (d ∈ d :: cols)) by (apply elem_of_cons; by left). unfold put_column.
    replace (d - PPUSCROLL_X (ppu s)) with x by (unfold d; lia).
    replace (0 <=? x) with true by lia. replace (x <? SCR_W) with true by lia. rewrite !andb_true_r.
    destruct (negb _), (bool_decide _); cbn [andb]; try done. unfold fn_upd. by rewrite Z.eqb_refl.
  - rewrite (bool_decide_ext (d ∈ c :: cols) (d ∈ cols)) by (rewrite elem_of_cons; intuition congruence).
    destruct (bool_decide _ && _); [done |]. unfold put_column. destruct (negb _ && _ && _) eqn:Ep; [| done].
    unfold fn_upd. by rewrite (proj2 (Z.eqb_neq _ _)) by lia.
Qed.

Lemma puts_elsewhere s cols cv q : q / SCR_W <> scanline (ppu s) + 1 -> puts s cols cv q = cv q.
Proof.
  intros Hq. revert cv. induction cols as [| c cols IH]; intros cv; [done |].
  change (puts s (c :: cols) cv) with (puts s cols (put_column s c cv)). rewrite IH. unfold put_column. destruct (negb _ && _ && _) eqn:Ep; [| done].
  unfold fn_upd. rewrite (proj2 (Z.eqb_neq _ _)); [done |]. unfold SCR_W in *. Z.div_mod_to_equations. lia.
Qed.

(** C28. The scrolling background.  The renderer's two passes, tile by tile and
    pixel by pixel, draw one window: pixel [x] of the line below the scan line
    shows column [x + PPUSCROLL_X] of the two name tables laid side by side, in
    the colour that the pattern of its tile and the quarter of its attribute
    block select from the palette.  A transparent pixel, or one in a first tile
    that the mask hides, keeps what was there, and so does every other line. *)
Theorem scanline_scrolls s : drawable s ->
  exists s', (_ ← ppu_draw_background_scanline false; ppu_draw_background_scanline true) s = Ok ((), s') /\
    (forall x, 0 <= x < SCR_W ->
      let c := x + PPUSCROLL_X (ppu s) in let at_x := (scanline (ppu s) + 1) * SCR_W + x in
      canvas s' at_x = if shown_at (ppu s) c && negb (color_at (ppu s) (PPU_RAM s) c =? 0)
                       then arr palette (index_at (ppu s) (PPU_RAM s) c) else canvas s at_x) /\
    (forall q, q / SCR_W <> scanline (ppu s) + 1 -> canvas s' q = canvas s q).
Proof.
  intros Hs. destruct (draws_seq s (ppu_draw_background_scanline false) (ppu_draw_background_scanline true)
    (line_columns (ppu s) false) (line_columns (ppu s) true)) as (s' & E & _ & C).
  - by apply background_run.
  - intros s1 V1. replace (ppu s) with (ppu s1) by (by injection V1). by apply background_run, (drawable_view s).
  - exists s'. split_and!; [done | |].
    + intros x Hx c at_x. rewrite C. unfold at_x. rewrite puts_at by done. fold c.
      pose proof (wf_SX _ (dr_ppu _ Hs)) as Hb. unfold is_byte in Hb. unfold SCR_W in Hx.
      replace (bool_decide _) with (shown_at (ppu s) c); [done |]. apply eq_true_iff_eq.
      rewrite bool_decide_eq_true, line_columns_elem; [done |]. unfold c. lia.
    + intros q Hq. rewrite C. by apply puts_elsewhere.
Qed.

(** The first tile of the second name table, scrolled in by four pixels. *)
Lemma scanline_scrolls_witness :
  let p := ppu_zero in let s0 := nes_zero [] in
  let s := {| s0 with ppu := {| p with PPUMASK := 0x0A; PPUSCROLL_X := 4 |};
                      PPU_RAM := aset (aset (aset ∅ 0x2400 1) 0x10 0x80) 0x3F01 0x16;
                      ppu_l_h_addition_table := l_h_addition |} in
  exists s', (_ ← ppu_draw_background_scanline false; ppu_draw_background_scanline true) s = Ok ((), s') /\
    canvas s' (256 + 252) = 0xFF371A /\ canvas s' (256 + 253) = 0.
Proof.
  intros p s0 s. assert (H252 : 0 <= 252 < SCR_W) by done. assert (H253 : 0 <= 253 < SCR_W) by done.
  destruct (scanline_scrolls s) as (s' & E & Hx & _).
  - constructor; try done.
    + destruct (wf_ppu _ (nes_zero_wf [])). by constructor; cbn; unfold is_byte.
    + cbn. repeat (apply bytes_aset; [| by unfold is_byte]). apply bytes_empty.
    + intros i Hi. cbn. unfold aget, aset. destruct (decide (i = 0x3F01)) as [-> | Hne].
      * by rewrite lookup_insert_eq.
      * by rewrite !lookup_insert_ne, lookup_empty by lia.
  - exists s'. split_and!; [exact E | |].
    + specialize (Hx 252 H252). vm_compute in Hx. exact Hx.
    + specialize (Hx 253 H253). vm_compute in Hx. exact Hx.
Defined.
