(* ===== verification/NesPort.v ===== *)
(** * LiteNES: the ports (litenes/src/psg.c, ppu.c, memory.c)

    What the game sees of the joystick and of the video memory: bytes it writes
    to and reads from fixed addresses of the CPU's memory. *)

From S2P Require Import Prelude Word Ftrace Kstdlib Am Nes NesCpu NesSafe NesAlu NesStack NesRender NesScroll.

(** ** The joystick *)

(** The state a button is left in by the events, the last one deciding. *)
Definition held (keys : array) (evs : list (Z * bool)) (k : Z) : Z :=
  foldl (fun v (ev : Z * bool) => if ev.1 =? k then Z.b2z ev.2 else v) (aget keys k) evs.

(** A poll as games write it: raise and lower the strobe, then read. *)
Fixpoint reads (n : nat) (address : Z) : nesM (list Z) :=
  match n with
  | O => mret []
  | S n => v ← memory_readb address; vs ← reads n address; mret (v :: vs)
  end.

Definition strobe : nesM () := _ ← memory_writeb 0x4016 1; memory_writeb 0x4016 0.

Lemma held_next keys code down evs k :
  held keys ((code, down) :: evs) k = held (aset keys code (Z.b2z down)) evs k.
Proof.
  unfold held. cbn [foldl fst snd]. f_equal. unfold aget, aset.
  destruct (Z.eqb_spec code k) as [-> | Hne]; [by rewrite lookup_insert_eq | by rewrite lookup_insert_ne].
Qed.

Lemma detect_keys_run evs none rest : forall keys,
  Forall (fun ev : Z * bool => 0 < ev.1 < 256) evs ->
  exists keys', detect_keys (evs ++ (AM_KEY_NONE, none) :: rest) keys = Ok (keys', rest) /\
    forall k, aget keys' k = held keys evs k.
Proof.
  induction evs as [| [code down] evs IH]; intros keys Hev; cbn [app detect_keys]; [by exists keys |].
  apply Forall_cons in Hev as [Hc Hev]. cbn [fst] in Hc. unfold AM_KEY_NONE at 1. rewrite (proj2 (Z.eqb_neq code 0)) by lia.
  unfold ensure. replace ((0 <=? code) && (code <? 256)) with true by lia. cbn [mbind Res_bind].
  destruct (IH (aset keys code (Z.b2z down)) Hev) as (keys' & -> & Hk). exists keys'. split; [done |].
  intros k. by rewrite Hk, held_next.
Qed.

(** A read takes the next place of [MAP]. *)
Lemma joy_read s : 0 <= joy_p s < 8 ->
  memory_readb 0x4016 s = Ok (byte (aget (key_state s) (arr MAP (joy_p s + 1))), {| s with joy_p := joy_p s + 1 |}).
Proof.
  intros Hp. unfold memory_readb. change (word 0x4016) with 0x4016. change (Z.shiftr 0x4016 13) with 2.
  unfold psgio_read. rewrite Z.eqb_refl, (nes_bind _ _ s (joy_p s) s) by done.
  rewrite (nes_bind _ _ s (joy_p s + 1) s) by (unfold lift; by rewrite int_op_small by lia).
  rewrite (nes_bind _ _ s () _ eq_refl). replace (joy_p s <? 9) with true by lia. by rewrite ensure_bind by lia.
Qed.

Lemma joy_reads n : forall s, 0 <= joy_p s -> joy_p s + Z.of_nat n <= 8 ->
  reads n 0x4016 s = Ok ((fun i => byte (aget (key_state s) (arr MAP i))) <$> seqZ_from (joy_p s + 1) n,
                         {| s with joy_p := joy_p s + Z.of_nat n |}).
Proof.
  induction n as [| n IH]; intros s H0 H8; cbn [reads seqZ_from fmap list_fmap].
  - rewrite Z.add_0_r. by destruct s.
  - rewrite (nes_bind _ _ _ _ _ (joy_read s ltac:(lia))).
    rewrite (nes_bind _ _ _ _ _ (IH {| s with joy_p := joy_p s + 1 |} ltac:(cbn; lia) ltac:(cbn; lia))).
    cbn [joy_p key_state]. replace (joy_p s + Z.of_nat (S n)) with (joy_p s + 1 + Z.of_nat n) by lia. done.
Qed.

(** What the joystick port leaves alone. *)
Definition beside (s : Nes) := (key_state s, key_events s, CPU_RAM s, cpu s, ppu s).

Lemma joy_write d s : is_byte d -> exists s', memory_writeb 0x4016 d s = Ok ((), s') /\ beside s' = beside s /\
  prev_write s' = Z.land d 1 /\ joy_p s' = if (Z.land d 1 =? 0) && (prev_write s =? 1) then 0 else joy_p s.
Proof.
  intros Hd. unfold memory_writeb. rewrite byte_id by done. change (word 0x4016) with 0x4016.
  change (0x4016 =? 0x4014) with false. change (Z.shiftr 0x4016 13) with 2. unfold psgio_write.
  rewrite Z.eqb_refl. cbn [andb]. eexists. split; [reflexivity |]. by destruct (_ && _).
Qed.

Lemma strobe_run s : exists s', strobe s = Ok ((), s') /\ beside s' = beside s /\ joy_p s' = 0.
Proof.
  destruct (joy_write 1 s ltac:(done)) as (s1 & E1 & B1 & W1 & _).
  destruct (joy_write 0 s1 ltac:(done)) as (s2 & E2 & B2 & _ & J2). exists s2. unfold strobe.
  rewrite (nes_bind _ _ s () s1), B2, J2, W1 by done. by split_and!.
Qed.

(** The joystick.  When the input has reported its events, a strobe and
    eight reads of $4016 give the eight buttons in the console's order (A, B,
    select, start, up, down, left, right), each as the last event of its key
    left it, and nothing of the machine but the port moves. *)
Theorem joystick_poll s evs none rest :
  key_events s = evs ++ (AM_KEY_NONE, none) :: rest -> Forall (fun ev : Z * bool => 0 < ev.1 < 256) evs ->
  exists s', (_ ← psg_detect_key; _ ← strobe; reads 8 0x4016) s = Ok ((fun k => byte (held (key_state s) evs k)) <$> KEYS, s') /\
    key_events s' = rest /\ CPU_RAM s' = CPU_RAM s /\ cpu s' = cpu s /\ ppu s' = ppu s.
Proof.
  intros Hk Hev. destruct (detect_keys_run evs none rest (key_state s) Hev) as (keys' & Ed & Hh).
  rewrite (nes_bind _ _ s () {| s with key_state := keys'; key_events := rest |}).
  2: { unfold psg_detect_key. by rewrite Hk, Ed. }
  edestruct strobe_run as (s1 & E1 & [= K1 V1 R1 C1 U1] & P1). rewrite (nes_bind _ _ _ () s1 E1).
  exists {| s1 with joy_p := joy_p s1 + Z.of_nat 8 |}. split; [| cbn; by rewrite V1, R1, C1, U1].
  rewrite joy_reads by lia. apply (f_equal (fun l => Ok (l, _))).
  assert (M : arr MAP <$> seqZ_from (0 + 1) 8 = KEYS) by reflexivity.
  rewrite P1, K1, <- M, <- list_fmap_compose. apply list_fmap_ext. intros i k _. cbn. by rewrite Hh.
Qed.

Lemma joystick_poll_witness :
  let s0 := nes_zero [(AM_KEY_named "J", true); (AM_KEY_named "D", true); (AM_KEY_named "D", false); (AM_KEY_NONE, false)] in
  exists s', (_ ← psg_detect_key; _ ← strobe; reads 8 0x4016) s0 = Ok ([1; 0; 0; 0; 0; 0; 0; 0], s').
Proof.
  intros s0. destruct (joystick_poll s0 [(AM_KEY_named "J", true); (AM_KEY_named "D", true); (AM_KEY_named "D", false)] false [])
    as (s' & E & _).
  - reflexivity.
  - repeat constructor.
  - exists s'. exact E.
Defined.

(** ** The video memory *)

(** What the registers $2006 and $2007 work on. *)
Record Port := mkPort {
  pt_ram : array; pt_addr : Z; pt_high : bool; pt_latch : Z; pt_first : bool;
  pt_ready : bool; pt_xor : Z; pt_inc : Z }.

Definition port (s : Nes) : Port := mkPort (PPU_RAM s) (PPUADDR (ppu s)) (addr_received_high_byte (ppu s))
  (ppu_addr_latch s) (ppu_2007_first_read s) (ppu_ready (ppu s)) (mirroring_xor (ppu s)) (ppu_vram_address_increment (ppu s)).

Definition set_address (a : Z) : nesM () :=
  _ ← memory_readb 0x2002; _ ← memory_writeb 0x2006 (a / 256); memory_writeb 0x2006 (a mod 256).

(** [m] returns [v] and leaves the port at [q]. *)
Definition moves {A} (m : nesM A) (s : Nes) (v : A) (q : Port) : Prop :=
  exists s', m s = Ok (v, s') /\ port s' = q.

Lemma moves_bind {A B} (m : nesM A) (f : A -> nesM B) s v q w r : moves m s v q ->
  (forall s1, port s1 = q -> moves (f v) s1 w r) -> moves (m ≫= f) s w r.
Proof.
  intros (s1 & E1 & Q1) H. destruct (H s1 Q1) as (s2 & E2 & Q2). exists s2. by rewrite (nes_bind _ _ s v s1).
Qed.

Lemma moves_gets {A B} (f : Nes -> A) (k : A -> nesM B) s w r : moves (k (f s)) s w r -> moves (gets f ≫= k) s w r.
Proof. done. Qed.

Lemma moves_ret {A} (v : A) s : moves (mret v) s v (port s).
Proof. by exists s. Qed.

Lemma moves_modify f s q : port (f s) = q -> moves (modify f) s () q.
Proof. intros H. by exists (f s). Qed.

Lemma land_3FFF a : 0 <= a < 0x4000 -> Z.land a 0x3FFF = a.
Proof. intros Ha. change 0x3FFF with (Z.ones 14). by rewrite Z.land_ones, Z.mod_small by lia. Qed.

Lemma moves_read a s : 0 <= a < 0x4000 -> moves (ppu_ram_read a) s (vram (PPU_RAM s) a) (port s).
Proof. intros Ha. exists s. by rewrite ram_read_run. Qed.

Lemma moves_write a d s : 0 <= a < 0x4000 -> is_byte d ->
  moves (ppu_ram_write a d) s () (let p := port s in {| p with pt_ram := aset (pt_ram p) (ppu_get_real_ram_address a) d |}).
Proof.
  intros Ha Hd. pose proof (real_address_range a Ha). unfold ppu_ram_write. rewrite word_id, byte_id by lia || done.
  eexists. by rewrite ensure_bind by lia.
Qed.

(** Every access masks the address first. *)
Definition masked (p : Port) : Port := {| p with pt_addr := Z.land (pt_addr p) 0x3FFF |}.

Lemma moves_mask s g : (forall s, port (g s) = masked (port s)) -> moves (modify g) s () (masked (port s)).
Proof. intros H. by apply moves_modify. Qed.

Lemma port_status s : exists v, moves (memory_readb 0x2002) s v
  (let p := masked (port s) in {| p with pt_high := false; pt_latch := 0; pt_first := true |}).
Proof.
  exists (PPUSTATUS (ppu s)). unfold memory_readb. change (word 0x2002) with 0x2002. change (Z.shiftr 0x2002 13) with 1.
  unfold ppuio_read. change (Z.land 0x2002 7) with 2. eexists. split; [reflexivity |]. by cbn.
Qed.

Lemma writeb_ppu r d : is_byte d -> r ∈ [0x2006; 0x2007] -> memory_writeb r d = ppuio_write r d.
Proof. intros Hd Hr. unfold memory_writeb. rewrite byte_id by done. elem_cases Hr; reflexivity. Qed.

(** The fields of the port that a register access tests. *)
Lemma port_fields s p : port s = p ->
  ppu_ready (ppu s) = pt_ready p /\ addr_received_high_byte (ppu s) = pt_high p /\ PPUADDR (ppu s) = pt_addr p /\
  mirroring_xor (ppu s) = pt_xor p /\ ppu_addr_latch s = pt_latch p /\ PPU_RAM s = pt_ram p /\
  ppu_vram_address_increment (ppu s) = pt_inc p /\ ppu_2007_first_read s = pt_first p.
Proof. by intros <-. Qed.

(** A state that differs in the fields of the port alone. *)
Ltac port_eq H :=
  destruct (port_fields _ _ H) as (? & ? & ? & ? & ? & ? & ? & ?); unfold port, ppu_vram_address_increment in *;
  cbn -[Z.land Z.add Z.mul Z.shiftl word] in *; congruence.

(** The first and the second write of $2006. *)
Lemma port_high s d : pt_ready (port s) = true -> pt_high (port s) = false -> is_byte d ->
  moves (memory_writeb 0x2006 d) s ()
    (let p := masked (port s) in {| p with pt_high := true; pt_latch := d; pt_first := true |}).
Proof.
  intros Hr Hh Hd. rewrite writeb_ppu by (done || set_solver). unfold ppuio_write. change (Z.land 0x2006 7) with 6.
  eapply moves_bind; [by apply moves_mask |]. intros s1 P1. apply moves_gets.
  destruct (port_fields _ _ P1) as (-> & -> & _). cbn [masked pt_ready pt_high]. rewrite Hr, Hh. cbn [negb].
  eapply (moves_bind _ _ s1 ()); [| intros s2 P2; apply moves_modify; exact P2].
  eapply (moves_bind _ _ s1 () (let p := masked (port s) in {| p with pt_high := true; pt_latch := d |})).
  - apply moves_modify. port_eq P1.
  - intros s2 P2. apply moves_modify. port_eq P2.
Qed.

Lemma port_low s h d : pt_ready (port s) = true -> pt_high (port s) = true -> pt_latch (port s) = h ->
  0 <= h < 0x40 -> is_byte d ->
  moves (memory_writeb 0x2006 d) s ()
    (let p := port s in {| p with pt_addr := 256 * h + d; pt_high := false; pt_first := true |}).
Proof.
  intros Hr Hh Hl Hb Hd. rewrite writeb_ppu by (done || set_solver). unfold ppuio_write. change (Z.land 0x2006 7) with 6.
  eapply moves_bind; [by apply moves_mask |]. intros s1 P1. apply moves_gets.
  destruct (port_fields _ _ P1) as (-> & -> & _). cbn [masked pt_ready pt_high]. rewrite Hr, Hh. cbn [negb].
  assert (Ew : word (Z.shiftl h 8 + d) = 256 * h + d).
  { unfold is_byte in Hd. rewrite Z.shiftl_mul_pow2, word_id by lia. lia. }
  eapply (moves_bind _ _ s1 ()); [| intros s2 P2; apply moves_modify; exact P2].
  eapply (moves_bind _ _ s1 () (let p := port s in {| p with pt_addr := 256 * h + d; pt_high := false |})).
  - apply moves_modify. rewrite <- Ew, <- Hl. port_eq P1.
  - intros s2 P2. apply moves_modify. port_eq P2.
Qed.

Lemma set_address_run s a : pt_ready (port s) = true -> 0 <= a < 0x4000 ->
  moves (set_address a) s ()
    (let p := port s in {| p with pt_addr := a; pt_high := false; pt_latch := a / 256; pt_first := true |}).
Proof.
  intros Hr Ha. assert (0 <= a / 256 < 0x40) by (Z.div_mod_to_equations; lia).
  assert (0 <= a mod 256 < 256) by (Z.div_mod_to_equations; lia). unfold set_address.
  destruct (port_status s) as [v Hv]. eapply moves_bind; [exact Hv |]. intros s1 P1.
  eapply moves_bind; [apply port_high; [by rewrite P1 | by rewrite P1 | unfold is_byte; lia] |]. intros s2 P2.
  replace a with (256 * (a / 256) + a mod 256) at 2 by (Z.div_mod_to_equations; lia).
  pose proof (port_low s2 (a / 256) (a mod 256)) as H2. rewrite P2, P1 in H2. apply H2; done.
Qed.

(** $2007 writes the cell and its mirror, and leaves the address where it is. *)
Definition mirrored (p : Port) (d : Z) : array :=
  aset (aset (pt_ram p) (ppu_get_real_ram_address (Z.lxor (pt_addr p) (pt_xor p))) d) (ppu_get_real_ram_address (pt_addr p)) d.

Lemma port_write s d : 0 <= pt_addr (port s) < 0x4000 -> pt_xor (port s) ∈ [0; 0x400; 0x800] -> is_byte d ->
  moves (memory_writeb 0x2007 d) s () (let p := port s in {| p with pt_ram := mirrored p d |}).
Proof.
  intros Ha Hx Hd. rewrite writeb_ppu by (done || set_solver). unfold ppuio_write. change (Z.land 0x2007 7) with 7.
  assert (Em : masked (port s) = port s) by (unfold masked; by rewrite land_3FFF).
  eapply moves_bind; [by apply moves_mask |]. intros s1 P1. rewrite Em in P1. apply moves_gets. rewrite <- P1 in *. clear P1 Em s.
  destruct (port_fields s1 (port s1) eq_refl) as (_ & _ & -> & -> & _).
  eapply (moves_bind _ _ s1 ()); [| intros s2 P2; apply moves_modify; exact P2].
  replace (pt_addr (port s1) <? 0x4000) with true by lia. rewrite orb_true_r.
  eapply moves_bind; [apply moves_write; [by apply xor_range | done] |]. intros s2 P2.
  pose proof (moves_write (pt_addr (port s1)) d s2 Ha Hd) as H2. rewrite P2 in H2. exact H2.
Qed.

(** A read of $2007: the first one after the address is set does not move on. *)
Lemma port_read s : 0 <= pt_addr (port s) < 0x4000 ->
  moves (memory_readb 0x2007) s (vram (pt_ram (port s)) (pt_addr (port s)))
    (let p := port s in
     if pt_first p then {| p with pt_first := false |} else {| p with pt_addr := word (pt_addr p + pt_inc p) |}).
Proof.
  intros Ha. unfold memory_readb. change (word 0x2007) with 0x2007. change (Z.shiftr 0x2007 13) with 1. unfold ppuio_read.
  change (Z.land 0x2007 7) with 7. assert (Em : masked (port s) = port s) by (unfold masked; by rewrite land_3FFF).
  eapply moves_bind; [by apply moves_mask |]. intros s1 P1. rewrite Em in P1. apply moves_gets. rewrite <- P1 in *. clear P1 Em s.
  eapply moves_bind; [apply moves_read, Ha |]. intros s2 P2.
  eapply moves_bind; [apply moves_modify; exact P2 |]. intros s3 P3.
  eapply moves_bind; [apply moves_modify; reflexivity |]. intros s4 P4. exists s4. split; [done |]. rewrite P4, <- P3.
  by destruct (port_fields s3 (port s3) eq_refl) as (_ & _ & _ & _ & _ & _ & _ & <-); destruct (ppu_2007_first_read s3).
Qed.

Lemma real_low b : b < 0x3F00 -> ppu_get_real_ram_address b = b.
Proof. intros Hb. unfold ppu_get_real_ram_address. destruct (b <? 0x2000); [done |]. by replace (b <? 0x3F00) with true by lia. Qed.

Lemma real_high b : 0x3F00 <= b < 0x4000 -> 0x3F00 <= ppu_get_real_ram_address b.
Proof.
  intros Hb. assert (Hd : b = 0x3F00 + (b - 0x3F00)) by lia.
  assert (H : below 0x100 (fun i => 0x3F00 <=? ppu_get_real_ram_address (0x3F00 + i)) = true) by (vm_compute; reflexivity).
  pose proof (below_spec _ _ H (b - 0x3F00) ltac:(lia)). rewrite Hd. lia.
Qed.

(** A write reaches its cell, its mirror and, below the palette, no other. *)
Lemma mirrored_other p d b : 0 <= pt_addr p < 0x3F00 -> pt_xor p ∈ [0; 0x400; 0x800] -> 0 <= b < 0x3F00 ->
  b <> pt_addr p -> b <> Z.lxor (pt_addr p) (pt_xor p) -> aget (mirrored p d) b = aget (pt_ram p) b.
Proof.
  intros Ha Hx Hb H1 H2. unfold mirrored. rewrite (real_low (pt_addr p)) by lia.
  pose proof (xor_range (pt_addr p) (pt_xor p) ltac:(lia) Hx) as Hr. unfold aget, aset.
  rewrite !lookup_insert_ne; [done | | done].
  destruct (Z.lt_ge_cases (Z.lxor (pt_addr p) (pt_xor p)) 0x3F00).
  - by rewrite real_low.
  - pose proof (real_high (Z.lxor (pt_addr p) (pt_xor p)) ltac:(lia)). lia.
Qed.

Lemma mirrored_cell p d : pt_addr p < 0x3F00 -> vram (mirrored p d) (pt_addr p) = d.
Proof. intros Ha. unfold vram, mirrored, aget, aset. by rewrite lookup_insert_eq. Qed.

(** The next cell is not the mirror. *)
Lemma next_not_mirror a m i : m ∈ [0; 0x400; 0x800] -> 0 < i < 0x400 -> a + i <> Z.lxor a m.
Proof.
  intros Hm Hi E. assert (Hl : Z.land (Z.lxor a m) (Z.ones 10) = Z.land a (Z.ones 10)).
  { apply Z.bits_inj. intros n. rewrite !Z.land_spec, Z.lxor_spec. destruct (Z.testbit (Z.ones 10) n) eqn:En; [| by rewrite !andb_false_r].
    f_equal. assert (Hm' : Z.land m (Z.ones 10) = 0) by (elem_cases Hm; reflexivity).
    pose proof (f_equal (fun z => Z.testbit z n) Hm') as Hb. cbn beta in Hb. rewrite Z.land_spec, En, Z.bits_0, andb_true_r in Hb.
    by rewrite Hb, xorb_false_r. }
  rewrite <- E, !Z.land_ones in Hl by lia. Z.div_mod_to_equations. lia.
Qed.

(** Three reads after the address is set: the cell twice, then the next one. *)
Lemma reads_run s : 0 <= pt_addr (port s) -> 0 < pt_inc (port s) -> pt_addr (port s) + pt_inc (port s) < 0x4000 ->
  pt_first (port s) = true ->
  moves (reads 3 0x2007) s
    (let p := port s in [vram (pt_ram p) (pt_addr p); vram (pt_ram p) (pt_addr p); vram (pt_ram p) (pt_addr p + pt_inc p)])
    (let p := port s in {| p with pt_addr := word (pt_addr p + pt_inc p + pt_inc p); pt_first := false |}).
Proof.
  intros Ha Hi Hn Hf. cbn [reads].
  eapply moves_bind; [apply port_read; lia |]. intros s1 P1. cbn zeta in P1. rewrite Hf in P1.
  eapply (moves_bind _ _ s1).
  2: { intros s2 P2. exists s2. split; [reflexivity | exact P2]. }
  assert (A1 : pt_addr (port s1) = pt_addr (port s)) by (by rewrite P1).
  eapply moves_bind; [apply port_read; lia |]. intros s2 P2. rewrite P1 in P2. cbn [pt_first pt_addr pt_inc] in P2. rewrite word_id in P2 by lia.
  eapply (moves_bind _ _ s2).
  2: { intros s3 P3. exists s3. split; [by rewrite P1 | exact P3]. }
  assert (A2 : pt_addr (port s2) = pt_addr (port s) + pt_inc (port s)) by (by rewrite P2).
  eapply moves_bind; [apply port_read; lia |]. intros s3 P3. rewrite P2 in *.
  exists s3. split; [reflexivity | by rewrite P3].
Qed.

Definition write_twice (a d1 d2 : Z) : nesM (list Z) :=
  _ ← set_address a; _ ← memory_writeb 0x2007 d1; _ ← memory_writeb 0x2007 d2; _ ← set_address a; reads 3 0x2007.

(** The port with its address set, and the memory after the two writes. *)
Definition addressed (p : Port) (a : Z) : Port :=
  {| p with pt_addr := a; pt_high := false; pt_latch := a / 256; pt_first := true |}.

Definition written (p : Port) (a d1 d2 : Z) : array :=
  let p1 := addressed p a in let p2 := {| p1 with pt_ram := mirrored p1 d1 |} in mirrored p2 d2.

Lemma write_twice_run s a d1 d2 : let p := port s in let r := written p a d1 d2 in
  pt_ready p = true -> pt_xor p ∈ [0; 0x400; 0x800] -> 0 <= a -> 0 < pt_inc p -> a + pt_inc p < 0x4000 ->
  is_byte d1 -> is_byte d2 ->
  exists q, moves (write_twice a d1 d2) s [vram r a; vram r a; vram r (a + pt_inc p)] q /\ pt_ram q = r.
Proof.
  intros p r Hr Hx Ha Hi Hn H1 H2. eexists. split.
  - unfold write_twice. eapply moves_bind; [apply (set_address_run s a Hr); lia |]. fold p. intros s1 P1.
    eapply moves_bind; [apply port_write; rewrite ?P1; first [done | cbn; lia] |]. intros s2 P2. rewrite P1 in P2.
    eapply moves_bind; [apply port_write; rewrite ?P2; first [done | cbn; lia] |]. intros s3 P3. rewrite P2 in P3.
    eapply moves_bind; [apply (set_address_run s3 a); [by rewrite P3 | lia] |]. intros s4 P4. rewrite P3 in P4.
    pose proof (reads_run s4) as R. rewrite P4 in R. apply R; done.
  - done.
Qed.

Lemma written_other p a d1 d2 b : 0 <= a < 0x3F00 -> pt_xor p ∈ [0; 0x400; 0x800] -> 0 <= b < 0x3F00 ->
  b <> a -> b <> Z.lxor a (pt_xor p) -> aget (written p a d1 d2) b = aget (pt_ram p) b.
Proof. intros Ha Hx Hb N1 N2. unfold written. rewrite mirrored_other by done. cbn [pt_ram]. by rewrite mirrored_other by done. Qed.

(** C31. The video memory port.  A game that sets an address through $2006 and
    reads $2007 back gets the byte it wrote there, first from the dummy read and
    then again, and below the palette a write touches only the cell and its
    mirror.  But a write does not advance the address: of two bytes written in
    a row the second replaces the first, and the next cell keeps its value. *)
Theorem vram_port s a d1 d2 :
  nes_wf s -> ppu_ready (ppu s) = true -> 0x2000 <= a < 0x3EE0 -> is_byte d1 -> is_byte d2 ->
  let next := a + ppu_vram_address_increment (ppu s) in
  exists s', write_twice a d1 d2 s = Ok ([d2; d2; aget (PPU_RAM s) next], s') /\
    forall b, 0 <= b < 0x3F00 -> b <> a -> b <> Z.lxor a (mirroring_xor (ppu s)) -> aget (PPU_RAM s') b = aget (PPU_RAM s) b.
Proof.
  intros Hw Hr Ha H1 H2 next. pose proof (wf_xor _ (wf_ppu _ Hw)) as Hx.
  assert (Hi : 0 < ppu_vram_address_increment (ppu s) <= 32) by (unfold ppu_vram_address_increment; case_match; lia).
  destruct (write_twice_run s a d1 d2) as (q & (s' & E & Q) & Eq); [done | done | lia | | | done | done |].
  { change (pt_inc (port s)) with (ppu_vram_address_increment (ppu s)). lia. }
  { change (pt_inc (port s)) with (ppu_vram_address_increment (ppu s)). lia. }
  exists s'. change (pt_inc (port s)) with (ppu_vram_address_increment (ppu s)) in E. fold next in E. split.
  - rewrite E. do 2 f_equal. unfold vram at 3. rewrite (real_low next), written_other by (done || unfold next; lia || by apply next_not_mirror; [| lia]).
    unfold written. by rewrite (mirrored_cell (mkPort _ a _ _ _ _ _ _)) by (cbn; lia).
  - intros b Hb N1 N2. change (PPU_RAM s') with (pt_ram (port s')). rewrite Q, Eq. by apply written_other; [lia | ..].
Qed.

Lemma vram_port_witness :
  let p := ppu_zero in let s0 := nes_zero [] in
  let s := {| s0 with ppu := {| p with ppu_ready := true; mirroring_xor := 0x400 |} |} in
  exists s', write_twice 0x2005 0x11 0x22 s = Ok ([0x22; 0x22; 0], s') /\ aget (PPU_RAM s') 0x2006 = 0.
Proof.
  intros p s0 s. assert (N1 : 0 <= 0x2006 < 0x3F00) by done. assert (N2 : 0x2006 <> 0x2005) by done.
  assert (N3 : 0x2006 <> Z.lxor 0x2005 0x400) by done.
  destruct (vram_port s 0x2005 0x11 0x22) as (s' & E & Ho).
  - apply (nes_wf_ppu s0); [apply nes_zero_wf |]. destruct (wf_ppu _ (nes_zero_wf [])).
    constructor; cbn; first [done | apply elem_of_cons; right; apply elem_of_cons; by left].
  - reflexivity.
  - done.
  - done.
  - done.
  - exists s'. split; [exact E |]. exact (Ho 0x2006 N1 N2 N3).
Defined.
