(* ===== verification/NesBoot.v ===== *)
(** * LiteNES: loading a cartridge and starting (litenes/src/fce.c, mmc.c)

    An iNES file is a header of sixteen bytes, the program blocks and the
    pattern blocks.  [rom_boots] says where [fce_load_rom] and [fce_init] put
    them and where the emulated CPU starts. *)

From S2P Require Import Prelude Word Ftrace Kstdlib Am Nes NesCpu NesSafe NesAlu NesStack NesRender NesScroll NesPort.

(** A file of [blocks] program blocks and one pattern block; [flags] are the
    bytes 6 and 7 of the header. *)
Definition ines (blocks : Z) (flags : Z * Z) (reserved prg chr : list Z) : list Z :=
  [0x4E; 0x45; 0x53; 0x1A; blocks; 1; flags.1; flags.2] ++ reserved ++ prg ++ chr.

Definition mapper (flags : Z * Z) : Z := flags.1 / 16.

Record ines_ok (blocks : Z) (flags : Z * Z) (reserved prg chr : list Z) : Prop := {
  io_blocks : blocks = 1 \/ blocks = 2;
  io_flags : is_byte flags.1 /\ is_byte flags.2;
  io_mapper : mapper flags = 0 \/ mapper flags = 3;
  io_reserved : length reserved = 8%nat;
  io_prg : Z.of_nat (length prg) = blocks * 0x4000;
  io_chr : Z.of_nat (length chr) = 0x2000;
  io_bytes : Forall is_byte (prg ++ chr) }.

Lemma rom_bytes_run pre mid post i n s : i = Z.of_nat (length pre) -> n = Z.of_nat (length mid) ->
  rom_bytes (pre ++ mid ++ post) i n s = Ok (mid, s).
Proof.
  intros -> ->. unfold rom_bytes. rewrite ensure_bind by (rewrite !length_app; lia).
  rewrite !Nat2Z.id, drop_app_length, take_app_length. done.
Qed.

Lemma aget_copy_in bs : forall a i j, aget (copy_in a i bs) j =
  if (i <=? j) && (j <? i + Z.of_nat (length bs)) then arr bs (j - i) else aget a j.
Proof.
  induction bs as [| b bs IH]; intros a i j; cbn [copy_in length].
  - destruct (_ && _) eqn:E; [lia | done].
  - rewrite IH, aget_aset. destruct (Z.eq_dec j i) as [-> | Hne].
    + rewrite Z.eqb_refl, Z.sub_diag. replace ((i + 1 <=? i) && _) with false by lia.
      by replace ((i <=? i) && _) with true by lia.
    + rewrite (proj2 (Z.eqb_neq j i)) by done.
      replace ((i + 1 <=? j) && _) with ((i <=? j) && (j <? i + Z.of_nat (S (length bs)))) by lia.
      destruct (_ && _) eqn:E; [| done]. unfold arr. replace (Z.to_nat (j - i)) with (S (Z.to_nat (j - (i + 1)))) by lia. done.
Qed.

(** The cartridge in the CPU's memory: one block shows twice. *)
Definition prg_in (m : array) (blocks : Z) (prg : list Z) : array :=
  if blocks =? 1 then copy_in (copy_in m 0x8000 prg) 0xC000 prg else copy_in m 0x8000 prg.

Lemma prg_at m blocks prg a : blocks = 1 \/ blocks = 2 -> Z.of_nat (length prg) = blocks * 0x4000 -> 0x8000 <= a < 0x10000 ->
  aget (prg_in m blocks prg) a = arr prg ((a - 0x8000) mod (blocks * 0x4000)).
Proof.
  intros Hb Hl Ha. unfold prg_in. destruct Hb as [-> | ->]; cbn [Z.eqb Pos.eqb]; rewrite !aget_copy_in, Hl.
  - destruct (Z.lt_ge_cases a 0xC000).
    + replace ((0xC000 <=? a) && _) with false by lia. replace ((0x8000 <=? a) && _) with true by lia. f_equal.
      Z.div_mod_to_equations. lia.
    + replace ((0xC000 <=? a) && _) with true by lia. f_equal. Z.div_mod_to_equations. lia.
  - replace ((0x8000 <=? a) && _) with true by lia. f_equal. Z.div_mod_to_equations. lia.
Qed.

(** ** Loading *)

(** What the loader writes, and what it leaves alone. *)
Record Cartridge := mkCart { ct_type : Z; ct_id : Z; ct_memory : array; ct_pages : Z; ct_vram : array }.

Definition cartridge (s : Nes) : Cartridge := mkCart (rom_type s) (mmc_id s) (memory s) (mmc_chr_pages_number s) (PPU_RAM s).

Definition console (s : Nes) :=
  (cpu s, CPU_RAM s, op_value s, op_cycles s, ppu s, (ppu_addr_latch s, ppu_latch s), PPU_SPRRAM s, joy_p s).

Definition loads {A} (m : nesM A) (s : Nes) (v : A) (c : Cartridge) : Prop :=
  exists s', m s = Ok (v, s') /\ cartridge s' = c /\ console s' = console s.

Lemma loads_bind {A B} (m : nesM A) (f : A -> nesM B) s v c w d : loads m s v c ->
  (forall s1, cartridge s1 = c -> loads (f v) s1 w d) -> loads (m ≫= f) s w d.
Proof.
  intros (s1 & E1 & C1 & K1) H. destruct (H s1 C1) as (s2 & E2 & C2 & K2). exists s2.
  by rewrite (nes_bind _ _ s v s1), K2.
Qed.

Lemma loads_id {A} (m : nesM A) s v : m s = Ok (v, s) -> loads m s v (cartridge s).
Proof. intros E. by exists s. Qed.

Lemma loads_modify f s c : cartridge (f s) = c -> console (f s) = console s -> loads (modify f) s () c.
Proof. intros Hc Hk. by exists (f s). Qed.

Lemma mmc_copy_run address bs s : address + Z.of_nat (length bs) <= 0x10000 ->
  loads (mmc_copy address bs) s () (let c := cartridge s in {| c with ct_memory := copy_in (ct_memory c) address bs |}).
Proof. intros Ha. unfold mmc_copy, loads. rewrite ensure_bind by lia. by eexists. Qed.

Lemma ppu_copy_run bs s : Z.of_nat (length bs) <= 0x4000 ->
  loads (ppu_copy 0 bs) s () (let c := cartridge s in {| c with ct_vram := copy_in (ct_vram c) 0 bs |}).
Proof. intros Ha. unfold ppu_copy, loads. rewrite ensure_bind by lia. by eexists. Qed.

Lemma append_run bs s : ct_pages (cartridge s) = 0 ->
  loads (mmc_append_chr_rom_page bs) s () (let c := cartridge s in {| c with ct_pages := 1 |}).
Proof.
  intros Hn. cbn in Hn. unfold mmc_append_chr_rom_page, loads. rewrite (nes_bind _ _ s 0 s) by (unfold gets; by rewrite Hn).
  rewrite (nes_bind _ _ s () s) by done. by eexists.
Qed.

Section Load.
Context (blocks : Z) (flags : Z * Z) (reserved prg chr : list Z) (Hok : ines_ok blocks flags reserved prg chr).
Let rom := ines blocks flags reserved prg chr.

Lemma header_run s : rom_bytes rom 0 16 s = Ok ([0x4E; 0x45; 0x53; 0x1A; blocks; 1; flags.1; flags.2] ++ reserved, s).
Proof.
  unfold rom, ines. rewrite app_assoc. apply (rom_bytes_run [] _ (prg ++ chr)); [done |].
  rewrite length_app, (io_reserved _ _ _ _ _ Hok). done.
Qed.

Lemma prg_run s : rom_bytes rom 16 (blocks * 0x4000) s = Ok (prg, s).
Proof.
  unfold rom, ines. rewrite app_assoc. apply rom_bytes_run; [| by rewrite (io_prg _ _ _ _ _ Hok)].
  rewrite length_app, (io_reserved _ _ _ _ _ Hok). done.
Qed.

Lemma chr_run s : rom_bytes rom (16 + blocks * 0x4000) 0x2000 s = Ok (chr, s).
Proof.
  assert (E : rom = (([0x4E; 0x45; 0x53; 0x1A; blocks; 1; flags.1; flags.2] ++ reserved) ++ prg) ++ chr ++ [])
    by (by rewrite app_nil_r, <- !app_assoc).
  rewrite E. apply rom_bytes_run.
  - rewrite !length_app, (io_reserved _ _ _ _ _ Hok). pose proof (io_prg _ _ _ _ _ Hok). cbn [length]. lia.
  - by rewrite (io_chr _ _ _ _ _ Hok).
Qed.

Lemma load_prg_run s :
  loads (if blocks =? 1 then blk ← rom_bytes rom 16 0x4000; _ ← mmc_copy 0x8000 blk; mmc_copy 0xC000 blk
         else blk ← rom_bytes rom 16 0x8000; mmc_copy 0x8000 blk) s ()
    (let c := cartridge s in {| c with ct_memory := prg_in (ct_memory c) blocks prg |}).
Proof.
  pose proof (io_prg _ _ _ _ _ Hok) as Hl. pose proof prg_run as Hp. unfold prg_in.
  destruct (io_blocks _ _ _ _ _ Hok) as [E | E]; rewrite E in *; cbn [Z.eqb Pos.eqb].
  - eapply loads_bind; [apply loads_id, Hp |]. intros s1 C1.
    eapply loads_bind; [apply mmc_copy_run; lia |]. intros s2 C2.
    pose proof (mmc_copy_run 0xC000 prg s2 ltac:(lia)) as H. rewrite C2, C1 in H. exact H.
  - eapply loads_bind; [apply loads_id, Hp |]. intros s1 C1.
    pose proof (mmc_copy_run 0x8000 prg s1 ltac:(lia)) as H. rewrite C1 in H. exact H.
Qed.

Lemma load_chr_run s : ct_pages (cartridge s) = 0 ->
  loads (load_chr rom 0 1 (16 + blocks * 0x4000)) s ()
    (let c := cartridge s in {| c with ct_pages := 1; ct_vram := copy_in (ct_vram c) 0 chr |}).
Proof.
  intros Hn. cbn [load_chr Nat.eqb]. pose proof (io_chr _ _ _ _ _ Hok).
  eapply loads_bind; [apply loads_id, chr_run |]. intros s1 C1.
  eapply loads_bind; [apply append_run; by rewrite C1 |]. intros s2 C2. rewrite C1 in C2.
  eapply loads_bind; [apply ppu_copy_run; lia |]. intros s3 C3. rewrite C2 in C3.
  by exists s3.
Qed.

Lemma type_bits : Z.shiftr (Z.land (flags.1 + 256 * flags.2) 0xF0) 4 = mapper flags.
Proof.
  destruct (io_flags _ _ _ _ _ Hok) as [H1 H2]. unfold is_byte in *. unfold mapper.
  assert (E : Z.land (flags.1 + 256 * flags.2) 0xF0 = Z.land flags.1 0xF0).
  { change 0xF0 with (Z.land (Z.ones 8) 0xF0). rewrite !Z.land_assoc, !Z.land_ones by lia. f_equal.
    rewrite (Z.mul_comm 256). change (2 ^ 8) with 256. by rewrite Z.mod_add by lia. }
  rewrite E. apply Z.eqb_eq. revert H1. generalize flags.1.
  apply (below_spec 256 (fun f => Z.shiftr (Z.land f 0xF0) 4 =? f / 16)). vm_compute. reflexivity.
Qed.

(** The loader puts program and patterns in place and returns 0. *)
Lemma load_run s : ct_pages (cartridge s) = 0 ->
  loads (fce_load_rom rom) s 0
    (mkCart (flags.1 + 256 * flags.2) (mapper flags) (prg_in (memory s) blocks prg) 1 (copy_in (PPU_RAM s) 0 chr)).
Proof.
  intros Hn. unfold fce_load_rom. eapply loads_bind; [apply loads_id, header_run |]. intros s1 C1.
  change (arr _ 4) with blocks. change (arr _ 5) with 1. change (arr _ 6) with flags.1. change (arr _ 7) with flags.2.
  change (take 4 _) with [0x4E; 0x45; 0x53; 0x1A]. rewrite (bool_decide_true (_ = _)) by done. rewrite type_bits.
  eapply (loads_bind _ _ s1 () (let c := cartridge s in {| c with ct_type := flags.1 + 256 * flags.2 |})).
  { rewrite <- C1. by apply loads_modify. }
  intros s2 C2.
  eapply (loads_bind _ _ s2 () (let c := cartridge s in {| c with ct_type := flags.1 + 256 * flags.2; ct_id := mapper flags |})).
  { apply loads_modify; [| done]. unfold cartridge in *. cbn in *. congruence. }
  intros s3 C3.
  replace ((mapper flags =? 0) || (mapper flags =? 3)) with true by (destruct (io_mapper _ _ _ _ _ Hok) as [-> | ->]; done).
  eapply loads_bind; [apply load_prg_run |]. intros s4 C4. rewrite C3 in C4.
  eapply loads_bind; [apply load_chr_run; by rewrite C4 |]. intros s5 C5. rewrite C4 in C5.
  by exists s5.
Qed.
End Load.

(** ** Starting *)

(** Memory above 0x8000 is the cartridge's. *)
Lemma readb_rom a s : 0x8000 <= a < 0x10000 -> memory_readb a s = Ok (aget (memory s) a, s).
Proof.
  intros Ha. unfold memory_readb. rewrite word_id by lia. rewrite Z.shiftr_div_pow2 by lia.
  assert (E : a / 2 ^ 13 = 4 \/ a / 2 ^ 13 = 5 \/ a / 2 ^ 13 = 6 \/ a / 2 ^ 13 = 7) by (Z.div_mod_to_equations; lia).
  destruct E as [-> | [-> | [-> | ->]]]; reflexivity.
Qed.

Definition reset_vector (s : Nes) : Z := word (aget (memory s) 0xFFFC + Z.shiftl (aget (memory s) 0xFFFD) 8).

(** What starting leaves alone, the cartridge apart. *)
Definition idle (s : Nes) := (CPU_RAM s, op_value s, op_cycles s, (ppu_addr_latch s, ppu_latch s), PPU_SPRRAM s, joy_p s).

Lemma cpu_init_run s : exists s', cpu_init s = Ok ((), s') /\ cartridge s' = cartridge s /\ idle s' = idle s /\
  cpu s' = mkCpu (rPC (cpu s)) 0 0 0 0 0x24 /\ ppu s' = ppu s.
Proof. eexists. split; [reflexivity | done]. Qed.

Lemma ppu_init_run s : exists s', ppu_init s = Ok ((), s') /\ cartridge s' = cartridge s /\ idle s' = idle s /\
  cpu s' = cpu s /\ ppu_l_h_addition_table s' = l_h_addition /\
  ppu s' = (let p := ppu s in {| p with PPUCTRL := 0; PPUMASK := 0; PPUSTATUS := 0xA0; OAMADDR := 0;
                                 PPUSCROLL_X := 0; PPUSCROLL_Y := 0; PPUADDR := 0; PPUDATA := 0 |}).
Proof. eexists. split; [reflexivity | done]. Qed.

Lemma mirroring_run m s : m <= 20 -> exists s', ppu_set_mirroring m s = Ok ((), s') /\ cartridge s' = cartridge s /\
  idle s' = idle s /\ cpu s' = cpu s /\ ppu_l_h_addition_table s' = ppu_l_h_addition_table s /\
  ppu s' = (let p := ppu s in {| p with mirroring := m; mirroring_xor := Z.shiftl 0x400 m |}).
Proof. intros Hm. unfold ppu_set_mirroring. rewrite ensure_bind by lia. eexists. split; [reflexivity | done]. Qed.

Lemma reset_run s : exists s', cpu_reset s = Ok ((), s') /\ cartridge s' = cartridge s /\ idle s' = idle s /\
  ppu s' = ppu s /\ ppu_l_h_addition_table s' = ppu_l_h_addition_table s /\
  cpu s' = (let c := set_SP (rSP (cpu s) - 3) (set_PC (reset_vector s) (cpu s)) in set_P (Z.lor (rP c) interrupt_flag) c).
Proof.
  unfold cpu_reset. rewrite (nes_bind _ _ s (reset_vector s) s).
  2: { unfold cpu_reset_interrupt_address, memory_readw. change (word 0xFFFC) with 0xFFFC.
       rewrite (nes_bind _ _ _ _ _ (readb_rom 0xFFFC s ltac:(lia))), (nes_bind _ _ _ _ _ (readb_rom 0xFFFD s ltac:(lia))). done. }
  eexists. split; [reflexivity | done].
Qed.

Lemma fce_init_run s : exists s', fce_init s = Ok ((), s') /\ cartridge s' = cartridge s /\ idle s' = idle s /\
  ppu_l_h_addition_table s' = l_h_addition /\ cpu s' = mkCpu (reset_vector s) 0xFD 0 0 0 0x24 /\
  ppu s' = (let p := ppu s in let m := Z.land (rom_type s) 1 in
            {| p with PPUCTRL := 0; PPUMASK := 0; PPUSTATUS := 0xA0; OAMADDR := 0; PPUSCROLL_X := 0; PPUSCROLL_Y := 0;
                      PPUADDR := 0; PPUDATA := 0; mirroring := m; mirroring_xor := Z.shiftl 0x400 m |}).
Proof.
  destruct (cpu_init_run s) as (s1 & E1 & C1 & I1 & R1 & P1). destruct (ppu_init_run s1) as (s2 & E2 & C2 & I2 & R2 & T2 & P2).
  assert (Ht : rom_type s2 = rom_type s) by (change (ct_type (cartridge s2) = ct_type (cartridge s)); by rewrite C2, C1).
  pose proof (land_bound (rom_type s) 1 ltac:(lia)) as Hm. change (Z.ones 1) with 1 in Hm.
  destruct (mirroring_run (Z.land (rom_type s) 1) s2 ltac:(lia)) as (s3 & E3 & C3 & I3 & R3 & T3 & P3).
  destruct (reset_run s3) as (s4 & E4 & C4 & I4 & P4 & T4 & R4). exists s4. unfold fce_init.
  rewrite (nes_bind _ _ s () s1), (nes_bind _ _ s1 () s2), (nes_bind _ _ s2 (rom_type s) s2), (nes_bind _ _ s2 () s3)
    by (done || unfold gets; by rewrite Ht).
  assert (Hv : reset_vector s3 = reset_vector s).
  { unfold reset_vector. change (memory s3) with (ct_memory (cartridge s3)). by rewrite C3, C2, C1. }
  split_and!; [done | by rewrite C4, C3, C2, C1 | by rewrite I4, I3, I2, I1 | by rewrite T4, T3, T2 | |].
  - rewrite R4, Hv, R3, R2, R1. cbn -[reset_vector]. unfold set_P, set_SP, set_PC. cbn -[reset_vector].
    unfold reset_vector. by rewrite word_id by apply word_is.
  - by rewrite P4, P3, P2, P1.
Qed.

Lemma prg_byte blocks flags reserved prg chr a : ines_ok blocks flags reserved prg chr ->
  is_byte (arr prg ((a - 0x8000) mod (blocks * 0x4000))).
Proof.
  intros []. apply Forall_app in io_bytes0 as [Hp _]. apply Forall_arr; [done |]. rewrite io_prg0.
  apply Z.mod_pos_bound. lia.
Qed.

(** C29. A cartridge boots.  For every iNES file with one or two program blocks,
    one pattern block and mapper 0 or 3, [fce_load_rom] returns 0, and after
    [fce_init] the emulated CPU reads the program at 0x8000 to 0xFFFF, a single
    block twice; the pattern memory of the PPU holds the pattern block, the
    mirroring is the header's, the CPU stands at the reset vector of the program
    with its stack pointer at 0xFD and interrupts off; and without bank
    switching the machine is well formed, so that [cpu_run] returns. *)
Theorem rom_boots keys blocks flags reserved prg chr : ines_ok blocks flags reserved prg chr ->
  let at_ a := arr prg ((a - 0x8000) mod (blocks * 0x4000)) in
  exists s', (r ← fce_load_rom (ines blocks flags reserved prg chr); _ ← fce_init; mret r) (nes_zero keys) = Ok (0, s') /\
    (forall a, 0x8000 <= a < 0x10000 -> memory_readb a s' = Ok (at_ a, s')) /\
    (forall i, 0 <= i < 0x2000 -> vram (PPU_RAM s') i = arr chr i) /\
    cpu s' = mkCpu (at_ 0xFFFC + 256 * at_ 0xFFFD) 0xFD 0 0 0 0x24 /\
    mirroring_xor (ppu s') = (if Z.odd flags.1 then 0x800 else 0x400) /\
    (mapper flags = 0 -> nes_wf s').
Proof.
  intros Hok at_. destruct (load_run _ _ _ _ _ Hok (nes_zero keys) eq_refl) as (s1 & E1 & C1 & K1).
  destruct (fce_init_run s1) as (s2 & E2 & C2 & I2 & T2 & R2 & P2). exists s2. rewrite C1 in C2.
  assert (Hm : forall a, 0x8000 <= a < 0x10000 -> aget (memory s2) a = at_ a).
  { intros a Ha. change (memory s2) with (ct_memory (cartridge s2)). rewrite C2. apply prg_at; [apply Hok | apply Hok | done]. }
  assert (Hv : reset_vector s1 = at_ 0xFFFC + 256 * at_ 0xFFFD).
  { unfold reset_vector. replace (memory s1) with (memory s2) by (change (ct_memory (cartridge s2) = ct_memory (cartridge s1)); by rewrite C2, C1).
    rewrite !Hm, Z.shiftl_mul_pow2 by lia. pose proof (prg_byte _ _ _ _ _ 0xFFFC Hok) as B1. pose proof (prg_byte _ _ _ _ _ 0xFFFD Hok) as B2.
    fold (at_ 0xFFFC) in B1. fold (at_ 0xFFFD) in B2. unfold is_byte in B1, B2. rewrite word_id; lia. }
  assert (Hx : mirroring_xor (ppu s2) = if Z.odd flags.1 then 0x800 else 0x400).
  { rewrite P2. cbn [mirroring_xor]. change (rom_type s1) with (ct_type (cartridge s1)). rewrite C1. cbn [ct_type].
    change 1 with (Z.ones 1). rewrite Z.land_ones, Zmod_odd, (Z.odd_add_mul_even _ 256) by (lia || by exists 128).
    by destruct (Z.odd flags.1). }
  split_and!; [| | | by rewrite R2, Hv | done |].
  - rewrite (nes_bind _ _ _ _ _ E1), (nes_bind _ _ _ _ _ E2). done.
  - intros a Ha. by rewrite readb_rom, Hm by lia.
  - intros i Hi. unfold vram. rewrite real_low by lia. change (PPU_RAM s2) with (ct_vram (cartridge s2)).
    rewrite C2. cbn [ct_vram]. rewrite aget_copy_in, (io_chr _ _ _ _ _ Hok). replace ((0 <=? i) && _) with true by lia.
    by rewrite Z.sub_0_r.
  - intros Hm0. injection K1 as K1 K2 K3 K4 K5 K6 K7 K8 K9. injection I2 as I2 I3 I4 I5 I6 I7 I8. injection C2 as _ M2 M3 _ M5.
    destruct (proj1 (Forall_app _ _ _) (io_bytes _ _ _ _ _ Hok)) as [Bp Bc].
    constructor; rewrite ?I2, ?I3, ?I4, ?I5, ?I6, ?I7, ?I8, ?K2, ?K3, ?K4, ?K6, ?K7, ?K8, ?K9, ?M2, ?M3, ?M5, ?Hm0; try done.
    + rewrite R2. constructor; cbn -[reset_vector]; unfold is_byte; first [apply word_is | lia].
    + constructor; rewrite ?Hx; rewrite ?P2, ?K5; cbn; try (unfold is_byte; lia). destruct (Z.odd flags.1); set_solver.
    + cbn. auto using bytes_copy_in, bytes_empty.
    + cbn. unfold prg_in. destruct (blocks =? 1); auto using bytes_copy_in, bytes_empty.
Qed.

(** Sixteen kilobytes of NOP whose vectors point to their start. *)
Definition nop_rom : list Z := replicate (Z.to_nat 16378) 0xEA ++ [0; 0x80; 0; 0x80; 0; 0x80].

Lemma rom_boots_witness :
  let rom := ines 1 (1, 0) (replicate 8 0) nop_rom (replicate (Z.to_nat 8192) 0x55) in
  exists s', (r ← fce_load_rom rom; _ ← fce_init; mret r) (nes_zero []) = Ok (0, s') /\
    rPC (cpu s') = 0x8000 /\ mirroring_xor (ppu s') = 0x800 /\ nes_wf s'.
Proof.
  intros rom. assert (Hok : ines_ok 1 (1, 0) (replicate 8 0) nop_rom (replicate (Z.to_nat 8192) 0x55)).
  { constructor; [by left | by split | by left | reflexivity | vm_compute; reflexivity | vm_compute; reflexivity |].
    unfold nop_rom. repeat rewrite Forall_app. split_and!; [by apply Forall_replicate | by repeat constructor | by apply Forall_replicate]. }
  destruct (rom_boots [] 1 (1, 0) (replicate 8 0) nop_rom (replicate (Z.to_nat 8192) 0x55) Hok) as (s' & E & _ & _ & C & X & W).
  exists s'. split; [exact E |]. split; [| split; [exact X | exact (W eq_refl)]].
  apply (f_equal rPC) in C. vm_compute in C. vm_compute. exact C.
Defined.
